(* ===== verification/_CoqProject ===== *)
-Q . S2P
Prelude.v
Protocol.v
MBuf.v
PktBuf.v
Proto.v
Messages.v
IOBuf.v
SBuf.v
PoolSpec.v
World.v
Objects.v
Launch.v
Cancel.v
Limits.v
Terminate.v
Janitor.v
Pooler.v
Isolation.v
Serving.v
Refs.v
Prepare.v
Statements.v
Transparent.v
Contract.v
Work.v
Relay.v
Idle.v
AATree.v
AABalance.v
AAHeap.v
CBTree.v
StrSet.v
Inet.v
Base64.v
Sha2.v
Hmac.v
ScramCommon.v
Tokens.v
Scram.v
ScramText.v
ScramExchange.v
ScramSafety.v
HBA.v
HBANet.v
HBAParse.v
Access.v
Quote.v
Varcache.v
Params.v
Session.v
