(* ===== verification/Prelude.v ===== *)
(** * PgBouncer: a verification library

    PgBouncer is a connection pooler for PostgreSQL: clients connect to it as to
    a server, and their packets are relayed over a smaller number of server
    connections.  This library models its core in Rocq, as functions translated
    from the C code, and proves what makes that code correct.

    ** The program

    - Bytes.  A socket is read into a fixed block (include/iobuf.h) by the stream
      buffer (src/sbuf.c), whose callback looks at each packet header
      (src/proto.c over lib/usual/mbuf.h) and says whether the packet is sent on,
      skipped or handled.  Packets of its own PgBouncer builds with src/pktbuf.c.
    - Connections.  src/objects.c moves clients and servers between the lists of
      their pool, links a client to a server, opens connections within the
      configured limits, closes them, and passes on cancel requests.
    - Work.  src/client.c and src/server.c handle the packets of a linked pair and
      decide when the server goes back to the pool.  Requests not yet answered
      are kept in a queue; named prepared statements are renamed and prepared
      again on other servers (src/prepare.c, src/messages.c).
    - Session parameters.  src/varcache.c keeps what clients and servers have set,
      with shared strings (lib/usual/strpool.c over cbtree.c), and brings a server
      to the values of its next client with commands quoted by lib/usual/pgutil.c.
    - Logins.  src/hba.c decides from the HBA and ident files how a client has to
      authenticate; src/scram.c authenticates clients, and PgBouncer to servers,
      with the routines of src/common.
    - Tables.  Users are kept in AA trees (lib/usual/aatree.c).

    ** Conventions

    This file has the outcome monad [res]: [Ok], [Fatal] for a failed Assert or
    fatal(), [Undef] for undefined behaviour (an access outside a block, through
    NULL or to freed memory), and [NoFuel].  [SM] threads a state through it.
    Integers are [Z] with the reductions of their C type written out ([u32],
    [s32], ...); a block of memory is the list of its bytes; an object that is
    shared is an entry of a store under a name.  What the code calls outside the
    repository (kernel, libevent, allocator, TLS) is an argument: a class with
    the documented behaviour as laws, or an oracle for the outcome of each call.

    A theorem that code returns is stated as such: the result is [Ok], which
    excludes the other three outcomes.  Where recursion is not structural it has
    fuel, and running out of it is [NoFuel], shown not to happen:
    - stream buffer loops: each turn moves or parses bytes of the block (SBuf);
    - closing a connection may close others: the depth [disconnect_depth] is enough
      for the states that can be reached (Terminate);
    - searches in trees: as many steps as there are nodes (AAHeap) or bits in the
      longest key (CBTree);
    - name lists of HBA rules: two turns more than characters are left, one per
      token; nested name files: the number of descriptors [fds], after which the
      open fails as it does in the program (HBAParse, Access);
    - SHA-256: one turn per 64 bytes of data, SCRAM attributes: two characters per
      turn, both bounded by the length of the data (Sha2, ScramSafety);
    - decimal numbers: twenty digits hold 64 bits (this file).

    ** Files and theorems

    Bytes: Protocol (include/common/protocol.h), MBuf, PktBuf, Proto, Messages,
    IOBuf, SBuf, each after the source of that name.  Packets are built and
    read back as the protocol says, [Proto.get_header] is the header grammar, and
    [SBuf.sbuf_relays_stream] shows that what arrives at the other side is what
    the callback decided, however reads and sends are cut.

    Connections: PoolSpec is an abstract pool with its invariants; World the
    store of sockets, pools, databases and users (include/bouncer.h); Objects,
    Launch and Cancel the operations of src/objects.c and Janitor the scans of
    src/janitor.c over unused servers, shown to make only steps of PoolSpec;
    Limits and Terminate the limits and that calls return; Pooler the
    reachable states: links are exclusive, lists match states, counts are exact;
    Isolation and Serving what an operation does to others.

    Work: Refs has counting tools; Prepare is src/prepare.c with the queue of
    requests; Statements, Transparent and Contract the contract that a client's
    statement names are its own, over all runs in which memory suffices, as long
    as no request was undone on the server, and what undoing leaves behind; Work
    has the packet handlers of src/client.c and src/server.c, Relay shows that
    answers come in turn, also through errors and COPY, Idle that a server is
    released only when it is idle or has been sent a test query only.

    Session parameters: CBTree (a finite map), Quote (literals read back by
    PostgreSQL's lexical rules), Varcache, Params (exact reference counts) and
    Session: after the commands are executed the server has the client's values,
    but for those too long for the buffer they are quoted in.

    Logins: Inet (addresses as texts), StrSet, Tokens, HBA, HBANet, HBAParse are
    src/hba.c; Access states what a file of rules means and that the loaded rules
    decide so.  Base64, Sha2, Hmac and ScramCommon are the routines of src/common
    with their standards as specifications; Scram is src/scram.c with its callers
    in src/client.c and src/proto.c; ScramText, ScramExchange and ScramSafety show
    that secrets read back, that both sides of an exchange accept each other when
    they share the password, that keys can be passed through, and that nothing
    but a proof for this exchange is accepted.

    Tables: AATree, AABalance and AAHeap: the tree is balanced and is a sorted list.

    What the code does wrong is stated by theorems as well: in the modules named
    Findings, and by [Contract.parse_oom_leaves_freed_entries],
    [Contract.failed_parse_keeps_name], [Contract.undo_can_invent_statement],
    [Idle.test_released_unanswered] and [Isolation.held_server_escapes_dirty_tag].

    ** Not modelled

    Out of reach of a shallow model: TLS, DNS, PAM, LDAP and the event loop, which
    are calls into other libraries and the kernel; they are parameters where the
    code above depends on them.  Left out for their size: the startup packet and
    the choice of the pool in src/client.c and src/server.c, the admin console
    (src/admin.c), the timeouts of src/janitor.c, the configuration files
    (src/loader.c, src/main.c), SASLprep with its Unicode tables (a parameter of
    Scram), MD5, SHA-224/384/512 (never selected) and the unused parts of libusual.
    Within the modelled parts log messages, statistics and the printing of SHOW
    tables are left out, and so is the cleanup after a failed allocation where a
    file says that allocations succeed. *)

From stdpp Require Import base list option numbers strings.
From Stdlib Require Export ZArith Lia.

#[export] Set Default Proof Using "Type".

Open Scope Z_scope.

(** ** Outcomes of C code

    [Ok] is a normal return.  [Fatal] is a call of [fatal()], [die()] or a
    failed [Assert()], which end the process.  [Undef] is undefined behaviour
    of C, in this library always an access outside an object.  [NoFuel] is
    the loop bound of the model running out; theorems show where it cannot. *)
Inductive res (A : Type) : Type :=
| Ok (a : A)
| Fatal
| Undef
| NoFuel.

Arguments Ok {A} a.
Arguments Fatal {A}.
Arguments Undef {A}.
Arguments NoFuel {A}.

#[export] Instance res_ret : MRet res := fun A a => Ok a.

#[export] Instance res_bind : MBind res := fun A B f m =>
  match m with
  | Ok a => f a
  | Fatal => Fatal
  | Undef => Undef
  | NoFuel => NoFuel
  end.

(** [Assert(e)] of lib/usual/base.h, in a build with assertions. *)
Definition Assert (b : bool) : res unit := if b then Ok tt else Fatal.

Definition is_ok {A} (r : res A) : Prop := exists a, r = Ok a.

(** ** State passing

    Code that reads and writes the state [S] of a component: a function of
    the state with an outcome. *)
Definition SM (S A : Type) : Type := S -> res (A * S).

#[export] Instance SM_ret S : MRet (SM S) := fun A a s => Ok (a, s).

#[export] Instance SM_bind S : MBind (SM S) := fun A B f m s =>
  match m s with
  | Ok (a, s') => f a s'
  | Fatal => Fatal
  | Undef => Undef
  | NoFuel => NoFuel
  end.

Definition lift {S A} (r : res A) : SM S A := fun s =>
  match r with
  | Ok a => Ok (a, s)
  | Fatal => Fatal
  | Undef => Undef
  | NoFuel => NoFuel
  end.

Definition getS {S} : SM S S := fun s => Ok (s, s).
Definition putS {S} (s : S) : SM S unit := fun _ => Ok (tt, s).
Definition modS {S} (f : S -> S) : SM S unit := fun s => Ok (tt, f s).
Definition AssertS {S} (b : bool) : SM S unit := lift (Assert b).

(** [total P m Q]: from a state in [P] the code returns, and [Q] holds of the
    result and the new state.  [partial P m Q]: if it returns, [Q] holds. *)
Definition total {S A} (P : S -> Prop) (m : SM S A) (Q : A -> S -> Prop) : Prop :=
  forall s, P s -> exists a s', m s = Ok (a, s') /\ Q a s'.
Definition partial {S A} (P : S -> Prop) (m : SM S A) (Q : A -> S -> Prop) : Prop :=
  forall s a s', P s -> m s = Ok (a, s') -> Q a s'.

(** ** Fixed-width integers

    A w-bit unsigned value is a [Z] in [0, 2^w); conversions and wrapping
    arithmetic reduce modulo 2^w. *)
Definition UINT_MAX : Z := 2 ^ 32 - 1.
Definition INT_MAX : Z := 2 ^ 31 - 1.
Definition u8 (z : Z) : Z := z mod 2 ^ 8.
Definition u16 (z : Z) : Z := z mod 2 ^ 16.
Definition u32 (z : Z) : Z := z mod 2 ^ 32.
Definition u64 (z : Z) : Z := z mod 2 ^ 64.

Definition is_u8 (z : Z) : Prop := 0 <= z < 2 ^ 8.
Definition is_u32 (z : Z) : Prop := 0 <= z < 2 ^ 32.

(** Conversion to [int]: reduction modulo 2^32 into [-2^31, 2^31). *)
Definition s32 (z : Z) : Z :=
  let r := z mod 2 ^ 32 in if bool_decide (r < 2 ^ 31) then r else r - 2 ^ 32.

(** ** Memory

    An allocated block is the list of its bytes; offsets are [Z] as the C
    code computes them, and an access outside the block is [Undef]. *)
Definition zlen {A} (l : list A) : Z := Z.of_nat (length l).
Definition ztake {A} (n : Z) (l : list A) : list A := take (Z.to_nat n) l.
Definition zdrop {A} (n : Z) (l : list A) : list A := drop (Z.to_nat n) l.

(** The bytes at offsets [lo, hi). *)
Definition slice {A} (lo hi : Z) (l : list A) : list A := ztake (hi - lo) (zdrop lo l).

Definition mem_load (m : list Z) (ofs len : Z) : res (list Z) :=
  if bool_decide (0 <= ofs /\ 0 <= len /\ ofs + len <= zlen m)
  then Ok (slice ofs (ofs + len) m) else Undef.

Definition mem_store (m : list Z) (ofs : Z) (bs : list Z) : res (list Z) :=
  if bool_decide (0 <= ofs /\ ofs + zlen bs <= zlen m)
  then Ok (ztake ofs m ++ bs ++ zdrop (ofs + zlen bs) m) else Undef.

(** [m[ofs]] *)
Definition mem_get (m : list Z) (ofs : Z) : res Z :=
  if bool_decide (0 <= ofs)
  then match m !! Z.to_nat ofs with Some v => Ok v | None => Undef end
  else Undef.

(** ** Socket calls

    The outcome of one [send] or [recv]: the number of bytes moved, -1 with
    errno EAGAIN, or -1 with another errno. *)
Inductive iores :=
| IoOk (n : Z)
| IoAgain
| IoFail.

(** ** Number formatting

    [dec n] is printf's %llu (and %d for a non-negative int): the decimal
    digits of [n] as ASCII codes.  Twenty digits are enough for 64 bits. *)
Fixpoint dec_digits (fuel : nat) (n : Z) (acc : list Z) : list Z :=
  match fuel with
  | O => acc
  | S fuel =>
      let acc := (48 + n mod 10) :: acc in
      if bool_decide (n / 10 = 0) then acc else dec_digits fuel (n / 10) acc
  end.

Definition dec (n : Z) : list Z := dec_digits 20 n [].

(** The bytes of a C string literal. *)
Definition str (s : string) : list Z :=
  (fun a => Z.of_nat (Ascii.nat_of_ascii a)) <$> String.list_ascii_of_string s.

(** printf's %d *)
Definition dec_int (n : Z) : list Z := if bool_decide (n < 0) then 45 :: dec (- n) else dec n.

(** printf's %02x on a byte *)
Definition hex_digit (n : Z) : Z := if bool_decide (n < 10) then 48 + n else 87 + n.
Definition hex2 (n : Z) : list Z := [hex_digit (n / 16); hex_digit (n mod 16)].

(** ** realloc()

    The allocator may fail; when it does not, the new block has the requested
    size and keeps the bytes of the old one, as ISO C documents.  Which calls
    fail and what the fresh bytes hold is left to the instance. *)
Class Realloc := {
  realloc : list Z -> Z -> option (list Z);
  realloc_len : forall p n q, 0 <= n -> realloc p n = Some q -> zlen q = n;
  realloc_keep : forall p n q, zlen p <= n -> realloc p n = Some q -> ztake (zlen p) q = p;
  realloc_bytes : forall p n q, Forall is_u8 p -> realloc p n = Some q -> Forall is_u8 q
}.

(** ** Automation

    [zlen] collects the length equations; [zlia] runs them before [lia]. *)
Create HintDb pgb discriminated.
Create Rewrite HintDb zlen.

Lemma zlen_nonneg {A} (l : list A) : 0 <= zlen l.
Proof. unfold zlen; lia. Qed.

Lemma zlen_nil {A} : zlen (@nil A) = 0.
Proof. reflexivity. Qed.

Lemma zlen_cons {A} (x : A) l : zlen (x :: l) = 1 + zlen l.
Proof. unfold zlen; simpl; lia. Qed.

Lemma zlen_app {A} (l k : list A) : zlen (l ++ k) = zlen l + zlen k.
Proof. unfold zlen; rewrite length_app; lia. Qed.

Lemma zlen_ztake {A} n (l : list A) : zlen (ztake n l) = Z.min (Z.max 0 n) (zlen l).
Proof. unfold zlen, ztake; rewrite length_take; lia. Qed.

Lemma zlen_zdrop {A} n (l : list A) : zlen (zdrop n l) = Z.max 0 (zlen l - Z.max 0 n).
Proof. unfold zlen, zdrop; rewrite length_drop; lia. Qed.

Lemma zlen_slice {A} lo hi (l : list A) :
  zlen (slice lo hi l) = Z.min (Z.max 0 (hi - lo)) (Z.max 0 (zlen l - Z.max 0 lo)).
Proof. unfold slice; rewrite zlen_ztake, zlen_zdrop; lia. Qed.

#[export] Hint Rewrite @zlen_nil @zlen_cons @zlen_app @zlen_ztake @zlen_zdrop @zlen_slice
  : zlen.

Ltac zpose :=
  repeat match goal with
  | |- context [zlen ?l] =>
      lazymatch goal with
      | _ : 0 <= zlen l |- _ => fail
      | _ => pose proof (zlen_nonneg l)
      end
  | _ : context [zlen ?l] |- _ =>
      lazymatch goal with
      | _ : 0 <= zlen l |- _ => fail
      | _ => pose proof (zlen_nonneg l)
      end
  end.

Ltac zlia := autorewrite with zlen in *; zpose; unfold UINT_MAX, INT_MAX, is_u8, is_u32 in *; lia.

(** Decides the bounds check in the goal (or hypothesis) with [zlia]. *)
Ltac zdecide :=
  repeat match goal with
  | |- context [bool_decide ?P] =>
      first [ rewrite (bool_decide_eq_true_2 P) by zlia
            | rewrite (bool_decide_eq_false_2 P) by zlia ]
  end.

(** Turns [bool_decide P = b] hypotheses into [P] or [~ P]. *)
Ltac bprop :=
  repeat match goal with
  | H : bool_decide _ = true |- _ => apply bool_decide_eq_true_1 in H
  | H : bool_decide _ = false |- _ => apply bool_decide_eq_false_1 in H
  end.

(** Case analysis on the first test the goal branches on. *)
Ltac bcase :=
  match goal with
  | |- context [if bool_decide ?P then _ else _] =>
      let E := fresh "Hb" in destruct (bool_decide P) eqn:E; bprop
  | |- context [if ?b then _ else _] =>
      let E := fresh "Hb" in destruct b eqn:E
  end.

(** Inverts a successful bind in a hypothesis. *)
Lemma res_bind_ok {A B} (m : res A) (f : A -> res B) b :
  (m ≫= f) = Ok b -> exists a, m = Ok a /\ f a = Ok b.
Proof. destruct m; cbn; try discriminate. eauto. Qed.

Lemma res_bind_assoc {A B C} (m : res A) (f : A -> res B) (g : B -> res C) :
  ((m ≫= f) ≫= g) = (m ≫= fun x => f x ≫= g).
Proof. by destruct m. Qed.

Ltac rinv :=
  repeat match goal with
  | H : mbind _ _ = Ok _ |- _ =>
      let a := fresh "a" in let E := fresh "E" in
      apply res_bind_ok in H; destruct H as (a & E & H)
  | H : mret _ = Ok _ |- _ => unfold mret, res_ret in H
  | H : Ok _ = Ok _ |- _ => injection H; clear H; intros; subst
  | H : Fatal = Ok _ |- _ => discriminate H
  | H : Undef = Ok _ |- _ => discriminate H
  | H : NoFuel = Ok _ |- _ => discriminate H
  | H : Assert ?b = Ok _ |- _ =>
      let E := fresh "Ha" in
      unfold Assert in H; destruct b eqn:E; [|discriminate H]
  end.

(** ** Rules for state-passing code *)

Lemma total_ret {S A} (P : S -> Prop) (a : A) (Q : A -> S -> Prop) :
  (forall s, P s -> Q a s) -> total P (mret a) Q.
Proof. intros HQ s HP. exists a, s. split; [done|auto]. Qed.

Lemma total_bind {S A B} (P : S -> Prop) (m : SM S A) (R : A -> S -> Prop) (k : A -> SM S B) Q :
  total P m R -> (forall a, total (R a) (k a) Q) -> total P (m ≫= k) Q.
Proof.
  intros Hm Hk s HP. destruct (Hm s HP) as (a & s1 & E & HR).
  destruct (Hk a s1 HR) as (b & s2 & E2 & HQ). exists b, s2. split; [|done].
  unfold mbind, SM_bind. by rewrite E.
Qed.

Lemma total_conseq {S A} (P P' : S -> Prop) (m : SM S A) (Q Q' : A -> S -> Prop) :
  total P' m Q' -> (forall s, P s -> P' s) -> (forall a s, Q' a s -> Q a s) -> total P m Q.
Proof. intros Hm HP HQ s Hs. destruct (Hm s (HP s Hs)) as (a & s' & E & ?). eauto. Qed.

Lemma partial_ret {S A} (P : S -> Prop) (a : A) (Q : A -> S -> Prop) :
  (forall s, P s -> Q a s) -> partial P (mret a) Q.
Proof. intros HQ s a' s' HP [= <- <-]. auto. Qed.

Lemma partial_bind {S A B} (P : S -> Prop) (m : SM S A) (R : A -> S -> Prop) (k : A -> SM S B) Q :
  partial P m R -> (forall a, partial (R a) (k a) Q) -> partial P (m ≫= k) Q.
Proof.
  intros Hm Hk s b s' HP. unfold mbind, SM_bind. destruct (m s) as [[a s1]| | |] eqn:E; try done.
  apply Hk. by apply (Hm s).
Qed.

Lemma partial_conseq {S A} (P P' : S -> Prop) (m : SM S A) (Q Q' : A -> S -> Prop) :
  partial P' m Q' -> (forall s, P s -> P' s) -> (forall a s, Q' a s -> Q a s) -> partial P m Q.
Proof. intros Hm HP HQ s a s' Hs E. apply HQ. apply (Hm s); auto. Qed.

Lemma SM_bind_ok {S A B} (m : SM S A) (k : A -> SM S B) s b s' :
  (m ≫= k) s = Ok (b, s') -> exists a s1, m s = Ok (a, s1) /\ k a s1 = Ok (b, s').
Proof. unfold mbind, SM_bind. destruct (m s) as [[a s1]| | |]; try done. eauto. Qed.

Lemma SM_bind_eq {S A B} (m : SM S A) (k : A -> SM S B) s a s1 :
  m s = Ok (a, s1) -> (m ≫= k) s = k a s1.
Proof. intros E. unfold mbind, SM_bind. by rewrite E. Qed.

(** Running state-passing code one step at a time: the equations of the
    database [sm] evaluate the first operation of a bind. *)
Create Rewrite HintDb sm.

Lemma bind_ret {S A B} (a : A) (k : A -> SM S B) s : (mret a ≫= k) s = k a s.
Proof. reflexivity. Qed.

Lemma bind_ok {S A B} (m : SM S A) (k : A -> SM S B) s b s'' :
  (m ≫= k) s = Ok (b, s'') -> exists a s', m s = Ok (a, s') /\ k a s' = Ok (b, s'').
Proof. unfold mbind, SM_bind. destruct (m s) as [[a s']| | |]; try done. eauto. Qed.

Lemma bind_lift_ok {S A B} (a : A) (k : A -> SM S B) s : (lift (Ok a) ≫= k) s = k a s.
Proof. reflexivity. Qed.

Lemma bind_assert {S B} (k : unit -> SM S B) s : (AssertS true ≫= k) s = k tt s.
Proof. reflexivity. Qed.

Lemma bind_getS {S B} (k : S -> SM S B) s : (getS ≫= k) s = k s s.
Proof. reflexivity. Qed.

Lemma bind_putS {S B} (s' : S) (k : unit -> SM S B) s : (putS s' ≫= k) s = k tt s'.
Proof. reflexivity. Qed.

Lemma bind_modS {S B} (f : S -> S) (k : unit -> SM S B) s : (modS f ≫= k) s = k tt (f s).
Proof. reflexivity. Qed.

Lemma SM_assoc {S A B C} (m : SM S A) (f : A -> SM S B) (g : B -> SM S C) s :
  ((m ≫= f) ≫= g) s = (m ≫= fun x => f x ≫= g) s.
Proof. unfold mbind, SM_bind. by destruct (m s) as [[a s1]| | |]. Qed.

#[export] Hint Rewrite @bind_ret @bind_lift_ok @bind_assert @bind_getS @bind_putS @bind_modS @SM_assoc : sm.

(** ** Weakest preconditions

    [wp m Q s]: if [m] returns from the state [s], then [Q] holds of the
    result and the new state. *)
Definition wp {S A} (m : SM S A) (Q : A -> S -> Prop) (s : S) : Prop :=
  forall a s', m s = Ok (a, s') -> Q a s'.

Lemma wp_bind {S A B} (m : SM S A) (k : A -> SM S B) Q s :
  wp m (fun a s' => wp (k a) Q s') s -> wp (m ≫= k) Q s.
Proof. intros H b s' E. apply SM_bind_ok in E as (a & s1 & E1 & E2). by eapply H. Qed.

Lemma wp_conseq {S A} (m : SM S A) (Q R : A -> S -> Prop) s :
  wp m Q s -> (forall a s', Q a s' -> R a s') -> wp m R s.
Proof. intros H HQ a s' E. auto. Qed.

Lemma wp_assoc {S A B C} (m : SM S A) (f : A -> SM S B) (g : B -> SM S C) Q s :
  wp ((m ≫= f) ≫= g) Q s -> wp (m ≫= fun x => f x ≫= g) Q s.
Proof. unfold wp. intros Hw a s' E. apply Hw. by rewrite SM_assoc. Qed.

Lemma wp_ret {S A} (a : A) (Q : A -> S -> Prop) s : Q a s -> wp (mret a) Q s.
Proof. by intros H b s' [= <- <-]. Qed.

Lemma wp_getS {S} (Q : S -> S -> Prop) s : Q s s -> wp getS Q s.
Proof. by intros H b s' [= <- <-]. Qed.

Lemma wp_modS {S} (f : S -> S) (Q : unit -> S -> Prop) s : Q tt (f s) -> wp (modS f) Q s.
Proof. by intros H b s' [= <- <-]. Qed.

Lemma wp_lift {S A} (r : res A) (Q : A -> S -> Prop) s : (forall a, r = Ok a -> Q a s) -> wp (lift r) Q s.
Proof. intros H b s' E. destruct r; try done. injection E as <- <-. auto. Qed.

Lemma wp_AssertS {S} (b : bool) (Q : unit -> S -> Prop) s : (b = true -> Q tt s) -> wp (AssertS b) Q s.
Proof. intros H. apply wp_lift. intros [] E. destruct b; [auto|done]. Qed.

(** ** Record updates

    [eta] rebuilds a record from its own fields; [field_setter eta proj] is
    the function that rebuilds it with a new value for the field [proj]. *)
Ltac field_setter eta proj :=
  let e := eval pattern proj in eta in
  lazymatch e with ?F proj => exact (fun v => F (fun _ => v)) end.

(** ** Memory lemmas *)

Lemma ztake_all {A} n (l : list A) : zlen l <= n -> ztake n l = l.
Proof. intros; unfold ztake; apply take_ge; unfold zlen in *; lia. Qed.

Lemma ztake_nonpos {A} n (l : list A) : n <= 0 -> ztake n l = [].
Proof. intros; unfold ztake. replace (Z.to_nat n) with 0%nat by lia. reflexivity. Qed.

Lemma zdrop_0 {A} n (l : list A) : n <= 0 -> zdrop n l = l.
Proof. intros; unfold zdrop. replace (Z.to_nat n) with 0%nat by lia. reflexivity. Qed.

Lemma ztake_app_le {A} n (l k : list A) : n <= zlen l -> ztake n (l ++ k) = ztake n l.
Proof. intros; unfold ztake; apply take_app_le; unfold zlen in *; lia. Qed.

Lemma ztake_app_ge {A} n (l k : list A) :
  zlen l <= n -> ztake n (l ++ k) = l ++ ztake (n - zlen l) k.
Proof.
  intros; unfold ztake. rewrite take_app_ge by (unfold zlen in *; lia).
  do 2 f_equal. unfold zlen in *; lia.
Qed.

Lemma zdrop_app_le {A} n (l k : list A) : n <= zlen l -> zdrop n (l ++ k) = zdrop n l ++ k.
Proof. intros; unfold zdrop; apply drop_app_le; unfold zlen in *; lia. Qed.

Lemma zdrop_app_ge {A} n (l k : list A) : zlen l <= n -> zdrop n (l ++ k) = zdrop (n - zlen l) k.
Proof.
  intros; unfold zdrop. rewrite drop_app_ge by (unfold zlen in *; lia).
  f_equal. unfold zlen in *; lia.
Qed.

Lemma ztake_ztake {A} n m (l : list A) : ztake n (ztake m l) = ztake (Z.min n m) l.
Proof. unfold ztake. rewrite take_take. f_equal; lia. Qed.

Lemma zdrop_zdrop {A} n m (l : list A) :
  0 <= n -> 0 <= m -> zdrop n (zdrop m l) = zdrop (m + n) l.
Proof. intros; unfold zdrop. rewrite drop_drop. f_equal; lia. Qed.

Lemma ztake_zdrop {A} n (l : list A) : ztake n l ++ zdrop n l = l.
Proof. apply take_drop. Qed.

Lemma slice_0 {A} hi (l : list A) : slice 0 hi l = ztake hi l.
Proof. unfold slice. rewrite zdrop_0 by lia. f_equal; lia. Qed.

Lemma slice_all {A} (l : list A) : slice 0 (zlen l) l = l.
Proof. rewrite slice_0. by apply ztake_all. Qed.

Lemma slice_nil {A} lo hi (l : list A) : hi <= lo -> slice lo hi l = [].
Proof. intros; unfold slice; apply ztake_nonpos; lia. Qed.

Lemma slice_split {A} lo mid hi (l : list A) :
  0 <= lo <= mid -> mid <= hi -> slice lo hi l = slice lo mid l ++ slice mid hi l.
Proof.
  intros; unfold slice.
  replace (zdrop mid l) with (zdrop (mid - lo) (zdrop lo l))
    by (rewrite zdrop_zdrop by lia; f_equal; lia).
  generalize (zdrop lo l); intros k. unfold ztake, zdrop.
  rewrite <- (take_drop (Z.to_nat (mid - lo)) (take (Z.to_nat (hi - lo)) k)).
  rewrite take_take, take_drop_commute. f_equal; [f_equal; lia|].
  f_equal; f_equal; lia.
Qed.

Lemma slice_slice {A} lo hi lo' hi' (l : list A) :
  0 <= lo -> 0 <= lo' -> hi' <= hi - lo ->
  slice lo' hi' (slice lo hi l) = slice (lo + lo') (lo + hi') l.
Proof.
  intros; unfold slice, ztake, zdrop.
  destruct (decide (hi' <= lo')) as [|].
  { replace (Z.to_nat (hi' - lo')) with 0%nat by lia.
    replace (Z.to_nat (lo + hi' - (lo + lo'))) with 0%nat by lia. reflexivity. }
  rewrite skipn_firstn_comm, drop_drop, take_take.
  f_equal; [lia|]. f_equal; lia.
Qed.

Lemma slice_app_l {A} lo hi (l k : list A) :
  0 <= lo -> hi <= zlen l -> slice lo hi (l ++ k) = slice lo hi l.
Proof.
  intros; unfold slice. destruct (decide (hi <= lo)).
  { rewrite !ztake_nonpos by lia; done. }
  rewrite zdrop_app_le by lia. apply ztake_app_le. zlia.
Qed.

(** Writing [bs] at [ofs] changes exactly the bytes [ofs, ofs + |bs|). *)
Lemma mem_store_ok m ofs bs :
  0 <= ofs -> ofs + zlen bs <= zlen m ->
  exists m', mem_store m ofs bs = Ok m' /\ zlen m' = zlen m
    /\ (forall lo, 0 <= lo <= ofs -> slice lo (ofs + zlen bs) m' = slice lo ofs m ++ bs)
    /\ ztake ofs m' = ztake ofs m
    /\ zdrop (ofs + zlen bs) m' = zdrop (ofs + zlen bs) m.
Proof.
  intros H1 H2. unfold mem_store. zdecide. eexists; split; [reflexivity|].
  assert (Hl : zlen (ztake ofs m) = ofs) by zlia.
  split; [zlia|]. split; [|split].
  - intros lo Hlo. rewrite (slice_split lo ofs) by zlia. f_equal.
    + rewrite slice_app_l by zlia. unfold slice.
      replace (ztake ofs m) with (slice 0 ofs m) by apply slice_0.
      change (ztake (ofs - lo) (zdrop lo (slice 0 ofs m))) with (slice lo ofs (slice 0 ofs m)).
      rewrite slice_slice by lia. unfold slice. f_equal; lia.
    + unfold slice. rewrite zdrop_app_ge by lia. rewrite Hl, zdrop_0 by lia.
      rewrite ztake_app_ge by zlia. rewrite ztake_nonpos by lia. apply app_nil_r.
  - rewrite ztake_app_le by lia. rewrite ztake_ztake. f_equal; lia.
  - rewrite zdrop_app_ge by zlia. rewrite zdrop_app_ge by zlia.
    rewrite zdrop_0 by zlia. done.
Qed.

(** Two adjacent writes are one. *)
Lemma mem_store_app m ofs bs1 bs2 :
  0 <= ofs -> ofs + zlen bs1 + zlen bs2 <= zlen m ->
  (m ← mem_store m ofs bs1; mem_store m (ofs + zlen bs1) bs2) = mem_store m ofs (bs1 ++ bs2).
Proof.
  intros H1 H2. unfold mem_store. zdecide. cbn [mbind res_bind]. zdecide. f_equal.
  set (P := ztake ofs m). assert (HP : zlen P = ofs) by (unfold P; zlia).
  rewrite ztake_app_ge, HP by zlia. rewrite ztake_app_le, ztake_all by zlia.
  rewrite <- !app_assoc. do 3 f_equal.
  rewrite zdrop_app_ge, HP by zlia. rewrite zdrop_app_ge, zdrop_zdrop by zlia.
  f_equal. zlia.
Qed.

(** Overwriting a part of known position. *)
Lemma mem_store_middle x y z y' :
  zlen y' = zlen y -> mem_store (x ++ y ++ z) (zlen x) y' = Ok (x ++ y' ++ z).
Proof.
  intros Hy. unfold mem_store. zdecide. f_equal.
  rewrite ztake_app_le, ztake_all by zlia. do 2 f_equal.
  rewrite zdrop_app_ge by zlia. rewrite zdrop_app_ge, zdrop_0 by zlia. done.
Qed.

Lemma mem_load_ok m ofs len :
  0 <= ofs -> 0 <= len -> ofs + len <= zlen m -> mem_load m ofs len = Ok (slice ofs (ofs + len) m).
Proof. intros; unfold mem_load; by zdecide. Qed.

(** [m[ofs]] is the one-byte slice at [ofs]. *)
Lemma mem_get_ok m ofs :
  0 <= ofs < zlen m -> exists v, mem_get m ofs = Ok v /\ slice ofs (ofs + 1) m = [v].
Proof.
  intros H. unfold mem_get. zdecide.
  destruct (m !! Z.to_nat ofs) as [v|] eqn:E.
  - exists v; split; [done|]. unfold slice, ztake, zdrop.
    replace (Z.to_nat (ofs + 1 - ofs)) with 1%nat by lia.
    rewrite (drop_S _ _ _ E). done.
  - apply lookup_ge_None in E. unfold zlen in H; lia.
Qed.

(** A byte after a write. *)
Lemma mem_store_get m ofs bs m' i :
  mem_store m ofs bs = Ok m' ->
  mem_get m' i = if bool_decide (ofs <= i < ofs + zlen bs) then mem_get bs (i - ofs) else mem_get m i.
Proof.
  unfold mem_store. case_bool_decide as H; [|done]. intros [= <-]. unfold mem_get, zlen, ztake, zdrop in *.
  destruct (decide (0 <= i)); [|rewrite !(bool_decide_eq_false_2 (0 <= i)) by done; by case_bool_decide; [lia|]].
  rewrite (bool_decide_eq_true_2 (0 <= i)) by done. case_bool_decide.
  - rewrite bool_decide_eq_true_2 by lia. rewrite lookup_app_r, length_take by (rewrite length_take; lia).
    rewrite lookup_app_l by lia. by replace (Z.to_nat i - Z.to_nat ofs `min` length m)%nat with (Z.to_nat (i - ofs)) by lia.
  - destruct (decide (i < ofs)).
    + rewrite lookup_app_l by (rewrite length_take; lia). by rewrite lookup_take_lt by lia.
    + rewrite lookup_app_r, length_take by (rewrite length_take; lia). rewrite lookup_app_r by lia. rewrite lookup_drop.
      by replace (_ + _)%nat with (Z.to_nat i) by lia.
Qed.

Lemma u32_small z : 0 <= z <= UINT_MAX -> u32 z = z.
Proof. intros; unfold u32; apply Z.mod_small; zlia. Qed.

Lemma u32_bound z : 0 <= u32 z <= UINT_MAX.
Proof. unfold u32. pose proof (Z.mod_pos_bound z (2 ^ 32)). zlia. Qed.

Lemma u8_is_u8 z : is_u8 (u8 z).
Proof. unfold u8, is_u8. apply Z.mod_pos_bound; lia. Qed.

Lemma Forall_ztake {A} (P : A -> Prop) n l : Forall P l -> Forall P (ztake n l).
Proof. apply Forall_take. Qed.

Lemma Forall_zdrop {A} (P : A -> Prop) n l : Forall P l -> Forall P (zdrop n l).
Proof. apply Forall_drop. Qed.

Lemma Forall_slice {A} (P : A -> Prop) lo hi l : Forall P l -> Forall P (slice lo hi l).
Proof. intros; apply Forall_ztake, Forall_zdrop; done. Qed.

#[export] Hint Resolve u8_is_u8 Forall_ztake Forall_zdrop Forall_slice zlen_nonneg : pgb.

Lemma mem_store_bytes m ofs bs m' :
  mem_store m ofs bs = Ok m' -> Forall is_u8 m -> Forall is_u8 bs -> Forall is_u8 m'.
Proof.
  unfold mem_store. intros Hm ? ?. destruct (bool_decide _); rinv.
  rewrite !Forall_app. auto with pgb.
Qed.

Lemma str_bytes s : Forall is_u8 (str s).
Proof. unfold str. apply Forall_fmap, Forall_true. intros a. pose proof (Ascii.nat_ascii_bounded a). unfold is_u8. simpl. lia. Qed.
#[export] Hint Resolve str_bytes : pgb.

Lemma dec_digits_bytes fuel n acc : 0 <= n -> Forall is_u8 acc -> Forall is_u8 (dec_digits fuel n acc).
Proof.
  revert n acc; induction fuel as [|fuel IH]; intros n acc Hn Ha; simpl; [done|].
  assert (Forall is_u8 ((48 + n mod 10) :: acc)).
  { constructor; [|done]. pose proof (Z.mod_pos_bound n 10). unfold is_u8; lia. }
  case_bool_decide; [done|]. apply IH; [|done]. apply Z.div_pos; lia.
Qed.

Lemma dec_digits_len fuel n acc :
  zlen acc <= zlen (dec_digits fuel n acc) <= zlen acc + Z.of_nat fuel.
Proof.
  revert n acc; induction fuel as [|fuel IH]; intros n acc; simpl; [lia|].
  case_bool_decide; [zlia|]. specialize (IH (n / 10) ((48 + n mod 10) :: acc)). zlia.
Qed.

Lemma dec_bytes n : 0 <= n -> Forall is_u8 (dec n).
Proof. intros; by apply dec_digits_bytes. Qed.

Lemma dec_len n : zlen (dec n) <= 20.
Proof. unfold dec. pose proof (dec_digits_len 20 n []). zlia. Qed.

(** Reading the digits back gives the number, so [dec] is injective. *)
Definition undec (l : list Z) : Z := foldl (fun v d => 10 * v + (d - 48)) 0 l.

Lemma dec_digits_app fuel n acc : dec_digits fuel n acc = dec_digits fuel n [] ++ acc.
Proof.
  revert n acc. induction fuel as [|fuel IH]; intros n acc; simpl; [done|].
  bcase; [done|]. rewrite IH, (IH _ [_]). by rewrite <- app_assoc.
Qed.

Lemma undec_digits fuel n : 0 <= n < 10 ^ Z.of_nat fuel -> undec (dec_digits fuel n []) = n.
Proof.
  revert n. induction fuel as [|fuel IH]; intros n Hn; simpl; [cbn in Hn; unfold undec; simpl; lia|].
  rewrite Nat2Z.inj_succ, Z.pow_succ_r in Hn by lia.
  pose proof (Z.div_mod n 10 ltac:(lia)). pose proof (Z.mod_pos_bound n 10 ltac:(lia)).
  bcase; [unfold undec; simpl; lia|].
  rewrite dec_digits_app. unfold undec in *. rewrite foldl_app. simpl. rewrite IH; [lia|].
  split; [apply Z.div_pos; lia | apply Z.div_lt_upper_bound; lia].
Qed.

Lemma dec_inj n m : 0 <= n < 2 ^ 64 -> 0 <= m < 2 ^ 64 -> dec n = dec m -> n = m.
Proof.
  intros Hn Hm E. rewrite <- (undec_digits 20 n), <- (undec_digits 20 m) by (simpl; lia).
  unfold dec in E. by rewrite E.
Qed.

(** Or with a shifted value is a sum when the bits do not meet. *)
Lemma lor_shift x y k m : 0 <= k -> 0 <= y < 2 ^ k -> m = 2 ^ k -> Z.lor (Z.shiftl x k) y = x * m + y.
Proof.
  intros Hk Hy ->. rewrite <- Z.lxor_lor, <- Z.add_nocarry_lxor; [by rewrite Z.shiftl_mul_pow2|..].
  all: apply Z.bits_inj'; intros i Hi; rewrite Z.land_spec, Z.bits_0; destruct (decide (i < k)).
  all: try by rewrite Z.shiftl_spec_low.
  all: rewrite andb_comm; apply andb_false_intro1; destruct (decide (y = 0)) as [->|]; [apply Z.bits_0|].
  all: apply Z.bits_above_log2; [lia|]; apply Z.log2_lt_pow2; [lia|]; eapply Z.lt_le_trans; [apply Hy|]; apply Z.pow_le_mono_r; lia.
Qed.

(** A property of a range of numbers, by computation. *)
Lemma range_cases (P : Z -> bool) (n : nat) z :
  forallb P (map Z.of_nat (seq 0 n)) = true -> 0 <= z < Z.of_nat n -> P z = true.
Proof.
  intros Hall Hz. rewrite forallb_forall in Hall. apply Hall, in_map_iff. exists (Z.to_nat z).
  split; [lia|]. apply in_seq. lia.
Qed.

(** Rewrites a wrapping operation whose value fits. *)
Ltac usmall := repeat rewrite u32_small by zlia.

(** An allocator that never fails and hands out zeroed memory: the contract
    of [Realloc] can be met. *)
Definition zero_realloc (p : list Z) (n : Z) : option (list Z) :=
  Some (ztake n p ++ replicate (Z.to_nat (n - zlen p)) 0).

#[export] Program Instance zero_Realloc : Realloc := {| realloc := zero_realloc |}.
Next Obligation.
  intros p n q Hn [= <-]. rewrite zlen_app, zlen_ztake. unfold zlen at 2. rewrite length_replicate.
  zlia.
Qed.
Next Obligation.
  intros p n q Hn [= <-]. rewrite (ztake_all n) by done.
  rewrite ztake_app_le by lia. by apply ztake_all.
Qed.
Next Obligation.
  intros p n q Hp [= <-]. apply Forall_app; split; auto with pgb.
  apply Forall_replicate. unfold is_u8; lia.
Qed.
