(* ===== verification/Protocol.v ===== *)
(** * Wire protocol codes (include/common/protocol.h, include/bouncer.h, include/proto.h)

    Message type bytes by their names in the headers, the codes of the
    untyped startup packets, and the two header lengths. *)

From S2P Require Import Prelude.

(** ** Requests of the frontend *)
Definition PqMsg_Bind : Z := 66.
Definition PqMsg_Close : Z := 67.
Definition PqMsg_Describe : Z := 68.
Definition PqMsg_Execute : Z := 69.
Definition PqMsg_FunctionCall : Z := 70.
Definition PqMsg_Flush : Z := 72.
Definition PqMsg_Parse : Z := 80.
Definition PqMsg_Query : Z := 81.
Definition PqMsg_Sync : Z := 83.
Definition PqMsg_Terminate : Z := 88.
Definition PqMsg_CopyFail : Z := 102.
Definition PqMsg_PasswordMessage : Z := 112.
Definition PqMsg_SASLInitialResponse : Z := 112.
Definition PqMsg_SASLResponse : Z := 112.

(** ** Responses of the backend *)
Definition PqMsg_ParseComplete : Z := 49.
Definition PqMsg_BindComplete : Z := 50.
Definition PqMsg_CloseComplete : Z := 51.
Definition PqMsg_NotificationResponse : Z := 65.
Definition PqMsg_CommandComplete : Z := 67.
Definition PqMsg_DataRow : Z := 68.
Definition PqMsg_ErrorResponse : Z := 69.
Definition PqMsg_CopyInResponse : Z := 71.
Definition PqMsg_CopyOutResponse : Z := 72.
Definition PqMsg_EmptyQueryResponse : Z := 73.
Definition PqMsg_BackendKeyData : Z := 75.
Definition PqMsg_NoticeResponse : Z := 78.
Definition PqMsg_AuthenticationRequest : Z := 82.
Definition PqMsg_ParameterStatus : Z := 83.
Definition PqMsg_RowDescription : Z := 84.
Definition PqMsg_FunctionCallResponse : Z := 86.
Definition PqMsg_CopyBothResponse : Z := 87.
Definition PqMsg_ReadyForQuery : Z := 90.
Definition PqMsg_NoData : Z := 110.
Definition PqMsg_PortalSuspended : Z := 115.
Definition PqMsg_ParameterDescription : Z := 116.
Definition PqMsg_NegotiateProtocolVersion : Z := 118.

(** ** Both directions *)
Definition PqMsg_CopyDone : Z := 99.
Definition PqMsg_CopyData : Z := 100.

(** ** Untyped packets (bouncer.h) *)
Definition PKT_STARTUP_V2 : Z := 131072.
Definition PKT_STARTUP_V3 : Z := 196608.
Definition PKT_STARTUP_V3_UNSUPPORTED : Z := 196609.
Definition PKT_STARTUP_V4 : Z := 262144.
Definition PKT_CANCEL : Z := 80877102.
Definition PKT_SSLREQ : Z := 80877103.
Definition PKT_GSSENCREQ : Z := 80877104.

(** ** Header lengths (proto.h) *)
Definition OLD_HEADER_LEN : Z := 8.
Definition NEW_HEADER_LEN : Z := 5.

(** ** Sizes (bouncer.h, prepare.h) *)
Definition MAX_PASSWORD : Z := 65531.
Definition MAX_SERVER_PREPARED_STMT_NAME : Z := 31.
