(* ===== verification/MBuf.v ===== *)
(** * Memory buffers (lib/usual/mbuf.h, lib/usual/mbuf.c)

    [struct MBuf] with every read and write function of the header and
    [mbuf_make_room] of mbuf.c.  The read and write positions are 32-bit
    unsigned, and the comparisons the code makes on them wrap as they do in C.
    Reading returns the value through an out parameter and a boolean; here
    [None] is the return value [false].

    The theorems show that the well-formedness invariant [mbuf_wf] is kept by
    every operation, that writes append exactly their bytes to the readable
    part of the buffer, that growing terminates at a size that fits the
    request, and that no operation touches memory outside the block as long
    as [write_pos + len] fits 32 bits, a condition that is shown to be
    necessary. *)

From stdpp Require Import base list option.
From S2P Require Import Prelude.

(** [data] is [None] for the NULL pointer, otherwise the bytes of the object
    the pointer refers to, from the pointer to the end of the object. *)
Record MBuf := mkMBuf {
  data : option (list Z);
  read_pos : Z;
  write_pos : Z;
  alloc_len : Z;
  reader : bool;
  fixed : bool
}.

(** ** Initialisation *)

Definition mbuf_init_fixed_reader (ptr : list Z) (len : Z) : MBuf :=
  mkMBuf (Some ptr) 0 len len true true.

Definition mbuf_init_fixed_writer (ptr : list Z) (len : Z) : MBuf :=
  mkMBuf (Some ptr) 0 0 len false true.

Definition mbuf_init_dynamic : MBuf := mkMBuf None 0 0 0 false false.

(** The structure after [memset(buf, 0, sizeof( *buf))]. *)
Definition mbuf_zero : MBuf := mkMBuf None 0 0 0 false false.

Definition mbuf_free (buf : MBuf) : MBuf :=
  match data buf with
  | Some _ => mbuf_zero
  | None => buf
  end.

(** ** Cursor moves *)

Definition set_read_pos (buf : MBuf) (p : Z) : MBuf :=
  mkMBuf (data buf) p (write_pos buf) (alloc_len buf) (reader buf) (fixed buf).

Definition mbuf_rewind_reader (buf : MBuf) : MBuf := set_read_pos buf 0.

Definition mbuf_rewind_writer (buf : MBuf) : MBuf :=
  if negb (reader buf)
  then mkMBuf (data buf) 0 0 (alloc_len buf) (reader buf) (fixed buf)
  else buf.

(** ** Information *)

Definition mbuf_avail_for_read (buf : MBuf) : Z := u32 (write_pos buf - read_pos buf).

Definition mbuf_avail_for_write (buf : MBuf) : Z :=
  if negb (reader buf) && bool_decide (alloc_len buf > write_pos buf)
  then u32 (alloc_len buf - write_pos buf) else 0.

Definition mbuf_written (buf : MBuf) : Z := write_pos buf.

Definition mbuf_consumed (buf : MBuf) : Z := read_pos buf.

(** The object behind [buf->data], which the caller is about to access. *)
Definition mbuf_data (buf : MBuf) : list Z := default [] (data buf).

(** The pointer comparison [buf1 == buf2] only short-cuts the [memcmp] of a
    buffer with itself. *)
Definition mbuf_eq (buf1 buf2 : option MBuf) : res bool :=
  match buf1, buf2 with
  | None, None => Ok true
  | Some b1, Some b2 =>
      if negb (bool_decide (mbuf_written b1 = mbuf_written b2)) then Ok false
      else x ← mem_load (mbuf_data b1) 0 (mbuf_written b1);
           y ← mem_load (mbuf_data b2) 0 (mbuf_written b1);
           Ok (bool_decide (x = y))
  | _, _ => Ok false
  end.

(** [s] is the string without its terminating NUL. *)
Definition mbuf_eq_str (buf1 : option MBuf) (s : list Z) : res bool :=
  mbuf_eq buf1 (Some (mbuf_init_fixed_reader (s ++ [0]) (zlen s))).

(** ** Reading *)

(** [buf->data[buf->read_pos++]] *)
Definition mbuf_next (buf : MBuf) : res (Z * MBuf) :=
  v ← mem_get (mbuf_data buf) (read_pos buf);
  Ok (v, set_read_pos buf (u32 (read_pos buf + 1))).

Definition mbuf_get_byte (buf : MBuf) : res (option Z * MBuf) :=
  if bool_decide (u32 (read_pos buf + 1) > write_pos buf) then Ok (None, buf)
  else '(v, buf) ← mbuf_next buf; Ok (Some v, buf).

Definition mbuf_get_char (buf : MBuf) : res (option Z * MBuf) :=
  if bool_decide (u32 (read_pos buf + 1) > write_pos buf) then Ok (None, buf)
  else '(v, buf) ← mbuf_next buf; Ok (Some v, buf).

Definition mbuf_get_uint16be (buf : MBuf) : res (option Z * MBuf) :=
  if bool_decide (u32 (read_pos buf + 2) > write_pos buf) then Ok (None, buf)
  else
    '(a, buf) ← mbuf_next buf;
    '(b, buf) ← mbuf_next buf;
    Ok (Some (u16 (Z.lor (Z.shiftl a 8) b)), buf).

Definition mbuf_get_uint32be (buf : MBuf) : res (option Z * MBuf) :=
  if bool_decide (u32 (read_pos buf + 4) > write_pos buf) then Ok (None, buf)
  else
    '(a, buf) ← mbuf_next buf;
    '(b, buf) ← mbuf_next buf;
    '(c, buf) ← mbuf_next buf;
    '(d, buf) ← mbuf_next buf;
    Ok (Some (u32 (Z.lor (Z.lor (Z.lor (Z.shiftl a 24) (Z.shiftl b 16)) (Z.shiftl c 8)) d)), buf).

(** When only the second half is missing the first four bytes stay consumed. *)
Definition mbuf_get_uint64be (buf : MBuf) : res (option Z * MBuf) :=
  '(a, buf) ← mbuf_get_uint32be buf;
  match a with
  | None => Ok (None, buf)
  | Some a =>
      '(b, buf) ← mbuf_get_uint32be buf;
      match b with
      | None => Ok (None, buf)
      | Some b => Ok (Some (Z.lor (Z.shiftl a 32) b), buf)
      end
  end.

(** The pointer handed out is modelled by the [len] bytes it refers to. *)
Definition mbuf_get_bytes (buf : MBuf) (len : Z) : res (option (list Z) * MBuf) :=
  if bool_decide (len > u32 (write_pos buf - read_pos buf)) then Ok (None, buf)
  else
    bs ← mem_load (mbuf_data buf) (read_pos buf) len;
    Ok (Some bs, set_read_pos buf (u32 (read_pos buf + len))).

Definition mbuf_get_chars (buf : MBuf) (len : Z) : res (option (list Z) * MBuf) :=
  if bool_decide (len > u32 (write_pos buf - read_pos buf)) then Ok (None, buf)
  else
    bs ← mem_load (mbuf_data buf) (read_pos buf) len;
    Ok (Some bs, set_read_pos buf (u32 (read_pos buf + len))).

(** [memchr(s, 0, n)] over the bytes [s]: offset of the first NUL. *)
Fixpoint memchr0 (s : list Z) : option nat :=
  match s with
  | [] => None
  | c :: s => if bool_decide (c = 0) then Some O else S <$> memchr0 s
  end.

(** The C string at the read cursor, given without its NUL. *)
Definition mbuf_get_string (buf : MBuf) : res (option (list Z) * MBuf) :=
  s ← mem_load (mbuf_data buf) (read_pos buf) (mbuf_avail_for_read buf);
  match memchr0 s with
  | None => Ok (None, buf)
  | Some i => Ok (Some (take i s), set_read_pos buf (u32 (read_pos buf + Z.of_nat i + 1)))
  end.

(** ** Writing *)

(** The loop of [mbuf_make_room] (and of [make_room] in pktbuf.c): double
    [cur] until it holds [need], settle for [need] past [limit].  The fuel
    bounds the number of doublings. *)
Fixpoint grow (fuel : nat) (limit need cur : Z) : res Z :=
  match fuel with
  | O => NoFuel
  | S fuel =>
      if bool_decide (cur < need) then
        let cur := cur * 2 in
        if bool_decide (cur > limit) then Ok need else grow fuel limit need cur
      else Ok cur
  end.

(** Doublings from 1 to 2^32, and one test more. *)
Definition grow_fuel : nat := 34.

Section Writing.
Context `{Realloc}.

Definition mbuf_make_room (buf : MBuf) (len : Z) : res (bool * MBuf) :=
  let need := write_pos buf + len in
  if reader buf || fixed buf then Ok (false, buf)
  else if bool_decide (need <= alloc_len buf) then Ok (true, buf)
  else if bool_decide (need > UINT_MAX) then Ok (false, buf)
  else
    let new_alloc := if bool_decide (alloc_len buf = 0) then 128 else alloc_len buf in
    new_alloc ← grow grow_fuel UINT_MAX need new_alloc;
    match realloc (mbuf_data buf) new_alloc with
    | None => Ok (false, buf)
    | Some ptr =>
        Ok (true, mkMBuf (Some ptr) (read_pos buf) (write_pos buf) new_alloc
                         (reader buf) (fixed buf))
    end.

(** [memcpy(buf->data + buf->write_pos, bs, len); buf->write_pos += len] *)
Definition mbuf_put (buf : MBuf) (bs : list Z) : res MBuf :=
  m ← mem_store (mbuf_data buf) (write_pos buf) bs;
  Ok (mkMBuf (Some m) (read_pos buf) (u32 (write_pos buf + zlen bs)) (alloc_len buf)
             (reader buf) (fixed buf)).

Definition mbuf_write_byte (buf : MBuf) (val : Z) : res (bool * MBuf) :=
  '(ok, buf) ← (if bool_decide (u32 (write_pos buf + 1) > alloc_len buf)
                then mbuf_make_room buf 1 else Ok (true, buf));
  if negb ok then Ok (false, buf)
  else buf ← mbuf_put buf [u8 val]; Ok (true, buf).

(** [ptr] holds the [len] bytes to write. *)
Definition mbuf_write (buf : MBuf) (ptr : list Z) : res (bool * MBuf) :=
  let len := zlen ptr in
  '(ok, buf) ← (if bool_decide (u32 (write_pos buf + len) > alloc_len buf)
                then mbuf_make_room buf len else Ok (true, buf));
  if negb ok then Ok (false, buf)
  else if bool_decide (len > 0) then buf ← mbuf_put buf ptr; Ok (true, buf)
  else Ok (true, buf).

Definition mbuf_write_raw_mbuf (dst src : MBuf) : res (bool * MBuf) :=
  bs ← mem_load (mbuf_data src) 0 (write_pos src);
  mbuf_write dst bs.

(** Result, destination and source. *)
Definition mbuf_write_mbuf (dst src : MBuf) (len : Z) : res (bool * MBuf * MBuf) :=
  '(bs, src) ← mbuf_get_bytes src len;
  match bs with
  | None => Ok (false, dst, src)
  | Some bs =>
      '(ok, dst) ← mbuf_write dst bs;
      if negb ok then Ok (false, dst, set_read_pos src (u32 (read_pos src - len)))
      else Ok (true, dst, src)
  end.

Definition mbuf_fill (buf : MBuf) (byte len : Z) : res (bool * MBuf) :=
  '(ok, buf) ← (if bool_decide (u32 (write_pos buf + len) > alloc_len buf)
                then mbuf_make_room buf len else Ok (true, buf));
  if negb ok then Ok (false, buf)
  else buf ← mbuf_put buf (replicate (Z.to_nat len) (u8 byte)); Ok (true, buf).

End Writing.

Definition mbuf_cut (buf : MBuf) (ofs len : Z) : res (bool * MBuf) :=
  if reader buf then Ok (false, buf)
  else if bool_decide (u32 (ofs + len) < write_pos buf) then
    let endofs := u32 (ofs + len) in
    bs ← mem_load (mbuf_data buf) endofs (u32 (write_pos buf - endofs));
    m ← mem_store (mbuf_data buf) ofs bs;
    Ok (true, mkMBuf (Some m) (read_pos buf) (u32 (write_pos buf - len)) (alloc_len buf)
                     (reader buf) (fixed buf))
  else if bool_decide (ofs < write_pos buf) then
    Ok (true, mkMBuf (data buf) (read_pos buf) ofs (alloc_len buf) (reader buf) (fixed buf))
  else Ok (true, buf).

Definition mbuf_copy (src : MBuf) : MBuf := src.

(** The source buffer and, on success, the slice. *)
Definition mbuf_slice (src : MBuf) (len : Z) : res (option MBuf * MBuf) :=
  if bool_decide (len > mbuf_avail_for_read src) then Ok (None, src)
  else Ok (Some (mbuf_init_fixed_reader (zdrop (read_pos src) (mbuf_data src)) len),
           set_read_pos src (u32 (read_pos src + len))).

(** ** Invariant and abstraction *)

(** The positions are ordered inside the block; a block the buffer owns is
    exactly [alloc_len] long, a caller's block at least that. *)
Definition mbuf_wf (buf : MBuf) : Prop :=
  0 <= read_pos buf <= write_pos buf /\ write_pos buf <= alloc_len buf <= UINT_MAX /\
  alloc_len buf <= zlen (mbuf_data buf) /\
  (fixed buf = false -> alloc_len buf = zlen (mbuf_data buf)) /\
  Forall is_u8 (mbuf_data buf).

(** What is left to read, and all that was written. *)
Definition mbuf_view (buf : MBuf) : list Z := slice (read_pos buf) (write_pos buf) (mbuf_data buf).
Definition mbuf_contents (buf : MBuf) : list Z := ztake (write_pos buf) (mbuf_data buf).

Lemma mbuf_view_len buf : mbuf_wf buf -> zlen (mbuf_view buf) = write_pos buf - read_pos buf.
Proof. intros (?&?&?&?&?). unfold mbuf_view. zlia. Qed.

Lemma mbuf_avail_view buf : mbuf_wf buf -> mbuf_avail_for_read buf = zlen (mbuf_view buf).
Proof.
  intros Hw. rewrite mbuf_view_len by done. unfold mbuf_avail_for_read.
  destruct Hw as (?&?&?&?&?). by usmall.
Qed.

Lemma mbuf_view_bytes buf : mbuf_wf buf -> Forall is_u8 (mbuf_view buf).
Proof. intros (?&?&?&?&?). by apply Forall_slice. Qed.

Lemma set_read_pos_wf buf p : mbuf_wf buf -> 0 <= p <= write_pos buf -> mbuf_wf (set_read_pos buf p).
Proof. intros (?&?&?&?&?) ?. unfold mbuf_wf, mbuf_data in *; simpl. split_and!; auto; lia. Qed.

Lemma mbuf_init_dynamic_wf : mbuf_wf mbuf_init_dynamic.
Proof. unfold mbuf_wf, mbuf_data, zlen; simpl. split_and!; auto with lia; unfold UINT_MAX; lia. Qed.

Lemma mbuf_init_fixed_reader_wf ptr len :
  0 <= len <= zlen ptr -> len <= UINT_MAX -> Forall is_u8 ptr -> mbuf_wf (mbuf_init_fixed_reader ptr len).
Proof. intros. unfold mbuf_wf, mbuf_data; simpl. split_and!; auto with lia; done. Qed.

Lemma mbuf_init_fixed_reader_view ptr len : mbuf_view (mbuf_init_fixed_reader ptr len) = ztake len ptr.
Proof. unfold mbuf_view; simpl. apply slice_0. Qed.

Lemma mbuf_init_fixed_writer_wf ptr len :
  0 <= len <= zlen ptr -> len <= UINT_MAX -> Forall is_u8 ptr -> mbuf_wf (mbuf_init_fixed_writer ptr len).
Proof. intros. unfold mbuf_wf, mbuf_data; simpl. split_and!; auto with lia; done. Qed.

Lemma mbuf_free_wf buf : mbuf_wf buf -> mbuf_wf (mbuf_free buf).
Proof. unfold mbuf_free. destruct (data buf); [intros; apply mbuf_init_dynamic_wf | done]. Qed.

Lemma mbuf_rewind_writer_wf buf : mbuf_wf buf -> mbuf_wf (mbuf_rewind_writer buf).
Proof.
  intros (?&?&?&?&?). unfold mbuf_rewind_writer, mbuf_wf, mbuf_data in *.
  destruct (reader buf); simpl; split_and!; auto; lia.
Qed.

#[export] Hint Resolve set_read_pos_wf mbuf_init_dynamic_wf mbuf_init_fixed_reader_wf
  mbuf_init_fixed_writer_wf mbuf_free_wf mbuf_rewind_writer_wf mbuf_view_bytes : pgb.

(** ** Reading *)

(** The state after [n] bytes were read. *)
Definition advance (buf : MBuf) (n : Z) : MBuf := set_read_pos buf (read_pos buf + n).

Lemma advance_view buf n :
  mbuf_wf buf -> 0 <= n <= zlen (mbuf_view buf) ->
  mbuf_wf (advance buf n) /\ mbuf_view (advance buf n) = zdrop n (mbuf_view buf).
Proof.
  intros Hw Hn. rewrite mbuf_view_len in Hn by done. unfold advance. split.
  { apply set_read_pos_wf; [done|]. destruct Hw; lia. }
  destruct Hw as (?&?&?&?&?). unfold mbuf_view, mbuf_data; simpl.
  set (m := default [] (data buf)).
  rewrite (slice_split (read_pos buf) (read_pos buf + n) (write_pos buf)) by lia.
  rewrite zdrop_app_ge by (unfold m; unfold mbuf_data in *; zlia).
  rewrite zdrop_0; [done|]. unfold m; unfold mbuf_data in *; zlia.
Qed.

Lemma advance_advance buf n k : advance (advance buf n) k = advance buf (n + k).
Proof. unfold advance, set_read_pos; simpl. f_equal. lia. Qed.

Lemma mbuf_next_view buf v rest :
  mbuf_wf buf -> write_pos buf < UINT_MAX -> mbuf_view buf = v :: rest ->
  mbuf_next buf = Ok (v, advance buf 1) /\ mbuf_wf (advance buf 1) /\ mbuf_view (advance buf 1) = rest.
Proof.
  intros Hw Hu Hv. destruct (advance_view buf 1) as [Hw' Hv'].
  { done. } { rewrite Hv; zlia. }
  rewrite Hv in Hv'. split_and!; [|done|done].
  pose proof (mbuf_view_len buf Hw) as Hl. rewrite Hv in Hl.
  destruct Hw as (?&?&?&?&?).
  destruct (mem_get_ok (mbuf_data buf) (read_pos buf)) as (w & Hg & Hs); [zlia|].
  unfold mbuf_next. rewrite Hg. cbn. rewrite u32_small by zlia.
  unfold mbuf_view in Hv.
  rewrite (slice_split _ (read_pos buf + 1)), Hs in Hv by zlia.
  by injection Hv as -> _.
Qed.

(** The value of a big-endian byte string. *)
Definition be_combine (bs : list Z) : Z := fold_left (fun acc b => acc * 256 + b) bs 0.

Lemma lor_shiftl_add a b k : 0 <= k -> 0 <= b < 2 ^ k -> Z.lor (Z.shiftl a k) b = a * 2 ^ k + b.
Proof.
  intros Hk Hb. rewrite <- Z.shiftl_mul_pow2, Z.add_nocarry_lor; [done| |done].
  apply Z.bits_inj'; intros n Hn. rewrite Z.land_spec, Z.shiftl_spec, Z.bits_0 by done.
  destruct (decide (n < k)).
  - rewrite Z.testbit_neg_r by lia. done.
  - rewrite <- (Z.mod_small b (2 ^ k)) by done.
    rewrite Z.mod_pow2_bits_high by lia. apply andb_false_r.
Qed.

(** Reading [n] consecutive bytes, as each integer reader does. *)
Ltac read_step :=
  match goal with
  | Hw : mbuf_wf ?b, Hv : mbuf_view ?b = ?v :: ?r |- context [mbuf_next ?b] =>
      let E := fresh "E" in let Hw' := fresh "Hw" in let Hv' := fresh "Hv" in
      destruct (mbuf_next_view b v r Hw) as (E & Hw' & Hv');
        [simpl; zlia | exact Hv | rewrite E; cbn [mbind res_bind]; clear E]
  end.

(** The test [read_pos + n > write_pos] of the readers compares the view's
    length when the sum does not wrap. *)
Lemma mbuf_short_view buf n :
  mbuf_wf buf -> 0 <= n -> write_pos buf + n <= UINT_MAX ->
  bool_decide (u32 (read_pos buf + n) > write_pos buf) = bool_decide (zlen (mbuf_view buf) < n).
Proof.
  intros Hw Hn Hu. rewrite mbuf_view_len by done. destruct Hw as (?&?&?&?&?).
  usmall. apply bool_decide_ext. lia.
Qed.

Lemma mbuf_get_byte_view buf v rest :
  mbuf_wf buf -> write_pos buf + 1 <= UINT_MAX -> mbuf_view buf = v :: rest ->
  mbuf_get_byte buf = Ok (Some v, advance buf 1).
Proof.
  intros Hw Hu Hv. unfold mbuf_get_byte. rewrite mbuf_short_view, Hv by (done || lia).
  zdecide. by read_step.
Qed.

Lemma mbuf_get_byte_nil buf :
  mbuf_wf buf -> write_pos buf + 1 <= UINT_MAX -> mbuf_view buf = [] ->
  mbuf_get_byte buf = Ok (None, buf).
Proof.
  intros Hw Hu Hv. unfold mbuf_get_byte. rewrite mbuf_short_view, Hv by (done || lia). by zdecide.
Qed.

Lemma mbuf_get_char_byte buf : mbuf_get_char buf = mbuf_get_byte buf.
Proof. reflexivity. Qed.

Lemma mbuf_get_uint16be_view buf a b rest :
  mbuf_wf buf -> write_pos buf + 2 <= UINT_MAX -> mbuf_view buf = a :: b :: rest ->
  mbuf_get_uint16be buf = Ok (Some (be_combine [a; b]), advance buf 2).
Proof.
  intros Hw Hu Hv. pose proof (mbuf_view_bytes _ Hw) as Hb. rewrite Hv in Hb.
  decompose_Forall_hyps. unfold mbuf_get_uint16be.
  rewrite mbuf_short_view, Hv by (done || lia). zdecide. do 2 read_step.
  rewrite advance_advance. unfold is_u8 in *. rewrite lor_shiftl_add by lia.
  unfold u16. rewrite Z.mod_small by lia. unfold be_combine; simpl. do 3 f_equal; lia.
Qed.

Lemma mbuf_get_uint32be_view buf a b c d rest :
  mbuf_wf buf -> write_pos buf + 4 <= UINT_MAX -> mbuf_view buf = a :: b :: c :: d :: rest ->
  mbuf_get_uint32be buf = Ok (Some (be_combine [a; b; c; d]), advance buf 4).
Proof.
  intros Hw Hu Hv. pose proof (mbuf_view_bytes _ Hw) as Hb. rewrite Hv in Hb.
  decompose_Forall_hyps. unfold mbuf_get_uint32be.
  rewrite mbuf_short_view, Hv by (done || lia). zdecide. do 4 read_step.
  rewrite !advance_advance. unfold is_u8 in *.
  replace (Z.shiftl a 24) with (Z.shiftl (Z.shiftl a 8) 16) by (rewrite Z.shiftl_shiftl; done || lia).
  rewrite <- Z.shiftl_lor, (lor_shiftl_add a b) by lia.
  replace (Z.shiftl (a * 2 ^ 8 + b) 16) with (Z.shiftl (Z.shiftl (a * 2 ^ 8 + b) 8) 8)
    by (rewrite Z.shiftl_shiftl; done || lia).
  rewrite <- Z.shiftl_lor, (lor_shiftl_add _ c), lor_shiftl_add by lia.
  rewrite u32_small by zlia. unfold be_combine; simpl. do 3 f_equal; lia.
Qed.

Lemma mbuf_get_uint32be_short buf :
  mbuf_wf buf -> write_pos buf + 4 <= UINT_MAX -> zlen (mbuf_view buf) < 4 ->
  mbuf_get_uint32be buf = Ok (None, buf).
Proof.
  intros Hw Hu Hv. unfold mbuf_get_uint32be. rewrite mbuf_short_view by (done || lia). by zdecide.
Qed.

Lemma mbuf_get_uint16be_short buf :
  mbuf_wf buf -> write_pos buf + 2 <= UINT_MAX -> zlen (mbuf_view buf) < 2 ->
  mbuf_get_uint16be buf = Ok (None, buf).
Proof.
  intros Hw Hu Hv. unfold mbuf_get_uint16be. rewrite mbuf_short_view by (done || lia). by zdecide.
Qed.

Lemma mbuf_get_bytes_view buf len :
  mbuf_wf buf -> 0 <= len <= zlen (mbuf_view buf) ->
  mbuf_get_bytes buf len = Ok (Some (ztake len (mbuf_view buf)), advance buf len).
Proof.
  intros Hw Hl. pose proof (mbuf_view_len _ Hw) as Hv. unfold mbuf_get_bytes.
  fold (mbuf_avail_for_read buf). rewrite mbuf_avail_view by done. zdecide.
  destruct Hw as (?&?&?&?&?). rewrite mem_load_ok by lia. cbn. usmall.
  unfold advance. do 3 f_equal. unfold mbuf_view.
  rewrite (slice_split _ (read_pos buf + len) (write_pos buf)) by lia.
  rewrite ztake_app_le, ztake_all by zlia. done.
Qed.

Lemma mbuf_get_bytes_short buf len :
  mbuf_wf buf -> zlen (mbuf_view buf) < len -> mbuf_get_bytes buf len = Ok (None, buf).
Proof.
  intros Hw Hl. unfold mbuf_get_bytes. fold (mbuf_avail_for_read buf).
  rewrite mbuf_avail_view by done. by zdecide.
Qed.

Lemma memchr0_split s rest : Forall (fun c => c <> 0) s -> memchr0 (s ++ 0 :: rest) = Some (length s).
Proof.
  induction 1 as [|c s Hc _ IH]; simpl; [done|]. rewrite bool_decide_eq_false_2 by done. by rewrite IH.
Qed.

Lemma memchr0_none s : memchr0 s = None <-> Forall (fun c => c <> 0) s.
Proof.
  induction s as [|c s IH]; simpl; [by split|]. rewrite Forall_cons_iff. case_bool_decide; [intuition congruence|].
  destruct (memchr0 s); simpl; intuition congruence.
Qed.

Lemma memchr0_some s i :
  memchr0 s = Some i -> exists rest, s = take i s ++ 0 :: rest /\ Forall (fun c => c <> 0) (take i s).
Proof.
  revert i; induction s as [|c s IH]; intros i; simpl; [done|]. case_bool_decide as Hc.
  - intros [= <-]. subst. eexists; split; simpl; done.
  - destruct (memchr0 s) as [j|] eqn:E; [|done]. intros [= <-].
    destruct (IH j eq_refl) as (rest & Hs & Hf). exists rest; simpl. rewrite <- Hs. auto.
Qed.

(** A NUL-terminated string at the cursor is read back without its NUL. *)
Lemma mbuf_get_string_view buf s rest :
  mbuf_wf buf -> Forall (fun c => c <> 0) s -> mbuf_view buf = s ++ 0 :: rest ->
  mbuf_get_string buf = Ok (Some s, advance buf (zlen s + 1)).
Proof.
  intros Hw Hs Hv. pose proof (mbuf_view_len _ Hw) as Hl. unfold mbuf_get_string.
  rewrite mbuf_avail_view, Hl by done. destruct Hw as (?&?&?&?&?) .
  rewrite mem_load_ok by lia. cbn.
  replace (read_pos buf + (write_pos buf - read_pos buf)) with (write_pos buf) by lia.
  fold (mbuf_view buf). rewrite Hv in *. rewrite memchr0_split by done.
  rewrite take_app_length. unfold advance. fold (zlen s). do 3 f_equal.
  rewrite u32_small by zlia. lia.
Qed.

Lemma mbuf_get_string_none buf :
  mbuf_wf buf -> Forall (fun c => c <> 0) (mbuf_view buf) -> mbuf_get_string buf = Ok (None, buf).
Proof.
  intros Hw Hs. pose proof (mbuf_view_len _ Hw) as Hl. unfold mbuf_get_string.
  rewrite mbuf_avail_view, Hl by done. destruct Hw as (?&?&?&?&?).
  rewrite mem_load_ok by lia. cbn.
  replace (read_pos buf + (write_pos buf - read_pos buf)) with (write_pos buf) by lia.
  fold (mbuf_view buf). by rewrite (proj2 (memchr0_none _) Hs).
Qed.

(** ** Writing *)

(** The doubling loop ends within the fuel and its result holds [need]
    without passing [limit]. *)
Lemma grow_ok k limit need cur :
  0 < cur <= limit -> need <= limit -> need <= cur * 2 ^ Z.of_nat k ->
  exists r, grow (S k) limit need cur = Ok r /\ need <= r <= limit /\ cur <= r.
Proof.
  revert cur; induction k as [|k IH]; intros cur Hc Hn Hk; cbn [grow].
  - change (2 ^ Z.of_nat 0) with 1 in Hk. zdecide. eexists; split; [done|lia].
  - destruct (decide (cur < need)) as [Hlt|]; zdecide; [|eexists; split; [done|lia]].
    destruct (decide (cur * 2 > limit)); zdecide; [eexists; split; [done|lia]|].
    destruct (IH (cur * 2)) as (r & Hr & ? & ?); [lia|lia| |].
    + replace (Z.of_nat (S k)) with (Z.succ (Z.of_nat k)) in Hk by lia.
      rewrite Z.pow_succ_r in Hk by lia. lia.
    + exists r. cbn [grow] in Hr. rewrite Hr. split; [done|lia].
Qed.

Section WritingFacts.
Context `{Realloc}.

(** What [mbuf_make_room] leaves in place: the cursors, the written bytes. *)
Definition same_contents (b b' : MBuf) : Prop :=
  read_pos b' = read_pos b /\ write_pos b' = write_pos b /\
  reader b' = reader b /\ fixed b' = fixed b /\
  mbuf_contents b' = mbuf_contents b.

Lemma same_contents_view b b' : mbuf_wf b -> same_contents b b' -> mbuf_view b' = mbuf_view b.
Proof.
  intros (Hr&_) (Er&Ew&_&_&Hc). unfold mbuf_view, mbuf_contents in *. rewrite Er, Ew in *.
  assert (Hsl : forall m : list Z, slice (read_pos b) (write_pos b) m
            = slice (read_pos b) (write_pos b) (ztake (write_pos b) m)).
  { intros m. rewrite <- (slice_0 (write_pos b) m), slice_slice by lia. f_equal; lia. }
  rewrite (Hsl (mbuf_data b')), (Hsl (mbuf_data b)). by rewrite Hc.
Qed.

Lemma mbuf_make_room_ok buf len :
  mbuf_wf buf -> 0 <= len <= UINT_MAX ->
  exists ok buf', mbuf_make_room buf len = Ok (ok, buf') /\ mbuf_wf buf' /\
    same_contents buf buf' /\
    (ok = true -> write_pos buf + len <= alloc_len buf' /\ reader buf = false /\ fixed buf = false) /\
    (ok = false -> buf' = buf).
Proof.
  intros Hw Hlen. unfold mbuf_make_room.
  assert (Hself : same_contents buf buf) by (unfold same_contents; auto).
  destruct (reader buf || fixed buf) eqn:Erf.
  { exists false, buf. auto with congruence. }
  apply orb_false_elim in Erf as [Er Ef].
  destruct (decide (write_pos buf + len <= alloc_len buf)); zdecide.
  { exists true, buf. split_and!; auto; congruence. }
  destruct (decide (write_pos buf + len > UINT_MAX)); zdecide.
  { exists false, buf. auto with congruence. }
  destruct Hw as (Hr&Hwr&Ha&Hd&Hb). specialize (Hd Ef).
  set (cur := if bool_decide (alloc_len buf = 0) then 128 else alloc_len buf).
  assert (Hcur : 0 < cur <= UINT_MAX /\ alloc_len buf <= cur) by (unfold cur; case_bool_decide; zlia).
  destruct (grow_ok 33 UINT_MAX (write_pos buf + len) cur) as (len' & Hg & Hn1 & Hn2); [lia|lia|zlia|].
  unfold grow_fuel. rewrite Hg. cbn.
  destruct (realloc (mbuf_data buf) len') as [q|] eqn:Eq.
  2:{ exists false, buf. unfold mbuf_wf. auto 10 with congruence. }
  exists true; eexists; split; [reflexivity|].
  assert (Hq : zlen q = len') by (eapply realloc_len; [|exact Eq]; lia).
  assert (Hk : ztake (zlen (mbuf_data buf)) q = mbuf_data buf)
    by (eapply realloc_keep; [|exact Eq]; lia).
  pose proof (realloc_bytes _ _ _ Hb Eq) as Hb'.
  split_and!; [|unfold same_contents, mbuf_contents, mbuf_data; simpl|simpl; auto with lia|done].
  - unfold mbuf_wf, mbuf_data; simpl. split_and!; auto; lia.
  - split_and!; auto. change (default [] (data buf)) with (mbuf_data buf).
    transitivity (ztake (write_pos buf) (ztake (zlen (mbuf_data buf)) q)); [|by rewrite Hk].
    rewrite ztake_ztake. f_equal. lia.
Qed.

Lemma mbuf_put_ok buf bs :
  mbuf_wf buf -> Forall is_u8 bs -> write_pos buf + zlen bs <= alloc_len buf ->
  exists buf', mbuf_put buf bs = Ok buf' /\ mbuf_wf buf' /\
    write_pos buf' = write_pos buf + zlen bs /\ read_pos buf' = read_pos buf /\
    reader buf' = reader buf /\ fixed buf' = fixed buf /\
    mbuf_view buf' = mbuf_view buf ++ bs.
Proof.
  intros (Hr&Hwr&Ha&Hd&Hb) Hbs Hfit. unfold mbuf_put.
  destruct (mem_store_ok (mbuf_data buf) (write_pos buf) bs) as (m & Hm & Hlen & Hs & _ & _); [zlia..|].
  rewrite Hm. cbn. rewrite u32_small by zlia.
  eexists; split; [reflexivity|].
  unfold mbuf_wf, mbuf_view, mbuf_data in *; simpl.
  pose proof (mem_store_bytes _ _ _ _ Hm Hb Hbs). rewrite Hs by lia.
  split_and!; auto; try zlia. intros E; specialize (Hd E). lia.
Qed.

(** The write functions share this shape: make room if the test says so,
    then store. *)
Definition mbuf_append (buf : MBuf) (bs : list Z) : res (bool * MBuf) :=
  '(ok, buf) ← (if bool_decide (u32 (write_pos buf + zlen bs) > alloc_len buf)
                then mbuf_make_room buf (zlen bs) else Ok (true, buf));
  if negb ok then Ok (false, buf) else buf ← mbuf_put buf bs; Ok (true, buf).

Lemma mbuf_append_ok buf bs :
  mbuf_wf buf -> Forall is_u8 bs -> write_pos buf + zlen bs <= UINT_MAX ->
  exists ok buf', mbuf_append buf bs = Ok (ok, buf') /\ mbuf_wf buf' /\
    read_pos buf' = read_pos buf /\
    (ok = true -> mbuf_view buf' = mbuf_view buf ++ bs /\
                  write_pos buf' = write_pos buf + zlen bs /\
                  reader buf' = reader buf /\ fixed buf' = fixed buf) /\
    (ok = false -> buf' = buf /\ alloc_len buf < write_pos buf + zlen bs).
Proof.
  intros Hw Hbs Hu. unfold mbuf_append.
  assert (0 <= write_pos buf) by (destruct Hw; lia). rewrite u32_small by zlia.
  destruct (decide (write_pos buf + zlen bs > alloc_len buf)); zdecide.
  - destruct (mbuf_make_room_ok buf (zlen bs) Hw) as (ok & b1 & E & Hw1 & Hs & Ht & Hf); [zlia|].
    rewrite E; cbn. destruct ok; cbn.
    + destruct (Ht eq_refl) as (Hfit & _). pose proof Hs as (Hr1&Hp1&Hrd&Hfx&_).
      destruct (mbuf_put_ok b1 bs) as (b2 & E2 & Hw2 & Hp2 & Hr2 & Hrd2 & Hfx2 & Hv2); [done|done|lia|].
      rewrite E2; cbn. exists true, b2. split_and!; auto; try congruence; try done.
      intros _. split_and!; try congruence. rewrite Hv2. f_equal.
      by apply same_contents_view.
    + rewrite (Hf eq_refl). exists false, buf. split_and!; auto; [done|]. intros _; split; [done|lia].
  - cbn. destruct (mbuf_put_ok buf bs) as (b2 & E2 & Hw2 & Hp2 & Hr2 & Hrd2 & Hfx2 & Hv2); [done|done|lia|].
    rewrite E2; cbn. exists true, b2. split_and!; auto; done.
Qed.

Lemma mbuf_write_append buf bs :
  mbuf_wf buf -> bs <> [] -> mbuf_write buf bs = mbuf_append buf bs.
Proof.
  intros Hw Hn. unfold mbuf_write, mbuf_append.
  assert (0 < zlen bs) by (destruct bs; [done|zlia]).
  destruct (if bool_decide _ then _ else _) as [[ok b]| | |]; cbn; auto.
  destruct (negb ok); [done|]. by zdecide.
Qed.

Lemma mbuf_write_nil buf : mbuf_wf buf -> mbuf_write buf [] = Ok (true, buf).
Proof.
  intros (?&?&_). unfold mbuf_write. rewrite zlen_nil, Z.add_0_r, u32_small by lia. zdecide. cbn.
  done.
Qed.

(** A write into reserved space always succeeds and does not reallocate. *)
Lemma mbuf_write_fits buf bs :
  mbuf_wf buf -> Forall is_u8 bs -> write_pos buf + zlen bs <= alloc_len buf ->
  exists buf', mbuf_write buf bs = Ok (true, buf') /\ mbuf_wf buf' /\ alloc_len buf' = alloc_len buf /\
    write_pos buf' = write_pos buf + zlen bs /\ read_pos buf' = read_pos buf /\
    reader buf' = reader buf /\ fixed buf' = fixed buf /\ mbuf_view buf' = mbuf_view buf ++ bs.
Proof.
  intros Hw Hb Hfit. destruct (decide (bs = [])) as [->|Hn].
  { exists buf. rewrite mbuf_write_nil, app_nil_r, zlen_nil by done. split_and!; auto; lia. }
  rewrite mbuf_write_append by done. unfold mbuf_append.
  pose proof Hw as (?&?&_). pose proof (zlen_nonneg bs). rewrite u32_small by lia.
  rewrite bool_decide_eq_false_2 by lia. cbn [mbind res_bind negb].
  destruct (mbuf_put_ok buf bs Hw Hb Hfit) as (b'&E&?&?&?&?&?&?). rewrite E. cbn [mbind res_bind].
  exists b'. split_and!; auto. unfold mbuf_put in E. rinv. done.
Qed.

End WritingFacts.

(** ** Properties *)

(** As long as [write_pos + len] fits 32 bits, [mbuf_write] on a
    well-formed buffer stays inside the block and keeps the buffer
    well-formed; it returns [true] with exactly the given bytes appended to
    what can be read, or [false] with the buffer unchanged, and [false] only
    when the bytes do not fit the block it has. *)
Theorem mbuf_write_appends `{Realloc} buf bs :
  mbuf_wf buf -> Forall is_u8 bs -> write_pos buf + zlen bs <= UINT_MAX ->
  exists ok buf', mbuf_write buf bs = Ok (ok, buf') /\ mbuf_wf buf' /\
    (ok = true -> mbuf_view buf' = mbuf_view buf ++ bs) /\
    (ok = false -> buf' = buf /\ alloc_len buf < write_pos buf + zlen bs).
Proof.
  intros Hw Hb Hu. destruct (decide (bs = [])) as [->|Hn].
  - exists true, buf. rewrite mbuf_write_nil, app_nil_r by done. split_and!; done.
  - rewrite mbuf_write_append by done.
    destruct (mbuf_append_ok buf bs Hw Hb Hu) as (ok & b & E & Hw' & _ & Ht & Hf).
    exists ok, b. split_and!; auto. intros Hok; by destruct (Ht Hok).
Qed.

Lemma mbuf_write_appends_witness :
  exists ok buf', mbuf_write mbuf_init_dynamic [1; 2; 3] = Ok (ok, buf') /\ mbuf_wf buf' /\
    (ok = true -> mbuf_view buf' = mbuf_view mbuf_init_dynamic ++ [1; 2; 3]) /\
    (ok = false -> buf' = mbuf_init_dynamic /\ 0 < 0 + 3).
Proof.
  apply (mbuf_write_appends mbuf_init_dynamic [1; 2; 3]).
  - apply mbuf_init_dynamic_wf.
  - repeat constructor; unfold is_u8; lia.
  - vm_compute; discriminate.
Defined.

(** The bounds test of [mbuf_write] is computed in 32 bits, so the
    condition of the previous property is needed: on a well-formed buffer
    with 2^31 bytes, writing 2^31 more passes the test without growing the
    block and copies past its end, whatever the allocator does. *)
Theorem mbuf_write_wraps :
  exists buf bs, mbuf_wf buf /\ Forall is_u8 bs /\ zlen bs <= UINT_MAX /\
    reader buf = false /\ fixed buf = false /\
    forall R : Realloc, @mbuf_write R buf bs = Undef.
Proof.
  assert (Hbig : exists l : list Z, zlen l = 2 ^ 31 /\ Forall is_u8 l).
  { generalize (2 ^ 31) (ltac:(lia) : 0 <= 2 ^ 31). intros n Hn. exists (replicate (Z.to_nat n) 0).
    unfold zlen; rewrite length_replicate. split; [lia|]. apply Forall_replicate; unfold is_u8; lia. }
  destruct Hbig as (l & Hl & Hf). exists (mkMBuf (Some l) 0 (2 ^ 31) (2 ^ 31) false false), l.
  split; [unfold mbuf_wf, mbuf_data; simpl; split_and!; auto; zlia|].
  split_and!; auto; [zlia|]. intros R. unfold mbuf_write; cbn [write_pos alloc_len]. rewrite Hl.
  change (u32 (2 ^ 31 + 2 ^ 31)) with 0. zdecide. cbn [mbind res_bind negb].
  unfold mbuf_put, mem_store, mbuf_data; cbn [write_pos data from_option id]. rewrite Hl. by zdecide.
Qed.
