(* ===== verification/PktBuf.v ===== *)
(** * Packet construction (src/pktbuf.c, include/pktbuf.h)

    [PktBuf] with its growing or fixed byte area, the [pktbuf_put_*]
    primitives, the start/finish pair that fills in the length word, and the
    packet writers on top of them.  Positions and lengths are [int]; the
    growth loop computes in 64 bits as the code does.

    The theorems show that every writer keeps the buffer well-formed, that a
    buffer that did not fail holds exactly the previous bytes followed by the
    wire encoding of the packet, with a length word that is right, and that
    the fixed buffers of the SEND and QUEUE macros are large enough. *)

From stdpp Require Import base list option strings.
From Stdlib Require Import Ascii.
From S2P Require Import Prelude Protocol MBuf.

(** [ev] and [queued_dst], the libevent handle and the destination of a
    queued buffer, are outside this model; sending is below a parameter. *)
Record PktBuf := mkPktBuf {
  pb_buf : list Z;
  pb_buf_len : Z;
  pb_write_pos : Z;
  pb_pktlen_pos : Z;
  pb_send_pos : Z;
  pb_failed : bool;
  pb_sending : bool;
  pb_fixed_buf : bool
}.

Definition pb_fail (b : PktBuf) : PktBuf :=
  mkPktBuf (pb_buf b) (pb_buf_len b) (pb_write_pos b) (pb_pktlen_pos b) (pb_send_pos b)
           true (pb_sending b) (pb_fixed_buf b).

Definition pb_set_pktlen_pos (b : PktBuf) (p : Z) : PktBuf :=
  mkPktBuf (pb_buf b) (pb_buf_len b) (pb_write_pos b) p (pb_send_pos b)
           (pb_failed b) (pb_sending b) (pb_fixed_buf b).

Definition pb_set_buf (b : PktBuf) (m : list Z) (len : Z) : PktBuf :=
  mkPktBuf m len (pb_write_pos b) (pb_pktlen_pos b) (pb_send_pos b)
           (pb_failed b) (pb_sending b) (pb_fixed_buf b).

(** A packet over memory of the caller. *)
Definition pktbuf_static (d : list Z) (len : Z) : PktBuf :=
  mkPktBuf d len 0 0 0 false false true.

(** [malloc(start_len)] gave the block [d]; a failed allocation is a NULL
    packet, which the callers test for. *)
Definition pktbuf_dynamic (d : option (list Z)) (start_len : Z) : option PktBuf :=
  match d with
  | None => None
  | Some d => Some (mkPktBuf d start_len 0 0 0 false false false)
  end.

Definition pktbuf_reset (b : PktBuf) : PktBuf :=
  mkPktBuf (pb_buf b) (pb_buf_len b) 0 0 0 false false (pb_fixed_buf b).

Section PktBufOps.
Context `{Realloc}.

Definition make_room (b : PktBuf) (len : Z) : res PktBuf :=
  let newlen := pb_buf_len b in
  let need := pb_write_pos b + len in
  if bool_decide (newlen >= need) then Ok b
  else if pb_failed b then Ok b
  else if pb_fixed_buf b then Ok (pb_fail b)
  else if bool_decide (need > INT_MAX) then Ok (pb_fail b)
  else
    newlen ← grow grow_fuel INT_MAX need newlen;
    match realloc (pb_buf b) newlen with
    | None => Ok (pb_fail b)
    | Some ptr => Ok (pb_set_buf b ptr newlen)
    end.

(** Store at [buf->write_pos] and advance it. *)
Definition pb_store (b : PktBuf) (bs : list Z) : res PktBuf :=
  m ← mem_store (pb_buf b) (pb_write_pos b) bs;
  Ok (mkPktBuf m (pb_buf_len b) (pb_write_pos b + zlen bs) (pb_pktlen_pos b) (pb_send_pos b)
               (pb_failed b) (pb_sending b) (pb_fixed_buf b)).

Definition pktbuf_put_char (b : PktBuf) (val : Z) : res PktBuf :=
  b ← make_room b 1;
  if pb_failed b then Ok b else pb_store b [u8 val].

(** The code reserves four bytes here although it writes two. *)
Definition pktbuf_put_uint16 (b : PktBuf) (val : Z) : res PktBuf :=
  let val := u16 val in
  b ← make_room b 4;
  if pb_failed b then Ok b
  else
    b ← pb_store b [Z.land (Z.shiftr val 8) 255];
    pb_store b [Z.land val 255].

Definition pktbuf_put_uint32 (b : PktBuf) (val : Z) : res PktBuf :=
  let val := u32 val in
  b ← make_room b 4;
  if pb_failed b then Ok b
  else pb_store b [Z.land (Z.shiftr val 24) 255; Z.land (Z.shiftr val 16) 255;
                   Z.land (Z.shiftr val 8) 255; Z.land val 255].

Definition pktbuf_put_uint64 (b : PktBuf) (val : Z) : res PktBuf :=
  let val := u64 val in
  b ← pktbuf_put_uint32 b (Z.shiftr val 32);
  pktbuf_put_uint32 b val.

Definition pktbuf_put_bytes (b : PktBuf) (d : list Z) (len : Z) : res PktBuf :=
  if bool_decide (len = 0) then Ok b
  else
    b ← make_room b len;
    if pb_failed b then Ok b
    else bs ← mem_load d 0 len; pb_store b bs.

(** [str] is a C string, given without its NUL. *)
Definition pktbuf_put_string (b : PktBuf) (str : list Z) : res PktBuf :=
  let len := zlen str in
  pktbuf_put_bytes b (str ++ [0]) (len + 1).

Definition pktbuf_start_packet (b : PktBuf) (type : Z) : res PktBuf :=
  if pb_failed b then Ok b
  else if bool_decide (type < 256) then
    b ← pktbuf_put_char b type;
    let b := pb_set_pktlen_pos b (pb_write_pos b) in
    pktbuf_put_uint32 b 0
  else
    let b := pb_set_pktlen_pos b (pb_write_pos b) in
    b ← pktbuf_put_uint32 b 0;
    pktbuf_put_uint32 b type.

Definition pktbuf_finish_packet (b : PktBuf) : res PktBuf :=
  if pb_failed b then Ok b
  else
    let len := u32 (pb_write_pos b - pb_pktlen_pos b) in
    m ← mem_store (pb_buf b) (pb_pktlen_pos b)
          [Z.land (Z.shiftr len 24) 255; Z.land (Z.shiftr len 16) 255;
           Z.land (Z.shiftr len 8) 255; Z.land len 255];
    Ok (pb_set_pktlen_pos (pb_set_buf b m (pb_buf_len b)) 0).

(** One argument of the variadic writers. *)
Inductive vaarg :=
| VInt (v : Z)
| VU64 (v : Z)
| VStr (s : list Z)
| VPtr (p : list Z)
| VNull.

(** The letters of a packet description. *)
Inductive pktdesc_key := Kc | Kh | Ki | Kq | Ks | Kb.

Definition pktdesc_key_of (c : ascii) : option pktdesc_key :=
  match c with
  | "c"%char => Some Kc
  | "h"%char => Some Kh
  | "i"%char => Some Ki
  | "q"%char => Some Kq
  | "s"%char => Some Ks
  | "b"%char => Some Kb
  | _ => None
  end.

(** The loop of [pktbuf_write_generic] over the description. An argument of
    another type than the description names is undefined behaviour. *)
Fixpoint pktbuf_write_args (b : PktBuf) (adesc : list ascii) (ap : list vaarg) : res PktBuf :=
  match adesc with
  | [] => Ok b
  | c :: adesc =>
      match pktdesc_key_of c, ap with
      | Some Kc, VInt v :: ap => b ← pktbuf_put_char b v; pktbuf_write_args b adesc ap
      | Some Kh, VInt v :: ap => b ← pktbuf_put_uint16 b v; pktbuf_write_args b adesc ap
      | Some Ki, VInt v :: ap => b ← pktbuf_put_uint32 b v; pktbuf_write_args b adesc ap
      | Some Kq, VU64 v :: ap => b ← pktbuf_put_uint64 b v; pktbuf_write_args b adesc ap
      | Some Ks, VStr s :: ap => b ← pktbuf_put_string b s; pktbuf_write_args b adesc ap
      | Some Kb, VPtr p :: VInt len :: ap =>
          b ← pktbuf_put_bytes b p len; pktbuf_write_args b adesc ap
      | None, _ => Fatal
      | _, _ => Undef
      end
  end.

Definition pktbuf_write_generic (b : PktBuf) (type : Z) (pktdesc : string) (ap : list vaarg)
  : res PktBuf :=
  b ← pktbuf_start_packet b type;
  b ← pktbuf_write_args b (String.list_ascii_of_string pktdesc) ap;
  pktbuf_finish_packet b.

(** Column type OIDs and sizes of [pktbuf_write_RowDescription]. *)
Definition BYTEAOID : Z := 17.
Definition INT8OID : Z := 20.
Definition INT4OID : Z := 23.
Definition TEXTOID : Z := 25.
Definition NUMERICOID : Z := 1700.

Definition column_type (key : ascii) : option (Z * Z) :=
  match key with
  | "s"%char => Some (TEXTOID, -1)
  | "b"%char => Some (BYTEAOID, -1)
  | "i"%char => Some (INT4OID, 4)
  | "q"%char => Some (INT8OID, 8)
  | "N"%char => Some (NUMERICOID, -1)
  | "T"%char => Some (TEXTOID, -1)
  | _ => None
  end.

Fixpoint pktbuf_write_columns (b : PktBuf) (tupdesc : list ascii) (ap : list vaarg) : res PktBuf :=
  match tupdesc with
  | [] => Ok b
  | key :: tupdesc =>
      match ap with
      | VStr name :: ap =>
          b ← pktbuf_put_string b name;
          b ← pktbuf_put_uint32 b 0;
          b ← pktbuf_put_uint16 b 0;
          match column_type key with
          | None => Fatal
          | Some (oid, typsize) =>
              b ← pktbuf_put_uint32 b oid;
              b ← pktbuf_put_uint16 b typsize;
              b ← pktbuf_put_uint32 b (-1);
              b ← pktbuf_put_uint16 b 0;
              pktbuf_write_columns b tupdesc ap
          end
      | _ => Undef
      end
  end.

Definition pktbuf_write_RowDescription (b : PktBuf) (tupdesc : string) (ap : list vaarg) : res PktBuf :=
  let cols := String.list_ascii_of_string tupdesc in
  b ← pktbuf_start_packet b PqMsg_RowDescription;
  b ← pktbuf_put_uint16 b (zlen cols);
  b ← pktbuf_write_columns b cols ap;
  pktbuf_finish_packet b.

(** One column of [pktbuf_write_DataRow]: its text ([None] for SQL NULL) and
    the arguments left.  [format_time] is [format_time_s] of lib/usual/time.c.
    An array of more than 48 bytes does not fit [tmp]. *)
Definition datarow_value (format_time : Z -> list Z) (key : ascii) (ap : list vaarg)
  : res (option (list Z) * list vaarg) :=
  match key, ap with
  | "i"%char, VInt v :: ap => Ok (Some (dec_int v), ap)
  | "q"%char, VU64 v :: ap => Ok (Some (dec v), ap)
  | "N"%char, VU64 v :: ap => Ok (Some (dec v), ap)
  | "s"%char, VStr s :: ap => Ok (Some s, ap)
  | "s"%char, VNull :: ap => Ok (None, ap)
  | "b"%char, VInt blen :: VPtr p :: ap =>
      if bool_decide (0 <= blen) then
        if bool_decide (2 + blen * 2 + 1 > 100) then Fatal
        else bs ← mem_load p 0 blen; Ok (Some ([92; 120] ++ concat (map hex2 bs)), ap)
      else Ok (None, ap)
  | "b"%char, VInt blen :: VNull :: ap => if bool_decide (0 < blen) then Undef else
      if bool_decide (blen = 0) then Ok (Some [92; 120], ap) else Ok (None, ap)
  | "T"%char, VU64 t :: ap => Ok (Some (format_time t), ap)
  | "i"%char, _ | "q"%char, _ | "N"%char, _ | "s"%char, _ | "b"%char, _ | "T"%char, _ => Undef
  | _, _ => Fatal
  end.

Fixpoint pktbuf_put_columns (format_time : Z -> list Z) (b : PktBuf) (tupdesc : list ascii)
  (ap : list vaarg) : res PktBuf :=
  match tupdesc with
  | [] => Ok b
  | key :: tupdesc =>
      '(val, ap) ← datarow_value format_time key ap;
      b ← match val with
          | Some val => b ← pktbuf_put_uint32 b (zlen val); pktbuf_put_bytes b val (zlen val)
          | None => pktbuf_put_uint32 b (-1)
          end;
      pktbuf_put_columns format_time b tupdesc ap
  end.

Definition pktbuf_write_DataRow (format_time : Z -> list Z) (b : PktBuf) (tupdesc : string)
  (ap : list vaarg) : res PktBuf :=
  let cols := String.list_ascii_of_string tupdesc in
  b ← pktbuf_start_packet b PqMsg_DataRow;
  b ← pktbuf_put_uint16 b (zlen cols);
  b ← pktbuf_put_columns format_time b cols ap;
  pktbuf_finish_packet b.

Fixpoint pktbuf_put_params (b : PktBuf) (vals : list (list Z)) : res PktBuf :=
  match vals with
  | [] => Ok b
  | val :: vals =>
      b ← pktbuf_put_uint32 b (zlen val);
      b ← pktbuf_put_bytes b val (zlen val);
      pktbuf_put_params b vals
  end.

(** The fields of the Bind packet: portal, query, parameter formats,
    parameters, result formats. *)
Definition pktbuf_put_bind (b : PktBuf) (vals : list (list Z)) : res PktBuf :=
  b ← pktbuf_put_char b 0;
  b ← pktbuf_put_char b 0;
  b ← pktbuf_put_uint16 b 0;
  b ← pktbuf_put_uint16 b (zlen vals);
  b ← pktbuf_put_params b vals;
  pktbuf_put_uint16 b 0.

(** [vals] are the [nargs] string arguments. *)
Definition pktbuf_write_ExtQuery (b : PktBuf) (query : list Z) (vals : list (list Z)) : res PktBuf :=
  b ← pktbuf_write_generic b PqMsg_Parse "csh" [VInt 0; VStr query; VInt 0];
  b ← (b ← pktbuf_start_packet b PqMsg_Bind;
       b ← pktbuf_put_bind b vals;
       pktbuf_finish_packet b);
  b ← pktbuf_write_generic b PqMsg_Describe "cc" [VInt 80; VInt 0];
  b ← pktbuf_write_generic b PqMsg_Execute "ci" [VInt 0; VInt 0];
  pktbuf_write_generic b PqMsg_Sync "" [].

(** The packet shortcuts of include/pktbuf.h. *)
Definition pktbuf_write_ParameterStatus b key val :=
  pktbuf_write_generic b PqMsg_ParameterStatus "ss" [VStr key; VStr val].
Definition pktbuf_write_AuthenticationOk b :=
  pktbuf_write_generic b PqMsg_AuthenticationRequest "i" [VInt 0].
Definition pktbuf_write_ReadyForQuery b :=
  pktbuf_write_generic b PqMsg_ReadyForQuery "c" [VInt 73].
Definition pktbuf_write_CommandComplete b desc :=
  pktbuf_write_generic b PqMsg_CommandComplete "s" [VStr desc].
Definition pktbuf_write_BackendKeyData b key :=
  pktbuf_write_generic b PqMsg_BackendKeyData "b" [VPtr key; VInt 8].
Definition pktbuf_write_CancelRequest b key :=
  pktbuf_write_generic b PKT_CANCEL "b" [VPtr key; VInt 8].
Definition pktbuf_write_NegotiateProtocolVersion b count bytes len :=
  pktbuf_write_generic b PqMsg_NegotiateProtocolVersion "iib"
    [VInt PKT_STARTUP_V3; VInt count; VPtr bytes; VInt len].
Definition pktbuf_write_PasswordMessage b psw :=
  pktbuf_write_generic b PqMsg_PasswordMessage "s" [VStr psw].
Definition pkgbuf_write_SASLInitialResponseMessage b mech cir :=
  pktbuf_write_generic b PqMsg_SASLInitialResponse "sib"
    [VStr mech; VInt (zlen cir); VPtr cir; VInt (zlen cir)].
Definition pkgbuf_write_SASLResponseMessage b cr :=
  pktbuf_write_generic b PqMsg_SASLResponse "b" [VPtr cr; VInt (zlen cr)].
Definition pktbuf_write_SSLRequest b := pktbuf_write_generic b PKT_SSLREQ "" [].
Definition pktbuf_write_Parse b stmt query_and_parameters len :=
  pktbuf_write_generic b PqMsg_Parse "sb" [VStr stmt; VPtr query_and_parameters; VInt len].
Definition pktbuf_write_ParseComplete b := pktbuf_write_generic b PqMsg_ParseComplete "" [].
Definition pktbuf_write_DescribeStmt b stmt :=
  pktbuf_write_generic b PqMsg_Describe "cs" [VInt 83; VStr stmt].
Definition pktbuf_write_CloseStmt b stmt :=
  pktbuf_write_generic b PqMsg_Close "cs" [VInt 83; VStr stmt].
Definition pktbuf_write_CloseComplete b := pktbuf_write_generic b PqMsg_CloseComplete "" [].

End PktBufOps.

(** ** Sending

    [op_send] is [sbuf_op_send] on the destination socket. *)
Definition pktbuf_send_immediate (op_send : list Z -> iores) (b : PktBuf) : res bool :=
  let amount := pb_write_pos b - pb_send_pos b in
  if pb_failed b then Ok false
  else
    bs ← mem_load (pb_buf b) (pb_send_pos b) amount;
    Ok (match op_send bs with IoOk r => bool_decide (r = amount) | _ => false end).

(** What became of a queued buffer: freed, waiting for the socket, or left
    alone because building it had failed. *)
Inductive send_state :=
| PsFreed
| PsArmed (b : PktBuf)
| PsIdle (b : PktBuf).

Definition pb_set_send_pos (b : PktBuf) (p : Z) : PktBuf :=
  mkPktBuf (pb_buf b) (pb_buf_len b) (pb_write_pos b) (pb_pktlen_pos b) p
           (pb_failed b) (pb_sending b) (pb_fixed_buf b).

(** The end of [pktbuf_send_func], after [res] bytes were taken;
    [event_add_ok] tells whether [event_add] succeeds. *)
Definition pktbuf_send_more (event_add_ok : bool) (b : PktBuf) (r : Z) : res send_state :=
  let b := pb_set_send_pos b (pb_send_pos b + r) in
  if bool_decide (pb_send_pos b < pb_write_pos b) then
    if event_add_ok then Ok (PsArmed b) else Ok PsFreed
  else Ok PsFreed.

Definition pktbuf_send_func (op_send : list Z -> iores) (event_add_ok : bool) (b : PktBuf)
  : res send_state :=
  if pb_failed b then Ok (PsIdle b)
  else
    let amount := pb_write_pos b - pb_send_pos b in
    bs ← mem_load (pb_buf b) (pb_send_pos b) amount;
    match op_send bs with
    | IoOk r => pktbuf_send_more event_add_ok b r
    | IoAgain => pktbuf_send_more event_add_ok b 0
    | IoFail => Ok PsFreed
    end.

(** [pooler_error] is the result of [send_pooler_error] for a buffer whose
    construction failed. *)
Definition pktbuf_send_queued (op_send : list Z -> iores) (event_add_ok pooler_error : bool)
  (b : PktBuf) : res (bool * send_state) :=
  _ ← Assert (negb (pb_sending b));
  _ ← Assert (negb (pb_fixed_buf b));
  if pb_failed b then Ok (pooler_error, PsFreed)
  else
    let b := mkPktBuf (pb_buf b) (pb_buf_len b) (pb_write_pos b) (pb_pktlen_pos b)
                      (pb_send_pos b) (pb_failed b) true (pb_fixed_buf b) in
    st ← pktbuf_send_func op_send event_add_ok b;
    Ok (true, st).

(** ** Invariant and wire encoding *)

Definition pb_bytes (b : PktBuf) : list Z := ztake (pb_write_pos b) (pb_buf b).

(** A dynamic buffer starts from a non-empty block: doubling 0 would never
    reach the needed size. *)
Definition pb_wf (b : PktBuf) : Prop :=
  0 <= pb_pktlen_pos b /\ 0 <= pb_write_pos b <= pb_buf_len b /\
  pb_buf_len b = zlen (pb_buf b) /\ pb_buf_len b <= INT_MAX /\
  (pb_fixed_buf b = false -> 0 < pb_buf_len b) /\ Forall is_u8 (pb_buf b).

Definition be16 (v : Z) : list Z := [Z.land (Z.shiftr v 8) 255; Z.land v 255].
Definition be32 (v : Z) : list Z :=
  [Z.land (Z.shiftr v 24) 255; Z.land (Z.shiftr v 16) 255; Z.land (Z.shiftr v 8) 255; Z.land v 255].

(** What the description letters put on the wire. *)
Fixpoint enc_args (adesc : list ascii) (ap : list vaarg) : option (list Z) :=
  match adesc with
  | [] => Some []
  | c :: adesc =>
      match pktdesc_key_of c, ap with
      | Some Kc, VInt v :: ap => app [u8 v] <$> enc_args adesc ap
      | Some Kh, VInt v :: ap => app (be16 (u16 v)) <$> enc_args adesc ap
      | Some Ki, VInt v :: ap => app (be32 (u32 v)) <$> enc_args adesc ap
      | Some Kq, VU64 v :: ap =>
          app (be32 (u32 (Z.shiftr (u64 v) 32)) ++ be32 (u32 (u64 v))) <$> enc_args adesc ap
      | Some Ks, VStr s :: ap => app (s ++ [0]) <$> enc_args adesc ap
      | Some Kb, VPtr p :: VInt len :: ap =>
          if bool_decide (0 <= len <= zlen p) then app (ztake len p) <$> enc_args adesc ap else None
      | _, _ => None
      end
  end.

(** Free space with which the arguments are sure to be written: their bytes,
    and for [h] the four bytes [pktbuf_put_uint16] asks for. *)
Fixpoint room_args (adesc : list ascii) (ap : list vaarg) : Z :=
  match adesc with
  | [] => 0
  | c :: adesc =>
      match pktdesc_key_of c, ap with
      | Some Kc, _ :: ap => 1 + room_args adesc ap
      | Some Kh, _ :: ap => Z.max 4 (2 + room_args adesc ap)
      | Some Ki, _ :: ap => 4 + room_args adesc ap
      | Some Kq, _ :: ap => 8 + room_args adesc ap
      | Some Ks, VStr s :: ap => zlen s + 1 + room_args adesc ap
      | Some Kb, _ :: VInt len :: ap => len + room_args adesc ap
      | _, _ => 0
      end
  end.

(** Strings and blocks hold bytes. *)
Definition va_ok (a : vaarg) : Prop :=
  match a with
  | VStr s => Forall is_u8 s
  | VPtr p => Forall is_u8 p
  | _ => True
  end.

(** A v3 packet is its type byte, the length of what follows the type, and
    the body; an untyped packet is its length, its code and the body. *)
Definition enc_packet (type : Z) (body : list Z) : list Z :=
  if bool_decide (type < 256) then [u8 type] ++ be32 (u32 (4 + zlen body)) ++ body
  else be32 (u32 (8 + zlen body)) ++ be32 (u32 type) ++ body.

Lemma land255_u8 z : is_u8 (Z.land z 255).
Proof.
  change 255 with (Z.ones 8). rewrite Z.land_ones by lia. unfold is_u8. apply Z.mod_pos_bound. lia.
Qed.

Lemma zlen_be16 v : zlen (be16 v) = 2.
Proof. reflexivity. Qed.

Lemma zlen_be32 v : zlen (be32 v) = 4.
Proof. reflexivity. Qed.

#[export] Hint Rewrite zlen_be16 zlen_be32 : zlen.

Lemma be16_bytes v : Forall is_u8 (be16 v).
Proof. repeat constructor; apply land255_u8. Qed.

Lemma be32_bytes v : Forall is_u8 (be32 v).
Proof. repeat constructor; apply land255_u8. Qed.

#[export] Hint Resolve land255_u8 be16_bytes be32_bytes : pgb.

(** Big-endian encoding and decoding are inverse. *)
Lemma be32_combine v : 0 <= v <= UINT_MAX -> be_combine (be32 v) = v.
Proof.
  intros Hv. unfold be_combine, be32; cbn [fold_left].
  change 255 with (Z.ones 8). rewrite !Z.land_ones, !Z.shiftr_div_pow2 by lia.
  change (2 ^ 8) with 256. change (2 ^ 16) with 65536. change (2 ^ 24) with 16777216.
  unfold UINT_MAX in Hv. change (2 ^ 32) with 4294967296 in Hv. Z.div_mod_to_equations. lia.
Qed.

(** The outcome of appending [bs] to [b]: either the buffer is failed, or it
    holds the bytes; [room] bytes of space are enough not to fail. *)
Definition puts (b : PktBuf) (bs : list Z) (room : Z) (r : res PktBuf) : Prop :=
  exists b', r = Ok b' /\ pb_wf b' /\ pb_fixed_buf b' = pb_fixed_buf b /\
    pb_send_pos b' = pb_send_pos b /\
    (pb_failed b = true -> b' = b) /\
    (pb_failed b' = false ->
       pb_failed b = false /\ pb_pktlen_pos b' = pb_pktlen_pos b /\
       pb_bytes b' = pb_bytes b ++ bs /\ pb_write_pos b' = pb_write_pos b + zlen bs) /\
    (pb_failed b = false -> pb_write_pos b + room <= pb_buf_len b ->
       pb_failed b' = false /\ pb_buf_len b' = pb_buf_len b).

(** The outcome of writing the packets [pkts] at the end of [b]. *)
Definition writes (b : PktBuf) (pkts : list Z) (room : Z) (r : res PktBuf) : Prop :=
  exists b', r = Ok b' /\ pb_wf b' /\ pb_fixed_buf b' = pb_fixed_buf b /\
    pb_send_pos b' = pb_send_pos b /\
    (pb_failed b = true -> b' = b) /\
    (pb_failed b' = false -> pb_failed b = false /\ pb_bytes b' = pb_bytes b ++ pkts) /\
    (pb_failed b = false -> pb_write_pos b + room <= pb_buf_len b ->
       pb_failed b' = false /\ pb_buf_len b' = pb_buf_len b).

(** Parameter values of a Bind packet: each with its length before it. *)
Fixpoint enc_params (vals : list (list Z)) : list Z :=
  match vals with
  | [] => []
  | v :: vals => be32 (u32 (zlen v)) ++ v ++ enc_params vals
  end.

(** The packets of [pktbuf_write_ExtQuery]. *)
Definition enc_ExtQuery (query : list Z) (vals : list (list Z)) : list Z :=
  enc_packet PqMsg_Parse ([0] ++ query ++ [0; 0; 0]) ++
  enc_packet PqMsg_Bind ([0; 0] ++ be16 0 ++ be16 (u16 (zlen vals)) ++ enc_params vals ++ be16 0) ++
  enc_packet PqMsg_Describe [80; 0] ++
  enc_packet PqMsg_Execute ([0] ++ be32 0) ++
  enc_packet PqMsg_Sync [].

(** The arguments of a packet hold bytes. *)
Ltac va_solve :=
  repeat (apply Forall_cons_iff; split; [first [exact I | assumption]|]); apply List.Forall_nil.

Section PktBufFacts.
Context `{Realloc}.

Lemma make_room_ok b len :
  pb_wf b -> 0 <= len ->
  exists b', make_room b len = Ok b' /\ pb_wf b' /\ pb_fixed_buf b' = pb_fixed_buf b /\
    pb_send_pos b' = pb_send_pos b /\ pb_pktlen_pos b' = pb_pktlen_pos b /\
    pb_write_pos b' = pb_write_pos b /\ pb_bytes b' = pb_bytes b /\
    (pb_failed b = true -> b' = b) /\
    (pb_failed b' = false -> pb_failed b = false /\ pb_write_pos b + len <= pb_buf_len b') /\
    (pb_write_pos b + len <= pb_buf_len b -> b' = b).
Proof.
  intros Hw Hl. unfold make_room.
  assert (Hfail : pb_wf (pb_fail b)) by done.
  destruct (decide (pb_buf_len b >= pb_write_pos b + len)); zdecide.
  { exists b. split_and!; auto; intros; split; auto; lia. }
  destruct (pb_failed b) eqn:Ef.
  { exists b. split_and!; auto; try done; try congruence. }
  destruct (pb_fixed_buf b) eqn:Ex.
  { exists (pb_fail b). split_and!; auto; try done; simpl; try lia. }
  destruct (decide (pb_write_pos b + len > INT_MAX)); zdecide.
  { exists (pb_fail b). split_and!; auto; try done; simpl; try lia. }
  destruct Hw as (H1&H2&H3&H4&H5&H6). specialize (H5 Ex).
  destruct (grow_ok 33 INT_MAX (pb_write_pos b + len) (pb_buf_len b)) as (len' & Hg & Hn1 & Hn2);
    [zlia|lia|zlia|].
  unfold grow_fuel. rewrite Hg. cbn. destruct (realloc (pb_buf b) len') as [q|] eqn:Eq.
  2:{ exists (pb_fail b). split_and!; auto; try done; simpl; try lia. }
  assert (Hq : zlen q = len') by (eapply realloc_len; [|exact Eq]; lia).
  assert (Hk : ztake (zlen (pb_buf b)) q = pb_buf b) by (eapply realloc_keep; [|exact Eq]; lia).
  pose proof (realloc_bytes _ _ _ H6 Eq) as Hb'.
  eexists; split; [reflexivity|]. unfold pb_wf, pb_bytes; simpl.
  split_and!; auto; try lia; try congruence.
  transitivity (ztake (pb_write_pos b) (ztake (zlen (pb_buf b)) q)); [|by rewrite Hk].
  rewrite ztake_ztake. f_equal. lia.
Qed.

Lemma pb_store_ok b bs :
  pb_wf b -> Forall is_u8 bs -> pb_write_pos b + zlen bs <= pb_buf_len b ->
  exists b', pb_store b bs = Ok b' /\ pb_wf b' /\ pb_fixed_buf b' = pb_fixed_buf b /\
    pb_send_pos b' = pb_send_pos b /\ pb_pktlen_pos b' = pb_pktlen_pos b /\
    pb_failed b' = pb_failed b /\ pb_buf_len b' = pb_buf_len b /\
    pb_write_pos b' = pb_write_pos b + zlen bs /\ pb_bytes b' = pb_bytes b ++ bs.
Proof.
  intros (H1&H2&H3&H4&H5&H6) Hb Hfit. unfold pb_store.
  destruct (mem_store_ok (pb_buf b) (pb_write_pos b) bs) as (m & Hm & Hlen & Hs & _); [zlia..|].
  rewrite Hm. cbn. eexists; split; [reflexivity|].
  pose proof (mem_store_bytes _ _ _ _ Hm H6 Hb).
  unfold pb_wf, pb_bytes; simpl. split_and!; auto; try zlia.
  rewrite <- !slice_0. apply Hs. lia.
Qed.

(** Reserve [room], then store [bs] if the buffer has not failed. *)
Lemma puts_store b bs room (k : PktBuf -> res PktBuf) :
  pb_wf b -> Forall is_u8 bs -> zlen bs <= room ->
  (forall b', pb_failed b' = false -> k b' = pb_store b' bs) ->
  puts b bs room (b ← make_room b room; if pb_failed b then Ok b else k b).
Proof.
  intros Hw Hb Hr Hk.
  destruct (make_room_ok b room Hw) as (b1&E&Hw1&Hx1&Hs1&Hp1&Hwr1&Hb1&Ht1&Hf1&Hsame); [zlia|].
  rewrite E; cbn. destruct (pb_failed b1) eqn:Ef1.
  - exists b1. split_and!; auto; try congruence.
    intros Hf Hroom. rewrite (Hsame Hroom) in *. congruence.
  - rewrite Hk by done. destruct (Hf1 eq_refl) as [Hf Hfit].
    destruct (pb_store_ok b1 bs) as (b2&E2&Hw2&Hx2&Hs2&Hp2&Hf2&Hl2&Hwr2&Hb2); [done|done|lia|].
    exists b2. split_and!; auto; try congruence.
    + intros _. split_and!; congruence.
    + intros _ Hroom. rewrite (Hsame Hroom) in *. split; congruence.
Qed.

Lemma puts_char b v : pb_wf b -> puts b [u8 v] 1 (pktbuf_put_char b v).
Proof. intros Hw. apply puts_store; auto with pgb; done. Qed.

Lemma puts_uint32 b v : pb_wf b -> puts b (be32 (u32 v)) 4 (pktbuf_put_uint32 b v).
Proof. intros Hw. apply puts_store; auto with pgb; done. Qed.

Lemma pb_store_app b bs1 bs2 :
  pb_wf b -> Forall is_u8 bs1 -> Forall is_u8 bs2 ->
  pb_write_pos b + zlen bs1 + zlen bs2 <= pb_buf_len b ->
  (b ← pb_store b bs1; pb_store b bs2) = pb_store b (bs1 ++ bs2).
Proof.
  intros (H1&H2&H3&H4&H5&H6) Hb1 Hb2 Hfit.
  pose proof (mem_store_app (pb_buf b) (pb_write_pos b) bs1 bs2) as Happ.
  destruct (mem_store_ok (pb_buf b) (pb_write_pos b) bs1) as (m & Hm & _); [zlia..|].
  unfold pb_store. rewrite Hm in *. cbn in *. rewrite Happ by zlia.
  destruct (mem_store (pb_buf b) (pb_write_pos b) (bs1 ++ bs2)); cbn; auto.
  by rewrite zlen_app, Z.add_assoc.
Qed.

Lemma puts_uint16 b v : pb_wf b -> puts b (be16 (u16 v)) 4 (pktbuf_put_uint16 b v).
Proof.
  intros Hw.
  destruct (make_room_ok b 4 Hw) as (b1&E&Hw1&_&_&_&Hwr1&_&_&Hf1&_); [lia|].
  assert (Heq : pktbuf_put_uint16 b v
    = (b ← make_room b 4; if pb_failed b then Ok b else pb_store b (be16 (u16 v)))).
  { unfold pktbuf_put_uint16. rewrite E; cbn. destruct (pb_failed b1) eqn:Ef; [done|].
    destruct (Hf1 eq_refl). change (be16 (u16 v)) with
      ([Z.land (Z.shiftr (u16 v) 8) 255] ++ [Z.land (u16 v) 255]).
    apply pb_store_app; auto with pgb; zlia. }
  rewrite Heq. apply puts_store; auto with pgb; done.
Qed.

(** Two appends in a row. *)
Lemma puts_bind b bs1 n1 r1 bs2 n2 (k : PktBuf -> res PktBuf) :
  puts b bs1 n1 r1 -> (forall b1, pb_wf b1 -> puts b1 bs2 n2 (k b1)) ->
  puts b (bs1 ++ bs2) (Z.max n1 (zlen bs1 + n2)) (r1 ≫= k).
Proof.
  intros (b1&->&Hw1&Hx1&Hs1&Ht1&Hf1&Hr1) Hk. cbn.
  destruct (Hk b1 Hw1) as (b2&->&Hw2&Hx2&Hs2&Ht2&Hf2&Hr2).
  exists b2. split_and!; auto; try congruence.
  - intros Hf. pose proof (Ht1 Hf) as ->. auto.
  - intros Hf. destruct (Hf2 Hf) as (Hfb1&Hp2&Hb2&Hwr2).
    destruct (Hf1 Hfb1) as (Hfb&Hp1&Hb1&Hwr1).
    split_and!; auto; try congruence; [|zlia].
    by rewrite Hb2, Hb1, app_assoc.
  - intros Hf Hroom. destruct (Hr1 Hf) as [Hf1' Hl1]; [lia|].
    destruct (Hf1 Hf1') as (_&_&_&Hwr1). destruct (Hr2 Hf1') as [? ?]; [lia|]. split; congruence.
Qed.

Lemma puts_ret b : pb_wf b -> puts b [] 0 (Ok b).
Proof.
  intros Hw. exists b. split_and!; auto. intros Hf. rewrite app_nil_r, zlen_nil, Z.add_0_r. auto.
Qed.

Lemma puts_room b bs n n' r : puts b bs n r -> n <= n' -> puts b bs n' r.
Proof.
  intros (b'&E&Hw&Hx&Hs&Ht&Hf&Hr) Hle. exists b'. split_and!; auto. intros; apply Hr; [done|lia].
Qed.

Lemma puts_uint64 b v :
  pb_wf b -> puts b (be32 (u32 (Z.shiftr (u64 v) 32)) ++ be32 (u32 (u64 v))) 8 (pktbuf_put_uint64 b v).
Proof.
  intros Hw. eapply puts_room; [|shelve].
  eapply puts_bind; [by apply puts_uint32|]. intros; by apply puts_uint32.
  Unshelve. done.
Qed.

Lemma puts_bytes b d len :
  pb_wf b -> Forall is_u8 d -> 0 <= len <= zlen d ->
  puts b (ztake len d) len (pktbuf_put_bytes b d len).
Proof.
  intros Hw Hd Hl. unfold pktbuf_put_bytes. destruct (decide (len = 0)) as [->|]; zdecide.
  { rewrite ztake_nonpos by lia. by apply puts_ret. }
  apply puts_store; auto with pgb; [zlia|]. intros b' _.
  rewrite mem_load_ok by lia. cbn. by rewrite slice_0.
Qed.

Lemma puts_string b s :
  pb_wf b -> Forall is_u8 s -> puts b (s ++ [0]) (zlen s + 1) (pktbuf_put_string b s).
Proof.
  intros Hw Hs. unfold pktbuf_put_string.
  assert (Hz : Forall is_u8 [0]) by (repeat constructor; unfold is_u8; lia).
  replace (s ++ [0]) with (ztake (zlen s + 1) (s ++ [0])) at 1 by (apply ztake_all; zlia).
  apply puts_bytes; [done|by apply Forall_app|zlia].
Qed.

(** Picks the lemma for one primitive append. *)
Ltac puts_prim :=
  lazymatch goal with
  | |- puts _ _ _ (pktbuf_put_char _ _) => apply puts_char
  | |- puts _ _ _ (pktbuf_put_uint16 _ _) => apply puts_uint16
  | |- puts _ _ _ (pktbuf_put_uint32 _ _) => apply puts_uint32
  | |- puts _ _ _ (pktbuf_put_uint64 _ _) => apply puts_uint64
  | |- puts _ _ _ (pktbuf_put_string _ _) => apply puts_string
  | |- puts _ _ _ (pktbuf_put_bytes _ _ _) => apply puts_bytes
  end.

Lemma room_args_nonneg adesc ap body : enc_args adesc ap = Some body -> 0 <= room_args adesc ap.
Proof.
  revert ap body; induction adesc as [|c adesc IH]; intros ap body; simpl; [done|].
  destruct (pktdesc_key_of c) as [[]|]; try done;
    destruct ap as [|[] ap]; try done;
    try (destruct (enc_args adesc ap) eqn:E; [|done]; intros _; specialize (IH _ _ E); zlia).
  destruct ap as [|[] ap]; try done. case_bool_decide; [|done].
  destruct (enc_args adesc ap) eqn:E; [|done]; intros _; specialize (IH _ _ E); zlia.
Qed.

(** The argument loop appends the encoding of the arguments. *)
Lemma puts_args b adesc ap body :
  pb_wf b -> Forall va_ok ap -> enc_args adesc ap = Some body ->
  puts b body (room_args adesc ap) (pktbuf_write_args b adesc ap).
Proof.
  intros Hw Hap. revert b ap body Hw Hap.
  induction adesc as [|c adesc IH]; intros b ap body Hw Hap;
    cbn [enc_args room_args pktbuf_write_args].
  { intros [= <-]. by apply puts_ret. }
  destruct (pktdesc_key_of c) as [[]|]; try done; destruct ap as [|[] ap]; try done.
  all: try (destruct ap as [|[] ap]; try done; case_bool_decide; [|done]).
  all: intros (rest & E & ->)%fmap_Some.
  all: repeat match goal with Hf : Forall va_ok (_ :: _) |- _ => apply Forall_cons_iff in Hf as [? Hf] end.
  all: pose proof (room_args_nonneg _ _ _ E).
  all: eapply puts_room; [eapply puts_bind; [|intros; by apply IH]|].
  all: try (puts_prim; done).
  all: zlia.
Qed.

(** The header [pktbuf_start_packet] writes, with [len] in the length word. *)
Definition enc_header (type len : Z) : list Z :=
  if bool_decide (type < 256) then [u8 type] ++ be32 len else be32 len ++ be32 (u32 type).

Definition header_len (type : Z) : Z := if bool_decide (type < 256) then 5 else 8.

(** Bytes before the length word. *)
Definition len_ofs (type : Z) : Z := if bool_decide (type < 256) then 1 else 0.

Lemma pb_set_pktlen_pos_wf b p : pb_wf b -> 0 <= p -> pb_wf (pb_set_pktlen_pos b p).
Proof. intros (?&?&?&?&?&?) ?. unfold pb_wf; simpl. split_and!; auto; lia. Qed.

Lemma start_packet_ok b type :
  pb_wf b ->
  exists b', pktbuf_start_packet b type = Ok b' /\ pb_wf b' /\ pb_fixed_buf b' = pb_fixed_buf b /\
    pb_send_pos b' = pb_send_pos b /\
    (pb_failed b = true -> b' = b) /\
    (pb_failed b' = false ->
       pb_failed b = false /\ pb_pktlen_pos b' = pb_write_pos b + len_ofs type /\
       pb_bytes b' = pb_bytes b ++ enc_header type 0 /\
       pb_write_pos b' = pb_write_pos b + header_len type) /\
    (pb_failed b = false -> pb_write_pos b + header_len type <= pb_buf_len b ->
       pb_failed b' = false /\ pb_buf_len b' = pb_buf_len b).
Proof.
  intros Hw. unfold pktbuf_start_packet, enc_header, header_len, len_ofs.
  destruct (pb_failed b) eqn:Ef.
  { exists b. split_and!; auto; intros; congruence. }
  assert (Hwp : 0 <= pb_write_pos b) by (destruct Hw as (_&?&_); lia).
  case_bool_decide.
  - destruct (puts_char b type Hw) as (b1&->&Hw1&Hx1&Hs1&_&Hf1&Hr1). cbn.
    assert (Hw1' : pb_wf (pb_set_pktlen_pos b1 (pb_write_pos b1))).
    { apply pb_set_pktlen_pos_wf; [done|]. destruct Hw1 as (_&?&_); lia. }
    destruct (puts_uint32 _ 0 Hw1') as (b2&->&Hw2&Hx2&Hs2&_&Hf2&Hr2).
    exists b2. do 2 (split; [done|]). do 2 (split; [simpl in *; congruence|]). split; [done|]. split.
    + intros Hf. destruct (Hf2 Hf) as (Hfb1&Hp2&Hb2&Hwr2). simpl in *.
      destruct (Hf1 Hfb1) as (_&_&Hb1&Hwr1). unfold pb_bytes in *; simpl in *.
      rewrite Hp2, Hb2, Hwr2, Hwr1. rewrite Hwr1 in Hb1. rewrite Hb1, <- app_assoc.
      split_and!; try done; zlia.
    + intros _ Hroom. destruct (Hr1 Ef) as [Hf1' Hl1]; [lia|].
      destruct (Hf1 Hf1') as (_&_&_&Hwr1). destruct Hr2 as [? ?]; simpl in *; [done|zlia|].
      split; congruence.
  - cbn. assert (Hw1 : pb_wf (pb_set_pktlen_pos b (pb_write_pos b))).
    { by apply pb_set_pktlen_pos_wf. }
    destruct (puts_bind _ _ _ _ _ _ (fun b => pktbuf_put_uint32 b type)
      (puts_uint32 _ 0 Hw1) (fun b1 Hb1 => puts_uint32 b1 type Hb1))
      as (b2&->&Hw2&Hx2&Hs2&_&Hf2&Hr2).
    exists b2. do 5 (split; [done|]). split.
    + intros Hf. destruct (Hf2 Hf) as (_&Hp2&Hb2&Hwr2). unfold pb_bytes in *; simpl in *.
      rewrite Hp2, Hb2, Hwr2. split_and!; try done; zlia.
    + intros _ Hroom. apply Hr2; [done|]. simpl; zlia.
Qed.

(** Filling in the length word of the packet that starts after [pre]. *)
Lemma finish_packet_ok b pre type body :
  pb_wf b -> pb_failed b = false -> pb_bytes b = pre ++ enc_header type 0 ++ body ->
  pb_pktlen_pos b = zlen pre + len_ofs type ->
  exists b', pktbuf_finish_packet b = Ok b' /\ pb_wf b' /\ pb_fixed_buf b' = pb_fixed_buf b /\
    pb_send_pos b' = pb_send_pos b /\
    pb_failed b' = false /\ pb_buf_len b' = pb_buf_len b /\ pb_write_pos b' = pb_write_pos b /\
    pb_bytes b' = pre ++ enc_packet type body.
Proof.
  intros (H1&H2&H3&H4&H5&H6) Hf Hb Hp. unfold pktbuf_finish_packet. rewrite Hf.
  set (rest := zdrop (pb_write_pos b) (pb_buf b)).
  assert (Hbuf : pb_buf b = pb_bytes b ++ rest) by (unfold pb_bytes, rest; by rewrite ztake_zdrop).
  assert (Hwp : pb_write_pos b = zlen pre + header_len type + zlen body).
  { assert (zlen (pb_bytes b) = pb_write_pos b) as <- by (unfold pb_bytes; zlia).
    rewrite Hb. unfold enc_header, header_len. case_bool_decide; zlia. }
  assert (Hsplit : exists x z, pb_buf b = x ++ be32 0 ++ z ++ rest /\ zlen x = pb_pktlen_pos b /\
    forall len, len = u32 (pb_write_pos b - pb_pktlen_pos b) -> x ++ be32 len ++ z = pre ++ enc_packet type body).
  { rewrite Hbuf, Hb, Hp, Hwp. unfold enc_header, enc_packet, header_len, len_ofs.
    case_bool_decide.
    - exists (pre ++ [u8 type]), body. split_and!; [by rewrite <- !app_assoc|zlia|].
      intros len ->. rewrite <- !app_assoc. do 5 f_equal. lia.
    - exists pre, (be32 (u32 type) ++ body). split_and!; [by rewrite <- !app_assoc|lia|].
      intros len ->. do 4 f_equal. lia. }
  destruct Hsplit as (x & z & Hbz & Hx & Hres).
  set (len := u32 (pb_write_pos b - pb_pktlen_pos b)) in *.
  change [Z.land (Z.shiftr len 24) 255; Z.land (Z.shiftr len 16) 255;
          Z.land (Z.shiftr len 8) 255; Z.land len 255] with (be32 len).
  rewrite Hbz, <- Hx, mem_store_middle by done. cbn [mbind res_bind].
  specialize (Hres _ eq_refl).
  assert (Hlen : zlen (x ++ be32 len ++ z ++ rest) = zlen (pb_buf b)) by (rewrite Hbz; zlia).
  eexists; split; [reflexivity|]. unfold pb_wf, pb_bytes. cbn [pb_set_pktlen_pos pb_set_buf pb_buf pb_buf_len
    pb_write_pos pb_pktlen_pos pb_send_pos pb_failed pb_fixed_buf]. split_and!; auto; try lia.
  - rewrite Hbz in H6. rewrite !Forall_app in *. destruct H6 as (?&?&?&?). split_and!; auto with pgb.
  - replace (x ++ be32 len ++ z ++ rest) with ((pre ++ enc_packet type body) ++ rest)
      by (rewrite <- Hres, <- !app_assoc; done).
    rewrite ztake_app_le, ztake_all; [done| |].
    all: rewrite <- Hres; apply (f_equal zlen) in Hbz; rewrite Hbuf in Hbz; unfold pb_bytes in *; zlia.
Qed.

Lemma packet_ok b type body room (k : PktBuf -> res PktBuf) :
  pb_wf b -> (forall b1, pb_wf b1 -> puts b1 body room (k b1)) ->
  writes b (enc_packet type body) (Z.max (header_len type) (header_len type + room))
    (b ← pktbuf_start_packet b type; b ← k b; pktbuf_finish_packet b).
Proof.
  intros Hw Hk.
  destruct (start_packet_ok b type Hw) as (b1&->&Hw1&Hx1&Hs1&Ht1&Hf1&Hr1). cbn [mbind res_bind].
  destruct (Hk b1 Hw1) as (b2&->&Hw2&Hx2&Hs2&Ht2&Hf2&Hr2). cbn [mbind res_bind].
  destruct (pb_failed b2) eqn:E2.
  - exists b2. unfold pktbuf_finish_packet. rewrite E2. split_and!; try congruence; auto.
    + intros Hf. pose proof (Ht1 Hf) as ->. auto.
    + intros Hf Hroom. destruct (Hr1 Hf) as [Hf1' Hl1]; [lia|].
      destruct (Hf1 Hf1') as (_&_&_&Hwr1). destruct (Hr2 Hf1') as [? ?]; [lia|congruence].
  - destruct (Hf2 eq_refl) as (Hfb1&Hp2&Hb2&Hwr2). destruct (Hf1 Hfb1) as (Hfb&Hp1&Hb1&Hwr1).
    assert (Hpre : zlen (pb_bytes b) = pb_write_pos b).
    { destruct Hw as (_&?&?&_). unfold pb_bytes. zlia. }
    destruct (finish_packet_ok b2 (pb_bytes b) type body) as (b3&->&Hw3&Hx3&Hs3&Hf3&Hl3&Hwr3&Hb3);
      [done|done|by rewrite Hb2, Hb1, app_assoc|congruence|].
    exists b3. split_and!; auto; try congruence.
    intros _ Hroom. destruct (Hr1 Hfb) as [_ Hl1]; [lia|].
    destruct (Hr2 Hfb1) as [_ Hl2]; [lia|]. split; congruence.
Qed.

Lemma write_generic_ok b type desc ap body :
  pb_wf b -> Forall va_ok ap -> enc_args (String.list_ascii_of_string desc) ap = Some body ->
  writes b (enc_packet type body)
    (header_len type + room_args (String.list_ascii_of_string desc) ap)
    (pktbuf_write_generic b type desc ap).
Proof.
  intros Hw Hap Henc. pose proof (room_args_nonneg _ _ _ Henc).
  rewrite <- (Z.max_r (header_len type) (header_len type + room_args (String.list_ascii_of_string desc) ap)) by lia.
  apply (packet_ok b type body _ (fun b => pktbuf_write_args b (String.list_ascii_of_string desc) ap)); [done|].
  intros; by apply puts_args.
Qed.

(** Packets one after another. *)
Lemma writes_bind b p1 n1 r1 p2 n2 (k : PktBuf -> res PktBuf) :
  pb_wf b -> writes b p1 n1 r1 -> (forall b1, pb_wf b1 -> writes b1 p2 n2 (k b1)) ->
  writes b (p1 ++ p2) (Z.max n1 (zlen p1 + n2)) (r1 ≫= k).
Proof.
  intros Hw (b1&->&Hw1&Hx1&Hs1&Ht1&Hf1&Hr1) Hk. cbn.
  destruct (Hk b1 Hw1) as (b2&->&Hw2&Hx2&Hs2&Ht2&Hf2&Hr2).
  assert (Hwp : pb_failed b1 = false -> pb_write_pos b1 <= pb_write_pos b + zlen p1).
  { intros Hf. destruct (Hf1 Hf) as [_ Hb]. apply (f_equal zlen) in Hb.
    destruct Hw as (_&?&?&_), Hw1 as (_&?&?&_). unfold pb_bytes in Hb. zlia. }
  exists b2. split_and!; auto; try congruence.
  - intros Hf. pose proof (Ht1 Hf) as ->. auto.
  - intros Hf. destruct (Hf2 Hf) as (Hfb1&Hb2). destruct (Hf1 Hfb1) as (Hfb&Hb1).
    split; [done|]. by rewrite Hb2, Hb1, app_assoc.
  - intros Hf Hroom. destruct (Hr1 Hf) as [Hf1' Hl1]; [lia|]. specialize (Hwp Hf1').
    destruct (Hr2 Hf1') as [? ?]; [lia|]. split; congruence.
Qed.

Lemma writes_ret b : pb_wf b -> writes b [] 0 (Ok b).
Proof. intros Hw. exists b. split_and!; auto. intros Hf. by rewrite app_nil_r. Qed.

Lemma puts_params b vals :
  pb_wf b -> Forall (Forall is_u8) vals ->
  puts b (enc_params vals) (zlen (enc_params vals)) (pktbuf_put_params b vals).
Proof.
  intros Hw Hv. revert b Hw; induction Hv as [|v vals Hv Hvs IH]; intros b Hw; cbn.
  { by apply puts_ret. }
  change (puts b (be32 (u32 (zlen v)) ++ v ++ enc_params vals)
    (zlen (be32 (u32 (zlen v)) ++ v ++ enc_params vals))
    (b ← pktbuf_put_uint32 b (zlen v);
     b ← pktbuf_put_bytes b v (zlen v); pktbuf_put_params b vals)).
  eapply puts_room.
  { eapply puts_bind; [by apply puts_uint32|]. intros b1 Hw1.
    eapply puts_bind; [|intros; by apply IH].
    rewrite <- (ztake_all (zlen v) v) at 1 by lia. apply puts_bytes; [done|done|zlia]. }
  zlia.
Qed.

(** A packet built in a fixed buffer that is large enough. *)
Lemma static_write d n pkt room (write : PktBuf -> res PktBuf) :
  Forall is_u8 d -> zlen d = n -> n <= INT_MAX -> room <= n ->
  (forall b, pb_wf b -> writes b pkt room (write b)) ->
  exists b', write (pktbuf_static d n) = Ok b' /\ pb_wf b' /\ pb_send_pos b' = 0 /\
    pb_failed b' = false /\ pb_bytes b' = pkt.
Proof.
  intros Hd Hn Hmax Hroom Hwr.
  assert (Hw : pb_wf (pktbuf_static d n)) by (unfold pb_wf; simpl; split_and!; auto; zlia).
  destruct (Hwr _ Hw) as (b'&E&Hw'&_&Hs&_&Hf&Hr). exists b'. split; [done|].
  destruct Hr as [Hfb _]; [done|simpl; lia|]. split_and!; try done. by destruct (Hf Hfb) as [_ ->].
Qed.

Lemma writes_room b p n n' r : writes b p n r -> n <= n' -> writes b p n' r.
Proof.
  intros (b'&E&Hw&Hx&Hs&Ht&Hf&Hr) Hle. exists b'. split_and!; auto. intros; apply Hr; [done|lia].
Qed.

Lemma puts_bind_fields b vals :
  pb_wf b -> Forall (Forall is_u8) vals ->
  puts b ([0; 0] ++ be16 0 ++ be16 (u16 (zlen vals)) ++ enc_params vals ++ be16 0)
    (12 + zlen (enc_params vals)) (pktbuf_put_bind b vals).
Proof.
  intros Hw Hv.
  change (puts b ([u8 0] ++ [u8 0] ++ be16 (u16 0) ++ be16 (u16 (zlen vals)) ++ enc_params vals
    ++ be16 (u16 0)) (12 + zlen (enc_params vals)) (pktbuf_put_bind b vals)).
  unfold pktbuf_put_bind. eapply puts_room.
  { repeat (eapply puts_bind; [first [by apply puts_params|by puts_prim]|intros ? ?]). by puts_prim. }
  zlia.
Qed.

Lemma zlen_enc_packet type body : zlen (enc_packet type body) = header_len type + zlen body.
Proof. unfold enc_packet, header_len. case_bool_decide; zlia. Qed.

(** One generic packet with its encoding given. *)
Lemma write_generic_as b type desc ap body room :
  pb_wf b -> Forall va_ok ap -> enc_args (String.list_ascii_of_string desc) ap = Some body ->
  header_len type + room_args (String.list_ascii_of_string desc) ap <= room ->
  writes b (enc_packet type body) room (pktbuf_write_generic b type desc ap).
Proof. intros. eapply writes_room; [by apply write_generic_ok|done]. Qed.

Lemma write_ExtQuery_ok b query vals :
  pb_wf b -> Forall is_u8 query -> Forall (Forall is_u8) vals ->
  writes b (enc_ExtQuery query vals) (60 + zlen query + zlen (enc_params vals))
    (pktbuf_write_ExtQuery b query vals).
Proof.
  intros Hw Hq Hv. unfold pktbuf_write_ExtQuery, enc_ExtQuery. eapply writes_room.
  { apply writes_bind; [done| |intros ? ?; apply writes_bind; [done| |intros ? ?; apply writes_bind;
      [done| |intros ? ?; apply writes_bind; [done| |intros ? ?]]]].
    - apply (write_generic_as _ _ _ _ _ (15 + zlen query)); [done|va_solve| |].
      2:{ change (header_len PqMsg_Parse) with 5. cbn [room_args String.list_ascii_of_string pktdesc_key_of]. zlia. }
      simpl. by rewrite <- app_assoc.
    - apply packet_ok; [done|]. intros; by apply puts_bind_fields.
    - by apply (write_generic_as _ _ _ _ _ 7); [done|va_solve| |].
    - by apply (write_generic_as _ _ _ _ _ 10); [done|va_solve| |].
    - by apply (write_generic_as _ _ _ _ _ 5); [done|va_solve| |]. }
  rewrite !zlen_enc_packet. change (header_len PqMsg_Parse) with 5. change (header_len PqMsg_Bind) with 5.
  change (header_len PqMsg_Describe) with 5. change (header_len PqMsg_Execute) with 5. zlia.
Qed.

End PktBufFacts.

(** ** Queued sending *)

(** One event: the socket's answer to the send and whether the event could be
    armed again. *)
Definition send_event : Type := (list Z -> iores) * bool.

Definition pb_unsent (b : PktBuf) : list Z := slice (pb_send_pos b) (pb_write_pos b) (pb_buf b).

(** The bytes the socket took from [b]. *)
Definition taken (op_send : list Z -> iores) (b : PktBuf) : list Z :=
  match op_send (pb_unsent b) with IoOk n => ztake n (pb_unsent b) | _ => [] end.

(** The event loop calling [pktbuf_send_func] while the buffer is armed; the
    result collects what the socket took. *)
Fixpoint send_events (evs : list send_event) (b : PktBuf) : res (list Z * send_state) :=
  match evs with
  | [] => Ok ([], PsArmed b)
  | (op_send, add_ok) :: evs =>
      st ← pktbuf_send_func op_send add_ok b;
      match st with
      | PsArmed b' => '(out, st) ← send_events evs b'; Ok (taken op_send b ++ out, st)
      | _ => Ok (taken op_send b, st)
      end
  end.

(** [send] takes at most what it was given, and a working socket and event
    loop report no error. *)
Definition send_sound (e : send_event) : Prop :=
  forall bs, match e.1 bs with IoOk n => 0 <= n <= zlen bs | _ => True end.
Definition send_works (e : send_event) : Prop := (forall bs, e.1 bs <> IoFail) /\ e.2 = true.

Definition sendable (b : PktBuf) : Prop :=
  pb_wf b /\ pb_failed b = false /\ 0 <= pb_send_pos b <= pb_write_pos b.

(** What a step of the queue may leave of [b], when [out] was taken. *)
Definition send_step_ok (e : send_event) (b : PktBuf) (out : list Z) (st : send_state) : Prop :=
  match st with
  | PsIdle _ => False
  | PsArmed b' => sendable b' /\ pb_unsent b = out ++ pb_unsent b'
  | PsFreed => (exists rest, pb_unsent b = out ++ rest) /\ (send_works e -> pb_unsent b = out)
  end.

Lemma zlen_unsent b : sendable b -> zlen (pb_unsent b) = pb_write_pos b - pb_send_pos b.
Proof. intros ((_&?&?&_)&_&?). unfold pb_unsent. zlia. Qed.

Lemma send_more_ok e b r :
  sendable b -> 0 <= r <= zlen (pb_unsent b) ->
  exists st, pktbuf_send_more e.2 b r = Ok st /\ send_step_ok e b (ztake r (pb_unsent b)) st.
Proof.
  intros Hb Hr. pose proof (zlen_unsent b Hb) as Hlen. destruct Hb as ((H1&H2&H3&H4&H5&H6)&Hf&Hs).
  unfold pktbuf_send_more. simpl. case_bool_decide; [destruct e.2 eqn:E|];
    eexists; (split; [reflexivity|]); simpl.
  - split; [unfold sendable, pb_wf; simpl; split_and!; auto; lia|].
    unfold pb_unsent; simpl. rewrite (slice_split _ (pb_send_pos b + r)) by lia. f_equal.
    rewrite <- slice_0, <- slice_split, slice_slice by lia. by rewrite Z.add_0_r.
  - split; [eexists; by rewrite ztake_zdrop|]. intros [_ ?]; congruence.
  - rewrite ztake_all by lia. split; [exists []; by rewrite app_nil_r|done].
Qed.

Lemma send_func_ok e b :
  sendable b -> send_sound e ->
  exists st, pktbuf_send_func e.1 e.2 b = Ok st /\ send_step_ok e b (taken e.1 b) st.
Proof.
  intros Hb Hsound. pose proof (zlen_unsent b Hb) as Hlen.
  pose proof Hb as ((H1&H2&H3&H4&H5&H6)&Hf&Hs). unfold pktbuf_send_func. rewrite Hf.
  rewrite mem_load_ok by lia. cbn [mbind res_bind].
  replace (pb_send_pos b + (pb_write_pos b - pb_send_pos b)) with (pb_write_pos b) by lia.
  change (slice (pb_send_pos b) (pb_write_pos b) (pb_buf b)) with (pb_unsent b).
  specialize (Hsound (pb_unsent b)). unfold taken. destruct (e.1 (pb_unsent b)) as [n| |] eqn:E.
  - by apply send_more_ok.
  - rewrite <- (ztake_nonpos 0 (pb_unsent b)) by lia. apply send_more_ok; [done|lia].
  - eexists; split; [reflexivity|]. split; [by eexists|]. intros [Hno _]. by destruct (Hno (pb_unsent b)).
Qed.

Lemma send_events_ok evs b :
  sendable b -> Forall send_sound evs ->
  exists out st rest, send_events evs b = Ok (out, st) /\ pb_unsent b = out ++ rest /\
    (forall b', st = PsArmed b' -> rest = pb_unsent b') /\
    (st = PsFreed -> Forall send_works evs -> rest = []).
Proof.
  revert b; induction evs as [|e evs IH]; intros b Hb Hs.
  { exists [], (PsArmed b), (pb_unsent b). split_and!; try done. by intros b' [= ->]. }
  apply Forall_cons_iff in Hs as [He Hs]. simpl. destruct e as [op_send add_ok].
  destruct (send_func_ok _ _ Hb He) as (st & E & Hst). simpl in *. rewrite E. cbn [mbind res_bind].
  destruct st as [|b'|]; [| |done].
  - destruct Hst as [[rest Hr] Hok]. exists (taken op_send b), PsFreed, rest.
    split_and!; try done. intros _ [Hw _]%Forall_cons_iff. specialize (Hok Hw).
    apply (app_inv_head (taken op_send b)). by rewrite <- Hr, app_nil_r.
  - destruct Hst as [Hb' Hu]. destruct (IH b' Hb' Hs) as (out&st&rest&->&Hr&Ha&Hf). cbn.
    exists (taken op_send b ++ out), st, rest. split_and!; auto.
    + by rewrite Hu, Hr, app_assoc.
    + intros Hst [_ Hw]%Forall_cons_iff. auto.
Qed.

(** ** Properties *)

(** [pktbuf_write_generic] never reads or writes outside its buffer and
    never runs out of its growth loop.  If the buffer has not failed it holds
    the old bytes followed by exactly the wire encoding of the packet: type,
    right length word, and the arguments as the description letters say. It
    does not fail where the space left is enough. *)
Theorem pktbuf_write_generic_encodes `{Realloc} b type desc ap body :
  pb_wf b -> pb_failed b = false -> Forall va_ok ap ->
  enc_args (String.list_ascii_of_string desc) ap = Some body ->
  exists b', pktbuf_write_generic b type desc ap = Ok b' /\ pb_wf b' /\
    (pb_failed b' = false -> pb_bytes b' = pb_bytes b ++ enc_packet type body) /\
    (pb_write_pos b + header_len type + room_args (String.list_ascii_of_string desc) ap <= pb_buf_len b ->
     pb_failed b' = false).
Proof.
  intros Hw Hf Hap Henc.
  destruct (write_generic_ok b type desc ap body Hw Hap Henc) as (b'&E&Hw'&_&_&_&Hb&Hr).
  exists b'. split_and!; auto; [apply Hb|]. intros Hroom. apply Hr; [done|lia].
Qed.

Lemma pktbuf_write_generic_encodes_witness :
  exists b', pktbuf_write_generic (H := zero_Realloc) (mkPktBuf [0; 0] 2 0 0 0 false false false)
               PqMsg_ParameterStatus "si" [VStr [97; 98]; VInt 7] = Ok b' /\
    pb_bytes b' = [83; 0; 0; 0; 11; 97; 98; 0; 0; 0; 0; 7].
Proof.
  destruct (pktbuf_write_generic_encodes (H := zero_Realloc) (mkPktBuf [0; 0] 2 0 0 0 false false false)
    PqMsg_ParameterStatus "si" [VStr [97; 98]; VInt 7] [97; 98; 0; 0; 0; 0; 7]) as (b' & E & _ & Hb & _).
  - unfold pb_wf, zlen, is_u8, INT_MAX; simpl. split_and!; try lia. repeat constructor; lia.
  - reflexivity.
  - repeat constructor; unfold is_u8; lia.
  - reflexivity.
  - exists b'. split; [exact E|]. rewrite Hb; [reflexivity|].
    vm_compute in E. injection E as <-. reflexivity.
Defined.

(** The fixed buffers of the SEND and QUEUE macros always hold their
    packet: ReadyForQuery in 8 bytes, CancelRequest in 16, ParseComplete and
    CloseComplete in 5, Describe and Close of a server-side statement name in
    6 + MAX_SERVER_PREPARED_STMT_NAME, PasswordMessage in MAX_PASSWORD + 8. *)
Theorem send_macro_buffers_fit `{Realloc} d key stmt psw :
  Forall is_u8 d -> Forall is_u8 key -> zlen key = 8 ->
  Forall is_u8 stmt -> zlen stmt < MAX_SERVER_PREPARED_STMT_NAME ->
  Forall is_u8 psw -> zlen psw < MAX_PASSWORD ->
  let built (write : PktBuf -> res PktBuf) (pkt : list Z) :=
    exists b', write (pktbuf_static d (zlen d)) = Ok b' /\ pb_failed b' = false /\ pb_bytes b' = pkt in
  (zlen d = 8 -> built pktbuf_write_ReadyForQuery (enc_packet PqMsg_ReadyForQuery [73])) /\
  (zlen d = 16 -> built (fun b => pktbuf_write_CancelRequest b key) (enc_packet PKT_CANCEL key)) /\
  (zlen d = 5 -> built pktbuf_write_ParseComplete (enc_packet PqMsg_ParseComplete []) /\
                 built pktbuf_write_CloseComplete (enc_packet PqMsg_CloseComplete [])) /\
  (zlen d = 6 + MAX_SERVER_PREPARED_STMT_NAME ->
     built (fun b => pktbuf_write_DescribeStmt b stmt) (enc_packet PqMsg_Describe ([83] ++ stmt ++ [0])) /\
     built (fun b => pktbuf_write_CloseStmt b stmt) (enc_packet PqMsg_Close ([83] ++ stmt ++ [0]))) /\
  (zlen d = MAX_PASSWORD + 8 ->
     built (fun b => pktbuf_write_PasswordMessage b psw) (enc_packet PqMsg_PasswordMessage (psw ++ [0]))).
Proof.
  intros Hd Hk Hk8 Hs Hsl Hp Hpl built. unfold MAX_SERVER_PREPARED_STMT_NAME, MAX_PASSWORD in *.
  assert (Hgen : forall type desc ap body,
    Forall va_ok ap -> enc_args (String.list_ascii_of_string desc) ap = Some body -> zlen d <= INT_MAX ->
    header_len type + room_args (String.list_ascii_of_string desc) ap <= zlen d ->
    built (fun b => pktbuf_write_generic b type desc ap) (enc_packet type body)).
  { intros type desc ap body Hap Henc Hmax Hroom. destruct (static_write d (zlen d) (enc_packet type body)
      (header_len type + room_args (String.list_ascii_of_string desc) ap)
      (fun b => pktbuf_write_generic b type desc ap)) as (b'&E&_&_&Hf&Hb); [done..| |by exists b'].
    intros; by apply write_generic_ok. }
  split_and!; intros Hlen; try split; apply Hgen; try va_solve; try (rewrite Hlen; done).
  all: cbn [enc_args room_args String.list_ascii_of_string pktdesc_key_of fmap option_fmap option_map].
  all: try done; try (unfold header_len; simpl; zlia).
  { rewrite Hk8. simpl. rewrite app_nil_r, ztake_all by lia. done. }
  all: by rewrite app_nil_r.
Qed.

Lemma send_macro_buffers_fit_witness :
  exists b', pktbuf_write_CancelRequest (H := zero_Realloc) (pktbuf_static (replicate 16 0) 16)
               [1; 2; 3; 4; 5; 6; 7; 8] = Ok b' /\
    pb_bytes b' = [0; 0; 0; 16; 4; 210; 22; 46; 1; 2; 3; 4; 5; 6; 7; 8].
Proof.
  destruct (send_macro_buffers_fit (H := zero_Realloc) (replicate 16 0) [1; 2; 3; 4; 5; 6; 7; 8] [80; 49] [112])
    as (_ & Hc & _); try (repeat constructor; unfold is_u8; lia); try reflexivity.
  destruct Hc as (b' & E & _ & Hb); [reflexivity|]. exists b'. split; [exact E|]. rewrite Hb. reflexivity.
Defined.

(** [pktbuf_write_ExtQuery], which runs auth_query, emits the five
    packets Parse, Bind, Describe, Execute and Sync with the query and every
    parameter in place, whatever bytes the parameters hold. *)
Theorem pktbuf_write_ExtQuery_encodes `{Realloc} b query vals :
  pb_wf b -> pb_failed b = false -> Forall is_u8 query -> Forall (Forall is_u8) vals ->
  exists b', pktbuf_write_ExtQuery b query vals = Ok b' /\ pb_wf b' /\
    (pb_failed b' = false -> pb_bytes b' = pb_bytes b ++ enc_ExtQuery query vals) /\
    (pb_write_pos b + 60 + zlen query + zlen (enc_params vals) <= pb_buf_len b -> pb_failed b' = false).
Proof.
  intros Hw Hf Hq Hv. destruct (write_ExtQuery_ok b query vals Hw Hq Hv) as (b'&E&Hw'&_&_&_&Hb&Hr).
  exists b'. split_and!; auto; [apply Hb|]. intros Hroom. apply Hr; [done|lia].
Qed.

Lemma pktbuf_write_ExtQuery_encodes_witness :
  exists b', pktbuf_write_ExtQuery (H := zero_Realloc) (mkPktBuf [0] 1 0 0 0 false false false)
               [115] [[117]; []] = Ok b' /\ pb_bytes b' = enc_ExtQuery [115] [[117]; []].
Proof.
  destruct (pktbuf_write_ExtQuery_encodes (H := zero_Realloc) (mkPktBuf [0] 1 0 0 0 false false false)
    [115] [[117]; []]) as (b' & E & _ & Hb & _).
  - unfold pb_wf, zlen, is_u8, INT_MAX; simpl. split_and!; try lia. repeat constructor; lia.
  - reflexivity.
  - repeat constructor; unfold is_u8; lia.
  - repeat constructor; unfold is_u8; lia.
  - exists b'. split; [exact E|]. rewrite Hb; [reflexivity|].
    vm_compute in E. injection E as <-. reflexivity.
Defined.

(** A queued buffer is delivered in order: whatever the socket took over
    any sequence of write events is a prefix of the packet, nothing is sent
    twice or skipped, what is left is what the armed buffer still holds, and
    where the socket and the event loop report no error a freed buffer was
    delivered completely. *)
Theorem queued_send_in_order evs b :
  sendable b -> Forall send_sound evs ->
  exists out st rest, send_events evs b = Ok (out, st) /\ pb_unsent b = out ++ rest /\
    (forall b', st = PsArmed b' -> rest = pb_unsent b') /\
    (st = PsFreed -> Forall send_works evs -> rest = []).
Proof. apply send_events_ok. Qed.

Lemma queued_send_in_order_witness :
  exists rest,
    send_events [(fun bs => IoOk (Z.min 2 (zlen bs)), true); (fun _ => IoAgain, true);
                 (fun bs => IoOk (zlen bs), true)]
      (mkPktBuf [1; 2; 3; 4] 4 3 0 0 false true false) = Ok ([1; 2; 3], PsFreed) /\ rest = [] /\
    [1; 2; 3] = [1; 2; 3] ++ rest.
Proof.
  destruct (queued_send_in_order
    [(fun bs => IoOk (Z.min 2 (zlen bs)), true); (fun _ => IoAgain, true); (fun bs => IoOk (zlen bs), true)]
    (mkPktBuf [1; 2; 3; 4] 4 3 0 0 false true false)) as (out & st & rest & E & Hu & _ & Hf).
  - unfold sendable, pb_wf, zlen, is_u8, INT_MAX; simpl. split_and!; try lia; try done. repeat constructor; lia.
  - repeat (apply Forall_cons_iff; split; [intros bs; simpl; zlia|]). apply List.Forall_nil.
  - assert (E' := E). vm_compute in E'. injection E' as <- <-. exists rest. split; [exact E|].
    assert (rest = []) as ->; [|by split].
    apply Hf; [reflexivity|].
    repeat (apply Forall_cons_iff; split; [split; [intros bs; simpl; discriminate|reflexivity]|]). apply List.Forall_nil.
Defined.
