(* ===== verification/Proto.v ===== *)
(** * Packet headers, reassembly and error packets (src/proto.c, include/proto.h)

    [get_header] and the header helpers over [MBuf], the shared callback that
    reassembles packets larger than the socket buffer, and the pooler's error
    packet with its parser.

    The theorems show that [get_header] is the header grammar [header_spec],
    that its verdict does not change when more bytes arrive, that packets the
    pooler writes are read back, that reassembly hands over the whole packet
    exactly once, and that an error packet is parsed back as it was built. *)

From stdpp Require Import base list option strings.
From S2P Require Import Prelude Protocol MBuf PktBuf.

Record PktHdr := mkPktHdr {
  pkt_type : Z;
  pkt_len : Z;
  pkt_data : MBuf
}.

(** The type of an untyped packet by its code. *)
Definition special_type (code : Z) : option Z :=
  if bool_decide (code = PKT_CANCEL) then Some PKT_CANCEL
  else if bool_decide (code = PKT_SSLREQ) then Some PKT_SSLREQ
  else if bool_decide (code = PKT_GSSENCREQ) then Some PKT_GSSENCREQ
  else if bool_decide (code >= PKT_STARTUP_V3 /\ code < PKT_STARTUP_V3_UNSUPPORTED) then
    Some PKT_STARTUP_V3
  else if bool_decide (code >= PKT_STARTUP_V3_UNSUPPORTED /\ code < PKT_STARTUP_V4) then
    Some PKT_STARTUP_V3_UNSUPPORTED
  else if bool_decide (code = PKT_STARTUP_V2) then Some PKT_STARTUP_V2
  else None.

(** The first half of [get_header]: type, length and header size, read from a
    copy of the buffer; [None] is [return false]. *)
Definition get_header_fields (hdr : MBuf) : res (option (Z * Z * Z)) :=
  if bool_decide (mbuf_avail_for_read hdr < NEW_HEADER_LEN) then Ok None
  else
    '(type8, hdr) ← mbuf_get_byte hdr;
    match type8 with
    | None => Ok None
    | Some type =>
        if negb (bool_decide (type = 0)) then
          '(len, hdr) ← mbuf_get_uint32be hdr;
          match len with
          | None => Ok None
          | Some len => Ok (Some (type, u32 (len + 1), NEW_HEADER_LEN))
          end
        else
          '(type8, hdr) ← mbuf_get_byte hdr;
          match type8 with
          | None => Ok None
          | Some type8 =>
              if negb (bool_decide (type8 = 0)) then Ok None
              else if bool_decide (mbuf_avail_for_read hdr < OLD_HEADER_LEN - 2) then Ok None
              else
                '(len16, hdr) ← mbuf_get_uint16be hdr;
                match len16 with
                | None => Ok None
                | Some len =>
                    '(code, hdr) ← mbuf_get_uint32be hdr;
                    match code with
                    | None => Ok None
                    | Some code =>
                        match special_type code with
                        | None => Ok None
                        | Some type => Ok (Some (type, len, OLD_HEADER_LEN))
                        end
                    end
                end
          end
    end.

(** The packet (on success) and the data buffer after the call. *)
Definition get_header (cf_max_packet_size : Z) (data : MBuf) : res (option PktHdr * MBuf) :=
  f ← get_header_fields (mbuf_copy data);
  match f with
  | None => Ok (None, data)
  | Some (type, len, got) =>
      if bool_decide (len < got) || bool_decide (len > cf_max_packet_size) then Ok (None, data)
      else
        let avail := if bool_decide (len > mbuf_avail_for_read data)
                     then mbuf_avail_for_read data else len in
        '(slice, data) ← mbuf_slice data avail;
        match slice with
        | None => Ok (None, data)
        | Some pdata =>
            '(ptr, pdata) ← mbuf_get_bytes pdata got;
            match ptr with
            | None => Ok (None, data)
            | Some _ => Ok (Some (mkPktHdr type len pdata), data)
            end
        end
  end.

Definition free_header (pkt : PktHdr) : PktHdr := mkPktHdr 0 0 (mbuf_free (pkt_data pkt)).

Definition incomplete_pkt (pkt : PktHdr) : bool :=
  negb (bool_decide (mbuf_written (pkt_data pkt) = pkt_len pkt)).

Definition incomplete_header (data : MBuf) : res bool :=
  let avail := mbuf_avail_for_read data in
  if bool_decide (avail >= OLD_HEADER_LEN) then Ok false
  else if bool_decide (avail < NEW_HEADER_LEN) then Ok true
  else v ← mem_get (mbuf_data data) (read_pos data); Ok (bool_decide (v = 0)).

Definition pkt_rewind_v3 (pkt : PktHdr) : PktHdr :=
  mkPktHdr (pkt_type pkt) (pkt_len pkt) (set_read_pos (pkt_data pkt) NEW_HEADER_LEN).

Definition pkt_rewind_v2 (pkt : PktHdr) : PktHdr :=
  mkPktHdr (pkt_type pkt) (pkt_len pkt) (set_read_pos (pkt_data pkt) OLD_HEADER_LEN).

(** The conversion to [char] keeps the low byte. *)
Definition pkt_desc (pkt : PktHdr) : Z :=
  if bool_decide (pkt_type pkt > 256) then 33 else u8 (pkt_type pkt).

(** ** Reassembly of large packets *)

Inductive CallbackFlag := CB_NONE | CB_WANT_COMPLETE_PACKET | CB_HANDLE_COMPLETE_PACKET.

Record CallbackState := mkCallbackState { cb_flag : CallbackFlag; cb_pkt : PktHdr }.

Section Callback.
Context `{Realloc}.

(** [World] is the rest of the process: what disconnecting the socket and
    handling the complete packet may change. *)
Context {World : Type}.
Variable pkt_cb_disconnect : World -> res World.
Variable handle_complete_packet : World -> PktHdr -> res (bool * World * PktHdr).
Variable cf_max_packet_size : Z.

(** The case CB_HANDLE_COMPLETE_PACKET. *)
Definition pkt_callback_handle (w : World) (cb : CallbackState) : res (bool * World * CallbackState) :=
  '(r, w, pkt) ← handle_complete_packet w (cb_pkt cb);
  if negb r then Ok (false, w, mkCallbackState (cb_flag cb) pkt)
  else Ok (true, w, mkCallbackState CB_NONE (free_header pkt)).

(** The case CB_WANT_COMPLETE_PACKET, which falls through to the next one
    when the packet is complete. *)
Definition pkt_callback_buffer (w : World) (cb : CallbackState) (first : bool) (pkt_remain : Z)
  (data : MBuf) : res (bool * World * CallbackState) :=
  let set (b : MBuf) := mkCallbackState (cb_flag cb)
                          (mkPktHdr (pkt_type (cb_pkt cb)) (pkt_len (cb_pkt cb)) b) in
  '(ok, buf) ← (if first then mbuf_make_room mbuf_init_dynamic (pkt_len (cb_pkt cb))
                else Ok (true, pkt_data (cb_pkt cb)));
  if negb ok then Ok (false, w, set buf)
  else
    '(ok, buf) ← mbuf_write_raw_mbuf buf data;
    if negb ok then Ok (false, w, set buf)
    else if negb (bool_decide (pkt_remain = mbuf_avail_for_read data)) then Ok (true, w, set buf)
    else pkt_callback_handle w (mkCallbackState CB_HANDLE_COMPLETE_PACKET (cb_pkt (set buf))).

(** Result, world, callback state and the data buffer. *)
Definition process_pkt_callback (w : World) (cb : CallbackState) (pkt_remain : Z) (data : MBuf)
  : res (bool * World * CallbackState * MBuf) :=
  let first := bool_decide (pkt_type (cb_pkt cb) = 0) in
  '(hdr, data) ← (if first then
                    '(p, data) ← get_header cf_max_packet_size data;
                    match p with
                    | None => Ok (None, data)
                    | Some p => Ok (Some p, mbuf_rewind_reader data)
                    end
                  else Ok (Some (cb_pkt cb), data));
  match hdr with
  | None => w ← pkt_cb_disconnect w; Ok (false, w, cb, data)
  | Some pkt =>
      let cb := mkCallbackState (cb_flag cb) pkt in
      '(r, w, cb) ← match cb_flag cb with
                    | CB_WANT_COMPLETE_PACKET => pkt_callback_buffer w cb first pkt_remain data
                    | CB_HANDLE_COMPLETE_PACKET => pkt_callback_handle w cb
                    | CB_NONE => w ← pkt_cb_disconnect w; Ok (false, w, cb)
                    end;
      Ok (r, w, cb, data)
  end.

End Callback.

(** ** Error packets *)

(** C strings of the error packet. *)
Definition str_FATAL : list Z := [70; 65; 84; 65; 76].
Definition str_ERROR : list Z := [69; 82; 82; 79; 82].
Definition str_08P01 : list Z := [48; 56; 80; 48; 49].

(** [tmpbuf] is the 512 byte stack buffer; the message is also logged. *)
Definition pooler_error_buf `{Realloc} (tmpbuf : list Z)
  (send_ready : bool) (sqlstate : option (list Z)) (level_fatal : bool) (msg : list Z) : res PktBuf :=
  let buf := pktbuf_static tmpbuf 512 in
  buf ← pktbuf_write_generic buf PqMsg_ErrorResponse "cscscsc"
          [VInt 83; VStr (if level_fatal then str_FATAL else str_ERROR);
           VInt 67; VStr (default str_08P01 sqlstate); VInt 77; VStr msg; VInt 0];
  if send_ready then pktbuf_write_ReadyForQuery buf else Ok buf.

Definition send_pooler_error `{Realloc} (op_send : list Z -> iores) (tmpbuf : list Z)
  (send_ready : bool) (sqlstate : option (list Z)) (level_fatal : bool) (msg : list Z) : res bool :=
  buf ← pooler_error_buf tmpbuf send_ready sqlstate level_fatal msg;
  pktbuf_send_immediate op_send buf.

(** The variables of [parse_server_error]. *)
Record server_error := mkServerError {
  se_level : option (list Z);
  se_msg : option (list Z);
  se_sqlstate : option (list Z)
}.

Fixpoint parse_error_fields (fuel : nat) (data : MBuf) (e : server_error) : res (server_error * MBuf) :=
  match fuel with
  | O => NoFuel
  | S fuel =>
      if bool_decide (mbuf_avail_for_read data = 0) then Ok (e, data)
      else
        '(type, data) ← mbuf_get_byte data;
        match type with
        | None => Ok (e, data)
        | Some type =>
            if bool_decide (type = 0) then Ok (e, data)
            else
              '(val, data) ← mbuf_get_string data;
              match val with
              | None => Ok (e, data)
              | Some val =>
                  let e :=
                    if bool_decide (type = 83) then mkServerError (Some val) (se_msg e) (se_sqlstate e)
                    else if bool_decide (type = 77) then mkServerError (se_level e) (Some val) (se_sqlstate e)
                    else if bool_decide (type = 67) then mkServerError (se_level e) (se_msg e) (Some val)
                    else e in
                  parse_error_fields fuel data e
              end
        end
  end.

(** Every round of the loop reads at least one byte. *)
Definition parse_server_error (pkt : PktHdr) : res (server_error * PktHdr) :=
  '(e, data) ← parse_error_fields (S (Z.to_nat (mbuf_avail_for_read (pkt_data pkt)))) (pkt_data pkt)
                 (mkServerError None None None);
  Ok (e, mkPktHdr (pkt_type pkt) (pkt_len pkt) data).

(** ** The header grammar *)

(** Type, length and header size of the packet at the start of [v]. *)
Definition header_spec (max : Z) (v : list Z) : option (Z * Z * Z) :=
  match v with
  | t :: b1 :: b2 :: b3 :: b4 :: rest =>
      let check type len got :=
        if bool_decide (got <= len <= max) then Some (type, len, got) else None in
      if bool_decide (t = 0) then
        match rest with
        | b5 :: b6 :: b7 :: _ =>
            if bool_decide (b1 = 0) then
              match special_type (be_combine [b4; b5; b6; b7]) with
              | Some type => check type (be_combine [b2; b3]) OLD_HEADER_LEN
              | None => None
              end
            else None
        | _ => None
        end
      else check t (u32 (be_combine [b1; b2; b3; b4] + 1)) NEW_HEADER_LEN
  | _ => None
  end.

Lemma get_header_fields_spec hdr :
  mbuf_wf hdr -> write_pos hdr + 8 <= UINT_MAX ->
  exists f, get_header_fields hdr = Ok f /\
    forall max, header_spec max (mbuf_view hdr) =
      match f with
      | Some (type, len, got) => if bool_decide (got <= len <= max) then f else None
      | None => None
      end.
Proof.
  intros Hw Hu. unfold get_header_fields. rewrite mbuf_avail_view by done.
  destruct (decide (zlen (mbuf_view hdr) < NEW_HEADER_LEN)) as [Hs|Hs].
  { rewrite bool_decide_eq_true_2 by done. exists None. split; [done|]. intros max.
    unfold header_spec, NEW_HEADER_LEN in *. destruct (mbuf_view hdr) as [|? [|? [|? [|? [|? ?]]]]]; try done; zlia. }
  rewrite bool_decide_eq_false_2 by done. unfold NEW_HEADER_LEN in Hs.
  destruct (mbuf_view hdr) as [|t [|b1 [|b2 [|b3 [|b4 rest]]]]] eqn:Ev; try (zlia).
  rewrite (mbuf_get_byte_view hdr t (b1 :: b2 :: b3 :: b4 :: rest)) by (done || lia).
  cbn [mbind res_bind].
  destruct (advance_view hdr 1 Hw) as [Hw1 Hv1]; [rewrite Ev; zlia|]. rewrite Ev in Hv1.
  change (zdrop 1 _) with (b1 :: b2 :: b3 :: b4 :: rest) in Hv1.
  destruct (decide (t = 0)) as [->|Ht].
  - rewrite (bool_decide_eq_true_2 (0 = 0)) by done. cbn [negb header_spec].
    rewrite (mbuf_get_byte_view _ b1 (b2 :: b3 :: b4 :: rest)) by (done || (simpl; lia)).
    cbn [mbind res_bind]. rewrite advance_advance.
    destruct (advance_view hdr 2 Hw) as [Hw2 Hv2]; [rewrite Ev; zlia|]. rewrite Ev in Hv2.
    change (zdrop 2 _) with (b2 :: b3 :: b4 :: rest) in Hv2. change (1 + 1) with 2.
    rewrite (bool_decide_eq_true_2 (0 = 0)) by done.
    rewrite mbuf_avail_view, Hv2 by done. unfold OLD_HEADER_LEN.
    destruct (decide (b1 = 0)) as [->|Hb1].
    2:{ rewrite (bool_decide_eq_false_2 (b1 = 0)) by done. cbn [negb]. exists None; split; [done|].
        intros. by destruct rest as [|? [|? [|? ?]]]. }
    rewrite (bool_decide_eq_true_2 (0 = 0)) by done. cbn [negb].
    destruct rest as [|b5 [|b6 [|b7 rest]]].
    1-3: rewrite bool_decide_eq_true_2 by zlia; exists None; split; done.
    rewrite bool_decide_eq_false_2 by zlia.
    rewrite (mbuf_get_uint16be_view _ b2 b3 (b4 :: b5 :: b6 :: b7 :: rest)) by (done || (simpl; lia)).
    cbn [mbind res_bind]. rewrite advance_advance.
    destruct (advance_view hdr 4 Hw) as [Hw4 Hv4]; [rewrite Ev; zlia|]. rewrite Ev in Hv4.
    change (zdrop 4 _) with (b4 :: b5 :: b6 :: b7 :: rest) in Hv4. change (2 + 2) with 4.
    rewrite (mbuf_get_uint32be_view _ b4 b5 b6 b7 rest) by (done || (simpl; lia)). cbn [mbind res_bind].
    destruct (special_type _); eexists; (split; [reflexivity|]); done.
  - rewrite (bool_decide_eq_false_2 (t = 0)) by done. cbn [negb header_spec].
    rewrite (mbuf_get_uint32be_view _ b1 b2 b3 b4 rest) by (done || (simpl; lia)). cbn [mbind res_bind].
    eexists; split; [reflexivity|]. rewrite (bool_decide_eq_false_2 (t = 0)) by done. done.
Qed.

(** A packet cut from the bytes [v] by a header of [got] bytes: the buffer
    holds what there is of it, the read cursor is behind the header. *)
Definition cut_packet (pkt : PktHdr) (type len got : Z) (v : list Z) : Prop :=
  pkt_type pkt = type /\ pkt_len pkt = len /\ mbuf_wf (pkt_data pkt) /\
  reader (pkt_data pkt) = true /\ read_pos (pkt_data pkt) = got /\
  write_pos (pkt_data pkt) = Z.min len (zlen v) /\
  mbuf_contents (pkt_data pkt) = ztake len v /\
  mbuf_view (pkt_data pkt) = zdrop got (ztake len v).

Lemma header_spec_bounds max v type len got :
  header_spec max v = Some (type, len, got) ->
  5 <= got <= 8 /\ got <= zlen v /\ got <= len <= max /\ type <> 0.
Proof.
  unfold header_spec, OLD_HEADER_LEN, NEW_HEADER_LEN.
  destruct v as [|t [|b1 [|b2 [|b3 [|b4 rest]]]]]; try done.
  case_bool_decide as Ht.
  - destruct rest as [|b5 [|b6 [|b7 rest]]]; try done. case_bool_decide; [|done].
    destruct (special_type _) as [ty|] eqn:Es; [|done]. case_bool_decide; [|done].
    intros [= <- <- <-]. unfold special_type in Es. split_and!; try lia; [zlia|].
    intros ->. repeat (case_bool_decide; [discriminate|]). discriminate.
  - case_bool_decide; [|done]. intros [= <- <- <-]. split_and!; try lia; zlia.
Qed.

Lemma cut_packet_ok data type len got :
  mbuf_wf data -> 0 <= got <= len -> got <= zlen (mbuf_view data) ->
  cut_packet (mkPktHdr type len (advance (mbuf_init_fixed_reader (zdrop (read_pos data) (mbuf_data data))
    (Z.min len (zlen (mbuf_view data)))) got)) type len got (mbuf_view data).
Proof.
  intros Hw Hg Hgv. pose proof (mbuf_view_len _ Hw) as Hl. pose proof Hw as (Hr&Hwr&Ha&Hd&Hb).
  set (avail := Z.min len (zlen (mbuf_view data))).
  assert (Hw0 : mbuf_wf (mbuf_init_fixed_reader (zdrop (read_pos data) (mbuf_data data)) avail)).
  { apply mbuf_init_fixed_reader_wf; [unfold avail; zlia|unfold avail; zlia|auto with pgb]. }
  assert (Hc : ztake avail (zdrop (read_pos data) (mbuf_data data)) = ztake len (mbuf_view data)).
  { unfold mbuf_view, slice. rewrite ztake_ztake. f_equal. unfold avail; lia. }
  assert (Hv0 : mbuf_view (mbuf_init_fixed_reader (zdrop (read_pos data) (mbuf_data data)) avail)
                = ztake len (mbuf_view data)).
  { by rewrite mbuf_init_fixed_reader_view. }
  destruct (advance_view _ got Hw0) as [Hw1 Hv1]; [rewrite Hv0; zlia|].
  unfold cut_packet; cbn [pkt_type pkt_len pkt_data]. rewrite Hv1, Hv0.
  unfold mbuf_contents, mbuf_data; simpl. split_and!; auto; lia.
Qed.

Lemma get_header_spec max data :
  mbuf_wf data -> write_pos data + 8 <= UINT_MAX ->
  match header_spec max (mbuf_view data) with
  | None => get_header max data = Ok (None, data)
  | Some (type, len, got) =>
      exists pkt, get_header max data = Ok (Some pkt, advance data (Z.min len (zlen (mbuf_view data)))) /\
        cut_packet pkt type len got (mbuf_view data)
  end.
Proof.
  intros Hw Hu. destruct (get_header_fields_spec data Hw Hu) as (f & Hf & Hs).
  unfold get_header, mbuf_copy. rewrite Hf. cbn [mbind res_bind].
  pose proof (Hs max) as Hmax. destruct f as [[[type len] got]|]; [|by rewrite Hmax].
  destruct (decide (got <= len <= max)) as [Hok|Hok].
  2:{ rewrite (bool_decide_eq_false_2 (got <= len <= max)) in Hmax by done. rewrite Hmax.
      replace (bool_decide (len < got) || bool_decide (len > max)) with true; [done|].
      symmetry; apply orb_true_iff. rewrite !bool_decide_eq_true. lia. }
  rewrite (bool_decide_eq_true_2 (got <= len <= max)) in Hmax by done. rewrite Hmax.
  destruct (header_spec_bounds _ _ _ _ _ Hmax) as (Hg5 & Hgv & Hlen & _).
  pose proof (mbuf_view_len _ Hw) as Hl. pose proof Hw as (Hr&Hwr&Ha&Hd&Hb).
  rewrite (bool_decide_eq_false_2 (len < got)), (bool_decide_eq_false_2 (len > max)) by lia.
  cbn [orb]. rewrite mbuf_avail_view by done.
  replace (if bool_decide (len > zlen (mbuf_view data)) then _ else _)
    with (Z.min len (zlen (mbuf_view data))) by (case_bool_decide; lia).
  unfold mbuf_slice. rewrite mbuf_avail_view by done. rewrite bool_decide_eq_false_2 by lia.
  cbn [mbind res_bind]. rewrite u32_small by lia.
  pose proof (cut_packet_ok data type len got Hw ltac:(lia) Hgv) as Hcut.
  rewrite mbuf_get_bytes_view; cbn [mbind res_bind].
  - eexists; split; [reflexivity|exact Hcut].
  - apply mbuf_init_fixed_reader_wf; auto with pgb; zlia.
  - rewrite mbuf_init_fixed_reader_view. zlia.
Qed.

(** More input does not change the verdict on a complete header. *)
Lemma header_spec_stable max v more :
  8 <= zlen v \/ (5 <= zlen v /\ forall t r, v = t :: r -> t <> 0) ->
  header_spec max (v ++ more) = header_spec max v.
Proof.
  intros Hv. destruct v as [|t [|b1 [|b2 [|b3 [|b4 rest]]]]]; try (zlia).
  cbn [app header_spec]. destruct (decide (t = 0)) as [->|Ht].
  - destruct Hv as [Hv|[_ Hv]]; [|by destruct (Hv 0 (b1 :: b2 :: b3 :: b4 :: rest))].
    destruct rest as [|b5 [|b6 [|b7 rest]]]; try (zlia). done.
  - by rewrite (bool_decide_eq_false_2 (t = 0)).
Qed.

Lemma incomplete_header_spec data :
  mbuf_wf data ->
  exists b, incomplete_header data = Ok b /\
    (b = false -> 8 <= zlen (mbuf_view data) \/
       (5 <= zlen (mbuf_view data) /\ forall t r, mbuf_view data = t :: r -> t <> 0)) /\
    (b = true -> forall max, header_spec max (mbuf_view data) = None).
Proof.
  intros Hw. unfold incomplete_header. rewrite mbuf_avail_view by done.
  unfold OLD_HEADER_LEN, NEW_HEADER_LEN.
  destruct (mbuf_view data) as [|t v'] eqn:Ev.
  { exists true. split; [done|]. split; done. }
  destruct (decide (zlen (t :: v') >= 8)).
  { rewrite bool_decide_eq_true_2 by done. exists false. split; [done|]. split; [intros; lia|done]. }
  rewrite bool_decide_eq_false_2 by done.
  destruct (decide (zlen (t :: v') < 5)) as [Hs|Hs].
  { rewrite bool_decide_eq_true_2 by done. exists true. split; [done|]. split; [done|]. intros _ max.
    destruct v' as [|? [|? [|? [|? ?]]]]; try done. zlia. }
  rewrite bool_decide_eq_false_2 by done.
  pose proof (mbuf_view_len _ Hw) as Hl. rewrite Ev in Hl. pose proof Hw as (Hr&Hwr&Ha&Hd&Hb).
  destruct (mem_get_ok (mbuf_data data) (read_pos data)) as (w & Hg & Hw0); [zlia|].
  rewrite Hg. cbn. unfold mbuf_view in Ev.
  rewrite (slice_split _ (read_pos data + 1)), Hw0 in Ev by zlia. injection Ev as -> Ev. clear Ev.
  eexists; split; [reflexivity|]. split.
  - intros Hf. bprop. right. split; [lia|]. intros t' r [= -> ->]. done.
  - intros Hf max. bprop. subst. unfold header_spec.
    destruct v' as [|? [|? [|? [|? [|? [|? [|? ?]]]]]]]; try done. zlia.
Qed.

(** ** Reading back what the packet writers produce *)

Lemma header_spec_typed max type body rest :
  0 < type < 256 -> 5 + zlen body <= max -> max <= UINT_MAX ->
  header_spec max (enc_packet type body ++ rest) = Some (type, 5 + zlen body, NEW_HEADER_LEN).
Proof.
  intros Ht Hl Hmax. unfold enc_packet. rewrite bool_decide_eq_true_2 by lia.
  pose proof (zlen_nonneg body). rewrite u32_small by lia.
  pose proof (be32_combine (4 + zlen body) ltac:(lia)) as Hc. unfold be32 in *.
  cbn [app header_spec]. rewrite Hc. unfold u8. rewrite Z.mod_small by lia.
  rewrite bool_decide_eq_false_2 by lia. rewrite u32_small by lia.
  rewrite bool_decide_eq_true_2 by (unfold NEW_HEADER_LEN; lia). do 3 f_equal. lia.
Qed.

Lemma header_spec_special max code type body rest :
  256 <= code <= UINT_MAX -> special_type code = Some type -> 8 + zlen body <= max -> 8 + zlen body < 65536 ->
  header_spec max (enc_packet code body ++ rest) = Some (type, 8 + zlen body, OLD_HEADER_LEN).
Proof.
  intros Hc Hs Hl Hl16. unfold enc_packet. rewrite bool_decide_eq_false_2 by lia.
  pose proof (zlen_nonneg body). set (n := 8 + zlen body) in *.
  rewrite !u32_small by (unfold UINT_MAX in *; lia).
  pose proof (be32_combine code ltac:(lia)) as Hcode.
  assert (Hn : be_combine [Z.land (Z.shiftr n 8) 255; Z.land n 255] = n /\
    Z.land (Z.shiftr n 24) 255 = 0 /\ Z.land (Z.shiftr n 16) 255 = 0).
  { unfold be_combine; cbn [fold_left]. change 255 with (Z.ones 8).
    rewrite !Z.land_ones, !Z.shiftr_div_pow2 by lia.
    change (2 ^ 8) with 256. change (2 ^ 16) with 65536. change (2 ^ 24) with 16777216.
    split_and!; Z.div_mod_to_equations; lia. }
  destruct Hn as (Hn & Hn1 & Hn2).
  unfold be32 in *. cbn [app header_spec]. rewrite Hcode, Hs, Hn, Hn1, Hn2.
  rewrite !(bool_decide_eq_true_2 (0 = 0)) by done.
  rewrite bool_decide_eq_true_2; [done|]. unfold OLD_HEADER_LEN; lia.
Qed.

Lemma enc_packet_bytes type body : Forall is_u8 body -> Forall is_u8 (enc_packet type body).
Proof. intros. unfold enc_packet. case_bool_decide; rewrite !Forall_app; auto with pgb. Qed.

(** A complete packet at the start of a buffer. *)
Lemma get_header_typed max data type body rest :
  mbuf_wf data -> write_pos data + 8 <= UINT_MAX -> max <= UINT_MAX ->
  0 < type < 256 -> 5 + zlen body <= max -> mbuf_view data = enc_packet type body ++ rest ->
  exists pkt data', get_header max data = Ok (Some pkt, data') /\
    pkt_type pkt = type /\ pkt_len pkt = 5 + zlen body /\ incomplete_pkt pkt = false /\
    mbuf_wf (pkt_data pkt) /\ read_pos (pkt_data pkt) = NEW_HEADER_LEN /\
    mbuf_view (pkt_data pkt) = body /\ write_pos (pkt_data pkt) = 5 + zlen body /\
    mbuf_wf data' /\ mbuf_view data' = rest.
Proof.
  intros Hw Hu Hmax Ht Hl Hv. pose proof (get_header_spec max data Hw Hu) as Hs.
  rewrite Hv, header_spec_typed in Hs by done. destruct Hs as (pkt & E & H1 & H2 & H3 & _ & H4 & H5 & _ & H6).
  assert (Hlen : zlen (enc_packet type body) = 5 + zlen body).
  { rewrite zlen_enc_packet. unfold header_len. rewrite bool_decide_eq_true_2; [done|lia]. }
  pose proof (zlen_nonneg body). pose proof (zlen_nonneg rest).
  rewrite zlen_app, Hlen, Z.min_l in E, H5 by lia.
  destruct (advance_view data (5 + zlen body) Hw) as [Hw' Hv']; [rewrite Hv; zlia|].
  exists pkt; eexists; split; [exact E|]. split_and!; auto.
  - unfold incomplete_pkt, mbuf_written. rewrite H2, H5. by rewrite bool_decide_eq_true_2.
  - rewrite H6, ztake_app_le, ztake_all by lia. unfold NEW_HEADER_LEN, enc_packet.
    rewrite bool_decide_eq_true_2, !zdrop_app_ge, zdrop_0 by zlia. done.
  - rewrite Hv', Hv, zdrop_app_ge by lia. apply zdrop_0. lia.
Qed.

(** ** Reassembly *)

Section Reassembly.
Context `{Realloc} {World : Type}.
Variable pkt_cb_disconnect : World -> res World.
Variable handle : World -> PktHdr -> res (bool * World * PktHdr).
Variable max : Z.

(** The socket buffer handing over the packet in pieces: [remain] counts what
    is left of it, as [sbuf->pkt_remain] does; a [false] stops the delivery. *)
Fixpoint feed (w : World) (cb : CallbackState) (remain : Z) (chunks : list (list Z))
  : res (bool * World * CallbackState) :=
  match chunks with
  | [] => Ok (true, w, cb)
  | c :: cs =>
      '(r, w, cb, _) ← process_pkt_callback pkt_cb_disconnect handle max w cb remain
                         (mbuf_init_fixed_reader c (zlen c));
      if negb r then Ok (false, w, cb) else feed w cb (remain - zlen c) cs
  end.

(** The callback state while [pre] of the packet has arrived. *)
Definition buffered (cb : CallbackState) (type len : Z) (pre : list Z) : Prop :=
  exists b, cb = mkCallbackState CB_WANT_COMPLETE_PACKET (mkPktHdr type len b) /\ type <> 0 /\
    mbuf_wf b /\ reader b = false /\ read_pos b = 0 /\ write_pos b = zlen pre /\
    mbuf_view b = pre /\ len <= alloc_len b.

(** The complete packet as the handler gets it. *)
Definition complete_packet (pkt : PktHdr) (type len : Z) (bytes : list Z) : Prop :=
  pkt_type pkt = type /\ pkt_len pkt = len /\ mbuf_wf (pkt_data pkt) /\ incomplete_pkt pkt = false /\
  read_pos (pkt_data pkt) = 0 /\ mbuf_view (pkt_data pkt) = bytes.

Lemma chunk_raw c : mem_load (mbuf_data (mbuf_init_fixed_reader c (zlen c))) 0 (zlen c) = Ok c.
Proof. unfold mbuf_data; simpl. rewrite mem_load_ok by zlia. by rewrite slice_0, ztake_all by lia. Qed.

Lemma chunk_avail c : zlen c <= UINT_MAX -> mbuf_avail_for_read (mbuf_init_fixed_reader c (zlen c)) = zlen c.
Proof. intros. unfold mbuf_avail_for_read; simpl. rewrite Z.sub_0_r. apply u32_small. zlia. Qed.

(** Adding a chunk to a buffer with the space reserved. *)
Lemma buffer_chunk w cb (first : bool) c pre type len b :
  cb = mkCallbackState CB_WANT_COMPLETE_PACKET (mkPktHdr type len (if first then pkt_data (cb_pkt cb) else b)) ->
  (if first then mbuf_make_room mbuf_init_dynamic len = Ok (true, b) else True) ->
  type <> 0 -> mbuf_wf b -> reader b = false -> read_pos b = 0 -> write_pos b = zlen pre ->
  mbuf_view b = pre -> len <= alloc_len b ->
  Forall is_u8 c -> zlen pre + zlen c <= len ->
  (zlen pre + zlen c = len ->
     exists pkt, complete_packet pkt type len (pre ++ c) /\
       pkt_callback_buffer handle w cb first (len - zlen pre) (mbuf_init_fixed_reader c (zlen c))
       = pkt_callback_handle handle w (mkCallbackState CB_HANDLE_COMPLETE_PACKET pkt)) /\
  (zlen pre + zlen c < len ->
     exists cb', buffered cb' type len (pre ++ c) /\
       pkt_callback_buffer handle w cb first (len - zlen pre) (mbuf_init_fixed_reader c (zlen c))
       = Ok (true, w, cb')).
Proof.
  intros Hcb Hfirst Ht Hw Hrd Hr Hwp Hv Hal Hc Hle. pose proof Hw as (_&Hau&_).
  unfold pkt_callback_buffer.
  assert (Hb0 : (if first then mbuf_make_room mbuf_init_dynamic (pkt_len (cb_pkt cb))
                 else Ok (true, pkt_data (cb_pkt cb))) = Ok (true, b)).
  { rewrite Hcb. simpl. by destruct first. }
  rewrite Hb0. cbn [mbind res_bind negb]. unfold mbuf_write_raw_mbuf.
  change (write_pos (mbuf_init_fixed_reader c (zlen c))) with (zlen c).
  rewrite chunk_raw. cbn [mbind res_bind].
  destruct (mbuf_write_fits b c) as (b'&E&Hw'&Ha'&Hwp'&Hr'&Hrd'&_&Hv'); [done|done|lia|].
  rewrite E. cbn [mbind res_bind negb]. rewrite chunk_avail by (pose proof (zlen_nonneg pre); lia).
  rewrite Hcb. cbn [cb_flag cb_pkt pkt_type pkt_len]. split; intros Hlen.
  - rewrite bool_decide_eq_true_2 by lia. cbn [negb]. eexists; split; [|reflexivity].
    unfold complete_packet, incomplete_pkt, mbuf_written; cbn [pkt_type pkt_len pkt_data].
    rewrite bool_decide_eq_true_2 by lia. split_and!; auto; congruence.
  - rewrite bool_decide_eq_false_2 by lia. cbn [negb]. eexists; split; [|reflexivity].
    exists b'. split_and!; auto; try congruence; zlia.
Qed.

Lemma process_later w cb remain type len pre c :
  buffered cb type len pre ->
  process_pkt_callback pkt_cb_disconnect handle max w cb remain (mbuf_init_fixed_reader c (zlen c))
  = ('(r, w, cb) ← pkt_callback_buffer handle w cb false remain (mbuf_init_fixed_reader c (zlen c));
     Ok (r, w, cb, mbuf_init_fixed_reader c (zlen c))).
Proof.
  intros (b & -> & Ht & _). unfold process_pkt_callback; cbn [cb_pkt pkt_type].
  by rewrite bool_decide_eq_false_2.
Qed.

(** What the handler's result leaves behind. *)
Definition handled (r : res (bool * World * PktHdr)) : res (bool * World * CallbackState) :=
  '(r, w, pkt) ← r;
  if negb r then Ok (false, w, mkCallbackState CB_HANDLE_COMPLETE_PACKET pkt)
  else Ok (true, w, mkCallbackState CB_NONE (free_header pkt)).

Lemma feed_rest w cs type len : forall cb pre,
  buffered cb type len pre -> Forall (Forall is_u8) cs -> Forall (fun c => c <> []) cs -> cs <> [] ->
  zlen pre + zlen (concat cs) = len ->
  exists pkt, complete_packet pkt type len (pre ++ concat cs) /\
    feed w cb (len - zlen pre) cs = handled (handle w pkt).
Proof.
  induction cs as [|c cs IH]; intros cb pre Hb Hu8 Hne Hn Hlen; [done|].
  apply Forall_cons_iff in Hu8 as [Hc Hu8]. apply Forall_cons_iff in Hne as [Hcn Hne].
  cbn [feed concat]. rewrite (process_later w cb _ type len pre c Hb). cbn [concat] in Hlen.
  destruct Hb as (b & Hcb & Ht & Hw & Hrd & Hr & Hwp & Hv & Hal).
  destruct (buffer_chunk w cb false c pre type len b) as [Hfull Hpart]; try done; [zlia|].
  destruct cs as [|c' cs].
  - destruct Hfull as (pkt & Hpkt & E); [cbn [concat] in Hlen; zlia|].
    rewrite E. unfold pkt_callback_handle. exists pkt. cbn [concat]. rewrite app_nil_r. split; [done|].
    unfold handled; cbn [cb_pkt cb_flag].
    destruct (handle w pkt) as [[[r w'] pkt']| | |]; cbn; try done. by destruct r.
  - apply Forall_cons_iff in Hne as [Hcn' Hne].
    assert (0 < zlen (concat (c' :: cs))) by (destruct c'; [done|]; cbn [concat]; zlia).
    destruct Hpart as (cb' & Hb' & E); [zlia|]. rewrite E. cbn [mbind res_bind negb].
    destruct (IH cb' (pre ++ c)) as (pkt & Hpkt & Ef); try done; [by constructor|zlia|].
    exists pkt. rewrite <- app_assoc in Hpkt. split; [done|]. rewrite <- Ef. f_equal. zlia.
Qed.

End Reassembly.

(** ** Error fields *)

(** Fields of an ErrorResponse: code byte and C string each, then a zero. *)
Fixpoint enc_fields (fs : list (Z * list Z)) : list Z :=
  match fs with
  | [] => [0]
  | (t, v) :: fs => t :: v ++ 0 :: enc_fields fs
  end.

Definition field_ok (f : Z * list Z) : Prop := f.1 <> 0 /\ Forall (fun c => c <> 0) f.2.

Definition set_field (e : server_error) (f : Z * list Z) : server_error :=
  if bool_decide (f.1 = 83) then mkServerError (Some f.2) (se_msg e) (se_sqlstate e)
  else if bool_decide (f.1 = 77) then mkServerError (se_level e) (Some f.2) (se_sqlstate e)
  else if bool_decide (f.1 = 67) then mkServerError (se_level e) (se_msg e) (Some f.2)
  else e.

Lemma parse_error_fields_ok fs : forall fuel data e rest,
  mbuf_wf data -> write_pos data + 1 <= UINT_MAX -> Forall field_ok fs ->
  mbuf_view data = enc_fields fs ++ rest -> (length fs < fuel)%nat ->
  exists data', parse_error_fields fuel data e = Ok (fold_left set_field fs e, data').
Proof.
  induction fs as [|[t v] fs IH]; intros fuel data e rest Hw Hu Hf Hv Hfuel;
    (destruct fuel as [|fuel]; [lia|]); cbn [parse_error_fields enc_fields app] in *;
    rewrite mbuf_avail_view, Hv by done; rewrite bool_decide_eq_false_2 by zlia.
  - rewrite (mbuf_get_byte_view data 0 rest) by done. cbn [mbind res_bind].
    rewrite bool_decide_eq_true_2 by done. by eexists.
  - apply Forall_cons_iff in Hf as [[Ht Hs] Hf]. simpl in Ht, Hs.
    rewrite (mbuf_get_byte_view data t ((v ++ 0 :: enc_fields fs) ++ rest)) by done. cbn [mbind res_bind].
    rewrite bool_decide_eq_false_2 by done.
    destruct (advance_view data 1 Hw) as [Hw1 Hv1]; [rewrite Hv; zlia|]. rewrite Hv in Hv1.
    change (zdrop 1 _) with ((v ++ 0 :: enc_fields fs) ++ rest) in Hv1. rewrite <- app_assoc in Hv1.
    rewrite (mbuf_get_string_view _ v (enc_fields fs ++ rest)) by done. cbn [mbind res_bind].
    destruct (advance_view _ (zlen v + 1) Hw1) as [Hw2 Hv2]; [rewrite Hv1; zlia|].
    rewrite Hv1, zdrop_app_ge in Hv2 by lia. replace (zlen v + 1 - zlen v) with 1 in Hv2 by lia.
    change (zdrop 1 _) with (enc_fields fs ++ rest) in Hv2.
    destruct (IH fuel _ (set_field e (t, v)) rest Hw2) as [d' E]; [done|done|done|simpl in Hfuel; lia|].
    by exists d'.
Qed.

Lemma zlen_enc_fields fs : Z.of_nat (length fs) < zlen (enc_fields fs).
Proof. induction fs as [|[t v] fs IH]; simpl; [done|]. zlia. Qed.

Lemma parse_server_error_ok pkt fs rest :
  mbuf_wf (pkt_data pkt) -> write_pos (pkt_data pkt) + 1 <= UINT_MAX -> Forall field_ok fs ->
  mbuf_view (pkt_data pkt) = enc_fields fs ++ rest ->
  exists pkt', parse_server_error pkt = Ok (fold_left set_field fs (mkServerError None None None), pkt').
Proof.
  intros Hw Hu Hf Hv. unfold parse_server_error.
  destruct (parse_error_fields_ok fs (S (Z.to_nat (mbuf_avail_for_read (pkt_data pkt)))) (pkt_data pkt)
    (mkServerError None None None) rest) as [d E]; auto.
  - rewrite mbuf_avail_view, Hv by done. pose proof (zlen_enc_fields fs). zlia.
  - rewrite E. cbn. by eexists.
Qed.

(** The fields of the pooler's error packet. *)
Definition pooler_fields (level_fatal : bool) (sqlstate : option (list Z)) (msg : list Z) :=
  [(83, if level_fatal then str_FATAL else str_ERROR); (67, default str_08P01 sqlstate); (77, msg)].

(** The bytes [send_pooler_error] sends. *)
Definition pooler_error_packet (level_fatal : bool) (sqlstate : option (list Z)) (msg : list Z) : list Z :=
  enc_packet PqMsg_ErrorResponse (enc_fields (pooler_fields level_fatal sqlstate msg)).

Definition ready_packet (send_ready : bool) : list Z :=
  if send_ready then enc_packet PqMsg_ReadyForQuery [73] else [].

Lemma pktbuf_send_immediate_ok op_send b bytes :
  pb_wf b -> pb_failed b = false -> pb_send_pos b = 0 -> pb_bytes b = bytes ->
  pktbuf_send_immediate op_send b
  = Ok (match op_send bytes with IoOk r => bool_decide (r = zlen bytes) | _ => false end).
Proof.
  intros (H1&H2&H3&H4&H5&H6) Hf Hs Hb. unfold pktbuf_send_immediate. rewrite Hf, Hs, Z.sub_0_r.
  rewrite mem_load_ok by lia. cbn [mbind res_bind]. rewrite slice_0.
  unfold pb_bytes in Hb. change (0 + pb_write_pos b) with (pb_write_pos b). rewrite Hb.
  assert (zlen bytes = pb_write_pos b) as -> by (rewrite <- Hb; zlia). done.
Qed.

(** ** Properties *)

(** C33: [get_header] implements the header grammar on the unread bytes: it
    accepts exactly what [header_spec] accepts, with its type, length and
    header size; the packet then holds exactly the bytes that are there of it
    and the data buffer is advanced by them; a refusal leaves the data buffer
    alone.  No byte outside the buffers is read. *)
Theorem get_header_implements_grammar max data :
  mbuf_wf data -> write_pos data + 8 <= UINT_MAX ->
  match header_spec max (mbuf_view data) with
  | None => get_header max data = Ok (None, data)
  | Some (type, len, got) =>
      exists pkt, get_header max data = Ok (Some pkt, advance data (Z.min len (zlen (mbuf_view data)))) /\
        cut_packet pkt type len got (mbuf_view data) /\ got <= len <= max /\ type <> 0
  end.
Proof.
  intros Hw Hu. pose proof (get_header_spec max data Hw Hu) as Hs.
  destruct (header_spec max (mbuf_view data)) as [[[type len] got]|] eqn:E; [|done].
  destruct Hs as (pkt & E1 & Hc). destruct (header_spec_bounds _ _ _ _ _ E) as (_ & _ & Hb & Ht).
  by exists pkt.
Qed.

Lemma get_header_implements_grammar_witness :
  exists pkt, get_header 4096 (mbuf_init_fixed_reader [81; 0; 0; 0; 6; 65] 6)
    = Ok (Some pkt, advance (mbuf_init_fixed_reader [81; 0; 0; 0; 6; 65] 6) 6) /\ pkt_len pkt = 7.
Proof.
  pose proof (get_header_implements_grammar 4096 (mbuf_init_fixed_reader [81; 0; 0; 0; 6; 65] 6)) as T.
  destruct T as (pkt & E & (_ & Hl & _) & _).
  - apply mbuf_init_fixed_reader_wf; [unfold zlen; simpl; lia|unfold UINT_MAX; lia|].
    repeat constructor; unfold is_u8; lia.
  - unfold UINT_MAX; simpl; lia.
  - exists pkt. split; [exact E|exact Hl].
Defined.

(** The pooler waits for more input only while the header can not be
    judged: once [incomplete_header] is false, whatever bytes follow do not
    change whether the packet is accepted, its type or its length; while it
    is true no header is accepted. *)
Theorem header_verdict_stable max data :
  mbuf_wf data ->
  exists b, incomplete_header data = Ok b /\
    (b = false -> forall more, header_spec max (mbuf_view data ++ more) = header_spec max (mbuf_view data)) /\
    (b = true -> header_spec max (mbuf_view data) = None).
Proof.
  intros Hw. destruct (incomplete_header_spec data Hw) as (b & E & Hf & Ht).
  exists b. split_and!; auto. intros Hb more. apply header_spec_stable. auto.
Qed.

Lemma header_verdict_stable_witness :
  exists b, incomplete_header (mbuf_init_fixed_reader [0; 0; 0; 8; 4; 210] 6) = Ok b /\ b = true.
Proof.
  destruct (header_verdict_stable 4096 (mbuf_init_fixed_reader [0; 0; 0; 8; 4; 210] 6)) as (b & E & _).
  - apply mbuf_init_fixed_reader_wf; [unfold zlen; simpl; lia|unfold UINT_MAX; lia|].
    repeat constructor; unfold is_u8; lia.
  - exists b. split; [exact E|]. vm_compute in E. injection E as <-. reflexivity.
Defined.

(** What the packet writer puts on the wire, [get_header] reads back: a
    typed packet built by [pktbuf_write_generic], followed by anything, is
    recognised with its type and length as a complete packet whose body is
    the encoded arguments, and the bytes after it are left in the buffer. *)
Theorem written_packet_read_back `{Realloc} b type desc ap body b' max data rest :
  pb_wf b -> pb_failed b = false -> pb_write_pos b = 0 -> Forall va_ok ap -> 0 < type < 256 ->
  enc_args (String.list_ascii_of_string desc) ap = Some body -> 5 + zlen body <= max <= UINT_MAX ->
  pktbuf_write_generic b type desc ap = Ok b' -> pb_failed b' = false ->
  mbuf_wf data -> write_pos data + 8 <= UINT_MAX -> mbuf_view data = pb_bytes b' ++ rest ->
  exists pkt data', get_header max data = Ok (Some pkt, data') /\
    pkt_type pkt = type /\ pkt_len pkt = 5 + zlen body /\ incomplete_pkt pkt = false /\
    mbuf_view (pkt_data pkt) = body /\ mbuf_view data' = rest.
Proof.
  intros Hw Hf Hp Hap Ht Henc Hmax Hwr Hf' Hd Hu Hv.
  destruct (write_generic_ok b type desc ap body Hw Hap Henc) as (b2&E&_&_&_&_&Hb&_).
  rewrite Hwr in E. injection E as <-. destruct (Hb Hf') as [_ Hb'].
  assert (pb_bytes b = []) as Hnil by (unfold pb_bytes; rewrite Hp; by apply ztake_nonpos).
  rewrite Hb', Hnil in Hv. cbn [app] in Hv.
  destruct (get_header_typed max data type body rest) as (pkt&d'&?&?&?&?&?&?&?&?&?&?); try done; try lia.
  exists pkt, d'. split_and!; done.
Qed.

Lemma written_packet_read_back_witness :
  exists pkt data', get_header 4096 (mbuf_init_fixed_reader [81; 0; 0; 0; 6; 65; 0; 9] 8) = Ok (Some pkt, data')
    /\ mbuf_view (pkt_data pkt) = [65; 0] /\ mbuf_view data' = [9].
Proof.
  destruct (written_packet_read_back (H := zero_Realloc) (pktbuf_static (replicate 16 0) 16) 81 "s" [VStr [65]]
    [65; 0] (mkPktBuf ([81; 0; 0; 0; 6; 65; 0] ++ replicate 9 0) 16 7 0 0 false false true)
    4096 (mbuf_init_fixed_reader [81; 0; 0; 0; 6; 65; 0; 9] 8) [9]) as (pkt & d & E & _ & _ & _ & Hb & Hr).
  all: try reflexivity.
  - unfold pb_wf, INT_MAX, zlen; simpl. split_and!; try lia; try done. repeat constructor; unfold is_u8; lia.
  - repeat constructor; unfold is_u8; lia.
  - lia.
  - unfold zlen, UINT_MAX; simpl; lia.
  - apply mbuf_init_fixed_reader_wf; [unfold zlen; simpl; lia|unfold UINT_MAX; lia|].
    repeat constructor; unfold is_u8; lia.
  - unfold UINT_MAX; simpl; lia.
  - by exists pkt, d.
Defined.

(** C34: a packet that arrives in any number of pieces is handed to the
    handler exactly once, when its last byte is there, as one contiguous
    packet with the bytes in order; until then the world is untouched.  If
    the handler refuses, the complete packet is kept for the next call,
    otherwise the callback state is reset.  The only allocation that has to
    succeed is the one that reserves the packet's length. *)
Theorem pkt_callback_reassembles `{Realloc} {World} (disc : World -> res World)
  (handle : World -> PktHdr -> res (bool * World * PktHdr)) max w b0 b c cs type len got :
  header_spec max c = Some (type, len, got) -> len <= UINT_MAX - 8 ->
  Forall (Forall is_u8) (c :: cs) -> Forall (fun c => c <> []) (c :: cs) -> zlen (concat (c :: cs)) = len ->
  mbuf_make_room mbuf_init_dynamic len = Ok (true, b) ->
  exists pkt, complete_packet pkt type len (concat (c :: cs)) /\
    feed disc handle max w (mkCallbackState CB_WANT_COMPLETE_PACKET (mkPktHdr 0 0 b0)) len (c :: cs)
    = handled (handle w pkt).
Proof.
  intros Hs Hmax Hu8 Hne Hlen Hroom. apply Forall_cons_iff in Hu8 as [Hc Hu8].
  apply Forall_cons_iff in Hne as [Hcn Hne]. cbn [concat] in Hlen.
  destruct (header_spec_bounds _ _ _ _ _ Hs) as (Hg & Hgc & Hgl & Ht).
  pose proof (zlen_nonneg (concat cs)). rewrite zlen_app in Hlen.
  destruct (mbuf_make_room_ok mbuf_init_dynamic len mbuf_init_dynamic_wf ltac:(lia))
    as (ok & b1 & E1 & Hw1 & Hsame & Hok & _).
  rewrite Hroom in E1. injection E1 as <- <-. destruct (Hok eq_refl) as (Hal & _).
  pose proof Hsame as (Hrp & Hwp & Hrd & _). pose proof (same_contents_view _ _ mbuf_init_dynamic_wf Hsame) as Hv0.
  set (data := mbuf_init_fixed_reader c (zlen c)).
  assert (Hwd : mbuf_wf data) by (apply mbuf_init_fixed_reader_wf; auto; zlia).
  assert (Hvd : mbuf_view data = c) by (unfold data; rewrite mbuf_init_fixed_reader_view; apply ztake_all; lia).
  pose proof (get_header_spec max data Hwd ltac:(simpl; lia)) as Hgh. rewrite Hvd, Hs in Hgh.
  destruct Hgh as (p & Egh & Hpt & Hpl & _).
  cbn [feed]. unfold process_pkt_callback; cbn [cb_pkt cb_flag pkt_type].
  rewrite (bool_decide_eq_true_2 (0 = 0)) by done. fold data. rewrite Egh. cbn [mbind res_bind].
  change (mbuf_rewind_reader (advance data (Z.min len (zlen c)))) with data.
  set (cb0 := mkCallbackState CB_WANT_COMPLETE_PACKET p).
  assert (Hcb0 : cb0 = mkCallbackState CB_WANT_COMPLETE_PACKET
    (mkPktHdr type len (if true then pkt_data (cb_pkt cb0) else b))).
  { unfold cb0. clear - Hpt Hpl. destruct p; simpl in Hpt, Hpl; subst. reflexivity. }
  destruct (buffer_chunk handle w cb0 true c [] type len b Hcb0 Hroom) as [Hfull Hpart]; [done|done|done|done|done|done|simpl in *; lia|done|zlia|].
  rewrite zlen_nil, Z.sub_0_r in Hfull, Hpart. fold data in Hfull, Hpart. destruct cs as [|c' cs].
  - destruct Hfull as (pkt & Hpkt & E); [cbn [concat] in Hlen; zlia|]. rewrite E.
    exists pkt. cbn [concat]. rewrite app_nil_r. split; [done|]. unfold pkt_callback_handle, handled.
    cbn [cb_pkt cb_flag]. destruct (handle w pkt) as [[[r w'] pkt']| | |]; cbn; try done. by destruct r.
  - pose proof Hne as [Hcn' _]%Forall_cons_iff.
    assert (0 < zlen (concat (c' :: cs))) by (destruct c'; [done|]; cbn [concat]; zlia).
    destruct Hpart as (cb' & Hb' & E); [zlia|]. rewrite E. cbn [mbind res_bind negb].
    destruct (feed_rest disc handle max w (c' :: cs) type len cb' c) as (pkt & Hpkt & Ef); try done.
    exists pkt. split; [done|]. by rewrite Ef.
Qed.

Lemma pkt_callback_reassembles_witness :
  exists pkt, complete_packet pkt 80 8 [80; 0; 0; 0; 7; 65; 0; 0] /\
    feed (H := zero_Realloc) (fun w => Ok w) (fun w p => Ok (true, S w, p)) 4096 0%nat
      (mkCallbackState CB_WANT_COMPLETE_PACKET (mkPktHdr 0 0 mbuf_init_dynamic)) 8
      [[80; 0; 0; 0; 7; 65]; [0]; [0]]
    = handled (Ok (true, 1%nat, pkt)).
Proof.
  destruct (pkt_callback_reassembles (H := zero_Realloc) (fun w => Ok w) (fun w p => Ok (true, S w, p))
    4096 0%nat mbuf_init_dynamic (mkMBuf (Some (replicate 128 0)) 0 0 128 false false)
    [80; 0; 0; 0; 7; 65] [[0]; [0]] 80 8 5) as (pkt & Hp & E).
  - reflexivity.
  - unfold UINT_MAX; lia.
  - repeat constructor; unfold is_u8; lia.
  - repeat (apply Forall_cons_iff; split; [discriminate|]). apply List.Forall_nil.
  - reflexivity.
  - reflexivity.
  - exists pkt. split; [exact Hp|exact E].
Defined.

(** The error packet, and ReadyForQuery if asked for, in the 512 byte buffer. *)
Lemma pooler_error_built `{Realloc} tmpbuf (send_ready : bool) sqlstate (level_fatal : bool) msg :
  Forall is_u8 tmpbuf -> zlen tmpbuf = 512 -> Forall is_u8 msg ->
  zlen (default str_08P01 sqlstate) = 5 -> Forall is_u8 (default str_08P01 sqlstate) -> zlen msg <= 484 ->
  exists b, (b ← pktbuf_write_generic (pktbuf_static tmpbuf 512) PqMsg_ErrorResponse "cscscsc"
               [VInt 83; VStr (if level_fatal then str_FATAL else str_ERROR);
                VInt 67; VStr (default str_08P01 sqlstate); VInt 77; VStr msg; VInt 0];
             if send_ready then pktbuf_write_ReadyForQuery b else Ok b) = Ok b /\
    pb_wf b /\ pb_send_pos b = 0 /\ pb_failed b = false /\
    pb_bytes b = pooler_error_packet level_fatal sqlstate msg ++ ready_packet send_ready.
Proof.
  intros Ht Htl Hm Hsl Hs Hml.
  assert (Hlev : Forall is_u8 (if level_fatal then str_FATAL else str_ERROR) /\
                 zlen (if level_fatal then str_FATAL else str_ERROR) = 5).
  { destruct level_fatal; (split; [|done]); repeat constructor; unfold is_u8; lia. }
  destruct Hlev as [Hlev Hlevl]. set (lev := if level_fatal then _ else _) in *.
  apply (static_write tmpbuf 512 _ 512 (fun b => b ← pktbuf_write_generic b PqMsg_ErrorResponse "cscscsc"
    [VInt 83; VStr lev; VInt 67; VStr (default str_08P01 sqlstate); VInt 77; VStr msg; VInt 0];
    if send_ready then pktbuf_write_ReadyForQuery b else Ok b)); [done|done|unfold INT_MAX; lia|lia|].
  intros b Hb. eapply writes_room; [apply (writes_bind _ _ (22 + zlen msg) _ _ 6); [done| |]|].
  - apply (write_generic_as _ _ _ _ _ (22 + zlen msg)); [done|va_solve| |].
    + unfold pooler_fields; fold lev. cbn -[app lev str_08P01 default].
      rewrite !app_nil_r. cbn [app]. rewrite <- !app_assoc. reflexivity.
    + change (header_len PqMsg_ErrorResponse) with 5.
      cbn [room_args String.list_ascii_of_string pktdesc_key_of]. lia.
  - intros b1 Hb1. destruct send_ready.
    + by apply (write_generic_as _ _ _ _ _ 6); [done|va_solve| |].
    + eapply writes_room; [by apply writes_ret|lia].
  - unfold pooler_error_packet. rewrite zlen_enc_packet. change (header_len PqMsg_ErrorResponse) with 5.
    unfold pooler_fields; fold lev. cbn [enc_fields]. zlia.
Qed.

(** The error packet of [send_pooler_error] fits its 512 byte buffer for
    every message that leaves room for the fixed parts, goes to the socket in
    one send whose success is the result, and [get_header] followed by
    [parse_server_error] recovers severity, SQLSTATE and message from it. *)
Theorem pooler_error_round_trip `{Realloc} op_send tmpbuf send_ready sqlstate level_fatal msg :
  Forall is_u8 tmpbuf -> zlen tmpbuf = 512 ->
  Forall is_u8 msg -> Forall (fun c => c <> 0) msg -> zlen msg <= 484 ->
  zlen (default str_08P01 sqlstate) = 5 -> Forall is_u8 (default str_08P01 sqlstate) ->
  Forall (fun c => c <> 0) (default str_08P01 sqlstate) ->
  let sent := pooler_error_packet level_fatal sqlstate msg ++ ready_packet send_ready in
  send_pooler_error op_send tmpbuf send_ready sqlstate level_fatal msg
    = Ok (match op_send sent with IoOk r => bool_decide (r = zlen sent) | _ => false end) /\
  exists p d p', get_header 512 (mbuf_init_fixed_reader sent (zlen sent)) = Ok (Some p, d) /\
    pkt_type p = PqMsg_ErrorResponse /\ incomplete_pkt p = false /\
    parse_server_error p
    = Ok (mkServerError (Some (if level_fatal then str_FATAL else str_ERROR)) (Some msg)
                        (Some (default str_08P01 sqlstate)), p').
Proof.
  intros Ht Htl Hm Hm0 Hml Hsl Hs Hs0 sent.
  destruct (pooler_error_built tmpbuf send_ready sqlstate level_fatal msg) as (b & E & Hw & Hp & Hf & Hb); try done.
  split.
  { unfold send_pooler_error, pooler_error_buf. rewrite ?res_bind_assoc. rewrite <- res_bind_assoc, E. cbn [mbind res_bind].
    by apply pktbuf_send_immediate_ok. }
  assert (Hbody : zlen (enc_fields (pooler_fields level_fatal sqlstate msg)) = 17 + zlen msg).
  { unfold pooler_fields. cbn [enc_fields]. destruct level_fatal; unfold str_FATAL, str_ERROR; zlia. }
  assert (Hlen : zlen sent <= 512).
  { unfold sent, pooler_error_packet, ready_packet. rewrite zlen_app, zlen_enc_packet, Hbody.
    change (header_len PqMsg_ErrorResponse) with 5. destruct send_ready; [|zlia].
    rewrite zlen_enc_packet. change (header_len PqMsg_ReadyForQuery) with 5. zlia. }
  assert (Hu8 : Forall is_u8 sent).
  { fold sent in Hb. rewrite <- Hb. destruct Hw as (_&_&_&_&_&?). by apply Forall_ztake. }
  destruct (get_header_typed 512 (mbuf_init_fixed_reader sent (zlen sent)) PqMsg_ErrorResponse
    (enc_fields (pooler_fields level_fatal sqlstate msg)) (ready_packet send_ready))
    as (p & d & Eh & Hty & Hpl & Hinc & Hwp & _ & Hv & Hwpos & _).
  - apply mbuf_init_fixed_reader_wf; [zlia|zlia|done].
  - simpl. zlia.
  - zlia.
  - unfold PqMsg_ErrorResponse; lia.
  - lia.
  - rewrite mbuf_init_fixed_reader_view. by apply ztake_all.
  - destruct (parse_server_error_ok p (pooler_fields level_fatal sqlstate msg) []) as [p' Ep]; [done| | | |].
    + rewrite Hwpos. zlia.
    + unfold pooler_fields. repeat (apply Forall_cons_iff; split; [split; [done|]; simpl|]); try done.
      destruct level_fatal; repeat (apply Forall_cons_iff; split; [discriminate|]); apply List.Forall_nil.
    + by rewrite app_nil_r.
    + exists p, d, p'. split_and!; done.
Qed.

Lemma pooler_error_round_trip_witness :
  send_pooler_error (H := zero_Realloc) (fun bs => IoOk (zlen bs)) (replicate 512 0) true None false [104; 105]
  = Ok true.
Proof.
  destruct (pooler_error_round_trip (H := zero_Realloc) (fun bs => IoOk (zlen bs)) (replicate 512 0) true None
    false [104; 105]) as [E _].
  - apply Forall_replicate. unfold is_u8; lia.
  - reflexivity.
  - repeat constructor; unfold is_u8; lia.
  - repeat (apply Forall_cons_iff; split; [discriminate|]). apply List.Forall_nil.
  - unfold zlen; simpl; lia.
  - reflexivity.
  - repeat constructor; unfold is_u8; lia.
  - repeat (apply Forall_cons_iff; split; [discriminate|]). apply List.Forall_nil.
  - exact E.
Defined.
