(* ===== verification/Messages.v ===== *)
(** * Extended-query messages (src/messages.c, include/messages.h)

    The inspection of Parse, Bind, Describe and Close packets, which works on
    as much of the packet as has arrived, and their unmarshalling.

    The theorems show that inspecting a part of a packet never contradicts
    what unmarshalling the whole packet finds, and that unmarshalling
    recovers name, query and parameter types of a Parse packet. *)

From stdpp Require Import base list option strings.
From S2P Require Import Prelude Protocol MBuf PktBuf Proto.

Record PgParsePacket := mkPgParsePacket {
  pp_len : Z;
  pp_name : list Z;
  pp_query_and_parameters_len : Z;
  pp_query_and_parameters : list Z
}.

Record PgBindPacket := mkPgBindPacket { bp_len : Z; bp_portal : list Z; bp_name : list Z }.
Record PgDescribePacket := mkPgDescribePacket { dp_type : Z; dp_name : list Z }.
Record PgClosePacket := mkPgClosePacket { cp_type : Z; cp_name : list Z }.

Inductive PreparedStatementAction :=
| PS_IGNORE
| PS_HANDLE
| PS_HANDLE_FULL_PACKET
| PS_INSPECT_FAILED.

#[export] Instance PreparedStatementAction_eq_dec : EqDecision PreparedStatementAction.
Proof. solve_decision. Defined.

Definition set_data (pkt : PktHdr) (d : MBuf) : PktHdr := mkPktHdr (pkt_type pkt) (pkt_len pkt) d.

(** [None] is the [false] of a getter: the next [bind] returns early with
    [dflt]. *)
Definition or_else {A B} (r : res (option A * MBuf)) (dflt : MBuf -> res B) (k : A -> MBuf -> res B) : res B :=
  '(v, d) ← r;
  match v with None => dflt d | Some v => k v d end.

Definition is_empty (s : list Z) : bool := match s with [] => true | _ => false end.

Definition inspect_parse_packet (pkt : PktHdr) : res (PreparedStatementAction * PktHdr) :=
  or_else (mbuf_get_string (pkt_data pkt)) (fun d => Ok (PS_INSPECT_FAILED, set_data pkt d)) (fun statement d =>
  Ok (if is_empty statement then PS_IGNORE else PS_HANDLE_FULL_PACKET, set_data pkt d)).

Definition inspect_bind_packet (pkt : PktHdr) : res (PreparedStatementAction * PktHdr) :=
  let failed d := Ok (PS_INSPECT_FAILED, set_data pkt d) in
  or_else (mbuf_get_string (pkt_data pkt)) failed (fun portal d =>
  or_else (mbuf_get_string d) failed (fun statement d =>
  Ok (if is_empty statement then PS_IGNORE else PS_HANDLE, set_data pkt d))).

Definition inspect_describe_or_close_packet (pkt : PktHdr) : res (PreparedStatementAction * PktHdr) :=
  let failed d := Ok (PS_INSPECT_FAILED, set_data pkt d) in
  or_else (mbuf_get_char (pkt_data pkt)) failed (fun describe d =>
  if negb (bool_decide (describe = 83)) then Ok (PS_IGNORE, set_data pkt d)
  else
  or_else (mbuf_get_string d) failed (fun statement d =>
  Ok (if is_empty statement then PS_IGNORE else PS_HANDLE, set_data pkt d))).

(** [UBroken] is [false] after [disconnect_client]; [UIncomplete] is [false]
    without it. *)
Inductive unmarshalled (A : Type) :=
| UOk (a : A)
| UBroken
| UIncomplete.
Arguments UOk {A} a.
Arguments UBroken {A}.
Arguments UIncomplete {A}.

(** The pointer [query_and_parameters] is the rest of the packet from the
    start of the query. *)
Definition unmarshall_parse_packet (pkt : PktHdr) : res (unmarshalled PgParsePacket * PktHdr) :=
  let failed d := Ok (UBroken, set_data pkt d) in
  or_else (mbuf_get_string (pkt_data pkt)) failed (fun statement d =>
  let query_ptr := zdrop (read_pos d) (mbuf_data d) in
  or_else (mbuf_get_string d) failed (fun query d =>
  or_else (mbuf_get_uint16be d) failed (fun num_parameters d =>
  let parameters_length := num_parameters * 4 in
  or_else (mbuf_get_bytes d parameters_length) failed (fun parameter_types_bytes d =>
  Ok (UOk (mkPgParsePacket (pkt_len pkt) statement (zlen query + 1 + 2 + parameters_length) query_ptr),
      set_data pkt d))))).

Definition unmarshall_bind_packet (pkt : PktHdr) : res (unmarshalled PgBindPacket * PktHdr) :=
  let failed d := Ok (UBroken, set_data pkt d) in
  or_else (mbuf_get_string (pkt_data pkt)) failed (fun portal d =>
  or_else (mbuf_get_string d) failed (fun statement d =>
  Ok (UOk (mkPgBindPacket (pkt_len pkt) portal statement), set_data pkt d))).

Definition unmarshall_describe_packet (pkt : PktHdr) : res (unmarshalled PgDescribePacket * PktHdr) :=
  let failed d := Ok (UBroken, set_data pkt d) in
  if incomplete_pkt pkt then Ok (UIncomplete, pkt)
  else
  or_else (mbuf_get_char (pkt_data pkt)) failed (fun describe d =>
  or_else (mbuf_get_string d) failed (fun statement d =>
  Ok (UOk (mkPgDescribePacket describe statement), set_data pkt d))).

Definition unmarshall_close_packet (pkt : PktHdr) : res (unmarshalled PgClosePacket * PktHdr) :=
  let failed d := Ok (UBroken, set_data pkt d) in
  if incomplete_pkt pkt then Ok (UIncomplete, pkt)
  else
  or_else (mbuf_get_char (pkt_data pkt)) failed (fun type d =>
  or_else (mbuf_get_string d) failed (fun name d =>
  Ok (UOk (mkPgClosePacket type name), set_data pkt d))).

Definition is_close_named_statement_packet (c : PgClosePacket) : bool :=
  bool_decide (cp_type c = 83) && negb (is_empty (cp_name c)).

(** ** Grammar of the bodies *)

(** A NUL-terminated string at the start of [v], and what follows. *)
Definition cstring (v : list Z) : option (list Z * list Z) :=
  match memchr0 v with
  | Some i => Some (take i v, drop (S i) v)
  | None => None
  end.

Definition parse_name (v : list Z) : option (list Z) := fst <$> cstring v.

Definition bind_name (v : list Z) : option (list Z) := '(_, v) ← cstring v; fst <$> cstring v.

(** The name, and the query with its parameter types: query text, NUL, the
    number of parameters and four bytes for each. *)
Definition parse_body (v : list Z) : option (list Z * list Z) :=
  '(name, v) ← cstring v;
  '(query, v) ← cstring v;
  match v with
  | a :: b :: v =>
      if bool_decide (be_combine [a; b] * 4 <= zlen v)
      then Some (name, query ++ 0 :: a :: b :: ztake (be_combine [a; b] * 4) v) else None
  | _ => None
  end.

Lemma cstring_some v s r : cstring v = Some (s, r) -> v = s ++ 0 :: r /\ Forall (fun c => c <> 0) s.
Proof.
  unfold cstring. destruct (memchr0 v) as [i|] eqn:E; [|done]. intros [= <- <-].
  destruct (memchr0_some _ _ E) as (rest & Hv & Hf). split; [|done].
  rewrite <- (take_drop i v) at 1. f_equal.
  assert (Hi : length (take i v) = i).
  { apply length_take_le. rewrite Hv, length_app, length_take. destruct (decide (i <= length v)%nat); simpl; [lia|].
    apply (f_equal length) in Hv. rewrite length_app, length_take in Hv. simpl in Hv. lia. }
  apply drop_S. rewrite Hv. by apply list_lookup_middle.
Qed.

Lemma cstring_intro s r : Forall (fun c => c <> 0) s -> cstring (s ++ 0 :: r) = Some (s, r).
Proof.
  intros Hs. unfold cstring. rewrite memchr0_split by done. rewrite take_app_length. do 2 f_equal.
  replace (S (length s)) with (length (s ++ [0])) by (rewrite length_app; simpl; lia).
  change (0 :: r) with ([0] ++ r). by rewrite app_assoc, drop_app_length.
Qed.

(** More input does not change a string that was found. *)
Lemma cstring_app v more s r : cstring v = Some (s, r) -> cstring (v ++ more) = Some (s, r ++ more).
Proof.
  intros E. destruct (cstring_some _ _ _ E) as [-> Hs]. rewrite <- app_assoc. simpl. by apply cstring_intro.
Qed.

(** [mbuf_get_string] is [cstring] on the unread bytes. *)
Lemma get_string_cstring {B} d (dflt : MBuf -> res B) k :
  mbuf_wf d ->
  or_else (mbuf_get_string d) dflt k =
    match cstring (mbuf_view d) with
    | None => dflt d
    | Some (s, r) => k s (advance d (zlen s + 1))
    end /\
  (forall s r, cstring (mbuf_view d) = Some (s, r) ->
     mbuf_wf (advance d (zlen s + 1)) /\ mbuf_view (advance d (zlen s + 1)) = r).
Proof.
  intros Hw. destruct (cstring (mbuf_view d)) as [[s r]|] eqn:E.
  - destruct (cstring_some _ _ _ E) as [Hv Hs]. unfold or_else.
    rewrite (mbuf_get_string_view d s r) by done. split; [done|]. intros s' r' [= <- <-].
    destruct (advance_view d (zlen s + 1) Hw) as [Hw' Hv']; [rewrite Hv; zlia|]. split; [done|].
    rewrite Hv', Hv, zdrop_app_ge by lia. replace (zlen s + 1 - zlen s) with 1 by lia. done.
  - unfold cstring in E. destruct (memchr0 (mbuf_view d)) eqn:Em; [done|].
    apply memchr0_none in Em. unfold or_else. by rewrite mbuf_get_string_none.
Qed.

Lemma get_char_view {B} d (dflt : MBuf -> res B) k :
  mbuf_wf d -> write_pos d + 1 <= UINT_MAX ->
  or_else (mbuf_get_char d) dflt k =
    match mbuf_view d with
    | [] => dflt d
    | c :: _ => k c (advance d 1)
    end /\
  (forall c r, mbuf_view d = c :: r -> mbuf_wf (advance d 1) /\ mbuf_view (advance d 1) = r).
Proof.
  intros Hw Hu. rewrite mbuf_get_char_byte. unfold or_else. destruct (mbuf_view d) as [|c r] eqn:E.
  - by rewrite mbuf_get_byte_nil.
  - rewrite (mbuf_get_byte_view d c r) by done. split; [done|]. intros c' r' [= <- <-].
    destruct (advance_view d 1 Hw) as [Hw' Hv']; [rewrite E; zlia|]. split; [done|]. by rewrite Hv', E.
Qed.

(** ** The packets as functions of their bytes *)

Lemma inspect_parse_spec pkt :
  mbuf_wf (pkt_data pkt) ->
  exists pkt', inspect_parse_packet pkt = Ok (match parse_name (mbuf_view (pkt_data pkt)) with
    | None => PS_INSPECT_FAILED
    | Some n => if is_empty n then PS_IGNORE else PS_HANDLE_FULL_PACKET end, pkt').
Proof.
  intros Hw. unfold inspect_parse_packet, parse_name.
  destruct (get_string_cstring (pkt_data pkt) (fun d => Ok (PS_INSPECT_FAILED, set_data pkt d))
    (fun s d => Ok (if is_empty s then PS_IGNORE else PS_HANDLE_FULL_PACKET, set_data pkt d)) Hw) as [-> _].
  destruct (cstring _) as [[s r]|]; simpl; by eexists.
Qed.

(** Reads the string at the cursor in the goal. *)
Ltac read_cstring :=
  match goal with
  | Hw : mbuf_wf ?d |- context [or_else (mbuf_get_string ?d) ?f ?k] =>
      let E := fresh "E" in let Hn := fresh "Hn" in let Ec := fresh "Ec" in
      destruct (get_string_cstring d f k Hw) as [E Hn]; rewrite E; clear E;
      destruct (cstring (mbuf_view d)) as [[? ?]|] eqn:Ec;
      [let Hw' := fresh "Hw" in let Hv' := fresh "Hv" in destruct (Hn _ _ eq_refl) as [Hw' Hv']; clear Hn|]
  end.

Ltac read_char :=
  match goal with
  | Hw : mbuf_wf ?d |- context [or_else (mbuf_get_char ?d) ?f ?k] =>
      let E := fresh "E" in let Hn := fresh "Hn" in let Ec := fresh "Ec" in
      destruct (get_char_view d f k Hw) as [E Hn]; [simpl; lia|]; rewrite E; clear E;
      destruct (mbuf_view d) as [|? ?] eqn:Ec;
      [|let Hw' := fresh "Hw" in let Hv' := fresh "Hv" in destruct (Hn _ _ eq_refl) as [Hw' Hv']; clear Hn]
  end.

Lemma inspect_bind_spec pkt :
  mbuf_wf (pkt_data pkt) ->
  exists pkt', inspect_bind_packet pkt = Ok (match bind_name (mbuf_view (pkt_data pkt)) with
    | None => PS_INSPECT_FAILED
    | Some n => if is_empty n then PS_IGNORE else PS_HANDLE end, pkt').
Proof.
  intros Hw. unfold inspect_bind_packet, bind_name. read_cstring; [|by eexists].
  cbn [mbind option_bind]. read_cstring; rewrite Hv in Ec0; rewrite Ec0; by eexists.
Qed.

(** Describe and Close: kind byte, then the name. *)
Definition stmt_name (v : list Z) : option (Z * list Z) :=
  match v with
  | [] => None
  | c :: v => s ← fst <$> cstring v; Some (c, s)
  end.

Lemma inspect_describe_spec pkt :
  mbuf_wf (pkt_data pkt) -> write_pos (pkt_data pkt) + 1 <= UINT_MAX ->
  exists pkt', inspect_describe_or_close_packet pkt = Ok (match mbuf_view (pkt_data pkt) with
    | [] => PS_INSPECT_FAILED
    | c :: _ => if bool_decide (c = 83) then
        match stmt_name (mbuf_view (pkt_data pkt)) with
        | None => PS_INSPECT_FAILED
        | Some (_, n) => if is_empty n then PS_IGNORE else PS_HANDLE
        end else PS_IGNORE
    end, pkt').
Proof.
  intros Hw Hu. unfold inspect_describe_or_close_packet. read_char; [by eexists|].
  case_bool_decide; cbn [negb]; [|by eexists]. unfold stmt_name.
  read_cstring; rewrite Hv in Ec0; rewrite Ec0; by eexists.
Qed.

Lemma unmarshall_bind_spec pkt :
  mbuf_wf (pkt_data pkt) ->
  exists pkt', unmarshall_bind_packet pkt = Ok (match cstring (mbuf_view (pkt_data pkt)) with
    | None => UBroken
    | Some (portal, v) => match cstring v with
        | None => UBroken
        | Some (name, _) => UOk (mkPgBindPacket (pkt_len pkt) portal name) end end, pkt').
Proof.
  intros Hw. unfold unmarshall_bind_packet. read_cstring; [|by eexists].
  read_cstring; rewrite Hv in Ec0; rewrite Ec0; by eexists.
Qed.

Lemma unmarshall_close_spec pkt :
  mbuf_wf (pkt_data pkt) -> write_pos (pkt_data pkt) + 1 <= UINT_MAX -> incomplete_pkt pkt = false ->
  exists pkt', unmarshall_close_packet pkt = Ok (match stmt_name (mbuf_view (pkt_data pkt)) with
    | None => UBroken
    | Some (c, n) => UOk (mkPgClosePacket c n) end, pkt').
Proof.
  intros Hw Hu Hi. unfold unmarshall_close_packet. rewrite Hi. read_char; [by eexists|].
  unfold stmt_name. read_cstring; rewrite Hv in Ec0; rewrite Ec0; by eexists.
Qed.

Lemma unmarshall_describe_spec pkt :
  mbuf_wf (pkt_data pkt) -> write_pos (pkt_data pkt) + 1 <= UINT_MAX -> incomplete_pkt pkt = false ->
  exists pkt', unmarshall_describe_packet pkt = Ok (match stmt_name (mbuf_view (pkt_data pkt)) with
    | None => UBroken
    | Some (c, n) => UOk (mkPgDescribePacket c n) end, pkt').
Proof.
  intros Hw Hu Hi. unfold unmarshall_describe_packet. rewrite Hi. read_char; [by eexists|].
  unfold stmt_name. read_cstring; rewrite Hv in Ec0; rewrite Ec0; by eexists.
Qed.

(** The bytes at the read cursor, as a pointer into the block sees them. *)
Lemma cursor_bytes d n :
  mbuf_wf d -> 0 <= n <= zlen (mbuf_view d) -> ztake n (zdrop (read_pos d) (mbuf_data d)) = ztake n (mbuf_view d).
Proof.
  intros Hw Hn. rewrite mbuf_view_len in Hn by done. unfold mbuf_view, slice. rewrite ztake_ztake. f_equal. lia.
Qed.

Lemma unmarshall_parse_spec pkt :
  mbuf_wf (pkt_data pkt) -> write_pos (pkt_data pkt) + 2 <= UINT_MAX ->
  exists r pkt', unmarshall_parse_packet pkt = Ok (r, pkt') /\
    match parse_body (mbuf_view (pkt_data pkt)), r with
    | None, UBroken => True
    | Some (name, qp), UOk p =>
        pp_len p = pkt_len pkt /\ pp_name p = name /\ Forall is_u8 (pp_query_and_parameters p) /\
        pp_query_and_parameters_len p = zlen qp /\
        ztake (pp_query_and_parameters_len p) (pp_query_and_parameters p) = qp
    | _, _ => False
    end.
Proof.
  intros Hw Hu. unfold unmarshall_parse_packet, parse_body. read_cstring; cbn [mbind option_bind].
  2:{ by eexists _, _. }
  set (d1 := advance (pkt_data pkt) (zlen l + 1)) in *.
  read_cstring; rewrite Hv in Ec0; rewrite Ec0; cbn [mbind option_bind].
  2:{ by eexists _, _. }
  destruct (cstring_some _ _ _ Ec0) as [Hl0 _]. set (d2 := advance d1 (zlen l1 + 1)) in *.
  unfold or_else at 1. destruct l2 as [|a [|b l2]].
  1,2: rewrite mbuf_get_uint16be_short by (done || (simpl; lia) || (rewrite Hv0; zlia)); by eexists _, _.
  rewrite (mbuf_get_uint16be_view d2 a b l2) by (done || (simpl; lia)). cbn [mbind res_bind].
  pose proof (mbuf_view_bytes _ Hw1) as Hb. rewrite Hv0 in Hb.
  apply Forall_cons_iff in Hb as [Ha Hb]. apply Forall_cons_iff in Hb as [Hb0 _]. unfold is_u8 in Ha, Hb0.
  assert (Hpos : 0 <= be_combine [a; b]) by (unfold be_combine; simpl; lia).
  destruct (advance_view d2 2 Hw1) as [Hw3 Hv3]; [rewrite Hv0; zlia|]. rewrite Hv0 in Hv3.
  change (zdrop 2 (a :: b :: l2)) with l2 in Hv3. unfold or_else.
  case_bool_decide as Hlen.
  - rewrite mbuf_get_bytes_view by (done || (rewrite Hv3; lia)). cbn [mbind res_bind].
    eexists _, _. split; [reflexivity|]. cbn [pp_len pp_name pp_query_and_parameters_len pp_query_and_parameters].
    do 2 (split; [done|]). split; [destruct Hw0 as (_&_&_&_&?); auto with pgb|].
    pose proof (zlen_nonneg l1). split; [zlia|].
    rewrite cursor_bytes by (done || (rewrite Hv, Hl0; zlia)). rewrite Hv, Hl0.
    rewrite ztake_app_ge by lia. f_equal.
    replace (zlen l1 + 1 + 2 + be_combine [a; b] * 4 - zlen l1) with (3 + be_combine [a; b] * 4) by lia.
    change (0 :: a :: b :: l2) with ([0; a; b] ++ l2). rewrite ztake_app_ge by zlia.
    change (zlen [0; a; b]) with 3. simpl. do 4 f_equal. lia.
  - rewrite mbuf_get_bytes_short by (done || (rewrite Hv3; lia)). by eexists _, _.
Qed.

Lemma parse_name_app v more n : parse_name v = Some n -> parse_name (v ++ more) = Some n.
Proof.
  unfold parse_name. destruct (cstring v) as [[s r]|] eqn:E; [|done]. intros [= <-].
  by rewrite (cstring_app _ more _ _ E).
Qed.

Lemma parse_body_name v name qp : parse_body v = Some (name, qp) -> parse_name v = Some name.
Proof.
  unfold parse_body, parse_name. destruct (cstring v) as [[s r]|]; [|done]. cbn [mbind option_bind].
  destruct (cstring r) as [[q r']|]; [|done]. cbn [mbind option_bind].
  destruct r' as [|a [|b r']]; try done. case_bool_decide; [|done]. by intros [= <- _].
Qed.

Lemma bind_name_app v more n : bind_name v = Some n -> bind_name (v ++ more) = Some n.
Proof.
  unfold bind_name. destruct (cstring v) as [[s r]|] eqn:E; [|done]. cbn [mbind option_bind].
  rewrite (cstring_app _ more _ _ E). cbn [mbind option_bind].
  destruct (cstring r) as [[s' r']|] eqn:E'; [|done]. intros [= <-]. by rewrite (cstring_app _ more _ _ E').
Qed.

Lemma stmt_name_app v more x : stmt_name v = Some x -> stmt_name (v ++ more) = Some x.
Proof.
  destruct v as [|c v]; [done|]. cbn [stmt_name app]. destruct (cstring v) as [[s r]|] eqn:E; [|done].
  rewrite (cstring_app _ more _ _ E). done.
Qed.

(** The verdict on a Describe or Close packet, given its fields. *)
Definition stmt_action (type : Z) (name : list Z) : PreparedStatementAction :=
  if bool_decide (type = 83) && negb (is_empty name) then PS_HANDLE else PS_IGNORE.

Lemma inspect_describe_agrees p v more c n :
  mbuf_wf (pkt_data p) -> write_pos (pkt_data p) + 1 <= UINT_MAX -> mbuf_view (pkt_data p) = v ->
  stmt_name (v ++ more) = Some (c, n) ->
  forall a p', inspect_describe_or_close_packet p = Ok (a, p') -> a <> PS_INSPECT_FAILED -> a = stmt_action c n.
Proof.
  intros Hw Hu Hv Hn a p' E Ha. destruct (inspect_describe_spec p Hw Hu) as [p2 E2].
  rewrite E2, Hv in E. injection E as <- <-. clear E2. unfold stmt_action.
  destruct v as [|c' v]; [done|]. assert (c' = c) as ->.
  { simpl in Hn. destruct (cstring (v ++ more)) as [[? ?]|]; [|done]. by injection Hn as -> _. }
  case_bool_decide; [|done]. destruct (stmt_name (c :: v)) as [[c' n']|] eqn:E; [|done].
  rewrite (stmt_name_app _ more _ E) in Hn. injection Hn as -> ->. by destruct n.
Qed.

(** ** Properties *)

(** The pooler decides what to do with a Parse, Bind, Describe or Close
    packet from the part [p] of it that has arrived.  When that part is
    enough for a verdict, the verdict is the one the complete packet [q]
    deserves: it names a statement exactly when unmarshalling [q] finds a
    non-empty statement name. *)
Theorem inspect_of_prefix_agrees p q more :
  mbuf_wf (pkt_data p) -> mbuf_wf (pkt_data q) -> write_pos (pkt_data p) + 2 <= UINT_MAX ->
  write_pos (pkt_data q) + 2 <= UINT_MAX -> incomplete_pkt q = false ->
  mbuf_view (pkt_data q) = mbuf_view (pkt_data p) ++ more ->
  (forall a p' x q', inspect_parse_packet p = Ok (a, p') -> a <> PS_INSPECT_FAILED ->
     unmarshall_parse_packet q = Ok (UOk x, q') ->
     a = if is_empty (pp_name x) then PS_IGNORE else PS_HANDLE_FULL_PACKET) /\
  (forall a p' x q', inspect_bind_packet p = Ok (a, p') -> a <> PS_INSPECT_FAILED ->
     unmarshall_bind_packet q = Ok (UOk x, q') -> a = if is_empty (bp_name x) then PS_IGNORE else PS_HANDLE) /\
  (forall a p' x q', inspect_describe_or_close_packet p = Ok (a, p') -> a <> PS_INSPECT_FAILED ->
     unmarshall_describe_packet q = Ok (UOk x, q') -> a = stmt_action (dp_type x) (dp_name x)) /\
  (forall a p' x q', inspect_describe_or_close_packet p = Ok (a, p') -> a <> PS_INSPECT_FAILED ->
     unmarshall_close_packet q = Ok (UOk x, q') ->
     a = if is_close_named_statement_packet x then PS_HANDLE else PS_IGNORE).
Proof.
  intros Hp Hq Hup Huq Hi Hv. split_and!; intros a p' x q' E Ha Eu.
  - destruct (inspect_parse_spec p Hp) as [p2 E2]. rewrite E2 in E. injection E as <- <-.
    destruct (unmarshall_parse_spec q Hq ltac:(lia)) as (r & q2 & Er & Hr). rewrite Eu in Er. injection Er as <- <-.
    destruct (parse_body _) as [[name qp]|] eqn:Eb; [|done]. destruct Hr as (_ & <- & _).
    apply parse_body_name in Eb. destruct (parse_name (mbuf_view (pkt_data p))) as [n|] eqn:En; [|done].
    apply (parse_name_app _ more) in En. rewrite <- Hv, Eb in En. by injection En as ->.
  - destruct (inspect_bind_spec p Hp) as [p2 E2]. rewrite E2 in E. injection E as <- <-.
    destruct (unmarshall_bind_spec q Hq) as [q2 Er]. rewrite Eu in Er. injection Er as Er _.
    destruct (bind_name (mbuf_view (pkt_data p))) as [n|] eqn:En; [|done].
    apply (bind_name_app _ more) in En. rewrite <- Hv in En. unfold bind_name in En.
    destruct (cstring (mbuf_view (pkt_data q))) as [[? v2]|]; [|done]. cbn [mbind option_bind] in En.
    destruct (cstring v2) as [[? ?]|]; [|done]. injection En as ->. by injection Er as ->.
  - destruct (unmarshall_describe_spec q Hq ltac:(lia) Hi) as [q2 Er]. rewrite Eu in Er. injection Er as Er _.
    destruct (stmt_name _) as [[c n]|] eqn:En; [|done]. injection Er as ->. rewrite Hv in En.
    by apply (inspect_describe_agrees p _ more c n Hp ltac:(lia) eq_refl En a p').
  - destruct (unmarshall_close_spec q Hq ltac:(lia) Hi) as [q2 Er]. rewrite Eu in Er. injection Er as Er _.
    destruct (stmt_name _) as [[c n]|] eqn:En; [|done]. injection Er as ->. rewrite Hv in En.
    by apply (inspect_describe_agrees p _ more c n Hp ltac:(lia) eq_refl En a p').
Qed.

(** A packet whose buffer holds [v], header already read. *)
Definition packet_over (type len : Z) (v : list Z) : PktHdr :=
  mkPktHdr type len (mbuf_init_fixed_reader v (zlen v)).

Lemma inspect_of_prefix_agrees_witness :
  exists a p', inspect_parse_packet (packet_over 80 4 [115; 0; 65]) = Ok (a, p') /\ a = PS_HANDLE_FULL_PACKET.
Proof.
  eexists _, _. split; [reflexivity|].
  refine (proj1 (inspect_of_prefix_agrees (packet_over 80 4 [115; 0; 65])
    (packet_over 80 6 [115; 0; 65; 0; 0; 0]) [0; 0; 0] _ _ _ _ _ _) _ _
    (mkPgParsePacket 6 [115] 4 [65; 0; 0; 0])
    (mkPktHdr 80 6 (mkMBuf (Some [115; 0; 65; 0; 0; 0]) 6 6 6 true true)) eq_refl _ _).
  1,2: apply mbuf_init_fixed_reader_wf; [unfold zlen; simpl; lia|unfold zlen, UINT_MAX; simpl; lia|
    repeat constructor; unfold is_u8; lia].
  1,2: unfold packet_over, UINT_MAX, zlen; simpl; lia.
  1,2,4: reflexivity.
  vm_compute; discriminate.
Defined.

(** The query part does not depend on the name before it. *)
Lemma parse_body_rename v name qp name' :
  parse_body v = Some (name, qp) -> Forall is_u8 v -> Forall (fun c => c <> 0) name' ->
  parse_body (name' ++ 0 :: qp) = Some (name', qp).
Proof.
  unfold parse_body. destruct (cstring v) as [[s r]|] eqn:E0; [|done]. cbn [mbind option_bind].
  destruct (cstring r) as [[q r']|] eqn:E; [|done]. cbn [mbind option_bind].
  destruct r' as [|a [|b r']]; try done. case_bool_decide as Hl; [|done]. intros [= _ <-] Hv Hn.
  destruct (cstring_some _ _ _ E) as [-> Hq]. destruct (cstring_some _ _ _ E0) as [-> _].
  rewrite cstring_intro by done. cbn [mbind option_bind]. rewrite cstring_intro by done. cbn [mbind option_bind].
  assert (0 <= be_combine [a; b]).
  { rewrite !Forall_app, !Forall_cons_iff, !Forall_app, !Forall_cons_iff in Hv. unfold is_u8 in Hv.
    unfold be_combine; cbn [fold_left]. lia. }
  rewrite bool_decide_eq_true_2 by zlia. by rewrite ztake_ztake, Z.min_id.
Qed.

(** The bytes of the Parse packet built for the server. *)
Lemma write_Parse_bytes `{Realloc} b stmt qp len b' :
  pb_wf b -> pb_write_pos b = 0 -> Forall is_u8 stmt -> Forall is_u8 qp -> 0 <= len <= zlen qp ->
  pktbuf_write_Parse b stmt qp len = Ok b' -> pb_failed b' = false ->
  pb_bytes b' = enc_packet PqMsg_Parse (stmt ++ 0 :: ztake len qp) /\ pb_wf b'.
Proof.
  intros Hw Hp Hs Hq Hl E Hf.
  destruct (write_generic_ok b PqMsg_Parse "sb" [VStr stmt; VPtr qp; VInt len] (stmt ++ 0 :: ztake len qp))
    as (b2&E2&Hw2&_&_&_&Hb&_); [done|va_solve| |].
  - cbn -[app ztake]. rewrite bool_decide_eq_true_2 by done. cbn -[app ztake].
    by rewrite app_nil_r, <- app_assoc.
  - unfold pktbuf_write_Parse in E. rewrite E in E2. injection E2 as <-. split; [|done].
    destruct (Hb Hf) as [_ ->]. unfold pb_bytes. rewrite Hp. by rewrite ztake_nonpos.
Qed.

(** C35: renaming a statement keeps the query.  A client's Parse packet with
    any name is unmarshalled, and the Parse packet built from the result for
    the server carries the new name and exactly the client's query text and
    parameter types: reading it back gives the new name and the same query
    bytes. *)
Theorem parse_rename_keeps_query `{Realloc} q x q' b stmt b' max :
  mbuf_wf (pkt_data q) -> write_pos (pkt_data q) + 2 <= UINT_MAX ->
  unmarshall_parse_packet q = Ok (UOk x, q') ->
  pb_wf b -> pb_write_pos b = 0 -> Forall is_u8 stmt -> Forall (fun c => c <> 0) stmt ->
  pktbuf_write_Parse b stmt (pp_query_and_parameters x) (pp_query_and_parameters_len x) = Ok b' ->
  pb_failed b' = false -> zlen stmt + 6 + pp_query_and_parameters_len x <= max <= UINT_MAX - 8 ->
  exists p d y p', get_header max (mbuf_init_fixed_reader (pb_bytes b') (zlen (pb_bytes b'))) = Ok (Some p, d) /\
    unmarshall_parse_packet p = Ok (UOk y, p') /\ pkt_type p = PqMsg_Parse /\ pp_name y = stmt /\
    pp_query_and_parameters_len y = pp_query_and_parameters_len x /\
    ztake (pp_query_and_parameters_len y) (pp_query_and_parameters y)
    = ztake (pp_query_and_parameters_len x) (pp_query_and_parameters x).
Proof.
  intros Hq Huq Eu Hb Hwp Hs Hs0 Ew Hf Hmax.
  destruct (unmarshall_parse_spec q Hq Huq) as (r & q2 & Er & Hr). rewrite Eu in Er. injection Er as <- <-.
  destruct (parse_body _) as [[name qp]|] eqn:Eb; [|done].
  destruct Hr as (_ & _ & Hqb & Hlen & Hqp). set (L := pp_query_and_parameters_len x) in *.
  assert (HL : 0 <= L <= zlen (pp_query_and_parameters x)).
  { pose proof (zlen_nonneg qp). split; [lia|].
    apply (f_equal zlen) in Hqp. rewrite zlen_ztake in Hqp. lia. }
  destruct (write_Parse_bytes b stmt _ L b' Hb Hwp Hs Hqb HL Ew Hf) as [Hbytes Hwb']. rewrite Hqp in Hbytes.
  assert (Hbl : zlen (stmt ++ 0 :: qp) = zlen stmt + 1 + L) by zlia.
  assert (Htl : zlen (pb_bytes b') = 5 + zlen (stmt ++ 0 :: qp)) by (rewrite Hbytes, zlen_enc_packet; done).
  pose proof (zlen_nonneg stmt). rewrite Htl.
  destruct (get_header_typed max (mbuf_init_fixed_reader (pb_bytes b') (5 + zlen (stmt ++ 0 :: qp))) PqMsg_Parse
    (stmt ++ 0 :: qp) []) as (p & d & Eg & Hty & Hpl & _ & Hwfp & _ & Hv & Hwpos & _).
  - destruct Hwb' as (_&_&_&_&_&Hu8). apply mbuf_init_fixed_reader_wf; [lia|lia|by apply Forall_ztake].
  - simpl. lia.
  - lia.
  - unfold PqMsg_Parse; lia.
  - lia.
  - rewrite mbuf_init_fixed_reader_view, Hbytes, app_nil_r. apply ztake_all. rewrite <- Hbytes. lia.
  - destruct (unmarshall_parse_spec p Hwfp ltac:(lia)) as (r & p' & Ep & Hr).
    rewrite Hv, (parse_body_rename _ _ _ stmt Eb) in Hr by (done || by apply mbuf_view_bytes).
    destruct r as [y| |]; [|done|done]. destruct Hr as (_ & Hname & _ & Hyl & Hy).
    exists p, d, y, p'. split_and!; auto; congruence.
Qed.

Lemma parse_rename_keeps_query_witness :
  exists p d y p', get_header 4096 (mbuf_init_fixed_reader [80; 0; 0; 0; 11; 80; 49; 0; 65; 0; 0; 0] 12) = Ok (Some p, d)
    /\ unmarshall_parse_packet p = Ok (UOk y, p') /\ pp_name y = [80; 49].
Proof.
  destruct (parse_rename_keeps_query (H := zero_Realloc) (packet_over 80 6 [115; 0; 65; 0; 0; 0])
    (mkPgParsePacket 6 [115] 4 [65; 0; 0; 0])
    (mkPktHdr 80 6 (mkMBuf (Some [115; 0; 65; 0; 0; 0]) 6 6 6 true true))
    (pktbuf_static (replicate 12 0) 12) [80; 49]
    (mkPktBuf [80; 0; 0; 0; 11; 80; 49; 0; 65; 0; 0; 0] 12 12 0 0 false false true) 4096)
    as (p & d & y & p' & E & Eu & _ & Hn & _).
  - apply mbuf_init_fixed_reader_wf; [unfold zlen; simpl; lia|unfold zlen, UINT_MAX; simpl; lia|].
    repeat constructor; unfold is_u8; lia.
  - unfold packet_over, UINT_MAX, zlen; simpl; lia.
  - reflexivity.
  - unfold pb_wf, INT_MAX, zlen; simpl. split_and!; try lia; try done. repeat constructor; unfold is_u8; lia.
  - reflexivity.
  - repeat constructor; unfold is_u8; lia.
  - repeat (apply Forall_cons_iff; split; [discriminate|]). apply List.Forall_nil.
  - vm_compute. reflexivity.
  - reflexivity.
  - unfold UINT_MAX, zlen; simpl; lia.
  - exists p, d, y, p'. split_and!; done.
Defined.
