(* ===== verification/IOBuf.v ===== *)
(** * The socket I/O buffer (include/iobuf.h)

    One fixed block of [cf_sbuf_len] bytes with three cursors: sent up to
    [done_pos], parsed up to [parse_pos], received up to [recv_pos].

    [iobuf_sane], which the code asserts, is shown to be preserved by every
    operation, and the pending and unparsed bytes to change exactly as each
    operation says; in particular moving the data to the start of the block
    loses nothing. *)

From stdpp Require Import base list option.
From S2P Require Import Prelude MBuf.

Record IOBuf := mkIOBuf {
  done_pos : Z;
  parse_pos : Z;
  recv_pos : Z;
  io_buf : list Z
}.

Section IOBufOps.
Variable cf_sbuf_len : Z.

Definition iobuf_sane (io : option IOBuf) : bool :=
  match io with
  | None => true
  | Some io => bool_decide (parse_pos io >= done_pos io) && bool_decide (recv_pos io >= parse_pos io)
               && bool_decide (cf_sbuf_len >= recv_pos io)
  end.

Definition iobuf_empty (io : option IOBuf) : bool :=
  match io with
  | None => true
  | Some io => bool_decide (done_pos io = recv_pos io)
  end.

Definition iobuf_amount_pending (io : IOBuf) : Z := u32 (parse_pos io - done_pos io).
Definition iobuf_amount_parse (io : IOBuf) : Z := u32 (recv_pos io - parse_pos io).
Definition iobuf_amount_recv (io : IOBuf) : Z := u32 (cf_sbuf_len - recv_pos io).

(** The reader over the unparsed bytes, and their number. *)
Definition iobuf_parse_all (io : IOBuf) : MBuf * Z :=
  let avail := iobuf_amount_parse io in
  (mbuf_init_fixed_reader (zdrop (parse_pos io) (io_buf io)) avail, avail).

Definition iobuf_parse_limit (io : IOBuf) (limit : Z) : MBuf * Z :=
  let avail := iobuf_amount_parse io in
  let avail := if bool_decide (avail > limit) then limit else avail in
  (mbuf_init_fixed_reader (zdrop (parse_pos io) (io_buf io)) avail, avail).

Definition iobuf_tag_send (io : IOBuf) (len : Z) : res IOBuf :=
  _ ← Assert (bool_decide (len > 0) && bool_decide (len <= iobuf_amount_parse io));
  Ok (mkIOBuf (done_pos io) (u32 (parse_pos io + len)) (recv_pos io) (io_buf io)).

Definition iobuf_tag_skip (io : IOBuf) (len : Z) : res IOBuf :=
  _ ← Assert (bool_decide (parse_pos io = done_pos io));
  _ ← Assert (bool_decide (len > 0) && bool_decide (len <= iobuf_amount_parse io));
  Ok (mkIOBuf (u32 (parse_pos io + len)) (u32 (parse_pos io + len)) (recv_pos io) (io_buf io)).

Definition iobuf_try_resync (io : IOBuf) (small_pkt : Z) : res IOBuf :=
  let avail := u32 (recv_pos io - done_pos io) in
  if bool_decide (avail = 0) then
    if bool_decide (recv_pos io > 0) then Ok (mkIOBuf 0 0 0 (io_buf io)) else Ok io
  else if bool_decide (avail <= small_pkt) && bool_decide (done_pos io > 0) then
    bs ← mem_load (io_buf io) (done_pos io) avail;
    m ← mem_store (io_buf io) 0 bs;
    Ok (mkIOBuf 0 (u32 (parse_pos io - done_pos io)) avail m)
  else Ok io.

Definition iobuf_reset (io : IOBuf) : IOBuf := mkIOBuf 0 0 0 (io_buf io).

End IOBufOps.

(** ** Invariant and contents *)

(** The invariant of a buffer in use: the cursors are in order, and the block
    has [cf_sbuf_len] bytes. *)
Definition io_wf (cf_sbuf_len : Z) (io : IOBuf) : Prop :=
  0 <= done_pos io <= parse_pos io /\ parse_pos io <= recv_pos io <= cf_sbuf_len /\
  zlen (io_buf io) = cf_sbuf_len /\ cf_sbuf_len <= INT_MAX /\ Forall is_u8 (io_buf io).

(** Parsed but not sent; received but not parsed. *)
Definition io_pending (io : IOBuf) : list Z := slice (done_pos io) (parse_pos io) (io_buf io).
Definition io_unparsed (io : IOBuf) : list Z := slice (parse_pos io) (recv_pos io) (io_buf io).

Section IOBufFacts.
Variable cf_sbuf_len : Z.
#[local] Abbreviation io_wf := (io_wf cf_sbuf_len).

Lemma io_wf_sane io : io_wf io -> iobuf_sane cf_sbuf_len (Some io) = true.
Proof. intros (?&?&?&?&?). simpl. by rewrite !bool_decide_eq_true_2 by lia. Qed.

Lemma io_pending_len io : io_wf io -> zlen (io_pending io) = parse_pos io - done_pos io.
Proof. intros (?&?&?&?&?). unfold io_pending. zlia. Qed.

Lemma io_unparsed_len io : io_wf io -> zlen (io_unparsed io) = recv_pos io - parse_pos io.
Proof. intros (?&?&?&?&?). unfold io_unparsed. zlia. Qed.

Lemma amount_pending_len io : io_wf io -> iobuf_amount_pending io = zlen (io_pending io).
Proof.
  intros Hw. rewrite io_pending_len by done. destruct Hw as (?&?&?&?&?).
  unfold iobuf_amount_pending. by rewrite u32_small by zlia.
Qed.

Lemma amount_parse_len io : io_wf io -> iobuf_amount_parse io = zlen (io_unparsed io).
Proof.
  intros Hw. rewrite io_unparsed_len by done. destruct Hw as (?&?&?&?&?).
  unfold iobuf_amount_parse. by rewrite u32_small by zlia.
Qed.

Lemma amount_recv_free io : io_wf io -> iobuf_amount_recv cf_sbuf_len io = cf_sbuf_len - recv_pos io.
Proof. intros (?&?&?&?&?). unfold iobuf_amount_recv. by rewrite u32_small by zlia. Qed.

Lemma parse_all_view io : io_wf io ->
  mbuf_wf (iobuf_parse_all io).1 /\ mbuf_view (iobuf_parse_all io).1 = io_unparsed io /\
  (iobuf_parse_all io).2 = zlen (io_unparsed io).
Proof.
  intros Hw. unfold iobuf_parse_all; cbn [fst snd]. rewrite amount_parse_len by done.
  pose proof (io_unparsed_len io Hw) as Hl. pose proof Hw as (?&?&?&?&?). split_and!; [|rewrite Hl|done].
  - apply mbuf_init_fixed_reader_wf; auto with pgb; zlia.
  - rewrite mbuf_init_fixed_reader_view. done.
Qed.

Lemma parse_limit_view io limit : io_wf io -> 0 <= limit ->
  mbuf_wf (iobuf_parse_limit io limit).1 /\ mbuf_view (iobuf_parse_limit io limit).1 = ztake limit (io_unparsed io).
Proof.
  intros Hw Hlim. unfold iobuf_parse_limit; cbn [fst snd]. rewrite amount_parse_len by done.
  pose proof (io_unparsed_len io Hw) as Hl. pose proof Hw as (?&?&?&?&?).
  set (n := if bool_decide (zlen (io_unparsed io) > limit) then limit else zlen (io_unparsed io)).
  assert (Hn : n = Z.min limit (zlen (io_unparsed io))) by (unfold n; case_bool_decide; lia).
  split.
  - apply mbuf_init_fixed_reader_wf; auto with pgb; zlia.
  - rewrite mbuf_init_fixed_reader_view. unfold io_unparsed, slice. rewrite ztake_ztake. f_equal. lia.
Qed.

Lemma tag_send_ok io len :
  io_wf io -> 0 < len <= zlen (io_unparsed io) ->
  exists io', iobuf_tag_send io len = Ok io' /\ io_wf io' /\ recv_pos io' = recv_pos io /\
    io_pending io' = io_pending io ++ ztake len (io_unparsed io) /\
    io_unparsed io' = zdrop len (io_unparsed io).
Proof.
  intros Hw Hlen. unfold iobuf_tag_send. rewrite amount_parse_len by done.
  rewrite !bool_decide_eq_true_2 by lia. cbn. pose proof (io_unparsed_len io Hw) as Hl.
  destruct Hw as (H1&H2&H3&H4&H5). rewrite u32_small by zlia. eexists; split; [reflexivity|].
  unfold IOBuf.io_wf, io_pending, io_unparsed; simpl. split_and!; auto; try lia.
  - rewrite (slice_split _ (parse_pos io)) by lia. f_equal. unfold slice. rewrite ztake_ztake. f_equal. lia.
  - rewrite (slice_split (parse_pos io) (parse_pos io + len) (recv_pos io)) by lia.
    rewrite zdrop_app_ge by zlia. rewrite zdrop_0 by zlia. done.
Qed.

Lemma tag_skip_ok io len :
  io_wf io -> io_pending io = [] -> 0 < len <= zlen (io_unparsed io) ->
  exists io', iobuf_tag_skip io len = Ok io' /\ io_wf io' /\ recv_pos io' = recv_pos io /\ io_pending io' = [] /\
    io_unparsed io' = zdrop len (io_unparsed io).
Proof.
  intros Hw Hp Hlen. pose proof (io_pending_len io Hw) as Hpl. rewrite Hp in Hpl. unfold iobuf_tag_skip.
  rewrite (bool_decide_eq_true_2 (parse_pos io = done_pos io)) by zlia. cbn [Assert mbind res_bind].
  rewrite amount_parse_len by done. rewrite !bool_decide_eq_true_2 by lia. cbn.
  pose proof (io_unparsed_len io Hw) as Hl.
  destruct Hw as (H1&H2&H3&H4&H5). rewrite u32_small by zlia. eexists; split; [reflexivity|].
  unfold IOBuf.io_wf, io_pending, io_unparsed; simpl. split_and!; auto; try lia.
  - by apply slice_nil.
  - rewrite (slice_split (parse_pos io) (parse_pos io + len) (recv_pos io)) by lia.
    rewrite zdrop_app_ge by zlia. rewrite zdrop_0 by zlia. done.
Qed.

(** Moving the data to the start of the block keeps it, and makes room. *)
Lemma try_resync_ok io small :
  io_wf io ->
  exists io', iobuf_try_resync io small = Ok io' /\ io_wf io' /\
    io_pending io' = io_pending io /\ io_unparsed io' = io_unparsed io /\ recv_pos io' <= recv_pos io.
Proof.
  intros Hw. pose proof (io_pending_len io Hw) as Hpl. pose proof (io_unparsed_len io Hw) as Hul.
  pose proof Hw as (H1&H2&H3&H4&H5). unfold iobuf_try_resync. rewrite u32_small by zlia.
  destruct (decide (recv_pos io - done_pos io = 0)) as [Hz|Hz].
  - rewrite bool_decide_eq_true_2 by done. case_bool_decide; [|by exists io].
    eexists; split; [reflexivity|]. unfold IOBuf.io_wf, io_pending, io_unparsed; simpl.
    rewrite !slice_nil by lia. split_and!; auto; try lia; symmetry; apply slice_nil; lia.
  - rewrite (bool_decide_eq_false_2 (_ = 0)) by done.
    destruct (bool_decide (_ <= small) && bool_decide (_ > 0)) eqn:E; [|by exists io].
    rewrite mem_load_ok by lia. cbn [mbind res_bind].
    replace (done_pos io + (recv_pos io - done_pos io)) with (recv_pos io) by lia.
    set (bs := slice (done_pos io) (recv_pos io) (io_buf io)).
    assert (Hbs : zlen bs = recv_pos io - done_pos io) by (unfold bs; zlia).
    destruct (mem_store_ok (io_buf io) 0 bs) as (m & Hm & Hlen & Hs & _); [lia|lia|].
    rewrite Hm. cbn. rewrite u32_small by zlia. eexists; split; [reflexivity|].
    specialize (Hs 0 ltac:(lia)). rewrite (slice_nil 0 0), Z.add_0_l in Hs by lia. cbn [app] in Hs.
    assert (Hu8 : Forall is_u8 m) by (eapply mem_store_bytes; [exact Hm|done|by apply Forall_slice]).
    unfold IOBuf.io_wf, io_pending, io_unparsed; simpl. split_and!; auto; try lia.
    + transitivity (slice 0 (parse_pos io - done_pos io) bs).
      * rewrite <- Hs, slice_slice by lia. done.
      * unfold bs. rewrite slice_slice by lia. f_equal; lia.
    + transitivity (slice (parse_pos io - done_pos io) (recv_pos io - done_pos io) bs).
      * rewrite <- Hs, slice_slice by lia. f_equal; lia.
      * unfold bs. rewrite slice_slice by lia. f_equal; lia.
Qed.

End IOBufFacts.
