(* ===== verification/SBuf.v ===== *)
(** * The stream buffer (src/sbuf.c, include/sbuf.h)

    The receive-parse-send machine of one socket.  The kernel, libevent, the
    slab allocator, the TLS library and the protocol callback are parameters
    over an abstract rest of the process [W]; the functions of sbuf.c are
    state-passing code over the buffer and [W].

    The theorems show that the loops end, that the assertions of the machine
    hold, and that the bytes delivered to the destination are exactly what
    the callback's decisions ask for, however the input is cut into reads and
    the output into partial sends. *)

From stdpp Require Import base list option.
From S2P Require Import Prelude MBuf PktBuf Proto IOBuf.

Inductive SBufEvent :=
| SBUF_EV_READ
| SBUF_EV_RECV_FAILED
| SBUF_EV_SEND_FAILED
| SBUF_EV_CONNECT_FAILED
| SBUF_EV_CONNECT_OK
| SBUF_EV_FLUSH
| SBUF_EV_PKT_CALLBACK
| SBUF_EV_TLS_READY.

Inductive TLSState := SBUF_TLS_NONE | SBUF_TLS_DO_HANDSHAKE | SBUF_TLS_IN_HANDSHAKE | SBUF_TLS_OK.
Inductive WaitType := W_NONE | W_CONNECT | W_RECV | W_SEND | W_ONCE.

#[export] Instance SBufEvent_eq_dec : EqDecision SBufEvent.
Proof. solve_decision. Defined.
#[export] Instance TLSState_eq_dec : EqDecision TLSState.
Proof. solve_decision. Defined.
#[export] Instance WaitType_eq_dec : EqDecision WaitType.
Proof. solve_decision. Defined.

Definition SBUF_SMALL_PKT : Z := 64.
Definition ACT_UNSET : Z := 0.
Definition ACT_SEND : Z := 1.
Definition ACT_SKIP : Z := 2.
Definition ACT_CALL : Z := 3.

(** [dst] names the target buffer; [ev_initialized] is libevent's test of
    the event handle. *)
Record SBuf := mkSBuf {
  ev_initialized : bool;
  wait_type : WaitType;
  pkt_action : Z;
  tls_state : TLSState;
  sock : Z;
  pkt_remain : Z;
  skip_remain : Z;
  extra_packets : MBuf;
  extra_packet_queue_after : bool;
  dst : option positive;
  io : option IOBuf
}.

(** Field updates. *)
Definition set_wait_type (w : WaitType) (s : SBuf) : SBuf :=
  mkSBuf (ev_initialized s) w (pkt_action s) (tls_state s) (sock s) (pkt_remain s) (skip_remain s)
         (extra_packets s) (extra_packet_queue_after s) (dst s) (io s).
Definition set_ev_initialized (s : SBuf) : SBuf :=
  mkSBuf true (wait_type s) (pkt_action s) (tls_state s) (sock s) (pkt_remain s) (skip_remain s)
         (extra_packets s) (extra_packet_queue_after s) (dst s) (io s).
Definition set_pkt (action remain skip : Z) (s : SBuf) : SBuf :=
  mkSBuf (ev_initialized s) (wait_type s) action (tls_state s) (sock s) remain skip
         (extra_packets s) (extra_packet_queue_after s) (dst s) (io s).
Definition set_extra (m : MBuf) (s : SBuf) : SBuf :=
  mkSBuf (ev_initialized s) (wait_type s) (pkt_action s) (tls_state s) (sock s) (pkt_remain s) (skip_remain s)
         m (extra_packet_queue_after s) (dst s) (io s).
Definition set_dst (d : option positive) (s : SBuf) : SBuf :=
  mkSBuf (ev_initialized s) (wait_type s) (pkt_action s) (tls_state s) (sock s) (pkt_remain s) (skip_remain s)
         (extra_packets s) (extra_packet_queue_after s) d (io s).
Definition set_io (i : option IOBuf) (s : SBuf) : SBuf :=
  mkSBuf (ev_initialized s) (wait_type s) (pkt_action s) (tls_state s) (sock s) (pkt_remain s) (skip_remain s)
         (extra_packets s) (extra_packet_queue_after s) (dst s) i.

(** [memset] to zero; the callback and the operations are parameters here. *)
Definition sbuf_init : SBuf :=
  mkSBuf false W_NONE 0 SBUF_TLS_NONE 0 0 0 mbuf_init_dynamic false None None.

Definition sbuf_is_empty (s : SBuf) : bool := iobuf_empty (io s) && bool_decide (pkt_remain s = 0).
Definition sbuf_is_closed (s : SBuf) : bool := bool_decide (sock s = 0).

(** The outcome of [recv]: data, end of file, EAGAIN, another error. *)
Inductive recvres := RecvData (bs : list Z) | RecvEof | RecvAgain | RecvFail.

(** ** What the machine runs on *)
Record SBufEnv (W : Type) := mkSBufEnv {
  op_send : positive -> list Z -> W -> iores * W;
  op_recv : Z -> W -> recvres * W;
  op_pending : W -> Z;
  op_close : W -> W;
  dst_sock : positive -> W -> Z;
  event_del : W -> bool * W;
  event_add : W -> bool * W;
  slab_alloc : W -> option (list Z) * W;
  proto_cb : SBufEvent -> MBuf -> SM (SBuf * W) bool;
  handle_tls_handshake : SM (SBuf * W) bool
}.
Arguments op_send {W} s. Arguments op_recv {W} s. Arguments op_pending {W} s. Arguments op_close {W} s.
Arguments dst_sock {W} s. Arguments event_del {W} s. Arguments event_add {W} s.
Arguments slab_alloc {W} s. Arguments proto_cb {W} s. Arguments handle_tls_handshake {W} s.

Section SBufOps.
Context `{Realloc} {W : Type} (E : SBufEnv W) (cf_sbuf_len cf_sbuf_loopcnt : Z).

#[local] Abbreviation M := (SM (SBuf * W)).

Definition sb : M SBuf := fun s => Ok (s.1, s).
Definition upd (f : SBuf -> SBuf) : M unit := fun s => Ok (tt, (f s.1, s.2)).
Definition ask {A} (f : W -> A * W) : M A := fun s => let '(a, w) := f s.2 in Ok (a, (s.1, w)).

(** The buffer behind [sbuf->io]; a NULL pointer is dereferenced otherwise. *)
Definition the_io : M IOBuf := s ← sb; lift (match io s with Some i => Ok i | None => Undef end).
Definition put_io (i : IOBuf) : M unit := upd (set_io (Some i)).

Definition AssertSanity : M unit := s ← sb; AssertS (iobuf_sane cf_sbuf_len (io s)).
Definition AssertActive : M unit := s ← sb; _ ← AssertS (bool_decide (sock s > 0)); AssertSanity.

Definition sbuf_call_proto (event : SBufEvent) : M bool :=
  _ ← AssertSanity;
  s ← sb;
  mbuf ← match event with
         | SBUF_EV_READ =>
             i ← the_io; _ ← AssertS (bool_decide (iobuf_amount_parse i > 0)); mret (iobuf_parse_all i).1
         | SBUF_EV_PKT_CALLBACK => i ← the_io; mret (iobuf_parse_limit i (pkt_remain s)).1
         | _ => mret mbuf_zero
         end;
  r ← proto_cb E event mbuf;
  _ ← AssertSanity;
  s ← sb;
  _ ← AssertS (negb (bool_decide (event = SBUF_EV_READ)) || negb r || bool_decide (sock s > 0));
  mret r.

Definition sbuf_event_remove : M bool :=
  s ← sb;
  if negb (ev_initialized s) then _ ← upd (set_wait_type W_NONE); mret true
  else
    ok ← ask (event_del E);
    _ ← upd (set_wait_type W_NONE);
    mret ok.

(** [event_assign] and [event_add] on the buffer's event. *)
Definition assign_and_add : M bool := _ ← upd set_ev_initialized; ask (event_add E).

Definition sbuf_wait_for_data : M bool :=
  ok ← sbuf_event_remove;
  if negb ok then mret false
  else
    ok ← assign_and_add;
    if negb ok then mret false
    else _ ← upd (set_wait_type W_RECV); mret true.

Definition sbuf_wait_for_data_forced : M bool :=
  s ← sb;
  if bool_decide (sock s = 0) then mret false
  else
    ok ← sbuf_event_remove;
    if negb ok then mret false
    else
      ok ← assign_and_add;
      if negb ok then mret false
      else _ ← upd (set_wait_type W_ONCE); mret true.

Definition sbuf_use_callback_once : M bool :=
  _ ← AssertActive;
  ok ← sbuf_event_remove;
  if negb ok then mret false
  else
    ok ← assign_and_add;
    if negb ok then mret false
    else _ ← upd (set_wait_type W_ONCE); mret true.

Definition sbuf_pause : M bool :=
  _ ← AssertActive;
  s ← sb;
  _ ← AssertS (bool_decide (wait_type s = W_RECV));
  ok ← ask (event_del E);
  if negb ok then mret false
  else _ ← upd (set_wait_type W_NONE); mret true.

Definition sbuf_close : M bool :=
  s ← sb;
  _ ← (if negb (bool_decide (wait_type s = W_NONE)) then
         _ ← AssertS (negb (bool_decide (sock s = 0)));
         _ ← ask (event_del E);
         mret tt
       else mret tt);
  _ ← ask (fun w => (tt, op_close E w));
  _ ← upd (fun s => mkSBuf (ev_initialized s) W_NONE 0 (tls_state s) 0 0 (skip_remain s)
                      (mbuf_free (extra_packets s)) (extra_packet_queue_after s) None None);
  mret true.

(** ** Decisions of the protocol callback *)

Definition sbuf_prepare_send (d : positive) (amount : Z) : M unit :=
  _ ← AssertActive;
  s ← sb;
  _ ← AssertS (bool_decide (pkt_remain s = 0));
  _ ← AssertS (bool_decide (amount > 0));
  _ ← upd (fun s => set_pkt ACT_SEND amount (skip_remain s) s);
  upd (set_dst (Some d)).

Definition sbuf_prepare_skip (amount : Z) : M unit :=
  _ ← AssertActive;
  s ← sb;
  _ ← AssertS (bool_decide (pkt_remain s = 0));
  _ ← AssertS (bool_decide (amount > 0));
  upd (set_pkt ACT_SKIP amount amount).

Definition sbuf_prepare_skip_then_send_leftover (d : positive) (skip_amount total_amount : Z) : M unit :=
  _ ← AssertActive;
  s ← sb;
  _ ← AssertS (bool_decide (pkt_remain s = 0));
  _ ← AssertS (bool_decide (total_amount > 0));
  _ ← AssertS (bool_decide (total_amount >= skip_amount));
  _ ← upd (set_pkt ACT_SKIP total_amount skip_amount);
  upd (set_dst (Some d)).

Definition sbuf_prepare_fetch (amount : Z) : M unit :=
  _ ← AssertActive;
  s ← sb;
  _ ← AssertS (bool_decide (pkt_remain s = 0));
  _ ← AssertS (bool_decide (amount > 0));
  upd (set_pkt ACT_CALL amount amount).

(** Nothing parsed waits to be sent, or the packet goes after the current. *)
Definition assert_queueable : M unit :=
  s ← sb;
  AssertS (extra_packet_queue_after s ||
           match io s with None => true | Some i => bool_decide (iobuf_amount_pending i = 0) end).

(** [mbuf_write(&src->extra_packets, ...)] *)
Definition write_extra (bs : list Z) : M bool :=
  s ← sb;
  '(ok, m) ← lift (mbuf_write (extra_packets s) bs);
  _ ← upd (set_extra m);
  mret ok.

(** [pkt] is [None] for the NULL pointer; it is freed by the call. *)
Definition sbuf_queue_packet (d : positive) (pkt : option PktBuf) : M bool :=
  _ ← AssertActive;
  _ ← assert_queueable;
  match pkt with
  | None => mret false
  | Some p =>
      if pb_failed p then mret false
      else
        _ ← upd (set_dst (Some d));
        bs ← lift (mem_load (pb_buf p) 0 (pb_write_pos p));
        write_extra bs
  end.

Definition sbuf_queue_full_packet (d : positive) (pkt : PktHdr) : M bool :=
  _ ← AssertActive;
  _ ← assert_queueable;
  _ ← AssertS (negb (incomplete_pkt pkt));
  _ ← AssertS (bool_decide (read_pos (pkt_data pkt) = 0));
  _ ← upd (set_dst (Some d));
  bs ← lift (mem_load (mbuf_data (pkt_data pkt)) 0 (write_pos (pkt_data pkt)));
  write_extra bs.

(** ** Sending *)

Definition the_dst : M positive := s ← sb; lift (match dst s with Some d => Ok d | None => Undef end).

Definition sbuf_queue_send : M bool :=
  _ ← AssertActive;
  s ← sb;
  _ ← AssertS (bool_decide (wait_type s = W_RECV));
  ok ← ask (event_del E);
  _ ← upd (set_wait_type W_NONE);
  if negb ok then mret false
  else
    _ ← the_dst;
    ok ← assign_and_add;
    if negb ok then mret false
    else _ ← upd (set_wait_type W_SEND); mret true.

(** What both send loops do when [send] failed: wait for the destination on
    EAGAIN, otherwise report the failure. *)
Definition send_failed (again : bool) : M bool :=
  _ ← (if again then
         ok ← sbuf_queue_send;
         if negb ok then _ ← sbuf_call_proto SBUF_EV_SEND_FAILED; mret tt else mret tt
       else _ ← sbuf_call_proto SBUF_EV_SEND_FAILED; mret tt);
  mret false.

Definition send_to (d : positive) (bs : list Z) : M iores := ask (op_send E d bs).

(** [self] names the buffer itself; the result of [send] is compared as
    unsigned. *)
Definition sbuf_answer (self : positive) (bs : list Z) : M bool :=
  s ← sb;
  if bool_decide (sock s <= 0) then mret false
  else
    r ← send_to self bs;
    mret (bool_decide (u32 (match r with IoOk n => n | _ => -1 end) = zlen bs)).

Definition dst_closed (d : positive) : M bool := fun s => Ok (bool_decide (dst_sock E d s.2 = 0), s).

Fixpoint send_iobuf_loop (fuel : nat) : M bool :=
  match fuel with
  | O => fun _ => NoFuel
  | S fuel =>
      i ← the_io;
      let avail := iobuf_amount_pending i in
      if bool_decide (avail = 0) then mret true
      else
        d ← the_dst;
        closed ← dst_closed d;
        if closed : bool then _ ← sbuf_call_proto SBUF_EV_SEND_FAILED; mret false
        else
          bs ← lift (mem_load (io_buf i) (done_pos i) avail);
          r ← send_to d bs;
          match r with
          | IoOk n =>
              _ ← put_io (mkIOBuf (u32 (done_pos i + n)) (parse_pos i) (recv_pos i) (io_buf i));
              _ ← AssertActive;
              send_iobuf_loop fuel
          | IoAgain => send_failed true
          | IoFail => send_failed false
          end
  end.

(** Every round that does not return sends at least one byte. *)
Definition sbuf_send_pending_iobuf : M bool :=
  _ ← AssertActive;
  i ← the_io;
  s ← sb;
  _ ← AssertS (match dst s with Some _ => true | None => bool_decide (iobuf_amount_pending i = 0) end);
  send_iobuf_loop (S (Z.to_nat (iobuf_amount_pending i))).

Definition sbuf_flush : M bool :=
  s ← sb;
  match io s with
  | Some _ => sbuf_send_pending_iobuf
  | None => mret true
  end.

Fixpoint send_extra_loop (fuel : nat) : M bool :=
  match fuel with
  | O => fun _ => NoFuel
  | S fuel =>
      s ← sb;
      let m := extra_packets s in
      let avail := mbuf_avail_for_read m in
      if bool_decide (avail = 0) then mret true
      else
        d ← the_dst;
        closed ← dst_closed d;
        if closed : bool then _ ← sbuf_call_proto SBUF_EV_SEND_FAILED; mret false
        else
          bs ← lift (mem_load (mbuf_data m) (read_pos m) avail);
          r ← send_to d bs;
          match r with
          | IoOk n =>
              _ ← upd (set_extra (set_read_pos m (u32 (read_pos m + n))));
              _ ← AssertActive;
              send_extra_loop fuel
          | IoAgain => send_failed true
          | IoFail => send_failed false
          end
  end.

Definition sbuf_send_pending_extra_packets : M bool :=
  _ ← AssertActive;
  s ← sb;
  _ ← AssertS (match dst s with Some _ => true
               | None => bool_decide (mbuf_avail_for_read (extra_packets s) = 0) end);
  send_extra_loop (S (Z.to_nat (mbuf_avail_for_read (extra_packets s)))).

(** ** Processing *)

Definition sbuf_is_recv_active : M bool :=
  s ← sb;
  mret (negb (bool_decide (sock s = 0)) && (match io s with Some _ => true | None => false end)
        && bool_decide (wait_type s = W_RECV)).

(** How one round of the loop of [sbuf_process_pending] ends. *)
Inductive loop_exit := LoopAgain | LoopBreak | LoopFalse | LoopNeedMore.

(** The top of the loop: extra packets of the previous packet go first. *)
Definition flush_extra : M bool :=
  s ← sb;
  if bool_decide (mbuf_avail_for_read (extra_packets s) = 0) then mret true
  else
    ok ← (if extra_packet_queue_after s then sbuf_send_pending_iobuf else mret true);
    if negb ok then mret false
    else
      ok ← sbuf_send_pending_extra_packets;
      if negb ok then mret false
      else
        s ← sb;
        _ ← upd (set_extra (if bool_decide (alloc_len (extra_packets s) > u32 (cf_sbuf_len * 4))
                            then mbuf_free (extra_packets s)
                            else mbuf_rewind_writer (extra_packets s)));
        mret true.

(** The case ACT_SKIP, on [avail] bytes. *)
Definition skip_packet (avail : Z) : M unit :=
  s ← sb;
  i ← the_io;
  if bool_decide (skip_remain s >= avail) then
    i ← lift (iobuf_tag_skip i avail);
    _ ← put_io i;
    upd (fun s => set_pkt (pkt_action s) (pkt_remain s) (u32 (skip_remain s - avail)) s)
  else
    i ← (if negb (bool_decide (skip_remain s = 0)) then lift (iobuf_tag_skip i (skip_remain s))
         else mret i);
    i ← lift (iobuf_tag_send i (u32 (avail - skip_remain s)));
    _ ← put_io i;
    upd (fun s => set_pkt (pkt_action s) (pkt_remain s) 0 s).

(** [sbuf->pkt_remain -= avail] at the end of a round. *)
Definition consume (avail : Z) : M loop_exit :=
  _ ← upd (fun s => set_pkt (pkt_action s) (u32 (pkt_remain s - avail)) (skip_remain s) s);
  mret LoopAgain.

(** The switch on [sbuf->pkt_action]. *)
Definition packet_action (avail : Z) : M loop_exit :=
  s ← sb;
  if bool_decide (pkt_action s = ACT_SEND) then
    i ← the_io;
    i ← lift (iobuf_tag_send i avail);
    _ ← put_io i;
    consume avail
  else if bool_decide (pkt_action s = ACT_CALL) then
    ok ← sbuf_call_proto SBUF_EV_PKT_CALLBACK;
    if negb ok then mret LoopNeedMore
    else
      s ← sb;
      match io s with
      | None => mret LoopFalse
      | Some _ => _ ← skip_packet avail; consume avail
      end
  else if bool_decide (pkt_action s = ACT_SKIP) then _ ← skip_packet avail; consume avail
  else consume avail.

(** After the header of the packet is known: send what waits before bytes are
    skipped, then act on the part of the packet that is there. *)
Definition process_packet (avail : Z) : M loop_exit :=
  s ← sb;
  i ← the_io;
  ok ← (if bool_decide (pkt_action s = ACT_SKIP \/ pkt_action s = ACT_CALL) then
          if bool_decide (iobuf_amount_pending i > 0) then sbuf_send_pending_iobuf else mret true
        else mret true);
  if negb ok then mret LoopFalse
  else
    s ← sb;
    packet_action (if bool_decide (avail > pkt_remain s) then pkt_remain s else avail).

(** One round; [full] was computed before the loop. *)
Definition process_round (full : bool) : M loop_exit :=
  ok ← flush_extra;
  if negb ok then mret LoopFalse
  else
    _ ← AssertActive;
    i ← the_io;
    let avail := iobuf_amount_parse i in
    if bool_decide (avail = 0) || (full && bool_decide (avail <= SBUF_SMALL_PKT)) then mret LoopBreak
    else
      s ← sb;
      if bool_decide (pkt_remain s = 0) then
        ok ← sbuf_call_proto SBUF_EV_READ;
        if negb ok then mret LoopNeedMore
        else
          s ← sb;
          _ ← AssertS (bool_decide (pkt_remain s > 0));
          match io s with
          | None => mret LoopFalse
          | Some _ => process_packet avail
          end
      else process_packet avail.

Fixpoint process_loop (fuel : nat) (full : bool) : M loop_exit :=
  match fuel with
  | O => fun _ => NoFuel
  | S fuel =>
      r ← process_round full;
      match r with
      | LoopAgain => process_loop fuel full
      | _ => mret r
      end
  end.

(** The label [need_more_data]. The local [io] is [sbuf->io] whenever the
    buffer still receives. *)
Definition need_more_data : M bool :=
  _ ← upd (fun s => set_extra (mbuf_rewind_writer (extra_packets s)) s);
  active ← sbuf_is_recv_active;
  if negb active then mret false
  else
    i ← the_io;
    ok ← (if bool_decide (iobuf_amount_pending i > 0) then sbuf_send_pending_iobuf else mret true);
    if negb ok then mret false
    else
      i ← the_io;
      _ ← (if bool_decide (recv_pos i = u32 cf_sbuf_len)
           then i ← lift (iobuf_try_resync i cf_sbuf_len); put_io i else mret tt);
      mret false.

(** Every round but the last takes at least one byte of the unparsed ones. *)
Definition sbuf_process_pending : M bool :=
  i ← the_io;
  let full := bool_decide (iobuf_amount_recv cf_sbuf_len i <= 0) in
  r ← process_loop (S (S (Z.to_nat (iobuf_amount_parse i)))) full;
  match r with
  | LoopNeedMore => need_more_data
  | LoopFalse => mret false
  | _ => sbuf_send_pending_iobuf
  end.

(** ** Receiving *)

Definition sbuf_try_resync (release : bool) : M unit :=
  _ ← AssertActive;
  s ← sb;
  match io s with
  | None => mret tt
  | Some i =>
      if release && iobuf_empty (Some i) then upd (set_io None)
      else i ← lift (iobuf_try_resync i SBUF_SMALL_PKT); put_io i
  end.

Definition sbuf_actual_recv (len : Z) : M bool :=
  i ← the_io;
  let avail := iobuf_amount_recv cf_sbuf_len i in
  let len := if bool_decide (len > avail) then avail else len in
  got ← ask (op_recv E len);
  match got with
  | RecvData bs =>
      m ← lift (mem_store (io_buf i) (recv_pos i) bs);
      _ ← put_io (mkIOBuf (done_pos i) (parse_pos i) (u32 (recv_pos i + zlen bs)) m);
      mret true
  | RecvEof => _ ← sbuf_call_proto SBUF_EV_RECV_FAILED; mret false
  | RecvFail => _ ← sbuf_call_proto SBUF_EV_RECV_FAILED; mret false
  | RecvAgain => mret true
  end.

Definition allocate_iobuf : M bool :=
  s ← sb;
  match io s with
  | Some _ => mret true
  | None =>
      m ← ask (slab_alloc E);
      match m with
      | None => _ ← sbuf_call_proto SBUF_EV_RECV_FAILED; mret false
      | Some m => _ ← put_io (iobuf_reset (mkIOBuf 0 0 0 m)); mret true
      end
  end.

(** After the loop: release or resync the buffer, tell the protocol, and
    start a TLS handshake if one is due.  The code assigns the handshake
    state to [pkt_action]. *)
Definition main_loop_end : M unit :=
  _ ← sbuf_try_resync true;
  s ← sb;
  _ ← (if sbuf_is_empty s then _ ← sbuf_call_proto SBUF_EV_FLUSH; mret tt else mret tt);
  s ← sb;
  if bool_decide (tls_state s = SBUF_TLS_DO_HANDSHAKE) then
    _ ← upd (fun s => set_pkt 2 (pkt_remain s) (skip_remain s) s);
    ok ← handle_tls_handshake E;
    if negb ok then _ ← sbuf_call_proto SBUF_EV_RECV_FAILED; mret tt else mret tt
  else mret tt.

Definition op_pending_bytes : M Z := fun s => Ok (op_pending E s.2, s).

(** The part of the loop from [skip_recv] on; [again] is the jump to
    [try_more]. *)
Definition main_loop_handle (again : M unit) : M unit :=
  ok ← sbuf_process_pending;
  if negb ok then
    active ← sbuf_is_recv_active;
    if active : bool then
      i ← the_io;
      pending ← op_pending_bytes;
      if bool_decide (iobuf_amount_recv cf_sbuf_len i > 0) && bool_decide (pending > 0) then again
      else mret tt
    else mret tt
  else
    i ← the_io;
    if bool_decide (iobuf_amount_recv cf_sbuf_len i <= 0) then again else main_loop_end.

(** The loop from [try_more] on, with [loopcnt] rounds done. *)
Fixpoint main_loop_recv (fuel : nat) (loopcnt : Z) : M unit :=
  match fuel with
  | O => fun _ => NoFuel
  | S fuel =>
      _ ← sbuf_try_resync false;
      if bool_decide (cf_sbuf_loopcnt > 0) && bool_decide (loopcnt >= cf_sbuf_loopcnt) then
        _ ← sbuf_process_pending;
        s ← sb;
        if bool_decide (sock s = 0) || negb (bool_decide (wait_type s = W_RECV)) then mret tt
        else
          ok ← sbuf_wait_for_data_forced;
          if negb ok then _ ← sbuf_call_proto SBUF_EV_RECV_FAILED; mret tt else mret tt
      else
        i ← the_io;
        let free := iobuf_amount_recv cf_sbuf_len i in
        ok ← (if bool_decide (free > 0) then sbuf_actual_recv free else mret true);
        if negb ok then mret tt
        else main_loop_handle (main_loop_recv fuel (loopcnt + 1))
  end.

Definition sbuf_main_loop (fuel : nat) (skip_recv : bool) : M unit :=
  s ← sb;
  if bool_decide (sock s = 0) then mret tt
  else
    _ ← AssertS (bool_decide (wait_type s = W_RECV));
    _ ← AssertSanity;
    ok ← allocate_iobuf;
    if negb ok then mret tt
    else if skip_recv then main_loop_handle (main_loop_recv fuel 0)
    else main_loop_recv fuel 0.

(** ** Entry points *)

Definition sbuf_continue (fuel : nat) : M unit :=
  _ ← AssertActive;
  ok ← sbuf_wait_for_data;
  if negb ok then _ ← sbuf_call_proto SBUF_EV_RECV_FAILED; mret tt
  else sbuf_main_loop fuel false.

Definition sbuf_recv_cb (fuel : nat) : M unit := sbuf_main_loop fuel false.

Definition sbuf_recv_forced_cb (fuel : nat) : M unit :=
  _ ← upd (set_wait_type W_NONE);
  ok ← sbuf_wait_for_data;
  if ok : bool then sbuf_recv_cb fuel else _ ← sbuf_call_proto SBUF_EV_RECV_FAILED; mret tt.

Definition sbuf_send_cb (fuel : nat) : M unit :=
  s ← sb;
  if bool_decide (sock s = 0) then mret tt
  else
    _ ← AssertSanity;
    _ ← AssertS (bool_decide (wait_type s = W_SEND));
    _ ← upd (set_wait_type W_NONE);
    ok ← sbuf_wait_for_data;
    if ok : bool then sbuf_main_loop fuel true
    else _ ← sbuf_call_proto SBUF_EV_SEND_FAILED; mret tt.

(** [writable] is [flags & EV_WRITE], [check] the result of
    [sbuf_after_connect_check]. *)
Definition sbuf_connect_cb (writable check : bool) : M unit :=
  s ← sb;
  _ ← AssertS (bool_decide (wait_type s = W_CONNECT) || bool_decide (wait_type s = W_NONE));
  _ ← upd (set_wait_type W_NONE);
  let failed := (_ ← sbuf_call_proto SBUF_EV_CONNECT_FAILED; mret tt) in
  if negb writable then failed
  else if negb check then failed
  else
    ok ← sbuf_call_proto SBUF_EV_CONNECT_OK;
    if negb ok then mret tt
    else
      ok ← sbuf_wait_for_data;
      if negb ok then failed else mret tt.

End SBufOps.

(** ** Running the machine *)

Section SBufRun.
Context `{Realloc} {W : Type} (E : SBufEnv W) (cf_sbuf_len cf_sbuf_loopcnt : Z).
#[local] Abbreviation M := (SM (SBuf * W)).
Implicit Types (s : SBuf * W).

Lemma bind_sb {B} (k : SBuf -> M B) s : (sb ≫= k) s = k s.1 s.
Proof. reflexivity. Qed.

Lemma bind_upd {B} f (k : unit -> M B) s : (upd f ≫= k) s = k tt (f s.1, s.2).
Proof. reflexivity. Qed.

Lemma bind_put_io {B} i (k : unit -> M B) s : (put_io i ≫= k) s = k tt (set_io (Some i) s.1, s.2).
Proof. reflexivity. Qed.

Lemma bind_ask {A B} f (k : A -> M B) s : (ask f ≫= k) s = k (f s.2).1 (s.1, (f s.2).2).
Proof. unfold mbind, SM_bind, ask. by destruct (f s.2). Qed.

Lemma bind_the_io {B} i (k : IOBuf -> M B) s : io s.1 = Some i -> (the_io ≫= k) s = k i s.
Proof. intros Hi. unfold the_io. rewrite SM_assoc, bind_sb, Hi. done. Qed.

Lemma bind_the_dst {B} d (k : positive -> M B) s : dst s.1 = Some d -> (the_dst ≫= k) s = k d s.
Proof. intros Hd. unfold the_dst. rewrite SM_assoc, bind_sb, Hd. done. Qed.

Lemma bind_active {B} (k : unit -> M B) s :
  sock s.1 > 0 -> iobuf_sane cf_sbuf_len (io s.1) = true -> (AssertActive cf_sbuf_len ≫= k) s = k tt s.
Proof.
  intros Hs Hi. unfold AssertActive, AssertSanity. rewrite SM_assoc, bind_sb.
  rewrite bool_decide_eq_true_2 by done. rewrite SM_assoc, bind_assert, SM_assoc, bind_sb, Hi. done.
Qed.

Lemma bind_sane {B} (k : unit -> M B) s :
  iobuf_sane cf_sbuf_len (io s.1) = true -> (AssertSanity cf_sbuf_len ≫= k) s = k tt s.
Proof. intros Hi. unfold AssertSanity. rewrite SM_assoc, bind_sb, Hi. done. Qed.

End SBufRun.

#[export] Hint Rewrite @bind_sb @bind_upd @bind_put_io @bind_ask : sm.

(** ** Relaying

    The callback of this section decides from the unparsed bytes alone, and
    all packets go to one destination [D].  [trace] is what that socket has
    accepted so far. *)
Inductive decision :=
| DSend (n : Z)
| DSkip (n : Z)
| DSkipSend (k n : Z).

(** Bytes of the packet, and how many of them are dropped at its start. *)
Definition total_of (d : decision) : Z := match d with DSend n | DSkip n | DSkipSend _ n => n end.
Definition skip_of (d : decision) : Z := match d with DSend _ => 0 | DSkip n => n | DSkipSend k _ => k end.

Section Relay.
Context `{Realloc} {W : Type} (E : SBufEnv W) (cf_sbuf_len : Z) (D : positive).
Variable decide_packet : list Z -> option decision.
Variable trace : W -> list Z.
#[local] Abbreviation M := (SM (SBuf * W)).
Implicit Types (s : SBuf * W).

Definition decision_cb (m : MBuf) : M bool :=
  match decide_packet (mbuf_view m) with
  | None => mret false
  | Some (DSend n) => _ ← sbuf_prepare_send cf_sbuf_len D n; mret true
  | Some (DSkip n) => _ ← sbuf_prepare_skip cf_sbuf_len n; mret true
  | Some (DSkipSend k n) => _ ← sbuf_prepare_skip_then_send_leftover cf_sbuf_len D k n; mret true
  end.

Definition closed s : Prop := sock s.1 = 0 /\ io s.1 = None.

(** What is assumed of the surroundings: [send] takes a non-empty part of
    what it is given or none, libevent does not send, a failed send makes the
    protocol close the buffer, and a packet start is decided as above; a
    decision is about at least one byte and does not change when more bytes
    arrive. *)
Record relay_env : Prop := {
  env_send : forall bs w, bs <> [] ->
    match op_send E D bs w with
    | (IoOk n, w') => 0 < n <= zlen bs /\ trace w' = trace w ++ ztake n bs
    | (_, w') => trace w' = trace w
    end;
  env_del : forall w, trace (event_del E w).2 = trace w;
  env_add : forall w, trace (event_add E w).2 = trace w;
  env_failed : forall m s, exists r s',
    proto_cb E SBUF_EV_SEND_FAILED m s = Ok (r, s') /\ closed s' /\ trace s'.2 = trace s.2;
  env_read : forall m s, proto_cb E SBUF_EV_READ m s = decision_cb m s;
  decide_nil : decide_packet [] = None;
  decide_sound : forall v d, decide_packet v = Some d ->
    0 < total_of d <= UINT_MAX /\ 0 <= skip_of d <= total_of d;
  decide_stable : forall v d more, decide_packet v = Some d -> decide_packet (v ++ more) = Some d
}.
Hypothesis env : relay_env.

Definition ready s (i : IOBuf) : Prop :=
  sock s.1 > 0 /\ wait_type s.1 = W_RECV /\ io s.1 = Some i /\ io_wf cf_sbuf_len i.

Definition waiting s (i : IOBuf) : Prop :=
  sock s.1 > 0 /\ wait_type s.1 = W_SEND /\ io s.1 = Some i /\ io_wf cf_sbuf_len i.

(** The packet fields and the target are those of [s]. *)
Definition same_packet s s' : Prop :=
  pkt_action s'.1 = pkt_action s.1 /\ pkt_remain s'.1 = pkt_remain s.1 /\ skip_remain s'.1 = skip_remain s.1 /\
  extra_packets s'.1 = extra_packets s.1 /\ dst s'.1 = dst s.1.

Lemma call_send_failed s :
  iobuf_sane cf_sbuf_len (io s.1) = true ->
  exists r s', sbuf_call_proto E cf_sbuf_len SBUF_EV_SEND_FAILED s = Ok (r, s') /\ closed s' /\ trace s'.2 = trace s.2.
Proof using env.
  intros Hs. destruct (env_failed env mbuf_zero s) as (r & s' & Ecb & [Hc Hi] & Ht).
  exists r, s'. split; [|done]. unfold sbuf_call_proto. rewrite bind_sane by done. autorewrite with sm.
  rewrite (SM_bind_eq _ _ _ _ _ Ecb). rewrite bind_sane by (by rewrite Hi). autorewrite with sm. done.
Qed.

Lemma send_failed_ok again s i :
  ready s i -> dst s.1 = Some D ->
  exists s', send_failed E cf_sbuf_len again s = Ok (false, s') /\ trace s'.2 = trace s.2 /\
    (closed s' \/ (waiting s' i /\ same_packet s s')).
Proof using env.
  intros (Hso & Hwt & Hio & Hwf) Hd. unfold send_failed.
  assert (Hsane : forall s', io s'.1 = Some i -> iobuf_sane cf_sbuf_len (io s'.1) = true).
  { intros s' ->. by apply io_wf_sane. }
  destruct again; autorewrite with sm.
  2:{ destruct (call_send_failed s) as (r & s' & Ec & Hc & Ht); [auto|].
      rewrite (SM_bind_eq _ _ _ _ _ Ec). autorewrite with sm. exists s'. split; [done|]. auto. }
  unfold sbuf_queue_send, assign_and_add. autorewrite with sm. rewrite bind_active by auto. autorewrite with sm.
  rewrite Hwt. rewrite (bool_decide_eq_true_2 (W_RECV = W_RECV)) by done. autorewrite with sm. cbn [fst snd].
  assert (Hfail : forall s', io s'.1 = Some i -> trace s'.2 = trace s.2 ->
    exists s2, ((sbuf_call_proto E cf_sbuf_len SBUF_EV_SEND_FAILED ≫= fun _ => mret tt) ≫= fun _ => mret false) s'
      = Ok (false, s2) /\
      trace s2.2 = trace s.2 /\ (closed s2 \/ (waiting s2 i /\ same_packet s s2))).
  { intros s' Hi' Ht'. destruct (call_send_failed s') as (r & s2 & Ec & Hc & Ht2); [auto|].
    rewrite SM_assoc, (SM_bind_eq _ _ _ _ _ Ec). exists s2. split; [done|]. split; [congruence|auto]. }
  destruct (event_del E s.2) as [ok w1] eqn:Edel. pose proof (env_del env s.2) as Ht1. rewrite Edel in Ht1.
  cbn [fst snd] in *. destruct ok; cbn [negb]; autorewrite with sm; cbn [negb].
  2:{ by apply Hfail. }
  rewrite (bind_the_dst D) by done. autorewrite with sm. cbn [fst snd].
  pose proof (env_add env w1) as Ht2. destruct (event_add E w1) as [ok w2] eqn:Eadd.
  cbn [fst snd] in *. destruct ok; cbn [negb]; autorewrite with sm; cbn [negb].
  - eexists; split; [reflexivity|]. cbn [fst snd]. split; [congruence|]. right. by split.
  - apply Hfail; [done|]. cbn [snd]. congruence.
Qed.

(** How a send loop over the buffer [i] may end. *)
Definition send_result s (i : IOBuf) (r : bool) s' : Prop :=
  exists out rest, io_pending i = out ++ rest /\ trace s'.2 = trace s.2 ++ out /\
    ((r = true /\ rest = [] /\ same_packet s s' /\ exists i', ready s' i' /\ io_pending i' = [] /\
        io_unparsed i' = io_unparsed i /\ recv_pos i' = recv_pos i) \/
     (r = false /\ closed s') \/
     (r = false /\ same_packet s s' /\ exists i', waiting s' i' /\ io_pending i' = rest /\
        io_unparsed i' = io_unparsed i /\ recv_pos i' = recv_pos i)).

(** After [n] bytes of [i] were sent. *)
Lemma sent_io i n :
  io_wf cf_sbuf_len i -> 0 <= n <= zlen (io_pending i) ->
  let i' := mkIOBuf (u32 (done_pos i + n)) (parse_pos i) (recv_pos i) (io_buf i) in
  io_wf cf_sbuf_len i' /\ io_pending i' = zdrop n (io_pending i) /\ io_unparsed i' = io_unparsed i.
Proof using.
  intros Hw Hn i'. rewrite (io_pending_len cf_sbuf_len) in Hn by done.
  destruct Hw as (H1&H2&H3&H4&H5). unfold i', io_wf, io_pending, io_unparsed; simpl.
  rewrite u32_small by zlia. split_and!; auto; try lia.
  rewrite (slice_split (done_pos i) (done_pos i + n) (parse_pos i)) by lia.
  rewrite zdrop_app_ge by zlia. rewrite zdrop_0 by zlia. done.
Qed.

Lemma same_packet_trans s1 s2 s3 : same_packet s1 s2 -> same_packet s2 s3 -> same_packet s1 s3.
Proof using. intros (?&?&?&?&?) (?&?&?&?&?). unfold same_packet. split_and!; congruence. Qed.

Lemma send_loop_ok fuel : forall s i,
  ready s i -> (io_pending i = [] \/ dst s.1 = Some D) -> zlen (io_pending i) < Z.of_nat fuel ->
  exists r s', send_iobuf_loop E cf_sbuf_len fuel s = Ok (r, s') /\ send_result s i r s'.
Proof using env.
  induction fuel as [|fuel IH]; intros s i Hr Hd Hf; [zlia|]. pose proof Hr as (Hso & Hwt & Hio & Hwf).
  cbn [send_iobuf_loop]. rewrite (bind_the_io i) by done. cbn beta zeta. rewrite (amount_pending_len cf_sbuf_len) by done.
  case_bool_decide as Hz.
  { assert (io_pending i = []) as Hnil by (destruct (io_pending i); [done|zlia]).
    exists true, s. split; [done|]. exists [], []. rewrite Hnil. split; [done|]. split; [by rewrite app_nil_r|].
    left. do 2 (split; [done|]). split; [done|]. by exists i. }
  assert (Hne : io_pending i <> []) by (intros Hnil; rewrite Hnil in Hz; done).
  destruct Hd as [Hd|Hd]; [done|]. rewrite (bind_the_dst D) by done.
  assert (Hsane : iobuf_sane cf_sbuf_len (io s.1) = true) by (rewrite Hio; by apply io_wf_sane).
  unfold dst_closed. erewrite SM_bind_eq by reflexivity. case_bool_decide as Hcl.
  { destruct (call_send_failed s Hsane) as (r & s' & Ec & Hc & Ht). rewrite (SM_bind_eq _ _ _ _ _ Ec).
    exists false, s'. split; [done|]. exists [], (io_pending i). rewrite app_nil_r. do 2 (split; [done|]). auto. }
  pose proof Hwf as (H1&H2&H3&H4&H5). pose proof (io_pending_len _ _ Hwf) as Hpl.
  rewrite mem_load_ok by lia. rewrite Hpl. replace (done_pos i + (parse_pos i - done_pos i)) with (parse_pos i) by lia.
  change (slice (done_pos i) (parse_pos i) (io_buf i)) with (io_pending i). autorewrite with sm.
  unfold send_to. autorewrite with sm.
  pose proof (env_send env (io_pending i) s.2 Hne) as Hsend.
  destruct (op_send E D (io_pending i) s.2) as [rr w1]. cbn [fst snd]. destruct rr as [n| |].
  - destruct Hsend as [Hn Ht]. autorewrite with sm. cbn [fst snd].
    destruct (sent_io i n Hwf ltac:(lia)) as (Hwf' & Hp' & Hu'). set (i' := mkIOBuf _ _ _ _) in *.
    assert (Hsane' : iobuf_sane cf_sbuf_len (Some i') = true) by (by apply io_wf_sane).
    rewrite bind_active by (done || cbn; lia).
    destruct (IH (set_io (Some i') s.1, w1) i') as (r & s' & Er & out & rest & Hout & Hts & Hcase).
    { done. } { right. done. } { rewrite Hp'. zlia. }
    exists r, s'. split; [exact Er|]. exists (ztake n (io_pending i) ++ out), rest.
    rewrite <- app_assoc, <- Hout, Hp', ztake_zdrop. cbn [fst snd] in *. rewrite Hts, Ht, <- app_assoc.
    do 2 (split; [done|]). destruct Hcase as [(?&?&?&i2&?&?&?&?)|[?|(?&?&i2&?&?&?&?)]]; [left|auto|right; right].
    + do 2 (split; [done|]). split; [done|]. exists i2. split_and!; auto; congruence.
    + split; [done|]. split; [done|]. exists i2. split_and!; auto; congruence.
  - destruct (send_failed_ok true (s.1, w1) i) as (s' & Es & Ht & Hcase); [done|done|].
    exists false, s'. split; [done|]. exists [], (io_pending i). rewrite app_nil_r. cbn [snd] in Ht.
    split; [done|]. split; [congruence|]. destruct Hcase as [?|[? ?]]; [auto|]. right; right.
    split; [done|]. split; [done|]. by exists i.
  - destruct (send_failed_ok false (s.1, w1) i) as (s' & Es & Ht & Hcase); [done|done|].
    exists false, s'. split; [done|]. exists [], (io_pending i). rewrite app_nil_r. cbn [snd] in Ht.
    split; [done|]. split; [congruence|]. destruct Hcase as [?|[? ?]]; [auto|]. right; right.
    split; [done|]. split; [done|]. by exists i.
Qed.

Lemma send_pending_ok s i :
  ready s i -> (io_pending i = [] \/ dst s.1 = Some D) ->
  exists r s', sbuf_send_pending_iobuf E cf_sbuf_len s = Ok (r, s') /\ send_result s i r s'.
Proof using env.
  intros Hr Hd. pose proof Hr as (Hso & Hwt & Hio & Hwf). unfold sbuf_send_pending_iobuf.
  rewrite bind_active by (done || (rewrite Hio; by apply io_wf_sane)). rewrite (bind_the_io i) by done.
  autorewrite with sm. cbn beta. rewrite (amount_pending_len cf_sbuf_len) by done.
  replace (match dst s.1 with Some _ => true | None => _ end) with true.
  2:{ destruct Hd as [-> | ->]; [|done]. by destruct (dst s.1). }
  autorewrite with sm. apply send_loop_ok; [done|done|]. zlia.
Qed.

(** *** Reference semantics *)

(** The output for the input [v] from a packet boundary on. *)
Fixpoint relay (fuel : nat) (v : list Z) : list Z :=
  match fuel with
  | O => []
  | S fuel =>
      match decide_packet v with
      | None => []
      | Some d => zdrop (skip_of d) (ztake (total_of d) v) ++ relay fuel (zdrop (total_of d) v)
      end
  end.

Definition relayed (v : list Z) : list Z := relay (S (length v)) v.

(** The output inside a packet of which [remain] bytes are left, [skip] of
    them to be dropped. *)
Definition output (remain skip : Z) (v : list Z) : list Z :=
  zdrop skip (ztake remain v) ++ relayed (zdrop remain v).

Lemma relay_enough f1 : forall f2 v,
  (length v < f1)%nat -> (length v < f2)%nat -> relay f1 v = relay f2 v.
Proof using env.
  induction f1 as [|f1 IH]; intros f2 v H1 H2; [lia|]. destruct f2 as [|f2]; [lia|]. cbn [relay].
  destruct (decide_packet v) as [d|] eqn:Ed; [|done]. f_equal.
  destruct (decide_sound env _ _ Ed) as [Hn _].
  assert (length (zdrop (total_of d) v) < length v)%nat.
  { destruct v as [|x v]; [rewrite (decide_nil env) in Ed; done|].
    unfold zdrop. rewrite length_drop. simpl. lia. }
  apply IH; lia.
Qed.

Lemma relayed_step v d :
  decide_packet v = Some d -> relayed v = output (total_of d) (skip_of d) v.
Proof using env.
  intros Ed. unfold relayed at 1, output. cbn [relay]. rewrite Ed. f_equal.
  destruct (decide_sound env _ _ Ed) as [Hn _]. apply relay_enough; [|unfold relayed; lia].
  destruct v as [|x v]; [rewrite (decide_nil env) in Ed; done|].
  unfold zdrop. rewrite length_drop. simpl. lia.
Qed.

(** Taking the bytes [a] of the current packet off the input. *)
Lemma output_app remain skip a b :
  0 <= skip -> zlen a <= remain ->
  output remain skip (a ++ b) = zdrop skip a ++ output (remain - zlen a) (Z.max 0 (skip - zlen a)) b.
Proof using.
  intros Hs Ha. unfold output. rewrite ztake_app_ge by done. rewrite app_assoc. f_equal.
  - destruct (decide (skip <= zlen a)).
    + rewrite zdrop_app_le by done. rewrite (zdrop_0 (Z.max _ _)) by lia. done.
    + rewrite zdrop_app_ge by lia. unfold zdrop at 2. rewrite drop_ge by (unfold zlen in *; lia).
      cbn [app]. f_equal. lia.
  - by rewrite zdrop_app_ge.
Qed.

Lemma output_0 skip v : output 0 skip v = relayed v.
Proof using.
  unfold output. rewrite ztake_nonpos, (zdrop_0 0) by lia. unfold zdrop. by rewrite drop_nil.
Qed.

(** *** The invariant *)

Definition pkt_skip s : Z := if bool_decide (pkt_action s.1 = ACT_SEND) then 0 else skip_remain s.1.

(** The fields of the packet in progress are consistent. *)
Definition pkt_ok s : Prop :=
  pkt_remain s.1 = 0 \/
  (0 < pkt_remain s.1 <= UINT_MAX /\
   ((pkt_action s.1 = ACT_SEND /\ dst s.1 = Some D) \/
    (pkt_action s.1 = ACT_SKIP /\ 0 <= skip_remain s.1 <= pkt_remain s.1 /\
     (skip_remain s.1 < pkt_remain s.1 -> dst s.1 = Some D)))).

Definition good s (i : IOBuf) : Prop :=
  pkt_ok s /\ (io_pending i = [] \/ dst s.1 = Some D) /\ mbuf_avail_for_read (extra_packets s.1) = 0.

(** The complete output if [more] still arrives: sent, waiting to be sent,
    and to come from the unparsed bytes. *)
Definition flow s (i : IOBuf) (more : list Z) : list Z :=
  trace s.2 ++ io_pending i ++ output (pkt_remain s.1) (pkt_skip s) (io_unparsed i ++ more).

Definition conserved s i s' i' : Prop := forall more, flow s' i' more = flow s i more.

(** The machine stopped: the connection was closed, having sent a part of
    what it should, or it waits for the destination and nothing is lost. *)
Definition stopped s i s' : Prop :=
  (closed s' /\ forall more, exists rest, flow s i more = trace s'.2 ++ rest) \/
  (exists i', waiting s' i' /\ good s' i' /\ conserved s i s' i').

Lemma same_packet_facts s s' i i' :
  same_packet s s' -> good s i -> (io_pending i' = [] \/ io_pending i <> []) ->
  good s' i' /\ pkt_skip s' = pkt_skip s.
Proof using.
  intros (Ha&Hr&Hs&He&Hd) (Hp&Ht&Hx) Hpend. unfold good, pkt_ok, pkt_skip in *.
  rewrite Ha, Hr, Hs, He, Hd. split; [|done]. split; [done|]. split; [|done].
  destruct Hpend as [?|Hne]; [by left|]. destruct Ht as [?|?]; [done|by right].
Qed.

(** A send loop that did not finish stops the machine. *)
Lemma send_result_stopped s i s' :
  good s i -> send_result s i false s' -> stopped s i s'.
Proof using.
  intros Hg (out & rest & Hout & Htr & [(?&_)|[(_&Hc)|(_&Hsp&i'&Hw&Hp&Hu&Hr)]]); [done|left|right].
  - split; [done|]. intros more. unfold flow. rewrite Htr, Hout.
    exists (rest ++ output (pkt_remain s.1) (pkt_skip s) (io_unparsed i ++ more)). by rewrite <- !app_assoc.
  - exists i'. split; [done|].
    destruct (same_packet_facts s s' i i' Hsp Hg) as [Hg' Hsk].
    { rewrite Hp, Hout. destruct rest; [by left|right]. by destruct out. }
    split; [done|]. intros more. unfold flow. rewrite Htr, Hout, Hp, Hu, Hsk.
    destruct Hsp as (_&->&_). by rewrite <- !app_assoc.
Qed.

Lemma send_result_done s i s' :
  good s i -> send_result s i true s' ->
  exists i', ready s' i' /\ good s' i' /\ conserved s i s' i' /\ io_pending i' = [] /\
    io_unparsed i' = io_unparsed i /\ recv_pos i' = recv_pos i /\ same_packet s s'.
Proof using.
  intros Hg (out & rest & Hout & Htr & [(_&->&Hsp&i'&Hw&Hp&Hu&Hr)|[(?&_)|(?&_)]]); [|done|done].
  exists i'. destruct (same_packet_facts s s' i i' Hsp Hg) as [Hg' Hsk]; [by left|].
  split_and!; auto. intros more. unfold flow. rewrite Htr, Hout, Hp, Hu, Hsk, app_nil_r.
  destruct Hsp as (_&->&_). by rewrite <- !app_assoc.
Qed.

(** *** One packet *)

(** The callback's decision starts a packet and keeps the flow. *)
Lemma decision_ok s i :
  ready s i -> good s i -> pkt_remain s.1 = 0 -> io_unparsed i <> [] ->
  (decide_packet (io_unparsed i) = None /\ sbuf_call_proto E cf_sbuf_len SBUF_EV_READ s = Ok (false, s)) \/
  (exists s', sbuf_call_proto E cf_sbuf_len SBUF_EV_READ s = Ok (true, s') /\
     ready s' i /\ good s' i /\ 0 < pkt_remain s'.1 /\ conserved s i s' i).
Proof using env.
  intros Hr (Hp & Ht & Hx) Hz Hu. pose proof Hr as (Hso & Hwt & Hio & Hwf).
  assert (Hsane : iobuf_sane cf_sbuf_len (io s.1) = true) by (rewrite Hio; by apply io_wf_sane).
  destruct (parse_all_view _ _ Hwf) as (_ & Hv & _).
  assert (Hpos : 0 < zlen (io_unparsed i)) by (destruct (io_unparsed i); [done|zlia]).
  unfold sbuf_call_proto. rewrite bind_sane by done. autorewrite with sm. rewrite (bind_the_io i) by done.
  autorewrite with sm. rewrite (amount_parse_len cf_sbuf_len), (bool_decide_eq_true_2 (zlen (io_unparsed i) > 0)) by (done || lia).
  autorewrite with sm. cbn beta.
  assert (Hcb : proto_cb E SBUF_EV_READ (iobuf_parse_all i).1 s = decision_cb (iobuf_parse_all i).1 s)
    by apply (env_read env).
  unfold decision_cb in Hcb. rewrite Hv in Hcb. destruct (decide_packet (io_unparsed i)) as [d|] eqn:Ed.
  - right. destruct (decide_sound env _ _ Ed) as [Htot Hskip].
    assert (Hdec : exists s', proto_cb E SBUF_EV_READ (iobuf_parse_all i).1 s = Ok (true, s') /\
      ready s' i /\ good s' i /\ pkt_remain s'.1 = total_of d /\ pkt_skip s' = skip_of d /\ s'.2 = s.2).
    { destruct d as [n|n|k n]; cbn [total_of skip_of] in *; rewrite Hcb;
        unfold sbuf_prepare_send, sbuf_prepare_skip, sbuf_prepare_skip_then_send_leftover;
        rewrite SM_assoc, bind_active by done; autorewrite with sm; rewrite Hz;
        rewrite !bool_decide_eq_true_2 by lia; autorewrite with sm;
        (eexists; split; [reflexivity|]); cbn [fst snd];
        (split; [done|]); (split; [|done]); unfold good, pkt_ok; cbn; split_and!; auto; right;
        (split; [lia|]); auto.
      right. split_and!; auto; lia. }
    destruct Hdec as (s' & E' & Hr' & Hg' & Hrem & Hsk & Hw').
    rewrite (SM_bind_eq _ _ _ _ _ E'). pose proof Hr' as (Hso' & _ & Hio' & _).
    rewrite bind_sane by (rewrite Hio'; by apply io_wf_sane). autorewrite with sm.
    rewrite (bool_decide_eq_true_2 (sock s'.1 > 0)) by done. rewrite orb_true_r. autorewrite with sm.
    exists s'. split; [done|]. split_and!; auto; [lia|]. intros more. unfold flow. rewrite Hw', Hrem, Hsk, Hz.
    rewrite output_0. do 2 f_equal. symmetry. apply relayed_step. by apply (decide_stable env).
  - left. split; [done|]. rewrite (SM_bind_eq _ _ _ _ _ Hcb). rewrite bind_sane by done. autorewrite with sm. done.
Qed.

(** A round went on: part of the input was taken, nothing was lost. *)
Definition advanced s i s' : Prop :=
  exists i', ready s' i' /\ good s' i' /\ conserved s i s' i' /\
    zlen (io_unparsed i') < zlen (io_unparsed i) /\ recv_pos i' = recv_pos i.

Lemma action_send_ok s i n :
  ready s i -> good s i -> pkt_action s.1 = ACT_SEND -> 0 < n <= pkt_remain s.1 -> n <= zlen (io_unparsed i) ->
  exists s', packet_action E cf_sbuf_len n s = Ok (LoopAgain, s') /\ advanced s i s'.
Proof using.
  intros (Hso & Hwt & Hio & Hwf) (Hp & Ht & Hx) Ha Hn Hu.
  destruct Hp as [?|[Hrem [[_ Hd]|[Ha' _]]]]; [lia| |by rewrite Ha in Ha'].
  unfold packet_action. autorewrite with sm. rewrite Ha. rewrite bool_decide_eq_true_2 by done.
  rewrite (bind_the_io i) by done.
  destruct (tag_send_ok _ i n Hwf) as (i' & Etag & Hwf' & Hrp & Hp' & Hu'); [lia|].
  rewrite Etag. unfold consume. autorewrite with sm. cbn [fst snd]. rewrite u32_small by (cbn; lia).
  eexists; split; [reflexivity|]. exists i'. split; [done|].
  split; [|split; [|split; [rewrite Hu'; zlia|done]]].
  - unfold good, pkt_ok; cbn. split_and!; auto. destruct (decide (pkt_remain s.1 - n = 0)); [by left|right].
    split; [lia|]. left. split; [done|]. done.
  - intros more. unfold flow, pkt_skip; cbn [fst snd set_pkt pkt_remain pkt_action skip_remain set_io].
    rewrite Ha. rewrite bool_decide_eq_true_2 by done. rewrite Hp', Hu', <- !app_assoc. f_equal. f_equal.
    symmetry. rewrite <- (ztake_zdrop n (io_unparsed i)) at 1. rewrite <- app_assoc, output_app by zlia.
    rewrite zdrop_0, zlen_ztake by lia. f_equal. f_equal; lia.
Qed.

Lemma action_skip_ok s i n :
  ready s i -> good s i -> pkt_action s.1 = ACT_SKIP -> io_pending i = [] ->
  0 < n <= pkt_remain s.1 -> n <= zlen (io_unparsed i) ->
  exists s', packet_action E cf_sbuf_len n s = Ok (LoopAgain, s') /\ advanced s i s'.
Proof using.
  intros (Hso & Hwt & Hio & Hwf) (Hp & Ht & Hx) Ha Hpend Hn Hu.
  destruct Hp as [?|[Hrem [[Ha' _]|[_ [Hsk Hd]]]]]; [lia|by rewrite Ha in Ha'|].
  unfold packet_action. autorewrite with sm. rewrite Ha.
  rewrite (bool_decide_eq_false_2 (ACT_SKIP = ACT_SEND)), (bool_decide_eq_false_2 (ACT_SKIP = ACT_CALL)) by done.
  rewrite (bool_decide_eq_true_2 (ACT_SKIP = ACT_SKIP)) by done. unfold skip_packet. autorewrite with sm.
  rewrite (bind_the_io i) by done. set (k := skip_remain s.1) in *.
  assert (Hout : forall more, output (pkt_remain s.1) k (io_unparsed i ++ more)
    = zdrop k (ztake n (io_unparsed i)) ++ output (pkt_remain s.1 - n) (Z.max 0 (k - n)) (zdrop n (io_unparsed i) ++ more)).
  { intros more. rewrite <- (ztake_zdrop n (io_unparsed i)) at 1. rewrite <- app_assoc, output_app by zlia.
    rewrite zlen_ztake. f_equal. f_equal; lia. }
  assert (Hfin : forall s' i', ready s' i' -> s'.2 = s.2 -> recv_pos i' = recv_pos i ->
    pkt_action s'.1 = ACT_SKIP -> pkt_remain s'.1 = pkt_remain s.1 - n -> skip_remain s'.1 = Z.max 0 (k - n) ->
    dst s'.1 = dst s.1 -> extra_packets s'.1 = extra_packets s.1 ->
    io_pending i' = zdrop k (ztake n (io_unparsed i)) -> io_unparsed i' = zdrop n (io_unparsed i) ->
    advanced s i s').
  { intros s' i' Hr' Hw' Hrp' Ha' Hrem' Hsk' Hd' Hx' Hp' Hu'. exists i'. split; [done|].
    split; [|split; [|split; [rewrite Hu'; zlia|done]]].
    - unfold good, pkt_ok. rewrite Ha', Hrem', Hsk', Hd', Hx'. split_and!; auto.
      + destruct (decide (pkt_remain s.1 - n = 0)); [by left|right]. split; [lia|]. right.
        split; [done|]. split; [lia|]. intros. apply Hd. lia.
      + destruct (decide (k < pkt_remain s.1)); [right; auto|left]. rewrite Hp'.
        unfold zdrop. apply drop_ge. unfold ztake. rewrite length_take. lia.
    - intros more. unfold flow, pkt_skip. rewrite Ha', Hrem', Hsk', Hw', Hp', Hu', Hpend, Ha.
      rewrite !(bool_decide_eq_false_2 (ACT_SKIP = ACT_SEND)) by done. cbn [app]. fold k. by rewrite Hout. }
  destruct (decide (k >= n)).
  - rewrite (bool_decide_eq_true_2 (k >= n)) by done.
    destruct (tag_skip_ok _ i n Hwf Hpend) as (i' & Etag & Hwf' & Hrp & Hp' & Hu'); [lia|].
    rewrite Etag. unfold consume. autorewrite with sm. cbn [fst snd].
    eexists; split; [reflexivity|]. apply (Hfin _ i'); cbn; try done.
    + rewrite u32_small by lia. done.
    + fold k. rewrite u32_small by (unfold UINT_MAX in *; lia). lia.
    + rewrite Hp'. symmetry. unfold zdrop. apply drop_ge. unfold ztake. rewrite length_take. lia.
  - rewrite (bool_decide_eq_false_2 (k >= n)) by done.
    assert (Hmid : exists i1, (if negb (bool_decide (k = 0)) then lift (iobuf_tag_skip i k) else mret i) s = Ok (i1, s)
      /\ io_wf cf_sbuf_len i1 /\ io_pending i1 = [] /\ io_unparsed i1 = zdrop k (io_unparsed i) /\ recv_pos i1 = recv_pos i).
    { case_bool_decide; cbn [negb].
      - exists i. split_and!; auto. rewrite zdrop_0 by lia. done.
      - destruct (tag_skip_ok _ i k Hwf Hpend) as (i1 & E1 & ? & ? & ? & ?); [lia|].
        exists i1. rewrite E1. done. }
    destruct Hmid as (i1 & E1 & Hwf1 & Hp1 & Hu1 & Hr1). autorewrite with sm. rewrite (SM_bind_eq _ _ _ _ _ E1).
    rewrite u32_small by (unfold UINT_MAX in *; lia).
    destruct (tag_send_ok _ i1 (n - k) Hwf1) as (i2 & E2 & Hwf2 & Hr2 & Hp2 & Hu2); [rewrite Hu1; zlia|].
    rewrite E2. unfold consume. autorewrite with sm. cbn [fst snd].
    eexists; split; [reflexivity|]. apply (Hfin _ i2); cbn; try done.
    + congruence.
    + rewrite u32_small by lia. done.
    + lia.
    + rewrite Hp2, Hp1, Hu1. cbn [app]. unfold ztake, zdrop. rewrite skipn_firstn_comm. f_equal. lia.
    + rewrite Hu2, Hu1, zdrop_zdrop by lia. f_equal. lia.
Qed.

Lemma stopped_trans s i s1 i1 s' : conserved s i s1 i1 -> stopped s1 i1 s' -> stopped s i s'.
Proof using.
  intros Hc [[Hcl Hp]|(i' & Hw & Hg & Hc')]; [left|right].
  - split; [done|]. intros more. rewrite <- Hc. apply Hp.
  - exists i'. split_and!; auto. intros more. by rewrite Hc'.
Qed.

Lemma advanced_trans s i s1 i1 s' :
  conserved s i s1 i1 -> zlen (io_unparsed i1) = zlen (io_unparsed i) -> recv_pos i1 = recv_pos i ->
  advanced s1 i1 s' -> advanced s i s'.
Proof using.
  intros Hc Hu Hr (i' & ? & ? & Hc' & ? & ?). exists i'. split_and!; auto; try lia.
  intros more. by rewrite Hc'.
Qed.

Lemma process_packet_ok s i :
  ready s i -> good s i -> 0 < pkt_remain s.1 -> io_unparsed i <> [] ->
  exists r s', process_packet E cf_sbuf_len (zlen (io_unparsed i)) s = Ok (r, s') /\
    ((r = LoopAgain /\ advanced s i s') \/ (r = LoopFalse /\ stopped s i s')).
Proof using env.
  intros Hr Hg Hrem Hu. pose proof Hr as (Hso & Hwt & Hio & Hwf). pose proof Hg as (Hp & Ht & Hx).
  assert (Hpos : 0 < zlen (io_unparsed i)) by (destruct (io_unparsed i); [done|zlia]).
  unfold process_packet. autorewrite with sm. rewrite (bind_the_io i) by done.
  rewrite (amount_pending_len cf_sbuf_len) by done.
  assert (Hmin : forall m n : Z, (if bool_decide (m > n) then n else m) = Z.min m n)
    by (intros; case_bool_decide; lia).
  destruct Hp as [?|[Hrem' [[Ha Hd]|[Ha [Hsk Hd]]]]]; [lia| |]; rewrite Ha.
  - rewrite bool_decide_eq_false_2 by (unfold ACT_SEND, ACT_SKIP, ACT_CALL; lia). autorewrite with sm. cbn [negb].
    autorewrite with sm. rewrite Hmin.
    destruct (action_send_ok s i (Z.min (zlen (io_unparsed i)) (pkt_remain s.1)) Hr Hg Ha) as (s' & Es & Had);
      [lia|lia|]. exists LoopAgain, s'. auto.
  - rewrite (bool_decide_eq_true_2 (ACT_SKIP = ACT_SKIP \/ ACT_SKIP = ACT_CALL)) by (by left).
    destruct (decide (zlen (io_pending i) > 0)) as [Hpp|Hpp].
    + rewrite (bool_decide_eq_true_2 (zlen (io_pending i) > 0)) by done.
      destruct (send_pending_ok s i Hr Ht) as (r & s1 & E1 & Hres). rewrite (SM_bind_eq _ _ _ _ _ E1).
      destruct r; cbn [negb].
      2:{ exists LoopFalse, s1. split; [done|]. right. split; [done|]. by apply send_result_stopped. }
      destruct (send_result_done s i s1 Hg Hres) as (i1 & Hr1 & Hg1 & Hc1 & Hp1 & Hu1 & Hrp1 & Hsp).
      pose proof Hsp as (Ha1&Hrem1&_). autorewrite with sm. rewrite Hmin, Hrem1.
      destruct (action_skip_ok s1 i1 (Z.min (zlen (io_unparsed i)) (pkt_remain s.1)) Hr1 Hg1) as (s' & Es & Had);
        [congruence|done|lia|rewrite Hu1; lia|].
      exists LoopAgain, s'. split; [done|]. left. split; [done|].
      eapply advanced_trans; [exact Hc1|by rewrite Hu1|done|done].
    + rewrite (bool_decide_eq_false_2 (zlen (io_pending i) > 0)) by done. autorewrite with sm. cbn [negb].
      autorewrite with sm. rewrite Hmin.
      destruct (action_skip_ok s i (Z.min (zlen (io_unparsed i)) (pkt_remain s.1)) Hr Hg Ha) as (s' & Es & Had);
        [destruct (io_pending i); [done|zlia]|lia|lia|]. exists LoopAgain, s'. auto.
Qed.

(** One round of the loop. *)
Lemma process_round_ok full s i :
  ready s i -> good s i ->
  exists r s', process_round E cf_sbuf_len full s = Ok (r, s') /\
    match r with
    | LoopAgain => advanced s i s'
    | LoopBreak => s' = s /\ (io_unparsed i = [] \/ (full = true /\ zlen (io_unparsed i) <= SBUF_SMALL_PKT))
    | LoopFalse => stopped s i s'
    | LoopNeedMore => s' = s /\ pkt_remain s.1 = 0 /\ decide_packet (io_unparsed i) = None
    end.
Proof using env.
  intros Hr Hg. pose proof Hr as (Hso & Hwt & Hio & Hwf). pose proof Hg as (Hp & Ht & Hx).
  assert (Hsane : iobuf_sane cf_sbuf_len (io s.1) = true) by (rewrite Hio; by apply io_wf_sane).
  unfold process_round, flush_extra. autorewrite with sm. rewrite Hx.
  rewrite (bool_decide_eq_true_2 (0 = 0)) by done. autorewrite with sm. cbn [negb].
  rewrite bind_active by done. rewrite (bind_the_io i) by done. cbn beta zeta.
  rewrite (amount_parse_len cf_sbuf_len) by done.
  destruct (bool_decide (zlen (io_unparsed i) = 0) || _) eqn:Eb.
  { exists LoopBreak, s. split; [done|]. split; [done|]. apply orb_true_iff in Eb as [Eb|Eb].
    - left. bprop. destruct (io_unparsed i); [done|zlia].
    - right. apply andb_true_iff in Eb as [-> Eb]. by bprop. }
  apply orb_false_iff in Eb as [Eb _]. bprop.
  assert (Hu : io_unparsed i <> []) by (intros Hn; by rewrite Hn in Eb).
  autorewrite with sm. destruct (decide (pkt_remain s.1 = 0)) as [Hz|Hz].
  - rewrite (bool_decide_eq_true_2 (pkt_remain s.1 = 0)) by done.
    destruct (decision_ok s i Hr Hg Hz Hu) as [[Hn Ec]|(s1 & Ec & Hr1 & Hg1 & Hrem1 & Hc1)];
      rewrite (SM_bind_eq _ _ _ _ _ Ec); cbn [negb].
    { exists LoopNeedMore, s. done. }
    autorewrite with sm. rewrite (bool_decide_eq_true_2 (pkt_remain s1.1 > 0)) by lia. autorewrite with sm.
    pose proof Hr1 as (_&_&Hio1&_). rewrite Hio1.
    destruct (process_packet_ok s1 i Hr1 Hg1 ltac:(lia) Hu) as (r & s' & Ep & Hcase).
    exists r, s'. split; [done|]. destruct Hcase as [[-> Had]|[-> Hst]].
    + eapply advanced_trans; done.
    + eapply stopped_trans; done.
  - rewrite (bool_decide_eq_false_2 (pkt_remain s.1 = 0)) by done.
    destruct (process_packet_ok s i Hr Hg) as (r & s' & Ep & Hcase); [destruct Hp; lia|done|].
    exists r, s'. split; [done|]. by destruct Hcase as [[-> Had]|[-> Hst]].
Qed.

(** The loop ends: every round that continues takes input. *)
Lemma process_loop_ok full fuel : forall s i,
  ready s i -> good s i -> zlen (io_unparsed i) < Z.of_nat fuel ->
  exists r s', process_loop E cf_sbuf_len fuel full s = Ok (r, s') /\
    ((r = LoopFalse /\ stopped s i s') \/
     exists i', ready s' i' /\ good s' i' /\ conserved s i s' i' /\ recv_pos i' = recv_pos i /\
       ((r = LoopBreak /\ (io_unparsed i' = [] \/ (full = true /\ zlen (io_unparsed i') <= SBUF_SMALL_PKT))) \/
        (r = LoopNeedMore /\ pkt_remain s'.1 = 0 /\ decide_packet (io_unparsed i') = None))).
Proof using env.
  induction fuel as [|fuel IH]; intros s i Hr Hg Hf; [zlia|]. cbn [process_loop].
  destruct (process_round_ok full s i Hr Hg) as (r & s1 & Er & Hcase). rewrite (SM_bind_eq _ _ _ _ _ Er).
  destruct r.
  - destruct Hcase as (i1 & Hr1 & Hg1 & Hc1 & Hlt & Hrp).
    destruct (IH s1 i1 Hr1 Hg1 ltac:(lia)) as (r & s' & E' & Hc).
    exists r, s'. split; [done|]. destruct Hc as [[-> Hst]|(i' & ? & ? & Hc' & ? & ?)].
    + left. split; [done|]. by eapply stopped_trans.
    + right. exists i'. split_and!; auto; [|congruence]. intros more. by rewrite Hc'.
  - destruct Hcase as [-> Hb]. exists LoopBreak, s. split; [done|]. right. exists i. split_and!; auto. by intros ?.
  - exists LoopFalse, s1. split; [done|]. auto.
  - destruct Hcase as [-> Hb]. exists LoopNeedMore, s. split; [done|]. right. exists i. split_and!; auto. by intros ?.
Qed.

Lemma rewind_extra_ok s i :
  ready s i -> good s i ->
  let s' := (set_extra (mbuf_rewind_writer (extra_packets s.1)) s.1, s.2) in
  ready s' i /\ good s' i /\ conserved s i s' i.
Proof using.
  intros Hr (Hp & Ht & Hx) s'. split; [done|]. split; [|done]. split_and!; auto.
  cbn. unfold mbuf_rewind_writer. destruct (reader (extra_packets s.1)); [done|]. reflexivity.
Qed.

Lemma resync_conserved s i i' :
  ready s i -> good s i -> io_wf cf_sbuf_len i' -> io_pending i' = io_pending i -> io_unparsed i' = io_unparsed i ->
  ready (set_io (Some i') s.1, s.2) i' /\ good (set_io (Some i') s.1, s.2) i' /\
  conserved s i (set_io (Some i') s.1, s.2) i'.
Proof using.
  intros (?&?&?&?) (Hp & Ht & Hx) Hw' Hpe Hu. split; [done|]. split.
  - unfold good. rewrite Hpe. done.
  - intros more. unfold flow. by rewrite Hpe, Hu.
Qed.

Lemma need_more_data_ok s i :
  ready s i -> good s i ->
  exists s', need_more_data E cf_sbuf_len s = Ok (false, s') /\
    (stopped s i s' \/ exists i', ready s' i' /\ good s' i' /\ conserved s i s' i' /\
       pkt_remain s'.1 = pkt_remain s.1 /\ io_pending i' = [] /\ io_unparsed i' = io_unparsed i).
Proof using env.
  intros Hr Hg. unfold need_more_data. autorewrite with sm.
  destruct (rewind_extra_ok s i Hr Hg) as (Hr1 & Hg1 & Hc1). set (s1 := (_, s.2)) in *.
  assert (Hrem1 : pkt_remain s1.1 = pkt_remain s.1) by done. clearbody s1.
  unfold sbuf_is_recv_active. autorewrite with sm. pose proof Hr1 as (Hso & Hwt & Hio & Hwf).
  rewrite (bool_decide_eq_false_2 (sock s1.1 = 0)) by lia. rewrite Hio, Hwt.
  rewrite (bool_decide_eq_true_2 (W_RECV = W_RECV)) by done. cbn [negb andb].
  rewrite (bind_the_io i) by done. rewrite (amount_pending_len cf_sbuf_len) by done.
  assert (Hmid : exists r s2, (if bool_decide (zlen (io_pending i) > 0)
      then sbuf_send_pending_iobuf E cf_sbuf_len else mret true) s1 = Ok (r, s2) /\
    ((r = false /\ stopped s1 i s2) \/ (r = true /\ exists i2, ready s2 i2 /\ good s2 i2 /\ conserved s1 i s2 i2 /\
       pkt_remain s2.1 = pkt_remain s1.1 /\ io_pending i2 = [] /\ io_unparsed i2 = io_unparsed i))).
  { case_bool_decide as Hpp.
    - pose proof Hg1 as (_&Ht&_). destruct (send_pending_ok s1 i Hr1 Ht) as (r & s2 & E2 & Hres).
      exists r, s2. split; [done|]. destruct r.
      + right. split; [done|]. destruct (send_result_done s1 i s2 Hg1 Hres) as (i2 & ? & ? & ? & ? & ? & ? & Hsp).
        exists i2. destruct Hsp as (_&?&_). split_and!; auto.
      + left. split; [done|]. by apply send_result_stopped.
    - exists true, s1. split; [done|]. right. split; [done|]. exists i. split_and!; auto; [by intros ?|].
      destruct (io_pending i); [done|zlia]. }
  destruct Hmid as (r & s2 & E2 & Hcase). rewrite (SM_bind_eq _ _ _ _ _ E2).
  destruct Hcase as [[-> Hst]|[-> (i2 & Hr2 & Hg2 & Hc2 & Hrem2 & Hp2 & Hu2)]]; cbn [negb].
  { exists s2. split; [done|]. left. by eapply stopped_trans. }
  pose proof Hr2 as (_&_&Hio2&Hwf2). rewrite (bind_the_io i2) by done.
  assert (Hc12 : conserved s i s2 i2) by (intros more; by rewrite Hc2).
  clear E2. case_bool_decide.
  - destruct (try_resync_ok _ i2 cf_sbuf_len Hwf2) as (i3 & E3 & Hwf3 & Hp3 & Hu3 & _). rewrite E3.
    autorewrite with sm. destruct (resync_conserved s2 i2 i3) as (Hr3 & Hg3 & Hc3); [done..|].
    eexists; split; [reflexivity|]. right. exists i3. do 2 (split; [done|]).
    split; [intros more; by rewrite Hc3|]. cbn. split_and!; congruence.
  - autorewrite with sm. exists s2. split; [done|]. right. exists i2. split_and!; auto; congruence.
Qed.

Lemma process_pending_ok s i :
  ready s i -> good s i ->
  exists r s', sbuf_process_pending E cf_sbuf_len s = Ok (r, s') /\
    ((r = false /\ stopped s i s') \/
     exists i', ready s' i' /\ good s' i' /\ conserved s i s' i' /\ io_pending i' = [] /\
       (r = true -> io_unparsed i' = [] \/ (recv_pos i = cf_sbuf_len /\ zlen (io_unparsed i') <= SBUF_SMALL_PKT)) /\
       (r = false -> pkt_remain s'.1 = 0 /\ decide_packet (io_unparsed i') = None)).
Proof using env.
  intros Hr Hg. pose proof Hr as (Hso & Hwt & Hio & Hwf). unfold sbuf_process_pending.
  rewrite (bind_the_io i) by done. cbn beta zeta.
  rewrite (amount_parse_len cf_sbuf_len), amount_recv_free by done.
  set (full := bool_decide (cf_sbuf_len - recv_pos i <= 0)).
  destruct (process_loop_ok full (S (S (Z.to_nat (zlen (io_unparsed i))))) s i Hr Hg) as (r & s1 & E1 & Hcase); [zlia|].
  rewrite (SM_bind_eq _ _ _ _ _ E1).
  destruct Hcase as [[-> Hst]|(i1 & Hr1 & Hg1 & Hc1 & Hrp1 & [[-> Hb]|(-> & Hz & Hn)])].
  - exists false, s1. auto.
  - pose proof Hg1 as (_&Ht1&_). destruct (send_pending_ok s1 i1 Hr1 Ht1) as (r & s2 & E2 & Hres).
    exists r, s2. split; [done|]. destruct r.
    + right. destruct (send_result_done s1 i1 s2 Hg1 Hres) as (i2 & ? & ? & Hc2 & ? & Hu2 & ? & _).
      exists i2. split_and!; auto; [intros more; by rewrite Hc2| |done]. intros _. rewrite Hu2.
      destruct Hb as [?|[Hfull ?]]; [by left|right]. unfold full in Hfull. bprop.
      destruct Hwf as (_&?&_). split; [lia|done].
    + left. split; [done|]. eapply stopped_trans; [exact Hc1|]. by apply send_result_stopped.
  - destruct (need_more_data_ok s1 i1 Hr1 Hg1) as (s2 & E2 & Hcase). exists false, s2. split; [done|].
    destruct Hcase as [Hst|(i2 & ? & ? & Hc2 & Hrem & ? & Hu2)].
    + left. split; [done|]. by eapply stopped_trans.
    + right. exists i2. split_and!; auto; [intros more; by rewrite Hc2|done|]. intros _. by rewrite Hu2, Hrem.
Qed.

(** *** Input *)

(** Received bytes join the unparsed ones. *)
Lemma recv_conserved s i bs :
  ready s i -> good s i -> Forall is_u8 bs -> zlen bs <= cf_sbuf_len - recv_pos i ->
  exists m, mem_store (io_buf i) (recv_pos i) bs = Ok m /\
    let i' := mkIOBuf (done_pos i) (parse_pos i) (u32 (recv_pos i + zlen bs)) m in
    ready (set_io (Some i') s.1, s.2) i' /\ good (set_io (Some i') s.1, s.2) i' /\
    forall more, flow (set_io (Some i') s.1, s.2) i' more = flow s i (bs ++ more).
Proof using.
  intros (Hso & Hwt & Hio & Hwf) (Hp & Ht & Hx) Hb Hl. pose proof Hwf as (H1&H2&H3&H4&H5).
  destruct (mem_store_ok (io_buf i) (recv_pos i) bs) as (m & Hm & Hlen & Hs & Htk & _); [lia|lia|].
  exists m. split; [done|]. cbn zeta. rewrite u32_small by zlia. set (i' := mkIOBuf _ _ _ _).
  pose proof (mem_store_bytes _ _ _ _ Hm H5 Hb). pose proof (zlen_nonneg bs).
  assert (Hwf' : io_wf cf_sbuf_len i') by (unfold io_wf; simpl; split_and!; auto; lia).
  assert (Hpe : io_pending i' = io_pending i).
  { unfold io_pending, i'; simpl.
    transitivity (slice (done_pos i) (parse_pos i) (ztake (recv_pos i) m));
      [|rewrite Htk]; rewrite <- slice_0, slice_slice by lia; f_equal; lia. }
  assert (Hu : io_unparsed i' = io_unparsed i ++ bs) by (unfold io_unparsed, i'; simpl; apply Hs; lia).
  split; [done|]. split; [unfold good; rewrite Hpe; done|].
  intros more. unfold flow. rewrite Hpe, Hu, <- app_assoc. done.
Qed.

End Relay.

(** ** Properties *)

(** C1: [sbuf_process_pending] relays the stream exactly.  From a receiving
    buffer it always returns (no assertion fails, no loop runs on, no access
    leaves a block), and the complete output, that is the bytes the
    destination accepted, then the bytes waiting to be sent, then what the
    callback's decisions make of the bytes not yet parsed and of any bytes
    still to come, is the same before and after.  If it returns true all
    parsed bytes are sent and at most a small rest of a full buffer is left;
    if it returns false the callback needs more input, or the destination is
    full and the buffer waits for it, or the connection was closed having
    sent a prefix of the output. *)
Theorem sbuf_relays_stream `{Realloc} {W} (E : SBufEnv W) len D decide_packet trace s i :
  relay_env E len D decide_packet trace -> ready len s i -> good D s i ->
  exists r s', sbuf_process_pending E len s = Ok (r, s') /\
    ((r = false /\ stopped len D decide_packet trace s i s') \/
     exists i', ready len s' i' /\ good D s' i' /\
       (forall more, flow decide_packet trace s' i' more = flow decide_packet trace s i more) /\
       io_pending i' = [] /\
       (r = true -> io_unparsed i' = [] \/ (recv_pos i = len /\ zlen (io_unparsed i') <= SBUF_SMALL_PKT)) /\
       (r = false -> pkt_remain s'.1 = 0 /\ decide_packet (io_unparsed i') = None)).
Proof. intros Henv. by apply process_pending_ok. Qed.

(** A toy protocol: the first byte of a packet is its length; an odd length
    drops that byte. *)
Definition toy_decide (v : list Z) : option decision :=
  match v with
  | b :: _ => if bool_decide (0 < b <= 255) then Some (if Z.odd b then DSkipSend 1 b else DSend b) else None
  | [] => None
  end.

(** A socket that takes two bytes at a time; the world is what it took. *)
Definition toy_env : SBufEnv (list Z) :=
  mkSBufEnv (list Z) (fun _ bs w => (IoOk (Z.min 2 (zlen bs)), w ++ ztake (Z.min 2 (zlen bs)) bs))
    (fun _ w => (RecvAgain, w)) (fun _ => 0) (fun w => w) (fun _ _ => 1) (fun w => (true, w)) (fun w => (true, w))
    (fun w => (None, w))
    (fun ev m => match ev with
                 | SBUF_EV_READ => decision_cb 16 1 toy_decide m
                 | _ => fun s => Ok (false, (sbuf_init, s.2))
                 end)
    (mret true).

Lemma toy_relay_env : relay_env toy_env 16 1 toy_decide (fun w => w).
Proof.
  split; simpl; try done.
  - intros bs w Hbs. split; [|done]. destruct bs; [done|]. zlia.
  - intros m s. eexists _, _. split; [done|]. done.
  - intros v d Hd. unfold toy_decide in Hd. destruct v as [|b v]; [done|]. case_bool_decide; [|done].
    unfold UINT_MAX. injection Hd as <-. destruct (Z.odd b); simpl; lia.
  - intros v d more Hd. by destruct v.
Qed.

Lemma sbuf_relays_stream_witness :
  exists s', sbuf_process_pending toy_env 16
      (mkSBuf true W_RECV 0 SBUF_TLS_NONE 5 0 0 mbuf_init_dynamic false None
         (Some (mkIOBuf 0 0 6 ([3; 7; 8; 2; 9; 4] ++ replicate 10 0))), []) = Ok (true, s') /\ s'.2 = [7; 8; 2; 9; 4].
Proof.
  destruct (sbuf_relays_stream (H := zero_Realloc) toy_env 16 1 toy_decide (fun w => w)
    (mkSBuf true W_RECV 0 SBUF_TLS_NONE 5 0 0 mbuf_init_dynamic false None
       (Some (mkIOBuf 0 0 6 ([3; 7; 8; 2; 9; 4] ++ replicate 10 0))), [])
    (mkIOBuf 0 0 6 ([3; 7; 8; 2; 9; 4] ++ replicate 10 0)) toy_relay_env) as (r & s' & E & _).
  - unfold ready, io_wf, INT_MAX, zlen; simpl. split_and!; try done; try lia. repeat constructor; unfold is_u8; lia.
  - unfold good, pkt_ok; simpl. split_and!; auto.
  - exists s'. vm_compute in E. injection E as <- <-. split; vm_compute; reflexivity.
Defined.
