(* ===== verification/PoolSpec.v ===== *)
(** * What the pooler promises about its sockets

    The abstract state of the connection pools (the lists of PgPool, the
    links between clients and servers, the cancel requests and the connection
    counters of include/bouncer.h), the transitions src/objects.c is allowed
    to make on it, and the invariants that follow.  World.v maps the concrete
    state to this one; Objects.v, Launch.v and Cancel.v show that the code
    makes only these transitions.

    The invariants: a socket is in the list of its state and in no other; a
    link is mutual and joins states that belong together; a released socket
    is referenced by nobody; cancel requests and the servers they cancel know
    each other; the connection counters count. *)

From S2P Require Import Prelude.
From stdpp Require Import base option countable gmap list.
#[local] Open Scope Z_scope.

Inductive SocketState :=
| CL_FREE
| CL_JUSTFREE
| CL_LOGIN
| CL_WAITING
| CL_WAITING_LOGIN
| CL_ACTIVE
| CL_WAITING_CANCEL
| CL_ACTIVE_CANCEL
| SV_FREE
| SV_JUSTFREE
| SV_LOGIN
| SV_BEING_CANCELED
| SV_IDLE
| SV_ACTIVE
| SV_ACTIVE_CANCEL
| SV_USED
| SV_TESTED.

(** The StatLists of struct PgPool that hold sockets. *)
Inductive PoolList :=
| active_client_list
| waiting_client_list
| waiting_cancel_req_list
| active_cancel_req_list
| active_server_list
| active_cancel_server_list
| being_canceled_server_list
| idle_server_list
| used_server_list
| tested_server_list
| new_server_list.

#[export] Instance SocketState_eq_dec : EqDecision SocketState.
Proof. solve_decision. Defined.
#[export] Instance PoolList_eq_dec : EqDecision PoolList.
Proof. solve_decision. Defined.

Definition PoolList_code (l : PoolList) : nat :=
  (match l with
  | active_client_list => 0 | waiting_client_list => 1 | waiting_cancel_req_list => 2
  | active_cancel_req_list => 3 | active_server_list => 4 | active_cancel_server_list => 5
  | being_canceled_server_list => 6 | idle_server_list => 7 | used_server_list => 8
  | tested_server_list => 9 | new_server_list => 10
  end)%nat.
Definition PoolList_of (n : nat) : PoolList :=
  nth n [active_client_list; waiting_client_list; waiting_cancel_req_list; active_cancel_req_list;
         active_server_list; active_cancel_server_list; being_canceled_server_list;
         idle_server_list; used_server_list; tested_server_list] new_server_list.
#[export] Instance PoolList_countable : Countable PoolList.
Proof. apply (inj_countable' PoolList_code PoolList_of). by intros []. Defined.

(** A list a socket can be in: one of the global lists of objects.c, or a
    list of a pool. *)
Inductive slot :=
| justfree_client_list
| login_client_list
| justfree_server_list
| PoolSlot (pool : positive) (l : PoolList).

#[export] Instance slot_eq_dec : EqDecision slot.
Proof. solve_decision. Defined.

Definition slot_code (s : slot) : unit + unit + unit + positive * PoolList :=
  match s with
  | justfree_client_list => inl (inl (inl tt))
  | login_client_list => inl (inl (inr tt))
  | justfree_server_list => inl (inr tt)
  | PoolSlot p l => inr (p, l)
  end.
Definition slot_decode (c : unit + unit + unit + positive * PoolList) : slot :=
  match c with
  | inl (inl (inl _)) => justfree_client_list
  | inl (inl (inr _)) => login_client_list
  | inl (inr _) => justfree_server_list
  | inr (p, l) => PoolSlot p l
  end.
#[export] Instance slot_countable : Countable slot.
Proof. apply (inj_countable' slot_code slot_decode). by intros []. Defined.

(** "each state corresponds to a list" (enum SocketState). *)
Definition pool_list_of (st : SocketState) : option PoolList :=
  match st with
  | CL_WAITING | CL_WAITING_LOGIN => Some waiting_client_list
  | CL_ACTIVE => Some active_client_list
  | CL_WAITING_CANCEL => Some waiting_cancel_req_list
  | CL_ACTIVE_CANCEL => Some active_cancel_req_list
  | SV_LOGIN => Some new_server_list
  | SV_BEING_CANCELED => Some being_canceled_server_list
  | SV_IDLE => Some idle_server_list
  | SV_ACTIVE => Some active_server_list
  | SV_ACTIVE_CANCEL => Some active_cancel_server_list
  | SV_USED => Some used_server_list
  | SV_TESTED => Some tested_server_list
  | _ => None
  end.

Definition slot_of (st : SocketState) (pool : option positive) : option slot :=
  match st with
  | CL_JUSTFREE => Some justfree_client_list
  | CL_LOGIN => Some login_client_list
  | SV_JUSTFREE => Some justfree_server_list
  | _ => l ← pool_list_of st; p ← pool; Some (PoolSlot p l)
  end.

Definition is_server_state (st : SocketState) : bool :=
  match st with
  | CL_FREE | CL_JUSTFREE | CL_LOGIN | CL_WAITING | CL_WAITING_LOGIN | CL_ACTIVE
  | CL_WAITING_CANCEL | CL_ACTIVE_CANCEL => false
  | _ => true
  end.

(** A server connection that counts against the limits. *)
Definition live_server (st : SocketState) : bool :=
  match st with
  | SV_LOGIN | SV_BEING_CANCELED | SV_IDLE | SV_ACTIVE | SV_ACTIVE_CANCEL | SV_USED | SV_TESTED => true
  | _ => false
  end.

(** ** The abstract state *)

Record SView := mkSView {
  v_state : SocketState;
  v_pool : option positive;
  v_link : option positive;
  v_repl : bool;
  v_canceled : option positive;
  v_canceling : list positive
}.

(** [vpool] gives the database of a pool and the global user its server
    connections are counted for (none for a peer pool). *)
Record View := mkView {
  vs : gmap positive SView;
  vlists : gmap slot (list positive);
  vpool : gmap positive (positive * option positive);
  vdbcount : gmap positive Z;
  vucount : gmap positive Z
}.

Definition lst (m : gmap slot (list positive)) (s : slot) : list positive := default [] (m !! s).
Definition k_slot (k : SView) : option slot := slot_of (v_state k) (v_pool k).

Definition k_set_link (y : option positive) (k : SView) : SView :=
  mkSView (v_state k) (v_pool k) y (v_repl k) (v_canceled k) (v_canceling k).
Definition k_set_state (st : SocketState) (k : SView) : SView :=
  mkSView st (v_pool k) (v_link k) (v_repl k) (v_canceled k) (v_canceling k).
Definition k_set_pool (p : option positive) (k : SView) : SView :=
  mkSView (v_state k) p (v_link k) (v_repl k) (v_canceled k) (v_canceling k).
Definition k_set_canceled (s : option positive) (k : SView) : SView :=
  mkSView (v_state k) (v_pool k) (v_link k) (v_repl k) s (v_canceling k).
Definition k_set_canceling (l : list positive) (k : SView) : SView :=
  mkSView (v_state k) (v_pool k) (v_link k) (v_repl k) (v_canceled k) l.

(** Taking [x] out of a list, and putting it at one end of a list. *)
Definition unlist (x : positive) (o : option slot) (m : gmap slot (list positive)) :=
  match o with
  | Some s => <[s := filter (fun y => y <> x) (lst m s)]> m
  | None => m
  end.
Definition enlist (front : bool) (x : positive) (o : option slot) (m : gmap slot (list positive)) :=
  match o with
  | Some s => <[s := if front then x :: lst m s else lst m s ++ [x]]> m
  | None => m
  end.

Definition vset (x : positive) (k : SView) (v : View) : View :=
  mkView (<[x := k]> (vs v)) (vlists v) (vpool v) (vdbcount v) (vucount v).
Definition vmove (front : bool) (x : positive) (old : option slot) (k : SView) (v : View) : View :=
  mkView (<[x := k]> (vs v)) (enlist front x (k_slot k) (unlist x old (vlists v)))
         (vpool v) (vdbcount v) (vucount v).
Definition vdelete (x : positive) (old : option slot) (v : View) : View :=
  mkView (delete x (vs v)) (unlist x old (vlists v)) (vpool v) (vdbcount v) (vucount v).

(** Adding to the counters of the pool's database and user. *)
Definition bump (n : Z) (d : positive) (m : gmap positive Z) : gmap positive Z :=
  alter (Z.add n) d m.
Definition vcount (n : Z) (p : positive) (v : View) : View :=
  match vpool v !! p with
  | Some (d, u) =>
      mkView (vs v) (vlists v) (vpool v) (bump n d (vdbcount v))
             (match u with Some u => bump n u (vucount v) | None => vucount v end)
  | None => v
  end.

(** ** Transitions *)

(** The states a linked client and server can be in together. *)
Definition pair_ok (kc ks : SView) : bool :=
  match v_state kc, v_state ks with
  | (CL_ACTIVE | CL_LOGIN), SV_ACTIVE => true
  | CL_WAITING_CANCEL, SV_LOGIN => true
  | CL_ACTIVE_CANCEL, SV_ACTIVE_CANCEL => true
  | (CL_WAITING | CL_WAITING_LOGIN), (SV_LOGIN | SV_ACTIVE) => v_repl kc && v_repl ks
  | _, _ => false
  end.

(** [x] with view [k] may sit beside what it is linked to. *)
Definition link_fits (m : gmap positive SView) (k : SView) : Prop :=
  match v_link k with
  | None => True
  | Some y => exists k', m !! y = Some k' /\ (pair_ok k k' = true \/ pair_ok k' k = true)
  end.

Definition cancel_client_state (st : SocketState) : bool :=
  match st with CL_WAITING_CANCEL | CL_ACTIVE_CANCEL => true | _ => false end.

Definition busy_client_state (st : SocketState) : bool :=
  match st with
  | CL_LOGIN | CL_WAITING | CL_WAITING_LOGIN | CL_ACTIVE | CL_WAITING_CANCEL | CL_ACTIVE_CANCEL => true
  | _ => false
  end.

(** The servers a cancel request can aim at: those that are, or are about to
    be, linked to the client, and those held back until the request is over. *)
Definition cancel_target (st : SocketState) : bool :=
  match st with SV_LOGIN | SV_ACTIVE | SV_BEING_CANCELED => true | _ => false end.

(** All cancel requests for the server are in flight. *)
Definition in_flight (m : gmap positive SView) (k : SView) : Prop :=
  forall c, c ∈ v_canceling k -> exists kc, m !! c = Some kc /\ v_state kc = CL_ACTIVE_CANCEL.

Inductive vstep : View -> View -> Prop :=
| VS_accept v c front :
    vs v !! c = None ->
    vstep v (vmove front c None (mkSView CL_LOGIN None None false None []) v)
| VS_launch v s p front :
    vs v !! s = None -> is_Some (vpool v !! p) -> lst (vlists v) (PoolSlot p new_server_list) = [] ->
    vstep v (vcount 1 p (vmove front s None (mkSView SV_LOGIN (Some p) None false None []) v))
| VS_link v c s kc ks front :
    vs v !! c = Some kc -> vs v !! s = Some ks ->
    v_state kc = CL_ACTIVE \/ v_state kc = CL_LOGIN ->
    v_state ks = SV_IDLE -> v_link kc = None ->
    vstep v (vmove front s (k_slot ks) (k_set_state SV_ACTIVE (k_set_link (Some c) ks))
               (vset c (k_set_link (Some s) kc) v))
| VS_link_cancel v c s kc ks :
    vs v !! c = Some kc -> vs v !! s = Some ks ->
    v_state kc = CL_WAITING_CANCEL -> v_state ks = SV_LOGIN ->
    v_link kc = None -> v_link ks = None ->
    vstep v (vset s (k_set_link (Some c) ks) (vset c (k_set_link (Some s) kc) v))
| VS_link_repl v c s kc ks :
    vs v !! c = Some kc -> vs v !! s = Some ks ->
    v_state kc = CL_WAITING \/ v_state kc = CL_WAITING_LOGIN -> v_state ks = SV_LOGIN ->
    v_repl kc = true -> v_repl ks = true ->
    v_link kc = None -> v_link ks = None ->
    vstep v (vset s (k_set_link (Some c) ks) (vset c (k_set_link (Some s) kc) v))
| VS_unlink v x y kx ky :
    vs v !! x = Some kx -> vs v !! y = Some ky -> v_link kx = Some y -> v_link ky = Some x ->
    vstep v (vset y (k_set_link None ky) (vset x (k_set_link None kx) v))
| VS_move_client v c k st front :
    vs v !! c = Some k -> busy_client_state (v_state k) = true -> busy_client_state st = true ->
    link_fits (vs v) (k_set_state st k) ->
    v_canceled k = None ->
    is_Some (k_slot (k_set_state st k)) ->
    vstep v (vmove front c (k_slot k) (k_set_state st k) v)
| VS_forward v c s kc ks front front' :
    vs v !! c = Some kc -> vs v !! s = Some ks ->
    v_state kc = CL_WAITING_CANCEL -> v_state ks = SV_LOGIN ->
    v_link kc = Some s -> v_link ks = Some c -> v_canceling ks = [] ->
    vstep v (vmove front' s (k_slot ks) (k_set_state SV_ACTIVE_CANCEL ks)
               (vmove front c (k_slot kc) (k_set_state CL_ACTIVE_CANCEL kc) v))
| VS_move_server v s k st front :
    vs v !! s = Some k -> live_server (v_state k) = true -> live_server st = true -> st <> SV_LOGIN ->
    link_fits (vs v) (k_set_state st k) ->
    (v_canceling k = [] \/ cancel_target st = true) ->
    (st = SV_BEING_CANCELED -> in_flight (vs v) k) ->
    vstep v (vmove front s (k_slot k) (k_set_state st k) v)
| VS_close_client v c k front :
    vs v !! c = Some k -> is_server_state (v_state k) = false -> v_link k = None -> v_canceled k = None ->
    vstep v (vmove front c (k_slot k) (k_set_state CL_JUSTFREE k) v)
| VS_close_server v s k p front :
    vs v !! s = Some k -> live_server (v_state k) = true -> v_link k = None -> v_canceling k = [] ->
    v_pool k = Some p ->
    vstep v (vmove front s (k_slot k) (k_set_state SV_JUSTFREE k) (vcount (-1) p v))
| VS_free v x k :
    vs v !! x = Some k -> v_state k = CL_JUSTFREE \/ v_state k = SV_JUSTFREE ->
    vstep v (vdelete x (k_slot k) v)
| VS_cancel v c s kc ks p front :
    vs v !! c = Some kc -> vs v !! s = Some ks ->
    v_state kc = CL_LOGIN -> v_link kc = None ->
    v_state ks = SV_LOGIN \/ v_state ks = SV_ACTIVE ->
    vstep v (vmove front c (k_slot kc)
               (k_set_canceled (Some s) (k_set_pool (Some p) (k_set_state CL_WAITING_CANCEL kc)))
               (vset s (k_set_canceling (v_canceling ks ++ [c]) ks) v))
| VS_uncancel v c s kc ks :
    vs v !! c = Some kc -> vs v !! s = Some ks -> v_canceled kc = Some s ->
    vstep v (vset s (k_set_canceling (filter (fun y => y <> c) (v_canceling ks)) ks)
               (vset c (k_set_canceled None kc) v))
| VS_attach v c k p :
    vs v !! c = Some k -> v_state k = CL_LOGIN ->
    vstep v (vset c (k_set_pool (Some p) k) v)
| VS_repl v x k b :
    vs v !! x = Some k -> v_link k = None ->
    vstep v (vset x (mkSView (v_state k) (v_pool k) (v_link k) b (v_canceled k) (v_canceling k)) v)
| VS_new_pool v p d u :
    vpool v !! p = None ->
    vstep v (mkView (vs v) (vlists v) (<[p := (d, u)]> (vpool v)) (vdbcount v) (vucount v)).

(** ** Invariants *)

Definition inv_loc (v : View) : Prop :=
  (forall x s, x ∈ lst (vlists v) s <-> exists k, vs v !! x = Some k /\ k_slot k = Some s) /\
  (forall s, NoDup (lst (vlists v) s)) /\
  (forall x k, vs v !! x = Some k -> is_Some (k_slot k)).

Definition inv_link (m : gmap positive SView) : Prop :=
  forall x k y, m !! x = Some k -> v_link k = Some y ->
  exists k', m !! y = Some k' /\ v_link k' = Some x /\ (pair_ok k k' = true \/ pair_ok k' k = true).

Definition inv_cancel (m : gmap positive SView) : Prop :=
  (forall c k s, m !! c = Some k -> v_canceled k = Some s ->
     cancel_client_state (v_state k) = true /\ exists ks, m !! s = Some ks /\ c ∈ v_canceling ks) /\
  (forall s k c, m !! s = Some k -> c ∈ v_canceling k ->
     cancel_target (v_state k) = true /\ exists kc, m !! c = Some kc /\ v_canceled kc = Some s) /\
  (forall s k, m !! s = Some k -> NoDup (v_canceling k)).

(** A server that waits for the end of cancel requests waits only for those
    that can end: the ones in flight. *)
Definition inv_held (m : gmap positive SView) : Prop :=
  forall s k, m !! s = Some k -> v_state k = SV_BEING_CANCELED -> in_flight m k.

(** At most one connection attempt per pool. *)
Definition inv_single (v : View) : Prop :=
  forall p, zlen (lst (vlists v) (PoolSlot p new_server_list)) <= 1.

(** The servers that count for the pools selected by [f]. *)
Definition counts (v : View) (f : positive * option positive -> bool) (k : SView) : bool :=
  live_server (v_state k) &&
  match v_pool k ≫= fun p => vpool v !! p with Some pu => f pu | None => false end.
Definition nservers (v : View) (f : positive * option positive -> bool) : Z :=
  Z.of_nat (size (filter (fun xk => counts v f xk.2 = true) (vs v))).

Definition of_db (d : positive) (pu : positive * option positive) : bool := bool_decide (pu.1 = d).
Definition of_user (u : positive) (pu : positive * option positive) : bool := bool_decide (pu.2 = Some u).

Definition inv_count (v : View) : Prop :=
  (forall x k, vs v !! x = Some k -> live_server (v_state k) = true ->
     exists p, v_pool k = Some p /\ is_Some (vpool v !! p)) /\
  (forall d n, vdbcount v !! d = Some n -> n = nservers v (of_db d)) /\
  (forall u n, vucount v !! u = Some n -> n = nservers v (of_user u)).

Definition Inv (v : View) : Prop := inv_loc v /\ inv_link (vs v) /\ inv_cancel (vs v) /\ inv_count v /\ inv_held (vs v) /\ inv_single v.

(** ** The lists *)

Lemma head_elem {A} (l : list A) x : head l = Some x -> x ∈ l.
Proof. destruct l; [done|]. intros [= ->]. apply elem_of_cons. by left. Qed.

Lemma lst_insert m s l s' : lst (<[s := l]> m) s' = if decide (s = s') then l else lst m s'.
Proof. unfold lst. destruct (decide (s = s')) as [->|]; [by rewrite lookup_insert_eq|by rewrite lookup_insert_ne]. Qed.

Lemma elem_of_unlist y x o m s : y ∈ lst (unlist x o m) s <-> y ∈ lst m s /\ (o = Some s -> y <> x).
Proof.
  destruct o as [s0|]; simpl; [|naive_solver]. rewrite lst_insert.
  destruct (decide (s0 = s)) as [->|]; [rewrite list_elem_of_filter; naive_solver|naive_solver].
Qed.

Lemma elem_of_enlist f y x o m s : y ∈ lst (enlist f x o m) s <-> y ∈ lst m s \/ (o = Some s /\ y = x).
Proof.
  destruct o as [s0|]; simpl; [|naive_solver]. rewrite lst_insert.
  destruct (decide (s0 = s)) as [->|]; [|naive_solver].
  destruct f; [set_solver|]. rewrite elem_of_app, list_elem_of_singleton. naive_solver.
Qed.

Lemma NoDup_unlist x o m s : NoDup (lst m s) -> NoDup (lst (unlist x o m) s).
Proof.
  destruct o as [s0|]; simpl; [|done]. rewrite lst_insert. intros Hm.
  destruct (decide (s0 = s)) as [->|]; [by apply NoDup_filter|done].
Qed.

Lemma NoDup_enlist f x o m s : NoDup (lst m s) -> (o = Some s -> x ∉ lst m s) -> NoDup (lst (enlist f x o m) s).
Proof.
  destruct o as [s0|]; simpl; [|done]. rewrite lst_insert. intros Hm Hx.
  destruct (decide (s0 = s)) as [->|]; [|done]. specialize (Hx eq_refl).
  destruct f; [by apply NoDup_cons|]. apply NoDup_app. split; [done|].
  split; [|apply NoDup_singleton]. intros y Hy ->%list_elem_of_singleton. done.
Qed.

(** A socket that changes its state and moves to the list of the new state
    is where its state says. *)
Lemma inv_loc_move f x k v :
  inv_loc v -> is_Some (k_slot k) -> inv_loc (vmove f x (vs v !! x ≫= k_slot) k v).
Proof.
  intros (H1 & H2 & H3) Hk. unfold vmove; repeat split; cbn [vs vlists].
  - intros Hx. apply elem_of_enlist in Hx as [Hx%elem_of_unlist|[? ->]].
    + destruct Hx as [Hx Hn]. apply H1 in Hx as (ky & Hy & Hs).
      destruct (decide (x0 = x)) as [->|]; [|by rewrite lookup_insert_ne by done; eauto].
      rewrite Hy in Hn. cbn in Hn. naive_solver.
    + exists k. by rewrite lookup_insert_eq.
  - intros (ky & Hy & Hs). apply elem_of_enlist. destruct (decide (x0 = x)) as [->|].
    + rewrite lookup_insert_eq in Hy. right. naive_solver.
    + rewrite lookup_insert_ne in Hy by done. left. apply elem_of_unlist.
      split; [apply H1; eauto|naive_solver].
  - intros s. apply NoDup_enlist; [by apply NoDup_unlist|]. intros _.
    rewrite elem_of_unlist. intros [Hx Hn]. apply H1 in Hx as (kx & Hx & Hs).
    rewrite Hx in Hn; cbn in Hn; naive_solver.
  - intros y ky. rewrite lookup_insert_Some. intros [[<- <-]|[? Hy]]; [done|by eapply H3].
Qed.

Lemma inv_loc_set x k k' v :
  inv_loc v -> vs v !! x = Some k -> k_slot k' = k_slot k -> inv_loc (vset x k' v).
Proof.
  intros (H1 & H2 & H3) Hx Hs. unfold vset; repeat split; cbn [vs vlists]; [| |done|].
  - intros Hy%H1. destruct Hy as (ky & Hy & Hsy). destruct (decide (x0 = x)) as [->|].
    + exists k'. rewrite lookup_insert_eq. naive_solver congruence.
    + exists ky. by rewrite lookup_insert_ne.
  - intros (ky & Hy & Hsy). apply H1. destruct (decide (x0 = x)) as [->|].
    + rewrite lookup_insert_eq in Hy. exists k. naive_solver congruence.
    + rewrite lookup_insert_ne in Hy by done. eauto.
  - intros y ky. rewrite lookup_insert_Some. intros [[<- <-]|[? Hy]]; [rewrite Hs; by eapply H3|by eapply H3].
Qed.

Lemma inv_loc_delete x k v :
  inv_loc v -> vs v !! x = Some k -> inv_loc (vdelete x (k_slot k) v).
Proof.
  intros (H1 & H2 & H3) Hx. unfold vdelete; repeat split; cbn [vs vlists].
  - intros [Hy Hn]%elem_of_unlist. apply H1 in Hy as (ky & Hy & Hs). exists ky.
    rewrite lookup_delete_ne; [done|]. intros ->. naive_solver.
  - intros (ky & [Hne Hy]%lookup_delete_Some & Hs). apply elem_of_unlist. split; [apply H1; eauto|naive_solver].
  - intros s. by apply NoDup_unlist.
  - intros y ky [_ Hy]%lookup_delete_Some. by eapply H3.
Qed.

Lemma inv_loc_vcount n p v : inv_loc (vcount n p v) <-> inv_loc v.
Proof. unfold vcount. by destruct (vpool v !! p) as [[d u]|]. Qed.

(** ** Links *)

Lemma pair_ok_not_self k : pair_ok k k = false.
Proof. unfold pair_ok. by destruct (v_state k). Qed.

Lemma pair_ok_asym k k' : pair_ok k k' = true -> pair_ok k' k = false.
Proof. unfold pair_ok. by destruct (v_state k), (v_state k'). Qed.

(** A socket in a state without a partner has no link. *)
Lemma inv_link_none m x k :
  inv_link m -> m !! x = Some k -> (forall k', pair_ok k k' = false /\ pair_ok k' k = false) -> v_link k = None.
Proof.
  intros Hm Hx Hk. destruct (v_link k) as [y|] eqn:E; [|done].
  destruct (Hm x k y Hx E) as (k' & _ & _ & H). destruct (Hk k') as [H1 H2]. rewrite H1, H2 in H. naive_solver.
Qed.

Lemma inv_link_not_self m x k : inv_link m -> m !! x = Some k -> v_link k <> Some x.
Proof.
  intros Hm Hx E. destruct (Hm x k x Hx E) as (k' & ? & _ & Hp). simplify_eq.
  rewrite pair_ok_not_self in Hp. naive_solver.
Qed.

Lemma inv_link_fresh m x k : inv_link m -> m !! x = None -> v_link k = None -> inv_link (<[x := k]> m).
Proof.
  intros Hm Hx Hk y ky z. rewrite lookup_insert_Some. intros [[<- <-]|[Hne Hy]] Hl; [by rewrite Hk in Hl|].
  destruct (Hm y ky z Hy Hl) as (kz & Hz & ?). exists kz. rewrite lookup_insert_ne; [done|].
  intros ->. by rewrite Hx in Hz.
Qed.

Lemma inv_link_delete m x k : inv_link m -> m !! x = Some k -> v_link k = None -> inv_link (delete x m).
Proof.
  intros Hm Hx Hk y ky z [Hne Hy]%lookup_delete_Some Hl.
  destruct (Hm y ky z Hy Hl) as (kz & Hz & Hlz & ?). exists kz. rewrite lookup_delete_ne; [done|].
  intros ->. simplify_eq.
Qed.

(** A socket that keeps its link and still fits it. *)
Lemma inv_link_set m x k k' :
  inv_link m -> m !! x = Some k -> v_link k' = v_link k -> link_fits m k' -> inv_link (<[x := k']> m).
Proof.
  intros Hm Hx Hl Hf y ky z. rewrite lookup_insert_Some. intros [[<- <-]|[Hne Hy]] Hz.
  - rewrite Hl in Hz. destruct (Hm x k z Hx Hz) as (kz & Hkz & Hlz & Hp).
    assert (z <> x) by (intros ->; simplify_eq; rewrite pair_ok_not_self in Hp; naive_solver).
    exists kz. rewrite lookup_insert_ne by done. split; [done|]. split; [done|].
    unfold link_fits in Hf. rewrite Hl, Hz in Hf. destruct Hf as (k2 & ? & ?). by simplify_eq.
  - destruct (Hm y ky z Hy Hz) as (kz & Hkz & Hlz & Hp).
    destruct (decide (z = x)) as [->|]; [|exists kz; by rewrite lookup_insert_ne].
    simplify_eq. exists k'. rewrite lookup_insert_eq, Hl. split; [done|]. split; [done|].
    unfold link_fits in Hf. rewrite Hl, Hlz in Hf. destruct Hf as (k2 & ? & ?). simplify_eq. tauto.
Qed.

(** Two unlinked sockets that get each other as link. *)
Lemma inv_link_pair m x y kx ky kx' ky' :
  inv_link m -> m !! x = Some kx -> m !! y = Some ky -> v_link kx = None -> v_link ky = None ->
  v_link kx' = Some y -> v_link ky' = Some x -> pair_ok kx' ky' = true -> x <> y ->
  inv_link (<[y := ky']> (<[x := kx']> m)).
Proof.
  intros Hm Hx Hy Hlx Hly Hlx' Hly' Hp Hne.
  intros z kz t. rewrite !lookup_insert_Some. intros [[<- <-]|[? [[<- <-]|[? Hz]]]] Ht.
  - simplify_eq. exists kx'. rewrite lookup_insert_ne, lookup_insert_eq by done. auto.
  - simplify_eq. exists ky'. rewrite lookup_insert_eq. auto.
  - destruct (Hm z kz t Hz Ht) as (kt & Hkt & Hlt & ?). exists kt.
    rewrite !lookup_insert_ne; [done| |]; intros ->; simplify_eq.
Qed.

Lemma inv_link_unpair m x y kx ky :
  inv_link m -> m !! x = Some kx -> m !! y = Some ky -> v_link kx = Some y -> v_link ky = Some x ->
  inv_link (<[y := k_set_link None ky]> (<[x := k_set_link None kx]> m)).
Proof.
  intros Hm Hx Hy Hlx Hly z kz t. rewrite !lookup_insert_Some.
  intros [[<- <-]|[? [[<- <-]|[? Hz]]]] Ht; [done|done|].
  destruct (Hm z kz t Hz Ht) as (kt & Hkt & Hlt & ?). exists kt.
  rewrite !lookup_insert_ne; [done| |]; intros ->; simplify_eq.
Qed.

(** A linked pair that changes its states together. *)
Lemma inv_link_repair m x y kx ky kx' ky' :
  inv_link m -> m !! x = Some kx -> m !! y = Some ky -> v_link kx = Some y -> v_link ky = Some x ->
  v_link kx' = Some y -> v_link ky' = Some x -> pair_ok kx' ky' = true -> x <> y ->
  inv_link (<[y := ky']> (<[x := kx']> m)).
Proof.
  intros Hm Hx Hy Hlx Hly Hlx' Hly' Hp Hne z kz t. rewrite !lookup_insert_Some.
  intros [[<- <-]|[? [[<- <-]|[? Hz]]]] Ht.
  - simplify_eq. exists kx'. rewrite lookup_insert_ne, lookup_insert_eq by done. auto.
  - simplify_eq. exists ky'. rewrite lookup_insert_eq. auto.
  - destruct (Hm z kz t Hz Ht) as (kt & Hkt & Hlt & ?). exists kt.
    rewrite !lookup_insert_ne; [done| |]; intros ->; simplify_eq.
Qed.

(** What [inv_link] reads of a socket. *)
Definition link_view (k : SView) : SocketState * option positive * bool := (v_state k, v_link k, v_repl k).

Lemma pair_ok_view k1 k2 k1' k2' :
  link_view k1 = link_view k1' -> link_view k2 = link_view k2' -> pair_ok k1 k2 = pair_ok k1' k2'.
Proof. unfold link_view, pair_ok. intros [= -> _ ->] [= -> _ ->]. done. Qed.

Lemma inv_link_keep m x k k' :
  inv_link m -> m !! x = Some k -> link_view k' = link_view k -> inv_link (<[x := k']> m).
Proof.
  intros Hm Hx Hv. assert (Hl : v_link k' = v_link k) by (by injection Hv). eapply inv_link_set; try done.
  unfold link_fits. destruct (v_link k') as [y|] eqn:E; [|done]. rewrite Hl in E. rename Hl into Hl'.
  destruct (Hm x k y Hx) as (ky & ? & ? & Hp); [congruence|]. exists ky. split; [done|].
  by rewrite (pair_ok_view k' ky k ky), (pair_ok_view ky k' ky k).
Qed.

Lemma inv_link_keep2 m x y kx ky kx' ky' :
  inv_link m -> m !! x = Some kx -> m !! y = Some ky -> x <> y ->
  link_view kx' = link_view kx -> link_view ky' = link_view ky -> inv_link (<[y := ky']> (<[x := kx']> m)).
Proof.
  intros Hm Hx Hy Hne Hvx Hvy. eapply inv_link_keep; [by eapply inv_link_keep| |exact Hvy].
  by rewrite lookup_insert_ne.
Qed.

(** ** Cancel requests *)

Lemma inv_cancel_fresh m x k :
  inv_cancel m -> m !! x = None -> v_canceled k = None -> v_canceling k = [] -> inv_cancel (<[x := k]> m).
Proof.
  intros (H1 & H2 & H3) Hx Hk1 Hk2. split; [|split].
  - intros c kc s. rewrite lookup_insert_Some. intros [[<- <-]|[Hne Hc]] Hs; [by rewrite Hk1 in Hs|].
    destruct (H1 c kc s Hc Hs) as (? & ks & ? & ?). split; [done|]. exists ks.
    rewrite lookup_insert_ne; [done|]. by intros ->; simplify_eq.
  - intros s ks c. rewrite lookup_insert_Some. intros [[<- <-]|[Hne Hs]] Hc; [rewrite Hk2 in Hc; set_solver|].
    destruct (H2 s ks c Hs Hc) as (? & kc & ? & ?). split; [done|]. exists kc.
    rewrite lookup_insert_ne; [done|]. by intros ->; simplify_eq.
  - intros s ks. rewrite lookup_insert_Some. intros [[<- <-]|[Hne Hs]]; [rewrite Hk2; constructor|by eapply H3].
Qed.

Lemma inv_cancel_delete m x k :
  inv_cancel m -> m !! x = Some k -> v_canceled k = None -> v_canceling k = [] -> inv_cancel (delete x m).
Proof.
  intros (H1 & H2 & H3) Hx Hk1 Hk2. split; [|split].
  - intros c kc s [Hne Hc]%lookup_delete_Some Hs. destruct (H1 c kc s Hc Hs) as (? & ks & Hks & Hin).
    split; [done|]. exists ks. rewrite lookup_delete_ne; [done|]. intros ->. simplify_eq.
    rewrite Hk2 in Hin. set_solver.
  - intros s ks c [Hne Hs]%lookup_delete_Some Hc. destruct (H2 s ks c Hs Hc) as (? & kc & Hkc & Hin).
    split; [done|]. exists kc. rewrite lookup_delete_ne; [done|]. intros ->. by simplify_eq.
  - intros s ks [Hne Hs]%lookup_delete_Some. by eapply H3.
Qed.

(** A socket that keeps its cancel references in a state that allows them. *)
Lemma inv_cancel_set m x k k' :
  inv_cancel m -> m !! x = Some k -> v_canceled k' = v_canceled k -> v_canceling k' = v_canceling k ->
  (v_canceled k = None \/ cancel_client_state (v_state k') = true) ->
  (v_canceling k = [] \/ cancel_target (v_state k') = true) -> inv_cancel (<[x := k']> m).
Proof.
  intros (H1 & H2 & H3) Hx Hk1 Hk2 Hs1 Hs2.
  assert (Hget : forall y ky, m !! y = Some ky -> exists ky', <[x := k']> m !! y = Some ky'
            /\ v_canceled ky' = v_canceled ky /\ v_canceling ky' = v_canceling ky).
  { intros y ky Hy. destruct (decide (x = y)) as [<-|]; simplify_map_eq; eauto. }
  split; [|split].
  - intros c kc s. rewrite lookup_insert_Some. intros [[<- <-]|[Hne Hc]] Hs.
    + rewrite Hk1 in Hs. destruct (H1 x k s Hx Hs) as (? & ks & Hks & Hin).
      split; [naive_solver congruence|]. destruct (Hget s ks Hks) as (ks' & ? & _ & E). exists ks'. by rewrite E.
    + destruct (H1 c kc s Hc Hs) as (? & ks & Hks & Hin). split; [done|].
      destruct (Hget s ks Hks) as (ks' & ? & _ & E). exists ks'. by rewrite E.
  - intros s ks c. rewrite lookup_insert_Some. intros [[<- <-]|[Hne Hs]] Hc.
    + rewrite Hk2 in Hc. destruct (H2 x k c Hx Hc) as (? & kc & Hkc & Hin). split.
      { destruct Hs2 as [E|]; [|done]. rewrite E in Hc. set_solver. }
      destruct (Hget c kc Hkc) as (kc' & ? & E & _). exists kc'. by rewrite E.
    + destruct (H2 s ks c Hs Hc) as (? & kc & Hkc & Hin). split; [done|].
      destruct (Hget c kc Hkc) as (kc' & ? & E & _). exists kc'. by rewrite E.
  - intros s ks. rewrite lookup_insert_Some. intros [[<- <-]|[Hne Hs]]; [rewrite Hk2|]; by eapply H3.
Qed.

(** What [inv_cancel] reads of a socket. *)
Definition cancel_view (k : SView) : SocketState * option positive * list positive :=
  (v_state k, v_canceled k, v_canceling k).

Lemma inv_cancel_keep m x k k' :
  inv_cancel m -> m !! x = Some k -> cancel_view k' = cancel_view k -> inv_cancel (<[x := k']> m).
Proof.
  intros Hm Hx [= E1 E2 E3]. destruct Hm as (H1 & H2 & H3). eapply inv_cancel_set; try done.
  - destruct (v_canceled k) as [s|] eqn:E; [right|by left]. rewrite E1. by eapply H1.
  - destruct (v_canceling k) as [|c l] eqn:E; [by left|right]. rewrite E1.
    eapply (H2 x k c); [done|]. rewrite E. set_solver.
Qed.

Lemma inv_cancel_keep2 m x y kx ky kx' ky' :
  inv_cancel m -> m !! x = Some kx -> m !! y = Some ky -> x <> y ->
  cancel_view kx' = cancel_view kx -> cancel_view ky' = cancel_view ky ->
  inv_cancel (<[y := ky']> (<[x := kx']> m)).
Proof.
  intros Hm Hx Hy Hne Hvx Hvy. eapply inv_cancel_keep; [by eapply inv_cancel_keep| |exact Hvy].
  by rewrite lookup_insert_ne.
Qed.

Lemma inv_cancel_add m c s kc ks kc' :
  inv_cancel m -> m !! c = Some kc -> m !! s = Some ks ->
  v_canceled kc = None -> is_server_state (v_state kc) = false -> cancel_target (v_state ks) = true ->
  v_canceled kc' = Some s -> cancel_client_state (v_state kc') = true -> v_canceling kc' = v_canceling kc ->
  inv_cancel (<[s := k_set_canceling (v_canceling ks ++ [c]) ks]> (<[c := kc']> m)).
Proof.
  intros (H1 & H2 & H3) Hc Hs Hn Hst Ht Hc1 Hc2 Hc3.
  assert (Hne : c <> s) by (intros ->; simplify_eq; by destruct (v_state kc)).
  assert (Hnin : forall t kt, m !! t = Some kt -> c ∉ v_canceling kt).
  { intros t kt Hkt Hin. destruct (H2 t kt c Hkt Hin) as (_ & kc2 & ? & ?). simplify_eq. }
  split; [|split].
  - intros d kd t. rewrite !lookup_insert_Some. intros [[<- <-]|[Hd1 [[<- <-]|[Hd2 Hd]]]] Ht'; cbn in Ht'.
    + destruct (H1 s ks t Hs Ht') as (E & _). by destruct (v_state ks).
    + rewrite Hc1 in Ht'. injection Ht' as <-. split; [done|]. eexists. rewrite lookup_insert_eq.
      split; [done|]. cbn. set_solver.
    + destruct (H1 d kd t Hd Ht') as (? & kt & Hkt & Hin). split; [done|].
      destruct (decide (s = t)) as [<-|].
      * eexists. rewrite lookup_insert_eq. split; [done|]. simplify_eq. cbn. set_solver.
      * destruct (decide (c = t)) as [<-|]; [|exists kt; by rewrite !lookup_insert_ne].
        simplify_eq. eexists. rewrite lookup_insert_ne, lookup_insert_eq by done. split; [done|]. by rewrite Hc3.
  - intros t kt d. rewrite !lookup_insert_Some. intros [[<- <-]|[Hd1 [[<- <-]|[Hd2 Hd]]]] Hin; cbn in Hin.
    + split; [done|]. apply elem_of_app in Hin as [Hin | ->%list_elem_of_singleton].
      * destruct (H2 s ks d Hs Hin) as (_ & kd & Hkd & ?). exists kd.
        assert (Hcl : is_server_state (v_state kd) = false)
          by (destruct (H1 d kd s Hkd) as (E & _); [done|by destruct (v_state kd)]).
        rewrite !lookup_insert_ne; [done| |]; intros E2; simplify_eq. by destruct (v_state ks).
      * eexists. rewrite lookup_insert_ne, lookup_insert_eq by done. done.
    + rewrite Hc3 in Hin. destruct (H2 c kc d Hc Hin) as (E & _). by destruct (v_state kc).
    + destruct (H2 t kt d Hd Hin) as (? & kd & Hkd & ?). split; [done|].
      destruct (decide (c = d)) as [<-|]; [simplify_eq|].
      destruct (decide (s = d)) as [<-|]; [|exists kd; by rewrite !lookup_insert_ne].
      simplify_eq. eexists. rewrite lookup_insert_eq. done.
  - intros t kt. rewrite !lookup_insert_Some. intros [[<- <-]|[Hd1 [[<- <-]|[Hd2 Hd]]]]; cbn;
      [|rewrite Hc3; by eapply H3|by eapply H3].
    apply NoDup_app. split; [by eapply H3|]. split; [|apply NoDup_singleton].
    intros y Hy ->%list_elem_of_singleton. by apply (Hnin s ks).
Qed.

Lemma inv_cancel_remove m c s kc ks :
  inv_cancel m -> m !! c = Some kc -> m !! s = Some ks -> v_canceled kc = Some s ->
  inv_cancel (<[s := k_set_canceling (filter (fun y => y <> c) (v_canceling ks)) ks]>
                (<[c := k_set_canceled None kc]> m)).
Proof.
  intros (H1 & H2 & H3) Hc Hs Hcan.
  destruct (H1 c kc s Hc Hcan) as (Hst & ks' & Hks' & Hin0). simplify_eq.
  destruct (H2 s ks c Hs Hin0) as (Ht & _).
  assert (Hne : c <> s) by (intros ->; simplify_eq; by destruct (v_state kc)).
  split; [|split].
  - intros d kd t. rewrite !lookup_insert_Some. intros [[<- <-]|[Hd1 [[<- <-]|[Hd2 Hd]]]] Ht'; cbn in Ht'; [|done|].
    + destruct (H1 s ks t Hs Ht') as (E & _). by destruct (v_state ks).
    + destruct (H1 d kd t Hd Ht') as (? & kt & Hkt & Hin). split; [done|].
      destruct (decide (s = t)) as [<-|].
      * eexists. rewrite lookup_insert_eq. split; [done|]. simplify_eq. cbn.
        apply list_elem_of_filter. done.
      * destruct (decide (c = t)) as [<-|]; [|exists kt; by rewrite !lookup_insert_ne].
        simplify_eq. eexists. rewrite lookup_insert_ne, lookup_insert_eq by done. done.
  - intros t kt d. rewrite !lookup_insert_Some. intros [[<- <-]|[Hd1 [[<- <-]|[Hd2 Hd]]]] Hin; cbn in Hin.
    + apply list_elem_of_filter in Hin as [Hdc Hin]. split; [done|].
      destruct (H2 s ks d Hs Hin) as (_ & kd & Hkd & ?). exists kd.
      assert (Hcl : is_server_state (v_state kd) = false)
        by (destruct (H1 d kd s Hkd) as (E & _); [done|by destruct (v_state kd)]).
      rewrite !lookup_insert_ne; [done|done|]. intros E2; simplify_eq. by destruct (v_state ks).
    + destruct (H2 c kc d Hc Hin) as (E & _). by destruct (v_state kc).
    + destruct (H2 t kt d Hd Hin) as (? & kd & Hkd & ?). split; [done|].
      destruct (decide (c = d)) as [<-|]; [simplify_eq|].
      destruct (decide (s = d)) as [<-|]; [|exists kd; by rewrite !lookup_insert_ne].
      simplify_eq. eexists. rewrite lookup_insert_eq. done.
  - intros t kt. rewrite !lookup_insert_Some. intros [[<- <-]|[Hd1 [[<- <-]|[Hd2 Hd]]]]; cbn;
      [apply NoDup_filter| |]; by eapply H3.
Qed.

(** ** Counting *)

Definition nat_of (b : bool) : Z := if b then 1 else 0.
Definition csize (P : SView -> bool) (m : gmap positive SView) : Z :=
  Z.of_nat (size (filter (fun xk => P xk.2 = true) m)).

Lemma csize_fresh P m x k : m !! x = None -> csize P (<[x := k]> m) = csize P m + nat_of (P k).
Proof.
  intros Hx. unfold csize. destruct (P k) eqn:E; simpl.
  - rewrite map_filter_insert_True by done. rewrite map_size_insert_None; [lia|].
    by rewrite map_lookup_filter, Hx.
  - rewrite map_filter_insert_False by (cbn; congruence). rewrite delete_id by done. lia.
Qed.

Lemma csize_delete P m x k : m !! x = Some k -> csize P m = csize P (delete x m) + nat_of (P k).
Proof.
  intros Hx. rewrite <- (insert_delete_id m x k Hx) at 1. apply csize_fresh. apply lookup_delete_eq.
Qed.

Lemma csize_set P m x k k' : m !! x = Some k -> csize P (<[x := k']> m) = csize P m - nat_of (P k) + nat_of (P k').
Proof.
  intros Hx. rewrite <- insert_delete_eq, csize_fresh by apply lookup_delete_eq.
  rewrite (csize_delete P m x k Hx). lia.
Qed.

Lemma csize_ext P Q m : (forall x k, m !! x = Some k -> P k = Q k) -> csize P m = csize Q m.
Proof.
  intros H. unfold csize. f_equal. f_equal. apply map_filter_ext. intros x k Hk. cbn. by rewrite (H x k).
Qed.

Lemma nservers_csize v f : nservers v f = csize (counts v f) (vs v).
Proof. done. Qed.

(** One entry changes and the counters follow it. *)
Lemma inv_count_upd v m l db us n p :
  inv_count v ->
  (forall x k, m !! x = Some k -> live_server (v_state k) = true ->
     exists p, v_pool k = Some p /\ is_Some (vpool v !! p)) ->
  (forall f, csize (counts v f) m =
     nservers v f + match vpool v !! p with Some pu => if f pu then n else 0 | None => 0 end) ->
  vdbcount (vcount n p (mkView m l (vpool v) (vdbcount v) (vucount v))) = db ->
  vucount (vcount n p (mkView m l (vpool v) (vdbcount v) (vucount v))) = us ->
  inv_count (mkView m l (vpool v) db us).
Proof.
  intros (H1 & H2 & H3) Hp Hc Hdb Hus. subst db us. unfold vcount; cbn [vpool vdbcount vucount vs].
  split; [done|]. split; intros d q Hq;
    rewrite nservers_csize; unfold counts; cbn [vpool vs vdbcount vucount] in *; fold (counts v);
    change (q = csize (counts v (of_db d)) m) || change (q = csize (counts v (of_user d)) m); rewrite Hc;
    destruct (vpool v !! p) as [[d0 u0]|] eqn:Ep; cbn in Hq |- *.
  - unfold bump in Hq. apply lookup_alter_Some in Hq as [(-> & q0 & Hq & ->)|[Hne Hq]]; rewrite <- (H2 _ _ Hq);
      unfold of_db; cbn; case_bool_decide; simplify_eq; lia.
  - rewrite <- (H2 _ _ Hq). lia.
  - destruct u0 as [u0|]; cbn in Hq.
    + unfold bump in Hq. apply lookup_alter_Some in Hq as [(-> & q0 & Hq & ->)|[Hne Hq]]; rewrite <- (H3 _ _ Hq);
        unfold of_user; cbn; case_bool_decide; simplify_eq; lia.
    + rewrite <- (H3 _ _ Hq). unfold of_user; cbn. case_bool_decide; [done|lia].
  - rewrite <- (H3 _ _ Hq). lia.
Qed.

(** A change that no counter sees. *)
Lemma inv_count_same v m l :
  inv_count v ->
  (forall x k, m !! x = Some k -> live_server (v_state k) = true ->
     exists p, v_pool k = Some p /\ is_Some (vpool v !! p)) ->
  (forall f, csize (counts v f) m = nservers v f) ->
  inv_count (mkView m l (vpool v) (vdbcount v) (vucount v)).
Proof.
  intros Hv Hp Hc. destruct Hv as (H1 & H2 & H3). split; [done|].
  split; intros d n Hn; rewrite nservers_csize; unfold counts; cbn [vpool vs vdbcount vucount] in *.
  - change (n = csize (counts v (of_db d)) m). rewrite Hc. by apply H2.
  - change (n = csize (counts v (of_user d)) m). rewrite Hc. by apply H3.
Qed.

Lemma counts_set v f k k' :
  live_server (v_state k') = live_server (v_state k) ->
  (live_server (v_state k) = true -> v_pool k' = v_pool k) -> counts v f k' = counts v f k.
Proof. intros H1 H2. unfold counts. rewrite H1. destruct (live_server (v_state k)); [by rewrite H2|done]. Qed.

Lemma inv_count_set v x k k' l :
  inv_count v -> vs v !! x = Some k -> live_server (v_state k') = live_server (v_state k) ->
  (live_server (v_state k) = true -> v_pool k' = v_pool k) ->
  inv_count (mkView (<[x := k']> (vs v)) l (vpool v) (vdbcount v) (vucount v)).
Proof.
  intros Hv Hx H1 H2. apply inv_count_same; [done| |].
  - intros y ky. rewrite lookup_insert_Some. intros [[<- <-]|[_ Hy]] Hl; [|by eapply (proj1 Hv)].
    rewrite H1 in Hl. rewrite H2 by done. by eapply (proj1 Hv).
  - intros f. rewrite (csize_set _ _ _ k) by done. rewrite (counts_set v f k k') by done.
    rewrite nservers_csize. lia.
Qed.

Lemma inv_count_move v x k k' f l :
  inv_count v -> vs v !! x = Some k -> live_server (v_state k') = live_server (v_state k) ->
  (live_server (v_state k) = true -> v_pool k' = v_pool k) -> inv_count (vmove f x l k' v).
Proof. intros. by eapply inv_count_set. Qed.

(** ** Every transition keeps the invariants *)

Lemma counts_dead v f k : live_server (v_state k) = false -> counts v f k = false.
Proof. intros H. unfold counts. by rewrite H. Qed.

Lemma counts_live v f k p pu :
  live_server (v_state k) = true -> v_pool k = Some p -> vpool v !! p = Some pu -> counts v f k = f pu.
Proof. intros H Hp Hpu. unfold counts. rewrite H, Hp. cbn. by rewrite Hpu. Qed.

Lemma is_Some_k_slot_pool k p : v_pool k = Some p -> live_server (v_state k) = true -> is_Some (k_slot k).
Proof. intros Hp Hl. unfold k_slot, slot_of. rewrite Hp. destruct (v_state k); cbn in *; eauto; done. Qed.

Lemma vs_vcount n p v : vs (vcount n p v) = vs v.
Proof. unfold vcount. by destruct (vpool v !! p) as [[d u]|]. Qed.

Lemma vlists_vcount n p v : vlists (vcount n p v) = vlists v.
Proof. unfold vcount. by destruct (vpool v !! p) as [[d u]|]. Qed.

Lemma vpool_vcount n p v : vpool (vcount n p v) = vpool v.
Proof. unfold vcount. by destruct (vpool v !! p) as [[d u]|]. Qed.

(** A cancel request is not its own target. *)
Lemma cancel_not_self (m : gmap positive SView) c s kc ks :
  m !! c = Some kc -> m !! s = Some ks -> is_server_state (v_state kc) = false ->
  cancel_target (v_state ks) = true -> c <> s.
Proof. intros Hc Hs H1 H2 ->. simplify_eq. by destruct (v_state kc). Qed.

Lemma login_not_server (m : gmap positive SView) c s kc ks :
  m !! c = Some kc -> m !! s = Some ks -> v_state kc = CL_LOGIN ->
  v_state ks = SV_LOGIN \/ v_state ks = SV_ACTIVE -> c <> s.
Proof. intros Hc Hs H1 H2 ->. simplify_eq. naive_solver congruence. Qed.

Lemma canceled_not_self m c s kc : inv_cancel m -> m !! c = Some kc -> v_canceled kc = Some s -> c <> s.
Proof.
  intros (H1 & H2 & _) Hc Hs. destruct (H1 c kc s Hc Hs) as (? & ks & Hks & Hin).
  destruct (H2 s ks c Hks Hin) as (? & _). eapply cancel_not_self; [done..| |done]. by destruct (v_state kc).
Qed.

(** The links follow. *)
Lemma step_link v v' : Inv v -> vstep v v' -> inv_link (vs v').
Proof.
  intros (_ & Hm & Hcan & _) Hstep. destruct Hstep; rewrite ?vs_vcount; cbn [vmove vset vdelete vs].
  - by apply inv_link_fresh.
  - by apply inv_link_fresh.
  - assert (c <> s) by (intros ->; simplify_eq; naive_solver congruence).
    eapply inv_link_pair; try done.
    + eapply inv_link_none; [done|done|]. intros k'. unfold pair_ok.
      match goal with E : v_state ks = _ |- _ => rewrite E end. by destruct (v_state k').
    + unfold pair_ok; cbn. match goal with E : _ \/ _ |- _ => by destruct E as [-> | ->] end.
  - assert (c <> s) by (intros ->; simplify_eq; congruence).
    eapply inv_link_pair; try done. unfold pair_ok; cbn.
    repeat match goal with E : v_state _ = _ |- _ => rewrite E; clear E end. done.
  - assert (c <> s) by (intros ->; simplify_eq; naive_solver congruence).
    eapply inv_link_pair; try done. unfold pair_ok; cbn.
    repeat match goal with E : v_state ks = _ |- _ => rewrite E; clear E | E : v_repl _ = _ |- _ => rewrite E; clear E end.
    match goal with E : _ \/ _ |- _ => by destruct E as [-> | ->] end.
  - by apply inv_link_unpair.
  - by eapply inv_link_set.
  - assert (c <> s) by (intros ->; simplify_eq; congruence). eapply inv_link_repair; try done.
  - by eapply inv_link_set.
  - eapply inv_link_set; [done|done|done|]. unfold link_fits; cbn. by rewrite H1.
  - rewrite vs_vcount. eapply inv_link_set; [done|done|done|]. unfold link_fits; cbn. by rewrite H1.
  - eapply inv_link_delete; [done|done|]. eapply inv_link_none; [done|done|]. intros k'. unfold pair_ok.
    destruct H0 as [-> | ->]; by destruct (v_state k').
  - assert (c <> s) by (by eapply login_not_server).
    eapply inv_link_set; [eapply (inv_link_keep _ s ks); done|rewrite lookup_insert_ne by done; done|done|].
    unfold link_fits; cbn. match goal with E : v_link kc = None |- _ => by rewrite E end.
  - eapply inv_link_keep2; [done|done|done|by eapply canceled_not_self|done|done].
  - eapply inv_link_keep; done.
  - eapply inv_link_set; [done|done|done|]. unfold link_fits; cbn. by rewrite H0.
  - done.
Qed.

(** Nobody waits for a cancel request that cannot come: a socket in no cancel
    state has no cancel references. *)
Lemma no_canceled m x k :
  inv_cancel m -> m !! x = Some k -> cancel_client_state (v_state k) = false -> v_canceled k = None.
Proof.
  intros (H1 & _) Hx Hk. destruct (v_canceled k) as [s|] eqn:E; [|done].
  destruct (H1 x k s Hx E) as [Hs _]. congruence.
Qed.

Lemma no_canceling m x k :
  inv_cancel m -> m !! x = Some k -> cancel_target (v_state k) = false -> v_canceling k = [].
Proof.
  intros (_ & H2 & _) Hx Hk. destruct (v_canceling k) as [|c l] eqn:E; [done|].
  destruct (H2 x k c Hx) as [Hs _]; [rewrite E; set_solver|]. congruence.
Qed.

(** A client's state takes no cancel requests, a server's makes none. *)
Lemma client_no_canceling m x k :
  inv_cancel m -> m !! x = Some k -> is_server_state (v_state k) = false -> v_canceling k = [].
Proof. intros Hm Hx Hk. eapply no_canceling; [done..|]. by destruct (v_state k). Qed.

Lemma server_no_canceled m x k :
  inv_cancel m -> m !! x = Some k -> is_server_state (v_state k) = true -> v_canceled k = None.
Proof. intros Hm Hx Hk. eapply no_canceled; [done..|]. by destruct (v_state k). Qed.

Lemma busy_is_client st : busy_client_state st = true -> is_server_state st = false.
Proof. by destruct st. Qed.
Lemma live_is_server st : live_server st = true -> is_server_state st = true.
Proof. by destruct st. Qed.
#[export] Hint Resolve busy_is_client live_is_server client_no_canceling server_no_canceled : pgb.

Lemma step_cancel v v' : Inv v -> vstep v v' -> inv_cancel (vs v').
Proof.
  intros (_ & Hl & Hm & _) Hstep. destruct Hstep; rewrite ?vs_vcount; cbn [vmove vset vdelete vs].
  - by apply inv_cancel_fresh.
  - by apply inv_cancel_fresh.
  - assert (c <> s) by (intros ->; simplify_eq; naive_solver congruence).
    apply (inv_cancel_set _ s ks); [by eapply inv_cancel_keep|by rewrite lookup_insert_ne|done|done| |by right].
    left. eapply server_no_canceled; [done..|]. match goal with E : v_state ks = _ |- _ => by rewrite E end.
  - eapply inv_cancel_keep2; [done..| |done|done]. intros ->; simplify_eq; congruence.
  - eapply inv_cancel_keep2; [done..| |done|done]. intros ->; simplify_eq; naive_solver congruence.
  - eapply inv_cancel_keep2; [done..| |done|done]. intros ->; simplify_eq.
    by eapply (inv_link_not_self (vs v)).
  - eapply inv_cancel_set; try done; [by left|left; eauto with pgb].
  - assert (c <> s) by (intros ->; simplify_eq; congruence).
    apply (inv_cancel_set _ s ks);
      [eapply inv_cancel_set; [done..|by right|]|by rewrite lookup_insert_ne|done|done| |by left]; left.
    + eapply client_no_canceling; [done..|]. match goal with E : v_state kc = _ |- _ => by rewrite E end.
    + eapply server_no_canceled; [done..|]. match goal with E : v_state ks = _ |- _ => by rewrite E end.
  - eapply inv_cancel_set; try done. left. eauto with pgb.
  - eapply inv_cancel_set; try done; left; [done|]. eauto with pgb.
  - rewrite vs_vcount. eapply inv_cancel_set; try done; left; [|done]. eauto with pgb.
  - eapply inv_cancel_delete; [done..| |].
    + eapply no_canceled; [done..|]. match goal with E : _ \/ _ |- _ => by destruct E as [-> | ->] end.
    + eapply no_canceling; [done..|]. match goal with E : _ \/ _ |- _ => by destruct E as [-> | ->] end.
  - assert (c <> s) by (by eapply login_not_server). rewrite insert_insert_ne by done.
    assert (Hcl : v_canceled kc = None)
      by (eapply no_canceled; [done..|match goal with E : v_state kc = _ |- _ => by rewrite E end]).
    eapply inv_cancel_add; [done|done|done|done| | |done|done|done].
    + match goal with E : v_state kc = _ |- _ => by rewrite E end.
    + match goal with E : _ \/ _ |- _ => by destruct E as [-> | ->] end.
  - by apply inv_cancel_remove.
  - eapply inv_cancel_keep; done.
  - eapply inv_cancel_keep; done.
  - done.
Qed.

Lemma inv_count_fresh_dead v x k l :
  inv_count v -> vs v !! x = None -> live_server (v_state k) = false ->
  inv_count (mkView (<[x := k]> (vs v)) l (vpool v) (vdbcount v) (vucount v)).
Proof.
  intros Hv Hx Hk. apply inv_count_same; [done| |].
  - intros y ky. rewrite lookup_insert_Some. intros [[<- <-]|[_ Hy]] Hl; [congruence|by eapply (proj1 Hv)].
  - intros f. rewrite csize_fresh, counts_dead by done. rewrite nservers_csize. simpl. lia.
Qed.

Lemma inv_count_launch v s p k l :
  inv_count v -> vs v !! s = None -> is_Some (vpool v !! p) -> v_pool k = Some p ->
  live_server (v_state k) = true ->
  inv_count (vcount 1 p (mkView (<[s := k]> (vs v)) l (vpool v) (vdbcount v) (vucount v))).
Proof.
  intros Hv Hs [pu Hp] Hk Hl.
  assert (H : inv_count (mkView (<[s := k]> (vs v)) l (vpool v)
     (vdbcount (vcount 1 p (mkView (<[s := k]> (vs v)) l (vpool v) (vdbcount v) (vucount v))))
     (vucount (vcount 1 p (mkView (<[s := k]> (vs v)) l (vpool v) (vdbcount v) (vucount v)))))).
  { eapply inv_count_upd; [done| | |reflexivity|reflexivity].
    - intros y ky. rewrite lookup_insert_Some. intros [[<- <-]|[_ Hy]] Hly; [by eauto|by eapply (proj1 Hv)].
    - intros f. rewrite csize_fresh by done. rewrite (counts_live _ _ _ p pu) by done. rewrite Hp, nservers_csize.
      unfold nat_of. done. }
  unfold vcount in *; cbn [vpool] in *. rewrite Hp in *. destruct pu. exact H.
Qed.

Lemma inv_count_close v s p k k' l :
  inv_count v -> vs v !! s = Some k -> v_pool k = Some p -> live_server (v_state k) = true ->
  live_server (v_state k') = false ->
  inv_count (mkView (<[s := k']> (vs v)) l (vpool v) (vdbcount (vcount (-1) p v)) (vucount (vcount (-1) p v))).
Proof.
  intros Hv Hs Hk Hl Hd. destruct (proj1 Hv s k Hs Hl) as (p' & Hk' & [pu Hp]). simplify_eq.
  eapply (inv_count_upd v _ _ _ _ (-1) p); [done| | | |].
  - intros y ky. rewrite lookup_insert_Some. intros [[<- <-]|[_ Hy]] Hly; [congruence|by eapply (proj1 Hv)].
  - intros f. rewrite (csize_set _ _ _ k) by done. rewrite (counts_live _ _ _ p pu), counts_dead by done.
    rewrite Hp, nservers_csize. unfold nat_of. destruct (f pu); lia.
  - unfold vcount; cbn [vpool]. rewrite Hp. by destruct pu.
  - unfold vcount; cbn [vpool]. rewrite Hp. by destruct pu.
Qed.

Lemma inv_count_delete v x k l :
  inv_count v -> vs v !! x = Some k -> live_server (v_state k) = false ->
  inv_count (mkView (delete x (vs v)) l (vpool v) (vdbcount v) (vucount v)).
Proof.
  intros Hv Hx Hk. apply inv_count_same; [done| |].
  - intros y ky [_ Hy]%lookup_delete_Some Hl. by eapply (proj1 Hv).
  - intros f. rewrite nservers_csize, (csize_delete _ (vs v) x k) by done. rewrite counts_dead by done.
    unfold nat_of. lia.
Qed.

Lemma inv_count_new_pool v p pu :
  inv_count v -> vpool v !! p = None ->
  inv_count (mkView (vs v) (vlists v) (<[p := pu]> (vpool v)) (vdbcount v) (vucount v)).
Proof.
  intros (H1 & H2 & H3) Hp.
  assert (Hc : forall f, nservers (mkView (vs v) (vlists v) (<[p := pu]> (vpool v)) (vdbcount v) (vucount v)) f
                         = nservers v f).
  { intros f. rewrite !nservers_csize. apply csize_ext. intros x k Hx. unfold counts.
    destruct (live_server (v_state k)) eqn:El; [|done]. destruct (H1 x k Hx El) as (q & -> & [qu Hq]).
    cbn [vpool]. cbn [mbind option_bind]. rewrite lookup_insert_ne; [done|]. intros ->. congruence. }
  split; [|split].
  - intros x k Hx Hl. destruct (H1 x k Hx Hl) as (q & ? & [qu Hq]). exists q. split; [done|]. cbn [vpool].
    exists qu. rewrite lookup_insert_ne; [done|]. intros ->. congruence.
  - intros d n Hn. rewrite Hc. by apply H2.
  - intros d n Hn. rewrite Hc. by apply H3.
Qed.

(** A second entry changes beside the first. *)
Lemma inv_count_set2 v x y kx ky kx' ky' l :
  inv_count v -> vs v !! x = Some kx -> vs v !! y = Some ky -> x <> y ->
  live_server (v_state kx') = live_server (v_state kx) -> v_pool kx' = v_pool kx ->
  live_server (v_state ky') = live_server (v_state ky) -> v_pool ky' = v_pool ky ->
  inv_count (mkView (<[y := ky']> (<[x := kx']> (vs v))) l (vpool v) (vdbcount v) (vucount v)).
Proof.
  intros Hv Hx Hy Hne Hx1 Hx2 Hy1 Hy2.
  apply (inv_count_set (vset x kx' v) y ky); [by eapply inv_count_set| |done|done].
  cbn. by rewrite lookup_insert_ne.
Qed.

Lemma step_count v v' : Inv v -> vstep v v' -> inv_count v'.
Proof.
  intros (_ & Hl & Hm & Hv & _) Hstep. destruct Hstep; unfold vset, vmove, vdelete; cbn [vs vpool vdbcount vucount vlists].
  - by apply inv_count_fresh_dead.
  - by apply inv_count_launch.
  - assert (c <> s) by (intros ->; simplify_eq; naive_solver congruence).
    eapply inv_count_set2; try done. cbn. match goal with E : v_state ks = _ |- _ => by rewrite E end.
  - eapply inv_count_set2; try done. intros ->; simplify_eq; congruence.
  - eapply inv_count_set2; try done. intros ->; simplify_eq; naive_solver congruence.
  - eapply inv_count_set2; try done. intros ->; simplify_eq. by eapply (inv_link_not_self (vs v)).
  - eapply inv_count_set; try done. cbn. by destruct (v_state k), st.
  - assert (c <> s) by (intros ->; simplify_eq; congruence). eapply inv_count_set2; try done; cbn;
      match goal with E : v_state _ = _ |- _ => by rewrite E end.
  - eapply inv_count_set; try done. cbn. congruence.
  - eapply inv_count_set; try done. cbn. by destruct (v_state k).
  - rewrite vs_vcount, vpool_vcount. by eapply inv_count_close.
  - eapply inv_count_delete; [done..|]. match goal with E : _ \/ _ |- _ => by destruct E as [-> | ->] end.
  - assert (c <> s) by (by eapply login_not_server).
    rewrite insert_insert_ne by done. change (vlists (vset s ?k v)) with (vlists v).
    apply (inv_count_set (vset c (k_set_canceled (Some s) (k_set_pool (Some p) (k_set_state CL_WAITING_CANCEL kc))) v) s ks);
      [eapply inv_count_set; [done..| |]; cbn|by cbn; rewrite lookup_insert_ne|done|done];
      match goal with E : v_state kc = _ |- _ => by rewrite E end.
  - eapply inv_count_set2; try done. by eapply canceled_not_self.
  - eapply inv_count_set; try done. cbn. match goal with E : v_state k = _ |- _ => by rewrite E end.
  - by eapply inv_count_set.
  - by apply inv_count_new_pool.
Qed.

Lemma inv_loc_move' f x k k' v :
  inv_loc v -> vs v !! x = Some k -> is_Some (k_slot k') -> inv_loc (vmove f x (k_slot k) k' v).
Proof. intros Hv Hx Hk. pose proof (inv_loc_move f x k' v Hv Hk) as H. by rewrite Hx in H. Qed.

(** A server's state change keeps it in a list of its pool. *)
Lemma live_slot v x k st :
  inv_count v -> vs v !! x = Some k -> live_server (v_state k) = true -> live_server st = true ->
  is_Some (k_slot (k_set_state st k)).
Proof.
  intros Hv Hx Hk Hst. destruct (proj1 Hv x k Hx Hk) as (p & Hp & _).
  by eapply (is_Some_k_slot_pool _ p).
Qed.

Lemma inv_loc_set2 v x y kx ky kx' ky' :
  inv_loc v -> vs v !! x = Some kx -> vs v !! y = Some ky -> x <> y ->
  k_slot kx' = k_slot kx -> k_slot ky' = k_slot ky -> inv_loc (vset y ky' (vset x kx' v)).
Proof.
  intros Hv Hx Hy Hne Hsx Hsy. eapply inv_loc_set; [by eapply inv_loc_set| |exact Hsy].
  cbn. by rewrite lookup_insert_ne.
Qed.

Lemma step_loc v v' : Inv v -> vstep v v' -> inv_loc v'.
Proof.
  intros (Hv & Hl & Hm & Hn & _) Hstep. destruct Hstep.
  - pose proof (inv_loc_move front c (mkSView CL_LOGIN None None false None []) v Hv) as G.
    rewrite H in G. apply G. by eexists.
  - apply inv_loc_vcount.
    pose proof (inv_loc_move front s (mkSView SV_LOGIN (Some p) None false None []) v Hv) as G.
    rewrite H in G. apply G. by eexists.
  - assert (c <> s) by (intros ->; simplify_eq; naive_solver congruence).
    apply (inv_loc_move' _ _ ks); [by eapply inv_loc_set|by cbn; rewrite lookup_insert_ne|].
    eapply (live_slot v s ks SV_ACTIVE); try done. match goal with E : v_state ks = _ |- _ => by rewrite E end.
  - eapply inv_loc_set2; try done. intros ->; simplify_eq; congruence.
  - eapply inv_loc_set2; try done. intros ->; simplify_eq; naive_solver congruence.
  - eapply inv_loc_set2; try done. intros ->; simplify_eq. by eapply (inv_link_not_self (vs v)).
  - by apply inv_loc_move'.
  - assert (c <> s) by (intros ->; simplify_eq; congruence).
    assert (is_Some (v_pool kc)) as [p Hp].
    { destruct Hv as (_ & _ & Hs). destruct (Hs c kc) as [sl Hsl]; [done|]. unfold k_slot in Hsl.
      match goal with E : v_state kc = _ |- _ => rewrite E in Hsl end. destruct (v_pool kc); [eauto|done]. }
    apply inv_loc_move'; [apply inv_loc_move'; [done..|]|by cbn; rewrite lookup_insert_ne|].
    + unfold k_slot; cbn. rewrite Hp. by eexists.
    + eapply (live_slot v s ks); try done. match goal with E : v_state ks = _ |- _ => by rewrite E end.
  - apply inv_loc_move'; [done..|]. by eapply live_slot.
  - apply inv_loc_move'; [done..|]. by eexists.
  - apply inv_loc_move'; [by apply inv_loc_vcount|by rewrite vs_vcount|]. by eexists.
  - by apply inv_loc_delete.
  - assert (c <> s) by (by eapply login_not_server).
    apply inv_loc_move'; [by eapply inv_loc_set|by cbn; rewrite lookup_insert_ne|]. by eexists.
  - eapply inv_loc_set2; try done. by eapply canceled_not_self.
  - eapply inv_loc_set; [done..|]. unfold k_slot; cbn. match goal with E : v_state k = _ |- _ => by rewrite E end.
  - by eapply inv_loc_set.
  - done.
Qed.

(** Servers that are held back keep waiting for the same requests. *)
Lemma inv_held_upd m m' :
  inv_held m ->
  (forall s k', m' !! s = Some k' -> v_state k' = SV_BEING_CANCELED ->
     exists k, m !! s = Some k /\ v_state k = SV_BEING_CANCELED /\ forall c, c ∈ v_canceling k' -> c ∈ v_canceling k) ->
  (forall c k s ks, m !! c = Some k -> v_state k = CL_ACTIVE_CANCEL -> m !! s = Some ks -> c ∈ v_canceling ks ->
     exists k', m' !! c = Some k' /\ v_state k' = CL_ACTIVE_CANCEL) -> inv_held m'.
Proof.
  intros Hm Hs Hc s k' Hk' Hst c Hin. destruct (Hs s k' Hk' Hst) as (k & Hk & Hst' & Hsub).
  destruct (Hm s k Hk Hst' c) as (kc & Hkc & Hstc); [auto|]. eauto.
Qed.

(** One entry changes: it was and is no held server, or is unchanged as one;
    if it is a request in flight that somebody waits for, it stays in flight. *)
Lemma inv_held_set m x k k' :
  inv_held m -> inv_cancel m -> m !! x = Some k ->
  (v_state k' = SV_BEING_CANCELED -> v_state k = SV_BEING_CANCELED /\ forall c, c ∈ v_canceling k' -> c ∈ v_canceling k) ->
  (v_state k = CL_ACTIVE_CANCEL -> v_canceled k = None \/ v_state k' = CL_ACTIVE_CANCEL) ->
  inv_held (<[x := k']> m).
Proof.
  intros Hm (_ & H2 & _) Hx Hs Hc. eapply inv_held_upd; [done| |].
  - intros s ks. rewrite lookup_insert_Some. intros [[<- <-]|[Hne Hk]] Hst; [|by eauto].
    destruct (Hs Hst) as [? ?]. eauto.
  - intros c kc s ks Hkc Hst Hks Hin. destruct (decide (x = c)) as [<-|]; [|by rewrite lookup_insert_ne; eauto].
    rewrite lookup_insert_eq. simplify_eq. exists k'. split; [done|]. destruct (Hc Hst) as [Hn|]; [|done].
    destruct (H2 s ks x Hks Hin) as (_ & kx & ? & ?). simplify_eq.
Qed.

Lemma inv_held_keep m x k k' :
  inv_held m -> m !! x = Some k -> v_state k' = v_state k ->
  (forall c, c ∈ v_canceling k' -> c ∈ v_canceling k) -> inv_held (<[x := k']> m).
Proof.
  intros Hm Hx Hst Hsub. eapply inv_held_upd; [done| |].
  - intros s ks. rewrite lookup_insert_Some. intros [[<- <-]|[Hne Hk]] ?; [exists k|by eauto].
    split; [done|]. split; [congruence|done].
  - intros c kc s ks Hkc ? ? ?. destruct (decide (x = c)) as [<-|]; [|by rewrite lookup_insert_ne; eauto].
    rewrite lookup_insert_eq. simplify_eq. exists k'. split; [done|congruence].
Qed.

Lemma inv_held_fresh m x k : inv_held m -> m !! x = None -> v_state k <> SV_BEING_CANCELED -> inv_held (<[x := k]> m).
Proof.
  intros Hm Hx Hk. eapply inv_held_upd; [done| |].
  - intros s ks. rewrite lookup_insert_Some. intros [[<- <-]|[Hne Hs]] ?; [done|eauto].
  - intros c kc s ks Hc ? ? ?. exists kc. rewrite lookup_insert_ne; [done|]. intros ->. congruence.
Qed.

Lemma inv_held_delete m x k :
  inv_held m -> m !! x = Some k -> v_state k <> CL_ACTIVE_CANCEL -> inv_held (delete x m).
Proof.
  intros Hm Hx Hk. eapply inv_held_upd; [done| |].
  - intros s ks [Hne Hs]%lookup_delete_Some ?. eauto.
  - intros c kc s ks Hc ? ? ?. exists kc. rewrite lookup_delete_ne; [done|]. intros ->. congruence.
Qed.

Lemma step_held v v' : Inv v -> vstep v v' -> inv_held (vs v').
Proof.
  intros (_ & Hl & Hm & _ & Hh & _) Hstep. destruct Hstep; rewrite ?vs_vcount; cbn [vmove vset vdelete vs].
  - by apply inv_held_fresh.
  - by apply inv_held_fresh.
  - assert (c <> s) by (intros ->; simplify_eq; naive_solver congruence).
    apply (inv_held_set _ s ks); [by eapply inv_held_keep|by eapply inv_cancel_keep|by rewrite lookup_insert_ne|done|].
    cbn. congruence.
  - assert (c <> s) by (intros ->; simplify_eq; congruence).
    apply (inv_held_keep _ s ks); [by eapply inv_held_keep|by rewrite lookup_insert_ne|done|done].
  - assert (c <> s) by (intros ->; simplify_eq; naive_solver congruence).
    apply (inv_held_keep _ s ks); [by eapply inv_held_keep|by rewrite lookup_insert_ne|done|done].
  - assert (x <> y) by (intros ->; simplify_eq; by eapply (inv_link_not_self (vs v))).
    apply (inv_held_keep _ y ky); [by eapply inv_held_keep|by rewrite lookup_insert_ne|done|done].
  - eapply inv_held_set; [done..| |]; cbn; [by destruct st|]. naive_solver.
  - assert (c <> s) by (intros ->; simplify_eq; congruence). eapply inv_held_upd; [done| |].
    + intros t kt. rewrite !lookup_insert_Some. intros [[<- <-]|[? [[<- <-]|[? Ht]]]] ?; [done|done|eauto].
    + intros d kd t kt Hd Hst Ht Hin. exists kd. rewrite !lookup_insert_ne; [done| |]; intros ->; simplify_eq; congruence.
  - destruct (decide (st = SV_BEING_CANCELED)) as [->|Hne].
    + intros t kt. rewrite lookup_insert_Some. intros Ht Hst c Hin.
      assert (Hc : exists kc, vs v !! c = Some kc /\ v_state kc = CL_ACTIVE_CANCEL).
      { destruct Ht as [[<- <-]|[Hd Ht]]; [|by eapply (Hh t)].
        match goal with E : _ -> in_flight _ _ |- _ => by apply E end. }
      destruct Hc as (kc & Hkc & Hstc). exists kc. rewrite lookup_insert_ne; [done|]. intros ->. simplify_eq.
      by rewrite Hstc in *.
    + eapply inv_held_set; [done..| |]; cbn; [done|]. intros E. by rewrite E in *.
  - eapply inv_held_set; [done..| |]; cbn; [done|]. by left.
  - rewrite vs_vcount. eapply inv_held_set; [done..| |]; cbn; [done|]. intros E. by rewrite E in *.
  - eapply inv_held_delete; [done..|]. match goal with E : _ \/ _ |- _ => by destruct E as [-> | ->] end.
  - assert (c <> s) by (by eapply login_not_server). rewrite insert_insert_ne by done.
    intros t kt. rewrite !lookup_insert_Some. intros Ht Hst d Hin.
    destruct Ht as [[<- <-]|[Hd1 [[<- <-]|[Hd2 Ht]]]]; [cbn in Hst; naive_solver congruence|done|].
    destruct (Hh t kt Ht Hst d Hin) as (kd & Hkd & Hstd). exists kd.
    rewrite !lookup_insert_ne; [done| |]; intros ->; simplify_eq; naive_solver congruence.
  - assert (c <> s) by (by eapply canceled_not_self).
    apply (inv_held_keep _ s ks); [by eapply inv_held_keep|by rewrite lookup_insert_ne|done|].
    cbn. intros d Hd. by apply list_elem_of_filter in Hd as [_ ?].
  - by eapply inv_held_keep.
  - by eapply inv_held_keep.
  - done.
Qed.

(** Only [launch_new_connection] puts a server into the list of new ones. *)
Lemma k_slot_new k p : v_state k <> SV_LOGIN -> k_slot k <> Some (PoolSlot p new_server_list).
Proof. unfold k_slot, slot_of. by destruct (v_state k), (v_pool k). Qed.

Lemma zlen_unlist x o m s : zlen (lst (unlist x o m) s) <= zlen (lst m s).
Proof.
  destruct o as [s0|]; simpl; [|lia]. rewrite lst_insert. destruct (decide (s0 = s)) as [->|]; [|lia].
  unfold zlen. pose proof (length_filter (fun y => y <> x) (lst m s)). lia.
Qed.

Lemma lst_enlist_other f x o m s : o <> Some s -> lst (enlist f x o m) s = lst m s.
Proof. intros Ho. destruct o as [s0|]; simpl; [|done]. rewrite lst_insert. case_decide; [congruence|done]. Qed.

Lemma lst_unlist_other x o m s : o <> Some s -> lst (unlist x o m) s = lst m s.
Proof. intros Ho. destruct o as [s0|]; simpl; [|done]. rewrite lst_insert. case_decide; [congruence|done]. Qed.

Lemma lst_enlist_front x m s : lst (enlist true x (Some s) m) s = x :: lst m s.
Proof. simpl. rewrite lst_insert. by rewrite decide_True. Qed.

Lemma inv_single_move f x o k v : inv_single v -> v_state k <> SV_LOGIN -> inv_single (vmove f x o k v).
Proof.
  intros Hv Hk p. cbn [vmove vlists]. rewrite lst_enlist_other by (by apply k_slot_new).
  pose proof (zlen_unlist x o (vlists v) (PoolSlot p new_server_list)). specialize (Hv p). lia.
Qed.

Lemma step_single v v' : Inv v -> vstep v v' -> inv_single v'.
Proof.
  intros (_ & _ & _ & _ & _ & Hv) Hstep. destruct Hstep; try done; try (by apply inv_single_move).
  - intros q. rewrite vlists_vcount. cbn [vmove vlists unlist].
    change (k_slot _) with (Some (PoolSlot p new_server_list)). cbn [enlist]. rewrite lst_insert. case_decide as E; [injection E as <-|apply Hv].
    match goal with E : lst _ _ = [] |- _ => rewrite E end. by destruct front.
  - apply inv_single_move; [done|]. cbn. intros ->. done.
  - apply inv_single_move; [by apply inv_single_move|done].
  - apply inv_single_move; [|done]. intros q. rewrite vlists_vcount. apply Hv.
  - intros q. cbn [vdelete vlists].
    pose proof (zlen_unlist x (k_slot k) (vlists v) (PoolSlot q new_server_list)). specialize (Hv q). lia.
Qed.


Lemma step_inv v v' : Inv v -> vstep v v' -> Inv v'.
Proof.
  intros Hv Hs. split; [by eapply step_loc|]. split; [by eapply step_link|].
  split; [by eapply step_cancel|]. split; [by eapply step_count|].
  split; [by eapply step_held|by eapply step_single].
Qed.

(** ** What a run of transitions does

    A socket is parked when it is in a state in which it normally has a
    partner, and has none: it is idle, or somebody is busy closing it.
    Running other sockets does not touch it. *)
Definition parks (st : SocketState) : bool :=
  match st with CL_ACTIVE | CL_LOGIN | CL_ACTIVE_CANCEL | SV_ACTIVE | SV_ACTIVE_CANCEL => true | _ => false end.

Definition parked (v : View) (x : positive) (st : SocketState) : Prop :=
  exists k, vs v !! x = Some k /\ v_state k = st /\ v_link k = None /\ v_canceled k = None /\ parks st = true.

Definition frame (X : positive -> Prop) (v v' : View) : Prop :=
  forall x st, ~ X x -> parked v x st -> parked v' x st.

(** [runs X v v']: transitions lead from [v] to [v'], and parked sockets
    outside [X] stay as they are. *)
Definition runs (X : positive -> Prop) (v v' : View) : Prop := rtc vstep v v' /\ frame X v v'.

Lemma rtc_inv v v' : Inv v -> rtc vstep v v' -> Inv v'.
Proof. intros Hv Hr. induction Hr; [done|]. eauto using step_inv. Qed.

Lemma runs_inv X v v' : Inv v -> runs X v v' -> Inv v'.
Proof. intros Hv [Hr _]. by eapply rtc_inv. Qed.

Lemma runs_refl X v : runs X v v.
Proof. split; [done|]. by intros x st. Qed.

Lemma runs_trans X v1 v2 v3 : runs X v1 v2 -> runs X v2 v3 -> runs X v1 v3.
Proof. intros [H1 F1] [H2 F2]. split; [by etrans|]. intros x st Hx Hp. auto. Qed.

Lemma runs_mono (X Y : positive -> Prop) v v' : runs X v v' -> (forall x, X x -> Y x) -> runs Y v v'.
Proof. intros [Hr Hf] HXY. split; [done|]. intros x st Hx. apply Hf. auto. Qed.

Lemma runs_one X v v' : vstep v v' -> frame X v v' -> runs X v v'.
Proof. intros Hs Hf. split; [by apply rtc_once|done]. Qed.

#[export] Hint Resolve runs_refl : pgb.

(** Transitions that leave the sockets outside [X] in their state and with
    their link; at most a cancel request loses its target. *)
Definition calm (k k' : SView) : Prop :=
  v_state k' = v_state k /\ v_pool k' = v_pool k /\ v_link k' = v_link k /\ v_repl k' = v_repl k /\
  (v_canceled k' = v_canceled k \/ v_canceled k' = None).

Definition quiet (X : positive -> Prop) (v v' : View) : Prop :=
  rtc vstep v v' /\
  (forall x k, ~ X x -> vs v !! x = Some k -> exists k', vs v' !! x = Some k' /\ calm k k') /\
  (forall x, vs v !! x = None -> vs v' !! x = None) /\
  vpool v' = vpool v.

Lemma calm_refl k : calm k k.
Proof. repeat split; by try left. Qed.

Lemma calm_trans k1 k2 k3 : calm k1 k2 -> calm k2 k3 -> calm k1 k3.
Proof. unfold calm. intuition congruence. Qed.

Lemma quiet_refl X v : quiet X v v.
Proof. split; [done|]. split; [|done]. intros x k _ Hk. exists k. split; [done|apply calm_refl]. Qed.

Lemma quiet_trans X v1 v2 v3 : quiet X v1 v2 -> quiet X v2 v3 -> quiet X v1 v3.
Proof.
  intros (R1 & Q1 & N1 & P1) (R2 & Q2 & N2 & P2). split; [by etrans|]. split; [|split; [auto|congruence]]. intros x k Hx Hk.
  destruct (Q1 x k Hx Hk) as (k1 & H1 & C1). destruct (Q2 x k1 Hx H1) as (k2 & H2 & C2).
  exists k2. split; [done|by eapply calm_trans].
Qed.

Lemma quiet_mono (X Y : positive -> Prop) v v' : quiet X v v' -> (forall x, X x -> Y x) -> quiet Y v v'.
Proof. intros (R & Q & N) HXY. split; [done|]. split; [|done]. intros x k Hx. apply Q. auto. Qed.

Lemma quiet_runs X v v' : quiet X v v' -> runs X v v'.
Proof.
  intros (R & Q & N). split; [done|]. intros x st Hx (k & Hk & H1 & H2 & H3 & H4).
  destruct (Q x k Hx Hk) as (k' & Hk' & C1 & C2 & C3 & C4 & C5). exists k'. intuition congruence.
Qed.

Lemma quiet_inv X v v' : Inv v -> quiet X v v' -> Inv v'.
Proof. intros Hv [R _]. by eapply rtc_inv. Qed.

(** One transition that changes only [x], and its effect on [x]. *)
Lemma quiet_one (X : positive -> Prop) v v' :
  vstep v v' -> (forall x k, ~ X x -> vs v !! x = Some k -> exists k', vs v' !! x = Some k' /\ calm k k') ->
  (forall x, vs v !! x = None -> vs v' !! x = None) -> vpool v' = vpool v -> quiet X v v'.
Proof. intros Hs Hq Hn Hp. split; [by apply rtc_once|done]. Qed.

Lemma insert_None_ne {A} (m : gmap positive A) x y a b : m !! x = Some a -> m !! y = None -> <[x := b]> m !! y = None.
Proof. intros Hx Hy. rewrite lookup_insert_ne; [done|]. intros ->. congruence. Qed.

Lemma insert_None_ne2 {A} (m : gmap positive A) x1 x2 y a1 a2 b1 b2 :
  m !! x1 = Some a1 -> m !! x2 = Some a2 -> m !! y = None -> <[x1 := b1]> (<[x2 := b2]> m) !! y = None.
Proof. intros H1 H2 Hy. rewrite !lookup_insert_ne; [done| |]; intros ->; congruence. Qed.

Lemma quiet_move f x o k k0 v :
  vs v !! x = Some k0 -> vstep v (vmove f x o k v) -> quiet (fun y => y = x) v (vmove f x o k v).
Proof.
  intros Hx Hs. apply quiet_one; [done| | |done].
  - intros y ky Hy Hk. exists ky. cbn. rewrite lookup_insert_ne by done. split; [done|apply calm_refl].
  - intros y Hy. cbn. by eapply insert_None_ne.
Qed.

#[export] Hint Resolve quiet_refl calm_refl : pgb.

(** A socket that was not parked needs no exception. *)
Lemma runs_not_parked x v v' :
  runs (fun y => y = x) v v' -> (forall st, ~ parked v x st) -> runs (fun _ => False) v v'.
Proof.
  intros [R F] Hx. split; [done|]. intros y st _ Hp. destruct (decide (y = x)) as [->|Hne]; [by destruct (Hx st)|].
  by apply F.
Qed.

Lemma parked_not v x k st : vs v !! x = Some k -> parks (v_state k) = false -> ~ parked v x st.
Proof. intros Hx Hp (k' & Hk' & Hst & _ & _ & Hps). simplify_eq. congruence. Qed.

Lemma parked_linked_not v x k st : vs v !! x = Some k -> v_link k <> None -> ~ parked v x st.
Proof. intros Hx Hl (k' & Hk' & Hst & Hn & _). simplify_eq. Qed.

(** What is in a list of a pool. *)
Lemma in_pool_list v p l x :
  Inv v -> x ∈ lst (vlists v) (PoolSlot p l) ->
  exists k, vs v !! x = Some k /\ pool_list_of (v_state k) = Some l /\ v_pool k = Some p.
Proof.
  intros (Hl & _) Hx. apply (proj1 Hl) in Hx as (k & Hk & Hs). exists k. split; [done|].
  unfold k_slot, slot_of in Hs. destruct (v_state k), (v_pool k); simplify_eq/=; done.
Qed.

(** The state after [release_server] cut the link of an active server. *)
Definition released (s : positive) (v : View) : View :=
  match vs v !! s with
  | Some ks =>
      match v_state ks, v_link ks with
      | (SV_ACTIVE | SV_BEING_CANCELED), Some c =>
          match vs v !! c with
          | Some kc => vset s (k_set_link None ks) (vset c (k_set_link None kc) v)
          | None => v
          end
      | _, _ => v
      end
  | None => v
  end.

Lemma released_step s v : Inv v -> released s v = v \/ vstep v (released s v).
Proof.
  intros (_ & Hl & _). unfold released. destruct (vs v !! s) as [ks|] eqn:Hs; [|by left].
  destruct (v_link ks) as [c|] eqn:Hc; [|destruct (v_state ks); by left].
  destruct (Hl s ks c Hs Hc) as (kc & Hkc & Hlc & _). rewrite Hkc.
  assert (Hst : vstep v (vset s (k_set_link None ks) (vset c (k_set_link None kc) v)))
    by (by apply VS_unlink).
  destruct (v_state ks); by (left + right).
Qed.

Lemma released_inv s v : Inv v -> Inv (released s v).
Proof. intros Hv. destruct (released_step s v Hv) as [->|Hs]; [done|by eapply step_inv]. Qed.

Lemma released_self s v ks :
  Inv v -> vs v !! s = Some ks ->
  exists ks', vs (released s v) !! s = Some ks' /\ v_state ks' = v_state ks /\ v_pool ks' = v_pool ks /\
    v_canceling ks' = v_canceling ks /\ (v_state ks = SV_LOGIN -> released s v = v).
Proof.
  intros (_ & Hl & _) Hs. unfold released. rewrite Hs.
  destruct (v_link ks) as [c|] eqn:Hc; [|exists ks; by destruct (v_state ks) eqn:Est].
  destruct (Hl s ks c Hs Hc) as (kc & Hkc & Hlc & _). rewrite Hkc.
  destruct (v_state ks) eqn:Est; try (exists ks; done); exists (k_set_link None ks); cbn; by rewrite lookup_insert_eq.
Qed.

(** The server that is left has no link, unless it just logged in. *)
Lemma released_unlinked s v ks :
  Inv v -> vs (released s v) !! s = Some ks -> v_state ks <> SV_LOGIN -> v_state ks <> SV_ACTIVE_CANCEL ->
  is_server_state (v_state ks) = true -> v_link ks = None.
Proof.
  intros Hv Hs Hnl Hna Hsv. pose proof (released_inv s v Hv) as (_ & Hl & _).
  destruct (decide (v_state ks = SV_ACTIVE)) as [Ha|Ha].
  - unfold released in Hs. destruct (vs v !! s) as [k0|] eqn:Hs0; [|congruence].
    destruct (v_link k0) as [c|] eqn:Hc; [|by destruct (v_state k0); simplify_eq].
    destruct (proj1 (proj2 Hv) s k0 c Hs0 Hc) as (kc & Hkc & _). rewrite Hkc in Hs.
    destruct (v_state k0) eqn:E0; cbn in Hs; rewrite ?lookup_insert_eq in Hs; simplify_eq;
      first [done|congruence].
  - eapply inv_link_none; [exact Hl|exact Hs|]. intros k'. unfold pair_ok.
    destruct (v_state ks), (v_state k'); done.
Qed.

(** A server that logs in is released only once its client, if it has one,
    waits for it and no cancel request for it is in flight. *)
Definition login_ready (s : positive) (v : View) : Prop :=
  forall ks c, vs v !! s = Some ks -> v_state ks = SV_LOGIN -> v_link ks = Some c ->
  (exists kc, vs v !! c = Some kc /\ (v_state kc = CL_WAITING \/ v_state kc = CL_WAITING_LOGIN)) /\
  forall d kd, d ∈ v_canceling ks -> vs v !! d = Some kd -> v_state kd <> CL_ACTIVE_CANCEL.

(** A link is cut and then the former partner [c] of [s] runs. *)
Lemma runs_after_cut c s kc v v1 v2 :
  vs v !! c = Some kc -> v_link kc <> None ->
  quiet (fun x => x = c \/ x = s) v v1 -> runs (fun x => x = c) v1 v2 -> runs (fun x => x = s) v v2.
Proof.
  intros Hc Hl Hq [R2 F2]. pose proof (quiet_runs _ _ _ Hq) as [R1 F1]. split; [by etrans|].
  intros x st Hx Hp. assert (x <> c) by (intros ->; by eapply (parked_linked_not v c kc st)).
  apply F2; [done|]. apply F1; [tauto|done].
Qed.

(** A server on its way to be freed. *)
Definition closed_server (s : positive) (v : View) : Prop :=
  exists k, vs v !! s = Some k /\ v_state k = SV_JUSTFREE.

Definition closed_client (c : positive) (v : View) : Prop :=
  exists k, vs v !! c = Some k /\ v_state k = CL_JUSTFREE.

(** No connection attempt is under way in pool [p]. *)
Definition no_new (p : positive) (v : View) : Prop := lst (vlists v) (PoolSlot p new_server_list) = [].

(** Closing one server starts no connection. *)
Lemma close_no_new s p v v' :
  Inv v -> quiet (fun y => y = s) v v' -> closed_server s v' -> no_new p v -> no_new p v'.
Proof.
  intros Hv Hq (ks & Hks & Hst) Hp. pose proof (quiet_inv _ _ _ Hv Hq) as Hv'. unfold no_new.
  destruct (lst (vlists v') (PoolSlot p new_server_list)) as [|x l] eqn:El; [done|]. exfalso.
  destruct (in_pool_list v' p new_server_list x Hv') as (k' & Hk' & Hl & Hpl); [rewrite El; apply elem_of_cons; by left|].
  destruct (decide (x = s)) as [->|Hne]; [simplify_eq; by rewrite Hst in Hl|].
  destruct Hq as (_ & Hc & Hn & _). destruct (vs v !! x) as [k|] eqn:Hk; [|by rewrite Hn in Hk'].
  destruct (Hc x k Hne Hk) as (k2 & Hk2 & C1 & C2 & _). simplify_eq.
  assert (Hin : x ∈ lst (vlists v) (PoolSlot p new_server_list)); [|rewrite Hp in Hin; by apply elem_of_nil in Hin].
  apply Hv. exists k. split; [done|]. unfold k_slot, slot_of. rewrite <- C1, <- C2, Hpl.
  by destruct (v_state k'); simplify_eq/=.
Qed.

(** The number of servers falls when one server is closed. *)
Lemma counts_quiet s v v' f x k :
  quiet (fun y => y = s) v v' -> closed_server s v' -> vs v' !! x = Some k -> counts v' f k = true ->
  x <> s /\ exists k0, vs v !! x = Some k0 /\ counts v f k0 = true.
Proof.
  intros (_ & Hc & Hn & Hp) (ks & Hks & Hst) Hx Hf.
  assert (Hne : x <> s). { intros ->. simplify_eq. unfold counts in Hf. by rewrite Hst in Hf. }
  split; [done|]. destruct (vs v !! x) as [k0|] eqn:Hk0; [|by rewrite Hn in Hx].
  destruct (Hc x k0 Hne Hk0) as (k1 & Hk1 & C1 & C2 & _). simplify_eq. exists k0. split; [done|].
  unfold counts in *. by rewrite <- C1, <- C2, <- Hp.
Qed.

Lemma elem_counted v f x :
  x ∈ dom (filter (fun xk => counts v f xk.2 = true) (vs v)) <-> exists k, vs v !! x = Some k /\ counts v f k = true.
Proof.
  rewrite elem_of_dom. unfold is_Some. split; intros (k & Hk); exists k.
  - by apply map_lookup_filter_Some in Hk.
  - by apply map_lookup_filter_Some.
Qed.

Lemma close_nservers s v v' f :
  quiet (fun y => y = s) v v' -> closed_server s v' -> nservers v' f <= nservers v f.
Proof.
  intros Hq Hcl. unfold nservers. apply inj_le. rewrite <- !(size_dom (D := gset positive)).
  apply subseteq_size. intros x Hx. apply elem_counted in Hx as (k & Hk & Hf). apply elem_counted.
  by eapply (counts_quiet s v v').
Qed.

Lemma close_nservers_lt s v v' f k :
  quiet (fun y => y = s) v v' -> closed_server s v' -> vs v !! s = Some k -> counts v f k = true ->
  nservers v' f < nservers v f.
Proof.
  intros Hq Hcl Hs Hf. unfold nservers. apply inj_lt. rewrite <- !(size_dom (D := gset positive)).
  apply subset_size. split.
  - intros x Hx. apply elem_counted in Hx as (k' & Hk' & Hf'). apply elem_counted. by eapply (counts_quiet s v v').
  - intros Hsub. assert (Hin : s ∈ dom (filter (fun xk => counts v' f xk.2 = true) (vs v'))).
    { apply Hsub, elem_counted. eauto. }
    apply elem_counted in Hin as (k' & Hk' & Hf'). by destruct (counts_quiet s v v' f s k' Hq Hcl Hk' Hf').
Qed.

(** What evicting servers does: parked sockets stay, nothing is opened. *)
Definition evicts (v v' : View) : Prop :=
  runs (fun _ => False) v v' /\ (forall p, no_new p v -> no_new p v') /\ forall f, nservers v' f <= nservers v f.

Lemma evicts_refl v : evicts v v.
Proof. split; [apply runs_refl|done]. Qed.

Lemma evicts_trans v1 v2 v3 : evicts v1 v2 -> evicts v2 v3 -> evicts v1 v3.
Proof.
  intros (R1 & N1 & L1) (R2 & N2 & L2). split; [by eapply runs_trans|]. split; [auto|].
  intros f. specialize (L1 f). specialize (L2 f). lia.
Qed.

Lemma evicts_inv v v' : Inv v -> evicts v v' -> Inv v'.
Proof. intros Hv [R _]. by eapply runs_inv. Qed.

(** Counters exist as long as their database or user. *)
Lemma dom_bump n d (m : gmap positive Z) : dom (bump n d m) = dom m.
Proof. unfold bump. apply dom_alter_L. Qed.

Lemma step_count_dom v v' : vstep v v' -> dom (vdbcount v') = dom (vdbcount v) /\ dom (vucount v') = dom (vucount v).
Proof.
  assert (Hc : forall n p v, dom (vdbcount (vcount n p v)) = dom (vdbcount v) /\
                             dom (vucount (vcount n p v)) = dom (vucount v)).
  { intros n p v0. unfold vcount. destruct (vpool v0 !! p) as [[d [u|]]|]; cbn; by rewrite ?dom_bump. }
  intros Hs. destruct Hs; cbn; rewrite ?(proj1 (Hc _ _ _)), ?(proj2 (Hc _ _ _)); done.
Qed.

Lemma rtc_count_dom v v' : rtc vstep v v' -> dom (vdbcount v') = dom (vdbcount v) /\ dom (vucount v') = dom (vucount v).
Proof.
  induction 1 as [|v1 v2 v3 Hs _ [IH1 IH2]]; [done|]. destruct (step_count_dom _ _ Hs) as [D1 D2].
  by rewrite IH1, IH2, D1, D2.
Qed.

(** Evictions lower the counters. *)
Lemma evicts_counts v v' :
  Inv v -> evicts v v' ->
  (forall d n, vdbcount v !! d = Some n -> exists n', vdbcount v' !! d = Some n' /\ n' <= n) /\
  (forall u n, vucount v !! u = Some n -> exists n', vucount v' !! u = Some n' /\ n' <= n).
Proof.
  intros Hv He. pose proof (evicts_inv v v' Hv He) as Hv'. destruct He as ([R _] & _ & L).
  destruct (rtc_count_dom v v' R) as [D1 D2].
  destruct Hv as (_ & _ & _ & (_ & A1 & A2) & _), Hv' as (_ & _ & _ & (_ & B1 & B2) & _).
  split; intros d n Hn.
  - assert (Hd : d ∈ dom (vdbcount v')) by (rewrite D1; by eapply elem_of_dom_2).
    apply elem_of_dom in Hd as [n' Hn']. exists n'. split; [done|].
    rewrite (A1 d n Hn), (B1 d n' Hn'). apply L.
  - assert (Hd : d ∈ dom (vucount v')) by (rewrite D2; by eapply elem_of_dom_2).
    apply elem_of_dom in Hd as [n' Hn']. exists n'. split; [done|].
    rewrite (A2 d n Hn), (B2 d n' Hn'). apply L.
Qed.

#[export] Hint Resolve evicts_refl : pgb.
