(* ===== verification/World.v ===== *)
(** * The objects of the pooler (include/bouncer.h)

    Clients, servers, pools, databases and users as one store, with the
    pointers between them as names; the operations on the lists of sockets;
    [change_client_state] and [change_server_state] of src/objects.c; the
    settings a pool inherits (src/server.c).  [view] maps the store to the
    abstract state of PoolSpec.v.

    A pointer is a name, NULL is [None]; following NULL or a freed object is
    [Undef].  An element of a StatList is in that list or nowhere (the links
    are inside the element), so taking it out of another list is [Undef] too. *)

From S2P Require Import Prelude Protocol MBuf PktBuf Proto IOBuf SBuf PoolSpec.
From stdpp Require Import base option countable gmap list.
#[local] Open Scope Z_scope.

Inductive ReplicationType := REPLICATION_NONE | REPLICATION_LOGICAL | REPLICATION_PHYSICAL.
Inductive ResponseAction := RA_FORWARD | RA_SKIP | RA_FAKE.
Inductive PauseMode := P_NONE | P_PAUSE.
Inductive ShutDownMode :=
| SHUTDOWN_NONE | SHUTDOWN_WAIT_FOR_SERVERS | SHUTDOWN_WAIT_FOR_CLIENTS | SHUTDOWN_IMMEDIATE.
Inductive LoadBalanceHosts := LOAD_BALANCE_HOSTS_DISABLE | LOAD_BALANCE_HOSTS_ROUND_ROBIN.
Inductive PoolMode := POOL_SESSION | POOL_TX | POOL_STMT | POOL_INHERIT.

#[export] Instance ReplicationType_eq_dec : EqDecision ReplicationType.
Proof. solve_decision. Defined.
#[export] Instance ResponseAction_eq_dec : EqDecision ResponseAction.
Proof. solve_decision. Defined.
#[export] Instance PauseMode_eq_dec : EqDecision PauseMode.
Proof. solve_decision. Defined.
#[export] Instance ShutDownMode_eq_dec : EqDecision ShutDownMode.
Proof. solve_decision. Defined.
#[export] Instance LoadBalanceHosts_eq_dec : EqDecision LoadBalanceHosts.
Proof. solve_decision. Defined.
#[export] Instance PoolMode_eq_dec : EqDecision PoolMode.
Proof. solve_decision. Defined.

(** A statement prepared on a server: the id that names it there and the
    statement shared by all clients (src/prepare.c). *)
Record PgServerPreparedStatement := mkServerPs { sp_query_id : Z; sp_ps : positive }.

(** A request sent to the server that is not answered yet: a Close refers to
    the statement it closes, a Parse to the id of the one it prepares. *)
Record OutstandingRequest := mkRequest {
  or_type : Z;
  or_action : ResponseAction;
  or_server_ps : option PgServerPreparedStatement;
  or_server_ps_query_id : Z
}.

Record PgSocket := mkPgSocket {
  sk_state : SocketState;
  sk_pool : option positive;
  sk_link : option positive;
  sk_replication : ReplicationType;
  sk_canceled_server : option positive;
  sk_canceling_clients : list positive;
  sk_db : option positive;
  sk_login_user_credentials : option positive;
  sk_contributes_db_client_count : bool;
  sk_user_connection_counted : bool;
  sk_ready : bool;
  sk_close_needed : bool;
  sk_setting_vars : bool;
  sk_copy_mode : bool;
  sk_wait_for_welcome : bool;
  sk_welcome_sent : bool;
  sk_wait_for_user_conn : bool;
  sk_wait_for_user : bool;
  sk_wait_for_auth : bool;
  sk_sent_wait_notification : bool;
  sk_connect_time : Z;
  sk_request_time : Z;
  sk_query_start : Z;
  sk_wait_start : Z;
  sk_cancel_key : list Z;
  sk_outstanding_requests : list OutstandingRequest;
  sk_packet_cb_pkt : PktHdr;
  sk_host : option (list Z);
  sk_sbuf : SBuf
}.

Record PgPool := mkPgPool {
  pl_db : positive;
  pl_user_credentials : option positive;
  pl_last_lifetime_disconnect : Z;
  pl_last_connect_time : Z;
  pl_last_active_time : Z;
  pl_last_connect_failed : bool;
  pl_last_connect_failed_message : list Z;
  pl_last_login_failed : bool;
  pl_welcome_msg_ready : bool;
  pl_rrcounter : Z;
  pl_wait_time : Z;
  pl_server_assignment_count : Z;
  pl_client_login_count : Z
}.

Record PgDatabase := mkPgDatabase {
  db_name : list Z;
  db_peer_id : Z;
  db_peer_pool : option positive;
  db_host : option (list Z);
  db_port : Z;
  db_pool_size : Z;
  db_min_pool_size : Z;
  db_res_pool_size : Z;
  db_pool_mode : PoolMode;
  db_max_db_connections : Z;
  db_server_lifetime : Z;
  db_load_balance_hosts : LoadBalanceHosts;
  db_paused : bool;
  db_disabled : bool;
  db_admin : bool;
  db_fake : bool;
  db_forced_user_credentials : option positive;
  db_connection_count : Z;
  db_client_connection_count : Z
}.

Record PgCredentials := mkPgCredentials {
  cr_global_user : option positive;
  cr_mock_auth : bool
}.

Record PgGlobalUser := mkPgGlobalUser {
  gu_pool_size : Z;
  gu_res_pool_size : Z;
  gu_pool_mode : PoolMode;
  gu_max_user_connections : Z;
  gu_connection_count : Z;
  gu_client_connection_count : Z
}.

(** The settings of pgbouncer.ini the code below reads. *)
Record Config := mkConfig {
  cf_shutdown : ShutDownMode;
  cf_server_round_robin : bool;
  cf_server_reset_query : list Z;
  cf_server_reset_query_always : bool;
  cf_server_check_delay : Z;
  cf_server_check_query : list Z;
  empty_server_check_query : bool;
  cf_server_idle_timeout : Z;
  cf_server_login_retry : Z;
  cf_server_lifetime : Z;
  cf_res_pool_timeout : Z;
  cf_peer_id : Z;
  cf_pool_mode : PoolMode;
  cf_default_pool_size : Z;
  cf_min_pool_size : Z;
  cf_res_pool_size : Z;
  cf_max_db_connections : Z;
  cf_max_user_connections : Z;
  cf_unix_socket_dir : list Z;
  cf_sbuf_len : Z
}.

(** The store.  [w_pause_mode] is the variable [cf_pause_mode], which the console
    changes; [K] is the state of the kernel and the allocators. *)
Record World (K : Type) := mkWorld {
  w_sockets : gmap positive PgSocket;
  w_lists : gmap slot (list positive);
  w_pools : gmap positive PgPool;
  w_pool_list : list positive;
  w_dbs : gmap positive PgDatabase;
  w_peer_list : list positive;
  w_creds : gmap positive PgCredentials;
  w_users : gmap positive PgGlobalUser;
  w_now : Z;
  w_pause_mode : PauseMode;
  w_kernel : K
}.
Arguments mkWorld {K}. Arguments w_sockets {K}. Arguments w_lists {K}. Arguments w_pools {K}.
Arguments w_pool_list {K}. Arguments w_dbs {K}. Arguments w_peer_list {K}. Arguments w_creds {K}.
Arguments w_users {K}. Arguments w_now {K}. Arguments w_pause_mode {K}. Arguments w_kernel {K}.

(** ** Field updates *)

Ltac sk_setter proj :=
  field_setter (fun r => mkPgSocket (sk_state r) (sk_pool r) (sk_link r) (sk_replication r)
    (sk_canceled_server r) (sk_canceling_clients r) (sk_db r) (sk_login_user_credentials r)
    (sk_contributes_db_client_count r) (sk_user_connection_counted r) (sk_ready r) (sk_close_needed r)
    (sk_setting_vars r) (sk_copy_mode r) (sk_wait_for_welcome r) (sk_welcome_sent r)
    (sk_wait_for_user_conn r) (sk_wait_for_user r) (sk_wait_for_auth r) (sk_sent_wait_notification r)
    (sk_connect_time r) (sk_request_time r) (sk_query_start r) (sk_wait_start r) (sk_cancel_key r)
    (sk_outstanding_requests r) (sk_packet_cb_pkt r) (sk_host r) (sk_sbuf r)) proj.

Definition set_state : SocketState -> PgSocket -> PgSocket := ltac:(sk_setter sk_state).
Definition set_pool : option positive -> PgSocket -> PgSocket := ltac:(sk_setter sk_pool).
Definition set_link : option positive -> PgSocket -> PgSocket := ltac:(sk_setter sk_link).
Definition set_canceled_server : option positive -> PgSocket -> PgSocket := ltac:(sk_setter sk_canceled_server).
Definition set_canceling_clients : list positive -> PgSocket -> PgSocket := ltac:(sk_setter sk_canceling_clients).
Definition set_db : option positive -> PgSocket -> PgSocket := ltac:(sk_setter sk_db).
Definition set_login_user_credentials : option positive -> PgSocket -> PgSocket :=
  ltac:(sk_setter sk_login_user_credentials).
Definition set_ready : bool -> PgSocket -> PgSocket := ltac:(sk_setter sk_ready).
Definition set_close_needed : bool -> PgSocket -> PgSocket := ltac:(sk_setter sk_close_needed).
Definition set_setting_vars : bool -> PgSocket -> PgSocket := ltac:(sk_setter sk_setting_vars).
Definition set_copy_mode : bool -> PgSocket -> PgSocket := ltac:(sk_setter sk_copy_mode).
Definition set_wait_for_welcome : bool -> PgSocket -> PgSocket := ltac:(sk_setter sk_wait_for_welcome).
Definition set_welcome_sent : bool -> PgSocket -> PgSocket := ltac:(sk_setter sk_welcome_sent).
Definition set_wait_for_auth : bool -> PgSocket -> PgSocket := ltac:(sk_setter sk_wait_for_auth).
Definition set_sent_wait_notification : bool -> PgSocket -> PgSocket := ltac:(sk_setter sk_sent_wait_notification).
Definition set_wait_start : Z -> PgSocket -> PgSocket := ltac:(sk_setter sk_wait_start).
Definition set_cancel_key : list Z -> PgSocket -> PgSocket := ltac:(sk_setter sk_cancel_key).
Definition set_outstanding_requests : list OutstandingRequest -> PgSocket -> PgSocket :=
  ltac:(sk_setter sk_outstanding_requests).
Definition set_packet_cb_pkt : PktHdr -> PgSocket -> PgSocket := ltac:(sk_setter sk_packet_cb_pkt).
Definition set_host : option (list Z) -> PgSocket -> PgSocket := ltac:(sk_setter sk_host).
Definition set_sbuf : SBuf -> PgSocket -> PgSocket := ltac:(sk_setter sk_sbuf).

Ltac pl_setter proj :=
  field_setter (fun r => mkPgPool (pl_db r) (pl_user_credentials r) (pl_last_lifetime_disconnect r)
    (pl_last_connect_time r) (pl_last_active_time r) (pl_last_connect_failed r)
    (pl_last_connect_failed_message r) (pl_last_login_failed r) (pl_welcome_msg_ready r) (pl_rrcounter r)
    (pl_wait_time r) (pl_server_assignment_count r) (pl_client_login_count r)) proj.

Definition set_last_lifetime_disconnect : Z -> PgPool -> PgPool := ltac:(pl_setter pl_last_lifetime_disconnect).
Definition set_last_connect_time : Z -> PgPool -> PgPool := ltac:(pl_setter pl_last_connect_time).
Definition set_last_active_time : Z -> PgPool -> PgPool := ltac:(pl_setter pl_last_active_time).
Definition set_last_connect_failed : bool -> PgPool -> PgPool := ltac:(pl_setter pl_last_connect_failed).
Definition set_last_connect_failed_message : list Z -> PgPool -> PgPool :=
  ltac:(pl_setter pl_last_connect_failed_message).
Definition set_last_login_failed : bool -> PgPool -> PgPool := ltac:(pl_setter pl_last_login_failed).
Definition set_welcome_msg_ready : bool -> PgPool -> PgPool := ltac:(pl_setter pl_welcome_msg_ready).
Definition set_rrcounter : Z -> PgPool -> PgPool := ltac:(pl_setter pl_rrcounter).
Definition set_wait_time : Z -> PgPool -> PgPool := ltac:(pl_setter pl_wait_time).
Definition set_server_assignment_count : Z -> PgPool -> PgPool := ltac:(pl_setter pl_server_assignment_count).
Definition set_client_login_count : Z -> PgPool -> PgPool := ltac:(pl_setter pl_client_login_count).

Ltac db_setter proj :=
  field_setter (fun r => mkPgDatabase (db_name r) (db_peer_id r) (db_peer_pool r) (db_host r) (db_port r)
    (db_pool_size r) (db_min_pool_size r) (db_res_pool_size r) (db_pool_mode r) (db_max_db_connections r)
    (db_server_lifetime r) (db_load_balance_hosts r) (db_paused r) (db_disabled r) (db_admin r) (db_fake r)
    (db_forced_user_credentials r) (db_connection_count r)
    (db_client_connection_count r)) proj.

Definition set_db_peer_pool : option positive -> PgDatabase -> PgDatabase := ltac:(db_setter db_peer_pool).
Definition set_db_connection_count : Z -> PgDatabase -> PgDatabase := ltac:(db_setter db_connection_count).
Definition set_db_client_connection_count : Z -> PgDatabase -> PgDatabase :=
  ltac:(db_setter db_client_connection_count).

Ltac gu_setter proj :=
  field_setter (fun r => mkPgGlobalUser (gu_pool_size r) (gu_res_pool_size r) (gu_pool_mode r)
    (gu_max_user_connections r) (gu_connection_count r) (gu_client_connection_count r)) proj.

Definition set_gu_connection_count : Z -> PgGlobalUser -> PgGlobalUser := ltac:(gu_setter gu_connection_count).
Definition set_gu_client_connection_count : Z -> PgGlobalUser -> PgGlobalUser :=
  ltac:(gu_setter gu_client_connection_count).

(** ** Reading and writing the store *)

Section Store.
Context {K : Type}.

#[local] Abbreviation M := (SM (World K)).

Ltac w_setter proj :=
  field_setter (fun r : World K => mkWorld (w_sockets r) (w_lists r) (w_pools r) (w_pool_list r) (w_dbs r)
    (w_peer_list r) (w_creds r) (w_users r) (w_now r) (w_pause_mode r) (w_kernel r)) proj.

Definition set_sockets : gmap positive PgSocket -> World K -> World K := ltac:(w_setter (@w_sockets K)).
Definition set_lists : gmap slot (list positive) -> World K -> World K := ltac:(w_setter (@w_lists K)).
Definition set_pools : gmap positive PgPool -> World K -> World K := ltac:(w_setter (@w_pools K)).
Definition set_dbs : gmap positive PgDatabase -> World K -> World K := ltac:(w_setter (@w_dbs K)).
Definition set_users : gmap positive PgGlobalUser -> World K -> World K := ltac:(w_setter (@w_users K)).
Definition set_pause_mode : PauseMode -> World K -> World K := ltac:(w_setter (@w_pause_mode K)).
Definition set_kernel : K -> World K -> World K := ltac:(w_setter (@w_kernel K)).

(** [*p] for a pointer into one of the maps, and an assignment through it. *)
Definition found {A} (o : option A) : M A := lift (match o with Some a => Ok a | None => Undef end).

Definition sk_get (x : positive) : M PgSocket := w ← getS; found (w_sockets w !! x).
Definition sk_mod (x : positive) (f : PgSocket -> PgSocket) : M unit :=
  k ← sk_get x; modS (fun w => set_sockets (<[x := f k]> (w_sockets w)) w).
Definition pl_get (p : positive) : M PgPool := w ← getS; found (w_pools w !! p).
Definition pl_mod (p : positive) (f : PgPool -> PgPool) : M unit :=
  r ← pl_get p; modS (fun w => set_pools (<[p := f r]> (w_pools w)) w).
Definition db_get (d : positive) : M PgDatabase := w ← getS; found (w_dbs w !! d).
Definition db_mod (d : positive) (f : PgDatabase -> PgDatabase) : M unit :=
  r ← db_get d; modS (fun w => set_dbs (<[d := f r]> (w_dbs w)) w).
Definition cr_get (c : positive) : M PgCredentials := w ← getS; found (w_creds w !! c).
Definition gu_get (u : positive) : M PgGlobalUser := w ← getS; found (w_users w !! u).
Definition gu_mod (u : positive) (f : PgGlobalUser -> PgGlobalUser) : M unit :=
  r ← gu_get u; modS (fun w => set_users (<[u := f r]> (w_users w)) w).
Definition get_cached_time : M Z := w ← getS; mret (w_now w).

(** ** StatLists *)

Definition sockets_in (s : slot) : M (list positive) := w ← getS; mret (lst (w_lists w) s).
Definition statlist_count (s : slot) : M Z := l ← sockets_in s; mret (zlen l).
Definition statlist_empty (s : slot) : M bool := l ← sockets_in s; mret (bool_decide (l = [])).
Definition first_socket (s : slot) : M (option positive) := l ← sockets_in s; mret (head l).
Definition last_socket (s : slot) : M (option positive) := l ← sockets_in s; mret (last l).

Definition statlist_append (s : slot) (x : positive) : M unit :=
  modS (fun w => set_lists (enlist false x (Some s) (w_lists w)) w).
Definition statlist_prepend (s : slot) (x : positive) : M unit :=
  modS (fun w => set_lists (enlist true x (Some s) (w_lists w)) w).
Definition statlist_remove (s : slot) (x : positive) : M unit :=
  l ← sockets_in s;
  if decide (x ∈ l) then modS (fun w => set_lists (unlist x (Some s) (w_lists w)) w)
  else fun _ => Undef.

Definition client_free (x : positive) : M unit := modS (fun w => set_sockets (delete x (w_sockets w)) w).
Definition server_free (x : positive) : M unit := modS (fun w => set_sockets (delete x (w_sockets w)) w).

End Store.

(** ** State changes *)

Section States.
Context {K : Type} (cf : Config).

#[local] Abbreviation M := (SM (World K)).

(** [&pool->l] for a pool pointer that may be NULL. *)
Definition in_pool (pool : option positive) (l : PoolList) : M slot := p ← found pool; mret (PoolSlot p l).

Definition remove_from_pool (pool : option positive) (l : PoolList) (x : positive) : M unit :=
  s ← in_pool pool l; statlist_remove s x.
Definition append_to_pool (pool : option positive) (l : PoolList) (x : positive) : M unit :=
  s ← in_pool pool l; statlist_append s x.
Definition prepend_to_pool (pool : option positive) (l : PoolList) (x : positive) : M unit :=
  s ← in_pool pool l; statlist_prepend s x.

Definition change_client_state (client : positive) (newstate : SocketState) : M unit :=
  k ← sk_get client;
  let pool := sk_pool k in
  newstate ←
    match sk_state k with
    | CL_FREE => mret newstate
    | CL_JUSTFREE => _ ← statlist_remove justfree_client_list client; mret newstate
    | CL_LOGIN =>
        _ ← statlist_remove login_client_list client;
        mret (if decide (newstate = CL_WAITING) then CL_WAITING_LOGIN else newstate)
    | CL_WAITING_LOGIN =>
        _ ← sk_mod client (set_sent_wait_notification false);
        _ ← remove_from_pool pool waiting_client_list client;
        mret (if decide (newstate = CL_ACTIVE) then CL_LOGIN else newstate)
    | CL_WAITING =>
        _ ← sk_mod client (set_sent_wait_notification false);
        _ ← remove_from_pool pool waiting_client_list client;
        mret newstate
    | CL_ACTIVE => _ ← remove_from_pool pool active_client_list client; mret newstate
    | CL_ACTIVE_CANCEL => _ ← remove_from_pool pool active_cancel_req_list client; mret newstate
    | CL_WAITING_CANCEL => _ ← remove_from_pool pool waiting_cancel_req_list client; mret newstate
    | _ => lift Fatal
    end;
  _ ← sk_mod client (set_state newstate);
  match newstate with
  | CL_FREE => client_free client
  | CL_JUSTFREE => statlist_append justfree_client_list client
  | CL_LOGIN => statlist_append login_client_list client
  | CL_WAITING | CL_WAITING_LOGIN =>
      now ← get_cached_time;
      _ ← sk_mod client (set_wait_start now);
      append_to_pool pool waiting_client_list client
  | CL_ACTIVE => append_to_pool pool active_client_list client
  | CL_ACTIVE_CANCEL => append_to_pool pool active_cancel_req_list client
  | CL_WAITING_CANCEL => append_to_pool pool waiting_cancel_req_list client
  | _ => lift Fatal
  end.

Definition change_server_state (server : positive) (newstate : SocketState) : M unit :=
  k ← sk_get server;
  let pool := sk_pool k in
  _ ← match sk_state k with
      | SV_FREE => mret tt
      | SV_JUSTFREE => statlist_remove justfree_server_list server
      | SV_LOGIN => remove_from_pool pool new_server_list server
      | SV_USED => remove_from_pool pool used_server_list server
      | SV_TESTED => remove_from_pool pool tested_server_list server
      | SV_BEING_CANCELED => remove_from_pool pool being_canceled_server_list server
      | SV_IDLE => remove_from_pool pool idle_server_list server
      | SV_ACTIVE => remove_from_pool pool active_server_list server
      | SV_ACTIVE_CANCEL => remove_from_pool pool active_cancel_server_list server
      | _ => lift Fatal
      end;
  _ ← sk_mod server (set_state newstate);
  match newstate with
  | SV_FREE => server_free server
  | SV_JUSTFREE => statlist_append justfree_server_list server
  | SV_LOGIN => append_to_pool pool new_server_list server
  | SV_USED => prepend_to_pool pool used_server_list server
  | SV_TESTED => append_to_pool pool tested_server_list server
  | SV_BEING_CANCELED => append_to_pool pool being_canceled_server_list server
  | SV_IDLE =>
      if sk_close_needed k || cf_server_round_robin cf then append_to_pool pool idle_server_list server
      else prepend_to_pool pool idle_server_list server
  | SV_ACTIVE => append_to_pool pool active_server_list server
  | SV_ACTIVE_CANCEL => append_to_pool pool active_cancel_server_list server
  | _ => lift Fatal
  end.

(** ** Settings of a pool (src/server.c) *)

(** [pool->user_credentials->global_user], NULL dereferenced when absent. *)
Definition global_user_of (creds : positive) : M positive := c ← cr_get creds; found (cr_global_user c).

(** [x] when the pool has no user, otherwise a setting of its global user. *)
Definition user_setting {A} (pool : PgPool) (x : A) (f : PgGlobalUser -> A) : M A :=
  match pl_user_credentials pool with
  | None => mret x
  | Some c => u ← global_user_of c; g ← gu_get u; mret (f g)
  end.

Definition probably_wrong_pool_pool_mode (pool : PgPool) : M PoolMode :=
  c ← found (pl_user_credentials pool);
  u ← global_user_of c;
  g ← gu_get u;
  if decide (gu_pool_mode g <> POOL_INHERIT) then mret (gu_pool_mode g)
  else
    d ← db_get (pl_db pool);
    mret (if decide (db_pool_mode d <> POOL_INHERIT) then db_pool_mode d else cf_pool_mode cf).

Definition is_replication (k : PgSocket) : bool := bool_decide (sk_replication k <> REPLICATION_NONE).

Definition connection_pool_mode (k : PgSocket) : M PoolMode :=
  if is_replication k then mret POOL_SESSION
  else p ← found (sk_pool k); pool ← pl_get p; probably_wrong_pool_pool_mode pool.

Definition pool_pool_size (pool : PgPool) : M Z :=
  n ← user_setting pool (-1) gu_pool_size;
  if bool_decide (n >= 0) then mret n
  else
    d ← db_get (pl_db pool);
    mret (if bool_decide (db_pool_size d >= 0) then db_pool_size d else cf_default_pool_size cf).

Definition pool_res_pool_size (pool : PgPool) : M Z :=
  n ← user_setting pool (-1) gu_res_pool_size;
  if bool_decide (n >= 0) then mret n
  else
    d ← db_get (pl_db pool);
    mret (if bool_decide (db_res_pool_size d >= 0) then db_res_pool_size d else cf_res_pool_size cf).

Definition pool_server_lifetime (pool : PgPool) : M Z :=
  d ← db_get (pl_db pool);
  mret (if bool_decide (db_server_lifetime d = 0) then cf_server_lifetime cf else db_server_lifetime d).

Definition database_max_connections (d : PgDatabase) : Z :=
  if bool_decide (db_max_db_connections d <= 0) then cf_max_db_connections cf else db_max_db_connections d.

Definition user_max_connections (g : PgGlobalUser) : Z :=
  if bool_decide (gu_max_user_connections g <= 0) then cf_max_user_connections cf else gu_max_user_connections g.

Definition sending_auth_query (k : PgSocket) : bool := sk_wait_for_user_conn k || sk_wait_for_user k.

(** [pool_server_count] and its parts (macros of bouncer.h). *)
Definition pool_connected_server_count (p : positive) : M Z :=
  a ← statlist_count (PoolSlot p active_server_list);
  b ← statlist_count (PoolSlot p being_canceled_server_list);
  c ← statlist_count (PoolSlot p idle_server_list);
  d ← statlist_count (PoolSlot p tested_server_list);
  e ← statlist_count (PoolSlot p used_server_list);
  mret (a + b + c + d + e).
Definition pool_server_count (p : positive) : M Z :=
  a ← pool_connected_server_count p;
  b ← statlist_count (PoolSlot p new_server_list);
  c ← statlist_count (PoolSlot p active_cancel_server_list);
  mret (a + b + c).

End States.

(** ** The abstract state of a store *)

(** A client waits for a server of its own when it replicates and is past
    its auth query. *)
Definition sview (k : PgSocket) : SView :=
  mkSView (sk_state k) (sk_pool k) (sk_link k) (is_replication k && negb (sending_auth_query k))
          (sk_canceled_server k) (sk_canceling_clients k).

Section View.
Context {K : Type}.
#[local] Abbreviation M := (SM (World K)).
Implicit Types w : World K.

Definition pool_info (creds : gmap positive PgCredentials) (p : PgPool) : positive * option positive :=
  (pl_db p, pl_user_credentials p ≫= fun c => creds !! c ≫= cr_global_user).

Definition view w : View :=
  mkView (sview <$> w_sockets w) (w_lists w) (pool_info (w_creds w) <$> w_pools w)
         (db_connection_count <$> w_dbs w) (gu_connection_count <$> w_users w).

Lemma wp_found {A} (o : option A) Q w : (forall a, o = Some a -> Q a w) -> wp (found o) Q w.
Proof. intros H. apply wp_lift. intros a E. destruct o; [|done]. injection E as <-. auto. Qed.

Lemma wp_sk_get x Q w : (forall k, w_sockets w !! x = Some k -> Q k w) -> wp (sk_get x) Q w.
Proof. intros H. apply wp_bind, wp_getS, wp_found. done. Qed.

Lemma wp_sk_mod x f Q w :
  (forall k, w_sockets w !! x = Some k -> Q tt (set_sockets (<[x := f k]> (w_sockets w)) w)) -> wp (sk_mod x f) Q w.
Proof. intros H. apply wp_bind, wp_sk_get. intros k Hk. apply wp_modS. auto. Qed.

Lemma wp_pl_get p Q w : (forall r, w_pools w !! p = Some r -> Q r w) -> wp (pl_get p) Q w.
Proof. intros H. apply wp_bind, wp_getS, wp_found. done. Qed.

Lemma wp_pl_mod p f Q w :
  (forall r, w_pools w !! p = Some r -> Q tt (set_pools (<[p := f r]> (w_pools w)) w)) -> wp (pl_mod p f) Q w.
Proof. intros H. apply wp_bind, wp_pl_get. intros k Hk. apply wp_modS. auto. Qed.

Lemma wp_db_get d Q w : (forall r, w_dbs w !! d = Some r -> Q r w) -> wp (db_get d) Q w.
Proof. intros H. apply wp_bind, wp_getS, wp_found. done. Qed.

Lemma wp_db_mod d f Q w :
  (forall r, w_dbs w !! d = Some r -> Q tt (set_dbs (<[d := f r]> (w_dbs w)) w)) -> wp (db_mod d f) Q w.
Proof. intros H. apply wp_bind, wp_db_get. intros k Hk. apply wp_modS. auto. Qed.

Lemma wp_cr_get c Q w : (forall r, w_creds w !! c = Some r -> Q r w) -> wp (cr_get c) Q w.
Proof. intros H. apply wp_bind, wp_getS, wp_found. done. Qed.

Lemma wp_gu_get u Q w : (forall r, w_users w !! u = Some r -> Q r w) -> wp (gu_get u) Q w.
Proof. intros H. apply wp_bind, wp_getS, wp_found. done. Qed.

Lemma wp_gu_mod u f Q w :
  (forall r, w_users w !! u = Some r -> Q tt (set_users (<[u := f r]> (w_users w)) w)) -> wp (gu_mod u f) Q w.
Proof. intros H. apply wp_bind, wp_gu_get. intros k Hk. apply wp_modS. auto. Qed.

Lemma wp_get_cached_time Q w : Q (w_now w) w -> wp get_cached_time Q w.
Proof. intros H. apply wp_bind, wp_getS, wp_ret. done. Qed.

Lemma wp_sockets_in s Q w : Q (lst (w_lists w) s) w -> wp (sockets_in s) Q w.
Proof. intros H. apply wp_bind, wp_getS, wp_ret. done. Qed.

Lemma wp_statlist_append s x Q w :
  Q tt (set_lists (enlist false x (Some s) (w_lists w)) w) -> wp (statlist_append s x) Q w.
Proof. by intros H [] w' [= <-]. Qed.

Lemma wp_statlist_prepend s x Q w :
  Q tt (set_lists (enlist true x (Some s) (w_lists w)) w) -> wp (statlist_prepend s x) Q w.
Proof. by intros H [] w' [= <-]. Qed.

Lemma wp_statlist_remove s x Q w :
  (x ∈ lst (w_lists w) s -> Q tt (set_lists (unlist x (Some s) (w_lists w)) w)) -> wp (statlist_remove s x) Q w.
Proof. intros H. apply wp_bind, wp_sockets_in. destruct (decide _); [apply wp_modS; auto|done]. Qed.

End View.

(** Stores are kept in the form lists, sockets, pools, databases, users,
    kernel; a later write of the same part hides the earlier. *)
Create Rewrite HintDb wset.
Section Normal.
Context {K : Type}.
Implicit Types w : World K.

Lemma set_lists_lists x y w : set_lists x (set_lists y w) = set_lists x w.
Proof. reflexivity. Qed.
Lemma set_sockets_sockets x y w : set_sockets x (set_sockets y w) = set_sockets x w.
Proof. reflexivity. Qed.
Lemma set_sockets_lists x y w : set_sockets x (set_lists y w) = set_lists y (set_sockets x w).
Proof. reflexivity. Qed.
Lemma set_pools_pools x y w : set_pools x (set_pools y w) = set_pools x w.
Proof. reflexivity. Qed.
Lemma set_pools_lists x y w : set_pools x (set_lists y w) = set_lists y (set_pools x w).
Proof. reflexivity. Qed.
Lemma set_pools_sockets x y w : set_pools x (set_sockets y w) = set_sockets y (set_pools x w).
Proof. reflexivity. Qed.
Lemma set_dbs_dbs x y w : set_dbs x (set_dbs y w) = set_dbs x w.
Proof. reflexivity. Qed.
Lemma set_dbs_lists x y w : set_dbs x (set_lists y w) = set_lists y (set_dbs x w).
Proof. reflexivity. Qed.
Lemma set_dbs_sockets x y w : set_dbs x (set_sockets y w) = set_sockets y (set_dbs x w).
Proof. reflexivity. Qed.
Lemma set_dbs_pools x y w : set_dbs x (set_pools y w) = set_pools y (set_dbs x w).
Proof. reflexivity. Qed.
Lemma set_users_users x y w : set_users x (set_users y w) = set_users x w.
Proof. reflexivity. Qed.
Lemma set_users_lists x y w : set_users x (set_lists y w) = set_lists y (set_users x w).
Proof. reflexivity. Qed.
Lemma set_users_sockets x y w : set_users x (set_sockets y w) = set_sockets y (set_users x w).
Proof. reflexivity. Qed.
Lemma set_users_pools x y w : set_users x (set_pools y w) = set_pools y (set_users x w).
Proof. reflexivity. Qed.
Lemma set_users_dbs x y w : set_users x (set_dbs y w) = set_dbs y (set_users x w).
Proof. reflexivity. Qed.
Lemma set_kernel_kernel x y w : set_kernel x (set_kernel y w) = set_kernel x w.
Proof. reflexivity. Qed.
Lemma set_kernel_lists x y w : set_kernel x (set_lists y w) = set_lists y (set_kernel x w).
Proof. reflexivity. Qed.
Lemma set_kernel_sockets x y w : set_kernel x (set_sockets y w) = set_sockets y (set_kernel x w).
Proof. reflexivity. Qed.
Lemma set_kernel_pools x y w : set_kernel x (set_pools y w) = set_pools y (set_kernel x w).
Proof. reflexivity. Qed.
Lemma set_kernel_dbs x y w : set_kernel x (set_dbs y w) = set_dbs y (set_kernel x w).
Proof. reflexivity. Qed.
Lemma set_kernel_users x y w : set_kernel x (set_users y w) = set_users y (set_kernel x w).
Proof. reflexivity. Qed.

End Normal.
#[export] Hint Rewrite @set_lists_lists @set_sockets_sockets @set_sockets_lists @set_pools_pools
  @set_pools_lists @set_pools_sockets @set_dbs_dbs @set_dbs_lists @set_dbs_sockets @set_dbs_pools
  @set_users_users @set_users_lists @set_users_sockets @set_users_pools @set_users_dbs @set_kernel_kernel
  @set_kernel_lists @set_kernel_sockets @set_kernel_pools @set_kernel_dbs @set_kernel_users : wset.

(** Projections of an updated store. *)
Ltac wnorm :=
  cbn [w_sockets w_lists w_pools w_pool_list w_dbs w_peer_list w_creds w_users w_now w_kernel
       set_sockets set_lists set_pools set_dbs set_users set_kernel].
Ltac wnorm_in H :=
  cbn [w_sockets w_lists w_pools w_pool_list w_dbs w_peer_list w_creds w_users w_now w_kernel
       set_sockets set_lists set_pools set_dbs set_users set_kernel] in H.

(** A lookup in a store: a value just written is known. *)
Ltac wlookup k E :=
  intros k E; wnorm_in E;
  repeat rewrite lookup_insert_ne in E by done;
  first [ rewrite lookup_insert_eq in E; injection E as <-
        | lazymatch type of E with
          | ?o = Some _ =>
              match goal with
              | E2 : o = Some ?k2 |- _ =>
                  lazymatch E2 with E => fail | _ => rewrite E2 in E; injection E as <- end
              end
          end
        | idtac ].

(** Runs the code under a [wp] up to the next branch: reads introduce what
    was found, writes change the store. *)
Ltac wstep :=
  lazymatch goal with
  | |- wp (mbind _ _) _ _ => apply wp_bind
  | |- wp (mret _) _ _ => apply wp_ret
  | |- wp (lift Fatal) _ _ => by apply wp_lift
  | |- wp (lift _) _ _ => apply wp_lift; let a := fresh "r" in let E := fresh "Hr" in intros a E
  | |- wp (AssertS _) _ _ => apply wp_AssertS; let E := fresh "Has" in intros E
  | |- wp getS _ _ => apply wp_getS
  | |- wp (found (Some _)) _ _ =>
      apply wp_found; let a := fresh "p" in let E := fresh "Hp" in intros a E; injection E as <-
  | |- wp (found _) _ _ => apply wp_found; let a := fresh "p" in let E := fresh "Hp" in intros a E
  | |- wp (sk_get _) _ _ => apply wp_sk_get; let k := fresh "k" in let E := fresh "Hk" in wlookup k E
  | |- wp (sk_mod _ _) _ _ => apply wp_sk_mod; let k := fresh "k" in let E := fresh "Hk" in wlookup k E
  | |- wp (pl_get _) _ _ => apply wp_pl_get; let k := fresh "pl" in let E := fresh "Hpl" in wlookup k E
  | |- wp (pl_mod _ _) _ _ => apply wp_pl_mod; let k := fresh "pl" in let E := fresh "Hpl" in wlookup k E
  | |- wp (db_get _) _ _ => apply wp_db_get; let k := fresh "db" in let E := fresh "Hdb" in wlookup k E
  | |- wp (db_mod _ _) _ _ => apply wp_db_mod; let k := fresh "db" in let E := fresh "Hdb" in wlookup k E
  | |- wp (cr_get _) _ _ => apply wp_cr_get; let k := fresh "cr" in let E := fresh "Hcr" in wlookup k E
  | |- wp (gu_get _) _ _ => apply wp_gu_get; let k := fresh "gu" in let E := fresh "Hgu" in wlookup k E
  | |- wp (gu_mod _ _) _ _ => apply wp_gu_mod; let k := fresh "gu" in let E := fresh "Hgu" in wlookup k E
  | |- wp get_cached_time _ _ => apply wp_get_cached_time
  | |- wp (sockets_in _) _ _ => apply wp_sockets_in
  | |- wp (statlist_append _ _) _ _ => apply wp_statlist_append
  | |- wp (statlist_prepend _ _) _ _ => apply wp_statlist_prepend
  | |- wp (statlist_remove _ _) _ _ =>
      apply wp_statlist_remove; let E := fresh "Hin" in intros E; wnorm_in E
  | |- wp (remove_from_pool _ _ _) _ _ => unfold remove_from_pool, in_pool
  | |- wp (append_to_pool _ _ _) _ _ => unfold append_to_pool, in_pool
  | |- wp (prepend_to_pool _ _ _) _ _ => unfold prepend_to_pool, in_pool
  | |- wp (client_free _) _ _ => unfold client_free; apply wp_modS
  | |- wp (server_free _) _ _ => unfold server_free; apply wp_modS
  | |- wp (fun _ => Undef) _ _ => by intros ? ? ?
  end; cbn beta; wnorm; rewrite ?insert_insert_eq; autorewrite with wset.
Ltac wgo := repeat wstep.

Section StateChange.
Context {K : Type} (cf : Config).
Implicit Types w : World K.

(** The state a client really gets. *)
Definition new_client_state (old new : SocketState) : SocketState :=
  match old, new with
  | CL_LOGIN, CL_WAITING => CL_WAITING_LOGIN
  | CL_WAITING_LOGIN, CL_ACTIVE => CL_LOGIN
  | _, _ => new
  end.

(** What a state change does to the store: the socket has the state [st],
    and moved from the list of its old state to the list of the new one. *)
Definition moved (front : bool) (x : positive) (k : PgSocket) (st : SocketState) w w' : Prop :=
  exists k', sview k' = k_set_state st (sview k) /\ (sk_ready k' = sk_ready k /\ sk_close_needed k' = sk_close_needed k) /\
    sk_outstanding_requests k' = sk_outstanding_requests k /\
    w' = set_lists (enlist front x (slot_of st (sk_pool k))
                      (unlist x (slot_of (sk_state k) (sk_pool k)) (w_lists w)))
           (set_sockets (<[x := k']> (w_sockets w)) w).

Lemma change_client_state_wp c st w :
  wp (change_client_state c st) (fun _ w' => exists k, w_sockets w !! c = Some k /\
       is_server_state (sk_state k) = false /\
       let st' := new_client_state (sk_state k) st in
       is_server_state st' = false /\
       if decide (st' = CL_FREE) then
         w' = set_lists (unlist c (slot_of (sk_state k) (sk_pool k)) (w_lists w))
                (set_sockets (delete c (w_sockets w)) w)
       else is_Some (slot_of st' (sk_pool k)) /\ moved false c k st' w w') w.
Proof.
  unfold change_client_state. wstep. wstep.
  apply wp_bind. eapply wp_conseq with (Q := fun st' w' =>
     st' = new_client_state (sk_state k) st /\ is_server_state (sk_state k) = false /\
     exists k', sview k' = sview k /\ (sk_ready k' = sk_ready k /\ sk_close_needed k' = sk_close_needed k) /\
       sk_outstanding_requests k' = sk_outstanding_requests k /\
       w' = set_lists (unlist c (slot_of (sk_state k) (sk_pool k)) (w_lists w))
              (set_sockets (<[c := k']> (w_sockets w)) w)).
  { destruct (sk_state k) eqn:Est; wgo; (split; [destruct st; reflexivity|]; split; [done|]);
      simplify_eq; cbn [slot_of pool_list_of]; rewrite ?Hp; cbn [mbind option_bind].
    all: try (exists k; rewrite insert_id by done; by destruct w).
    all: eexists; split; [|split; [|split; [|reflexivity]]]; done. }
  intros st' w1 (-> & Hcl & k' & Hv & Hr & Ho & ->). set (st' := new_client_state (sk_state k) st).
  wnorm. assert (Hpool : sk_pool k' = sk_pool k) by (by injection Hv).
  assert (Hslot : forall l, pool_list_of st' = Some l -> forall p, sk_pool k = Some p ->
            slot_of st' (sk_pool k) = Some (PoolSlot p l)).
  { intros l Hl p Hp. rewrite Hp. unfold slot_of. by destruct st'; simplify_eq/=. }
  destruct st' eqn:Est'; wgo; exists k; (split; [done|]); (split; [done|]); cbv zeta; fold st'; rewrite Est';
    (split; [done|]); case_decide; try done.
  all: try (split; [by eexists; try (by apply Hslot)|]).
  all: unfold moved; rewrite ?(Hslot _ eq_refl _ Hp).
  all: try (eexists; split; [|split; [|split; [|reflexivity]]]; [|done|done]; by rewrite <- Hv).
  by rewrite delete_insert_eq.
Qed.

(** Which end of the list a server goes to. *)
Definition server_front (k : PgSocket) (st : SocketState) : bool :=
  match st with
  | SV_USED => true
  | SV_IDLE => negb (sk_close_needed k || cf_server_round_robin cf)
  | _ => false
  end.

Lemma change_server_state_wp s st w :
  wp (change_server_state cf s st) (fun _ w' => exists k, w_sockets w !! s = Some k /\
       is_server_state (sk_state k) = true /\ is_server_state st = true /\
       if decide (st = SV_FREE) then
         w' = set_lists (unlist s (slot_of (sk_state k) (sk_pool k)) (w_lists w))
                (set_sockets (delete s (w_sockets w)) w)
       else is_Some (slot_of st (sk_pool k)) /\ moved (server_front k st) s k st w w') w.
Proof.
  unfold change_server_state. wstep. wstep.
  apply wp_bind. eapply wp_conseq with (Q := fun _ w' =>
     is_server_state (sk_state k) = true /\
     w' = set_lists (unlist s (slot_of (sk_state k) (sk_pool k)) (w_lists w)) w).
  { destruct (sk_state k) eqn:Est; wgo; (split; [done|]); cbn [slot_of pool_list_of];
      rewrite ?Hp; cbn [mbind option_bind unlist]; by destruct w. }
  intros _ w1 (Hcl & ->). wstep. wstep.
  assert (Hslot : forall l, pool_list_of st = Some l -> forall p, sk_pool k = Some p ->
            slot_of st (sk_pool k) = Some (PoolSlot p l)).
  { intros l Hl p Hp. rewrite Hp. unfold slot_of. by destruct st; simplify_eq/=. }
  destruct st; wgo; try (destruct (sk_close_needed k || cf_server_round_robin cf) eqn:Ef; wgo);
    exists k; (split; [done|]); (split; [done|]); (split; [done|]); case_decide; try done.
  all: try (split; [by eexists; try (by apply Hslot)|]).
  all: unfold moved; cbn [server_front]; rewrite ?Ef, ?(Hslot _ eq_refl _ Hp).
  all: try (eexists; split; [|split; [|split; [|reflexivity]]]; done).
  all: by rewrite delete_insert_eq.
Qed.

(** ** How writes show in the abstract state *)

Lemma view_sockets m w :
  view (set_sockets m w) = mkView (sview <$> m) (vlists (view w)) (vpool (view w)) (vdbcount (view w)) (vucount (view w)).
Proof. reflexivity. Qed.

Lemma view_set x k w : view (set_sockets (<[x := k]> (w_sockets w)) w) = vset x (sview k) (view w).
Proof. rewrite view_sockets, fmap_insert. reflexivity. Qed.

Lemma view_vs x w : vs (view w) !! x = sview <$> w_sockets w !! x.
Proof. cbn. apply lookup_fmap. Qed.

Lemma view_vs_some x k w : w_sockets w !! x = Some k -> vs (view w) !! x = Some (sview k).
Proof. intros H. by rewrite view_vs, H. Qed.

Lemma view_vs_inv x kv w : vs (view w) !! x = Some kv -> exists k, w_sockets w !! x = Some k /\ kv = sview k.
Proof. rewrite view_vs. intros H. apply fmap_Some in H as (k & ? & ->). eauto. Qed.

(** Writing a field the abstract state does not see. *)
Lemma view_same x k k' w :
  w_sockets w !! x = Some k -> sview k' = sview k -> view (set_sockets (<[x := k']> (w_sockets w)) w) = view w.
Proof.
  intros Hx Hk. rewrite view_sockets, fmap_insert, Hk, insert_id by (by rewrite lookup_fmap, Hx).
  reflexivity.
Qed.

Lemma view_pool p r r' w :
  w_pools w !! p = Some r -> pl_db r' = pl_db r -> pl_user_credentials r' = pl_user_credentials r ->
  view (set_pools (<[p := r']> (w_pools w)) w) = view w.
Proof.
  intros Hp H1 H2. unfold view; cbn. f_equal. rewrite fmap_insert, insert_id; [done|].
  rewrite lookup_fmap, Hp. cbn. unfold pool_info. by rewrite H1, H2.
Qed.

Lemma view_db d r r' w :
  w_dbs w !! d = Some r -> db_connection_count r' = db_connection_count r ->
  view (set_dbs (<[d := r']> (w_dbs w)) w) = view w.
Proof.
  intros Hd H1. unfold view; cbn. f_equal. rewrite fmap_insert, insert_id; [done|].
  rewrite lookup_fmap, Hd. cbn. by rewrite H1.
Qed.

Lemma view_user u r r' w :
  w_users w !! u = Some r -> gu_connection_count r' = gu_connection_count r ->
  view (set_users (<[u := r']> (w_users w)) w) = view w.
Proof.
  intros Hu H1. unfold view; cbn. f_equal. rewrite fmap_insert, insert_id; [done|].
  rewrite lookup_fmap, Hu. cbn. by rewrite H1.
Qed.

Lemma view_kernel k w : view (set_kernel k w) = view w.
Proof. reflexivity. Qed.

Lemma view_moved f x k st w w' :
  moved f x k st w w' -> view w' = vmove f x (k_slot (sview k)) (k_set_state st (sview k)) (view w).
Proof.
  intros (k' & Hv & _ & _ & ->). unfold view, vmove; cbn. rewrite fmap_insert, Hv. reflexivity.
Qed.

Lemma view_freed x k w :
  view (set_lists (unlist x (slot_of (sk_state k) (sk_pool k)) (w_lists w)) (set_sockets (delete x (w_sockets w)) w))
  = vdelete x (k_slot (sview k)) (view w).
Proof. unfold view, vdelete; cbn. by rewrite fmap_delete. Qed.

Lemma moved_lookup f x k st w w' y :
  moved f x k st w w' -> y <> x -> w_sockets w' !! y = w_sockets w !! y.
Proof. intros (k' & _ & _ & _ & ->) Hy. cbn. by rewrite lookup_insert_ne. Qed.

Lemma moved_self f x k st w w' :
  moved f x k st w w' -> exists k', w_sockets w' !! x = Some k' /\ sview k' = k_set_state st (sview k) /\
    (sk_ready k' = sk_ready k /\ sk_close_needed k' = sk_close_needed k) /\ sk_outstanding_requests k' = sk_outstanding_requests k.
Proof. intros (k' & ? & ? & ? & ->). exists k'. cbn. by rewrite lookup_insert_eq. Qed.

End StateChange.

(** ** Code the abstract state does not see *)

Section Keep.
Context {K : Type}.
#[local] Abbreviation M := (SM (World K)).
Implicit Types w : World K.

Definition vkeep {A} (m : M A) : Prop := forall w, wp m (fun _ w' => view w' = view w) w.

Lemma vkeep_bind {A B} (m : M A) (f : A -> M B) : vkeep m -> (forall a, vkeep (f a)) -> vkeep (m ≫= f).
Proof.
  intros Hm Hf w. apply wp_bind. eapply wp_conseq; [apply Hm|]. intros a w1 H1.
  eapply wp_conseq; [apply Hf|]. intros b w2 H2. cbn in *. congruence.
Qed.

Lemma vkeep_ret {A} (a : A) : vkeep (mret a).
Proof. intros w. by apply wp_ret. Qed.

Lemma vkeep_lift {A} (r : res A) : vkeep (lift r).
Proof. intros w. by apply wp_lift. Qed.

Lemma vkeep_AssertS b : vkeep (AssertS b).
Proof. apply vkeep_lift. Qed.

Lemma vkeep_getS : vkeep getS.
Proof. intros w. by apply wp_getS. Qed.

Lemma vkeep_kernel k : vkeep (modS (set_kernel k)).
Proof. intros w. by apply wp_modS. Qed.

Lemma vkeep_found {A} (o : option A) : vkeep (found o).
Proof. apply vkeep_lift. Qed.

Lemma vkeep_sk_get x : vkeep (sk_get x).
Proof. intros w. by apply wp_sk_get. Qed.
Lemma vkeep_pl_get x : vkeep (pl_get x).
Proof. intros w. by apply wp_pl_get. Qed.
Lemma vkeep_db_get x : vkeep (db_get x).
Proof. intros w. by apply wp_db_get. Qed.
Lemma vkeep_cr_get x : vkeep (cr_get x).
Proof. intros w. by apply wp_cr_get. Qed.
Lemma vkeep_gu_get x : vkeep (gu_get x).
Proof. intros w. by apply wp_gu_get. Qed.
Lemma vkeep_time : vkeep get_cached_time.
Proof. intros w. by apply wp_get_cached_time. Qed.
Lemma vkeep_sockets_in s : vkeep (sockets_in s).
Proof. intros w. by apply wp_sockets_in. Qed.

Lemma vkeep_sk_mod x f : (forall k, sview (f k) = sview k) -> vkeep (sk_mod x f).
Proof. intros Hf w. apply wp_sk_mod. intros k Hk. by eapply view_same. Qed.

Lemma vkeep_pl_mod p f :
  (forall r, pl_db (f r) = pl_db r) -> (forall r, pl_user_credentials (f r) = pl_user_credentials r) ->
  vkeep (pl_mod p f).
Proof. intros H1 H2 w. apply wp_pl_mod. intros r Hr. by eapply view_pool. Qed.

Lemma vkeep_db_mod d f : (forall r, db_connection_count (f r) = db_connection_count r) -> vkeep (db_mod d f).
Proof. intros H1 w. apply wp_db_mod. intros r Hr. by eapply view_db. Qed.

Lemma vkeep_gu_mod u f : (forall r, gu_connection_count (f r) = gu_connection_count r) -> vkeep (gu_mod u f).
Proof. intros H1 w. apply wp_gu_mod. intros r Hr. by eapply view_user. Qed.

Lemma wp_vkeep {A} (m : M A) (Q : A -> World K -> Prop) w :
  vkeep m -> (forall a w', view w' = view w -> Q a w') -> wp m Q w.
Proof. intros Hm HQ. eapply wp_conseq; [apply Hm|]. auto. Qed.

End Keep.

(** Shows [vkeep] by following the code; hints cover the functions. *)
Create HintDb vkeep discriminated.
Ltac vkeep_step :=
  lazymatch goal with
  | |- vkeep (mbind _ _) => apply vkeep_bind; [|intros ?]
  | |- vkeep (mret _) => apply vkeep_ret
  | |- vkeep (lift _) => apply vkeep_lift
  | |- vkeep (AssertS _) => apply vkeep_AssertS
  | |- vkeep getS => apply vkeep_getS
  | |- vkeep (modS (set_kernel _)) => apply vkeep_kernel
  | |- vkeep (found _) => apply vkeep_found
  | |- vkeep (sk_get _) => apply vkeep_sk_get
  | |- vkeep (pl_get _) => apply vkeep_pl_get
  | |- vkeep (db_get _) => apply vkeep_db_get
  | |- vkeep (cr_get _) => apply vkeep_cr_get
  | |- vkeep (gu_get _) => apply vkeep_gu_get
  | |- vkeep get_cached_time => apply vkeep_time
  | |- vkeep (sockets_in _) => apply vkeep_sockets_in
  | |- vkeep (sk_mod _ _) => apply vkeep_sk_mod; reflexivity
  | |- vkeep (pl_mod _ _) => apply vkeep_pl_mod; reflexivity
  | |- vkeep (db_mod _ _) => apply vkeep_db_mod; reflexivity
  | |- vkeep (gu_mod _ _) => apply vkeep_gu_mod; reflexivity
  | |- vkeep (if ?b then _ else _) => destruct b
  | |- vkeep (match ?x with _ => _ end) => destruct x
  | |- vkeep (let '(_, _) := ?x in _) => destruct x
  | |- vkeep _ => solve [auto with vkeep]
  end.
Ltac vkeep_solve := repeat vkeep_step.

Section KeepSettings.
Context {K : Type} (cf : Config).

Lemma vkeep_global_user_of c : vkeep (@global_user_of K c).
Proof. unfold global_user_of. vkeep_solve. Qed.
Hint Resolve vkeep_global_user_of : vkeep.

Lemma vkeep_user_setting {A} pool (x : A) f : vkeep (@user_setting K A pool x f).
Proof. unfold user_setting. vkeep_solve. Qed.
Hint Resolve vkeep_user_setting : vkeep.

Lemma vkeep_connection_pool_mode k : vkeep (@connection_pool_mode K cf k).
Proof. unfold connection_pool_mode, probably_wrong_pool_pool_mode. vkeep_solve. Qed.

Lemma vkeep_pool_pool_size p : vkeep (@pool_pool_size K cf p).
Proof. unfold pool_pool_size. vkeep_solve. Qed.

Lemma vkeep_pool_res_pool_size p : vkeep (@pool_res_pool_size K cf p).
Proof. unfold pool_res_pool_size. vkeep_solve. Qed.

Lemma vkeep_pool_server_lifetime p : vkeep (@pool_server_lifetime K cf p).
Proof. unfold pool_server_lifetime. vkeep_solve. Qed.

Lemma vkeep_statlist_count s : vkeep (@statlist_count K s).
Proof. unfold statlist_count. vkeep_solve. Qed.
Hint Resolve vkeep_statlist_count : vkeep.

Lemma vkeep_pool_server_count p : vkeep (@pool_server_count K p).
Proof. unfold pool_server_count, pool_connected_server_count. vkeep_solve. Qed.

End KeepSettings.
#[export] Hint Resolve vkeep_global_user_of vkeep_user_setting vkeep_connection_pool_mode vkeep_pool_pool_size
  vkeep_pool_res_pool_size vkeep_pool_server_lifetime vkeep_statlist_count vkeep_pool_server_count : vkeep.
