(* ===== verification/Objects.v ===== *)
(** * Linking, releasing and closing connections (src/objects.c)

    The operations that move clients and servers between states: pausing and
    waking clients, [find_server], [release_server], [disconnect_server] and
    [disconnect_client], outstanding requests.  Each is shown to make only
    the transitions of PoolSpec.v, so that its invariants hold at every point
    where control leaves this code.

    What the code calls outside is in [ObjEnv]: the kernel and libevent under
    the stream buffers, the allocator, and the calls that re-enter the event
    handlers ([sbuf_continue] runs the read loop of a socket, [sbuf_connect]
    may report the new connection at once).  [EnvOk] states what the code
    relies on for the re-entrant calls. *)

From S2P Require Import Prelude Protocol MBuf PktBuf Proto IOBuf SBuf PoolSpec World.
From stdpp Require Import base option countable gmap list strings.
#[local] Open Scope Z_scope.

(** ** The surroundings *)
Record ObjEnv (K : Type) := mkObjEnv {
  oe_sbuf : SBufEnv K;
  oe_alloc : K -> bool * K;
  oe_continue : positive -> SM (World K) unit;
  oe_connect : positive -> SM (World K) unit;
  oe_resolve : positive -> SM (World K) unit;
  oe_inet_pton : bool -> list Z -> bool;
  oe_accept : positive -> Z -> bool -> SM (World K) bool;
  oe_varcache_apply : positive -> positive -> K -> bool * bool * K;
  oe_welcome_client : positive -> SM (World K) bool
}.
Arguments oe_sbuf {K}. Arguments oe_alloc {K}. Arguments oe_continue {K}. Arguments oe_connect {K}.
Arguments oe_resolve {K}. Arguments oe_accept {K}. Arguments oe_inet_pton {K}.
Arguments oe_varcache_apply {K}. Arguments oe_welcome_client {K}.

Section Objects.
Context `{Realloc} {K : Type} (E : ObjEnv K) (cf : Config).

#[local] Abbreviation M := (SM (World K)).

(** ** Calls into the stream buffer and the kernel *)

Definition ask_kernel {A} (f : K -> A * K) : M A :=
  w ← getS; let '(a, k) := f (w_kernel w) in _ ← modS (set_kernel k); mret a.

(** A function of sbuf.c on the buffer of socket [x]. *)
Definition on_sbuf {A} (x : positive) (m : SM (SBuf * K) A) : M A :=
  k ← sk_get x;
  w ← getS;
  '(a, (sb, kn)) ← lift (m (sk_sbuf k, w_kernel w));
  _ ← modS (set_kernel kn);
  _ ← sk_mod x (set_sbuf sb);
  mret a.

Definition pause_sbuf (x : positive) : M bool := on_sbuf x (sbuf_pause (oe_sbuf E) (cf_sbuf_len cf)).
Definition close_sbuf (x : positive) : M bool := on_sbuf x (sbuf_close (oe_sbuf E)).
Definition answer_sbuf (x : positive) (bs : list Z) : M bool := on_sbuf x (sbuf_answer (oe_sbuf E) x bs).

(** [pktbuf_send_immediate(buf, sk)] *)
Definition send_immediate (x : positive) (b : PktBuf) : M bool :=
  _ ← sk_get x;
  if pb_failed b then mret false
  else
    let amount := pb_write_pos b - pb_send_pos b in
    bs ← lift (mem_load (pb_buf b) (pb_send_pos b) amount);
    r ← ask_kernel (op_send (oe_sbuf E) x bs);
    mret (match r with IoOk n => bool_decide (n = amount) | _ => false end).

(** A packet built in a buffer of [len] bytes on the stack (SEND_wrap). *)
Definition SEND_wrap (len : Z) (x : positive) (write : PktBuf -> res PktBuf) : M bool :=
  b ← lift (write (pktbuf_static (replicate (Z.to_nat len) 0) len));
  send_immediate x b.

Definition send_error (client : positive) (sqlstate : option (list Z)) (msg : list Z) : M bool :=
  b ← lift (pooler_error_buf (replicate 512 0) false sqlstate true msg);
  send_immediate client b.

(** ** Waiting and waking *)

(** [activate_client] up to the call that runs the client. *)
Definition wake_client (client : positive) : M unit :=
  k ← sk_get client;
  _ ← AssertS (bool_decide (sk_state k = CL_WAITING) || bool_decide (sk_state k = CL_WAITING_LOGIN));
  _ ← AssertS (bool_decide (sk_wait_start k > 0));
  p ← found (sk_pool k);
  now ← get_cached_time;
  _ ← pl_mod p (fun r => set_wait_time (u64 (pl_wait_time r + u64 (now - sk_wait_start k))) r);
  change_client_state client CL_ACTIVE.

Definition activate_client (client : positive) : M unit := _ ← wake_client client; oe_continue E client.

Definition reuse_on_release (server : positive) : M bool :=
  k ← sk_get server;
  p ← found (sk_pool k);
  _ ← AssertS (negb (is_replication k));
  client ← first_socket (PoolSlot p waiting_client_list);
  match client with
  | None => mret true
  | Some c =>
      kc ← sk_get c;
      if negb (is_replication kc) || sending_auth_query kc then
        _ ← activate_client c;
        k ← sk_get server;
        mret (negb (bool_decide (sk_state k = SV_FREE) || bool_decide (sk_state k = SV_JUSTFREE)))
      else mret true
  end.

Definition life_over (server : positive) : M bool :=
  k ← sk_get server;
  p ← found (sk_pool k);
  pool ← pl_get p;
  now ← get_cached_time;
  let age := u64 (now - sk_connect_time k) in
  let last_kill := u64 (now - pl_last_lifetime_disconnect pool) in
  server_lifetime ← pool_server_lifetime cf pool;
  if bool_decide (age < server_lifetime) then mret false
  else
    n ← pool_pool_size cf pool;
    let lifetime_kill_gap := if bool_decide (n > 0) then server_lifetime / n else 0 in
    mret (bool_decide (last_kill >= lifetime_kill_gap)).

(** ** Releasing a server *)

(** The first loop of [release_server]: cancel requests that are not in
    flight yet forget the server. *)
Fixpoint drop_waiting_cancels (server : positive) (l : list positive) : M unit :=
  match l with
  | [] => mret tt
  | c :: l =>
      k ← sk_get c;
      _ ← (if decide (sk_state k = CL_WAITING_CANCEL) then
             _ ← sk_mod c (set_canceled_server None);
             sk_mod server (fun s => set_canceling_clients (filter (fun y => y <> c) (sk_canceling_clients s)) s)
           else mret tt);
      drop_waiting_cancels server l
  end.

(** The loop of [disconnect_server]: all cancel requests forget the server. *)
Fixpoint drop_cancels (server : positive) (l : list positive) : M unit :=
  match l with
  | [] => mret tt
  | c :: l =>
      _ ← sk_mod c (set_canceled_server None);
      _ ← sk_mod server (fun s => set_canceling_clients (filter (fun y => y <> c) (sk_canceling_clients s)) s);
      drop_cancels server l
  end.

(** [a->link = NULL; b->link = NULL] *)
Definition unlink_pair (a b : positive) : M unit := _ ← sk_mod a (set_link None); sk_mod b (set_link None).

(** The state a server leaves ACTIVE or BEING_CANCELED for. *)
Definition released_state (k : PgSocket) : M SocketState :=
  reset ← (if decide (cf_server_reset_query cf = []) then mret false
           else if cf_server_reset_query_always cf then mret true
           else m ← connection_pool_mode cf k; mret (bool_decide (m = POOL_SESSION)));
  mret (if reset : bool then SV_TESTED
        else if bool_decide (cf_server_check_delay cf = 0) && bool_decide (cf_server_check_query cf <> [])
        then SV_USED else SV_IDLE).

(** The switch of [release_server] on the old state; gives the new one. *)
Definition leave_old_state (server : positive) : M SocketState :=
  k ← sk_get server;
  p ← found (sk_pool k);
  match sk_state k with
  | SV_BEING_CANCELED | SV_ACTIVE =>
      _ ← match sk_link k with
          | Some c => _ ← sk_mod c (set_copy_mode false); unlink_pair c server
          | None => mret tt
          end;
      released_state k
  | SV_USED | SV_TESTED => mret SV_IDLE
  | SV_LOGIN =>
      _ ← pl_mod p (set_last_login_failed false);
      _ ← pl_mod p (set_last_connect_failed false);
      mret SV_IDLE
  | _ => lift Fatal
  end.

(** The calls [release_server], [disconnect_server] and [disconnect_client]
    make to each other are passed as arguments here and tied below. *)

Definition reset_on_release (disconnect_server : positive -> bool -> list Z -> M unit) (server : positive) : M bool :=
  k ← sk_get server;
  _ ← AssertS (bool_decide (sk_state k = SV_TESTED));
  res ← SEND_wrap 512 server (fun b => pktbuf_write_generic b PqMsg_Query "s" [VStr (cf_server_reset_query cf)]);
  _ ← (if res : bool then mret tt else disconnect_server server false (str "reset query failed"));
  mret res.

(** [release_server] after the lifetime check. *)
Definition finish_release (disconnect_server : positive -> bool -> list Z -> M unit)
  (server : positive) (newstate : SocketState) : M bool :=
  k ← sk_get server;
  if bool_decide (zlen (sk_outstanding_requests k) > 0) then
    _ ← disconnect_server server true (str "client disconnected with queries in progress");
    mret true
  else if sk_close_needed k then
    _ ← disconnect_server server true (str "close_needed");
    mret false
  else if bool_decide (zlen (sk_canceling_clients k) > 0) then
    _ ← change_server_state cf server SV_BEING_CANCELED;
    mret true
  else if is_replication k then
    match sk_link k with
    | Some c =>
        _ ← change_server_state cf server SV_ACTIVE;
        _ ← activate_client c;
        mret true
    | None =>
        _ ← disconnect_server server true (str "replication client was closed");
        mret false
    end
  else
    _ ← AssertS (bool_decide (sk_link k = None));
    _ ← change_server_state cf server newstate;
    if decide (newstate = SV_IDLE) then reuse_on_release server
    else if decide (newstate = SV_TESTED) then reset_on_release disconnect_server server
    else mret true.

Definition release_server_body (disconnect_server : positive -> bool -> list Z -> M unit) (server : positive) : M bool :=
  k ← sk_get server;
  p ← found (sk_pool k);
  _ ← AssertS (sk_ready k);
  newstate ← leave_old_state server;
  k ← sk_get server;
  _ ← drop_waiting_cancels server (sk_canceling_clients k);
  over ← (if decide (sk_state k = SV_LOGIN) then mret false else life_over server);
  if over : bool then
    _ ← disconnect_server server true (str "server lifetime over");
    now ← get_cached_time;
    _ ← pl_mod p (set_last_lifetime_disconnect now);
    mret false
  else finish_release disconnect_server server newstate.

Definition unlink_server (disconnect_client : positive -> bool -> list Z -> M unit)
  (server : positive) (reason : list Z) : M unit :=
  k ← sk_get server;
  match sk_link k with
  | None => mret tt
  | Some client =>
      _ ← unlink_pair client server;
      kc ← sk_get client;
      if bool_decide (sk_state kc = CL_ACTIVE) || bool_decide (sk_state kc = CL_WAITING) then
        disconnect_client client true reason
      else if bool_decide (sk_state kc = CL_ACTIVE_CANCEL) then
        disconnect_client client false (str "successfully sent cancel request")
      else disconnect_client client true (str "bouncer config error")
  end.

(** The switch of [disconnect_server] on the state; gives [send_term]. *)
Definition leave_for_disconnect (disconnect_client : positive -> bool -> list Z -> M unit)
  (server : positive) (send_term : bool) (reason : list Z) : M bool :=
  k ← sk_get server;
  match sk_state k with
  | SV_ACTIVE_CANCEL | SV_ACTIVE => _ ← unlink_server disconnect_client server reason; mret send_term
  | SV_TESTED | SV_USED | SV_IDLE | SV_BEING_CANCELED => mret send_term
  | SV_LOGIN =>
      p ← found (sk_pool k);
      send_term ←
        (if negb (sk_ready k) then
           _ ← pl_mod p (set_last_login_failed true);
           _ ← pl_mod p (set_last_connect_failed true);
           _ ← pl_mod p (set_last_connect_failed_message (ztake 99 reason));
           mret send_term
         else
           _ ← pl_mod p (set_last_connect_failed false);
           mret false);
      _ ← (if is_replication k then unlink_server disconnect_client server reason else mret tt);
      mret send_term
  | _ => lift Fatal
  end.

Definition pkt_term : list Z := [PqMsg_Terminate; 0; 0; 0; 4].

(** [connection_count] of the pool's database and user changes by [n]. *)
Definition count_connection (n : Z) (p : positive) : M unit :=
  pool ← pl_get p;
  _ ← db_mod (pl_db pool) (fun d => set_db_connection_count (db_connection_count d + n) d);
  match pl_user_credentials pool with
  | Some c =>
      u ← global_user_of c;
      gu_mod u (fun g => set_gu_connection_count (gu_connection_count g + n) g)
  | None => mret tt
  end.

(** [disconnect_server] after the switch. *)
Definition finish_disconnect (server : positive) (send_term : bool) : M unit :=
  k ← sk_get server;
  _ ← AssertS (bool_decide (sk_link k = None));
  _ ← drop_cancels server (sk_canceling_clients k);
  _ ← (if send_term : bool then _ ← answer_sbuf server pkt_term; mret tt else mret tt);
  p ← found (sk_pool k);
  _ ← count_connection (-1) p;
  _ ← change_server_state cf server SV_JUSTFREE;
  _ ← close_sbuf server;
  mret tt.

Definition disconnect_server_body (disconnect_client : positive -> bool -> list Z -> M unit)
  (server : positive) (send_term : bool) (reason : list Z) : M unit :=
  let reason := ztake 127 reason in
  send_term ← leave_for_disconnect disconnect_client server send_term reason;
  finish_disconnect server send_term.

(** The client counters of [disconnect_client_sqlstate]. *)
Definition uncount_client (client : positive) : M unit :=
  k ← sk_get client;
  _ ← match sk_db k with
      | Some d =>
          if sk_contributes_db_client_count k then
            db_mod d (fun r => set_db_client_connection_count (db_client_connection_count r - 1) r)
          else mret tt
      | None => mret tt
      end;
  match sk_login_user_credentials k with
  | Some c =>
      r ← cr_get c;
      match cr_global_user r with
      | Some u =>
          if sk_user_connection_counted k then
            gu_mod u (fun g => set_gu_client_connection_count (gu_client_connection_count g - 1) g)
          else mret tt
      | None => mret tt
      end
  | None => mret tt
  end.

(** The canceled server and the request forget each other; a server that
    waited for the last request is released. *)
Definition forget_canceled_server (release_server : positive -> M bool) (client : positive) : M unit :=
  k ← sk_get client;
  match sk_canceled_server k with
  | Some s =>
      _ ← sk_mod s (fun r => set_canceling_clients (filter (fun y => y <> client) (sk_canceling_clients r)) r);
      _ ← sk_mod client (set_canceled_server None);
      ks ← sk_get s;
      if bool_decide (sk_state ks = SV_BEING_CANCELED) && bool_decide (zlen (sk_canceling_clients ks) = 0)
      then _ ← release_server s; mret tt
      else mret tt
  | None => mret tt
  end.

(** The switch on the client's state. *)
Definition leave_client (disconnect_server : positive -> bool -> list Z -> M unit)
  (release_server : positive -> M bool) (client : positive) : M unit :=
  k ← sk_get client;
  match sk_state k with
  | CL_ACTIVE | CL_LOGIN =>
      match sk_link k with
      | None => mret tt
      | Some server =>
          ks ← sk_get server;
          if negb (sk_ready ks) then
            _ ← unlink_pair server client;
            disconnect_server server true (str "client disconnect while server was not ready")
          else if bool_decide (zlen (sk_outstanding_requests ks) > 0) then
            _ ← unlink_pair server client;
            disconnect_server server true (str "client disconnected with query in progress")
          else if negb (sbuf_is_empty (sk_sbuf ks)) then
            _ ← unlink_pair server client;
            disconnect_server server true (str "client disconnect before everything was sent to the server")
          else _ ← release_server server; mret tt
      end
  | CL_ACTIVE_CANCEL | CL_WAITING_CANCEL =>
      _ ← match sk_link k with
          | Some server =>
              _ ← unlink_pair server client;
              _ ← sk_mod server (set_ready true);
              disconnect_server server false
                (str "client gave up on cancel request, so we also give up forwarding to server")
          | None => mret tt
          end;
      forget_canceled_server release_server client
  | CL_WAITING | CL_WAITING_LOGIN =>
      match sk_link k with
      | Some server =>
          if is_replication k then
            _ ← unlink_pair server client;
            disconnect_server server false (str "replication client disconnected")
          else mret tt
      | None => mret tt
      end
  | _ => lift Fatal
  end.

(** The memory the client owns: freed objects are forgotten. *)
Definition free_client_parts (client : positive) : M unit :=
  _ ← sk_mod client (fun k => set_packet_cb_pkt (free_header (sk_packet_cb_pkt k)) k);
  k ← sk_get client;
  _ ← match sk_login_user_credentials k with
      | Some c =>
          r ← cr_get c;
          if cr_mock_auth r then sk_mod client (set_login_user_credentials None) else mret tt
      | None => mret tt
      end;
  match sk_db k with
  | Some d => r ← db_get d; if db_fake r then sk_mod client (set_db None) else mret tt
  | None => mret tt
  end.

(** [disconnect_client_sqlstate] after the switch. *)
Definition finish_client (client : positive) (notify : bool) (sqlstate : option (list Z))
  (reason : option (list Z)) : M unit :=
  k ← sk_get client;
  _ ← match reason with
      | Some msg =>
          if notify && negb (bool_decide (sk_state k = CL_WAITING_CANCEL)) then
            _ ← send_error client sqlstate msg; mret tt
          else mret tt
      | None => mret tt
      end;
  _ ← free_client_parts client;
  _ ← change_client_state client CL_JUSTFREE;
  _ ← close_sbuf client;
  mret tt.

Definition disconnect_client_body (disconnect_server : positive -> bool -> list Z -> M unit)
  (release_server : positive -> M bool)
  (client : positive) (notify : bool) (sqlstate : option (list Z)) (reason : option (list Z)) : M unit :=
  _ ← uncount_client client;
  _ ← leave_client disconnect_server release_server client;
  finish_client client notify sqlstate reason.

(** The recursion, bounded: a call follows a link or a cancel request, and
    removes it first. *)
Fixpoint disconnect_server (fuel : nat) (server : positive) (send_term : bool) (reason : list Z) : M unit :=
  match fuel with
  | O => fun _ => NoFuel
  | S fuel => disconnect_server_body (disconnect_client fuel) server send_term reason
  end
with disconnect_client (fuel : nat) (client : positive) (notify : bool) (reason : list Z) : M unit :=
  match fuel with
  | O => fun _ => NoFuel
  | S fuel =>
      disconnect_client_body (disconnect_server fuel) (release_server fuel) client notify None (Some (ztake 127 reason))
  end
with release_server (fuel : nat) (server : positive) : M bool :=
  match fuel with
  | O => fun _ => NoFuel
  | S fuel => release_server_body (disconnect_server fuel) server
  end.

End Objects.

(** ** The code makes only the transitions of PoolSpec.v *)

(** What the re-entrant calls may do: run transitions, and leave the parked
    sockets alone, except the one they are called for. *)
Class EnvOk {K} (E : ObjEnv K) : Prop := {
  continue_ok : forall x w, Inv (view w) ->
    wp (oe_continue E x) (fun _ w' => runs (fun y => y = x) (view w) (view w')) w;
  connect_ok : forall x w, Inv (view w) ->
    wp (oe_connect E x) (fun _ w' => runs (fun y => y = x) (view w) (view w')) w;
  resolve_ok : forall x w, Inv (view w) ->
    wp (oe_resolve E x) (fun _ w' => runs (fun y => y = x) (view w) (view w')) w;
  accept_ok : forall x sock is_unix w, Inv (view w) ->
    wp (oe_accept E x sock is_unix) (fun _ w' => runs (fun y => y = x) (view w) (view w')) w;
  welcome_ok : forall x w, Inv (view w) ->
    wp (oe_welcome_client E x) (fun _ w' => runs (fun y => y = x) (view w) (view w')) w
}.

Section Keep.
Context `{Realloc} {K : Type} (E : ObjEnv K) (cf : Config).

Lemma vkeep_ask_kernel {A} (f : K -> A * K) : vkeep (ask_kernel f).
Proof. unfold ask_kernel. apply vkeep_bind; [vkeep_solve|]. intros w. destruct (f (w_kernel w)). vkeep_solve. Qed.
Hint Resolve vkeep_ask_kernel : vkeep.

Lemma vkeep_on_sbuf {A} x (m : SM (SBuf * K) A) : vkeep (on_sbuf x m).
Proof. unfold on_sbuf. vkeep_solve. Qed.
Hint Resolve vkeep_on_sbuf : vkeep.

Lemma vkeep_pause_sbuf x : vkeep (pause_sbuf E cf x).
Proof. apply vkeep_on_sbuf. Qed.

Lemma vkeep_close_sbuf x : vkeep (close_sbuf E x).
Proof. apply vkeep_on_sbuf. Qed.

Lemma vkeep_answer_sbuf x bs : vkeep (answer_sbuf E x bs).
Proof. apply vkeep_on_sbuf. Qed.

Lemma vkeep_send_immediate x b : vkeep (send_immediate E x b).
Proof. unfold send_immediate. vkeep_solve. Qed.
Hint Resolve vkeep_send_immediate : vkeep.

Lemma vkeep_SEND_wrap len x f : vkeep (SEND_wrap E len x f).
Proof. unfold SEND_wrap. vkeep_solve. Qed.

Lemma vkeep_send_error x st msg : vkeep (send_error E x st msg).
Proof. unfold send_error. vkeep_solve. Qed.

Lemma vkeep_life_over x : vkeep (@life_over K cf x).
Proof. unfold life_over. vkeep_solve. Qed.

Lemma vkeep_released_state k : vkeep (@released_state K cf k).
Proof. unfold released_state. vkeep_solve. Qed.

Lemma vkeep_uncount_client x : vkeep (@uncount_client K x).
Proof. unfold uncount_client. vkeep_solve. Qed.

Lemma vkeep_free_client_parts x : vkeep (@free_client_parts K x).
Proof. unfold free_client_parts. vkeep_solve. Qed.

End Keep.
#[export] Hint Resolve vkeep_ask_kernel vkeep_on_sbuf vkeep_pause_sbuf vkeep_close_sbuf vkeep_answer_sbuf
  vkeep_send_immediate vkeep_SEND_wrap vkeep_send_error vkeep_life_over vkeep_released_state
  vkeep_uncount_client vkeep_free_client_parts : vkeep.

Section Cancels.
Context {K : Type}.
Implicit Types w : World K.

Lemma view_set2 x y kx ky w :
  view (set_sockets (<[y := ky]> (<[x := kx]> (w_sockets w))) w) = vset y (sview ky) (vset x (sview kx) (view w)).
Proof. rewrite view_sockets, !fmap_insert. reflexivity. Qed.

(** Cancel request [c] and its target [s] are two sockets that know each
    other. *)
Lemma canceling_pair c s ks w :
  Inv (view w) -> w_sockets w !! s = Some ks -> c ∈ sk_canceling_clients ks ->
  c <> s /\ exists kc, w_sockets w !! c = Some kc /\ sk_canceled_server kc = Some s.
Proof.
  intros (_ & _ & Hcan & _) Hs Hin.
  destruct (proj1 (proj2 Hcan) s (sview ks) c) as (_ & kc' & Hkc' & Hcs); [by apply view_vs_some|done|].
  split; [by eapply canceled_not_self|].
  apply view_vs_inv in Hkc' as (kc & Hkc & ->). eauto.
Qed.

(** They forget each other. *)
Lemma uncancel_quiet c s kc ks w :
  Inv (view w) -> w_sockets w !! c = Some kc -> w_sockets w !! s = Some ks ->
  c ∈ sk_canceling_clients ks ->
  quiet (fun _ => False) (view w)
    (view (set_sockets (<[s := set_canceling_clients (filter (fun y => y <> c) (sk_canceling_clients ks)) ks]>
                     (<[c := set_canceled_server None kc]> (w_sockets w))) w)).
Proof.
  intros Hv Hc Hs Hin. destruct (canceling_pair c s ks w Hv Hs Hin) as (Hne & kc' & Hkc' & Hcs). simplify_eq.
  rewrite view_set2. apply quiet_one.
  { by apply (VS_uncancel (view w) c s (sview kc) (sview ks)); [apply view_vs_some..|]. }
  2: { intros x Hx. eapply insert_None_ne2; [by apply view_vs_some|by apply view_vs_some|done]. }
  2: done.
  intros x k _ Hk. cbn. destruct (decide (x = s)) as [->|].
  { rewrite lookup_insert_eq. eexists; split; [done|]. rewrite (view_vs_some s ks w Hs) in Hk.
    injection Hk as <-. repeat split; by left. }
  rewrite lookup_insert_ne by done. destruct (decide (x = c)) as [->|].
  { rewrite lookup_insert_eq. eexists; split; [done|]. rewrite (view_vs_some c kc w Hc) in Hk.
    injection Hk as <-. repeat split; by right. }
  rewrite lookup_insert_ne by done. exists k. split; [done|apply calm_refl].
Qed.

(** What a loop over the cancel requests [l] of [s] leaves behind: those for
    which [P] holds are gone. *)
Definition cancels_left (s : positive) (ks : PgSocket) (P : positive -> Prop) w w' : Prop :=
  quiet (fun _ => False) (view w) (view w') /\
  exists ks', w_sockets w' !! s = Some ks' /\ calm (sview ks) (sview ks') /\
    (forall c, c ∈ sk_canceling_clients ks' <-> c ∈ sk_canceling_clients ks /\ ~ P c) /\
    sk_ready ks' = sk_ready ks /\ sk_outstanding_requests ks' = sk_outstanding_requests ks /\
    is_replication ks' = is_replication ks.

(** One round that removes [c]. *)
Lemma cancels_left_step c s kc ks P w w1 w2 :
  Inv (view w) -> w_sockets w !! c = Some kc -> w_sockets w !! s = Some ks -> c ∈ sk_canceling_clients ks ->
  w1 = set_sockets (<[s := set_canceling_clients (filter (fun y => y <> c) (sk_canceling_clients ks)) ks]>
                     (<[c := set_canceled_server None kc]> (w_sockets w))) w ->
  cancels_left s (set_canceling_clients (filter (fun y => y <> c) (sk_canceling_clients ks)) ks) P w1 w2 ->
  cancels_left s ks (fun d => d = c \/ P d) w w2.
Proof.
  intros Hv Hc Hs Hin -> (Hq & ks' & Hks' & Hcalm & Hleft & Hr & Ho & Hrep).
  split; [eapply quiet_trans; [|exact Hq]; by apply uncancel_quiet|].
  exists ks'. split; [done|]. split; [exact Hcalm|]. split; [|done].
  intros d. rewrite Hleft. cbn. rewrite list_elem_of_filter. tauto.
Qed.

Lemma cancels_left_nil s ks w : w_sockets w !! s = Some ks -> cancels_left s ks (fun _ => False) w w.
Proof.
  intros Hs. split; [apply quiet_refl|]. exists ks. split; [done|]. split; [apply calm_refl|].
  split; [|done]. intros c. tauto.
Qed.

Lemma cancels_left_iff s ks (P Q : positive -> Prop) w w' :
  (forall c, P c <-> Q c) -> cancels_left s ks P w w' -> cancels_left s ks Q w w'.
Proof.
  intros HPQ (Hq & ks' & Hks' & Hcalm & Hleft & Hrest). split; [done|]. exists ks'. split; [done|].
  split; [done|]. split; [|done]. intros c. by rewrite Hleft, HPQ.
Qed.

Lemma drop_cancels_wp l s ks w :
  Inv (view w) -> w_sockets w !! s = Some ks -> NoDup l -> Forall (.∈ sk_canceling_clients ks) l ->
  wp (drop_cancels s l) (fun _ w' => cancels_left s ks (.∈ l) w w') w.
Proof.
  revert w ks. induction l as [|c l IH]; intros w ks Hv Hs Hnd Hl; cbn [drop_cancels].
  { apply wp_ret. eapply cancels_left_iff; [|by apply cancels_left_nil]. intros c. by rewrite elem_of_nil. }
  apply NoDup_cons in Hnd as [Hc Hnd]. apply Forall_cons in Hl as [Hcin Hl].
  destruct (canceling_pair c s ks w Hv Hs Hcin) as (Hne & kc & Hkc & _). wstep. wstep. wstep. wstep.
  eapply wp_conseq; [eapply IH|].
  - eapply quiet_inv; [exact Hv|]. by apply uncancel_quiet.
  - cbn. by rewrite lookup_insert_eq.
  - done.
  - cbn. rewrite Forall_forall in Hl |- *. intros d Hd. apply list_elem_of_filter.
    split; [by intros ->|by apply Hl].
  - cbn. intros _ w2 Hleft. eapply cancels_left_iff; [|by eapply cancels_left_step; [..|exact Hleft]].
    intros d. by rewrite elem_of_cons.
Qed.

(** Only requests in flight are left. *)
Lemma drop_waiting_cancels_wp l s ks w :
  Inv (view w) -> w_sockets w !! s = Some ks -> NoDup l -> Forall (.∈ sk_canceling_clients ks) l ->
  wp (drop_waiting_cancels s l) (fun _ w' => cancels_left s ks (fun c => c ∈ l /\
       exists kc, w_sockets w !! c = Some kc /\ sk_state kc = CL_WAITING_CANCEL) w w') w.
Proof.
  revert w ks. induction l as [|c l IH]; intros w ks Hv Hs Hnd Hl; cbn [drop_waiting_cancels].
  { apply wp_ret. eapply cancels_left_iff; [|by apply cancels_left_nil]. intros c. rewrite elem_of_nil. tauto. }
  apply NoDup_cons in Hnd as [Hc Hnd]. apply Forall_cons in Hl as [Hcin Hl].
  destruct (canceling_pair c s ks w Hv Hs Hcin) as (Hne & kc & Hkc & _). wstep. wstep. wstep.
  destruct (decide (sk_state kc = CL_WAITING_CANCEL)) as [Hw|Hw].
  - wgo. eapply wp_conseq; [eapply IH|].
    + eapply quiet_inv; [exact Hv|]. by apply uncancel_quiet.
    + cbn. by rewrite lookup_insert_eq.
    + done.
    + cbn. rewrite Forall_forall in Hl |- *. intros d Hd. apply list_elem_of_filter.
      split; [by intros ->|by apply Hl].
    + cbn. intros _ w2 Hleft. eapply cancels_left_iff; [|by eapply cancels_left_step; [..|exact Hleft]].
      cbn. intros d. rewrite elem_of_cons. destruct (decide (d = c)) as [->|Hdc]; [naive_solver|].
      destruct (decide (d = s)) as [->|]; [rewrite lookup_insert_eq|rewrite !lookup_insert_ne by done]; naive_solver.
  - wgo. eapply wp_conseq; [eapply IH; done|]. cbn. intros _ w2 Hleft.
    eapply cancels_left_iff; [|exact Hleft]. cbn. intros d. rewrite elem_of_cons.
    split; [naive_solver|]. intros [[->|?] (kd & ? & ?)]; [simplify_eq|eauto].
Qed.

End Cancels.

Section Close.
Context `{Realloc} {K : Type} (E : ObjEnv K) (cf : Config).
Implicit Types w : World K.

Lemma fmap_alter_insert {A} (f : A -> Z) (n : Z) (m : gmap positive A) (d : positive) (r r' : A) :
  m !! d = Some r -> f r' = f r + n -> f <$> <[d := r']> m = bump n d (f <$> m).
Proof.
  intros Hd Hr. unfold bump. apply map_eq. intros x. rewrite fmap_insert. destruct (decide (d = x)) as [<-|Hne].
  - rewrite lookup_insert_eq, lookup_alter_eq, lookup_fmap, Hd. cbn. f_equal. lia.
  - by rewrite lookup_insert_ne, lookup_alter_ne by done.
Qed.

Lemma count_connection_wp n p w :
  wp (count_connection n p) (fun _ w' => view w' = vcount n p (view w) /\
        w_sockets w' = w_sockets w) w.
Proof.
  unfold count_connection, global_user_of. wgo.
  assert (Hp : vpool (view w) !! p = Some (pool_info (w_creds w) pl)) by (cbn; by rewrite lookup_fmap, Hpl).
  unfold vcount. rewrite Hp. unfold pool_info. destruct (pl_user_credentials pl) as [c|] eqn:Ec; cbn [mbind option_bind].
  - wgo. cbn. rewrite Hcr. cbn. split; [|done]. unfold view. cbn. rewrite Hp0.
    rewrite (fmap_alter_insert _ n _ _ db), (fmap_alter_insert _ n _ _ gu) by done. done.
  - wgo. split; [|done]. unfold view; cbn. by rewrite (fmap_alter_insert _ n _ _ db) by done.
Qed.

(** The end of a server connection. *)
Lemma close_server_wp s p k w :
  w_sockets w !! s = Some k -> live_server (sk_state k) = true -> sk_link k = None ->
  sk_canceling_clients k = [] -> sk_pool k = Some p ->
  wp (_ ← count_connection (-1) p; change_server_state cf s SV_JUSTFREE)
     (fun _ w' => quiet (fun y => y = s) (view w) (view w') /\ closed_server s (view w')) w.
Proof.
  intros Hs Hlive Hl Hc Hp. apply wp_bind. eapply wp_conseq; [apply count_connection_wp|]. cbn.
  intros _ w1 [Hv1 Hs1]. eapply wp_conseq; [apply change_server_state_wp|]. cbn.
  intros _ w2 (k1 & Hk1 & _ & _ & _ & Hm). rewrite Hs1, Hs in Hk1. injection Hk1 as <-.
  apply view_moved in Hm. rewrite Hv1 in Hm. rewrite Hm.
  assert (Hst : vstep (view w) (vmove (server_front cf k SV_JUSTFREE) s (k_slot (sview k))
                (k_set_state SV_JUSTFREE (sview k)) (vcount (-1) p (view w)))).
  { apply VS_close_server; try done. by apply view_vs_some. }
  split; [|eexists; cbn [vmove vs]; by rewrite lookup_insert_eq].
  apply quiet_one; [done| | |cbn; apply vpool_vcount].
  - intros x kx Hx Hkx. exists kx. cbn [vmove vs]. rewrite vs_vcount.
    rewrite lookup_insert_ne by done. split; [done|apply calm_refl].
  - intros x Hx. cbn [vmove vs]. rewrite vs_vcount. eapply insert_None_ne; [by apply view_vs_some|done].
Qed.

Lemma finish_disconnect_wp s b k w :
  Inv (view w) -> w_sockets w !! s = Some k -> live_server (sk_state k) = true ->
  wp (finish_disconnect E cf s b) (fun _ w' => quiet (fun y => y = s) (view w) (view w') /\
       closed_server s (view w')) w.
Proof.
  intros Hv Hs Hlive. unfold finish_disconnect. wstep. wstep. wstep. wstep.
  apply bool_decide_eq_true_1 in Has. apply wp_bind.
  eapply wp_conseq; [eapply (drop_cancels_wp _ _ k); [done|done| |]|].
  { destruct Hv as (_ & _ & (_ & _ & Hnd) & _). apply (Hnd s (sview k)). by apply view_vs_some. }
  { by apply Forall_forall. }
  cbn. intros _ w1 (Hq1 & k1 & Hk1 & (C1 & C2 & C3 & _) & Hleft & _). cbn in C1, C2, C3.
  assert (Hnil : sk_canceling_clients k1 = []).
  { destruct (sk_canceling_clients k1) as [|c l] eqn:Ec; [done|]. exfalso.
    destruct (proj1 (Hleft c)) as [? Hn]; [apply elem_of_cons; by left|]. done. }
  apply wp_bind, wp_vkeep; [vkeep_solve|]. intros _ w2 Hv2. wstep. wstep.
  assert (exists k2, w_sockets w2 !! s = Some k2 /\ sview k2 = sview k1) as (k2 & Hk2 & E2).
  { pose proof (view_vs_some s k1 w1 Hk1) as G. rewrite <- Hv2 in G. by apply view_vs_inv in G as (k2 & ? & ->); eauto. }
  injection E2 as F1 F2 F3 _ _ F6.
  apply wp_assoc, wp_bind. eapply wp_conseq; [eapply (close_server_wp s p k2); try done; congruence|].
  cbn. intros _ w3 [Hq3 Hcl]. apply wp_bind, wp_vkeep; [vkeep_solve|]. intros _ w4 Hv4. wstep. rewrite Hv4.
  split; [|done]. eapply quiet_trans; [by eapply quiet_mono; [exact Hq1|]|]. by rewrite <- Hv2.
Qed.

(** A view that did not change still shows the socket. *)
Lemma same_view_lookup x k w w' :
  view w' = view w -> w_sockets w !! x = Some k -> exists k', w_sockets w' !! x = Some k' /\ sview k' = sview k.
Proof.
  intros Hv Hx. pose proof (view_vs_some x k w Hx) as G. rewrite <- Hv in G.
  apply view_vs_inv in G as (k' & ? & ->). eauto.
Qed.

Lemma finish_client_wp c notify sqlstate reason k w :
  w_sockets w !! c = Some k -> sk_link k = None -> sk_canceled_server k = None ->
  wp (finish_client E c notify sqlstate reason) (fun _ w' => quiet (fun y => y = c) (view w) (view w') /\
       closed_client c (view w')) w.
Proof.
  intros Hc Hl Hcan. unfold finish_client. wstep. wstep.
  apply wp_bind, wp_vkeep; [vkeep_solve|]. intros _ w1 Hv1.
  apply wp_bind, wp_vkeep; [vkeep_solve|]. intros _ w2 Hv2.
  apply wp_bind. eapply wp_conseq; [apply change_client_state_wp|]. cbn.
  intros _ w3 (k2 & Hk2 & Hst & _ & Hm).
  assert (Hnew : new_client_state (sk_state k2) CL_JUSTFREE = CL_JUSTFREE) by (by destruct (sk_state k2)).
  rewrite Hnew in Hm. destruct Hm as [_ Hm]. apply view_moved in Hm.
  assert (Hs2 : sview k2 = sview k).
  { destruct (same_view_lookup c k w w2) as (k2' & ? & ?); [congruence|done|]. congruence. }
  apply wp_bind, wp_vkeep; [vkeep_solve|]. intros _ w4 Hv4. wstep.
  rewrite Hv4, Hm, Hv2, Hv1. split; [|eexists; cbn; by rewrite lookup_insert_eq].
  eapply quiet_move; [by apply view_vs_some|]. rewrite Hs2. injection Hs2 as F1 F2 F3 F4 F5 F6.
  apply VS_close_client; [by apply view_vs_some| |done|done]. cbn. congruence.
Qed.

(** The other end of a link. *)
Lemma link_partner a b ka w :
  Inv (view w) -> w_sockets w !! a = Some ka -> sk_link ka = Some b ->
  a <> b /\ exists kb, w_sockets w !! b = Some kb /\ sk_link kb = Some a /\
    (pair_ok (sview ka) (sview kb) = true \/ pair_ok (sview kb) (sview ka) = true).
Proof.
  intros (_ & Hl & _) Ha Hab. split.
  { intros <-. eapply (inv_link_not_self (vs (view w)) a (sview ka)); [done|by apply view_vs_some|done]. }
  destruct (Hl a (sview ka) b) as (kb' & Hkb & Hba & Hp); [by apply view_vs_some|done|].
  apply view_vs_inv in Hkb as (kb & Hkb & ->). eauto.
Qed.

(** Cutting a link. *)
Definition cut (a b : positive) (ka kb : PgSocket) w : World K :=
  set_sockets (<[b := set_link None kb]> (<[a := set_link None ka]> (w_sockets w))) w.

Lemma cut_quiet a b ka kb w :
  w_sockets w !! a = Some ka -> w_sockets w !! b = Some kb -> sk_link ka = Some b -> sk_link kb = Some a ->
  quiet (fun x => x = a \/ x = b) (view w) (view (cut a b ka kb w)).
Proof.
  intros Ha Hb Hab Hba. unfold cut. rewrite view_set2. apply quiet_one.
  { apply (VS_unlink (view w) a b (sview ka) (sview kb)); try done; by apply view_vs_some. }
  - intros x k Hx Hk. exists k. cbn. rewrite !lookup_insert_ne by (intros ->; tauto). split; [done|apply calm_refl].
  - intros x Hx. eapply insert_None_ne2; [by apply view_vs_some|by apply view_vs_some|done].
  - done.
Qed.

Lemma cut_inv a b ka kb w :
  Inv (view w) -> w_sockets w !! a = Some ka -> w_sockets w !! b = Some kb -> sk_link ka = Some b -> sk_link kb = Some a ->
  Inv (view (cut a b ka kb w)).
Proof. intros Hv Ha Hb Hab Hba. eapply quiet_inv; [exact Hv|by apply cut_quiet]. Qed.

Lemma unlink_pair_wp a b ka kb w (Q : unit -> World K -> Prop) :
  w_sockets w !! a = Some ka -> w_sockets w !! b = Some kb -> a <> b ->
  Q tt (cut a b ka kb w) -> wp (unlink_pair a b) Q w.
Proof. intros Ha Hb Hne HQ. unfold unlink_pair. wgo. exact HQ. Qed.

(** [disconnect_server] on a server without a client. *)
Lemma leave_unlinked_wp dc s b r k w :
  w_sockets w !! s = Some k -> sk_link k = None ->
  wp (leave_for_disconnect dc s b r) (fun _ w' => view w' = view w /\ live_server (sk_state k) = true) w.
Proof.
  intros Hs Hl. unfold leave_for_disconnect, unlink_server. wstep. wstep.
  destruct (sk_state k) eqn:Est; wgo; rewrite ?Hl; wgo; try done.
  eapply wp_conseq with (Q := fun _ w' => view w' = view w /\ w_sockets w' = w_sockets w).
  { destruct (negb (sk_ready k)); wgo; (split; [|done]); rewrite ?insert_insert_eq; by eapply view_pool. }
  intros b' w1 [Hv1 Hs1]. destruct (is_replication k); wgo; [|done].
  rewrite Hs1, Hs in Hk. injection Hk as <-. rewrite Hl. by wgo.
Qed.

Lemma disconnect_unlinked_wp fuel s b r k w :
  Inv (view w) -> w_sockets w !! s = Some k -> sk_link k = None ->
  wp (disconnect_server E cf fuel s b r) (fun _ w' => quiet (fun y => y = s) (view w) (view w') /\
       closed_server s (view w')) w.
Proof.
  intros Hv Hs Hl. destruct fuel as [|fuel]; [done|]. cbn [disconnect_server]. unfold disconnect_server_body.
  apply wp_bind. eapply wp_conseq; [by eapply leave_unlinked_wp|]. cbn. intros b' w1 [Hv1 Hlive].
  destruct (same_view_lookup s k w w1 Hv1 Hs) as (k1 & Hk1 & E1). injection E1 as F1 F2 F3 F4 F5 F6.
  rewrite <- Hv1. eapply finish_disconnect_wp; [by rewrite Hv1|done|congruence].
Qed.

Lemma forget_wp rs c k w (Q : unit -> World K -> Prop) :
  Inv (view w) -> w_sockets w !! c = Some k ->
  (sk_canceled_server k = None -> Q tt w) ->
  (forall s w1 k1 ks1, sk_canceled_server k = Some s -> quiet (fun _ => False) (view w) (view w1) ->
     w_sockets w1 !! c = Some k1 -> sview k1 = k_set_canceled None (sview k) -> w_sockets w1 !! s = Some ks1 ->
     Q tt w1 /\ (sk_state ks1 = SV_BEING_CANCELED -> sk_state k = CL_ACTIVE_CANCEL ->
                 wp (_ ← rs s; mret tt) Q w1)) ->
  wp (forget_canceled_server rs c) Q w.
Proof.
  intros Hv Hc Hnone Hsome. unfold forget_canceled_server. wstep. wstep.
  destruct (sk_canceled_server k) as [s|] eqn:Es; [|wgo; auto].
  pose proof Hv as (_ & _ & Hcan & _ & Hheld & _).
  destruct (proj1 Hcan c (sview k) s) as (_ & ksv & Hksv & Hin); [by apply view_vs_some|done|].
  apply view_vs_inv in Hksv as (ks & Hks & ->). cbn in Hin.
  destruct (canceling_pair c s ks w Hv Hks Hin) as (Hne & _).
  wstep. wstep. wstep. wstep.
  rewrite insert_insert_ne by done.
  set (w1 := set_sockets _ w).
  assert (Hq : quiet (fun _ => False) (view w) (view w1)) by (by apply uncancel_quiet).
  assert (Hs1 : w_sockets w1 !! s = Some (set_canceling_clients (filter (fun y => y <> c) (sk_canceling_clients ks)) ks))
    by (cbn; by rewrite lookup_insert_eq).
  assert (Hc1 : w_sockets w1 !! c = Some (set_canceled_server None k))
    by (cbn; rewrite lookup_insert_ne, lookup_insert_eq by done; done).
  destruct (Hsome s w1 _ _ eq_refl Hq Hc1 eq_refl Hs1) as [HQ Hrs].
  wstep. wstep.
  destruct (bool_decide _ && bool_decide _) eqn:Eb; [|by wgo].
  apply andb_prop in Eb as [Eb _]. apply bool_decide_eq_true_1 in Eb. apply Hrs; [done|].
  destruct (Hheld s (sview ks) (view_vs_some _ _ _ Hks) Eb c Hin) as (kc' & Hkc' & Hst).
  rewrite (view_vs_some c k w Hc) in Hkc'. by injection Hkc' as <-.
Qed.

(** [disconnect_client] on a client without a server, unless it is a cancel
    request in flight. *)
Lemma leave_client_unlinked_wp ds rs c k w :
  Inv (view w) -> w_sockets w !! c = Some k -> sk_link k = None -> sk_state k <> CL_ACTIVE_CANCEL ->
  wp (leave_client ds rs c) (fun _ w' => quiet (fun _ => False) (view w) (view w') /\
     exists k', w_sockets w' !! c = Some k' /\ sk_link k' = None /\ sk_canceled_server k' = None) w.
Proof.
  intros Hv Hc Hl Hst. unfold leave_client. wstep. wstep.
  assert (Hcan : cancel_client_state (sk_state k) = false -> sk_canceled_server k = None).
  { intros Hs. eapply (no_canceled (vs (view w)) c (sview k)); [apply Hv|by apply view_vs_some|done]. }
  destruct (sk_state k) eqn:Est; wgo; try done; rewrite ?Hl; wgo;
    try (split; [apply quiet_refl|exists k; auto]).
  eapply forget_wp; [done..| |].
  - intros Hn. split; [apply quiet_refl|]. eauto.
  - intros s w1 k1 ks1 Hs Hq Hk1 Hvk1 Hks1. injection Hvk1 as F1 F2 F3 F4 F5 F6.
    split; [|congruence]. split; [done|]. exists k1. split; [done|]. split; congruence.
Qed.

Lemma disconnect_client_unlinked_wp fuel c notify r k w :
  Inv (view w) -> w_sockets w !! c = Some k -> sk_link k = None -> sk_state k <> CL_ACTIVE_CANCEL ->
  wp (disconnect_client E cf fuel c notify r) (fun _ w' => quiet (fun y => y = c) (view w) (view w')) w.
Proof.
  intros Hv Hc Hl Hst. destruct fuel as [|fuel]; [done|]. cbn [disconnect_client]. unfold disconnect_client_body.
  apply wp_bind, wp_vkeep; [vkeep_solve|]. intros _ w1 Hv1.
  destruct (same_view_lookup c k w w1 Hv1 Hc) as (k1 & Hk1 & E1). injection E1 as F1 F2 F3 F4 F5 F6.
  apply wp_bind. eapply wp_conseq; [eapply (leave_client_unlinked_wp _ _ _ k1); try done; congruence|].
  cbn. intros _ w2 (Hq2 & k2 & Hk2 & Hl2 & Hc2).
  eapply wp_conseq; [by eapply finish_client_wp|]. cbn. intros _ w3 [Hq3 _]. rewrite <- Hv1.
  eapply quiet_trans; [by eapply quiet_mono; [exact Hq2|]|done].
Qed.

End Close.

Section Refine.
Context `{Realloc} {K : Type} (E : ObjEnv K) `{!EnvOk E} (cf : Config).
Implicit Types w : World K.

(** Waking a waiting client that has no server, or one that is active. *)
Lemma wake_client_wp c k w :
  Inv (view w) -> w_sockets w !! c = Some k ->
  (forall s, sk_link k = Some s -> exists ks, w_sockets w !! s = Some ks /\ sk_state ks = SV_ACTIVE) ->
  wp (wake_client c) (fun _ w' => vstep (view w) (view w') /\ frame (fun y => y = c) (view w) (view w') /\
        (sk_state k = CL_WAITING \/ sk_state k = CL_WAITING_LOGIN)) w.
Proof using.
  intros Hv Hc Hl. unfold wake_client. wstep. wstep. wstep. wstep.
  assert (Hst : sk_state k = CL_WAITING \/ sk_state k = CL_WAITING_LOGIN).
  { apply orb_prop in Has as [Ha|Ha]; apply bool_decide_eq_true_1 in Ha; auto. }
  wstep. wstep. wstep. wstep. wstep. wstep.
  apply wp_bind, wp_vkeep; [vkeep_solve|]. intros _ w1 Hv1.
  destruct (same_view_lookup c k w w1 Hv1 Hc) as (k1 & Hk1 & E1). pose proof E1 as E1'. injection E1 as F1 F2 F3 F4 F5 F6.
  eapply wp_conseq; [apply change_client_state_wp|]. cbn.
  intros _ w2 (k1' & Hk1' & _ & _ & Hm). rewrite Hk1 in Hk1'. injection Hk1' as <-.
  set (st := new_client_state (sk_state k1) CL_ACTIVE) in *.
  assert (Hst' : st = CL_ACTIVE \/ st = CL_LOGIN) by (unfold st; rewrite F1; destruct Hst as [-> | ->]; auto).
  destruct (decide (st = CL_FREE)) as [Hf|_]; [naive_solver congruence|]. destruct Hm as [Hslot Hm].
  apply view_moved in Hm. split; [|split; [|done]].
  - rewrite Hm, Hv1, E1'. apply VS_move_client.
    + by apply view_vs_some.
    + cbn. by destruct Hst as [-> | ->].
    + by destruct Hst' as [-> | ->].
    + unfold link_fits; cbn. destruct (sk_link k) as [s|] eqn:Es; [|done].
      destruct (Hl s eq_refl) as (ks & Hks & Hss). exists (sview ks). split; [by apply view_vs_some|].
      left. unfold pair_ok; cbn. rewrite Hss. by destruct Hst' as [-> | ->].
    + cbn. eapply (no_canceled (vs (view w)) c (sview k)); [apply Hv|by apply view_vs_some|].
      cbn. by destruct Hst as [-> | ->].
    + unfold k_slot; cbn. by rewrite <- F2.
  - rewrite Hm, Hv1. intros x stx Hx (kx & Hkx & Hpk). exists kx. cbn. by rewrite lookup_insert_ne.
Qed.

Lemma activate_client_wp c k w :
  Inv (view w) -> w_sockets w !! c = Some k ->
  (forall s, sk_link k = Some s -> exists ks, w_sockets w !! s = Some ks /\ sk_state ks = SV_ACTIVE) ->
  wp (activate_client E c) (fun _ w' => runs (fun _ => False) (view w) (view w')) w.
Proof using All.
  intros Hv Hc Hl. apply wp_bind. eapply wp_conseq; [by eapply wake_client_wp|]. cbv beta. intros _ w2 (Hs & Hf & Hst).
  eapply wp_conseq; [apply continue_ok; by eapply step_inv|]. cbn. intros _ w3 Hr.
  apply (runs_not_parked c).
  - eapply runs_trans; [by apply runs_one|exact Hr].
  - intros stc. apply (parked_not _ _ (sview k)); [by apply view_vs_some|]. cbn. by destruct Hst as [-> | ->].
Qed.

(** A waiting client that needs no server of its own has no server. *)
Lemma waiting_unlinked p c k w :
  Inv (view w) -> head (lst (w_lists w) (PoolSlot p waiting_client_list)) = Some c -> w_sockets w !! c = Some k ->
  negb (is_replication k) || sending_auth_query k = true -> sk_link k = None.
Proof using.
  intros Hv Eh Hk Eb. destruct (sk_link k) as [s'|] eqn:Hs'; [|done]. exfalso.
  destruct (link_partner c s' k w Hv Hk Hs') as (_ & ks' & _ & _ & Hpair).
  assert (Hnr : v_repl (sview k) = false) by (cbn; by destruct (is_replication k), (sending_auth_query k)).
  destruct (in_pool_list (view w) p waiting_client_list c Hv) as (kv & Hkv & Hst & _).
  { cbn. by apply head_elem. }
  rewrite (view_vs_some c k w Hk) in Hkv. injection Hkv as <-. cbn in Hst.
  unfold pair_ok in Hpair; cbn [sview v_state v_repl] in *. rewrite Hnr in Hpair.
  destruct (sk_state k); try done; destruct (sk_state ks'), Hpair as [?|?]; done.
Qed.

Lemma reuse_on_release_wp s w :
  Inv (view w) -> wp (reuse_on_release E s) (fun _ w' => runs (fun _ => False) (view w) (view w')) w.
Proof using All.
  intros Hv. unfold reuse_on_release, first_socket. wgo. destruct (head _) as [c|] eqn:Eh; wgo; [|auto with pgb].
  destruct (negb (is_replication k0) || sending_auth_query k0) eqn:Eb; wgo; [|auto with pgb].
  eapply wp_conseq; [eapply (activate_client_wp c k0); [done..|]|].
  - intros s'. by rewrite (waiting_unlinked p c k0 w).
  - cbn. intros _ w1 Hr. wgo. done.
Qed.

(** A server in one of the states [release_server] accepts, after its cancel
    requests that are not in flight were dropped. *)
Definition releasable (s : positive) (k : PgSocket) w : Prop :=
  w_sockets w !! s = Some k /\ live_server (sk_state k) = true /\
  (sk_state k <> SV_LOGIN -> sk_link k = None) /\
  (forall c, sk_link k = Some c -> sk_canceling_clients k = [] /\
     exists kc, w_sockets w !! c = Some kc /\ (sk_state kc = CL_WAITING \/ sk_state kc = CL_WAITING_LOGIN)) /\
  in_flight (vs (view w)) (sview k).

Lemma move_server_wp s st k w :
  Inv (view w) -> w_sockets w !! s = Some k -> live_server (sk_state k) = true ->
  live_server st = true -> st <> SV_LOGIN -> link_fits (vs (view w)) (k_set_state st (sview k)) ->
  (sk_canceling_clients k = [] \/ cancel_target st = true) ->
  (st = SV_BEING_CANCELED -> in_flight (vs (view w)) (sview k)) ->
  wp (change_server_state cf s st) (fun _ w' => quiet (fun y => y = s) (view w) (view w') /\
     exists k', w_sockets w' !! s = Some k' /\ sview k' = k_set_state st (sview k) /\
       forall y, y <> s -> w_sockets w' !! y = w_sockets w !! y) w.
Proof using.
  intros Hv Hs Hlive Hst Hnl Hfit Hcan Hfl. eapply wp_conseq; [apply change_server_state_wp|]. cbn.
  intros _ w' (k0 & Hk0 & _ & _ & Hm). rewrite Hs in Hk0. injection Hk0 as <-.
  destruct (decide (st = SV_FREE)) as [->|_]; [done|]. destruct Hm as [_ Hm].
  destruct (moved_self _ _ _ _ _ _ Hm) as (k' & Hk' & Hv' & _).
  split; [|exists k'; split; [done|]; split; [done|]; intros y Hy; by eapply moved_lookup].
  apply view_moved in Hm. rewrite Hm. eapply quiet_move; [by apply view_vs_some|].
  apply VS_move_server; try done. by apply view_vs_some.
Qed.

Lemma finish_release_wp ds s k st w :
  (forall b r w, Inv (view w) -> wp (ds s b r) (fun _ w' => runs (fun y => y = s) (view w) (view w')) w) ->
  Inv (view w) -> releasable s k w -> st = SV_IDLE \/ st = SV_USED \/ st = SV_TESTED ->
  wp (finish_release E cf ds s st) (fun _ w' => runs (fun y => y = s) (view w) (view w')) w.
Proof using All.
  intros Hds Hv (Hs & Hlive & Hl & Hw & Hfl) Hst. unfold finish_release. wstep. wstep.
  assert (Hds' : forall b r A (a : A), wp (_ ← ds s b r; mret a)
            (fun _ w' => runs (fun y => y = s) (view w) (view w')) w).
  { intros b r A a. apply wp_bind. eapply wp_conseq; [by apply Hds|]. cbn. intros _ w1 Hr. by wstep. }
  destruct (bool_decide (zlen (sk_outstanding_requests k) > 0)); [by apply Hds'|].
  destruct (sk_close_needed k); [by apply Hds'|].
  destruct (bool_decide (zlen (sk_canceling_clients k) > 0)) eqn:Ecan.
  { apply wp_bind. eapply wp_conseq; [eapply (move_server_wp s _ k); try done; [|by right]|].
    - unfold link_fits; cbn. destruct (sk_link k) as [c|] eqn:Elk; [|done].
      destruct (Hw c eq_refl) as [Hn _]. rewrite Hn in Ecan. done.
    - cbn. intros _ w1 [Hq _]. wstep. by apply quiet_runs. }
  assert (Hnil : sk_canceling_clients k = []).
  { apply bool_decide_eq_false_1 in Ecan. destruct (sk_canceling_clients k); [done|]. rewrite zlen_cons in Ecan. zlia. }
  destruct (is_replication k) eqn:Erep.
  - destruct (sk_link k) as [c|] eqn:Elk; [|by apply Hds'].
    destruct (Hw c eq_refl) as (_ & kc & Hkc & Hcw).
    destruct (link_partner s c k w Hv Hs Elk) as (Hne & kc' & Hkc' & Hlc & Hpair). simplify_eq.
    apply wp_bind. eapply wp_conseq; [eapply (move_server_wp s _ k); try done; [|by left]|].
    + unfold link_fits; cbn. rewrite Elk. exists (sview kc). split; [by apply view_vs_some|]. right.
      unfold pair_ok in *; cbn [sview k_set_state v_state v_repl] in *.
      destruct Hcw as [Hcw|Hcw]; rewrite Hcw in *; destruct (sk_state k); destruct Hpair as [?|?]; try done.
    + cbn. intros _ w1 (Hq & k1 & Hk1 & Hvk1 & Hoth). injection Hvk1 as F1 F2 F3 F4 F5 F6. apply wp_bind.
      eapply wp_conseq; [eapply (activate_client_wp c kc); [by eapply quiet_inv|by rewrite Hoth|]|].
      * rewrite Hlc. intros s' [= <-]. eauto.
      * cbn. intros _ w2 Hr. wstep. eapply runs_trans; [by apply quiet_runs|]. by eapply runs_mono.
  - wstep. wstep. apply bool_decide_eq_true_1 in Has. apply wp_bind.
    eapply wp_conseq; [eapply (move_server_wp s _ k); try done; [| | |by left]; try (by destruct Hst as [->|[->| ->]])|].
    + unfold link_fits; cbn. by rewrite Has.
    + cbn. intros _ w1 (Hq & k1 & Hk1 & Hvk1 & Hoth). injection Hvk1 as F1 F2 F3 F4 F5 F6.
      assert (Hv1 : Inv (view w1)) by (by eapply quiet_inv).
      destruct (decide (st = SV_IDLE)).
      { eapply wp_conseq; [by apply reuse_on_release_wp|]. cbn. intros _ w2 Hr.
        eapply runs_trans; [by apply quiet_runs|]. by eapply runs_mono. }
      destruct (decide (st = SV_TESTED)); [|wstep; by apply quiet_runs].
      unfold reset_on_release. wstep. wstep. wstep. wstep.
      apply wp_bind, wp_vkeep; [vkeep_solve|]. intros res w2 Hv2. destruct res; wgo.
      { rewrite Hv2. by apply quiet_runs. }
      eapply wp_conseq; [apply Hds; by rewrite Hv2|]. cbn. intros _ w3 Hr. wgo. rewrite Hv2 in Hr.
      eapply runs_trans; [by apply quiet_runs|done].
Qed.

Lemma cut_link_wp s k w :
  Inv (view w) -> w_sockets w !! s = Some k ->
  wp (match sk_link k with
      | Some c => _ ← sk_mod c (set_copy_mode false); unlink_pair c s
      | None => mret tt
      end)
     (fun _ w1 => view w1 = match sk_link k with
        | Some c =>
            match vs (view w) !! c with
            | Some kc => vset s (k_set_link None (sview k)) (vset c (k_set_link None kc) (view w))
            | None => view w
            end
        | None => view w end) w.
Proof using.
  intros Hv Hs. destruct (sk_link k) as [c|] eqn:Hl; [|by wgo].
  destruct (link_partner s c k w Hv Hs Hl) as (Hne & kc & Hkc & _). unfold unlink_pair. wgo.
  rewrite (view_vs_some c kc w Hkc), view_set2. done.
Qed.

Lemma leave_old_state_wp s k w :
  Inv (view w) -> w_sockets w !! s = Some k ->
  wp (leave_old_state cf s) (fun st w1 => view w1 = released s (view w) /\
     (st = SV_IDLE \/ st = SV_USED \/ st = SV_TESTED) /\
     live_server (sk_state k) = true /\ sk_state k <> SV_ACTIVE_CANCEL) w.
Proof using.
  intros Hv Hs. unfold leave_old_state. wstep. wstep. wstep. wstep.
  assert (Hrel : forall w1, view w1 = released s (view w) -> live_server (sk_state k) = true ->
     sk_state k <> SV_ACTIVE_CANCEL ->
     wp (released_state cf k) (fun st w1 => view w1 = released s (view w) /\
       (st = SV_IDLE \/ st = SV_USED \/ st = SV_TESTED) /\
       live_server (sk_state k) = true /\ sk_state k <> SV_ACTIVE_CANCEL) w1).
  { intros w1 Hv1 Hlive Hna. unfold released_state. apply wp_bind, wp_vkeep; [vkeep_solve|]. intros b w2 Hv2. wstep.
    split; [congruence|]. split; [|done]. destruct b; [auto|]. destruct (bool_decide _ && bool_decide _); auto. }
  assert (Hno : released s (view w) = match sk_state k, sk_link k with
      | (SV_ACTIVE | SV_BEING_CANCELED), Some c =>
          match vs (view w) !! c with
          | Some kc => vset s (k_set_link None (sview k)) (vset c (k_set_link None kc) (view w))
          | None => view w
          end
      | _, _ => view w end) by (unfold released; by rewrite (view_vs_some s k w Hs)).
  destruct (sk_state k) eqn:Est; wgo; try done.
  - rewrite Hno. split; [|auto]. rewrite (view_pool p _ _ _ Hpl) by done. done.
  - eapply wp_conseq; [by apply cut_link_wp|]. cbn beta. intros _ w1 Hv1. apply Hrel; [congruence|done|done].
  - eapply wp_conseq; [by apply cut_link_wp|]. cbn beta. intros _ w1 Hv1. apply Hrel; [congruence|done|done].
  - rewrite Hno. auto.
  - rewrite Hno. auto.
Qed.

Lemma releasable_same s k w w' : view w' = view w -> releasable s k w -> exists k', releasable s k' w'.
Proof using.
  intros Hv (Hs & Hlive & Hl & Hw & Hfl). destruct (same_view_lookup s k w w' Hv Hs) as (k' & Hk' & E').
  exists k'. pose proof E' as E2. injection E' as F1 F2 F3 F4 F5 F6. split; [done|]. rewrite F1, F3, F6, E2, Hv.
  split; [done|]. split; [done|]. split; [|done]. intros c Hc. destruct (Hw c Hc) as (Hn & kc & Hkc & Hst).
  split; [done|]. destruct (same_view_lookup c kc w w' Hv Hkc) as (kc' & Hkc' & E3). injection E3 as G1 _ _ _ _ _.
  exists kc'. by rewrite G1.
Qed.

(** After the loop over the cancel requests the server can be released. *)
Lemma releasable_left s k k0 w w1 w2 :
  Inv (view w) -> login_ready s (view w) -> w_sockets w !! s = Some k -> live_server (sk_state k) = true ->
  sk_state k <> SV_ACTIVE_CANCEL -> view w1 = released s (view w) -> w_sockets w1 !! s = Some k0 ->
  cancels_left s k0 (fun c => c ∈ sk_canceling_clients k0 /\
       exists kc, w_sockets w1 !! c = Some kc /\ sk_state kc = CL_WAITING_CANCEL) w1 w2 ->
  exists k2, releasable s k2 w2.
Proof using.
  intros Hv Hready Hk Hlive Hna Hv1 Hk0 (Hq2 & k2 & Hk2 & Hcalm & Hleft & _). exists k2.
  pose proof (released_inv s (view w) Hv) as Hinv1.
  destruct (released_self s (view w) (sview k) Hv) as (ks' & Hks' & Hst & _ & Hcan & Hlog); [by apply view_vs_some|].
  rewrite <- Hv1 in *. rewrite (view_vs_some s k0 w1 Hk0) in Hks'. injection Hks' as <-. cbn in Hst, Hcan, Hlog.
  destruct Hcalm as (C1 & _ & C3 & _ & _). cbn in C1, C3.
  assert (Hfl : forall c, c ∈ sk_canceling_clients k2 -> c ∈ sk_canceling_clients k0 /\
            exists kc, vs (view w1) !! c = Some kc /\ v_state kc = CL_ACTIVE_CANCEL).
  { intros c Hc. apply Hleft in Hc as [Hc Hnw]. split; [done|].
    destruct (canceling_pair c s k0 w1 Hinv1 Hk0 Hc) as (_ & kc & Hkc & Hcs).
    exists (sview kc). split; [by apply view_vs_some|]. destruct (decide (sk_state kc = CL_WAITING_CANCEL)).
    { destruct Hnw; eauto. }
    destruct Hinv1 as (_ & _ & (Hcl & _) & _).
    destruct (Hcl c (sview kc) s) as [Hs _]; [by apply view_vs_some|done|]. cbn in *. by destruct (sk_state kc). }
  split; [done|]. split; [congruence|]. split; [|split].
  - intros Hnl. rewrite C3. apply (released_unlinked s (view w) (sview k0)); [done| |cbn; congruence..|].
    + rewrite <- Hv1. by apply view_vs_some.
    + cbn. rewrite Hst. by apply live_is_server.
  - intros c Hc. rewrite C3 in Hc.
    destruct (decide (sk_state k = SV_LOGIN)) as [El|El].
    2: { assert (sk_link k0 = None); [|congruence].
         apply (released_unlinked s (view w) (sview k0)); [done| |cbn; congruence..|cbn; rewrite Hst; by apply live_is_server].
         rewrite <- Hv1. by apply view_vs_some. }
    rewrite (Hlog El) in *.
    destruct (Hready (sview k0) c) as [(kc & Hkc & Hw) Hnf]; [by rewrite <- (Hlog El); apply view_vs_some|cbn; congruence|done|].
    split.
    + destruct (sk_canceling_clients k2) as [|d l] eqn:Ed; [done|]. exfalso.
      destruct (Hfl d) as (Hd & kd & Hkd & Hsd); [apply elem_of_cons; by left|].
      by apply (Hnf d kd).
    + destruct (proj1 (proj2 Hq2) c kc) as (kc2 & Hkc2 & D1 & _); [tauto|done|].
      apply view_vs_inv in Hkc2 as (kc2' & Hkc2' & ->). cbn in D1. exists kc2'. split; [done|]. rewrite D1. done.
  - intros c Hc. cbn in Hc. destruct (Hfl c Hc) as (_ & kc & Hkc & Hsc).
    destruct (proj1 (proj2 Hq2) c kc) as (kc2 & Hkc2 & D1 & _); [tauto|done|]. exists kc2. split; [done|congruence].
Qed.

Lemma release_server_body_wp ds s w :
  (forall b r w, Inv (view w) -> wp (ds s b r) (fun _ w' => runs (fun y => y = s) (view w) (view w')) w) ->
  Inv (view w) -> login_ready s (view w) ->
  wp (release_server_body E cf ds s) (fun _ w' => runs (fun y => y = s) (released s (view w)) (view w')) w.
Proof using All.
  intros Hds Hv Hready. unfold release_server_body. wstep. wstep. wstep. wstep. wstep. wstep. wstep.
  eapply wp_conseq; [by apply (leave_old_state_wp s k)|]. cbn. intros st w1 (Hv1 & Hst & Hlive & Hna).
  pose proof (released_inv s (view w) Hv) as Hinv1. rewrite <- Hv1 in *.
  wstep. wstep. apply wp_bind.
  eapply wp_conseq; [eapply (drop_waiting_cancels_wp _ _ k0); [done|done| |by apply Forall_forall]|].
  { destruct Hinv1 as (_ & _ & (_ & _ & Hnd) & _). apply (Hnd s (sview k0)). by apply view_vs_some. }
  cbn. intros _ w2 Hleft.
  assert (exists k2, releasable s k2 w2) as [k2 Hrel2] by (by eapply (releasable_left s k k0 w w1 w2)).
  destruct Hleft as (Hq2 & _).
  apply wp_bind, wp_vkeep; [vkeep_solve|]. intros over w3 Hv3.
  assert (Hinv3 : Inv (view w3)) by (rewrite Hv3; by eapply quiet_inv).
  assert (Hgo : forall w4, runs (fun y => y = s) (view w3) (view w4) -> runs (fun y => y = s) (view w1) (view w4)).
  { intros w4 Hr. eapply runs_trans; [|exact Hr]. rewrite Hv3. apply quiet_runs. by eapply quiet_mono. }
  destruct over.
  { apply wp_bind. eapply wp_conseq; [by apply Hds|]. cbn. intros _ w4 Hr. wstep. wstep.
    apply wp_bind, wp_vkeep; [vkeep_solve|]. intros _ w5 Hv5. wstep. rewrite Hv5. by apply Hgo. }
  assert (exists k3, releasable s k3 w3) as [k3 Hrel] by (by eapply releasable_same).
  eapply wp_conseq; [by eapply finish_release_wp|]. cbn. intros _ w4 Hr. by apply Hgo.
Qed.

(** What a caller of [disconnect_client] may rely on. *)
Definition disconnects_client (dc : positive -> bool -> list Z -> SM (World K) unit) : Prop :=
  (forall c n r w, Inv (view w) -> wp (dc c n r) (fun _ w' => runs (fun y => y = c) (view w) (view w')) w) /\
  (forall c n r k w, Inv (view w) -> w_sockets w !! c = Some k -> sk_link k = None ->
     sk_state k <> CL_ACTIVE_CANCEL ->
     wp (dc c n r) (fun _ w' => quiet (fun y => y = c) (view w) (view w')) w).

Lemma disconnect_partner_wp dc c s kc k n r w :
  disconnects_client dc -> Inv (view w) -> w_sockets w !! s = Some k -> w_sockets w !! c = Some kc ->
  sk_link k = Some c -> sk_link kc = Some s -> c <> s ->
  wp (dc c n r) (fun _ w' => runs (fun y => y = s) (view w) (view w') /\
     exists k', w_sockets w' !! s = Some k' /\ sk_state k' = sk_state k) (cut c s kc k w).
Proof using.
  intros [Hdc Hdc0] Hv Hs Hc Hl Hlc Hne. set (w1 := cut c s kc k w).
  assert (Hv1 : Inv (view w1)) by (by apply cut_inv).
  assert (Hq1 : quiet (fun x => x = c \/ x = s) (view w) (view w1)) by (by apply cut_quiet).
  assert (Hc1 : w_sockets w1 !! c = Some (set_link None kc))
    by (cbn; rewrite lookup_insert_ne, lookup_insert_eq by done; done).
  assert (Hs1 : w_sockets w1 !! s = Some (set_link None k)) by (cbn; by rewrite lookup_insert_eq).
  assert (Hend : forall w2, runs (fun y => y = c) (view w1) (view w2) -> runs (fun y => y = s) (view w) (view w2)).
  { intros w2 Hr. eapply (runs_after_cut c s (sview kc)); [by apply view_vs_some|cbn; congruence|exact Hq1|done]. }
  destruct (decide (sk_state kc = CL_ACTIVE_CANCEL)) as [Ea|Ea].
  - eapply wp_conseq; [by apply Hdc|]. cbn. intros _ w2 Hr. split; [by apply Hend|].
    assert (Hp : parked (view w1) s SV_ACTIVE_CANCEL).
    { exists (sview (set_link None k)). split; [by apply view_vs_some|]. cbn.
      destruct (link_partner s c k w Hv Hs Hl) as (_ & kc' & Hkc' & _ & Hpair). rewrite Hc in Hkc'. injection Hkc' as <-.
      assert (sk_state k = SV_ACTIVE_CANCEL).
      { unfold pair_ok in Hpair; cbn in Hpair. rewrite Ea in Hpair.
        destruct (sk_state k); destruct Hpair as [?|?]; done. }
      repeat split; try done. eapply (server_no_canceled (vs (view w)) s (sview k)); [apply Hv|by apply view_vs_some|].
      cbn. match goal with G : sk_state k = _ |- _ => by rewrite G end. }
    destruct Hr as [_ Hf]. destruct (Hf s SV_ACTIVE_CANCEL) as (ks2 & Hks2 & Hst2 & _); [by intros ->|done|].
    apply view_vs_inv in Hks2 as (k2 & Hk2 & ->). exists k2. split; [done|]. cbn in Hst2.
    destruct Hp as (kp & Hkp & Hst & _). rewrite (view_vs_some s _ w1 Hs1) in Hkp. injection Hkp as <-.
    cbn in Hst. congruence.
  - eapply wp_conseq; [by eapply Hdc0|]. cbn. intros _ w2 Hq. split; [by apply Hend, quiet_runs|].
    destruct (proj1 (proj2 Hq) s (sview (set_link None k))) as (k2 & Hk2 & D1 & _); [by intros ->|by apply view_vs_some|].
    apply view_vs_inv in Hk2 as (k2' & Hk2' & ->). exists k2'. by split.
Qed.

Lemma unlink_server_wp dc s c k r w :
  disconnects_client dc -> Inv (view w) -> w_sockets w !! s = Some k -> sk_link k = Some c ->
  wp (unlink_server dc s r) (fun _ w' => runs (fun y => y = s) (view w) (view w') /\
     exists k', w_sockets w' !! s = Some k' /\ sk_state k' = sk_state k) w.
Proof using.
  intros Hdc Hv Hs Hl. unfold unlink_server. wstep. wstep. rewrite Hl.
  destruct (link_partner s c k w Hv Hs Hl) as (Hne & kc & Hkc & Hlc & _).
  apply wp_bind, (unlink_pair_wp c s kc k); [done|done|done|].
  apply wp_bind, wp_sk_get. intros kc1 _.
  destruct (bool_decide _ || bool_decide _); [by apply disconnect_partner_wp|].
  destruct (bool_decide _); by apply disconnect_partner_wp.
Qed.

Lemma leave_linked_wp dc s c k b r w :
  disconnects_client dc -> Inv (view w) -> w_sockets w !! s = Some k -> sk_link k = Some c ->
  wp (leave_for_disconnect dc s b r) (fun _ w' => runs (fun y => y = s) (view w) (view w') /\
     exists k', w_sockets w' !! s = Some k' /\ live_server (sk_state k') = true) w.
Proof using.
  intros Hdc Hv Hs Hl. unfold leave_for_disconnect. wstep. wstep.
  assert (Hun : forall w1 A (a : A), view w1 = view w -> w_sockets w1 = w_sockets w -> live_server (sk_state k) = true ->
     wp (_ ← unlink_server dc s r; mret a) (fun _ w' => runs (fun y => y = s) (view w) (view w') /\
       exists k', w_sockets w' !! s = Some k' /\ live_server (sk_state k') = true) w1).
  { intros w1 A a Hv1 Hs1 Hlive. apply wp_bind.
    eapply wp_conseq; [eapply (unlink_server_wp _ _ c k); [done|by rewrite Hv1|by rewrite Hs1|done]|].
    cbn. intros _ w2 (Hr & k' & Hk' & Hst). wstep. rewrite Hv1 in Hr. split; [done|]. exists k'. split; [done|congruence]. }
  destruct (sk_state k) eqn:Est; try (by apply Hun); wgo; try done;
    try (split; [apply runs_refl|exists k; by rewrite Est]).
  eapply wp_conseq with (Q := fun _ w' => view w' = view w /\ w_sockets w' = w_sockets w).
  { destruct (negb (sk_ready k)); wgo; (split; [|done]); rewrite ?insert_insert_eq; by eapply view_pool. }
  intros b' w1 [Hv1 Hs1]. destruct (is_replication k); [by apply Hun|].
  wgo. rewrite Hv1. split; [apply runs_refl|]. exists k. rewrite Hs1. by rewrite Est.
Qed.

Lemma leave_for_disconnect_wp dc s b r w :
  disconnects_client dc -> Inv (view w) ->
  wp (leave_for_disconnect dc s b r) (fun _ w' => runs (fun y => y = s) (view w) (view w') /\
     exists k', w_sockets w' !! s = Some k' /\ live_server (sk_state k') = true) w.
Proof using.
  intros Hdc Hv. destruct (w_sockets w !! s) as [k|] eqn:Hs.
  2: { unfold leave_for_disconnect. apply wp_bind, wp_sk_get. congruence. }
  destruct (sk_link k) as [c|] eqn:Hl; [by eapply leave_linked_wp|].
  eapply wp_conseq; [by eapply leave_unlinked_wp|]. cbn. intros _ w1 [Hv1 Hlive]. rewrite Hv1.
  split; [apply runs_refl|]. destruct (same_view_lookup s k w w1 Hv1 Hs) as (k1 & Hk1 & E1).
  injection E1 as F1 _ _ _ _ _. exists k1. by rewrite F1.
Qed.

Lemma disconnect_server_body_wp dc s b r w :
  disconnects_client dc -> Inv (view w) ->
  wp (disconnect_server_body E cf dc s b r) (fun _ w' => runs (fun y => y = s) (view w) (view w') /\
     closed_server s (view w')) w.
Proof using.
  intros Hdc Hv. unfold disconnect_server_body. apply wp_bind. eapply wp_conseq; [by apply leave_for_disconnect_wp|].
  cbv beta. intros b' w1 (Hr & k1 & Hk1 & Hlive).
  eapply wp_conseq; [eapply finish_disconnect_wp; [by eapply runs_inv|done|done]|].
  cbv beta. intros _ w2 [Hq Hc]. split; [|done]. eapply runs_trans; [done|by apply quiet_runs].
Qed.

(** What a caller of [disconnect_server] on an unlinked server, and of
    [release_server], may rely on. *)
Definition closes_server (ds : positive -> bool -> list Z -> SM (World K) unit) : Prop :=
  forall s b r k w, Inv (view w) -> w_sockets w !! s = Some k -> sk_link k = None ->
    wp (ds s b r) (fun _ w' => quiet (fun y => y = s) (view w) (view w')) w.
Definition releases_server (rs : positive -> SM (World K) bool) : Prop :=
  forall s w, Inv (view w) -> login_ready s (view w) ->
    wp (rs s) (fun _ w' => runs (fun y => y = s) (released s (view w)) (view w')) w.

(** The client [c] is unlinked and its server closed. *)
Lemma close_partner_wp ds s c ks k b r w w1 :
  closes_server ds -> Inv (view w) -> w_sockets w !! s = Some ks -> w_sockets w !! c = Some k ->
  sk_link ks = Some c -> sk_link k = Some s -> s <> c -> view w1 = view (cut s c ks k w) ->
  wp (ds s b r) (fun _ w' => runs (fun y => y = c) (view w) (view w') /\
     exists k', w_sockets w' !! c = Some k' /\ calm (k_set_link None (sview k)) (sview k')) w1.
Proof using.
  intros Hds Hv Hs Hc Hl Hlc Hne Hw1.
  assert (Hv1 : Inv (view w1)) by (rewrite Hw1; by apply cut_inv).
  assert (Hq1 : quiet (fun x => x = s \/ x = c) (view w) (view w1)) by (rewrite Hw1; by apply cut_quiet).
  destruct (same_view_lookup s (set_link None ks) (cut s c ks k w) w1) as (ks1 & Hks1 & E1); [done| |].
  { cbn. rewrite lookup_insert_ne, lookup_insert_eq by done. done. }
  destruct (same_view_lookup c (set_link None k) (cut s c ks k w) w1) as (k1 & Hk1 & E2); [done| |].
  { cbn. by rewrite lookup_insert_eq. }
  injection E1 as F1 F2 F3 _ _ _.
  eapply wp_conseq; [eapply Hds; [done|exact Hks1|by rewrite F3]|]. cbn. intros _ w2 Hq2. split.
  - eapply (runs_after_cut s c (sview ks)); [by apply view_vs_some|cbn; congruence|exact Hq1|by apply quiet_runs].
  - destruct (proj1 (proj2 Hq2) c (sview k1)) as (k2 & Hk2 & Hcalm); [by intros ->|by apply view_vs_some|].
    apply view_vs_inv in Hk2 as (k2' & Hk2' & ->). exists k2'. split; [done|]. by rewrite E2 in Hcalm.
Qed.

(** The client is released from a server that is ready. *)
Lemma release_partner_parked rs s c ks k w :
  releases_server rs -> Inv (view w) -> w_sockets w !! s = Some ks -> w_sockets w !! c = Some k ->
  sk_link ks = Some c -> sk_link k = Some s -> s <> c -> sk_state k = CL_ACTIVE \/ sk_state k = CL_LOGIN ->
  wp (rs s) (fun _ w' => runs (fun y => y = c) (view w) (view w') /\ parked (view w') c (sk_state k)) w.
Proof using.
  intros Hrs Hv Hs Hc Hl Hlc Hne Hst.
  assert (Hss : sk_state ks = SV_ACTIVE).
  { destruct (link_partner c s k w Hv Hc Hlc) as (_ & ks' & Hks' & _ & Hpair). rewrite Hs in Hks'. injection Hks' as <-.
    unfold pair_ok in Hpair; cbn in Hpair. destruct Hst as [Hst|Hst]; rewrite Hst in Hpair;
      destruct (sk_state ks); destruct Hpair as [?|?]; done. }
  assert (Hrel : released s (view w) = view (cut c s k ks w)).
  { unfold released, cut. rewrite (view_vs_some s ks w Hs). cbn [sview v_state v_link]. rewrite Hss, Hl.
    by rewrite (view_vs_some c k w Hc), view_set2. }
  eapply wp_conseq; [apply Hrs; [done|]|].
  { intros ks0 c0 Hks0 Hlog. rewrite (view_vs_some s ks w Hs) in Hks0. injection Hks0 as <-. cbn in Hlog. congruence. }
  cbn. intros _ w' Hr. rewrite Hrel in Hr. split.
  - eapply (runs_after_cut s c (sview ks)); [by apply view_vs_some|cbn; congruence| |exact Hr].
    eapply quiet_mono; [by apply cut_quiet|]. cbn. tauto.
  - destruct Hr as [_ Hf]. apply (Hf c (sk_state k)); [by intros ->|]. exists (sview (set_link None k)).
    split; [apply view_vs_some; cbn; rewrite lookup_insert_ne, lookup_insert_eq by done; done|].
    repeat split; [|by destruct Hst as [-> | ->]].
    eapply (no_canceled (vs (view w)) c (sview k)); [apply Hv|by apply view_vs_some|]. cbn. by destruct Hst as [-> | ->].
Qed.

Lemma release_partner_wp rs s c ks k w :
  releases_server rs -> Inv (view w) -> w_sockets w !! s = Some ks -> w_sockets w !! c = Some k ->
  sk_link ks = Some c -> sk_link k = Some s -> s <> c -> sk_state k = CL_ACTIVE \/ sk_state k = CL_LOGIN ->
  wp (rs s) (fun _ w' => runs (fun y => y = c) (view w) (view w') /\
     exists k', w_sockets w' !! c = Some k' /\ sk_link k' = None /\ sk_canceled_server k' = None) w.
Proof using.
  intros. eapply wp_conseq; [by eapply release_partner_parked|]. cbv beta. intros _ w' [Hr (k2 & Hk2 & _ & Hl2 & Hc2 & _)].
  split; [done|]. apply view_vs_inv in Hk2 as (k2' & Hk2' & ->). eauto.
Qed.

(** The cancel request and the server it aimed at part. *)
Lemma forget_canceled_wp rs c k w :
  releases_server rs -> Inv (view w) -> w_sockets w !! c = Some k -> sk_link k = None ->
  wp (forget_canceled_server rs c) (fun _ w' => runs (fun y => y = c) (view w) (view w') /\
     exists k', w_sockets w' !! c = Some k' /\ sk_link k' = None /\ sk_canceled_server k' = None) w.
Proof using.
  intros Hrs Hv Hc Hl. eapply forget_wp; [done..| |].
  { intros Hn. split; [apply runs_refl|eauto]. }
  intros s w1 k1 ks1 Hcs Hq Hk1 Hvk1 Hks1. pose proof Hvk1 as E1. injection E1 as F1 F2 F3 F4 F5 F6.
  assert (Hv1 : Inv (view w1)) by (by eapply quiet_inv). split.
  { split; [apply quiet_runs; by eapply quiet_mono|]. exists k1. split; [done|]. split; congruence. }
  intros Hbc Hac. apply wp_bind.
  assert (Hrel : released s (view w1) = view w1).
  { unfold released. rewrite (view_vs_some s ks1 w1 Hks1). cbn [sview v_state v_link]. rewrite Hbc.
    assert (sk_link ks1 = None) as ->; [|done].
    apply (inv_link_none (vs (view w1)) s (sview ks1)); [apply Hv1|by apply view_vs_some|]. intros k'.
    unfold pair_ok; cbn. rewrite Hbc. by destruct (v_state k'). }
  eapply wp_conseq; [apply Hrs; [done|]|].
  { intros ks0 c0 Hks0 Hlog. rewrite (view_vs_some s ks1 w1 Hks1) in Hks0. injection Hks0 as <-. cbn in Hlog. congruence. }
  cbn. intros _ w2 Hr. rewrite Hrel in Hr. apply wp_ret. split.
  - eapply runs_trans; [apply quiet_runs; by eapply quiet_mono|]. apply (runs_mono (fun _ => False)); [|by intros ? []].
    apply (runs_not_parked s); [done|]. intros st. apply (parked_not _ _ (sview ks1)); [by apply view_vs_some|].
    cbn. by rewrite Hbc.
  - destruct Hr as [_ Hf]. destruct (Hf c CL_ACTIVE_CANCEL) as (k2 & Hk2 & _ & Hl2 & Hc2 & _).
    + intros ->. congruence.
    + exists (sview k1). split; [by apply view_vs_some|]. cbn. repeat split; congruence.
    + apply view_vs_inv in Hk2 as (k2' & Hk2' & ->). eauto.
Qed.

(** A waiting client that is linked replicates. *)
Lemma waiting_linked_replicates c s k w :
  Inv (view w) -> w_sockets w !! c = Some k -> sk_link k = Some s ->
  sk_state k = CL_WAITING \/ sk_state k = CL_WAITING_LOGIN -> is_replication k = true.
Proof using.
  intros Hv Hc Hl Hst. destruct (link_partner c s k w Hv Hc Hl) as (_ & ks & _ & _ & Hpair).
  assert (Hr : v_repl (sview k) = true).
  { unfold pair_ok in Hpair; cbn [sview v_state v_repl] in Hpair. destruct Hst as [Hst|Hst]; rewrite Hst in Hpair;
      destruct (sk_state ks); destruct Hpair as [Hp|Hp]; try done; cbn; by apply andb_prop in Hp as [? _]. }
  cbn in Hr. by destruct (is_replication k).
Qed.

Lemma leave_client_wp ds rs c k w :
  closes_server ds -> releases_server rs -> Inv (view w) -> w_sockets w !! c = Some k ->
  wp (leave_client ds rs c) (fun _ w' => runs (fun y => y = c) (view w) (view w') /\
     exists k', w_sockets w' !! c = Some k' /\ sk_link k' = None /\ sk_canceled_server k' = None) w.
Proof using.
  intros Hds Hrs Hv Hc. unfold leave_client. wstep. wstep.
  assert (Hcan : cancel_client_state (sk_state k) = false -> sk_canceled_server k = None).
  { intros Hs. eapply (no_canceled (vs (view w)) c (sview k)); [apply Hv|by apply view_vs_some|done]. }
  destruct (sk_link k) as [s|] eqn:Hl.
  2: { destruct (sk_state k) eqn:Est; wgo; try done; try (split; [apply runs_refl|by eauto]); by eapply forget_canceled_wp. }
  destruct (link_partner c s k w Hv Hc Hl) as (Hne & ks & Hks & Hls & _).
  assert (Hclose : cancel_client_state (sk_state k) = false -> forall b r,
     wp (_ ← unlink_pair s c; ds s b r) (fun _ w' => runs (fun y => y = c) (view w) (view w') /\
       exists k', w_sockets w' !! c = Some k' /\ sk_link k' = None /\ sk_canceled_server k' = None) w).
  { intros Hst b r. apply wp_bind, (unlink_pair_wp s c ks k); [done|done|done|].
    eapply wp_conseq; [by eapply (close_partner_wp _ _ _ ks k)|]. cbn.
    intros _ w' (Hr & k' & Hk' & _ & _ & C3 & _ & C5). cbn in C3, C5. split; [done|]. exists k'. split; [done|].
    split; [done|]. rewrite Hcan in C5 by done. tauto. }
  assert (Hact : sk_state k = CL_ACTIVE \/ sk_state k = CL_LOGIN ->
     wp (if negb (sk_ready ks) then _ ← unlink_pair s c; ds s true (str "client disconnect while server was not ready")
         else if bool_decide (zlen (sk_outstanding_requests ks) > 0) then
           _ ← unlink_pair s c; ds s true (str "client disconnected with query in progress")
         else if negb (sbuf_is_empty (sk_sbuf ks)) then
           _ ← unlink_pair s c; ds s true (str "client disconnect before everything was sent to the server")
         else _ ← rs s; mret tt) (fun _ w' => runs (fun y => y = c) (view w) (view w') /\
       exists k', w_sockets w' !! c = Some k' /\ sk_link k' = None /\ sk_canceled_server k' = None) w).
  { intros Hst. assert (cancel_client_state (sk_state k) = false) by (by destruct Hst as [-> | ->]).
    destruct (negb (sk_ready ks)); [by apply Hclose|]. destruct (bool_decide _); [by apply Hclose|].
    destruct (negb (sbuf_is_empty _)); [by apply Hclose|]. apply wp_bind.
    eapply wp_conseq; [by eapply (release_partner_wp _ s c ks k)|]. cbn. intros _ w' Hr. by apply wp_ret. }
  assert (Hcl : forall r : list Z,
     wp (_ ← unlink_pair s c; _ ← sk_mod s (set_ready true); ds s false r)
        (fun _ w' => wp (forget_canceled_server rs c) (fun _ w' => runs (fun y => y = c) (view w) (view w') /\
       exists k', w_sockets w' !! c = Some k' /\ sk_link k' = None /\ sk_canceled_server k' = None) w') w).
  { intros r. apply wp_bind, (unlink_pair_wp s c ks k); [done|done|done|].
    apply wp_bind, wp_vkeep; [vkeep_solve|]. intros _ w1 Hv1.
    eapply wp_conseq; [by eapply (close_partner_wp _ _ _ ks k)|]. cbn.
    intros _ w2 (Hr & k' & Hk' & _ & _ & C3 & _ & C5). cbn in C3.
    eapply wp_conseq; [eapply forget_canceled_wp; [done|by eapply runs_inv|done|done]|]. cbn.
    intros _ w3 [Hr3 Hk3]. split; [by eapply runs_trans|done]. }
  destruct (sk_state k) eqn:Est; try (by apply wp_lift);
    try (apply wp_bind, wp_sk_get; intros ks' Hks'; rewrite Hks in Hks'; injection Hks' as <-; by apply Hact; auto);
    try (apply wp_bind; by apply Hcl);
    rewrite (waiting_linked_replicates c s k w) by auto; by apply Hclose.
Qed.

Lemma disconnect_client_body_wp ds rs c n st r w :
  closes_server ds -> releases_server rs -> Inv (view w) ->
  wp (disconnect_client_body E ds rs c n st r) (fun _ w' => runs (fun y => y = c) (view w) (view w') /\
     closed_client c (view w')) w.
Proof using.
  intros Hds Hrs Hv. unfold disconnect_client_body. apply wp_bind, wp_vkeep; [vkeep_solve|]. intros _ w1 Hv1.
  apply wp_bind. destruct (w_sockets w1 !! c) as [k1|] eqn:Hk1.
  2: { unfold leave_client. apply wp_bind, wp_sk_get. congruence. }
  eapply wp_conseq; [eapply (leave_client_wp _ _ _ k1); [done|done|by rewrite Hv1|done]|]. cbn.
  intros _ w2 (Hr & k2 & Hk2 & Hl2 & Hc2). rewrite Hv1 in Hr.
  eapply wp_conseq; [by eapply finish_client_wp|]. cbn. intros _ w3 [Hq Hcl]. split; [|done].
  eapply runs_trans; [done|by apply quiet_runs].
Qed.

(** ** The recursion *)

Lemma disconnects_all fuel :
  (forall s b r w, Inv (view w) ->
     wp (disconnect_server E cf fuel s b r) (fun _ w' => runs (fun y => y = s) (view w) (view w')) w) /\
  disconnects_client (disconnect_client E cf fuel) /\ releases_server (release_server E cf fuel).
Proof using All.
  assert (Hun : forall n, closes_server (disconnect_server E cf n)).
  { intros n s b r k w Hv Hs Hl. eapply wp_conseq; [by eapply disconnect_unlinked_wp|]. by cbn; intros _ w' [? _]. }
  induction fuel as [|fuel (IHs & IHc & IHr)].
  { split; [done|]. split; [split|]; done. }
  split; [|split; [split|]].
  - intros s b r w Hv. cbn [disconnect_server]. eapply wp_conseq; [by apply disconnect_server_body_wp|]. by intros _ w' [? _].
  - intros c n r w Hv. cbn [disconnect_client]. eapply wp_conseq; [by apply disconnect_client_body_wp|]. by intros _ w' [? _].
  - intros c n r k w Hv Hc Hl Hst. by eapply disconnect_client_unlinked_wp.
  - intros s w Hv Hready. cbn [release_server].
    apply release_server_body_wp; [intros; by apply IHs|done|done].
Qed.

End Refine.
