(* ===== verification/Launch.v ===== *)
(** * Finding and opening server connections (src/objects.c)

    [find_server] and the queue of waiting clients, eviction of idle
    connections, [launch_new_connection] with its limits, the choice of a host
    in [dns_connect], the end of a client's login, and the lists of sockets to
    be freed.  All of it makes only the transitions of PoolSpec.v; the limits
    of the configuration are kept. *)

From S2P Require Import Prelude Protocol MBuf PktBuf Proto IOBuf SBuf PoolSpec World Objects.
From stdpp Require Import base option countable gmap list strings.
#[local] Open Scope Z_scope.

(** ** Host lists *)

(** [strchr(s, c) != NULL] *)
Definition has_char (c : Z) (s : list Z) : bool := bool_decide (c ∈ s).

(** The tokens [strtok(s, ",")] yields: runs without a comma, never empty. *)
Fixpoint strtok_commas (s cur : list Z) : list (list Z) :=
  match s with
  | [] => if decide (cur = []) then [] else [cur]
  | c :: s =>
      if bool_decide (c = 44) then
        if decide (cur = []) then strtok_commas s [] else cur :: strtok_commas s []
      else strtok_commas s (cur ++ [c])
  end.

(** One more than the number of commas. *)
Definition host_count (s : list Z) : Z := 1 + zlen (filter (fun c => c = 44) s).

(** The entry the loop of [dns_connect] stops at. *)
Definition pick_host (rrcounter : Z) (host : list Z) : option (list Z) :=
  strtok_commas host [] !! Z.to_nat (rrcounter mod host_count host).

(** A host list as a configuration file has it. *)
Fixpoint join_hosts (hosts : list (list Z)) : list Z :=
  match hosts with
  | [] => []
  | [h] => h
  | h :: hosts => h ++ 44 :: join_hosts hosts
  end.

Definition host_name (h : list Z) : Prop := h <> [] /\ Forall (fun c => c <> 44) h.

Lemma strtok_run h s cur : Forall (fun c => c <> 44) h -> strtok_commas (h ++ s) cur = strtok_commas s (cur ++ h).
Proof.
  revert cur. induction h as [|c h IH]; intros cur Hh; [by rewrite app_nil_r|].
  apply Forall_cons in Hh as [Hc Hh]. cbn. rewrite bool_decide_false by done. rewrite IH by done. by rewrite <- app_assoc.
Qed.

Lemma join_cons h h' hosts : join_hosts (h :: h' :: hosts) = h ++ 44 :: join_hosts (h' :: hosts).
Proof. reflexivity. Qed.

Lemma strtok_join hosts : Forall host_name hosts -> strtok_commas (join_hosts hosts) [] = hosts.
Proof.
  induction hosts as [|h hosts IH]; intros Hh; [done|]. apply Forall_cons in Hh as [[Hne Hc] Hh].
  destruct hosts as [|h' hosts].
  - cbn. rewrite <- (app_nil_r h) at 1. rewrite strtok_run by done. cbn. by rewrite decide_False.
  - rewrite join_cons, strtok_run by done. cbn [strtok_commas app]. rewrite bool_decide_true by done.
    rewrite decide_False by done. by rewrite IH.
Qed.

Lemma filter_commas_none h : Forall (fun c => c <> 44) h -> filter (fun c => c = 44) h = [].
Proof. intros Hc. induction Hc as [|c h Hc _ IH]; [done|]. by rewrite filter_cons_False. Qed.

Lemma host_count_join hosts : Forall host_name hosts -> hosts <> [] -> host_count (join_hosts hosts) = zlen hosts.
Proof.
  unfold host_count. induction hosts as [|h hosts IH]; intros Hh Hne; [done|].
  apply Forall_cons in Hh as [[_ Hc] Hh]. destruct hosts as [|h' hosts]; [cbn; by rewrite filter_commas_none|].
  rewrite join_cons, filter_app, filter_commas_none, filter_cons_True by done.
  specialize (IH Hh ltac:(done)). rewrite app_nil_l, zlen_cons, (zlen_cons h). lia.
Qed.

(** A host list without empty entries is used in turn: for every value of
    the counter the entry whose turn it is is found, so the assertion behind
    the loop holds, and as many successive values as there are entries visit
    each of them. *)
Theorem hosts_taken_in_turn hosts r :
  Forall host_name hosts -> hosts <> [] -> 0 <= r ->
  pick_host r (join_hosts hosts) = hosts !! Z.to_nat (r mod zlen hosts) /\
  is_Some (pick_host r (join_hosts hosts)) /\
  (forall h, h ∈ hosts -> exists i, 0 <= i < zlen hosts /\ pick_host (r + i) (join_hosts hosts) = Some h).
Proof.
  intros Hh Hne Hr. assert (Hpos : 0 < zlen hosts) by (destruct hosts; [done|rewrite zlen_cons; pose proof (zlen_nonneg hosts); lia]).
  assert (Hpick : forall n, pick_host n (join_hosts hosts) = hosts !! Z.to_nat (n mod zlen hosts)).
  { intros n. unfold pick_host. by rewrite strtok_join, host_count_join. }
  split; [done|]. rewrite Hpick. split.
  - apply lookup_lt_is_Some. pose proof (Z.mod_pos_bound r (zlen hosts) Hpos). unfold zlen in *. lia.
  - intros h Hin. apply list_elem_of_lookup in Hin as [j Hj]. pose proof (lookup_lt_Some _ _ _ Hj) as Hlt.
    exists ((Z.of_nat j - r) mod zlen hosts). split; [by apply Z.mod_pos_bound|].
    rewrite Hpick, Z.add_mod_idemp_r by lia. replace (r + (Z.of_nat j - r)) with (Z.of_nat j) by lia.
    rewrite Z.mod_small by (unfold zlen; lia). by rewrite Nat2Z.id.
Qed.

Lemma hosts_taken_in_turn_witness :
  pick_host 4 (str "a,bc,d") = Some (str "bc").
Proof.
  refine (eq_trans (proj1 (hosts_taken_in_turn [str "a"; str "bc"; str "d"] 4 _ _ _)) _); [|done|lia|reflexivity].
  repeat constructor; done.
Defined.

(** An empty entry breaks this: the entries are counted by commas, but
    the tokenizer skips empty ones, so a counter value finds none and the
    assertion fails. *)
Theorem empty_host_entry_not_found : pick_host 2 (str "a,,b") = None /\ pick_host 1 (str "a,") = None.
Proof. done. Qed.

Section Launch.
Context `{Realloc} {K : Type} (E : ObjEnv K) (cf : Config).

#[local] Abbreviation M := (SM (World K)).

(** The depth [disconnect_server] and its companions can nest. *)
Definition disconnect_depth : nat := 5.
Definition disconnect_s := disconnect_server E cf disconnect_depth.
Definition disconnect_c := disconnect_client E cf disconnect_depth.

(** ** Opening a connection *)

Definition next_host (p : positive) : M unit := pl_mod p (fun r => set_rrcounter (u16 (pl_rrcounter r + 1)) r).

(** The host of the database, or the entry of its list whose turn it is. *)
Definition choose_host (p : positive) : M (option (list Z)) :=
  pool ← pl_get p;
  d ← db_get (pl_db pool);
  match db_host d with
  | Some h =>
      if has_char 44 h then
        _ ← (if bool_decide (db_load_balance_hosts d = LOAD_BALANCE_HOSTS_DISABLE) && pl_last_connect_failed pool
             then next_host p else mret tt);
        pool ← pl_get p;
        host ← lift (match pick_host (pl_rrcounter pool) h with Some t => Ok t | None => Fatal end);
        _ ← (if decide (db_load_balance_hosts d = LOAD_BALANCE_HOSTS_ROUND_ROBIN) then next_host p else mret tt);
        mret (Some host)
      else mret (Some h)
  | None => mret None
  end.

Definition dns_connect (server : positive) : M unit :=
  k ← sk_get server;
  p ← found (sk_pool k);
  host ← choose_host p;
  _ ← match host with Some h => sk_mod server (set_host (Some h)) | None => mret tt end;
  match host with
  | None =>
      if decide (cf_unix_socket_dir cf = []) then disconnect_s server false (str "cannot connect")
      else oe_connect E server
  | Some h =>
      if bool_decide (head h = Some 47) || bool_decide (head h = Some 64) then oe_connect E server
      else if oe_inet_pton E (has_char 58 h) h then oe_connect E server
      else oe_resolve E server
  end.

(** ** Eviction *)

Definition compare_connections_by_time (lhs rhs : option positive) : M (option positive) :=
  match lhs, rhs with
  | None, _ => mret rhs
  | _, None => mret lhs
  | Some l, Some r =>
      kl ← sk_get l;
      kr ← sk_get r;
      mret (if bool_decide (sk_request_time kl < sk_request_time kr) then lhs else rhs)
  end.

(** The most idle connection of the pools in [l] that satisfy [mine]. *)
Fixpoint oldest_of_pools (mine : PgPool -> bool) (l : list positive) (oldest : option positive) : M (option positive) :=
  match l with
  | [] => mret oldest
  | p :: l =>
      pool ← pl_get p;
      if negb (mine pool) then oldest_of_pools mine l oldest
      else
        i ← last_socket (PoolSlot p idle_server_list);
        oldest ← compare_connections_by_time oldest i;
        nobody ← statlist_empty (PoolSlot p waiting_client_list);
        if nobody : bool then
          u ← last_socket (PoolSlot p used_server_list);
          oldest ← compare_connections_by_time oldest u;
          t ← last_socket (PoolSlot p tested_server_list);
          oldest ← compare_connections_by_time oldest t;
          oldest_of_pools mine l oldest
        else oldest_of_pools mine l oldest
  end.

Definition evict_oldest (oldest : option positive) (reason : list Z) : M bool :=
  match oldest with
  | Some s => _ ← disconnect_s s true reason; mret true
  | None => mret false
  end.

Definition evict_connection (db : positive) : M bool :=
  w ← getS;
  oldest ← oldest_of_pools (fun pool => bool_decide (pl_db pool = db)) (w_pool_list w) None;
  evict_oldest oldest (str "evicted for max_db_connections").

Definition evict_pool_connection (p : positive) : M bool :=
  i ← last_socket (PoolSlot p idle_server_list);
  oldest ← compare_connections_by_time None i;
  evict_oldest oldest (str "evicted for pool_size").

Definition evict_user_connection (creds : positive) : M bool :=
  w ← getS;
  oldest ← oldest_of_pools (fun pool => bool_decide (pl_user_credentials pool = Some creds)) (w_pool_list w) None;
  evict_oldest oldest (str "evicted for max_user_connections").

(** [while (evict_if_needed && full) if (!evict()) break;] *)
Fixpoint evict_while (fuel : nat) (evict_if_needed : bool) (full : M bool) (evict : M bool) : M unit :=
  match fuel with
  | O => fun _ => NoFuel
  | S fuel =>
      if negb evict_if_needed then mret tt
      else
        f ← full;
        if negb f then mret tt
        else
          e ← evict;
          if e : bool then evict_while fuel evict_if_needed full evict else mret tt
  end.

(** Every round closes a server, so there are no more rounds than sockets. *)
Definition evict_loop (evict_if_needed : bool) (full evict : M bool) : M unit :=
  w ← getS; evict_while (S (size (w_sockets w))) evict_if_needed full evict.

(** ** launch_new_connection *)

(** The conditions are evaluated in order; the result tells where the code
    jumps to. *)
Inductive launch_decision := LaunchNot | AllowNew | ForceNew.

Definition pool_full (p : positive) : M bool :=
  pool ← pl_get p;
  n ← pool_server_count p;
  size ← pool_pool_size cf pool;
  mret (bool_decide (n >= size)).

(** The part for a pool that has all its servers. *)
Definition launch_when_full (p : positive) (evict_if_needed : bool) (server_count : Z) : M launch_decision :=
  pool ← pl_get p;
  c ← first_socket (PoolSlot p waiting_client_list);
  size ← pool_pool_size cf pool;
  res ← pool_res_pool_size cf pool;
  reserve ←
    (if bool_decide (cf_res_pool_timeout cf <> 0) && bool_decide (res <> 0) then
       now ← get_cached_time;
       match c with
       | Some c =>
           k ← sk_get c;
           mret (bool_decide (u64 (now - sk_request_time k) >= cf_res_pool_timeout cf) &&
                 bool_decide (server_count < size + res))
       | None => mret false
       end
     else mret false);
  if reserve : bool then mret AllowNew
  else
    match c with
    | Some c =>
        k ← sk_get c;
        if is_replication k && negb (sending_auth_query k) then
          _ ← evict_loop evict_if_needed (pool_full p) (evict_pool_connection p);
          full ← pool_full p;
          mret (if full : bool then LaunchNot else AllowNew)
        else mret LaunchNot
    | None => mret LaunchNot
    end.

Definition launch_decide (p : positive) (evict_if_needed : bool) : M launch_decision :=
  new ← statlist_empty (PoolSlot p new_server_list);
  if negb new then mret LaunchNot
  else
    pool ← pl_get p;
    now ← get_cached_time;
    if pl_last_connect_failed pool && bool_decide (u64 (now - pl_last_connect_time pool) < cf_server_login_retry cf)
    then mret LaunchNot
    else
      server_count ← pool_server_count p;
      d ← db_get (pl_db pool);
      size ← pool_pool_size cf pool;
      if bool_decide (db_peer_id d <> 0) then
        mret (if bool_decide (server_count < size) then ForceNew else LaunchNot)
      else
        nocancel ← statlist_empty (PoolSlot p waiting_cancel_req_list);
        if negb nocancel && bool_decide (server_count < 2 * size) then mret ForceNew
        else if bool_decide (size > 0) && bool_decide (server_count >= size) && pl_welcome_msg_ready pool
        then launch_when_full p evict_if_needed server_count
        else mret AllowNew.

Definition db_full (db : positive) (max : Z) : M bool :=
  d ← db_get db; mret (bool_decide (db_connection_count d >= max)).
Definition user_full (u : positive) (max : Z) : M bool :=
  g ← gu_get u; mret (bool_decide (gu_connection_count g >= max)).

(** [allow_new]: the limits of the database and of the user; true when both
    leave room. *)
Definition make_room_for_server (p : positive) (evict_if_needed : bool) : M bool :=
  pool ← pl_get p;
  d ← db_get (pl_db pool);
  let max := database_max_connections cf d in
  full ← (if bool_decide (max > 0) then
            _ ← evict_loop evict_if_needed (db_full (pl_db pool) max) (evict_connection (pl_db pool));
            db_full (pl_db pool) max
          else mret false);
  if full : bool then mret false
  else
    c ← found (pl_user_credentials pool);
    u ← global_user_of c;
    g ← gu_get u;
    let max := user_max_connections cf g in
    full ← (if bool_decide (max > 0) then
              _ ← evict_loop evict_if_needed (user_full u max) (evict_user_connection c);
              user_full u max
            else mret false);
    mret (negb full).

(** A zeroed object of the server slab with its first fields set. *)
Definition fresh_socket (state : SocketState) (pool creds : option positive) (now request : Z) : PgSocket :=
  mkPgSocket state pool None REPLICATION_NONE None [] None creds false false false false false false false false
    false false false false now request 0 0 (replicate 8 0) [] (mkPktHdr 0 0 mbuf_zero) None sbuf_init.

(** [force_new], up to the connection attempt: a server object in LOGIN. *)
Definition add_server (p : positive) : M positive :=
  pool ← pl_get p;
  now ← get_cached_time;
  w ← getS;
  let server := fresh (dom (w_sockets w)) in
  _ ← modS (fun w => set_sockets (<[server := fresh_socket SV_FREE (Some p) (pl_user_credentials pool) now 0]>
                                    (w_sockets w)) w);
  _ ← pl_mod p (set_last_connect_time now);
  _ ← pl_mod p (set_last_active_time now);
  _ ← change_server_state cf server SV_LOGIN;
  _ ← count_connection 1 p;
  mret server.

(** [force_new] *)
Definition open_server (p : positive) : M unit :=
  ok ← ask_kernel (oe_alloc E);
  if negb ok then mret tt
  else
    server ← add_server p;
    dns_connect server.

Definition launch_new_connection (p : positive) (evict_if_needed : bool) : M unit :=
  decision ← launch_decide p evict_if_needed;
  match decision with
  | LaunchNot => mret tt
  | ForceNew => open_server p
  | AllowNew =>
      room ← make_room_for_server p evict_if_needed;
      if room : bool then open_server p else mret tt
  end.

(** ** Clients *)

Definition accept_client (sock : Z) (is_unix : bool) : M (option positive) :=
  ok ← ask_kernel (oe_alloc E);
  if negb ok then mret None
  else
    now ← get_cached_time;
    w ← getS;
    let client := fresh (dom (w_sockets w)) in
    _ ← modS (fun w => set_sockets (<[client := fresh_socket CL_FREE None None now now]> (w_sockets w)) w);
    _ ← change_client_state client CL_LOGIN;
    res ← oe_accept E client sock is_unix;
    mret (if res : bool then Some client else None).

Definition pause_client (client : positive) : M unit :=
  k ← sk_get client;
  _ ← AssertS (bool_decide (sk_state k = CL_ACTIVE) || bool_decide (sk_state k = CL_LOGIN));
  if decide (cf_shutdown cf = SHUTDOWN_WAIT_FOR_SERVERS) then disconnect_c client true (str "server shutting down")
  else
    _ ← change_client_state client CL_WAITING;
    ok ← pause_sbuf E cf client;
    if ok : bool then mret tt else disconnect_c client true (str "pause failed").

Definition check_fast_fail (client : positive) : M bool :=
  k ← sk_get client;
  match sk_pool k with
  | None => mret true
  | Some p =>
      pool ← pl_get p;
      if negb (pl_last_login_failed pool) then mret true
      else
        n ← pool_server_count p;
        new ← statlist_count (PoolSlot p new_server_list);
        if bool_decide (n - new <> 0) then mret true
        else
          _ ← disconnect_c client true
                (str "server login has been failing, cached error: " ++ pl_last_connect_failed_message pool
                 ++ str " (server_login_retry)");
          _ ← launch_new_connection p true;
          mret false
  end.

(** The loop of [find_server]: the first idle server that can be used;
    others are closed. *)
Fixpoint usable_idle_server (fuel : nat) (p : positive) : M (option positive) :=
  match fuel with
  | O => fun _ => NoFuel
  | S fuel =>
      server ← first_socket (PoolSlot p idle_server_list);
      match server with
      | None => mret None
      | Some s =>
          k ← sk_get s;
          if sk_close_needed k then
            _ ← disconnect_s s true (str "obsolete connection");
            usable_idle_server fuel p
          else if negb (sk_ready k) then
            _ ← disconnect_s s true (str "idle server got dirty");
            usable_idle_server fuel p
          else mret (Some s)
      end
  end.

(** [None]: the client was closed; [Some server]: what the search gave. *)
Definition search_server (client p : positive) : M (option (option positive)) :=
  k ← sk_get client;
  pool ← pl_get p;
  d ← db_get (pl_db pool);
  w ← getS;
  if bool_decide (w_pause_mode w = P_PAUSE) || db_paused d then mret (Some None)
  else if is_replication k && negb (sending_auth_query k) then
    _ ← launch_new_connection p true;
    mret (Some None)
  else
    idle ← sockets_in (PoolSlot p idle_server_list);
    server ← usable_idle_server (S (length idle)) p;
    match server with
    | Some s => mret (Some (Some s))
    | None => ok ← check_fast_fail client; mret (if ok : bool then Some None else None)
    end.

(** Applying the client's variables: the server may be lost. *)
Definition apply_vars (client : positive) (server : option positive) : M (option positive * bool) :=
  k ← sk_get client;
  match server with
  | Some s =>
      if sending_auth_query k then mret (server, false)
      else
        '(res, varchange) ← ask_kernel (oe_varcache_apply E s client);
        if res : bool then mret (server, varchange)
        else _ ← disconnect_s s true (str "var change failed"); mret (None, varchange)
  | None => mret (None, false)
  end.

(** Client and idle server are joined. *)
Definition join_server (client server : positive) : M unit :=
  _ ← sk_mod client (set_link (Some server));
  _ ← sk_mod server (set_link (Some client));
  ks ← sk_get server;
  q ← found (sk_pool ks);
  _ ← pl_mod q (fun r => set_server_assignment_count (u64 (pl_server_assignment_count r + 1)) r);
  change_server_state cf server SV_ACTIVE.

Definition link_server (client server : positive) (varchange : bool) : M bool :=
  _ ← join_server client server;
  if varchange then
    _ ← sk_mod server (set_setting_vars true);
    _ ← sk_mod server (set_ready false);
    ok ← pause_sbuf E cf client;
    _ ← (if ok : bool then mret tt else disconnect_c client true (str "pause failed"));
    mret false
  else mret true.

Definition find_server (client : positive) : M bool :=
  k ← sk_get client;
  _ ← AssertS (bool_decide (sk_state k = CL_ACTIVE) || bool_decide (sk_state k = CL_LOGIN));
  _ ← sk_mod client (set_wait_start 0);
  if bool_decide (sk_link k <> None) then mret true
  else
    p ← found (sk_pool k);
    found ← search_server client p;
    match found with
    | None => mret false
    | Some server =>
        _ ← match server with
            | Some s => ks ← sk_get s; AssertS (bool_decide (sk_state ks = SV_IDLE))
            | None => mret tt
            end;
        '(server, varchange) ← apply_vars client server;
        match server with
        | Some s => link_server client s varchange
        | None => _ ← pause_client client; mret false
        end
    end.

(** "pgbouncer", the name of the console database. *)
Definition finish_client_login (client : positive) : M bool :=
  k ← sk_get client;
  dn ← found (sk_db k);
  d ← db_get dn;
  if db_fake d then
    _ ← disconnect_c client true (str "no such database: " ++ db_name d); mret false
  else if db_disabled d then
    _ ← disconnect_c client true (str "database " ++ [34] ++ db_name d ++ [34] ++ str " is disabled"); mret false
  else if bool_decide (cf_shutdown cf <> SHUTDOWN_NONE) && bool_decide (db_name d <> str "pgbouncer") then
    _ ← disconnect_c client true (str "pooler is shutting down"); mret false
  else
    p ← found (sk_pool k);
    _ ← match sk_state k with
        | CL_LOGIN =>
            _ ← change_client_state client CL_ACTIVE;
            pl_mod p (fun r => set_client_login_count (u64 (pl_client_login_count r + 1)) r)
        | CL_ACTIVE => mret tt
        | _ => lift Fatal
        end;
    _ ← sk_mod client (set_wait_for_auth false);
    pool ← pl_get p;
    if negb (pl_welcome_msg_ready pool) then
      _ ← sk_mod client (set_wait_for_welcome true);
      _ ← pause_client client;
      w ← getS;
      _ ← (if decide (w_pause_mode w = P_NONE) then launch_new_connection p true else mret tt);
      mret false
    else
      _ ← sk_mod client (set_wait_for_welcome false);
      ok ← oe_welcome_client E client;
      if negb ok then mret false
      else
        _ ← sk_mod client (set_welcome_sent true);
        now ← get_cached_time;
        _ ← pl_mod p (set_last_active_time now);
        mret true.

(** ** Freed objects and stale connections *)

(** One pass over a list of sockets to be freed; gives [close_works]. *)
Fixpoint free_closed (free : positive -> M unit) (l : list positive) (close_works : bool) : M bool :=
  match l with
  | [] => mret close_works
  | x :: l =>
      k ← sk_get x;
      if sbuf_is_closed (sk_sbuf k) then _ ← free x; free_closed free l close_works
      else if close_works then ok ← close_sbuf E x; free_closed free l ok
      else free_closed free l close_works
  end.

Definition reuse_just_freed_objects : M unit :=
  clients ← sockets_in justfree_client_list;
  close_works ← free_closed (fun x => change_client_state x CL_FREE) clients true;
  servers ← sockets_in justfree_server_list;
  _ ← free_closed (fun x => change_server_state cf x SV_FREE) servers close_works;
  mret tt.

Definition tag_dirty (x : positive) : M unit := sk_mod x (set_close_needed true).

Fixpoint for_each (f : positive -> M unit) (l : list positive) : M unit :=
  match l with
  | [] => mret tt
  | x :: l => _ ← f x; for_each f l
  end.

Definition for_each_in (p : positive) (f : positive -> M unit) (l : PoolList) : M unit :=
  xs ← sockets_in (PoolSlot p l); for_each f xs.

Definition for_each_server (p : positive) (f : positive -> M unit) : M unit :=
  _ ← for_each_in p f idle_server_list;
  _ ← for_each_in p f used_server_list;
  _ ← for_each_in p f tested_server_list;
  _ ← for_each_in p f active_server_list;
  for_each_in p f new_server_list.

(** Without the welcome message, whose bytes are not modelled. *)
Definition tag_pool_dirty (p : positive) : M unit :=
  pool ← pl_get p;
  d ← db_get (pl_db pool);
  if db_admin d then mret tt
  else
    _ ← pl_mod p (set_welcome_msg_ready false);
    _ ← for_each_server p tag_dirty;
    for_each_in p (fun s => disconnect_s s true (str "connect string changed")) new_server_list.

Fixpoint tag_pools_dirty (mine : PgPool -> bool) (l : list positive) : M unit :=
  match l with
  | [] => mret tt
  | p :: l =>
      pool ← pl_get p;
      _ ← (if mine pool then tag_pool_dirty p else mret tt);
      tag_pools_dirty mine l
  end.

Definition tag_database_dirty (db : positive) : M unit :=
  w ← getS; tag_pools_dirty (fun pool => bool_decide (pl_db pool = db)) (w_pool_list w).

End Launch.

Section LaunchRefine.
Context `{Realloc} {K : Type} (E : ObjEnv K) `{!EnvOk E} (cf : Config).
Implicit Types w : World K.

Lemma disconnect_s_wp s b r w :
  Inv (view w) -> wp (disconnect_s E cf s b r) (fun _ w' => runs (fun y => y = s) (view w) (view w')) w.
Proof using All. intros Hv. by apply disconnects_all. Qed.

Lemma disconnect_c_wp c n r w :
  Inv (view w) -> wp (disconnect_c E cf c n r) (fun _ w' => runs (fun y => y = c) (view w) (view w')) w.
Proof using All. intros Hv. by apply disconnects_all. Qed.

(** A server nobody uses: it has no link and can be evicted. *)
Definition idle_state (st : SocketState) : bool :=
  match st with SV_IDLE | SV_USED | SV_TESTED => true | _ => false end.
Definition evictable (s : positive) w : Prop :=
  exists k, w_sockets w !! s = Some k /\ idle_state (sk_state k) = true.

Lemma evictable_unlinked s k w :
  Inv (view w) -> w_sockets w !! s = Some k -> idle_state (sk_state k) = true -> sk_link k = None.
Proof using.
  intros Hv Hs Hst. apply (inv_link_none (vs (view w)) s (sview k)); [apply Hv|by apply view_vs_some|].
  intros k'. unfold pair_ok; cbn. by destruct (sk_state k), (v_state k').
Qed.

Lemma disconnect_idle_wp s b r w :
  Inv (view w) -> evictable s w ->
  wp (disconnect_s E cf s b r) (fun _ w' => evicts (view w) (view w') /\
        quiet (fun y => y = s) (view w) (view w') /\ closed_server s (view w')) w.
Proof using.
  intros Hv (k & Hs & Hst).
  eapply wp_conseq; [eapply (disconnect_unlinked_wp E cf _ s b r k); [done|done|by eapply evictable_unlinked]|].
  cbn. intros _ w' [Hq Hc]. split; [|done]. split.
  - apply (runs_not_parked s); [by apply quiet_runs|]. intros st.
    apply (parked_not _ _ (sview k)); [by apply view_vs_some|]. cbn. by destruct (sk_state k).
  - split; [intros p; by eapply close_no_new|intros f; by eapply close_nservers].
Qed.

Lemma vkeep_compare l r : vkeep (@compare_connections_by_time K l r).
Proof. unfold compare_connections_by_time. vkeep_solve. Qed.

(** The candidates for eviction are idle servers. *)
Definition candidate (o : option positive) w : Prop := forall s, o = Some s -> evictable s w.

Lemma evictable_same s w w' : view w' = view w -> evictable s w -> evictable s w'.
Proof using.
  intros Hv (k & Hs & Hst). destruct (same_view_lookup s k w w' Hv Hs) as (k' & Hk' & E'). injection E' as F _ _ _ _ _.
  exists k'. by rewrite F.
Qed.

Lemma compare_wp l r w :
  candidate l w -> candidate r w ->
  wp (compare_connections_by_time l r) (fun o w' => w' = w /\ candidate o w) w.
Proof using.
  intros Hl Hr. unfold compare_connections_by_time. destruct l as [l|], r as [r|]; wgo; try done.
  destruct (bool_decide _); done.
Qed.

Lemma last_candidate p l w :
  Inv (view w) -> l = idle_server_list \/ l = used_server_list \/ l = tested_server_list ->
  wp (last_socket (PoolSlot p l)) (fun o w' => w' = w /\ candidate o w) w.
Proof using.
  intros Hv Hl. unfold last_socket. wgo. split; [done|]. intros s Hs.
  destruct (in_pool_list (view w) p l s Hv) as (kv & Hkv & Hst & _); [cbn; by apply last_Some_elem_of|].
  apply view_vs_inv in Hkv as (k & Hk & ->). exists k. split; [done|]. cbn in Hst.
  destruct Hl as [->|[->| ->]]; by destruct (sk_state k).
Qed.

Lemma oldest_of_pools_wp mine l o w :
  Inv (view w) -> candidate o w ->
  wp (oldest_of_pools mine l o) (fun o w' => w' = w /\ candidate o w) w.
Proof using.
  intros Hv. revert o. induction l as [|p l IH]; intros o Ho; cbn [oldest_of_pools]; [by wgo|].
  wstep. wstep. destruct (negb (mine pl)); [by apply IH|]. apply wp_bind.
  eapply wp_conseq; [apply last_candidate; auto|]. cbn. intros i w1 [-> Hi].
  apply wp_bind. eapply wp_conseq; [by apply compare_wp|]. cbn. intros o1 w1 [-> Ho1].
  unfold statlist_empty. wgo. destruct (bool_decide _); [|by apply IH].
  apply wp_bind. eapply wp_conseq; [apply last_candidate; auto|]. cbn. intros u w1 [-> Hu].
  apply wp_bind. eapply wp_conseq; [by apply compare_wp|]. cbn. intros o2 w1 [-> Ho2].
  apply wp_bind. eapply wp_conseq; [apply last_candidate; auto|]. cbn. intros t w1 [-> Ht].
  apply wp_bind. eapply wp_conseq; [by apply compare_wp|]. cbn. intros o3 w1 [-> Ho3]. by apply IH.
Qed.

(** An eviction: nothing, or one idle server is closed. *)
Definition evicts_one (b : bool) w w' : Prop :=
  evicts (view w) (view w') /\
  (b = true -> exists s, evictable s w /\ quiet (fun y => y = s) (view w) (view w') /\ closed_server s (view w')).

Lemma evict_oldest_wp o r w :
  Inv (view w) -> candidate o w -> wp (evict_oldest E cf o r) (fun b w' => evicts_one b w w') w.
Proof using.
  intros Hv Ho. unfold evict_oldest. destruct o as [s|]; wgo; [|split; [apply evicts_refl|done]].
  eapply wp_conseq; [apply disconnect_idle_wp; auto|]. cbn. intros _ w' [He Hq]. wgo. split; [done|]. eauto.
Qed.

Lemma evict_connection_wp d w : Inv (view w) -> wp (evict_connection E cf d) (fun b w' => evicts_one b w w') w.
Proof using.
  intros Hv. unfold evict_connection. wgo. eapply wp_conseq; [by apply oldest_of_pools_wp|]. cbn.
  intros o w1 [-> Ho]. by apply evict_oldest_wp.
Qed.

Lemma evict_user_connection_wp c w :
  Inv (view w) -> wp (evict_user_connection E cf c) (fun b w' => evicts_one b w w') w.
Proof using.
  intros Hv. unfold evict_user_connection. wgo. eapply wp_conseq; [by apply oldest_of_pools_wp|]. cbn.
  intros o w1 [-> Ho]. by apply evict_oldest_wp.
Qed.

Lemma evict_pool_connection_wp p w :
  Inv (view w) -> wp (evict_pool_connection E cf p) (fun b w' => evicts_one b w w') w.
Proof using.
  intros Hv. unfold evict_pool_connection. wgo. eapply wp_conseq; [apply last_candidate; auto|]. cbn.
  intros i w1 [-> Hi]. wgo. by apply evict_oldest_wp.
Qed.

Lemma evict_while_wp fuel b (full evict : SM (World K) bool) w :
  vkeep full -> (forall w, Inv (view w) -> wp evict (fun b w' => evicts_one b w w') w) -> Inv (view w) ->
  wp (evict_while fuel b full evict) (fun _ w' => evicts (view w) (view w')) w.
Proof using.
  intros Hfull Hevict. revert w. induction fuel as [|fuel IH]; intros w Hv; [done|]. cbn [evict_while].
  destruct (negb b); [wgo; apply evicts_refl|]. apply wp_bind, wp_vkeep; [done|]. intros f w1 Hv1.
  destruct (negb f); [wgo; rewrite Hv1; apply evicts_refl|]. apply wp_bind.
  eapply wp_conseq; [apply Hevict; by rewrite Hv1|]. cbn. intros e w2 [He _]. rewrite Hv1 in He.
  destruct e; [|by wgo]. eapply wp_conseq; [apply IH; by eapply evicts_inv|]. cbn. intros _ w3 He3.
  by eapply evicts_trans.
Qed.

Lemma evict_loop_wp b (full evict : SM (World K) bool) w :
  vkeep full -> (forall w, Inv (view w) -> wp evict (fun b w' => evicts_one b w w') w) -> Inv (view w) ->
  wp (evict_loop b full evict) (fun _ w' => evicts (view w) (view w')) w.
Proof using. intros. unfold evict_loop. wgo. by apply evict_while_wp. Qed.

Lemma vkeep_statlist_empty s : vkeep (@statlist_empty K s).
Proof. unfold statlist_empty. vkeep_solve. Qed.
Lemma vkeep_first_socket s : vkeep (@first_socket K s).
Proof. unfold first_socket. vkeep_solve. Qed.
Hint Resolve vkeep_statlist_empty vkeep_first_socket : vkeep.

Lemma vkeep_pool_full p : vkeep (@pool_full K cf p).
Proof. unfold pool_full. vkeep_solve. Qed.
Lemma vkeep_db_full d n : vkeep (@db_full K d n).
Proof. unfold db_full. vkeep_solve. Qed.
Lemma vkeep_user_full u n : vkeep (@user_full K u n).
Proof. unfold user_full. vkeep_solve. Qed.
Lemma vkeep_choose_host p : vkeep (@choose_host K p).
Proof. unfold choose_host, next_host. vkeep_solve. Qed.
Hint Resolve vkeep_pool_full vkeep_db_full vkeep_user_full vkeep_choose_host : vkeep.

Lemma launch_when_full_wp p b n w :
  Inv (view w) -> wp (launch_when_full E cf p b n) (fun _ w' => evicts (view w) (view w')) w.
Proof using.
  intros Hv. unfold launch_when_full.
  apply wp_bind, wp_vkeep; [vkeep_solve|]. intros pool w1 Hv1.
  apply wp_bind, wp_vkeep; [vkeep_solve|]. intros c w2 Hv2.
  apply wp_bind, wp_vkeep; [vkeep_solve|]. intros size w3 Hv3.
  apply wp_bind, wp_vkeep; [vkeep_solve|]. intros res w4 Hv4.
  apply wp_bind, wp_vkeep; [vkeep_solve|]. intros reserve w5 Hv5.
  assert (Hv' : view w5 = view w) by congruence.
  destruct reserve; [wgo; rewrite Hv'; apply evicts_refl|].
  destruct c as [c|]; [|wgo; rewrite Hv'; apply evicts_refl].
  apply wp_bind, wp_sk_get. intros k _. destruct (is_replication k && _); [|wgo; rewrite Hv'; apply evicts_refl].
  apply wp_bind. eapply wp_conseq; [apply evict_loop_wp; [vkeep_solve|intros; by apply evict_pool_connection_wp|by rewrite Hv']|].
  cbn. intros _ w6 He. apply wp_bind, wp_vkeep; [vkeep_solve|]. intros full w7 Hv7. wgo. rewrite Hv7. by rewrite <- Hv'.
Qed.

Lemma launch_decide_wp p b w :
  Inv (view w) -> wp (launch_decide E cf p b) (fun d w' => evicts (view w) (view w') /\
     (d <> LaunchNot -> no_new p (view w'))) w.
Proof using.
  intros Hv. unfold launch_decide, statlist_empty. wstep. wstep. wstep. wstep.
  destruct (bool_decide _) eqn:En; cbn [negb]; [|wgo; split; [apply evicts_refl|done]].
  assert (Hno : no_new p (view w)) by (by apply bool_decide_eq_true_1 in En).
  assert (Hdone : forall d w1, view w1 = view w -> evicts (view w) (view w1) /\ (d <> LaunchNot -> no_new p (view w1)))
    by (intros d w1 ->; split; [apply evicts_refl|done]).
  apply wp_bind, wp_vkeep; [vkeep_solve|]. intros pool w1 Hv1.
  apply wp_bind, wp_vkeep; [vkeep_solve|]. intros now w2 Hv2.
  destruct (pl_last_connect_failed pool && _); [wgo; apply Hdone; congruence|].
  apply wp_bind, wp_vkeep; [vkeep_solve|]. intros count w3 Hv3.
  apply wp_bind, wp_vkeep; [vkeep_solve|]. intros d w4 Hv4.
  apply wp_bind, wp_vkeep; [vkeep_solve|]. intros size w5 Hv5.
  destruct (bool_decide (db_peer_id d <> 0)); [wgo; apply Hdone; congruence|].
  apply wp_bind, wp_vkeep; [vkeep_solve|]. intros nocancel w6 Hv6.
  assert (Hv' : view w6 = view w) by congruence.
  destruct (negb nocancel && _); [wgo; by apply Hdone|].
  destruct (_ && pl_welcome_msg_ready pool); [|wgo; by apply Hdone].
  eapply wp_conseq; [apply launch_when_full_wp; by rewrite Hv'|]. cbn. intros dec w7 He. rewrite Hv' in He.
  split; [done|]. intros _. by apply He.
Qed.

Lemma limit_wp (full evict : SM (World K) bool) max b w :
  vkeep full -> (forall w, Inv (view w) -> wp evict (fun b w' => evicts_one b w w') w) -> Inv (view w) ->
  wp (if bool_decide (max > 0) then _ ← evict_loop b full evict; full else mret false)
     (fun _ w' => evicts (view w) (view w')) w.
Proof using.
  intros Hfull Hevict Hv. destruct (bool_decide (max > 0)); [|wgo; apply evicts_refl].
  apply wp_bind. eapply wp_conseq; [by apply evict_loop_wp|]. cbn. intros _ w1 He.
  apply wp_vkeep; [done|]. intros f w2 Hv2. by rewrite Hv2.
Qed.

Lemma make_room_for_server_wp p b w :
  Inv (view w) -> wp (make_room_for_server E cf p b) (fun _ w' => evicts (view w) (view w')) w.
Proof using.
  intros Hv. unfold make_room_for_server. wstep. wstep. wstep. wstep. apply wp_bind.
  eapply wp_conseq; [apply limit_wp; [vkeep_solve|intros; by apply evict_connection_wp|done]|].
  cbn. intros full w1 He1. destruct full; [by wgo|].
  apply wp_bind, wp_vkeep; [vkeep_solve|]. intros c w2 Hv2.
  apply wp_bind, wp_vkeep; [vkeep_solve|]. intros u w3 Hv3.
  apply wp_bind, wp_vkeep; [vkeep_solve|]. intros g w4 Hv4.
  assert (Hv' : view w4 = view w1) by congruence. apply wp_bind.
  eapply wp_conseq; [apply limit_wp; [vkeep_solve|intros; by apply evict_user_connection_wp|
    rewrite Hv'; by eapply evicts_inv]|].
  cbn. intros full w5 He5. rewrite Hv' in He5. wgo. by eapply evicts_trans.
Qed.

Lemma dns_connect_wp s w :
  Inv (view w) -> wp (dns_connect E cf s) (fun _ w' => runs (fun y => y = s) (view w) (view w')) w.
Proof using All.
  intros Hv. unfold dns_connect.
  apply wp_bind, wp_vkeep; [vkeep_solve|]. intros k w1 Hv1.
  apply wp_bind, wp_vkeep; [vkeep_solve|]. intros p w2 Hv2.
  apply wp_bind, wp_vkeep; [vkeep_solve|]. intros host w3 Hv3.
  apply wp_bind, wp_vkeep; [vkeep_solve|]. intros _ w4 Hv4.
  assert (Hv' : view w4 = view w) by congruence. rewrite <- Hv' in *.
  destruct host as [h|]; [destruct (_ || _); [|destruct (oe_inet_pton E _ h)]|case_decide];
    [by apply connect_ok|by apply connect_ok|by apply resolve_ok|by apply disconnect_s_wp|by apply connect_ok].
Qed.

(** A move overwrites what was written just before. *)
Lemma vmove_vset f x o k0 k v : vmove f x o k (vset x k0 v) = vmove f x o k v.
Proof using. unfold vmove, vset; cbn. by rewrite insert_insert_eq. Qed.

(** Running a socket that did not exist before. *)
Lemma runs_fresh x v v1 v2 :
  vs v !! x = None -> vstep v v1 -> frame (fun y => y = x) v v1 -> runs (fun y => y = x) v1 v2 ->
  runs (fun _ => False) v v2.
Proof using.
  intros Hx Hs Hf Hr. apply (runs_not_parked x).
  - eapply runs_trans; [by apply runs_one|done].
  - intros st (k & Hk & _). congruence.
Qed.

Lemma frame_move f x o k v : frame (fun y => y = x) v (vmove f x o k v).
Proof using. intros y st Hy (ky & Hky & Hp). exists ky. cbn. by rewrite lookup_insert_ne. Qed.

Lemma frame_vcount X n p v v' : frame X v v' -> frame X v (vcount n p v').
Proof using. intros Hf x st Hx Hp. destruct (Hf x st Hx Hp) as (k & Hk & Hr). exists k. by rewrite vs_vcount. Qed.

Lemma add_server_wp p w :
  Inv (view w) -> no_new p (view w) ->
  wp (add_server cf p) (fun s w' => vs (view w) !! s = None /\ vstep (view w) (view w') /\
        frame (fun y => y = s) (view w) (view w')) w.
Proof using.
  intros Hv Hno. unfold add_server.
  apply wp_bind, wp_pl_get. intros pool Hpool. apply wp_bind, wp_get_cached_time. apply wp_bind, wp_getS.
  set (s := fresh (dom (w_sockets w))).
  assert (Hs : w_sockets w !! s = None) by (apply not_elem_of_dom, is_fresh).
  apply wp_bind, wp_modS. set (w2 := set_sockets _ w).
  assert (Hv2 : view w2 = vset s (sview (fresh_socket SV_FREE (Some p) (pl_user_credentials pool) (w_now w) 0)) (view w))
    by (unfold w2; apply view_set).
  apply wp_bind, wp_vkeep; [vkeep_solve|]. intros _ w3 Hv3.
  apply wp_bind, wp_vkeep; [vkeep_solve|]. intros _ w4 Hv4.
  destruct (same_view_lookup s (fresh_socket SV_FREE (Some p) (pl_user_credentials pool) (w_now w) 0) w2 w4)
    as (k4 & Hk4 & E4); [congruence|by cbn; rewrite lookup_insert_eq|].
  apply wp_bind. eapply wp_conseq; [apply change_server_state_wp|]. cbv beta.
  intros _ w5 (k4' & Hk4' & _ & _ & _ & Hm). rewrite Hk4 in Hk4'. injection Hk4' as <-. apply view_moved in Hm.
  apply wp_bind. eapply wp_conseq; [apply count_connection_wp|]. cbv beta. intros _ w6 [Hv6 _]. apply wp_ret.
  assert (Hs6 : exists f, view w6 = vcount 1 p (vmove f s None (mkSView SV_LOGIN (Some p) None false None []) (view w))).
  { exists (server_front cf k4 SV_LOGIN). rewrite Hv6, Hm, E4, Hv4, Hv3, Hv2. f_equal.
    change (k_slot (sview (fresh_socket _ _ _ _ _))) with (@None slot). apply vmove_vset. }
  destruct Hs6 as [f Hs6]. split; [by rewrite view_vs, Hs|]. rewrite Hs6. split; [|apply frame_vcount, frame_move].
  apply VS_launch; [by rewrite view_vs, Hs| |done]. cbn. rewrite lookup_fmap, Hpool. by eexists.
Qed.

Lemma open_server_wp p w :
  Inv (view w) -> no_new p (view w) ->
  wp (open_server E cf p) (fun _ w' => runs (fun _ => False) (view w) (view w')) w.
Proof using All.
  intros Hv Hno. unfold open_server. apply wp_bind, wp_vkeep; [vkeep_solve|]. intros ok w1 Hv1.
  destruct ok; cbn [negb]; [|wgo; rewrite Hv1; apply runs_refl]. rewrite <- Hv1 in *.
  apply wp_bind. eapply wp_conseq; [by apply add_server_wp|]. cbv beta. intros s w2 (Hs & Hstep & Hf).
  eapply wp_conseq; [apply dns_connect_wp; by eapply step_inv|]. cbn. intros _ w7 Hr. by eapply (runs_fresh s).
Qed.

Lemma launch_new_connection_wp p b w :
  Inv (view w) -> wp (launch_new_connection E cf p b) (fun _ w' => runs (fun _ => False) (view w) (view w')) w.
Proof using All.
  intros Hv. unfold launch_new_connection. apply wp_bind.
  eapply wp_conseq; [by apply launch_decide_wp|]. cbn. intros d w1 [He Hno].
  assert (Hv1 : Inv (view w1)) by (by eapply evicts_inv).
  assert (Hopen : forall w2, evicts (view w1) (view w2) -> d <> LaunchNot ->
     wp (open_server E cf p) (fun _ w' => runs (fun _ => False) (view w) (view w')) w2).
  { intros w2 He2 Hd. eapply wp_conseq; [apply open_server_wp; [by eapply evicts_inv|by apply He2, Hno]|].
    cbn. intros _ w3 Hr. eapply runs_trans; [exact (proj1 He)|]. eapply runs_trans; [exact (proj1 He2)|done]. }
  destruct d; [wgo; exact (proj1 He)| |apply Hopen; [apply evicts_refl|done]].
  apply wp_bind. eapply wp_conseq; [by apply make_room_for_server_wp|]. cbn. intros room w2 He2.
  destruct room; [by apply Hopen|]. wgo. eapply runs_trans; [exact (proj1 He)|exact (proj1 He2)].
Qed.

(** *** Clients *)

Lemma accept_client_wp sock u w :
  Inv (view w) -> wp (accept_client E sock u) (fun _ w' => runs (fun _ => False) (view w) (view w')) w.
Proof using All.
  intros Hv. unfold accept_client. apply wp_bind, wp_vkeep; [vkeep_solve|]. intros ok w1 Hv1.
  destruct ok; cbn [negb]; [|wgo; rewrite Hv1; apply runs_refl].
  apply wp_bind, wp_get_cached_time. apply wp_bind, wp_getS.
  set (c := fresh (dom (w_sockets w1))).
  assert (Hc : w_sockets w1 !! c = None) by (apply not_elem_of_dom, is_fresh).
  apply wp_bind, wp_modS. apply wp_bind.
  eapply wp_conseq; [apply change_client_state_wp|]. cbn -[fresh]. fold c.
  intros _ w2 (k & Hk & _ & _ & Hm). rewrite lookup_insert_eq in Hk. injection Hk as <-.
  change (new_client_state _ _) with CL_LOGIN in Hm. cbn [decide] in Hm. destruct Hm as [_ Hm].
  apply view_moved in Hm. rewrite view_set in Hm. change (k_slot _) with (@None slot) in Hm. rewrite vmove_vset in Hm.
  assert (Hstep : vstep (view w) (view w2)) by (rewrite Hm, <- Hv1; apply VS_accept; by rewrite view_vs, Hc).
  apply wp_bind. eapply wp_conseq; [apply accept_ok; by eapply step_inv|]. cbn. intros res w3 Hr. wgo.
  eapply (runs_fresh c); [by rewrite <- Hv1, view_vs, Hc|exact Hstep| |exact Hr].
  rewrite Hm, Hv1. apply frame_move.
Qed.

(** A client changes its state while it has no server. *)
Lemma move_client_wp c st k w :
  Inv (view w) -> w_sockets w !! c = Some k -> sk_link k = None ->
  busy_client_state (sk_state k) = true -> cancel_client_state (sk_state k) = false ->
  busy_client_state (new_client_state (sk_state k) st) = true ->
  wp (change_client_state c st) (fun _ w' => quiet (fun y => y = c) (view w) (view w') /\
     exists k', w_sockets w' !! c = Some k' /\ sview k' = k_set_state (new_client_state (sk_state k) st) (sview k)) w.
Proof using.
  intros Hv Hc Hl Hb Hcan Hst. eapply wp_conseq; [apply change_client_state_wp|]. cbn.
  intros _ w' (k0 & Hk0 & _ & _ & Hm). rewrite Hc in Hk0. injection Hk0 as <-.
  case_decide as Hf; [by rewrite Hf in Hst|]. destruct Hm as [Hslot Hm].
  destruct (moved_self _ _ _ _ _ _ Hm) as (k' & Hk' & Hv' & _). split; [|by exists k'].
  apply view_moved in Hm. rewrite Hm. eapply quiet_move; [by apply view_vs_some|].
  apply VS_move_client; try done; [by apply view_vs_some| |].
  - unfold link_fits; cbn. by rewrite Hl.
  - eapply (no_canceled (vs (view w)) c (sview k)); [apply Hv|by apply view_vs_some|done].
Qed.

Lemma active_state st :
  bool_decide (st = CL_ACTIVE) || bool_decide (st = CL_LOGIN) = true -> st = CL_ACTIVE \/ st = CL_LOGIN.
Proof using. intros Ha. apply orb_prop in Ha as [Ha|Ha]; apply bool_decide_eq_true_1 in Ha; auto. Qed.

Lemma pause_client_wp c k w :
  Inv (view w) -> w_sockets w !! c = Some k -> sk_link k = None ->
  wp (pause_client E cf c) (fun _ w' => runs (fun y => y = c) (view w) (view w')) w.
Proof using All.
  intros Hv Hc Hl. unfold pause_client. wstep. wstep. wstep. wstep. apply active_state in Has.
  destruct (decide _); [by apply disconnect_c_wp|]. apply wp_bind.
  eapply wp_conseq; [eapply (move_client_wp c CL_WAITING k); try done; by destruct Has as [-> | ->]|].
  cbn. intros _ w1 [Hq _]. apply wp_bind, wp_vkeep; [vkeep_solve|]. intros ok w2 Hv2.
  destruct ok; [wgo; rewrite Hv2; by apply quiet_runs|].
  eapply wp_conseq; [apply disconnect_c_wp; rewrite Hv2; by eapply quiet_inv|]. cbn. intros _ w3 Hr.
  rewrite Hv2 in Hr. eapply runs_trans; [by apply quiet_runs|done].
Qed.

Lemma check_fast_fail_wp c w :
  Inv (view w) ->
  wp (check_fast_fail E cf c) (fun b w' => runs (fun y => y = c) (view w) (view w') /\
        (b = true -> view w' = view w)) w.
Proof using All.
  intros Hv. unfold check_fast_fail, statlist_count. wstep. wstep. destruct (sk_pool k) as [p|]; [|wgo; eauto with pgb].
  wstep. wstep. destruct (negb (pl_last_login_failed pl)); [wgo; eauto with pgb|].
  apply wp_bind, wp_vkeep; [vkeep_solve|]. intros n w1 Hv1.
  apply wp_bind, wp_vkeep; [vkeep_solve|]. intros new w2 Hv2. rewrite Hv1 in Hv2.
  destruct (bool_decide _); [wgo; rewrite Hv2; eauto with pgb|].
  apply wp_bind. eapply wp_conseq; [apply disconnect_c_wp; by rewrite Hv2|]. cbn. intros _ w3 Hr. rewrite Hv2 in Hr.
  apply wp_bind. eapply wp_conseq; [apply launch_new_connection_wp; by eapply runs_inv|]. cbn. intros _ w4 Hr'. wgo.
  split; [|done]. eapply runs_trans; [done|]. eapply runs_mono; [exact Hr'|by intros ? []].
Qed.

(** *** Looking for a server *)

(** An idle server of pool [p] that can serve a client. *)
Definition clean_idle (p s : positive) w : Prop :=
  exists k, w_sockets w !! s = Some k /\ sk_state k = SV_IDLE /\ sk_pool k = Some p /\
    sk_ready k = true /\ sk_close_needed k = false.

(** The head of the list of idle servers can be closed. *)
Lemma first_idle p s w :
  Inv (view w) -> head (lst (w_lists w) (PoolSlot p idle_server_list)) = Some s ->
  exists k, w_sockets w !! s = Some k /\ sk_state k = SV_IDLE /\ sk_pool k = Some p.
Proof using.
  intros Hv Hh. destruct (in_pool_list (view w) p idle_server_list s Hv) as (kv & Hkv & Hst & Hp); [by apply head_elem|].
  apply view_vs_inv in Hkv as (k & Hk & ->). exists k. split; [done|]. split; [|done].
  cbn in Hst. by destruct (sk_state k).
Qed.

Lemma usable_idle_server_wp fuel p w :
  Inv (view w) ->
  wp (usable_idle_server E cf fuel p) (fun o w' => evicts (view w) (view w') /\
        forall s, o = Some s -> clean_idle p s w') w.
Proof using.
  revert w. induction fuel as [|fuel IH]; intros w Hv; [done|]. cbn [usable_idle_server]. unfold first_socket. wgo.
  destruct (head _) as [s|] eqn:Eh; wgo; [|by split; [apply evicts_refl|]].
  destruct (first_idle p s w Hv Eh) as (k0 & Hk0 & Hst & Hp). simplify_eq.
  assert (Hclose : forall r, wp (_ ← disconnect_s E cf s true r; usable_idle_server E cf fuel p)
    (fun o w' => evicts (view w) (view w') /\ forall s, o = Some s -> clean_idle p s w') w).
  { intros r. apply wp_bind. eapply wp_conseq; [apply disconnect_idle_wp; [done|exists k; by rewrite Hst]|].
    cbn. intros _ w1 [He _]. eapply wp_conseq; [apply IH; by eapply evicts_inv|]. cbn.
    intros o w2 [He2 Ho]. split; [by eapply evicts_trans|done]. }
  destruct (sk_close_needed k) eqn:Ec; [by apply Hclose|]. destruct (sk_ready k) eqn:Er; [|by apply Hclose].
  cbn [negb]. wgo. split; [apply evicts_refl|]. intros s' [= <-]. by exists k.
Qed.

Lemma search_server_wp c p w :
  Inv (view w) ->
  wp (search_server E cf c p) (fun o w' => runs (fun y => y = c) (view w) (view w') /\
        (o <> None -> runs (fun _ => False) (view w) (view w')) /\
        forall s, o = Some (Some s) -> clean_idle p s w') w.
Proof using All.
  intros Hv. unfold search_server. wgo.
  destruct (bool_decide _ || db_paused _); [wgo; split; [apply runs_refl|]; by split; [intros _; apply runs_refl|]|].
  destruct (is_replication k && _).
  { apply wp_bind. eapply wp_conseq; [by apply launch_new_connection_wp|]. cbn. intros _ w1 Hr. wgo.
    split; [eapply runs_mono; [exact Hr|by intros ? []]|done]. }
  wgo. eapply wp_conseq; [by apply usable_idle_server_wp|]. cbn. intros o w1 [[Hr _] Ho].
  assert (Hr' : runs (fun y => y = c) (view w) (view w1)) by (eapply runs_mono; [exact Hr|by intros ? []]).
  destruct o as [s|]; [wgo; split; [done|]; split; [done|]; intros s' [= <-]; auto|].
  wgo. eapply wp_conseq; [apply check_fast_fail_wp; by eapply runs_inv|].
  cbn. intros b w2 [Hr2 Hb]. wgo. split; [by eapply runs_trans|]. destruct b; [|done]. split; [|done].
  intros _. by rewrite Hb.
Qed.

(** Looking up a parked socket. *)
Lemma parked_lookup c st w :
  parked (view w) c st -> exists k, w_sockets w !! c = Some k /\ sk_state k = st /\ sk_link k = None.
Proof using. intros (kv & Hkv & Hst & Hl & _). apply view_vs_inv in Hkv as (k & Hk & ->). by exists k. Qed.

Lemma parked_of c k w :
  Inv (view w) -> w_sockets w !! c = Some k -> sk_link k = None -> sk_state k = CL_ACTIVE \/ sk_state k = CL_LOGIN ->
  parked (view w) c (sk_state k).
Proof using.
  intros Hv Hc Hl Hst. exists (sview k). split; [by apply view_vs_some|]. split; [done|]. split; [done|].
  split; [|by destruct Hst as [-> | ->]].
  eapply no_canceled; [apply Hv|by apply view_vs_some|]. cbn. by destruct Hst as [-> | ->].
Qed.

Lemma ask_kernel_wp {A} (f : K -> A * K) w :
  wp (ask_kernel f) (fun _ w' => view w' = view w /\ w_sockets w' = w_sockets w) w.
Proof using. unfold ask_kernel. apply wp_bind, wp_getS. destruct (f (w_kernel w)). by apply wp_bind, wp_modS, wp_ret. Qed.

Lemma apply_vars_wp c o w :
  Inv (view w) -> (forall s, o = Some s -> evictable s w) ->
  wp (apply_vars E cf c o) (fun ov w' => runs (fun _ => False) (view w) (view w') /\
        (forall s, ov.1 = Some s -> o = Some s /\ w_sockets w' = w_sockets w /\ view w' = view w)) w.
Proof using.
  intros Hv Ho. unfold apply_vars. wstep. wstep. destruct o as [s|]; [|wgo; eauto with pgb].
  destruct (sending_auth_query k); [wgo; eauto with pgb|].
  apply wp_bind. eapply wp_conseq; [apply ask_kernel_wp|]. cbn. intros [res vc] w1 [Hv1 Hs1].
  destruct res; [wgo; rewrite Hv1; eauto with pgb|]. apply wp_bind.
  eapply wp_conseq; [apply disconnect_idle_wp; [by rewrite Hv1|by eapply evictable_same, Ho]|].
  cbn. intros _ w2 [[Hr _] _]. rewrite Hv1 in Hr. by wgo.
Qed.

(** Client [c] has server [s], or some server, of pool [p] for itself. *)
Definition linked_to (p c s : positive) w : Prop :=
  exists kc ks, w_sockets w !! c = Some kc /\ sk_link kc = Some s /\ w_sockets w !! s = Some ks /\
    sk_state ks = SV_ACTIVE /\ sk_link ks = Some c /\ sk_pool ks = Some p /\ sk_ready ks = true /\
    sk_close_needed ks = false /\ sk_canceling_clients ks = [].
Definition linked_clean (p c : positive) w : Prop := exists s, linked_to p c s w.

Lemma join_server_wp c s p st w :
  Inv (view w) -> parked (view w) c st -> st = CL_ACTIVE \/ st = CL_LOGIN -> clean_idle p s w ->
  wp (join_server cf c s) (fun _ w' => vstep (view w) (view w') /\ runs (fun y => y = c) (view w) (view w') /\
        linked_to p c s w') w.
Proof using.
  intros Hv Hp Hst (k & Hs & Hidle & Hpk & Hrdy & Hcn). destruct (parked_lookup c st w Hp) as (kc & Hc & Hcst & Hcl).
  assert (Hne : c <> s) by (intros Heq; rewrite Heq in Hc; simplify_eq; naive_solver congruence).
  unfold join_server. wgo.
  set (w1 := set_sockets _ _).
  assert (Hv1 : view w1 = vset s (k_set_link (Some c) (sview k)) (vset c (k_set_link (Some s) (sview kc)) (view w))).
  { unfold w1. rewrite (view_set2 c s (set_link (Some s) kc) (set_link (Some c) k) (set_pools _ w)).
    by rewrite (view_pool p0 pl). }
  eapply wp_conseq; [apply change_server_state_wp|]. cbn.
  intros _ w2 (k1 & Hk1 & _ & _ & Hm). destruct Hm as [_ Hm].
  unfold w1 in Hk1. cbn in Hk1. rewrite lookup_insert_eq in Hk1. injection Hk1 as <-.
  assert (Hclean : linked_to p c s w2).
  { destruct (moved_self _ _ _ _ _ _ Hm) as (ks & Hks & Eks & [F1 F2] & _). injection Eks as G1 G2 G3 _ _ G6.
    exists (set_link (Some s) kc), ks. rewrite (moved_lookup _ _ _ _ _ _ _ Hm Hne). unfold w1; cbn.
    rewrite lookup_insert_ne, lookup_insert_eq by done. rewrite G1, G2, G3, G6, F1, F2. split_and!; try done.
    apply (no_canceling (vs (view w)) s (sview k)); [apply Hv|by apply view_vs_some|cbn; by rewrite Hidle]. }
  apply view_moved in Hm. rewrite Hv1, vmove_vset in Hm.
  assert (Hstep : vstep (view w) (view w2)).
  { rewrite Hm. apply (VS_link (view w) c s (sview kc) (sview k)); try done; [by apply view_vs_some..|].
    cbn. by rewrite Hcst. }
  split; [done|]. split; [|done].
  apply runs_one; [done|]. rewrite Hm. intros y sty Hy (ky & Hky & Hpy). exists ky. split; [|done]. cbn in *.
    rewrite !lookup_insert_ne; [done|congruence|]. intros <-. rewrite lookup_fmap, Hs in Hky. injection Hky as <-.
    destruct Hpy as (Hpy & _ & _ & Hpks). cbn in Hpy. rewrite Hidle in Hpy. by subst sty.
Qed.

Lemma link_server_wp c s p vc st w :
  Inv (view w) -> parked (view w) c st -> st = CL_ACTIVE \/ st = CL_LOGIN -> clean_idle p s w ->
  wp (link_server E cf c s vc) (fun b w' => runs (fun y => y = c) (view w) (view w') /\
        (b = true -> linked_clean p c w')) w.
Proof using All.
  intros Hv Hp Hst Hcl. unfold link_server. apply wp_bind. eapply wp_conseq; [by eapply join_server_wp|].
  cbv beta. intros _ w2 (Hstep & Hr & Hclean).
  destruct vc; [|wgo; split; [done|]; intros _; by exists s]. apply wp_bind, wp_vkeep; [vkeep_solve|]. intros _ w3 Hv3.
  apply wp_bind, wp_vkeep; [vkeep_solve|]. intros _ w4 Hv4. apply wp_bind, wp_vkeep; [vkeep_solve|]. intros ok w5 Hv5.
  apply wp_bind. destruct ok; [wgo; split; [congruence|done]|].
  eapply wp_conseq; [apply disconnect_c_wp; eapply runs_inv; [done|]; by rewrite Hv5, Hv4, Hv3|].
  cbn. intros _ w6 Hr6. wgo. split; [|done]. eapply runs_trans; [exact Hr|congruence].
Qed.

Lemma idle_assert_wp server w :
  wp (match server with
      | Some s => ks ← sk_get s; AssertS (bool_decide (sk_state ks = SV_IDLE))
      | None => mret tt
      end) (fun _ w' => w' = w) w.
Proof using. by destruct server as [s|]; wgo. Qed.

Lemma find_server_wp c w :
  Inv (view w) ->
  wp (find_server E cf c) (fun b w' => runs (fun y => y = c) (view w) (view w') /\
        forall k, w_sockets w !! c = Some k -> sk_link k = None -> b = true ->
          exists p, sk_pool k = Some p /\ linked_clean p c w') w.
Proof using All.
  intros Hv. unfold find_server. wstep. wstep. wstep. wstep. apply active_state in Has.
  apply wp_bind, wp_vkeep; [vkeep_solve|]. intros _ w1 Hv1.
  destruct (sk_link k) eqn:El.
  { rewrite bool_decide_true by done. wgo. rewrite Hv1. split; [apply runs_refl|]. intros k' Hk'. simplify_eq. congruence. }
  rewrite bool_decide_false by tauto. apply wp_bind, wp_found. intros p Hp. apply wp_bind.
  eapply wp_conseq; [apply search_server_wp; by rewrite Hv1|]. cbn. intros o w2 (Hr2 & Ho & Hclean). rewrite Hv1 in Hr2, Ho.
  destruct o as [server|]; [|by wgo]. specialize (Ho ltac:(done)).
  assert (Hv2 : Inv (view w2)) by (by eapply runs_inv).
  assert (Hpk : parked (view w2) c (sk_state k)) by (apply (proj2 Ho); [tauto|by apply parked_of]).
  apply wp_bind. eapply wp_conseq; [apply idle_assert_wp|]. cbn. intros _ w2' ->. apply wp_bind.
  eapply wp_conseq; [apply apply_vars_wp; [done|]|].
  { intros s ->. destruct (Hclean s eq_refl) as (ks & Hks & Hst & _). exists ks. by rewrite Hst. }
  cbn. intros [[s|] vc] w3 [Hr3 Hs]; cbn in Hs.
  - destruct (Hs s eq_refl) as (-> & Hs3 & Hv3). destruct (Hclean s eq_refl) as (ks & Hks & Hrest).
    eapply wp_conseq; [eapply (link_server_wp c s p vc (sk_state k)); rewrite ?Hv3; try done; exists ks; by rewrite Hs3|].
    cbn. intros b w4 [Hr4 Hb]. rewrite Hv3 in Hr4. split; [by eapply runs_trans|]. intros k' Hk' _ Eb.
    simplify_eq. eauto.
  - assert (Hpk3 : parked (view w3) c (sk_state k)) by (apply (proj2 Hr3); [tauto|done]).
    destruct (parked_lookup _ _ _ Hpk3) as (k3 & Hk3 & _ & Hl3). apply wp_bind.
    eapply wp_conseq; [eapply pause_client_wp; [by eapply runs_inv|done|done]|]. cbn. intros _ w4 Hr4. wgo. split; [|done].
    eapply runs_trans; [exact Hr2|]. eapply runs_trans; [|exact Hr4]. eapply runs_mono; [exact Hr3|by intros ? []].
Qed.

(** The end of a login, for a client that has no server (the one that ran the
    auth query was released). *)
Lemma finish_client_login_wp c k w :
  Inv (view w) -> w_sockets w !! c = Some k -> sk_link k = None ->
  wp (finish_client_login E cf c) (fun _ w' => runs (fun y => y = c) (view w) (view w')) w.
Proof using All.
  intros Hv Hc Hl. unfold finish_client_login. do 6 wstep.
  assert (Hclose : forall r, wp (_ ← disconnect_c E cf c true r; mret false)
                     (fun _ w' => runs (fun y => y = c) (view w) (view w')) w).
  { intros r. apply wp_bind. eapply wp_conseq; [by apply disconnect_c_wp|]. cbn. intros _ w1 Hr. by wgo. }
  destruct (db_fake db); [by apply Hclose|]. destruct (db_disabled db); [by apply Hclose|].
  destruct (bool_decide _ && _); [by apply Hclose|]. clear Hclose. apply wp_bind, wp_found. intros q Hq0. apply wp_bind.
  apply (wp_conseq _ (fun _ w1 => quiet (fun y => y = c) (view w) (view w1) /\
           exists k1, w_sockets w1 !! c = Some k1 /\ sk_link k1 = None)).
  { destruct (sk_state k) eqn:Est; try (by intros ? ? ?).
    - apply wp_bind. eapply wp_conseq; [eapply (move_client_wp c CL_ACTIVE k); rewrite ?Est; done|].
      cbn. intros _ w1 (Hq & k1 & Hk1 & E1). apply wp_vkeep; [vkeep_solve|]. intros _ w2 Hv2. rewrite Hv2.
      split; [done|]. destruct (same_view_lookup c k1 w1 w2 Hv2 Hk1) as (k2 & Hk2 & E2). rewrite E1 in E2.
      injection E2 as _ _ F _ _ _. exists k2. by rewrite F.
    - wgo. split; [apply quiet_refl|]. eauto. }
  cbn. intros _ w1 (Hq & k1 & Hk1 & Hl1). assert (Hv1 : Inv (view w1)) by (by eapply quiet_inv).
  apply quiet_runs in Hq. wstep. wstep. wstep. wstep.
  destruct (negb (pl_welcome_msg_ready pl)).
  - wstep. wstep. wnorm. apply wp_bind.
    eapply wp_conseq; [eapply (pause_client_wp c); [by rewrite (view_same c k1)|cbn; by rewrite lookup_insert_eq|done]|].
    cbn. intros _ w2 Hr2. rewrite (view_same c k1) in Hr2 by done. assert (Hv2 : Inv (view w2)) by (by eapply runs_inv).
    apply wp_bind, wp_getS, wp_bind. case_decide; [|wgo; by eapply runs_trans].
    eapply wp_conseq; [by apply launch_new_connection_wp|]. cbn. intros _ w3 Hr3. wgo.
    eapply runs_trans; [exact Hq|]. eapply runs_trans; [exact Hr2|]. eapply runs_mono; [exact Hr3|by intros ? []].
  - wstep. wstep. wnorm. apply wp_bind. eapply wp_conseq; [apply welcome_ok; by rewrite (view_same c k1)|].
    cbn. intros b w2 Hr2. rewrite (view_same c k1) in Hr2 by done.
    apply (wp_vkeep _ _ w2); [destruct b; vkeep_solve|]. intros _ w3 Hv3. rewrite Hv3. by eapply runs_trans.
Qed.

(** *** Freed objects *)

Lemma free_closed_wp free st l cw w :
  st = CL_JUSTFREE \/ st = SV_JUSTFREE ->
  (forall x k w, w_sockets w !! x = Some k -> sk_state k = st ->
     wp (free x) (fun _ w' => view w' = vdelete x (k_slot (sview k)) (view w)) w) ->
  Inv (view w) -> NoDup l -> Forall (fun x => exists k, vs (view w) !! x = Some k /\ v_state k = st) l ->
  wp (free_closed E free l cw) (fun _ w' => runs (fun _ => False) (view w) (view w')) w.
Proof using.
  intros Hst Hfree. revert cw w. induction l as [|x l IH]; intros cw w Hv Hnd Hl; cbn [free_closed]; [wgo; apply runs_refl|].
  apply NoDup_cons in Hnd as [Hx Hnd]. apply Forall_cons in Hl as [(kv & Hkv & Hks) Hl].
  apply view_vs_inv in Hkv as (k & Hk & ->). wstep. wstep. destruct (sbuf_is_closed (sk_sbuf k)).
  - apply wp_bind. eapply wp_conseq; [by eapply Hfree|]. cbn. intros _ w1 Hv1.
    assert (Hstep : vstep (view w) (view w1)).
    { rewrite Hv1. apply VS_free; [by apply view_vs_some|]. rewrite Hks. tauto. }
    eapply wp_conseq; [apply IH; [by eapply step_inv|done|]|].
    + rewrite Hv1. cbn. apply Forall_forall. intros y Hy. rewrite Forall_forall in Hl.
      destruct (Hl y Hy) as (ky & Hky & Hsy). exists ky. rewrite lookup_delete_ne; [done|]. by intros ->.
    + cbn. intros _ w2 Hr. eapply runs_trans; [apply runs_one; [exact Hstep|]|exact Hr].
      rewrite Hv1. intros y sty _ (ky & Hky & Hpy). exists ky. cbn in *. rewrite lookup_delete_ne; [done|].
      intros ->. rewrite lookup_fmap, Hk in Hky. injection Hky as <-. destruct Hpy as (Hpy & _ & _ & Hpk).
      change (sk_state k = st) in Hks. change (sk_state k = sty) in Hpy. rewrite Hks in Hpy. subst sty. by destruct Hst as [-> | ->].
  - assert (Hrest : forall cw' w', view w' = view w ->
      wp (free_closed E free l cw') (fun _ w'' => runs (fun _ => False) (view w) (view w'')) w').
    { intros cw' w' Hw'. rewrite <- Hw'. apply IH; [by rewrite Hw'|done|by rewrite Hw']. }
    destruct cw; [|by apply Hrest]. apply wp_bind, wp_vkeep; [vkeep_solve|]. auto.
Qed.

Lemma justfree_list sl st w :
  Inv (view w) -> (forall k, k_slot k = Some sl -> v_state k = st) ->
  NoDup (lst (w_lists w) sl) /\
  Forall (fun x => exists k, vs (view w) !! x = Some k /\ v_state k = st) (lst (w_lists w) sl).
Proof using.
  intros (Hl & _) Hsl. split; [apply (proj1 (proj2 Hl))|]. apply Forall_forall. intros x Hx.
  apply (proj1 Hl) in Hx as (k & Hk & Hs). eauto.
Qed.

Lemma k_slot_justfree k :
  (k_slot k = Some justfree_client_list -> v_state k = CL_JUSTFREE) /\
  (k_slot k = Some justfree_server_list -> v_state k = SV_JUSTFREE).
Proof using. unfold k_slot, slot_of. destruct (v_state k), (v_pool k); split; done. Qed.

Lemma free_client_wp x k w :
  w_sockets w !! x = Some k -> sk_state k = CL_JUSTFREE ->
  wp (change_client_state x CL_FREE) (fun _ w' => view w' = vdelete x (k_slot (sview k)) (view w)) w.
Proof using.
  intros Hx Hst. eapply wp_conseq; [apply change_client_state_wp|]. cbn. intros _ w' (k' & Hk' & _ & _ & Hm).
  rewrite Hx in Hk'. injection Hk' as <-. rewrite Hst in Hm. change (new_client_state _ _) with CL_FREE in Hm.
  cbn [decide] in Hm. rewrite decide_True in Hm by done. rewrite Hm, <- Hst. apply view_freed.
Qed.

Lemma free_server_wp x k w :
  w_sockets w !! x = Some k -> sk_state k = SV_JUSTFREE ->
  wp (change_server_state cf x SV_FREE) (fun _ w' => view w' = vdelete x (k_slot (sview k)) (view w)) w.
Proof using.
  intros Hx Hst. eapply wp_conseq; [apply change_server_state_wp|]. cbn. intros _ w' (k' & Hk' & _ & _ & Hm).
  rewrite Hx in Hk'. injection Hk' as <-. rewrite Hm. apply view_freed.
Qed.

Lemma reuse_just_freed_objects_wp w :
  Inv (view w) -> wp (reuse_just_freed_objects E cf) (fun _ w' => runs (fun _ => False) (view w) (view w')) w.
Proof using.
  intros Hv. unfold reuse_just_freed_objects. apply wp_bind, wp_sockets_in. apply wp_bind.
  destruct (justfree_list justfree_client_list CL_JUSTFREE w Hv) as [Hnd Hl]; [by apply k_slot_justfree|].
  eapply wp_conseq; [eapply (free_closed_wp _ CL_JUSTFREE); try done; [by left|by apply free_client_wp]|].
  cbn. intros cw w1 Hr1. assert (Hv1 : Inv (view w1)) by (by eapply runs_inv).
  apply wp_bind, wp_sockets_in. apply wp_bind.
  destruct (justfree_list justfree_server_list SV_JUSTFREE w1 Hv1) as [Hnd1 Hl1]; [by apply k_slot_justfree|].
  eapply wp_conseq; [eapply (free_closed_wp _ SV_JUSTFREE); try done; [by right|by apply free_server_wp]|].
  cbn. intros _ w2 Hr2. wgo. by eapply runs_trans.
Qed.

(** *** Stale connections *)

Lemma vkeep_for_each f l : (forall x, vkeep (f x)) -> vkeep (@for_each K f l).
Proof using. intros Hf. induction l as [|x l IH]; cbn [for_each]; [vkeep_solve|]. apply vkeep_bind; auto. Qed.

Lemma vkeep_for_each_server p f : (forall x, vkeep (f x)) -> vkeep (@for_each_server K p f).
Proof using.
  intros Hf. assert (Hin : forall l, vkeep (for_each_in p f l)).
  { intros l. apply vkeep_bind; [apply vkeep_sockets_in|]. intros xs. by apply vkeep_for_each. }
  unfold for_each_server. do 4 (apply vkeep_bind; [apply Hin|intros _]). apply Hin.
Qed.

(** There is at most one connection attempt to close. *)
Lemma tag_pool_dirty_wp p w :
  Inv (view w) -> wp (tag_pool_dirty E cf p) (fun _ w' => runs (fun _ => False) (view w) (view w')) w.
Proof using All.
  intros Hv. unfold tag_pool_dirty. do 4 wstep. destruct (db_admin db); [wgo; apply runs_refl|].
  apply wp_bind, wp_vkeep; [vkeep_solve|]. intros _ w1 Hv1.
  apply wp_bind, wp_vkeep; [apply vkeep_for_each_server; intros x; unfold tag_dirty; vkeep_solve|]. intros _ w2 Hv2.
  rewrite Hv1 in Hv2. rewrite <- Hv2 in Hv |- *. clear dependent w1. apply wp_bind, wp_sockets_in.
  destruct Hv as (Hv & Hsingle). assert (Hle := proj2 (proj2 (proj2 (proj2 Hsingle))) p). cbn in Hle.
  destruct (lst (w_lists w2) (PoolSlot p new_server_list)) as [|s l] eqn:El; cbn [for_each]; [wgo; apply runs_refl|].
  assert (l = []) as -> by (destruct l; [done|unfold zlen in Hle; cbn in Hle; lia]).
  apply wp_bind. eapply wp_conseq; [by apply disconnect_s_wp|]. cbn. intros _ w3 Hr. wgo.
  destruct (in_pool_list (view w2) p new_server_list s) as (k & Hk & Hst & _); [done|cbn; rewrite El; by left|].
  apply (runs_not_parked s); [done|]. intros st. apply (parked_not _ _ k); [done|]. by destruct (v_state k).
Qed.

Lemma tag_pools_dirty_wp mine l w :
  Inv (view w) -> wp (tag_pools_dirty E cf mine l) (fun _ w' => runs (fun _ => False) (view w) (view w')) w.
Proof using All.
  revert w. induction l as [|p l IH]; intros w Hv; cbn [tag_pools_dirty]; [wgo; apply runs_refl|].
  wstep. wstep. apply wp_bind. destruct (mine pl); [|wgo; by apply IH].
  eapply wp_conseq; [by apply tag_pool_dirty_wp|]. cbn. intros _ w1 Hr.
  eapply wp_conseq; [apply IH; by eapply runs_inv|]. cbn. intros _ w2 Hr2. by eapply runs_trans.
Qed.

Lemma tag_database_dirty_wp d w :
  Inv (view w) -> wp (tag_database_dirty E cf d) (fun _ w' => runs (fun _ => False) (view w) (view w')) w.
Proof using All. intros Hv. unfold tag_database_dirty. wgo. by apply tag_pools_dirty_wp. Qed.

End LaunchRefine.
#[export] Hint Resolve vkeep_statlist_empty vkeep_first_socket vkeep_pool_full vkeep_db_full vkeep_user_full
  vkeep_choose_host : vkeep.
