(* ===== verification/Cancel.v ===== *)
(** * Cancel requests (src/objects.c, src/proto.c)

    The keys handed to clients and how they name a peer and count the times a
    request was passed on; the way of a cancel request from
    [accept_cancel_request] over the queue of its pool to
    [forward_cancel_request]. *)

From S2P Require Import Prelude Protocol MBuf PktBuf Proto IOBuf SBuf PoolSpec World Objects Launch.
From stdpp Require Import base option countable gmap list strings.
#[local] Open Scope Z_scope.

(** ** Cancel keys *)

Definition CANCELLATION_TTL_MASK : Z := 3.

(** Byte [i] of a key. *)
Definition key_byte (key : list Z) (i : nat) : Z := nth i key 0.
Definition set_key_byte (i : nat) (b : Z) (key : list Z) : list Z := <[i := b]> key.

(** The key [welcome_client] makes of eight random bytes. *)
Definition make_cancel_key (peer_id : Z) (random : list Z) : list Z :=
  let key :=
    if bool_decide (peer_id > 0) then
      let key := set_key_byte 1 (Z.land peer_id 255) random in
      let key := set_key_byte 2 (Z.land (Z.shiftr peer_id 8) 255) key in
      set_key_byte 7 (Z.lor (key_byte key 7) CANCELLATION_TTL_MASK) key
    else random in
  set_key_byte 0 (Z.land (key_byte key 0) 127) key.

(** The peer named in a key, and the times it may still be passed on. *)
Definition key_peer (key : list Z) : Z := key_byte key 1 + Z.shiftl (key_byte key 2) 8.
Definition key_ttl (key : list Z) : Z := Z.land (key_byte key 7) CANCELLATION_TTL_MASK.

(** [req->cancel_key[7]--] and [req->cancel_key[7] |= CANCELLATION_TTL_MASK] *)
Definition spend_ttl (key : list Z) : list Z := set_key_byte 7 (u8 (key_byte key 7 - 1)) key.
Definition restore_ttl (key : list Z) : list Z := set_key_byte 7 (Z.lor (key_byte key 7) CANCELLATION_TTL_MASK) key.

(** A property of bytes that holds for all 256 of them. *)
Lemma byte_cases (P : Z -> bool) b :
  forallb P (map Z.of_nat (seq 0 256)) = true -> 0 <= b < 256 -> P b = true.
Proof.
  intros Hall Hb. rewrite forallb_forall in Hall. apply Hall, in_map_iff. exists (Z.to_nat b).
  split; [lia|]. apply in_seq. lia.
Qed.

(** What the last byte of a key does while the request is passed on. *)
Lemma ttl_byte b n :
  0 <= b < 256 -> (n <= 3)%nat ->
  let t := Z.lor b CANCELLATION_TTL_MASK in
  let spent := Nat.iter n (fun x => u8 (x - 1)) t in
  Z.land spent CANCELLATION_TTL_MASK = 3 - Z.of_nat n /\ Z.lor spent CANCELLATION_TTL_MASK = t /\ 0 <= t < 256.
Proof.
  intros Hb Hn. cbv zeta.
  assert (Hall : forall m, (m <= 3)%nat -> let f := (fun b => let t := Z.lor b CANCELLATION_TTL_MASK in
     let spent := Nat.iter m (fun x => u8 (x - 1)) t in
     (Z.land spent CANCELLATION_TTL_MASK =? 3 - Z.of_nat m) && (Z.lor spent CANCELLATION_TTL_MASK =? t)
     && (0 <=? t) && (t <? 256)) in f b = true).
  { intros m Hm f. apply byte_cases; [|done]. unfold f. do 4 (destruct m as [|m]; [by vm_compute|]). lia. }
  specialize (Hall n Hn). cbv zeta in Hall. rewrite !andb_true_iff in Hall. destruct Hall as [[[H1 H2] H3] H4].
  apply Z.eqb_eq in H1, H2. apply Z.leb_le in H3. apply Z.ltb_lt in H4. auto.
Qed.

Lemma spend_iter n key b :
  length key = 8%nat ->
  Nat.iter n spend_ttl (set_key_byte 7 b key) = set_key_byte 7 (Nat.iter n (fun x => u8 (x - 1)) b) key.
Proof.
  intros Hlen. induction n as [|n IH]; [done|]. rewrite !Nat.iter_succ, IH. unfold spend_ttl.
  assert (Hb : forall c, key_byte (set_key_byte 7 c key) 7 = c).
  { intros c. unfold key_byte, set_key_byte. do 8 (destruct key as [|? key]; [done|]). done. }
  rewrite Hb. unfold set_key_byte. by rewrite list_insert_insert_eq.
Qed.

(** C32: A cancel key carries the id of the process that made it and the
    number of times a request may still be passed on: for a 16-bit peer id the
    key names that peer, each hop lowers the count by one without disturbing
    the id, after three hops no hop is left, and at the peer the original key
    is restored, so it matches the one the client was given. *)
Theorem cancel_key_survives_hops peer random n :
  length random = 8%nat -> Forall (fun b => 0 <= b < 256) random -> 0 < peer <= 65535 -> (n <= 3)%nat ->
  let key := make_cancel_key peer random in
  let passed := Nat.iter n spend_ttl key in
  key_peer passed = peer /\ key_ttl passed = 3 - Z.of_nat n /\ restore_ttl passed = key.
Proof.
  intros Hlen Hby Hp Hn. cbv zeta. unfold make_cancel_key. rewrite bool_decide_true by lia.
  do 8 (destruct random as [|? random]; [done|]). destruct random; [|done].
  rewrite !Forall_cons in Hby. destruct Hby as (_ & _ & _ & _ & _ & _ & _ & Hb & _).
  cbn [set_key_byte key_byte list_insert insert nth].
  match goal with |- context[Nat.iter n spend_ttl [?a; ?b; ?c; ?d; ?e; ?f; ?g; ?h]] =>
    change [a; b; c; d; e; f; g; h] with (set_key_byte 7 h [a; b; c; d; e; f; g; 0]) end.
  rewrite spend_iter by done. cbn [set_key_byte list_insert insert].
  destruct (ttl_byte _ n Hb Hn) as (Ht & Hr & _). unfold key_peer, key_ttl, restore_ttl, key_byte, set_key_byte.
  cbn [nth list_insert insert]. split; [|split; [exact Ht|by rewrite Hr]].
  rewrite Z.land_ones with (n := 8), Z.land_ones with (n := 8), Z.shiftr_div_pow2, Z.shiftl_mul_pow2 by lia.
  change (2 ^ 8) with 256. rewrite (Z.mod_small (peer / 256)) by (split; [apply Z.div_pos; lia|apply Z.div_lt_upper_bound; lia]).
  rewrite (Z.div_mod peer 256) at 3 by lia. lia.
Qed.

Lemma cancel_key_survives_hops_witness :
  let key := make_cancel_key 517 [1; 2; 3; 4; 5; 6; 7; 8] in
  key_peer key = 517 /\ restore_ttl (spend_ttl (spend_ttl key)) = key.
Proof.
  destruct (cancel_key_survives_hops 517 [1; 2; 3; 4; 5; 6; 7; 8] 0) as (H1 & _); [done|repeat constructor; lia|lia|lia|].
  destruct (cancel_key_survives_hops 517 [1; 2; 3; 4; 5; 6; 7; 8] 2) as (_ & _ & H2); [done|repeat constructor; lia|lia|lia|].
  split; [exact H1|exact H2].
Defined.

Section Cancel.
Context `{Realloc} {K : Type} (E : ObjEnv K) (cf : Config).

#[local] Abbreviation M := (SM (World K)).

(** ** Peers *)

Fixpoint find_peer_in (peer_id : Z) (l : list positive) : M (option positive) :=
  match l with
  | [] => mret None
  | p :: l => d ← db_get p; if decide (db_peer_id d = peer_id) then mret (Some p) else find_peer_in peer_id l
  end.

Definition find_peer (peer_id : Z) : M (option positive) := w ← getS; find_peer_in peer_id (w_peer_list w).

(** A zeroed pool of [db] without a user.  The order of [peer_pool_list],
    which only the console shows, is not kept. *)
Definition new_peer_pool (db : positive) : M (option positive) :=
  ok ← ask_kernel (oe_alloc E);
  if negb ok then mret None
  else
    w ← getS;
    let pool := fresh (dom (w_pools w)) in
    _ ← modS (fun w => set_pools (<[pool := mkPgPool db None 0 0 0 false [] false false 0 0 0 0]> (w_pools w)) w);
    mret (Some pool).

Definition get_peer_pool (db : positive) : M (option positive) :=
  d ← db_get db;
  match db_peer_pool d with
  | Some p => mret (Some p)
  | None =>
      p ← new_peer_pool db;
      _ ← db_mod db (set_db_peer_pool p);
      mret p
  end.

(** ** Accepting a request *)

Definition pause_cancel_request (client : positive) : M unit :=
  k ← sk_get client;
  _ ← AssertS (bool_decide (sk_state k = CL_LOGIN));
  _ ← change_client_state client CL_WAITING_CANCEL;
  ok ← pause_sbuf E cf client;
  if ok : bool then mret tt else disconnect_c E cf client true (str "pause cancel request failed").

Definition accept_cancel_request_for_peer (peer_id : Z) (req : positive) : M unit :=
  k ← sk_get req;
  if bool_decide (key_ttl (sk_cancel_key k) = 0) then
    disconnect_c E cf req false (str "failed to forward cancel request because its TTL was exhausted")
  else
    _ ← sk_mod req (set_cancel_key (spend_ttl (sk_cancel_key k)));
    peer ← find_peer peer_id;
    match peer with
    | None => disconnect_c E cf req false (str "could not find peer to forward request to")
    | Some peer =>
        pool ← get_peer_pool peer;
        match pool with
        | None => disconnect_c E cf req false (str "out of memory")
        | Some pool =>
            _ ← sk_mod req (set_pool (Some pool));
            _ ← pause_cancel_request req;
            launch_new_connection E cf pool true
        end
    end.

(** The client of list [l] that has the key. *)
Fixpoint find_key_in (key : list Z) (l : list positive) : M (option positive) :=
  match l with
  | [] => mret None
  | c :: l => k ← sk_get c; if decide (sk_cancel_key k = key) then mret (Some c) else find_key_in key l
  end.

(** The client with the key and the pool it was found in. *)
Fixpoint find_key (key : list Z) (pools : list positive) : M (option (positive * positive)) :=
  match pools with
  | [] => mret None
  | p :: pools =>
      active ← sockets_in (PoolSlot p active_client_list);
      c ← find_key_in key active;
      match c with
      | Some c => mret (Some (p, c))
      | None =>
          waiting ← sockets_in (PoolSlot p waiting_client_list);
          c ← find_key_in key waiting;
          match c with
          | Some c => mret (Some (p, c))
          | None => find_key key pools
          end
      end
  end.

(** src/admin.c: ends a PAUSE or SUSPEND the console client waits for. *)
Definition admin_handle_cancel (admin : positive) : M unit :=
  _ ← sk_get admin;
  if decide (cf_shutdown cf <> SHUTDOWN_NONE) then mret tt else modS (set_pause_mode P_NONE).

(** From the label [found]. *)
Definition cancel_query_of (req pool main_client : positive) : M unit :=
  km ← sk_get main_client;
  mp ← found (sk_pool km);
  mpool ← pl_get mp;
  d ← db_get (pl_db mpool);
  if db_admin d then
    _ ← disconnect_c E cf req false (str "cancel request for console client");
    admin_handle_cancel main_client
  else
    match sk_link km with
    | None => disconnect_c E cf req false (str "cancel request for idle client")
    | Some server =>
        ks ← sk_get server;
        if sk_setting_vars ks then
          disconnect_c E cf req false (str "ignoring cancel request for server that is setting vars")
        else
          _ ← sk_mod req (set_canceled_server (Some server));
          _ ← sk_mod server (fun k => set_canceling_clients (sk_canceling_clients k ++ [req]) k);
          _ ← sk_mod req (set_pool (Some pool));
          _ ← pause_cancel_request req;
          launch_new_connection E cf pool true
    end.

Definition accept_cancel_request (req : positive) : M unit :=
  k ← sk_get req;
  _ ← AssertS (bool_decide (sk_state k = CL_LOGIN));
  let peering_enabled := bool_decide (cf_peer_id cf > 0) in
  let peer_id := key_peer (sk_cancel_key k) in
  if peering_enabled && bool_decide (cf_peer_id cf <> peer_id) then accept_cancel_request_for_peer peer_id req
  else
    _ ← (if peering_enabled then sk_mod req (set_cancel_key (restore_ttl (sk_cancel_key k))) else mret tt);
    k ← sk_get req;
    w ← getS;
    found ← find_key (sk_cancel_key k) (w_pool_list w);
    match found with
    | None => disconnect_c E cf req false (str "failed cancel request")
    | Some (pool, main_client) => cancel_query_of req pool main_client
    end.

(** ** Sending it on *)

Definition forward_cancel_request (server : positive) : M unit :=
  ks ← sk_get server;
  p ← found (sk_pool ks);
  req ← first_socket (PoolSlot p waiting_cancel_req_list);
  pool ← pl_get p;
  d ← db_get (pl_db pool);
  let forwarding_to_peer := bool_decide (db_peer_id d <> 0) in
  req ← lift (match req with Some r => Ok r | None => Fatal end);
  kr ← sk_get req;
  _ ← AssertS (bool_decide (sk_state kr = CL_WAITING_CANCEL));
  _ ← AssertS (bool_decide (sk_state ks = SV_LOGIN));
  _ ← sk_mod server (set_link (Some req));
  _ ← sk_mod req (set_link (Some server));
  if negb forwarding_to_peer && bool_decide (sk_canceled_server kr = None) then
    disconnect_c E cf req false (str "not sending cancel request for client that is now idle")
  else
    key ← (if forwarding_to_peer then mret (sk_cancel_key kr)
           else t ← found (sk_canceled_server kr); kt ← sk_get t; mret (sk_cancel_key kt));
    res ← SEND_wrap E 16 server (fun b => pktbuf_write_CancelRequest b key);
    if negb res then disconnect_c E cf req false (str "failed to send cancel request")
    else
      _ ← change_client_state req CL_ACTIVE_CANCEL;
      _ ← change_server_state cf server SV_ACTIVE_CANCEL;
      oe_continue E server.

End Cancel.

Section CancelRefine.
Context `{Realloc} {K : Type} (E : ObjEnv K) `{!EnvOk E} (cf : Config).
Implicit Types w : World K.

Lemma vkeep_find_peer n : vkeep (@find_peer K n).
Proof using.
  unfold find_peer. apply vkeep_bind; [vkeep_solve|]. intros w. generalize (w_peer_list w) as l. clear w.
  induction l as [|p l IH]; cbn [find_peer_in]; [vkeep_solve|]. apply vkeep_bind; [vkeep_solve|]. intros d.
  case_decide; [vkeep_solve|done].
Qed.

(** Making a pool opens nothing and touches no socket. *)
Lemma new_peer_pool_wp d w :
  wp (new_peer_pool E d) (fun _ w' => rtc vstep (view w) (view w') /\ vs (view w') = vs (view w)) w.
Proof using.
  unfold new_peer_pool. apply wp_bind, wp_vkeep; [vkeep_solve|]. intros ok w1 Hv1. rewrite <- Hv1.
  destruct ok; cbn [negb]; [|by wgo]. apply wp_bind, wp_getS. apply wp_bind, wp_modS. apply wp_ret. split; [|done].
  set (p := fresh (dom (w_pools w1))).
  assert (Hp : w_pools w1 !! p = None) by (apply not_elem_of_dom, is_fresh).
  apply rtc_once. unfold view; cbn. rewrite fmap_insert. apply (VS_new_pool (view w1) p d None). cbn.
  by rewrite lookup_fmap, Hp.
Qed.

Lemma get_peer_pool_wp d w :
  wp (get_peer_pool E d) (fun _ w' => rtc vstep (view w) (view w') /\ vs (view w') = vs (view w)) w.
Proof using.
  unfold get_peer_pool. wstep. wstep. destruct (db_peer_pool db); [by wgo|].
  apply wp_bind. eapply wp_conseq; [apply new_peer_pool_wp|]. cbv beta. intros p w1 Hq.
  apply wp_bind, wp_vkeep; [vkeep_solve|]. intros _ w2 Hv2. wgo. by rewrite Hv2.
Qed.

(** A request is queued: it has the state [CL_WAITING_CANCEL] and a server
    connection is asked for. *)
Lemma queue_cancel_wp c p k w v :
  w_sockets w !! c = Some k -> sk_pool k = Some p ->
  v = vmove false c (k_slot (sview k)) (k_set_state CL_WAITING_CANCEL (sview k)) (view w) -> Inv v ->
  wp (_ ← pause_cancel_request E cf c; launch_new_connection E cf p true)
     (fun _ w' => runs (fun y => y = c) v (view w')) w.
Proof using All.
  intros Hc Hp Ev Hv. unfold pause_cancel_request. apply wp_bind. do 4 wstep. apply bool_decide_eq_true_1 in Has. apply wp_bind.
  eapply wp_conseq; [apply change_client_state_wp|]. cbn. intros _ w1 (k1 & Hk1 & _ & _ & Hm).
  rewrite Hc in Hk1. injection Hk1 as <-. rewrite Has in Hm. change (new_client_state _ _) with CL_WAITING_CANCEL in Hm.
  rewrite decide_False in Hm by done. destruct Hm as [_ Hm]. apply view_moved in Hm. rewrite <- Ev in Hm.
  apply wp_bind, wp_vkeep; [vkeep_solve|]. intros ok w2 Hv2. rewrite Hm in Hv2.
  apply (wp_conseq _ (fun _ w' => runs (fun y => y = c) v (view w'))).
  { destruct ok; [wgo; rewrite Hv2; apply runs_refl|]. rewrite <- Hv2 in Hv |- *. by apply (disconnect_c_wp E cf). }
  intros _ w3 Hr. eapply wp_conseq; [apply (launch_new_connection_wp E cf); by eapply runs_inv|]. cbn. intros _ w4 Hr'.
  eapply runs_trans; [exact Hr|]. eapply runs_mono; [exact Hr'|by intros ? []].
Qed.

Lemma accept_cancel_request_for_peer_wp n c k w :
  Inv (view w) -> w_sockets w !! c = Some k -> sk_state k = CL_LOGIN -> sk_link k = None ->
  wp (accept_cancel_request_for_peer E cf n c) (fun _ w' => runs (fun y => y = c) (view w) (view w')) w.
Proof using All.
  intros Hv Hc Hst Hl. unfold accept_cancel_request_for_peer. wstep. wstep.
  destruct (bool_decide _); [by apply (disconnect_c_wp E cf)|].
  apply wp_bind, wp_vkeep; [vkeep_solve|]. intros _ w1 Hv1.
  apply wp_bind, wp_vkeep; [apply vkeep_find_peer|]. intros peer w2 Hv2. rewrite Hv1 in Hv2.
  destruct peer as [d|]; [|rewrite <- Hv2 in Hv |- *; by apply (disconnect_c_wp E cf)].
  apply wp_bind. eapply wp_conseq; [apply get_peer_pool_wp|]. cbv beta. intros p w3 [Hr3 Hs3]. rewrite Hv2 in Hr3, Hs3.
  assert (Hruns : runs (fun y => y = c) (view w) (view w3)).
  { split; [done|]. intros y sty _ (ky & Hky & Hp). exists ky. by rewrite Hs3. }
  assert (Hv3 : Inv (view w3)) by (by eapply runs_inv).
  destruct p as [p|].
  2: { eapply wp_conseq; [by apply (disconnect_c_wp E cf)|]. cbn. intros _ w4 Hr4. by eapply runs_trans. }
  assert (Hk3 : vs (view w3) !! c = Some (sview k)) by (rewrite Hs3; by apply view_vs_some).
  apply view_vs_inv in Hk3 as (k3 & Hk3 & E3). injection E3 as F1 F2 F3 F4 F5 F6.
  apply wp_bind, wp_sk_mod. intros k4 Hk4. rewrite Hk3 in Hk4. injection Hk4 as <-.
  set (w4 := set_sockets _ _).
  assert (Hv4 : view w4 = vset c (k_set_pool (Some p) (sview k3)) (view w3)) by (unfold w4; by rewrite view_set).
  assert (Hs4 : vstep (view w3) (view w4)).
  { rewrite Hv4. apply VS_attach; [by apply view_vs_some|]. cbn. congruence. }
  set (k4 := set_pool (Some p) k3).
  assert (Hk4 : w_sockets w4 !! c = Some k4) by (unfold w4; cbn; by rewrite lookup_insert_eq).
  assert (Hs5 : vstep (view w4) (vmove false c (k_slot (sview k4)) (k_set_state CL_WAITING_CANCEL (sview k4)) (view w4))).
  { apply VS_move_client; [by apply view_vs_some|cbn; by rewrite <- F1, Hst|done| | |by eexists].
    { unfold link_fits; cbn. by rewrite <- F3, Hl. }
    cbn. rewrite <- F5. apply (no_canceled (vs (view w)) c (sview k)); [apply Hv|by apply view_vs_some|cbn; by rewrite Hst]. }
  eapply wp_conseq; [eapply (queue_cancel_wp c p k4); [done|done|done|]; eapply step_inv; [by eapply step_inv|done]|].
  cbn. intros _ w5 Hr5. eapply runs_trans; [exact Hruns|]. eapply runs_trans; [|exact Hr5].
  eapply runs_trans; apply runs_one; [done| |done|].
  - rewrite Hv4. intros y sty Hy (ky & Hky & Hp). exists ky. cbn in *. by rewrite lookup_insert_ne.
  - apply frame_move.
Qed.

(** What the search for a key finds. *)
Lemma find_key_in_wp key l w :
  wp (find_key_in key l) (fun o w' => w' = w /\ forall c, o = Some c -> c ∈ l /\
        exists k, w_sockets w !! c = Some k /\ sk_cancel_key k = key) w.
Proof using.
  induction l as [|c l IH]; cbn [find_key_in]; [by wgo|]. wstep. wstep. case_decide as Hk'.
  - wgo. split; [done|]. intros c' [= <-]. split; [by left|]. eauto.
  - eapply wp_conseq; [exact IH|]. cbn. intros o w' [-> Ho]. split; [done|]. intros c' Hc'.
    destruct (Ho c' Hc') as [? ?]. split; [by right|done].
Qed.

Lemma find_key_wp key ps w :
  wp (find_key key ps) (fun o w' => w' = w /\ forall p c, o = Some (p, c) ->
        (c ∈ lst (w_lists w) (PoolSlot p active_client_list) \/ c ∈ lst (w_lists w) (PoolSlot p waiting_client_list)) /\
        exists k, w_sockets w !! c = Some k /\ sk_cancel_key k = key) w.
Proof using.
  induction ps as [|p ps IH]; cbn [find_key]; [by wgo|]. apply wp_bind, wp_sockets_in, wp_bind.
  eapply wp_conseq; [apply find_key_in_wp|]. cbn. intros o w' [-> Ho]. destruct o as [c|].
  { wgo. split; [done|]. intros ? ? [= <- <-]. destruct (Ho c eq_refl). eauto. }
  apply wp_bind, wp_sockets_in, wp_bind.
  eapply wp_conseq; [apply find_key_in_wp|]. cbn. intros o w' [-> Ho']. destruct o as [c|]; [|exact IH].
  wgo. split; [done|]. intros ? ? [= <- <-]. destruct (Ho' c eq_refl). eauto.
Qed.

Lemma vmove_vset3 f x y o k a b a' v :
  x <> y -> vmove f x o k (vset x a (vset y b (vset x a' v))) = vmove f x o k (vset y b v).
Proof using.
  intros Hne. unfold vmove, vset; cbn. f_equal. rewrite insert_insert_eq, (insert_insert_ne _ y x) by done.
  by rewrite insert_insert_eq.
Qed.

(** The server of a client that waits or runs a query. *)
Lemma queried_server p m s km ks w :
  Inv (view w) -> w_sockets w !! m = Some km -> sk_link km = Some s -> w_sockets w !! s = Some ks ->
  m ∈ lst (w_lists w) (PoolSlot p active_client_list) \/ m ∈ lst (w_lists w) (PoolSlot p waiting_client_list) ->
  sk_state ks = SV_LOGIN \/ sk_state ks = SV_ACTIVE.
Proof using.
  intros Hv Hm Hl Hs Hin. destruct (link_partner m s km w Hv Hm Hl) as (_ & ks' & Hs' & _ & Hpair).
  rewrite Hs in Hs'. injection Hs' as <-.
  assert (Hmst : pool_list_of (sk_state km) = Some active_client_list \/ pool_list_of (sk_state km) = Some waiting_client_list).
  { destruct Hin as [Hin|Hin]; apply (in_pool_list (view w)) in Hin as (kv & Hkv & Hst & _); try done;
      rewrite (view_vs_some m km w Hm) in Hkv; injection Hkv as <-; auto. }
  unfold pair_ok in Hpair; cbn in Hpair. destruct (sk_state km), Hmst as [?|?]; try done;
    destruct (sk_state ks), Hpair as [?|?]; auto; done.
Qed.

Lemma cancel_query_of_wp c p m k w :
  Inv (view w) -> w_sockets w !! c = Some k -> sk_state k = CL_LOGIN -> sk_link k = None ->
  m ∈ lst (w_lists w) (PoolSlot p active_client_list) \/ m ∈ lst (w_lists w) (PoolSlot p waiting_client_list) ->
  wp (cancel_query_of E cf c p m) (fun _ w' => runs (fun y => y = c) (view w) (view w')) w.
Proof using All.
  intros Hv Hc Hst Hl Hin. unfold cancel_query_of. wstep. wstep. rename k0 into km, Hk into Hm.
  do 6 wstep. destruct (db_admin db).
  { apply wp_bind. eapply wp_conseq; [by apply (disconnect_c_wp E cf)|]. cbn. intros _ w1 Hr.
    unfold admin_handle_cancel. wstep. wstep. case_decide; [by wgo|]. by apply wp_modS. }
  destruct (sk_link km) as [s|] eqn:El; [|by apply (disconnect_c_wp E cf)].
  wstep. wstep. rename k0 into ks, Hk into Hs. destruct (sk_setting_vars ks); [by apply (disconnect_c_wp E cf)|].
  pose proof (queried_server p m s km ks w Hv Hm El Hs Hin) as Hss.
  assert (Hne : c <> s) by (intros Heq; rewrite Heq in Hc; simplify_eq; naive_solver congruence).
  do 6 wstep. set (w3 := set_sockets _ _). set (k4 := set_pool (Some p) (set_canceled_server (Some s) k)).
  assert (Hv3 : view w3 = vset c (sview k4) (vset s (k_set_canceling (sk_canceling_clients ks ++ [c]) (sview ks))
                            (vset c (k_set_canceled (Some s) (sview k)) (view w)))).
  { unfold w3, vset, view; cbn. by rewrite !fmap_insert. }
  set (v := vmove false c (k_slot (sview k)) (k_set_canceled (Some s) (k_set_pool (Some p)
              (k_set_state CL_WAITING_CANCEL (sview k))))
              (vset s (k_set_canceling (sk_canceling_clients ks ++ [c]) (sview ks)) (view w))).
  assert (Hstep : vstep (view w) v) by (apply VS_cancel; try done; by apply view_vs_some).
  eapply wp_conseq; [eapply (queue_cancel_wp c p k4 w3 v); [unfold w3; cbn; by rewrite lookup_insert_eq|done| |]|].
  - rewrite Hv3, vmove_vset3 by done. unfold v. f_equal. unfold k_slot, k4; cbn. by rewrite Hst.
  - by eapply step_inv.
  - cbn. intros _ w4 Hr. eapply runs_trans; [apply runs_one; [exact Hstep|]|exact Hr].
    intros y sty Hy (ky & Hky & Hp'). destruct (decide (y = s)) as [->|Hys].
    + eexists. cbn in *. rewrite lookup_insert_ne, lookup_insert_eq by done. split; [reflexivity|].
      rewrite lookup_fmap, Hs in Hky. by injection Hky as <-.
    + exists ky. cbn in *. by rewrite !lookup_insert_ne.
Qed.

(** A cancel request arrives on a connection that logs in and has no
    server. *)
Lemma accept_cancel_request_wp c k w :
  Inv (view w) -> w_sockets w !! c = Some k -> sk_link k = None ->
  wp (accept_cancel_request E cf c) (fun _ w' => runs (fun y => y = c) (view w) (view w')) w.
Proof using All.
  intros Hv Hc Hl. unfold accept_cancel_request. do 4 wstep. apply bool_decide_eq_true_1 in Has.
  destruct (_ && _); [by eapply accept_cancel_request_for_peer_wp|].
  apply wp_bind. apply (wp_conseq _ (fun _ w1 => view w1 = view w)).
  { destruct (bool_decide _); [|by wgo]. apply wp_vkeep; [vkeep_solve|done]. }
  intros _ w1 Hv1. destruct (same_view_lookup c k w w1 Hv1 Hc) as (k1 & Hk1 & E1). injection E1 as F1 F2 F3 F4 F5 F6.
  do 2 wstep. apply wp_bind, wp_getS, wp_bind. rewrite <- Hv1 in Hv |- *.
  eapply wp_conseq; [apply find_key_wp|]. cbn. intros o w2 [-> Ho].
  destruct o as [[p m]|]; [|by apply (disconnect_c_wp E cf)].
  destruct (Ho p m eq_refl) as [Hin _]. eapply (cancel_query_of_wp c p m k1); try done; congruence.
Qed.

(** The cancel requests that wait in pool [p] have no connection yet. *)
Definition cancels_wait p w : Prop :=
  forall r kr, r ∈ lst (w_lists w) (PoolSlot p waiting_cancel_req_list) -> w_sockets w !! r = Some kr -> sk_link kr = None.

Lemma vset_comm x y a b v : x <> y -> vset x a (vset y b v) = vset y b (vset x a v).
Proof using. intros Hne. unfold vset; cbn. f_equal. by rewrite insert_insert_ne. Qed.

(** The request and its connection change their states together. *)
Lemma start_forward_wp c s kc ks w :
  Inv (view w) -> w_sockets w !! c = Some kc -> w_sockets w !! s = Some ks ->
  sk_state kc = CL_WAITING_CANCEL -> sk_state ks = SV_LOGIN ->
  sk_link kc = Some s -> sk_link ks = Some c -> sk_canceling_clients ks = [] ->
  wp (_ ← change_client_state c CL_ACTIVE_CANCEL; _ ← change_server_state cf s SV_ACTIVE_CANCEL; oe_continue E s)
     (fun _ w' => runs (fun _ => False) (view w) (view w')) w.
Proof using All.
  intros Hv Hc Hs Hcst Hsst Hcl Hsl Hcan.
  assert (Hne : c <> s) by (intros Heq; rewrite Heq in Hc; simplify_eq; congruence).
  apply wp_bind. eapply wp_conseq; [apply change_client_state_wp|]. cbn. intros _ w1 (k1 & Hk1 & _ & _ & Hm1).
  rewrite Hc in Hk1. injection Hk1 as <-. rewrite Hcst in Hm1. change (new_client_state _ _) with CL_ACTIVE_CANCEL in Hm1.
  rewrite decide_False in Hm1 by done. destruct Hm1 as [_ Hm1].
  apply wp_bind. eapply wp_conseq; [apply change_server_state_wp|]. cbn. intros _ w2 (k2 & Hk2 & _ & _ & _ & Hm2).
  rewrite (moved_lookup _ _ _ _ _ _ _ Hm1), Hs in Hk2 by done. injection Hk2 as <-.
  apply view_moved in Hm1, Hm2. rewrite Hm1 in Hm2.
  assert (Hstep : vstep (view w) (view w2)).
  { rewrite Hm2. apply VS_forward; try done; by apply view_vs_some. }
  eapply wp_conseq; [apply continue_ok; by eapply step_inv|]. cbn. intros _ w3 Hr.
  apply (runs_not_parked s); [|intros st; apply (parked_not _ _ (sview ks)); [by apply view_vs_some|cbn; by rewrite Hsst]].
  eapply runs_trans; [apply runs_one; [exact Hstep|]|exact Hr].
  intros y sty Hy (ky & Hky & Hp'). exists ky. split; [|done]. rewrite Hm2. cbn in *.
  rewrite !lookup_insert_ne; [done| |congruence]. intros <-. rewrite lookup_fmap, Hc in Hky. injection Hky as <-.
  destruct Hp' as (_ & Hlk & _). cbn in Hlk. congruence.
Qed.

Lemma forward_cancel_request_wp s p ks w :
  Inv (view w) -> w_sockets w !! s = Some ks -> sk_pool ks = Some p -> sk_link ks = None ->
  sk_canceling_clients ks = [] -> cancels_wait p w ->
  wp (forward_cancel_request E cf s) (fun _ w' => runs (fun _ => False) (view w) (view w')) w.
Proof using All.
  intros Hv Hs Hp Hl Hcan Hwait. unfold forward_cancel_request. do 2 wstep.
  apply wp_bind, wp_found. rewrite Hp. intros ? [= <-]. unfold first_socket. do 8 wstep.
  apply wp_bind, wp_lift. intros c Hhead. destruct (head _) as [c'|] eqn:Eh; [|done]. injection Hhead as ->.
  do 2 wstep. rename k into kc, Hk into Hc. do 4 wstep.
  apply bool_decide_eq_true_1 in Has. apply bool_decide_eq_true_1 in Has0.
  assert (Hne : c <> s) by (intros Heq; rewrite Heq in Hc; simplify_eq; congruence).
  assert (Hcl : sk_link kc = None) by (eapply Hwait; [by apply head_elem|done]).
  do 4 wstep. set (w1 := set_sockets _ _). set (kc1 := set_link (Some s) kc). set (ks1 := set_link (Some c) ks).
  assert (Hc1 : w_sockets w1 !! c = Some kc1) by (unfold w1; cbn; by rewrite lookup_insert_eq).
  assert (Hs1 : w_sockets w1 !! s = Some ks1) by (unfold w1; cbn; by rewrite lookup_insert_ne, lookup_insert_eq).
  assert (Hv1 : view w1 = vset c (sview kc1) (vset s (sview ks1) (view w))) by (unfold w1; by rewrite view_set2).
  assert (Hstep : vstep (view w) (view w1)).
  { rewrite Hv1, vset_comm by done. apply (VS_link_cancel (view w) c s (sview kc) (sview ks)); try done; by apply view_vs_some. }
  assert (Hr1 : runs (fun _ => False) (view w) (view w1)).
  { apply runs_one; [done|]. intros y sty _ (ky & Hky & Hpk). exists ky. split; [|done]. rewrite Hv1. cbn in *.
    rewrite !lookup_insert_ne; [done| |]; intros <-; rewrite lookup_fmap, ?Hc, ?Hs in Hky; injection Hky as <-;
      destruct Hpk as (Hst & _ & _ & Hpk); cbn in Hst; rewrite ?Has, ?Has0 in Hst; by subst sty. }
  assert (Hdis : forall r w2, view w2 = view w1 ->
    wp (disconnect_c E cf c false r) (fun _ w' => runs (fun _ => False) (view w) (view w')) w2).
  { intros r w2 Hv2. eapply wp_conseq; [apply (disconnect_c_wp E cf); rewrite Hv2; by eapply step_inv|].
    cbn. intros _ w3 Hr. rewrite Hv2 in Hr. eapply runs_trans; [exact Hr1|]. apply (runs_not_parked c); [done|].
    intros st. apply (parked_linked_not _ _ (sview kc1)); [by apply view_vs_some|done]. }
  destruct (negb _ && _); [by apply Hdis|].
  apply wp_bind, wp_vkeep; [destruct (bool_decide _); vkeep_solve|]. intros key w2 Hv2.
  apply wp_bind, wp_vkeep; [apply vkeep_SEND_wrap|]. intros res w3 Hv3. rewrite Hv2 in Hv3.
  destruct res; cbn [negb]; [|by apply Hdis].
  destruct (same_view_lookup c kc1 w1 w3 Hv3 Hc1) as (kc3 & Hkc3 & E3). injection E3 as F1 F2 F3 F4 F5 F6.
  destruct (same_view_lookup s ks1 w1 w3 Hv3 Hs1) as (ks3 & Hks3 & E3). injection E3 as G1 G2 G3 G4 G5 G6.
  eapply wp_conseq; [apply (start_forward_wp c s kc3 ks3); try done; try congruence; rewrite Hv3; by eapply step_inv|].
  cbn. intros _ w4 Hr. rewrite Hv3 in Hr. by eapply runs_trans.
Qed.

End CancelRefine.
