(* ===== verification/Limits.v ===== *)
(** * The limits on server connections (src/objects.c, src/server.c)

    [launch_new_connection] opens a connection only where the pool, the
    database and the user have room, after closing idle connections where it
    may; the loops that close them end. *)

From S2P Require Import Prelude Protocol MBuf PktBuf Proto IOBuf SBuf PoolSpec World Objects Launch.
From stdpp Require Import base option countable gmap list strings.
#[local] Open Scope Z_scope.

(** ** What code leaves alone *)

Section Keeps.
Context {K T : Type} (g : World K -> T).
#[local] Abbreviation M := (SM (World K)).
Implicit Types w : World K.

Definition keeps {A} (m : M A) : Prop := forall w, wp m (fun _ w' => g w' = g w) w.

Lemma keeps_bind {A B} (m : M A) (f : A -> M B) : keeps m -> (forall a, keeps (f a)) -> keeps (m ≫= f).
Proof.
  intros Hm Hf w. apply wp_bind. eapply wp_conseq; [apply Hm|]. intros a w1 H1.
  eapply wp_conseq; [apply Hf|]. intros b w2 H2. cbn in *. congruence.
Qed.

Lemma keeps_ret {A} (a : A) : keeps (mret a).
Proof. intros w. by apply wp_ret. Qed.
Lemma keeps_lift {A} (r : res A) : keeps (lift r).
Proof. intros w. by apply wp_lift. Qed.
Lemma keeps_getS : keeps getS.
Proof. intros w. by apply wp_getS. Qed.
Lemma keeps_modS f : (forall w, g (f w) = g w) -> keeps (modS f).
Proof. intros Hf w. by apply wp_modS. Qed.
Lemma keeps_sk_mod x f : (forall m w, g (set_sockets m w) = g w) -> keeps (sk_mod x f).
Proof. intros Hg w. by apply wp_sk_mod. Qed.

End Keeps.

(** Follows the code; hints cover the functions it calls. *)
Create HintDb keeps discriminated.
Ltac keeps_step :=
  lazymatch goal with
  | |- keeps _ (mbind _ _) => apply keeps_bind; [|intros ?]
  | |- keeps _ (mret _) => apply keeps_ret
  | |- keeps _ (lift _) => apply keeps_lift
  | |- keeps _ (AssertS _) => apply keeps_lift
  | |- keeps _ (found _) => apply keeps_lift
  | |- keeps _ (fun _ => Undef) => by intros ? ? ?
  | |- keeps _ getS => apply keeps_getS
  | |- keeps _ (modS _) => apply keeps_modS; reflexivity
  | |- keeps _ (sk_mod _ _) => apply keeps_sk_mod; reflexivity
  | |- keeps _ (if ?b then _ else _) => destruct b
  | |- keeps _ (match ?x with _ => _ end) => destruct x
  | |- keeps _ (let '(_, _) := ?x in _) => destruct x
  | |- keeps _ _ => solve [auto with keeps]
  end.
Ltac keeps_solve := repeat keeps_step.

(** Reads of the store keep everything. *)
Section Reads.
Context {K T : Type} (g : World K -> T) (cf : Config).

Lemma keeps_sk_get x : keeps g (sk_get x).
Proof. unfold sk_get. keeps_solve. Qed.
Lemma keeps_pl_get x : keeps g (pl_get x).
Proof. unfold pl_get. keeps_solve. Qed.
Lemma keeps_db_get x : keeps g (db_get x).
Proof. unfold db_get. keeps_solve. Qed.
Lemma keeps_cr_get x : keeps g (cr_get x).
Proof. unfold cr_get. keeps_solve. Qed.
Lemma keeps_gu_get x : keeps g (gu_get x).
Proof. unfold gu_get. keeps_solve. Qed.
Lemma keeps_sockets_in s : keeps g (sockets_in s).
Proof. unfold sockets_in. keeps_solve. Qed.
Lemma keeps_time : keeps g get_cached_time.
Proof. unfold get_cached_time. keeps_solve. Qed.
Hint Resolve keeps_sk_get keeps_pl_get keeps_db_get keeps_cr_get keeps_gu_get keeps_sockets_in : keeps.

Lemma keeps_global_user_of c : keeps g (global_user_of c).
Proof. unfold global_user_of. keeps_solve. Qed.
Hint Resolve keeps_global_user_of : keeps.
Lemma keeps_user_setting {A} pool (x : A) f : keeps g (user_setting pool x f).
Proof. unfold user_setting. keeps_solve. Qed.
Hint Resolve keeps_user_setting : keeps.
Lemma keeps_pool_pool_size p : keeps g (pool_pool_size cf p).
Proof. unfold pool_pool_size. keeps_solve. Qed.
Lemma keeps_pool_res_pool_size p : keeps g (pool_res_pool_size cf p).
Proof. unfold pool_res_pool_size. keeps_solve. Qed.
Lemma keeps_statlist_count s : keeps g (statlist_count s).
Proof. unfold statlist_count. keeps_solve. Qed.
Lemma keeps_last_socket s : keeps g (last_socket s).
Proof. unfold last_socket. keeps_solve. Qed.
Lemma keeps_first_socket s : keeps g (first_socket s).
Proof. unfold first_socket. keeps_solve. Qed.
Lemma keeps_statlist_empty s : keeps g (statlist_empty s).
Proof. unfold statlist_empty. keeps_solve. Qed.
Hint Resolve keeps_statlist_count keeps_last_socket keeps_statlist_empty : keeps.
Lemma keeps_pool_server_count p : keeps g (pool_server_count p).
Proof. unfold pool_server_count, pool_connected_server_count. keeps_solve. Qed.
Lemma keeps_compare l r : keeps g (compare_connections_by_time l r).
Proof. unfold compare_connections_by_time. keeps_solve. Qed.
Hint Resolve keeps_pool_pool_size keeps_pool_server_count keeps_compare : keeps.
Lemma keeps_oldest mine l o : keeps g (oldest_of_pools mine l o).
Proof. revert o. induction l as [|p l IH]; intros o; cbn [oldest_of_pools]; keeps_solve. Qed.
Lemma keeps_pool_full p : keeps g (pool_full cf p).
Proof. unfold pool_full. keeps_solve. Qed.
Lemma keeps_db_full d n : keeps g (db_full d n).
Proof. unfold db_full. keeps_solve. Qed.
Lemma keeps_user_full d n : keeps g (user_full d n).
Proof. unfold user_full. keeps_solve. Qed.

End Reads.
#[export] Hint Resolve keeps_sk_get keeps_pl_get keeps_db_get keeps_cr_get keeps_gu_get keeps_sockets_in keeps_time
  keeps_global_user_of keeps_user_setting keeps_pool_pool_size keeps_pool_res_pool_size keeps_statlist_count
  keeps_last_socket keeps_first_socket keeps_statlist_empty keeps_pool_server_count keeps_compare keeps_oldest
  keeps_pool_full keeps_db_full keeps_user_full : keeps.

(** ** Settings *)

(** The part of the store that only the console and the configuration
    change: which pool is whose, and the settings of databases and users. *)
Definition db_conf (d : PgDatabase) : PgDatabase :=
  set_db_connection_count 0 (set_db_client_connection_count 0 (set_db_peer_pool None d)).
Definition gu_conf (u : PgGlobalUser) : PgGlobalUser :=
  set_gu_connection_count 0 (set_gu_client_connection_count 0 u).
Definition conf {K} (w : World K) :=
  ((fun r => (pl_db r, pl_user_credentials r)) <$> w_pools w, db_conf <$> w_dbs w, w_creds w, gu_conf <$> w_users w,
   w_pool_list w).

Section Conf.
Context `{Realloc} {K : Type} (E : ObjEnv K) (cf : Config).
Implicit Types w : World K.

Lemma fmap_insert_same {A B} (f : A -> B) (m : gmap positive A) x a a' :
  m !! x = Some a -> f a' = f a -> f <$> <[x := a']> m = f <$> m.
Proof. intros Hx Ha. rewrite fmap_insert, Ha, insert_id; [done|]. by rewrite lookup_fmap, Hx. Qed.

Lemma conf_db_mod d f : (forall r, db_conf (f r) = db_conf r) -> keeps (K := K) conf (db_mod d f).
Proof. intros Hf w. apply wp_db_mod. intros r Hr. unfold conf; cbn. by rewrite (fmap_insert_same _ _ _ r). Qed.

Lemma conf_gu_mod u f : (forall r, gu_conf (f r) = gu_conf r) -> keeps (K := K) conf (gu_mod u f).
Proof. intros Hf w. apply wp_gu_mod. intros r Hr. unfold conf; cbn. by rewrite (fmap_insert_same _ _ _ r). Qed.

Lemma conf_change_server_state s st : keeps (K := K) conf (change_server_state cf s st).
Proof.
  unfold change_server_state, remove_from_pool, append_to_pool, prepend_to_pool, in_pool, statlist_remove,
    statlist_append, statlist_prepend, server_free. keeps_solve.
Qed.

Lemma conf_drop_cancels s l : keeps (K := K) conf (drop_cancels s l).
Proof. induction l as [|c l IH]; cbn [drop_cancels]; keeps_solve. Qed.

Lemma conf_on_sbuf {A} x (m : SM (SBuf * K) A) : keeps conf (on_sbuf x m).
Proof. unfold on_sbuf. keeps_solve. Qed.

Lemma conf_count_connection n p : keeps (K := K) conf (count_connection n p).
Proof.
  unfold count_connection. apply keeps_bind; [keeps_solve|]. intros pool. apply keeps_bind; [by apply conf_db_mod|].
  intros _. destruct (pl_user_credentials pool); [|keeps_solve]. apply keeps_bind; [keeps_solve|]. intros u.
  by apply conf_gu_mod.
Qed.
Hint Resolve conf_change_server_state conf_drop_cancels conf_on_sbuf conf_count_connection : keeps.

Lemma conf_finish_disconnect s b : keeps conf (finish_disconnect E cf s b).
Proof. unfold finish_disconnect, answer_sbuf, close_sbuf. keeps_solve. Qed.

(** Closing an idle server. *)
Lemma conf_disconnect_idle s b r w :
  evictable s w -> wp (disconnect_s E cf s b r) (fun _ w' => conf w' = conf w) w.
Proof.
  intros (k & Hs & Hst). unfold disconnect_s, disconnect_depth. cbn [disconnect_server]. unfold disconnect_server_body.
  apply wp_bind. unfold leave_for_disconnect. apply wp_bind, wp_sk_get. intros k' Hk'. simplify_eq.
  destruct (sk_state k); try done; apply wp_ret; apply conf_finish_disconnect.
Qed.

End Conf.

(** ** Room for a connection *)

Lemma wp_and {S A} (m : SM S A) Q R s : wp m Q s -> wp m R s -> wp m (fun a s' => Q a s' /\ R a s') s.
Proof. intros HQ HR a s' Hm. auto. Qed.

Section Room.
Context `{Realloc} {K : Type} (E : ObjEnv K) (cf : Config).
#[local] Abbreviation M := (SM (World K)).
Implicit Types w : World K.

(** What an eviction routine does. *)
Definition evictor (m : M bool) : Prop :=
  forall w, Inv (view w) -> wp m (fun b w' => evicts_one b w w' /\ conf w' = conf w) w.

Lemma evict_oldest_conf o r w :
  candidate o w -> wp (evict_oldest E cf o r) (fun _ w' => conf w' = conf w) w.
Proof.
  intros Ho. unfold evict_oldest. destruct o as [s|]; [|by apply wp_ret]. apply wp_bind.
  eapply wp_conseq; [apply conf_disconnect_idle; auto|]. cbn. intros _ w' Hw. by apply wp_ret.
Qed.

Lemma evictor_connection d : evictor (evict_connection E cf d).
Proof.
  intros w Hv. apply wp_and; [by apply evict_connection_wp|]. unfold evict_connection. apply wp_bind, wp_getS, wp_bind.
  eapply wp_conseq; [by apply oldest_of_pools_wp|]. cbn. intros o w1 [-> Ho]. by apply evict_oldest_conf.
Qed.

Lemma evictor_user_connection c : evictor (evict_user_connection E cf c).
Proof.
  intros w Hv. apply wp_and; [by apply evict_user_connection_wp|]. unfold evict_user_connection.
  apply wp_bind, wp_getS, wp_bind.
  eapply wp_conseq; [by apply oldest_of_pools_wp|]. cbn. intros o w1 [-> Ho]. by apply evict_oldest_conf.
Qed.

Lemma evictor_pool_connection p : evictor (evict_pool_connection E cf p).
Proof.
  intros w Hv. apply wp_and; [by apply evict_pool_connection_wp|]. unfold evict_pool_connection. apply wp_bind.
  eapply wp_conseq; [apply last_candidate; auto|]. cbn. intros i w1 [-> Hi]. wgo. by apply evict_oldest_conf.
Qed.

(** The loop, and the test after it. *)
Lemma evict_while_room fuel b (full evict : M bool) w :
  keeps id full -> evictor evict -> Inv (view w) ->
  wp (evict_while fuel b full evict) (fun _ w' => evicts (view w) (view w') /\ conf w' = conf w) w.
Proof.
  intros Hfull Hevict. revert w. induction fuel as [|fuel IH]; intros w Hv; [done|]. cbn [evict_while].
  destruct (negb b); [apply wp_ret; by split; [apply evicts_refl|]|]. apply wp_bind.
  eapply wp_conseq; [apply Hfull|]. cbn. intros f w1 ->.
  destruct (negb f); [apply wp_ret; by split; [apply evicts_refl|]|]. apply wp_bind.
  eapply wp_conseq; [by apply Hevict|]. cbn. intros e w2 [[He _] Hc].
  destruct e; [|by apply wp_ret]. eapply wp_conseq; [apply IH; by eapply evicts_inv|]. cbn. intros _ w3 [He3 Hc3].
  split; [by eapply evicts_trans|congruence].
Qed.

Lemma limit_room (full evict : M bool) max b w :
  keeps id full -> evictor evict -> Inv (view w) ->
  wp (if bool_decide (max > 0) then _ ← evict_loop b full evict; full else mret false)
     (fun f w' => evicts (view w) (view w') /\ conf w' = conf w /\ (max > 0 -> full w' = Ok (f, w'))) w.
Proof.
  intros Hfull Hevict Hv. case_bool_decide; [|apply wp_ret; split; [apply evicts_refl|done]].
  apply wp_bind. unfold evict_loop. apply wp_bind, wp_getS. eapply wp_conseq; [by apply evict_while_room|].
  cbn. intros _ w1 [He Hc]. intros f w2 Hf. pose proof (Hfull w1 f w2 Hf) as Hid. cbn in Hid. subst w2. auto.
Qed.

(** The database and the user of the pool may have one more connection. *)
Definition db_room (d : positive) w : Prop :=
  forall r, w_dbs w !! d = Some r -> database_max_connections cf r > 0 ->
  db_connection_count r < database_max_connections cf r.
Definition user_room (u : positive) w : Prop :=
  forall g, w_users w !! u = Some g -> user_max_connections cf g > 0 -> gu_connection_count g < user_max_connections cf g.

Lemma conf_dbs w w' d r :
  conf w' = conf w -> w_dbs w' !! d = Some r -> exists r0, w_dbs w !! d = Some r0 /\ db_conf r0 = db_conf r.
Proof.
  intros Hc Hd. injection Hc as _ Hc _ _ _. assert (Hx : (db_conf <$> w_dbs w) !! d = Some (db_conf r)).
  { by rewrite <- Hc, lookup_fmap, Hd. }
  rewrite lookup_fmap in Hx. apply fmap_Some in Hx as (r0 & ? & ?). eauto.
Qed.

Lemma conf_users w w' u g :
  conf w' = conf w -> w_users w' !! u = Some g -> exists g0, w_users w !! u = Some g0 /\ gu_conf g0 = gu_conf g.
Proof.
  intros Hc Hd. injection Hc as _ _ _ Hc _. assert (Hx : (gu_conf <$> w_users w) !! u = Some (gu_conf g)).
  { by rewrite <- Hc, lookup_fmap, Hd. }
  rewrite lookup_fmap in Hx. apply fmap_Some in Hx as (r0 & ? & ?). eauto.
Qed.

Lemma db_conf_max r r' : db_conf r = db_conf r' -> database_max_connections cf r = database_max_connections cf r'.
Proof.
  intros Hc. apply (f_equal db_max_db_connections) in Hc. unfold database_max_connections. cbn in Hc. by rewrite Hc.
Qed.

Lemma gu_conf_max g g' : gu_conf g = gu_conf g' -> user_max_connections cf g = user_max_connections cf g'.
Proof.
  intros Hc. apply (f_equal gu_max_user_connections) in Hc. unfold user_max_connections. cbn in Hc. by rewrite Hc.
Qed.

(** Evictions do not take the room away. *)
Lemma db_room_evicts d w w' :
  Inv (view w) -> evicts (view w) (view w') -> conf w' = conf w -> db_room d w -> db_room d w'.
Proof.
  intros Hv He Hc Hroom r Hr Hmax. destruct (conf_dbs w w' d r Hc Hr) as (r0 & Hr0 & E0).
  apply db_conf_max in E0. rewrite <- E0 in Hmax |- *. specialize (Hroom r0 Hr0 Hmax).
  destruct (proj1 (evicts_counts _ _ Hv He) d (db_connection_count r0)) as (n' & Hn' & Hle);
    [cbn; by rewrite lookup_fmap, Hr0|]. cbn in Hn'. rewrite lookup_fmap, Hr in Hn'. injection Hn' as <-. lia.
Qed.

Lemma db_full_false d max w :
  db_full d max w = Ok (false, w) -> exists r, w_dbs w !! d = Some r /\ db_connection_count r < max.
Proof.
  assert (Hwp : wp (db_full d max) (fun f w' => f = false -> exists r, w_dbs w !! d = Some r /\ db_connection_count r < max) w).
  { unfold db_full. apply wp_bind, wp_db_get. intros r Hr. apply wp_ret. intros Hf. apply bool_decide_eq_false_1 in Hf.
    exists r. split; [done|lia]. }
  intros Hf. by apply (Hwp _ _ Hf).
Qed.

Lemma user_full_false u max w :
  user_full u max w = Ok (false, w) -> exists g, w_users w !! u = Some g /\ gu_connection_count g < max.
Proof.
  assert (Hwp : wp (user_full u max) (fun f w' => f = false -> exists g, w_users w !! u = Some g /\ gu_connection_count g < max) w).
  { unfold user_full. apply wp_bind, wp_gu_get. intros r Hr. apply wp_ret. intros Hf. apply bool_decide_eq_false_1 in Hf.
    exists r. split; [done|lia]. }
  intros Hf. by apply (Hwp _ _ Hf).
Qed.

Lemma make_room_wp p b w :
  Inv (view w) ->
  wp (make_room_for_server E cf p b) (fun ok w' => evicts (view w) (view w') /\ conf w' = conf w /\
     (ok = true -> exists pool c cr u, w_pools w !! p = Some pool /\ pl_user_credentials pool = Some c /\
        w_creds w !! c = Some cr /\ cr_global_user cr = Some u /\ db_room (pl_db pool) w' /\ user_room u w')) w.
Proof.
  intros Hv. unfold make_room_for_server. do 4 wstep. apply wp_bind.
  eapply wp_conseq; [apply limit_room; [keeps_solve|apply evictor_connection|done]|].
  cbn. intros full w1 (He1 & Hc1 & Hfull). destruct full; [by apply wp_ret|].
  assert (Hv1 : Inv (view w1)) by (by eapply evicts_inv).
  assert (Hroom : db_room (pl_db pl) w1).
  { intros r Hr Hmax. destruct (conf_dbs w w1 _ r Hc1 Hr) as (r0 & Hr0 & E0). apply db_conf_max in E0. simplify_eq.
    rewrite <- E0 in Hmax |- *. apply db_full_false in Hfull as (r1 & Hr1 & Hlt); [|done]. simplify_eq. lia. }
  apply wp_bind, wp_found. intros c Hc. apply wp_bind. unfold global_user_of. apply wp_bind, wp_cr_get. intros cr Hcr.
  apply wp_found. intros u Hu. apply wp_bind, wp_gu_get. intros g Hg. apply wp_bind.
  eapply wp_conseq; [apply limit_room; [keeps_solve|apply evictor_user_connection|done]|].
  cbn. intros full w2 (He2 & Hc2 & Hfull2). apply wp_ret. split; [by eapply evicts_trans|]. split; [congruence|].
  destruct full; [done|]. intros _. exists pl, c, cr, u. injection Hc1 as _ _ Hcr1 _ _. rewrite <- Hcr1.
  split_and!; try done; [by eapply db_room_evicts|].
  intros g2 Hg2 Hmax. destruct (conf_users w1 w2 _ g2 Hc2 Hg2) as (g0 & Hg0 & E0). apply gu_conf_max in E0. simplify_eq.
  rewrite <- E0 in Hmax |- *. apply user_full_false in Hfull2 as (g3 & Hg3 & Hlt); [|done]. simplify_eq. lia.
Qed.

(** ** When a connection is opened *)

Lemma wp_read {A} (m : M A) (Q : A -> World K -> Prop) w :
  keeps id m -> (forall a, m w = Ok (a, w) -> Q a w) -> wp m Q w.
Proof. intros Hm HQ a w' Ha. pose proof (Hm w a w' Ha) as Hw. cbn in Hw. subst w'. auto. Qed.

(** The number of servers and the size of pool [p]. *)
Definition pool_load (p : positive) w (pool : PgPool) (n size : Z) : Prop :=
  w_pools w !! p = Some pool /\ pool_server_count p w = Ok (n, w) /\ pool_pool_size cf pool w = Ok (size, w).

(** A connection that is opened without regard to the limits of database
    and user: to a peer, or for a waiting cancel request. *)
Definition forced p w : Prop :=
  exists pool d n size, pool_load p w pool n size /\ w_dbs w !! pl_db pool = Some d /\
    (db_peer_id d <> 0 /\ n < size \/
     lst (w_lists w) (PoolSlot p waiting_cancel_req_list) <> [] /\ n < 2 * size).

(** The pool itself has room, or its reserve has, or it has never had a
    server. *)
Definition pool_room p w : Prop :=
  exists pool n size, pool_load p w pool n size /\
    (size <= 0 \/ pl_welcome_msg_ready pool = false \/ n < size \/
     cf_res_pool_timeout cf <> 0 /\ exists res, pool_res_pool_size cf pool w = Ok (res, w) /\ n < size + res).

Definition decided p (d : launch_decision) w w' : Prop :=
  evicts (view w) (view w') /\ conf w' = conf w /\ (d <> LaunchNot -> no_new p (view w')) /\
  (d = ForceNew -> forced p w') /\ (d = AllowNew -> pool_room p w').

Lemma pool_full_false p w : pool_full cf p w = Ok (false, w) -> exists pool n size, pool_load p w pool n size /\ n < size.
Proof.
  assert (Hwp : wp (pool_full cf p) (fun f w' => f = false -> exists pool n size, pool_load p w pool n size /\ n < size) w).
  { unfold pool_full. apply wp_bind, wp_pl_get. intros pool Hp. apply wp_bind, wp_read; [keeps_solve|]. intros n Hn.
    apply wp_bind, wp_read; [keeps_solve|]. intros size Hs. apply wp_ret. intros Hf. apply bool_decide_eq_false_1 in Hf.
    exists pool, n, size. split; [done|lia]. }
  intros Hf. by apply (Hwp _ _ Hf).
Qed.

Lemma launch_when_full_decides p b pool n size w :
  Inv (view w) -> pool_load p w pool n size -> no_new p (view w) ->
  wp (launch_when_full E cf p b n) (fun d w' => decided p d w w') w.
Proof.
  intros Hv Hload Hno. unfold launch_when_full. pose proof Hload as (Hp & Hn & Hsize).
  apply wp_bind, wp_pl_get. intros pool' Hp'. simplify_eq.
  apply wp_bind, wp_read; [keeps_solve|]. intros c Hc. apply wp_bind, wp_read; [keeps_solve|]. intros size' Hs'. simplify_eq.
  apply wp_bind, wp_read; [keeps_solve|]. intros res Hres.
  assert (Hnot : decided p LaunchNot w w) by (split; [apply evicts_refl|done]).
  apply wp_bind. eapply (wp_conseq _ (fun r w' => w' = w /\ (r = true -> cf_res_pool_timeout cf <> 0 /\ n < size' + res))).
  { case_bool_decide as Ht; [|by apply wp_ret]. case_bool_decide; [|by apply wp_ret]. cbn [andb].
    apply wp_bind, wp_get_cached_time. destruct c as [c|]; [|by apply wp_ret]. apply wp_bind, wp_sk_get. intros k Hk.
    apply wp_ret. split; [done|]. intros Hb. apply andb_true_iff in Hb as [_ Hb]. by apply bool_decide_eq_true_1 in Hb. }
  intros reserve w1 [-> Hr]. destruct reserve.
  { apply wp_ret. destruct (Hr eq_refl) as [Ht Hlt]. split; [apply evicts_refl|]. split_and!; try done. intros _.
    exists pool, n, size'. split; [done|]. do 3 right. split; [done|]. by exists res. }
  destruct c as [c|]; [|by apply wp_ret]. apply wp_bind, wp_sk_get. intros k Hk.
  destruct (is_replication k && _); [|by apply wp_ret].
  apply wp_bind. unfold evict_loop. apply wp_bind, wp_getS. eapply wp_conseq;
    [apply evict_while_room; [keeps_solve|apply evictor_pool_connection|done]|].
  cbn. intros _ w2 [He2 Hc2]. apply wp_bind, wp_read; [keeps_solve|]. intros full Hfull. apply wp_ret.
  split; [done|]. split; [done|]. split; [intros _; by apply He2|]. destruct full; [done|]. split; [done|]. intros _.
  apply pool_full_false in Hfull as (pool2 & n2 & size2 & Hl2 & Hlt). exists pool2, n2, size2. auto.
Qed.

Lemma launch_decides p b w :
  Inv (view w) -> wp (launch_decide E cf p b) (fun d w' => decided p d w w') w.
Proof.
  intros Hv. unfold launch_decide.
  assert (Hnot : decided p LaunchNot w w) by (split; [apply evicts_refl|done]).
  unfold statlist_empty at 1. apply wp_bind, wp_bind, wp_sockets_in, wp_ret.
  case_bool_decide as Hno; cbn [negb]; [|by apply wp_ret].
  apply wp_bind, wp_pl_get. intros pool Hp. apply wp_bind, wp_get_cached_time.
  destruct (pl_last_connect_failed pool && _); [by apply wp_ret|].
  apply wp_bind, wp_read; [keeps_solve|]. intros n Hn. apply wp_bind, wp_db_get. intros d Hd.
  apply wp_bind, wp_read; [keeps_solve|]. intros size Hs.
  assert (Hload : pool_load p w pool n size) by done.
  case_bool_decide as Hpeer.
  { apply wp_ret. case_bool_decide as Hlt; [|done]. split; [apply evicts_refl|]. split_and!; try done. intros _.
    exists pool, d, n, size. auto. }
  unfold statlist_empty. apply wp_bind, wp_bind, wp_sockets_in, wp_ret.
  destruct (negb _ && _) eqn:Ec.
  { apply wp_ret. apply andb_true_iff in Ec as [Ec1 Ec2]. apply negb_true_iff, bool_decide_eq_false_1 in Ec1.
    apply bool_decide_eq_true_1 in Ec2. split; [apply evicts_refl|]. split_and!; try done. intros _.
    exists pool, d, n, size. auto. }
  destruct (_ && pl_welcome_msg_ready pool) eqn:Ew; [by eapply launch_when_full_decides|].
  apply wp_ret. split; [apply evicts_refl|]. split_and!; try done. intros _. exists pool, n, size. split; [done|].
  apply andb_false_iff in Ew as [Ew|Ew]; [|auto]. apply andb_false_iff in Ew as [Ew|Ew];
    apply bool_decide_eq_false_1 in Ew; [left; lia|do 2 right; left; lia].
Qed.
End Room.
