(* ===== verification/Terminate.v ===== *)
(** * The calls and loops of src/objects.c end

    Closing a connection may close or release others, which may call back:
    the depth [disconnect_depth] given to these calls is always enough.  The
    loops that evict idle connections and that look for a usable one end. *)

From S2P Require Import Prelude Protocol MBuf PktBuf Proto IOBuf SBuf PoolSpec World Objects Launch Limits.
From stdpp Require Import base option countable gmap list strings.
#[local] Open Scope Z_scope.

(** ** Code that always ends *)

Definition ends {S A} (m : SM S A) : Prop := forall s, m s <> NoFuel.

(** [tw m Q s]: run from [s], [m] ends, and with [Q] if it returns. *)
Definition tw {S A} (m : SM S A) (Q : A -> S -> Prop) (s : S) : Prop :=
  match m s with Ok (a, s') => Q a s' | NoFuel => False | _ => True end.

Section Ends.
Context {S : Type}.

Lemma ends_bind {A B} (m : SM S A) (k : A -> SM S B) : ends m -> (forall a, ends (k a)) -> ends (m ≫= k).
Proof.
  intros Hm Hk s Hn. unfold mbind, SM_bind in Hn. specialize (Hm s). destruct (m s) as [[a s']| | |]; try done.
  by apply (Hk a s').
Qed.

Lemma ends_ret {A} (a : A) : ends (S := S) (mret a).
Proof. by intros s. Qed.
Lemma ends_lift {A} (r : res A) : r <> NoFuel -> ends (S := S) (lift r).
Proof. intros Hr s. unfold lift. by destruct r. Qed.
Lemma ends_getS : ends (S := S) getS.
Proof. by intros s. Qed.
Lemma ends_modS f : ends (S := S) (modS f).
Proof. by intros s. Qed.
Lemma ends_AssertS b : ends (S := S) (AssertS b).
Proof. apply ends_lift. by destruct b. Qed.

Lemma tw_bind {A B} (m : SM S A) (k : A -> SM S B) Q s :
  tw m (fun a s' => tw (k a) Q s') s -> tw (m ≫= k) Q s.
Proof. unfold tw, mbind, SM_bind. by destruct (m s) as [[a s']| | |]. Qed.

Lemma tw_ends {A} (m : SM S A) Q s : tw m Q s -> m s <> NoFuel.
Proof. unfold tw. intros Ht Hn. by rewrite Hn in Ht. Qed.

Lemma tw_wp {A} (m : SM S A) Q s : m s <> NoFuel -> wp m Q s -> tw m Q s.
Proof. unfold tw, wp. intros Hn Hw. destruct (m s) as [[a s']| | |]; auto. Qed.

Lemma tw_conseq {A} (m : SM S A) Q R s : tw m Q s -> (forall a s', Q a s' -> R a s') -> tw m R s.
Proof. unfold tw. intros Ht HQ. destruct (m s) as [[a s']| | |]; auto. Qed.

End Ends.

Create HintDb ends discriminated.
Ltac ends_step :=
  lazymatch goal with
  | |- ends (mbind _ _) => apply ends_bind; [|intros ?]
  | |- ends (mret _) => apply ends_ret
  | |- ends (AssertS _) => apply ends_AssertS
  | |- ends getS => apply ends_getS
  | |- ends (modS _) => apply ends_modS
  | |- ends (lift ?r) => apply ends_lift; (done || (destruct r; done) || (lazymatch r with context[match ?o with _ => _ end] => by destruct o end))
  | |- ends (fun _ => Undef) => by intros ? ?
  | |- ends (if ?b then _ else _) => destruct b
  | |- ends (match ?x with _ => _ end) => destruct x
  | |- ends (let '(_, _) := ?x in _) => destruct x
  | |- ends _ => solve [auto with ends]
  end.
Ltac ends_solve := repeat ends_step.

Section Store.
Context {K : Type} (cf : Config).
#[local] Abbreviation M := (SM (World K)).

Lemma ends_found {A} (o : option A) : ends (found (K := K) o).
Proof. unfold found. apply ends_lift. by destruct o. Qed.
Hint Resolve ends_found : ends.
Lemma ends_sk_get x : ends (sk_get (K := K) x).
Proof. unfold sk_get. ends_solve. Qed.
Lemma ends_pl_get x : ends (pl_get (K := K) x).
Proof. unfold pl_get. ends_solve. Qed.
Lemma ends_db_get x : ends (db_get (K := K) x).
Proof. unfold db_get. ends_solve. Qed.
Lemma ends_cr_get x : ends (cr_get (K := K) x).
Proof. unfold cr_get. ends_solve. Qed.
Lemma ends_gu_get x : ends (gu_get (K := K) x).
Proof. unfold gu_get. ends_solve. Qed.
Lemma ends_time : ends (get_cached_time (K := K)).
Proof. unfold get_cached_time. ends_solve. Qed.
Lemma ends_sockets_in x : ends (sockets_in (K := K) x).
Proof. unfold sockets_in. ends_solve. Qed.
Hint Resolve ends_sk_get ends_pl_get ends_db_get ends_cr_get ends_gu_get ends_time ends_sockets_in : ends.
Lemma ends_sk_mod x f : ends (sk_mod (K := K) x f).
Proof. unfold sk_mod. ends_solve. Qed.
Lemma ends_pl_mod x f : ends (pl_mod (K := K) x f).
Proof. unfold pl_mod. ends_solve. Qed.
Lemma ends_db_mod x f : ends (db_mod (K := K) x f).
Proof. unfold db_mod. ends_solve. Qed.
Lemma ends_gu_mod x f : ends (gu_mod (K := K) x f).
Proof. unfold gu_mod. ends_solve. Qed.
Lemma ends_first_socket x : ends (first_socket (K := K) x).
Proof. unfold first_socket. ends_solve. Qed.
Lemma ends_last_socket x : ends (last_socket (K := K) x).
Proof. unfold last_socket. ends_solve. Qed.
Lemma ends_statlist_empty x : ends (statlist_empty (K := K) x).
Proof. unfold statlist_empty. ends_solve. Qed.
Hint Resolve ends_sk_mod ends_pl_mod ends_db_mod ends_gu_mod ends_last_socket ends_statlist_empty : ends.
Lemma ends_statlist_remove s x : ends (statlist_remove (K := K) s x).
Proof. unfold statlist_remove. ends_solve. Qed.
Hint Resolve ends_statlist_remove : ends.
Lemma ends_change_client_state x st : ends (change_client_state (K := K) x st).
Proof.
  unfold change_client_state, remove_from_pool, append_to_pool, prepend_to_pool, in_pool, client_free,
    statlist_append, statlist_prepend. ends_solve.
Qed.
Lemma ends_change_server_state x st : ends (change_server_state (K := K) cf x st).
Proof.
  unfold change_server_state, remove_from_pool, append_to_pool, prepend_to_pool, in_pool, server_free,
    statlist_append, statlist_prepend. ends_solve.
Qed.
Lemma ends_global_user_of x : ends (global_user_of (K := K) x).
Proof. unfold global_user_of. ends_solve. Qed.
Hint Resolve ends_global_user_of : ends.
Lemma ends_user_setting {A} p (x : A) f : ends (user_setting (K := K) p x f).
Proof. unfold user_setting. ends_solve. Qed.
Hint Resolve ends_user_setting : ends.
Lemma ends_pool_pool_size p : ends (pool_pool_size (K := K) cf p).
Proof. unfold pool_pool_size. ends_solve. Qed.
Lemma ends_pool_server_lifetime p : ends (pool_server_lifetime (K := K) cf p).
Proof. unfold pool_server_lifetime. ends_solve. Qed.
Lemma ends_connection_pool_mode k : ends (connection_pool_mode (K := K) cf k).
Proof. unfold connection_pool_mode, probably_wrong_pool_pool_mode. ends_solve. Qed.
Lemma ends_compare l r : ends (compare_connections_by_time (K := K) l r).
Proof. unfold compare_connections_by_time. ends_solve. Qed.
Hint Resolve ends_compare : ends.
Lemma ends_oldest mine l o : ends (oldest_of_pools (K := K) mine l o).
Proof. revert o. induction l as [|p l IH]; intros o; cbn [oldest_of_pools]; ends_solve. Qed.

End Store.
#[export] Hint Resolve ends_found ends_sk_get ends_pl_get ends_db_get ends_cr_get ends_gu_get ends_time ends_sockets_in
  ends_sk_mod ends_pl_mod ends_db_mod ends_gu_mod ends_first_socket ends_last_socket ends_statlist_empty
  ends_statlist_remove ends_change_client_state ends_change_server_state ends_global_user_of ends_user_setting
  ends_pool_pool_size ends_pool_server_lifetime ends_connection_pool_mode ends_compare ends_oldest : ends.

(** ** Packets in fixed buffers *)

(** Building a packet in a fixed buffer allocates nothing. *)
Definition fixed_ok (r : res PktBuf) : Prop :=
  match r with Ok b => pb_fixed_buf b = true | NoFuel => False | _ => True end.

Section Fixed.
Context `{Realloc}.

Lemma fixed_bind r (k : PktBuf -> res PktBuf) :
  fixed_ok r -> (forall b, pb_fixed_buf b = true -> fixed_ok (k b)) -> fixed_ok (r ≫= k).
Proof. unfold fixed_ok. intros Hr Hk. by destruct r; cbn; [apply Hk| | |]. Qed.

Lemma fixed_make_room b n : pb_fixed_buf b = true -> fixed_ok (make_room b n).
Proof.
  intros Hb. unfold make_room. destruct (bool_decide _); [done|]. destruct (pb_failed b); [done|]. by rewrite Hb.
Qed.

Lemma fixed_store b bs : pb_fixed_buf b = true -> fixed_ok (pb_store b bs).
Proof. intros Hb. unfold pb_store, mem_store. by destruct (bool_decide _). Qed.

Lemma fixed_put_char b v : pb_fixed_buf b = true -> fixed_ok (pktbuf_put_char b v).
Proof.
  intros Hb. unfold pktbuf_put_char. apply fixed_bind; [by apply fixed_make_room|]. intros b1 Hb1.
  destruct (pb_failed b1); [done|by apply fixed_store].
Qed.

Lemma fixed_put_uint32 b v : pb_fixed_buf b = true -> fixed_ok (pktbuf_put_uint32 b v).
Proof.
  intros Hb. unfold pktbuf_put_uint32. apply fixed_bind; [by apply fixed_make_room|]. intros b1 Hb1.
  destruct (pb_failed b1); [done|by apply fixed_store].
Qed.

Lemma fixed_put_bytes b d n : pb_fixed_buf b = true -> fixed_ok (pktbuf_put_bytes b d n).
Proof.
  intros Hb. unfold pktbuf_put_bytes. destruct (bool_decide _); [done|]. apply fixed_bind; [by apply fixed_make_room|].
  intros b1 Hb1. destruct (pb_failed b1); [done|]. unfold mem_load. destruct (bool_decide _); [|done].
  cbn. by apply fixed_store.
Qed.

Lemma fixed_put_uint16 b v : pb_fixed_buf b = true -> fixed_ok (pktbuf_put_uint16 b v).
Proof.
  intros Hb. unfold pktbuf_put_uint16. apply fixed_bind; [by apply fixed_make_room|]. intros b1 Hb1.
  destruct (pb_failed b1); [done|]. apply fixed_bind; [by apply fixed_store|]. intros. by apply fixed_store.
Qed.

Lemma fixed_args b d ap : pb_fixed_buf b = true -> fixed_ok (pktbuf_write_args b d ap).
Proof.
  revert b ap. induction d as [|c d IH]; intros b ap Hb; cbn [pktbuf_write_args]; [done|].
  destruct (pktdesc_key_of c) as [[]|]; [..|done]; (destruct ap as [|[v|v|s|p|] ap]; try done).
  - apply fixed_bind; [by apply fixed_put_char|auto].
  - apply fixed_bind; [by apply fixed_put_uint16|auto].
  - apply fixed_bind; [by apply fixed_put_uint32|auto].
  - apply fixed_bind; [|auto]. unfold pktbuf_put_uint64. apply fixed_bind; [by apply fixed_put_uint32|].
    intros. by apply fixed_put_uint32.
  - apply fixed_bind; [by apply fixed_put_bytes|auto].
  - destruct ap as [|[] ap]; try done. apply fixed_bind; [by apply fixed_put_bytes|auto].
Qed.

Lemma fixed_generic b t d ap : pb_fixed_buf b = true -> fixed_ok (pktbuf_write_generic b t d ap).
Proof.
  intros Hb. unfold pktbuf_write_generic. apply fixed_bind; [|intros b1 Hb1; apply fixed_bind; [by apply fixed_args|]].
  - unfold pktbuf_start_packet. destruct (pb_failed b); [done|]. destruct (bool_decide _).
    + apply fixed_bind; [by apply fixed_put_char|]. intros. by apply fixed_put_uint32.
    + apply fixed_bind; [by apply fixed_put_uint32|]. intros. by apply fixed_put_uint32.
  - intros b2 Hb2. unfold pktbuf_finish_packet. destruct (pb_failed b2); [done|]. unfold mem_store.
    by destruct (bool_decide _).
Qed.

End Fixed.

(** ** The straight-line parts of closing and releasing *)

Section Parts.
Context `{Realloc} {K : Type} (E : ObjEnv K) (cf : Config).

Lemma ends_ask_kernel {A} (f : K -> A * K) : ends (ask_kernel f).
Proof. unfold ask_kernel. ends_solve. Qed.
Hint Resolve ends_ask_kernel : ends.

Lemma ends_on_sbuf {A} x (m : SM (SBuf * K) A) : ends m -> ends (on_sbuf x m).
Proof.
  intros Hm. unfold on_sbuf. apply ends_bind; [ends_solve|intros k]. apply ends_bind; [ends_solve|intros w].
  apply ends_bind; [apply ends_lift, Hm|]. intros [a [sb kn]]. ends_solve.
Qed.

Lemma ends_ask {A} (f : K -> A * K) : ends (@ask K A f).
Proof. intros s. unfold ask. by destruct (f s.2). Qed.
Lemma ends_sb : ends (@sb K).
Proof. by intros s. Qed.
Lemma ends_upd f : ends (@upd K f).
Proof. by intros s. Qed.
Hint Resolve ends_ask ends_sb ends_upd : ends.

Lemma ends_close_sbuf x : ends (close_sbuf E x).
Proof. apply ends_on_sbuf. unfold sbuf_close. ends_solve. Qed.
Lemma ends_answer_sbuf x bs : ends (answer_sbuf E x bs).
Proof. apply ends_on_sbuf. unfold sbuf_answer, send_to. ends_solve. Qed.
Lemma ends_pause_sbuf x : ends (pause_sbuf E cf x).
Proof. apply ends_on_sbuf. unfold sbuf_pause, AssertActive, AssertSanity. ends_solve. Qed.

Lemma ends_send_immediate x b : ends (send_immediate E x b).
Proof.
  unfold send_immediate. apply ends_bind; [ends_solve|intros _]. destruct (pb_failed b); [ends_solve|].
  apply ends_bind; [apply ends_lift; unfold mem_load; by destruct (bool_decide _)|]. intros bs. ends_solve.
Qed.

Lemma ends_SEND_wrap n x t d ap : ends (SEND_wrap E n x (fun b => pktbuf_write_generic b t d ap)).
Proof.
  unfold SEND_wrap. apply ends_bind; [|intros b; apply ends_send_immediate]. apply ends_lift.
  pose proof (fixed_generic (pktbuf_static (replicate (Z.to_nat n) 0) n) t d ap eq_refl) as Hf.
  unfold fixed_ok in Hf. by destruct (pktbuf_write_generic _ _ _ _).
Qed.

Lemma ends_send_error x st msg : ends (send_error E x st msg).
Proof.
  unfold send_error. apply ends_bind; [|intros b; apply ends_send_immediate]. apply ends_lift.
  unfold pooler_error_buf. match goal with |- context[pktbuf_write_generic ?b ?t ?d ?ap] =>
    pose proof (fixed_generic b t d ap eq_refl) as Hf; by destruct (pktbuf_write_generic b t d ap) end.
Qed.
Hint Resolve ends_close_sbuf ends_answer_sbuf ends_send_error : ends.

Lemma ends_drop_waiting_cancels s l : ends (@drop_waiting_cancels K s l).
Proof. induction l as [|c l IH]; cbn [drop_waiting_cancels]; ends_solve. Qed.
Lemma ends_drop_cancels s l : ends (@drop_cancels K s l).
Proof. induction l as [|c l IH]; cbn [drop_cancels]; ends_solve. Qed.
Lemma ends_unlink_pair a b : ends (@unlink_pair K a b).
Proof. unfold unlink_pair. ends_solve. Qed.
Lemma ends_released_state k : ends (@released_state K cf k).
Proof. unfold released_state. ends_solve. Qed.
Hint Resolve ends_drop_waiting_cancels ends_drop_cancels ends_unlink_pair ends_released_state : ends.
Lemma ends_leave_old_state s : ends (@leave_old_state K cf s).
Proof. unfold leave_old_state. ends_solve. Qed.
Lemma ends_life_over s : ends (@life_over K cf s).
Proof. unfold life_over. ends_solve. Qed.
Lemma ends_count_connection n p : ends (@count_connection K n p).
Proof. unfold count_connection. ends_solve. Qed.
Lemma ends_uncount_client x : ends (@uncount_client K x).
Proof. unfold uncount_client. ends_solve. Qed.
Lemma ends_free_client_parts x : ends (@free_client_parts K x).
Proof. unfold free_client_parts. ends_solve. Qed.
Hint Resolve ends_count_connection ends_free_client_parts : ends.
Lemma ends_finish_client c n st r : ends (finish_client E c n st r).
Proof. unfold finish_client. ends_solve. Qed.
Lemma ends_finish_disconnect s b : ends (finish_disconnect E cf s b).
Proof. unfold finish_disconnect. ends_solve. Qed.
Lemma ends_wake_client c : ends (@wake_client K c).
Proof. unfold wake_client. ends_solve. Qed.

End Parts.
#[export] Hint Resolve ends_ask_kernel ends_close_sbuf ends_answer_sbuf ends_pause_sbuf ends_send_immediate
  ends_SEND_wrap ends_send_error ends_drop_waiting_cancels ends_drop_cancels ends_unlink_pair ends_released_state
  ends_leave_old_state ends_life_over ends_count_connection ends_uncount_client ends_free_client_parts
  ends_finish_client ends_finish_disconnect ends_wake_client : ends.

(** ** The depth of the calls *)

Definition stops {S A} (m : SM S A) (s : S) : Prop := m s <> NoFuel.

Lemma stops_bind {S A B} (m : SM S A) (k : A -> SM S B) s :
  stops m s -> wp m (fun a s' => stops (k a) s') s -> stops (m ≫= k) s.
Proof.
  unfold stops, wp. intros Hm Hk Hn. unfold mbind, SM_bind in Hn. destruct (m s) as [[a s']| | |]; try done.
  by apply (Hk a s').
Qed.

Lemma stops_ends {S A} (m : SM S A) s : ends m -> stops m s.
Proof. intros Hm. apply Hm. Qed.

Lemma wp_stops {S A B} (m : SM S A) (k : A -> SM S B) s : (forall a, ends (k a)) -> wp m (fun a s' => stops (k a) s') s.
Proof. intros Hk a s' _. apply Hk. Qed.

(** The re-entrant calls return, on a consistent store. *)
Class EnvEnds {K} (E : ObjEnv K) : Prop := {
  continue_ends : forall x w, Inv (view w) -> stops (oe_continue E x) w;
  connect_ends : forall x w, Inv (view w) -> stops (oe_connect E x) w;
  resolve_ends : forall x w, Inv (view w) -> stops (oe_resolve E x) w
}.

Section Depth.
Context `{Realloc} {K : Type} (E : ObjEnv K) (cf : Config).
Implicit Types w : World K.

(** An unlinked server. *)
Lemma unlink_server_stops dc s k r w :
  w_sockets w !! s = Some k -> sk_link k = None -> stops (unlink_server dc s r) w.
Proof.
  intros Hs Hl. unfold unlink_server. apply stops_bind; [apply ends_sk_get|]. apply wp_sk_get. intros k' Hk'.
  simplify_eq. rewrite Hl. apply ends_ret.
Qed.

Lemma leave_unlinked_stops dc s b r k w :
  w_sockets w !! s = Some k -> sk_link k = None -> stops (leave_for_disconnect dc s b r) w.
Proof.
  intros Hs Hl. unfold leave_for_disconnect. apply stops_bind; [apply ends_sk_get|].
  apply wp_sk_get. intros k' Hk'. simplify_eq.
  assert (Hu : forall w1 A (a : A), w_sockets w1 = w_sockets w -> stops (_ ← unlink_server dc s r; mret a) w1).
  { intros w1 A a Hs1. apply stops_bind; [|apply wp_stops; intros; apply ends_ret].
    eapply unlink_server_stops; [by rewrite Hs1|done]. }
  destruct (sk_state k); try (by apply Hu); try (apply ends_ret); try (by apply ends_lift).
  apply stops_bind; [apply ends_found|]. apply wp_found. intros p _. apply stops_bind; [apply stops_ends; ends_solve|].
  eapply wp_conseq with (Q := fun _ w1 => w_sockets w1 = w_sockets w); [destruct (negb (sk_ready k)); by wgo|].
  intros b' w1 Hs1. destruct (is_replication k); [by apply Hu|]. apply stops_ends; ends_solve.
Qed.

Lemma disconnect_unlinked_stops n s b r k w :
  w_sockets w !! s = Some k -> sk_link k = None -> stops (disconnect_server E cf (S n) s b r) w.
Proof.
  intros Hs Hl. cbn [disconnect_server]. unfold disconnect_server_body.
  apply stops_bind; [by eapply leave_unlinked_stops|apply wp_stops; intros; apply ends_finish_disconnect].
Qed.

(** A client without a server: only the end of a cancel request in flight
    releases another server, the one that waited for it. *)
Lemma forget_stops rs c k w :
  Inv (view w) -> w_sockets w !! c = Some k ->
  (forall s w1 ks1, sk_state k = CL_ACTIVE_CANCEL -> Inv (view w1) -> w_sockets w1 !! s = Some ks1 ->
     sk_state ks1 = SV_BEING_CANCELED -> stops (rs s) w1) ->
  stops (forget_canceled_server rs c) w.
Proof.
  intros Hv Hc Hrs. unfold forget_canceled_server. apply stops_bind; [apply ends_sk_get|].
  apply wp_sk_get. intros k' Hk'. simplify_eq.
  destruct (sk_canceled_server k) as [s|] eqn:Es; [|apply ends_ret].
  pose proof Hv as (_ & _ & Hcan & _ & Hheld & _).
  destruct (proj1 Hcan c (sview k) s) as (_ & ksv & Hksv & Hin); [by apply view_vs_some|done|].
  apply view_vs_inv in Hksv as (ks & Hks & ->). cbn in Hin.
  destruct (canceling_pair c s ks w Hv Hks Hin) as (Hne & _).
  apply stops_bind; [apply ends_sk_mod|]. wstep.
  apply stops_bind; [apply ends_sk_mod|]. wstep.
  rewrite insert_insert_ne by done.
  set (w1 := set_sockets _ w).
  assert (Hq : quiet (fun _ => False) (view w) (view w1)) by (by apply uncancel_quiet).
  apply stops_bind; [apply ends_sk_get|]. apply wp_sk_get. intros k0 Hk0.
  cbn in Hk0. rewrite lookup_insert_eq in Hk0. injection Hk0 as <-.
  destruct (bool_decide _ && bool_decide _) eqn:Eb; [|apply ends_ret].
  apply andb_prop in Eb as [Eb _]. apply bool_decide_eq_true_1 in Eb.
  apply stops_bind; [|apply wp_stops; intros; apply ends_ret].
  eapply Hrs; [|by eapply quiet_inv|cbn; by rewrite lookup_insert_eq|done].
  destruct (Hheld s (sview ks) (view_vs_some _ _ _ Hks) Eb c Hin) as (kc' & Hkc' & Hst).
  rewrite (view_vs_some c k w Hc) in Hkc'. by injection Hkc' as <-.
Qed.

Lemma leave_client_unlinked_stops ds rs c k w :
  Inv (view w) -> w_sockets w !! c = Some k -> sk_link k = None ->
  (forall s w1 ks1, sk_state k = CL_ACTIVE_CANCEL -> Inv (view w1) -> w_sockets w1 !! s = Some ks1 ->
     sk_state ks1 = SV_BEING_CANCELED -> stops (rs s) w1) ->
  stops (leave_client ds rs c) w.
Proof.
  intros Hv Hc Hl Hrs. unfold leave_client. apply stops_bind; [apply ends_sk_get|].
  apply wp_sk_get. intros k' Hk'. simplify_eq. rewrite Hl.
  assert (Hf : stops (_ ← mret tt; forget_canceled_server rs c) w).
  { apply stops_bind; [apply ends_ret|]. apply wp_ret. by eapply forget_stops. }
  destruct (sk_state k); try exact Hf; try (apply ends_ret); by apply ends_lift.
Qed.

Lemma disconnect_client_body_stops ds rs c n st r w :
  Inv (view w) -> (forall k w1, view w1 = view w -> w_sockets w1 !! c = Some k -> stops (leave_client ds rs c) w1) ->
  stops (disconnect_client_body E ds rs c n st r) w.
Proof.
  intros Hv Hl. unfold disconnect_client_body. apply stops_bind; [apply ends_uncount_client|].
  apply wp_vkeep; [vkeep_solve|]. intros _ w1 Hv1. apply stops_bind.
  - destruct (w_sockets w1 !! c) as [k1|] eqn:Hk1; [by eapply Hl|]. unfold leave_client, sk_get, found.
    unfold stops, mbind, SM_bind, getS, lift. cbn. by rewrite Hk1.
  - apply wp_stops. intros. apply ends_finish_client.
Qed.

Lemma disconnect_client_unlinked_stops n c notify r k w :
  Inv (view w) -> w_sockets w !! c = Some k -> sk_link k = None ->
  (forall s w1 ks1, sk_state k = CL_ACTIVE_CANCEL -> Inv (view w1) -> w_sockets w1 !! s = Some ks1 ->
     sk_state ks1 = SV_BEING_CANCELED -> stops (release_server E cf n s) w1) ->
  stops (disconnect_client E cf (S n) c notify r) w.
Proof.
  intros Hv Hc Hl Hrs. cbn [disconnect_client]. apply disconnect_client_body_stops; [done|].
  intros k1 w1 Hv1 Hk1. destruct (same_view_lookup c k w w1 Hv1 Hc) as (k1' & Hk1' & E1).
  rewrite Hk1 in Hk1'. injection Hk1' as <-.
  injection E1 as F1 F2 F3 F4 F5 F6.
  apply (leave_client_unlinked_stops _ _ _ k1); [by rewrite Hv1|done|congruence|].
  intros s w2 ks2 Hst. apply Hrs. congruence.
Qed.

(** A server linked to nothing, or to a client that is not a cancel request
    in flight. *)
Definition plainly_linked (s : positive) w : Prop :=
  exists k, w_sockets w !! s = Some k /\
    forall c, sk_link k = Some c -> exists kc, w_sockets w !! c = Some kc /\ sk_state kc <> CL_ACTIVE_CANCEL.

Lemma unlink_server_linked_stops dc s c k kc r w :
  w_sockets w !! s = Some k -> sk_link k = Some c -> w_sockets w !! c = Some kc -> c <> s ->
  (forall n r, stops (dc c n r) (cut c s kc k w)) -> stops (unlink_server dc s r) w.
Proof.
  intros Hs Hl Hc Hne Hdc. unfold unlink_server. apply stops_bind; [apply ends_sk_get|].
  apply wp_sk_get. intros k' Hk'. simplify_eq. rewrite Hl. apply stops_bind; [apply ends_unlink_pair|].
  apply (unlink_pair_wp c s kc k); [done|done|done|]. apply stops_bind; [apply ends_sk_get|].
  apply wp_sk_get. intros kc1 _. destruct (bool_decide _ || bool_decide _); [apply Hdc|].
  destruct (bool_decide _); apply Hdc.
Qed.

Lemma disconnect_server_body_stops dc s b r w :
  Inv (view w) ->
  (forall c k kc n r, w_sockets w !! s = Some k -> sk_link k = Some c -> w_sockets w !! c = Some kc -> c <> s ->
     forall w1, w_sockets w1 = w_sockets w -> view w1 = view w -> stops (dc c n r) (cut c s kc k w1)) ->
  stops (disconnect_server_body E cf dc s b r) w.
Proof.
  intros Hv Hdc. unfold disconnect_server_body.
  apply stops_bind; [|apply wp_stops; intros; apply ends_finish_disconnect].
  destruct (w_sockets w !! s) as [k|] eqn:Hs.
  2: { unfold leave_for_disconnect, sk_get, found, stops, mbind, SM_bind, getS, lift. cbn. by rewrite Hs. }
  destruct (sk_link k) as [c|] eqn:Hl; [|by eapply leave_unlinked_stops].
  destruct (link_partner s c k w Hv Hs Hl) as (Hne & kc & Hkc & Hlc & _).
  unfold leave_for_disconnect. apply stops_bind; [apply ends_sk_get|].
  apply wp_sk_get. intros k' Hk'. simplify_eq.
  assert (Hu : forall w1 A (a : A), w_sockets w1 = w_sockets w -> view w1 = view w ->
            stops (_ ← unlink_server dc s (ztake 127 r); mret a) w1).
  { intros w1 A a Hs1 Hv1. apply stops_bind; [|apply wp_stops; intros; apply ends_ret].
    eapply (unlink_server_linked_stops dc s c k kc); rewrite ?Hs1; auto. }
  destruct (sk_state k); try (by apply Hu); try (apply ends_ret); try (by apply ends_lift).
  apply stops_bind; [apply ends_found|]. apply wp_found. intros p _. apply stops_bind; [apply stops_ends; ends_solve|].
  eapply wp_conseq with (Q := fun _ w1 => view w1 = view w /\ w_sockets w1 = w_sockets w).
  { destruct (negb (sk_ready k)); wgo; (split; [|done]); rewrite ?insert_insert_eq; by eapply view_pool. }
  intros b' w1 [Hv1 Hs1]. destruct (is_replication k); [by apply Hu|]. apply stops_ends; ends_solve.
Qed.

End Depth.

Section Recursion.
Context `{Realloc} {K : Type} (E : ObjEnv K) `{!EnvOk E} `{!EnvEnds E} (cf : Config).
Implicit Types w : World K.

(** Two calls close a server that is not linked to a cancel request in
    flight. *)
Lemma disconnect_plainly_stops n s b r w :
  Inv (view w) -> plainly_linked s w -> stops (disconnect_server E cf (S (S n)) s b r) w.
Proof using.
  intros Hv (k & Hs & Hpl). change (stops (disconnect_server_body E cf (disconnect_client E cf (S n)) s b r) w).
  apply disconnect_server_body_stops; [done|].
  intros c k' kc nt r' Hs' Hl Hc Hne w1 Hs1 Hv1. rewrite Hs in Hs'. injection Hs' as <-.
  destruct (link_partner s c k w Hv Hs Hl) as (_ & kc' & Hkc' & Hlc & _). rewrite Hc in Hkc'. injection Hkc' as <-.
  eapply (disconnect_client_unlinked_stops E cf n c nt r' (set_link None kc)); [| |reflexivity|].
  - apply cut_inv; [by rewrite Hv1|by rewrite Hs1..|done|done].
  - cbn. rewrite lookup_insert_ne, lookup_insert_eq by done. done.
  - intros ? ? ? Ha. destruct (Hpl c Hl) as (kc' & Hkc' & Hst). rewrite Hc in Hkc'. injection Hkc' as <-. by destruct Hst.
Qed.

Lemma activate_client_stops c k w :
  Inv (view w) -> w_sockets w !! c = Some k ->
  (forall s, sk_link k = Some s -> exists ks, w_sockets w !! s = Some ks /\ sk_state ks = SV_ACTIVE) ->
  stops (activate_client E c) w.
Proof using All.
  intros Hv Hc Hl. apply stops_bind; [apply ends_wake_client|].
  eapply wp_conseq; [by eapply wake_client_wp|]. cbv beta. intros _ w2 (Hs & _). apply continue_ends. by eapply step_inv.
Qed.

Lemma reuse_on_release_stops s w : Inv (view w) -> stops (reuse_on_release E s) w.
Proof using All.
  intros Hv. unfold reuse_on_release. apply stops_bind; [apply ends_sk_get|]. wstep.
  apply stops_bind; [apply ends_found|]. wstep. apply stops_bind; [apply ends_AssertS|]. wstep.
  apply stops_bind; [apply ends_first_socket|]. unfold first_socket. wgo.
  destruct (head _) as [c|] eqn:Eh; [|apply ends_ret]. apply stops_bind; [apply ends_sk_get|]. wstep.
  destruct (negb (is_replication k0) || sending_auth_query k0) eqn:Eb; [|apply ends_ret].
  apply stops_bind; [|apply wp_stops; intros; ends_solve].
  eapply (activate_client_stops c k0); [done..|]. intros s'. by rewrite (waiting_unlinked p c k0 w).
Qed.

Lemma releasable_plainly s k w : releasable s k w -> plainly_linked s w.
Proof using.
  intros (Hs & _ & _ & Hw & _). exists k. split; [done|]. intros c Hc. destruct (Hw c Hc) as (_ & kc & Hkc & Hst).
  exists kc. split; [done|]. by destruct Hst as [-> | ->].
Qed.

Lemma reset_on_release_stops ds s k w :
  (forall b r w, Inv (view w) -> plainly_linked s w -> stops (ds s b r) w) ->
  Inv (view w) -> w_sockets w !! s = Some k -> sk_link k = None -> stops (reset_on_release E cf ds s) w.
Proof using.
  intros Hds Hv Hs Hl. unfold reset_on_release. apply stops_bind; [apply ends_sk_get|]. wstep.
  apply stops_bind; [apply ends_AssertS|]. wstep. apply stops_bind; [apply ends_SEND_wrap|].
  apply wp_vkeep; [vkeep_solve|]. intros res w2 Hv2.
  apply stops_bind; [|apply wp_stops; intros; apply ends_ret]. destruct res; [apply ends_ret|].
  apply Hds; [by rewrite Hv2|]. destruct (same_view_lookup s k w w2 Hv2 Hs) as (k2 & Hk2 & E2).
  injection E2 as F1 F2 F3 F4 F5 F6. exists k2. split; [done|]. congruence.
Qed.

Lemma finish_release_stops ds s k st w :
  (forall b r w, Inv (view w) -> plainly_linked s w -> stops (ds s b r) w) ->
  Inv (view w) -> releasable s k w -> st = SV_IDLE \/ st = SV_USED \/ st = SV_TESTED ->
  stops (finish_release E cf ds s st) w.
Proof using All.
  intros Hds Hv Hrel Hst. pose proof (releasable_plainly s k w Hrel) as Hpl.
  destruct Hrel as (Hs & Hlive & Hl & Hw & Hfl). unfold finish_release.
  apply stops_bind; [apply ends_sk_get|]. apply wp_sk_get. intros k' Hk'. simplify_eq.
  assert (Hds' : forall b r A (a : A), stops (_ ← ds s b r; mret a) w).
  { intros b r A a. apply stops_bind; [by apply Hds|apply wp_stops; intros; apply ends_ret]. }
  destruct (bool_decide (zlen (sk_outstanding_requests k) > 0)); [by apply Hds'|].
  destruct (sk_close_needed k); [by apply Hds'|].
  destruct (bool_decide (zlen (sk_canceling_clients k) > 0)) eqn:Ecan; [apply stops_ends; ends_solve|].
  assert (Hnil : sk_canceling_clients k = []).
  { apply bool_decide_eq_false_1 in Ecan. destruct (sk_canceling_clients k); [done|]. rewrite zlen_cons in Ecan. zlia. }
  destruct (is_replication k) eqn:Erep.
  - destruct (sk_link k) as [c|] eqn:Elk; [|by apply Hds'].
    destruct (Hw c eq_refl) as (_ & kc & Hkc & Hcw).
    destruct (link_partner s c k w Hv Hs Elk) as (Hne & kc' & Hkc' & Hlc & Hpair). simplify_eq.
    apply stops_bind; [apply ends_change_server_state|].
    eapply wp_conseq; [eapply (move_server_wp cf s _ k); try done; [|by left]|].
    + unfold link_fits; cbn. rewrite Elk. exists (sview kc). split; [by apply view_vs_some|]. right.
      unfold pair_ok in *; cbn [sview k_set_state v_state v_repl] in *.
      destruct Hcw as [Hcw|Hcw]; rewrite Hcw in *; destruct (sk_state k); destruct Hpair as [?|?]; try done.
    + cbn. intros _ w1 (Hq & k1 & Hk1 & Hvk1 & Hoth). injection Hvk1 as F1 F2 F3 F4 F5 F6.
      apply stops_bind; [|apply wp_stops; intros; apply ends_ret].
      eapply (activate_client_stops c kc); [by eapply quiet_inv|by rewrite Hoth|].
      rewrite Hlc. intros s' [= <-]. eauto.
  - apply stops_bind; [apply ends_AssertS|]. wstep. apply bool_decide_eq_true_1 in Has.
    apply stops_bind; [apply ends_change_server_state|].
    eapply wp_conseq; [eapply (move_server_wp cf s _ k); try done; [| | |by left]; try (by destruct Hst as [->|[->| ->]])|].
    + unfold link_fits; cbn. by rewrite Has.
    + cbn. intros _ w1 (Hq & k1 & Hk1 & Hvk1 & _). injection Hvk1 as F1 F2 F3 F4 F5 F6.
      assert (Hv1 : Inv (view w1)) by (by eapply quiet_inv).
      destruct (decide (st = SV_IDLE)); [by apply reuse_on_release_stops|].
      destruct (decide (st = SV_TESTED)); [|apply ends_ret].
      eapply (reset_on_release_stops ds s k1); [done..|congruence].
Qed.

Lemma release_server_body_stops ds s w :
  (forall b r w, Inv (view w) -> plainly_linked s w -> stops (ds s b r) w) ->
  Inv (view w) -> login_ready s (view w) -> stops (release_server_body E cf ds s) w.
Proof using All.
  intros Hds Hv Hready. unfold release_server_body. apply stops_bind; [apply ends_sk_get|]. wstep.
  apply stops_bind; [apply ends_found|]. wstep. apply stops_bind; [apply ends_AssertS|]. wstep.
  apply stops_bind; [apply ends_leave_old_state|].
  eapply wp_conseq; [by apply (leave_old_state_wp cf s k)|]. cbn. intros st w1 (Hv1 & Hst & Hlive & Hna).
  pose proof (released_inv s (view w) Hv) as Hinv1. rewrite <- Hv1 in *.
  apply stops_bind; [apply ends_sk_get|]. wstep. apply stops_bind; [apply ends_drop_waiting_cancels|].
  eapply wp_conseq; [eapply (drop_waiting_cancels_wp _ _ k0); [done|done| |by apply Forall_forall]|].
  { destruct Hinv1 as (_ & _ & (_ & _ & Hnd) & _). apply (Hnd s (sview k0)). by apply view_vs_some. }
  cbn. intros _ w2 Hleft.
  assert (exists k2, releasable s k2 w2) as [k2 Hrel2] by (by eapply (releasable_left s k k0 w w1 w2)).
  destruct Hleft as (Hq2 & _).
  apply stops_bind; [apply stops_ends; ends_solve|]. apply wp_vkeep; [vkeep_solve|]. intros over w3 Hv3.
  assert (Hinv3 : Inv (view w3)) by (rewrite Hv3; by eapply quiet_inv).
  assert (exists k3, releasable s k3 w3) as [k3 Hrel] by (by eapply releasable_same).
  destruct over; [|by eapply finish_release_stops].
  apply stops_bind; [apply Hds; [done|by eapply releasable_plainly]|apply wp_stops; intros; ends_solve].
Qed.

(** Three calls release a server. *)
Lemma release_server_stops n s w :
  Inv (view w) -> login_ready s (view w) -> stops (release_server E cf (S (S (S n))) s) w.
Proof using All.
  intros Hv Hr. cbn [release_server]. apply release_server_body_stops; [|done|done].
  intros. by apply disconnect_plainly_stops.
Qed.

Lemma held_login_ready s ks w :
  w_sockets w !! s = Some ks -> sk_state ks <> SV_LOGIN -> login_ready s (view w).
Proof using.
  intros Hs Hst ks0 c0 Hks0 Hlog. rewrite (view_vs_some s ks w Hs) in Hks0. injection Hks0 as <-. by cbn in Hlog.
Qed.
Lemma disconnect_client_linked_stops n c notify r w :
  Inv (view w) -> stops (disconnect_client E cf (S (S (S (S n)))) c notify r) w.
Proof using All.
  intros Hv. change (stops (disconnect_client_body E (disconnect_server E cf (S (S (S n))))
    (release_server E cf (S (S (S n)))) c notify None (Some (ztake 127 r))) w).
  apply disconnect_client_body_stops; [done|]. intros k w1 Hv1 Hc. rewrite <- Hv1 in Hv.
  assert (Hheld : forall s w2 ks2, Inv (view w2) -> w_sockets w2 !! s = Some ks2 ->
            sk_state ks2 = SV_BEING_CANCELED -> stops (release_server E cf (S (S (S n))) s) w2).
  { intros s w2 ks2 Hv2 Hs2 Hst. apply release_server_stops; [done|]. eapply held_login_ready; [done|by rewrite Hst]. }
  destruct (sk_link k) as [s|] eqn:Hl.
  2: { eapply leave_client_unlinked_stops; [done..|]. intros s w2 ks2 _. apply Hheld. }
  destruct (link_partner c s k w1 Hv Hc Hl) as (Hne & ks & Hks & Hls & Hpair).
  unfold leave_client. apply stops_bind; [apply ends_sk_get|]. apply wp_sk_get. intros k' Hk'.
  rewrite Hc in Hk'. injection Hk' as <-. rewrite Hl.
  assert (Hclose : forall b r, stops (_ ← unlink_pair s c; disconnect_server E cf (S (S (S n))) s b r) w1).
  { intros b r'. apply stops_bind; [apply ends_unlink_pair|]. apply (unlink_pair_wp s c ks k); [done|done|done|].
    eapply (disconnect_unlinked_stops E cf _ s b r' (set_link None ks)); [|reflexivity].
    cbn. rewrite lookup_insert_ne, lookup_insert_eq by done. done. }
  assert (Hcancel : forall r' : list Z, stops (_ ← (_ ← unlink_pair s c; _ ← sk_mod s (set_ready true);
            disconnect_server E cf (S (S (S n))) s false r'); forget_canceled_server (release_server E cf (S (S (S n)))) c) w1).
  { intros r'. apply stops_bind.
    - apply stops_bind; [apply ends_unlink_pair|]. apply (unlink_pair_wp s c ks k); [done|done|done|].
      apply stops_bind; [apply ends_sk_mod|]. apply wp_sk_mod. intros ks1 Hks1.
      cbn in Hks1. rewrite lookup_insert_ne, lookup_insert_eq in Hks1 by done. injection Hks1 as <-.
      eapply (disconnect_unlinked_stops E cf _ s false r' (set_ready true (set_link None ks))); [|reflexivity].
      cbn. by rewrite lookup_insert_eq.
    - apply wp_bind, (unlink_pair_wp s c ks k); [done|done|done|].
      apply wp_bind, wp_vkeep; [vkeep_solve|]. intros _ w2 Hv2.
      eapply wp_conseq; [eapply (close_partner_wp _ _ _ ks k); [|exact Hv|done..|exact Hv2]|].
      { intros s0 b0 r0 k0 w0 Hv0 Hs0 Hl0. eapply wp_conseq; [by eapply (disconnect_unlinked_wp E cf)|].
        by cbn; intros _ w' [? _]. }
      cbn. intros _ w3 (Hr & k3 & Hk3 & _). eapply forget_stops; [by eapply runs_inv|done|]. intros ? ? ? _. apply Hheld. }
  assert (Hact : sk_state k = CL_ACTIVE \/ sk_state k = CL_LOGIN -> stops (_ ← release_server E cf (S (S (S n))) s; mret tt) w1).
  { intros Hst. apply stops_bind; [|apply wp_stops; intros; apply ends_ret]. apply release_server_stops; [done|].
    eapply held_login_ready; [done|]. intros Hlog. unfold pair_ok in Hpair; cbn in Hpair. rewrite Hlog in Hpair.
    destruct Hst as [Hst|Hst]; rewrite Hst in Hpair; by destruct Hpair as [?|?]. }
  destruct (sk_state k) eqn:Est; try (by apply ends_lift); try (apply Hcancel);
    try (destruct (is_replication k); [apply Hclose|apply ends_ret]);
    (apply stops_bind; [apply ends_sk_get|]; apply wp_sk_get; intros ks' Hks'; rewrite Hks in Hks'; injection Hks' as <-;
     destruct (negb (sk_ready ks)); [apply Hclose|]; destruct (bool_decide _); [apply Hclose|];
     destruct (negb (sbuf_is_empty _)); [apply Hclose|]; auto).
Qed.

(** Closing the client of a cancel request may release a held server: five
    calls. *)
Lemma disconnect_server_stops n s b r w :
  Inv (view w) -> stops (disconnect_server E cf (S (S (S (S (S n))))) s b r) w.
Proof using All.
  intros Hv. change (stops (disconnect_server_body E cf (disconnect_client E cf (S (S (S (S n))))) s b r) w).
  apply disconnect_server_body_stops; [done|]. intros c k kc nt r' Hs Hl Hc Hne w1 Hs1 Hv1.
  destruct (link_partner s c k w Hv Hs Hl) as (_ & kc' & Hkc' & Hlc & _). rewrite Hc in Hkc'. injection Hkc' as <-.
  apply disconnect_client_linked_stops. apply cut_inv; [by rewrite Hv1|by rewrite Hs1..|done|done].
Qed.

End Recursion.

(** ** The loops *)

Section Loops.
Context `{Realloc} {K : Type} (E : ObjEnv K) (cf : Config).
#[local] Abbreviation M := (SM (World K)).
Implicit Types w : World K.

(** Closing an idle server leaves fewer servers, and shorter lists. *)
Lemma idle_counts s w :
  Inv (view w) -> evictable s w -> exists k, vs (view w) !! s = Some k /\ counts (view w) (fun _ => true) k = true.
Proof.
  intros (_ & _ & _ & Hcount & _) (k & Hs & Hst). exists (sview k). split; [by apply view_vs_some|].
  assert (Hlive : live_server (v_state (sview k)) = true) by (cbn; by destruct (sk_state k)).
  destruct (proj1 Hcount s (sview k)) as (p & Hp & pu & Hpu); [by apply view_vs_some|done|].
  unfold counts. rewrite Hlive, Hp. cbn [mbind option_bind]. by rewrite Hpu.
Qed.

Lemma closed_list_shorter s p l v v' :
  Inv v -> Inv v' -> quiet (fun y => y = s) v v' -> closed_server s v' -> s ∈ lst (vlists v) (PoolSlot p l) ->
  (length (lst (vlists v') (PoolSlot p l)) < length (lst (vlists v) (PoolSlot p l)))%nat.
Proof.
  intros Hv Hv' (_ & Hc & Hn & _) (ks & Hks & Hst) Hin.
  assert (Hsub : forall x, x ∈ lst (vlists v') (PoolSlot p l) -> x <> s /\ x ∈ lst (vlists v) (PoolSlot p l)).
  { intros x Hx. apply (proj1 (proj1 Hv')) in Hx as (k' & Hk' & Hslot).
    assert (Hne : x <> s) by (intros ->; rewrite Hks in Hk'; injection Hk' as <-; unfold k_slot in Hslot; by rewrite Hst in Hslot).
    split; [done|]. destruct (vs v !! x) as [k|] eqn:Hk; [|by rewrite (Hn x Hk) in Hk'].
    destruct (Hc x k Hne Hk) as (k2 & Hk2 & C1 & C2 & _). rewrite Hk' in Hk2. injection Hk2 as <-.
    apply (proj1 (proj1 Hv)). exists k. split; [done|]. unfold k_slot in *. by rewrite C1, C2 in Hslot. }
  assert (Hnd : NoDup (s :: lst (vlists v') (PoolSlot p l))).
  { constructor; [|apply Hv']. intros Hs. by apply Hsub in Hs as [? _]. }
  assert (Hle : (length (s :: lst (vlists v') (PoolSlot p l)) <= length (lst (vlists v) (PoolSlot p l)))%nat).
  { apply submseteq_length, NoDup_submseteq; [done|]. intros x [-> | Hx]%elem_of_cons; [done|by apply Hsub]. }
  cbn in Hle. lia.
Qed.

Lemma disconnect_idle_stops s b r w : Inv (view w) -> evictable s w -> stops (disconnect_s E cf s b r) w.
Proof.
  intros Hv (k & Hs & Hst). unfold disconnect_s, disconnect_depth.
  eapply disconnect_unlinked_stops; [done|by eapply evictable_unlinked].
Qed.

(** The search for a usable idle server tries each of them once. *)
Lemma usable_idle_server_stops n p w :
  Inv (view w) -> (length (lst (w_lists w) (PoolSlot p idle_server_list)) < n)%nat ->
  stops (usable_idle_server E cf n p) w.
Proof.
  revert w. induction n as [|n IH]; intros w Hv Hn; [lia|]. cbn [usable_idle_server].
  apply stops_bind; [apply ends_first_socket|]. unfold first_socket. wgo.
  destruct (head _) as [s|] eqn:Eh; [|apply ends_ret].
  destruct (first_idle p s w Hv Eh) as (k & Hk & Hst & _).
  apply stops_bind; [apply ends_sk_get|]. apply wp_sk_get. intros k' Hk'. simplify_eq.
  assert (Hev : evictable s w) by (exists k; by rewrite Hst).
  assert (Hclose : forall r, stops (_ ← disconnect_s E cf s true r; usable_idle_server E cf n p) w).
  { intros r. apply stops_bind; [by apply disconnect_idle_stops|].
    eapply wp_conseq; [by apply disconnect_idle_wp|]. cbv beta. intros _ w1 (He & Hq & Hcl).
    assert (Hv1 : Inv (view w1)) by (by eapply evicts_inv). apply IH; [done|].
    pose proof (closed_list_shorter s p idle_server_list _ _ Hv Hv1 Hq Hcl) as Hlt. cbn in Hlt.
    specialize (Hlt (head_elem _ _ Eh)). lia. }
  destruct (sk_close_needed k); [apply Hclose|]. destruct (negb (sk_ready k)); [apply Hclose|apply ends_ret].
Qed.

(** The eviction loop closes a server in each round. *)
Lemma evict_while_stops n b (full evict : M bool) w :
  keeps id full -> ends full -> evictor evict -> (forall w, Inv (view w) -> stops evict w) -> Inv (view w) ->
  nservers (view w) (fun _ => true) < Z.of_nat n -> stops (evict_while n b full evict) w.
Proof.
  intros Hfull Hfe Hevict Hee. revert w. induction n as [|n IH]; intros w Hv Hn.
  { unfold nservers in Hn. lia. }
  cbn [evict_while]. destruct (negb b); [apply ends_ret|]. apply stops_bind; [apply Hfe|].
  eapply wp_conseq; [apply Hfull|]. cbn. intros f w1 ->. destruct (negb f); [apply ends_ret|].
  apply stops_bind; [by apply Hee|]. eapply wp_conseq; [by apply Hevict|]. cbv beta. intros e w2 [[He Hone] _].
  destruct e; [|apply ends_ret]. destruct (Hone eq_refl) as (s & Hev & Hq & Hcl).
  destruct (idle_counts s w Hv Hev) as (k & Hk & Hkc).
  pose proof (close_nservers_lt s _ _ (fun _ => true) k Hq Hcl Hk Hkc). apply IH; [by eapply evicts_inv|lia].
Qed.

Lemma nservers_sockets w f : nservers (view w) f <= Z.of_nat (size (w_sockets w)).
Proof.
  unfold nservers. apply inj_le. rewrite <- !(size_dom (D := gset positive)). apply subseteq_size.
  intros x (k & Hk & _)%elem_counted. apply view_vs_inv in Hk as (k' & Hk' & _). by eapply elem_of_dom_2.
Qed.

Lemma evict_loop_stops b (full evict : M bool) w :
  keeps id full -> ends full -> evictor evict -> (forall w, Inv (view w) -> stops evict w) -> Inv (view w) ->
  stops (evict_loop b full evict) w.
Proof.
  intros Hfull Hfe Hevict Hee Hv. unfold evict_loop. apply stops_bind; [apply ends_getS|]. apply wp_getS.
  apply evict_while_stops; try done. pose proof (nservers_sockets w (fun _ => true)). lia.
Qed.

Lemma evict_oldest_stops o r w : Inv (view w) -> candidate o w -> stops (evict_oldest E cf o r) w.
Proof.
  intros Hv Ho. unfold evict_oldest. destruct o as [s|]; [|apply ends_ret].
  apply stops_bind; [apply disconnect_idle_stops; auto|apply wp_stops; intros; apply ends_ret].
Qed.

Lemma evict_connection_stops d w : Inv (view w) -> stops (evict_connection E cf d) w.
Proof.
  intros Hv. unfold evict_connection. apply stops_bind; [apply ends_getS|]. apply wp_getS.
  apply stops_bind; [apply ends_oldest|]. eapply wp_conseq; [by apply oldest_of_pools_wp|]. cbn.
  intros o w1 [-> Ho]. by apply evict_oldest_stops.
Qed.

Lemma evict_user_connection_stops c w : Inv (view w) -> stops (evict_user_connection E cf c) w.
Proof.
  intros Hv. unfold evict_user_connection. apply stops_bind; [apply ends_getS|]. apply wp_getS.
  apply stops_bind; [apply ends_oldest|]. eapply wp_conseq; [by apply oldest_of_pools_wp|]. cbn.
  intros o w1 [-> Ho]. by apply evict_oldest_stops.
Qed.

Lemma evict_pool_connection_stops p w : Inv (view w) -> stops (evict_pool_connection E cf p) w.
Proof.
  intros Hv. unfold evict_pool_connection. apply stops_bind; [apply ends_last_socket|].
  eapply wp_conseq; [apply last_candidate; auto|]. cbn. intros i w1 [-> Hi].
  apply stops_bind; [apply ends_ret|]. apply wp_ret. by apply evict_oldest_stops.
Qed.

End Loops.

(** ** Finding and opening servers *)

Section Finding.
Context `{Realloc} {K : Type} (E : ObjEnv K) `{!EnvOk E} `{!EnvEnds E} (cf : Config).
Implicit Types w : World K.

Lemma ends_statlist_count s : ends (@statlist_count K s).
Proof using. unfold statlist_count. ends_solve. Qed.
Hint Resolve ends_statlist_count : ends.
Lemma ends_pool_server_count p : ends (@pool_server_count K p).
Proof using. unfold pool_server_count, pool_connected_server_count. ends_solve. Qed.
Lemma ends_pool_res_pool_size p : ends (@pool_res_pool_size K cf p).
Proof using. unfold pool_res_pool_size. ends_solve. Qed.
Hint Resolve ends_pool_server_count ends_pool_res_pool_size : ends.
Lemma ends_pool_full p : ends (@pool_full K cf p).
Proof using. unfold pool_full. ends_solve. Qed.
Lemma ends_db_full d n : ends (@db_full K d n).
Proof using. unfold db_full. ends_solve. Qed.
Lemma ends_user_full u n : ends (@user_full K u n).
Proof using. unfold user_full. ends_solve. Qed.
Lemma ends_choose_host p : ends (@choose_host K p).
Proof using. unfold choose_host, next_host. ends_solve. Qed.

Lemma stops_read {A B} (m : SM (World K) A) (k : A -> SM (World K) B) w :
  ends m -> keeps id m -> (forall a, stops (k a) w) -> stops (m ≫= k) w.
Proof using.
  intros Hm Hk Hs. apply stops_bind; [apply Hm|]. eapply wp_conseq; [apply Hk|]. cbn. by intros a w' ->.
Qed.

Lemma launch_decide_stops p b w : Inv (view w) -> stops (launch_decide E cf p b) w.
Proof using.
  intros Hv. unfold launch_decide. apply stops_read; [ends_solve|keeps_solve|]. intros new.
  destruct (negb new); [apply ends_ret|]. apply stops_read; [ends_solve|keeps_solve|]. intros pool.
  apply stops_read; [ends_solve|keeps_solve|]. intros now. destruct (pl_last_connect_failed pool && _); [apply ends_ret|].
  apply stops_read; [ends_solve|keeps_solve|]. intros n. apply stops_read; [ends_solve|keeps_solve|]. intros d.
  apply stops_read; [ends_solve|keeps_solve|]. intros size. destruct (bool_decide (db_peer_id d <> 0)); [apply ends_ret|].
  apply stops_read; [ends_solve|keeps_solve|]. intros nocancel. destruct (negb nocancel && _); [apply ends_ret|].
  destruct (_ && pl_welcome_msg_ready pool); [|apply ends_ret]. unfold launch_when_full.
  apply stops_read; [ends_solve|keeps_solve|]. intros pool1. apply stops_read; [ends_solve|keeps_solve|]. intros c.
  apply stops_read; [ends_solve|keeps_solve|]. intros size1. apply stops_read; [ends_solve|keeps_solve|]. intros res.
  apply stops_read; [ends_solve|keeps_solve|]. intros reserve. destruct reserve; [apply ends_ret|].
  destruct c as [c|]; [|apply ends_ret]. apply stops_read; [ends_solve|keeps_solve|]. intros k.
  destruct (is_replication k && _); [|apply ends_ret].
  apply stops_bind; [|apply wp_stops; intros; pose proof ends_pool_full; ends_solve].
  apply evict_loop_stops; [keeps_solve|apply ends_pool_full|apply evictor_pool_connection| |done].
  intros. by apply evict_pool_connection_stops.
Qed.

Lemma limit_stops (full evict : SM (World K) bool) max b w :
  keeps id full -> ends full -> evictor evict -> (forall w, Inv (view w) -> stops evict w) -> Inv (view w) ->
  stops (if bool_decide (max > 0) then _ ← evict_loop b full evict; full else mret false) w.
Proof using.
  intros Hf He Hev Hes Hv. destruct (bool_decide _); [|apply ends_ret].
  apply stops_bind; [by apply evict_loop_stops|by apply wp_stops].
Qed.

Lemma make_room_stops p b w : Inv (view w) -> stops (make_room_for_server E cf p b) w.
Proof using.
  intros Hv. unfold make_room_for_server. apply stops_read; [ends_solve|keeps_solve|]. intros pool.
  apply stops_read; [ends_solve|keeps_solve|]. intros d. apply stops_bind.
  { apply limit_stops; [keeps_solve|apply ends_db_full|apply evictor_connection| |done].
    intros. by apply evict_connection_stops. }
  eapply wp_conseq; [apply limit_room; [keeps_solve|apply evictor_connection|done]|].
  cbv beta. intros full w1 (He1 & _). assert (Hv1 : Inv (view w1)) by (by eapply evicts_inv).
  destruct full; [apply ends_ret|]. apply stops_read; [ends_solve|keeps_solve|]. intros c.
  apply stops_read; [ends_solve|keeps_solve|]. intros u. apply stops_read; [ends_solve|keeps_solve|]. intros g.
  apply stops_bind; [|apply wp_stops; intros; apply ends_ret].
  apply limit_stops; [keeps_solve|apply ends_user_full|apply evictor_user_connection| |done].
  intros. by apply evict_user_connection_stops.
Qed.

Lemma dns_connect_stops s w : Inv (view w) -> stops (dns_connect E cf s) w.
Proof using All.
  intros Hv. unfold dns_connect.
  apply stops_bind; [apply ends_sk_get|]. apply wp_vkeep; [vkeep_solve|]. intros k w1 Hv1.
  apply stops_bind; [apply ends_found|]. apply wp_vkeep; [vkeep_solve|]. intros p w2 Hv2.
  apply stops_bind; [apply ends_choose_host|]. apply wp_vkeep; [vkeep_solve|]. intros host w3 Hv3.
  apply stops_bind; [apply stops_ends; ends_solve|]. apply wp_vkeep; [vkeep_solve|]. intros _ w4 Hv4.
  assert (Hv' : view w4 = view w) by congruence. rewrite <- Hv' in *.
  destruct host as [h|]; [destruct (_ || _); [|destruct (oe_inet_pton E _ h)]|case_decide];
    [by apply connect_ends|by apply connect_ends|by apply resolve_ends|by apply disconnect_server_stops|by apply connect_ends].
Qed.

Lemma ends_add_server p : ends (@add_server K cf p).
Proof using. unfold add_server. ends_solve. Qed.

Lemma open_server_stops p w : Inv (view w) -> no_new p (view w) -> stops (open_server E cf p) w.
Proof using All.
  intros Hv Hno. unfold open_server. apply stops_bind; [apply ends_ask_kernel|].
  apply wp_vkeep; [vkeep_solve|]. intros ok w1 Hv1. rewrite <- Hv1 in *. destruct ok; cbn [negb]; [|apply ends_ret].
  apply stops_bind; [apply ends_add_server|]. eapply wp_conseq; [by apply add_server_wp|]. cbv beta.
  intros s w2 (_ & Hstep & _). apply dns_connect_stops. by eapply step_inv.
Qed.

Lemma launch_new_connection_stops p b w : Inv (view w) -> stops (launch_new_connection E cf p b) w.
Proof using All.
  intros Hv. unfold launch_new_connection. apply stops_bind; [by apply launch_decide_stops|].
  eapply wp_conseq; [by apply launch_decide_wp|]. cbv beta. intros d w1 [He Hno].
  assert (Hv1 : Inv (view w1)) by (by eapply evicts_inv).
  destruct d; [apply ends_ret| |by apply open_server_stops; [|apply Hno]].
  apply stops_bind; [by apply make_room_stops|]. eapply wp_conseq; [by apply make_room_for_server_wp|].
  cbv beta. intros room w2 He2. destruct room; [|apply ends_ret].
  apply open_server_stops; [by eapply evicts_inv|by apply He2, Hno].
Qed.
Lemma disconnect_c_stops c n r w : Inv (view w) -> stops (disconnect_c E cf c n r) w.
Proof using All. intros Hv. by apply disconnect_client_linked_stops. Qed.

Lemma pause_client_stops c k w :
  Inv (view w) -> w_sockets w !! c = Some k -> sk_link k = None -> stops (pause_client E cf c) w.
Proof using All.
  intros Hv Hc Hl. unfold pause_client. apply stops_bind; [apply ends_sk_get|]. wstep.
  apply stops_bind; [apply ends_AssertS|]. wstep. apply active_state in Has.
  destruct (decide _); [by apply disconnect_c_stops|]. apply stops_bind; [apply ends_change_client_state|].
  eapply wp_conseq; [eapply (move_client_wp c CL_WAITING k); try done; by destruct Has as [-> | ->]|].
  cbv beta. intros _ w1 [Hq _]. apply stops_bind; [apply ends_pause_sbuf|]. apply wp_vkeep; [vkeep_solve|]. intros ok w2 Hv2.
  destruct ok; [apply ends_ret|]. apply disconnect_c_stops. rewrite Hv2. by eapply quiet_inv.
Qed.

Lemma check_fast_fail_stops c w : Inv (view w) -> stops (check_fast_fail E cf c) w.
Proof using All.
  intros Hv. unfold check_fast_fail. apply stops_read; [ends_solve|keeps_solve|]. intros k.
  destruct (sk_pool k) as [p|]; [|apply ends_ret]. apply stops_read; [ends_solve|keeps_solve|]. intros pool.
  destruct (negb (pl_last_login_failed pool)); [apply ends_ret|].
  apply stops_read; [ends_solve|keeps_solve|]. intros n. apply stops_read; [ends_solve|keeps_solve|]. intros new.
  destruct (bool_decide _); [apply ends_ret|]. apply stops_bind; [by apply disconnect_c_stops|].
  eapply wp_conseq; [by apply disconnect_c_wp|]. cbv beta. intros _ w1 Hr.
  apply stops_bind; [apply launch_new_connection_stops; by eapply runs_inv|apply wp_stops; intros; apply ends_ret].
Qed.

Lemma search_server_stops c p w : Inv (view w) -> stops (search_server E cf c p) w.
Proof using All.
  intros Hv. unfold search_server. apply stops_read; [ends_solve|keeps_solve|]. intros k.
  apply stops_read; [ends_solve|keeps_solve|]. intros pool. apply stops_read; [ends_solve|keeps_solve|]. intros d.
  apply stops_bind; [apply ends_getS|]. apply wp_getS.
  destruct (bool_decide _ || db_paused d); [apply ends_ret|]. destruct (is_replication k && _).
  { apply stops_bind; [by apply launch_new_connection_stops|apply wp_stops; intros; apply ends_ret]. }
  apply stops_bind; [apply ends_sockets_in|]. apply wp_sockets_in.
  apply stops_bind; [apply usable_idle_server_stops; [done|lia]|].
  eapply wp_conseq; [by apply usable_idle_server_wp|]. cbv beta. intros o w1 [He _]. destruct o as [s|]; [apply ends_ret|].
  apply stops_bind; [apply check_fast_fail_stops; by eapply evicts_inv|apply wp_stops; intros; apply ends_ret].
Qed.

Lemma apply_vars_stops c o w :
  Inv (view w) -> (forall s, o = Some s -> evictable s w) -> stops (apply_vars E cf c o) w.
Proof using.
  intros Hv Ho. unfold apply_vars. apply stops_read; [ends_solve|keeps_solve|]. intros k.
  destruct o as [s|]; [|apply ends_ret]. destruct (sending_auth_query k); [apply ends_ret|].
  apply stops_bind; [apply ends_ask_kernel|]. eapply wp_conseq; [apply ask_kernel_wp|]. cbv beta.
  intros [res vc] w1 [Hv1 Hs1]. destruct res; [apply ends_ret|].
  apply stops_bind; [|apply wp_stops; intros; apply ends_ret].
  apply disconnect_idle_stops; [by rewrite Hv1|by eapply evictable_same, Ho].
Qed.

Lemma link_server_stops c s p vc st w :
  Inv (view w) -> parked (view w) c st -> st = CL_ACTIVE \/ st = CL_LOGIN -> clean_idle p s w ->
  stops (link_server E cf c s vc) w.
Proof using All.
  intros Hv Hp Hst Hcl. unfold link_server. apply stops_bind; [unfold join_server; apply stops_ends; ends_solve|].
  eapply wp_conseq; [by eapply join_server_wp|]. cbv beta. intros _ w2 (Hstep & _).
  destruct vc; [|apply ends_ret]. apply stops_bind; [apply ends_sk_mod|]. apply wp_vkeep; [vkeep_solve|]. intros _ w3 Hv3.
  apply stops_bind; [apply ends_sk_mod|]. apply wp_vkeep; [vkeep_solve|]. intros _ w4 Hv4.
  apply stops_bind; [apply ends_pause_sbuf|]. apply wp_vkeep; [vkeep_solve|]. intros ok w5 Hv5.
  apply stops_bind; [|apply wp_stops; intros; apply ends_ret]. destruct ok; [apply ends_ret|].
  apply disconnect_c_stops. rewrite Hv5, Hv4, Hv3. by eapply step_inv.
Qed.

Lemma find_server_stops c w : Inv (view w) -> stops (find_server E cf c) w.
Proof using All.
  intros Hv. unfold find_server. apply stops_bind; [apply ends_sk_get|]. wstep.
  apply stops_bind; [apply ends_AssertS|]. wstep. apply active_state in Has.
  apply stops_bind; [apply ends_sk_mod|]. apply wp_vkeep; [vkeep_solve|]. intros _ w1 Hv1.
  case_bool_decide as El; [apply ends_ret|].
  apply stops_bind; [apply ends_found|]. apply wp_found. intros p Hp.
  apply stops_bind; [apply search_server_stops; by rewrite Hv1|].
  eapply wp_conseq; [apply (search_server_wp E cf); by rewrite Hv1|]. cbv beta. intros o w2 (Hr2 & Ho & Hclean).
  rewrite Hv1 in Hr2, Ho. destruct o as [server|]; [|apply ends_ret]. specialize (Ho ltac:(done)).
  assert (Hv2 : Inv (view w2)) by (by eapply runs_inv).
  assert (Hpk : parked (view w2) c (sk_state k)) by (apply (proj2 Ho); [tauto|by apply parked_of]).
  apply stops_bind; [apply stops_ends; ends_solve|]. eapply wp_conseq; [apply idle_assert_wp|]. cbv beta. intros _ w2' ->.
  assert (Hev : forall s, server = Some s -> evictable s w2).
  { intros s ->. destruct (Hclean s eq_refl) as (ks & Hks & Hst & _). exists ks. by rewrite Hst. }
  apply stops_bind; [by apply apply_vars_stops|]. eapply wp_conseq; [by apply apply_vars_wp|].
  cbv beta. intros [[s|] vc] w3 [Hr3 Hs]; cbn in Hs.
  - destruct (Hs s eq_refl) as (-> & Hs3 & Hv3). destruct (Hclean s eq_refl) as (ks & Hks & Hrest).
    eapply (link_server_stops c s p vc (sk_state k)); rewrite ?Hv3; try done. exists ks. by rewrite Hs3.
  - assert (Hpk3 : parked (view w3) c (sk_state k)) by (apply (proj2 Hr3); [tauto|done]).
    destruct (parked_lookup _ _ _ Hpk3) as (k3 & Hk3 & _ & Hl3).
    apply stops_bind; [eapply pause_client_stops; [by eapply runs_inv|done|done]|apply wp_stops; intros; apply ends_ret].
Qed.

End Finding.
