(* ===== verification/Janitor.v ===== *)
(** * Periodic maintenance of a pool (src/janitor.c)

    The parts of the janitor that move servers between the lists of a pool:
    the test query for servers that were not used for a while, the scan of the
    unused servers and the check of the pool's size.  Each keeps the store
    consistent and ends; the client timeouts of the same file only close
    sockets. *)

From S2P Require Import Prelude Protocol MBuf PktBuf Proto IOBuf SBuf PoolSpec World Objects Launch Cancel Limits Terminate.
From stdpp Require Import base option countable gmap list strings.
#[local] Open Scope Z_scope.

Section Janitor.
Context `{Realloc} {K : Type} (E : ObjEnv K) (cf : Config).
#[local] Abbreviation M := (SM (World K)).
Implicit Types w : World K.

(** ** launch_recheck *)

(** The loop that finds a clean server: each round closes one. *)
Fixpoint find_clean (fuel : nat) (p : positive) : M (option positive) :=
  match fuel with
  | O => fun _ => NoFuel
  | S fuel =>
      o ← first_socket (PoolSlot p used_server_list);
      match o with
      | None => mret None
      | Some server =>
          k ← sk_get server;
          if sk_ready k then mret (Some server)
          else
            _ ← disconnect_s E cf server true (str "idle server got dirty");
            find_clean fuel p
      end
  end.

Definition recheck_needed (server : positive) : M bool :=
  if bool_decide (cf_server_check_query cf = []) then mret false
  else if bool_decide (cf_server_check_delay cf > 0) then
    now ← get_cached_time;
    k ← sk_get server;
    mret (negb (bool_decide (u64 (now - sk_request_time k) < cf_server_check_delay cf)))
  else mret true.

Definition launch_recheck (p : positive) : M unit :=
  w ← getS;
  o ← find_clean (S (size (w_sockets w))) p;
  match o with
  | None => mret tt
  | Some server =>
      need_check ← recheck_needed server;
      if need_check : bool then
        _ ← change_server_state cf server SV_TESTED;
        res ← SEND_wrap E 512 server (fun b => pktbuf_write_generic b PqMsg_Query "s"
                [VStr (if empty_server_check_query cf then [] else cf_server_check_query cf)]);
        if res : bool then mret tt
        else disconnect_s E cf server false (str "test query failed")
      else
        _ ← release_server E cf disconnect_depth server;
        mret tt
  end.

(** ** The unused servers *)

Definition pool_min_pool_size (pool : PgPool) : M Z :=
  d ← db_get (pl_db pool);
  mret (if bool_decide (db_min_pool_size d < 0) then cf_min_pool_size cf else db_min_pool_size d).

(** More servers are connected than the pool is to keep. *)
Definition above_min_size (p : positive) : M bool :=
  pool ← pl_get p;
  m ← pool_min_pool_size pool;
  if bool_decide (m = 0) then mret true
  else n ← pool_connected_server_count p; mret (bool_decide (n > m)).

(** The body of the loop, for one server. *)
Definition check_unused (now server_lifetime : Z) (p : positive) (idle_test : bool) (server : positive) : M unit :=
  k ← sk_get server;
  w ← getS;
  let age := u64 (now - sk_connect_time k) in
  let idle := u64 (now - sk_request_time k) in
  if sk_close_needed k then disconnect_s E cf server true (str "database configuration changed")
  else if bool_decide (sk_state k = SV_IDLE) && negb (sk_ready k) then
    disconnect_s E cf server true (str "SV_IDLE server got dirty")
  else if bool_decide (sk_state k = SV_USED) && negb (sk_ready k) then
    disconnect_s E cf server true (str "SV_USED server got dirty")
  else
    timed_out ← (if bool_decide (cf_server_idle_timeout cf > 0) && bool_decide (idle > cf_server_idle_timeout cf)
                 then above_min_size p else mret false);
    if timed_out : bool then disconnect_s E cf server true (str "server idle timeout")
    else if bool_decide (age >= server_lifetime) then
      over ← life_over cf server;
      if over : bool then
        _ ← disconnect_s E cf server true (str "server lifetime over");
        pl_mod p (set_last_lifetime_disconnect now)
      else mret tt
    else if bool_decide (w_pause_mode w = P_PAUSE) then disconnect_s E cf server true (str "pause mode")
    else if idle_test && negb (bool_decide (cf_server_check_query cf = [])) then
      if bool_decide (idle > cf_server_check_delay cf) then change_server_state cf server SV_USED else mret tt
    else mret tt.

Definition check_unused_servers (p : positive) (slist : PoolList) (idle_test : bool) : M unit :=
  now ← get_cached_time;
  pool ← pl_get p;
  server_lifetime ← pool_server_lifetime cf pool;
  for_each_in p (check_unused now server_lifetime p idle_test) slist.

(** ** The size of the pool *)

(** At most [many] servers are closed, used ones first; the result is the
    number of servers left. *)
Fixpoint close_many (many : nat) (p : positive) (cur : Z) : M Z :=
  match many with
  | O => mret cur
  | S many =>
      u ← first_socket (PoolSlot p used_server_list);
      server ← (match u with Some _ => mret u | None => first_socket (PoolSlot p idle_server_list) end);
      match server with
      | None => mret cur
      | Some server =>
          _ ← disconnect_s E cf server true (str "too many servers in the pool");
          close_many many p (cur - 1)
      end
  end.

Definition pool_client_count (p : positive) : M Z :=
  a ← statlist_count (PoolSlot p active_client_list);
  b ← statlist_count (PoolSlot p waiting_client_list);
  mret (a + b).

Definition check_pool_size (p : positive) : M unit :=
  pool ← pl_get p;
  cur ← pool_connected_server_count p;
  size ← pool_pool_size cf pool;
  res ← pool_res_pool_size cf pool;
  _ ← AssertS (bool_decide (size >= 0));
  cur ← (if bool_decide (size > 0) then close_many (Z.to_nat (cur - (size + res))) p cur else mret cur);
  m ← pool_min_pool_size pool;
  d ← db_get (pl_db pool);
  w ← getS;
  clients ← pool_client_count p;
  if bool_decide (cur < m) && bool_decide (cur < size) && bool_decide (w_pause_mode w = P_NONE)
     && (bool_decide (clients > 0) || bool_decide (is_Some (db_forced_user_credentials d)))
  then launch_new_connection E cf p false
  else mret tt.

(** The order in which [pool_server_maint] scans the lists, before the
    timeouts of the servers that are in use. *)
Definition scan_unused (p : positive) : M unit :=
  _ ← check_unused_servers p used_server_list false;
  _ ← check_unused_servers p tested_server_list false;
  check_unused_servers p idle_server_list true.

(** ** The store stays consistent *)

Context `{!EnvOk E}.

(** The operation does transitions of the abstract pool only. *)
Definition moves {A} (m : M A) (w : World K) : Prop := wp m (fun _ w' => rtc vstep (view w) (view w')) w.

Lemma moves_vkeep {A} (m : M A) w : vkeep m -> moves m w.
Proof using. intros Hm. apply wp_vkeep; [done|]. intros _ w' ->. done. Qed.

Lemma moves_bind {A B} (m : M A) (k : A -> M B) w :
  Inv (view w) -> moves m w -> (forall a w1, Inv (view w1) -> moves (k a) w1) -> moves (m ≫= k) w.
Proof using.
  intros Hv Hm Hk. apply wp_bind. eapply wp_conseq; [exact Hm|]. cbn. intros a w1 Hr.
  eapply wp_conseq; [apply Hk; by eapply PoolSpec.rtc_inv|]. cbn. intros _ w2 Hr2. by etrans.
Qed.

Lemma moves_disconnect s b r w : Inv (view w) -> moves (disconnect_s E cf s b r) w.
Proof using All. intros Hv. eapply wp_conseq; [by apply disconnect_s_wp|]. by intros _ w' [? _]. Qed.

Lemma quiet_evictable x s w w' : quiet (fun y => y = s) (view w) (view w') -> x <> s -> evictable x w -> evictable x w'.
Proof using.
  intros (_ & Hq & _) Hne (k & Hk & Hst). destruct (Hq x (sview k)) as (kv & Hkv & Hst' & _); [done|by apply view_vs_some|].
  apply view_vs_inv in Hkv as (k' & Hk' & ->). exists k'. split; [done|]. cbn in Hst'. congruence.
Qed.

(** An idle server changes its list. *)
Lemma move_idle_wp s st w :
  Inv (view w) -> evictable s w -> idle_state st = true ->
  wp (change_server_state cf s st) (fun _ w' => quiet (fun y => y = s) (view w) (view w') /\ evictable s w') w.
Proof using.
  intros Hv (k & Hs & Hk) Hst. assert (Hl : sk_link k = None) by (by eapply evictable_unlinked).
  assert (Hc : sk_canceling_clients k = []).
  { apply (no_canceling (vs (view w)) s (sview k)); [apply Hv|by apply view_vs_some|]. cbn. by destruct (sk_state k). }
  eapply wp_conseq; [eapply (move_server_wp cf s st k)|]; try done; try (by destruct (sk_state k)); try (by destruct st).
  - unfold link_fits; cbn. by rewrite Hl.
  - by left.
  - cbn. intros _ w' (Hq & k' & Hk' & Ev & _). split; [done|]. exists k'. split; [done|]. by injection Ev as -> _ _ _ _ _.
Qed.

Lemma first_candidate p l w :
  Inv (view w) -> l = idle_server_list \/ l = used_server_list \/ l = tested_server_list ->
  wp (first_socket (PoolSlot p l)) (fun o w' => w' = w /\ candidate o w) w.
Proof using.
  intros Hv Hl. unfold first_socket. wgo. split; [done|]. intros s Hs.
  destruct (in_pool_list (view w) p l s Hv) as (kv & Hkv & Hst & _); [cbn; by apply head_Some_elem_of|].
  apply view_vs_inv in Hkv as (k & Hk & ->). exists k. split; [done|]. cbn in Hst.
  destruct Hl as [->|[->| ->]]; by destruct (sk_state k).
Qed.

(** One server of the scan: it is closed, changes its list or stays. *)
Lemma check_unused_wp now life p b s w :
  Inv (view w) -> evictable s w ->
  wp (check_unused now life p b s) (fun _ w' => quiet (fun y => y = s) (view w) (view w')) w.
Proof using All.
  intros Hv Hs. assert (Hd : forall b r, wp (disconnect_s E cf s b r) (fun _ w' => quiet (fun y => y = s) (view w) (view w')) w).
  { intros b' r. eapply wp_conseq; [by apply disconnect_idle_wp|]. by intros _ w' (_ & ? & _). }
  unfold check_unused. wstep. wstep. wstep. wstep. destruct (sk_close_needed k); [apply Hd|].
  destruct (_ && _); [apply Hd|]. destruct (_ && _); [apply Hd|]. apply wp_bind.
  apply wp_read; [unfold above_min_size, pool_min_pool_size, pool_connected_server_count, statlist_count; keeps_solve|].
  intros t _. destruct t; [apply Hd|]. destruct (bool_decide _).
  { apply wp_bind, wp_read; [unfold life_over, pool_server_lifetime; keeps_solve|].
    intros o _. destruct o; [|apply wp_ret, quiet_refl]. apply wp_bind.
    eapply wp_conseq; [apply Hd|]. cbv beta. intros _ w1 Hq. eapply wp_vkeep; [vkeep_solve|]. intros _ w2 ->. done. }
  destruct (bool_decide _); [apply Hd|]. destruct (_ && _); [|apply wp_ret, quiet_refl].
  destruct (bool_decide _); [|apply wp_ret, quiet_refl].
  eapply wp_conseq; [by apply move_idle_wp|]. by intros _ w' [? _].
Qed.

Lemma for_each_unused_wp now life p b l w :
  Inv (view w) -> NoDup l -> (forall x, x ∈ l -> evictable x w) ->
  moves (for_each (check_unused now life p b) l) w.
Proof using All.
  revert w. induction l as [|s l IH]; intros w Hv Hnd Hl; cbn [for_each]; [by apply wp_ret|].
  apply NoDup_cons in Hnd as [Hs Hnd]. apply wp_bind. eapply wp_conseq; [apply check_unused_wp; [done|apply Hl; by left]|].
  cbv beta. intros _ w1 Hq. eapply wp_conseq; [apply IH|].
  - by eapply quiet_inv.
  - done.
  - intros x Hx. apply (quiet_evictable x s w); [done|by intros ->|]. apply Hl. by right.
  - cbn. intros _ w2 Hr. etrans; [apply Hq|done].
Qed.

Lemma unused_in_list p l w x :
  Inv (view w) -> l = idle_server_list \/ l = used_server_list \/ l = tested_server_list ->
  x ∈ lst (w_lists w) (PoolSlot p l) -> evictable x w.
Proof using.
  intros Hv Hl Hx. destruct (in_pool_list (view w) p l x Hv Hx) as (kv & Hkv & Hst & _).
  apply view_vs_inv in Hkv as (k & Hk & ->). exists k. split; [done|]. cbn in Hst.
  destruct Hl as [->|[->| ->]]; by destruct (sk_state k).
Qed.

Lemma check_unused_servers_moves p l b w :
  Inv (view w) -> l = idle_server_list \/ l = used_server_list \/ l = tested_server_list ->
  moves (check_unused_servers p l b) w.
Proof using All.
  intros Hv Hl. unfold moves, check_unused_servers, for_each_in. wstep. wstep. wstep. wstep. wstep.
  apply wp_read; [unfold pool_server_lifetime; keeps_solve|]. intros life _. wstep. wstep.
  apply for_each_unused_wp; [done|apply Hv|]. intros x. by apply unused_in_list.
Qed.

Lemma scan_unused_moves p w : Inv (view w) -> moves (scan_unused p) w.
Proof using All.
  intros Hv. unfold scan_unused. apply moves_bind; [done|apply check_unused_servers_moves; auto|]. intros _ w1 Hv1.
  apply moves_bind; [done|apply check_unused_servers_moves; auto|]. intros _ w2 Hv2. apply check_unused_servers_moves; auto.
Qed.

(** What [find_clean] returns is a ready server of the list. *)
Lemma find_clean_wp n p w :
  Inv (view w) ->
  wp (find_clean n p) (fun o w' => rtc vstep (view w) (view w') /\ forall s, o = Some s -> evictable s w' /\ exists k, w_sockets w' !! s = Some k /\ sk_ready k = true) w.
Proof using All.
  revert w. induction n as [|n IH]; intros w Hv; cbn [find_clean]; [done|]. apply wp_bind.
  eapply wp_conseq; [apply first_candidate; auto|]. cbn. intros o w1 [-> Ho]. destruct o as [s|]; [|by apply wp_ret].
  wstep. wstep. destruct (sk_ready k) eqn:Er.
  { apply wp_ret. split; [done|]. intros s' [= <-]. split; [by apply Ho|by exists k]. }
  apply wp_bind. eapply wp_conseq; [by apply moves_disconnect|]. cbn. intros _ w1 Hr.
  eapply wp_conseq; [apply IH; by eapply PoolSpec.rtc_inv|]. cbn. intros o w2 [Hr2 Hc]. split; [by etrans|done].
Qed.

Lemma moves_release s w : Inv (view w) -> login_ready s (view w) -> moves (release_server E cf disconnect_depth s) w.
Proof using All.
  intros Hv Hready r w' Hr. etrans; [|exact (proj1 (proj2 (proj2 (disconnects_all E cf disconnect_depth)) s w Hv Hready _ _ Hr))].
  destruct (released_step s _ Hv) as [-> | ?]; [done|by apply rtc_once].
Qed.

Lemma unused_login_ready s w : evictable s w -> login_ready s (view w).
Proof using.
  intros (k & Hk & Hst) kv c Hkv Hlog _. rewrite (view_vs_some _ _ _ Hk) in Hkv. injection Hkv as <-. cbn in Hlog. by rewrite Hlog in Hst.
Qed.

Lemma launch_recheck_moves p w : Inv (view w) -> moves (launch_recheck p) w.
Proof using All.
  intros Hv. unfold moves, launch_recheck. wstep. wstep. apply wp_bind. eapply wp_conseq; [by apply find_clean_wp|].
  cbv beta. intros o w1 [Hr Ho]. assert (Hv1 : Inv (view w1)) by (by eapply PoolSpec.rtc_inv).
  enough (Hgo : match o with Some s => evictable s w1 | None => True end -> moves (match o with
    | None => mret tt
    | Some server =>
      need_check ← recheck_needed server;
      if need_check : bool then
        _ ← change_server_state cf server SV_TESTED;
        res ← SEND_wrap E 512 server (fun b => pktbuf_write_generic b PqMsg_Query "s"
                [VStr (if empty_server_check_query cf then [] else cf_server_check_query cf)]);
        if res : bool then mret tt
        else disconnect_s E cf server false (str "test query failed")
      else
        _ ← release_server E cf disconnect_depth server;
        mret tt
    end) w1).
  { eapply wp_conseq; [apply Hgo; destruct o; [by apply Ho|done]|]. cbn. intros _ w2 Hr2. by etrans. }
  intros Hev. destruct o as [s|]; [|by apply wp_ret]. apply wp_bind, wp_read; [unfold recheck_needed; keeps_solve|]. intros b _.
  destruct b.
  - apply moves_bind; [done| |].
    { eapply wp_conseq; [by apply move_idle_wp|]. by intros _ w2 [[? _] _]. }
    intros _ w2 Hv2. apply moves_bind; [done|apply moves_vkeep; vkeep_solve|]. intros res w3 Hv3.
    destruct res; [by apply wp_ret|by apply moves_disconnect].
  - apply moves_bind; [done|apply moves_release; [done|by apply unused_login_ready]|]. intros _ w2 _. by apply wp_ret.
Qed.

Lemma close_many_moves n p cur w : Inv (view w) -> moves (close_many n p cur) w.
Proof using All.
  revert cur w. induction n as [|n IH]; intros cur w Hv; cbn [close_many]; [by apply wp_ret|].
  apply moves_bind; [done|apply moves_vkeep; unfold first_socket; vkeep_solve|]. intros u w1 Hv1.
  apply moves_bind; [done|apply moves_vkeep; unfold first_socket; vkeep_solve|]. intros [s|] w2 Hv2; [|by apply wp_ret].
  apply moves_bind; [done|by apply moves_disconnect|]. intros _ w3 Hv3. by apply IH.
Qed.

Lemma check_pool_size_moves p w : Inv (view w) -> moves (check_pool_size p) w.
Proof using All.
  intros Hv. unfold moves, check_pool_size. wstep. wstep. apply wp_bind, wp_read; [unfold pool_connected_server_count, statlist_count; keeps_solve|].
  intros cur _. apply wp_bind, wp_read; [unfold pool_pool_size; keeps_solve|]. intros size _.
  apply wp_bind, wp_read; [unfold pool_res_pool_size; keeps_solve|]. intros res _. wstep. wstep.
  apply moves_bind; [done| |].
  { destruct (bool_decide (size > 0)); [by apply close_many_moves|by apply wp_ret]. }
  intros cur' w1 Hv1. apply wp_bind, wp_read; [unfold pool_min_pool_size; keeps_solve|]. intros m _. wstep. wstep. wstep. wstep.
  apply wp_bind, wp_read; [unfold pool_client_count, statlist_count; keeps_solve|]. intros n _.
  destruct (_ && _); [|by apply wp_ret]. eapply wp_conseq; [by apply launch_new_connection_wp|]. by intros _ w2 [? _].
Qed.

(** ** The scans end *)

Context `{!EnvEnds E}.

Ltac stops_ends := match goal with |- stops ?m ?w => let He := fresh in assert (He : ends m); [ends_solve|exact (He w)] end.

Lemma ends_above_min_size p : ends (above_min_size p).
Proof using.
  unfold above_min_size, pool_min_pool_size, pool_connected_server_count, statlist_count. ends_solve.
Qed.

Lemma check_unused_stops now life p b s w : Inv (view w) -> evictable s w -> stops (check_unused now life p b s) w.
Proof using All.
  intros Hv Hs. unfold check_unused. apply stops_bind; [apply ends_sk_get|]. wstep. apply stops_bind; [apply ends_getS|]. wstep.
  assert (Hd : forall b r, stops (disconnect_s E cf s b r) w) by (intros; by apply disconnect_idle_stops).
  destruct (sk_close_needed k); [apply Hd|]. destruct (_ && _); [apply Hd|]. destruct (_ && _); [apply Hd|].
  apply stops_bind; [destruct (_ && _); [apply ends_above_min_size|apply ends_ret]|].
  apply wp_read; [unfold above_min_size, pool_min_pool_size, pool_connected_server_count, statlist_count; keeps_solve|].
  intros t _. destruct t; [apply Hd|]. destruct (bool_decide _).
  { apply stops_bind; [apply ends_life_over|]. apply wp_read; [unfold life_over, pool_server_lifetime; keeps_solve|].
    intros o _. destruct o; [|apply ends_ret]. apply stops_bind; [apply Hd|]. apply wp_stops. intros. apply ends_pl_mod. }
  destruct (bool_decide _); [apply Hd|]. destruct (_ && _); [|apply ends_ret].
  destruct (bool_decide _); [apply ends_change_server_state|apply ends_ret].
Qed.

Lemma for_each_unused_stops now life p b l w :
  Inv (view w) -> NoDup l -> (forall x, x ∈ l -> evictable x w) -> stops (for_each (check_unused now life p b) l) w.
Proof using All.
  revert w. induction l as [|s l IH]; intros w Hv Hnd Hl; cbn [for_each]; [apply ends_ret|].
  apply NoDup_cons in Hnd as [Hs Hnd]. assert (Hev : evictable s w) by (apply Hl; by left).
  apply stops_bind; [by apply check_unused_stops|]. eapply wp_conseq; [by apply check_unused_wp|].
  cbv beta. intros _ w1 Hq. apply IH; [by eapply quiet_inv|done|].
  intros x Hx. apply (quiet_evictable x s w); [done|by intros ->|]. apply Hl. by right.
Qed.

Lemma check_unused_servers_stops p l b w :
  Inv (view w) -> l = idle_server_list \/ l = used_server_list \/ l = tested_server_list ->
  stops (check_unused_servers p l b) w.
Proof using All.
  intros Hv Hl. unfold check_unused_servers, for_each_in. apply stops_bind; [apply ends_time|]. apply wp_read; [unfold get_cached_time; keeps_solve|]. intros now _.
  apply stops_bind; [apply ends_pl_get|]. wstep. apply stops_bind; [apply ends_pool_server_lifetime|].
  apply wp_read; [unfold pool_server_lifetime; keeps_solve|]. intros life _. apply stops_bind; [apply ends_sockets_in|]. wstep.
  apply for_each_unused_stops; [done|apply Hv|]. intros x. by apply unused_in_list.
Qed.

Lemma find_clean_stops n p w :
  Inv (view w) -> nservers (view w) (fun _ => true) < Z.of_nat n -> stops (find_clean n p) w.
Proof using All.
  revert w. induction n as [|n IH]; intros w Hv Hn; [unfold nservers in Hn; lia|]. cbn [find_clean].
  apply stops_bind; [apply ends_first_socket|]. eapply wp_conseq; [apply first_candidate; auto|].
  cbn. intros o w1 [-> Ho]. destruct o as [s|]; [|apply ends_ret]. apply stops_bind; [apply ends_sk_get|]. wstep.
  destruct (sk_ready k); [apply ends_ret|]. assert (Hev : evictable s w) by (by apply Ho).
  apply stops_bind; [by apply disconnect_idle_stops|]. eapply wp_conseq; [by apply disconnect_idle_wp|].
  cbv beta. intros _ w1 (_ & Hq & Hcl). destruct (idle_counts s w Hv Hev) as (k' & Hk' & Hkc).
  pose proof (close_nservers_lt s _ _ (fun _ => true) k' Hq Hcl Hk' Hkc). apply IH; [by eapply quiet_inv|lia].
Qed.

Lemma launch_recheck_stops p w : Inv (view w) -> stops (launch_recheck p) w.
Proof using All.
  intros Hv. unfold launch_recheck. apply stops_bind; [apply ends_getS|]. wstep. apply stops_bind.
  { apply find_clean_stops; [done|]. pose proof (nservers_sockets w (fun _ => true)). lia. }
  eapply wp_conseq; [by apply find_clean_wp|]. cbv beta. intros o w1 [Hr Ho].
  assert (Hv1 : Inv (view w1)) by (by eapply PoolSpec.rtc_inv). destruct o as [s|]; [|apply ends_ret].
  destruct (Ho s eq_refl) as [Hev _]. apply stops_bind; [unfold recheck_needed; stops_ends|].
  apply wp_read; [unfold recheck_needed; keeps_solve|]. intros b _. destruct b.
  - apply stops_bind; [apply ends_change_server_state|]. eapply wp_conseq; [by apply move_idle_wp|]. cbv beta.
    intros _ w2 [Hq Hev2]. assert (Hv2 : Inv (view w2)) by (by eapply quiet_inv).
    apply stops_bind; [apply ends_SEND_wrap|]. apply wp_vkeep; [vkeep_solve|]. intros res w3 Hv3.
    destruct res; [apply ends_ret|]. apply disconnect_idle_stops; [by rewrite Hv3|by eapply evictable_same].
  - apply stops_bind; [|apply wp_stops; intros; apply ends_ret].
    by apply (release_server_stops E cf 2), unused_login_ready.
Qed.

Lemma close_many_stops n p cur w : Inv (view w) -> stops (close_many n p cur) w.
Proof using All.
  revert cur w. induction n as [|n IH]; intros cur w Hv; cbn [close_many]; [apply ends_ret|].
  apply stops_bind; [apply ends_first_socket|]. apply wp_read; [unfold first_socket; keeps_solve|]. intros u _.
  apply stops_bind; [destruct u; [apply ends_ret|apply ends_first_socket]|]. apply wp_read; [unfold first_socket; keeps_solve|]. intros [s|] _; [|apply ends_ret].
  apply stops_bind; [by apply (disconnect_server_stops E cf 0)|]. eapply wp_conseq; [by apply moves_disconnect|]. cbn.
  intros _ w3 Hr. apply IH. by eapply PoolSpec.rtc_inv.
Qed.

Lemma check_pool_size_stops p w : Inv (view w) -> stops (check_pool_size p) w.
Proof using All.
  intros Hv. unfold check_pool_size. apply stops_bind; [apply ends_pl_get|]. wstep.
  apply stops_bind; [unfold pool_connected_server_count, statlist_count; stops_ends|].
  apply wp_read; [unfold pool_connected_server_count, statlist_count; keeps_solve|]. intros cur _.
  apply stops_bind; [apply ends_pool_pool_size|]. apply wp_read; [unfold pool_pool_size; keeps_solve|]. intros size _.
  apply stops_bind; [unfold pool_res_pool_size; stops_ends|]. apply wp_read; [unfold pool_res_pool_size; keeps_solve|]. intros res _.
  apply stops_bind; [apply ends_AssertS|]. wstep.
  apply stops_bind; [destruct (bool_decide (size > 0)); [by apply close_many_stops|apply ends_ret]|].
  apply wp_conseq with (Q := fun _ w' => rtc vstep (view w) (view w')).
  { destruct (bool_decide (size > 0)); [by apply close_many_moves|by apply wp_ret]. }
  intros cur' w1 Hr. assert (Hv1 : Inv (view w1)) by (by eapply PoolSpec.rtc_inv).
  apply stops_bind; [unfold pool_min_pool_size; stops_ends|]. apply wp_read; [unfold pool_min_pool_size; keeps_solve|]. intros m _.
  apply stops_bind; [apply ends_db_get|]. wstep. apply stops_bind; [apply ends_getS|]. wstep.
  apply stops_bind; [unfold pool_client_count, statlist_count; stops_ends|].
  apply wp_read; [unfold pool_client_count, statlist_count; keeps_solve|]. intros n _.
  destruct (_ && _); [by apply (launch_new_connection_stops E cf)|apply ends_ret].
Qed.

Lemma scan_unused_stops p w : Inv (view w) -> stops (scan_unused p) w.
Proof using All.
  intros Hv. unfold scan_unused. apply stops_bind; [apply check_unused_servers_stops; auto|].
  eapply wp_conseq; [apply check_unused_servers_moves; auto|]. cbn. intros _ w1 Hr1.
  assert (Hv1 : Inv (view w1)) by (by eapply PoolSpec.rtc_inv). apply stops_bind; [apply check_unused_servers_stops; auto|].
  eapply wp_conseq; [apply check_unused_servers_moves; auto|]. cbn. intros _ w2 Hr2.
  apply check_unused_servers_stops; [by eapply PoolSpec.rtc_inv|auto].
Qed.

End Janitor.
