(* ===== verification/Pooler.v ===== *)
(** * The pooler as a state machine

    [pooler_step] has one rule per operation of src/objects.c that the event
    handlers call, rules for the maintenance of a pool by src/janitor.c, and a
    few for the assignments other files make to the store.  The theorems here are about every store such steps can reach:
    lists, states, links, cancel references and connection counts agree.
    Further theorems say what single operations achieve. *)

From S2P Require Import Prelude Protocol MBuf PktBuf Proto IOBuf SBuf PoolSpec World Objects Launch Cancel Limits Terminate Janitor.
From stdpp Require Import base option countable gmap list strings.
#[local] Open Scope Z_scope.

(** ** Steps and reachable stores *)

Section Machine.
Context `{Realloc} {K : Type} (E : ObjEnv K) (cf : Config).
Implicit Types w : World K.

Inductive pooler_step : World K -> World K -> Prop :=
| PS_accept sock u r w w' : accept_client E sock u w = Ok (r, w') -> pooler_step w w'
| PS_attach c k p w :
    w_sockets w !! c = Some k -> sk_state k = CL_LOGIN ->
    pooler_step w (set_sockets (<[c := set_pool (Some p) k]> (w_sockets w)) w)
| PS_login c k r w w' :
    w_sockets w !! c = Some k -> sk_link k = None ->
    finish_client_login E cf c w = Ok (r, w') -> pooler_step w w'
| PS_find_server c r w w' : find_server E cf c w = Ok (r, w') -> pooler_step w w'
| PS_launch p evict w w' : launch_new_connection E cf p evict w = Ok (tt, w') -> pooler_step w w'
| PS_release s r w w' :
    login_ready s (view w) -> release_server E cf disconnect_depth s w = Ok (r, w') -> pooler_step w w'
| PS_disconnect_server s term reason w w' :
    disconnect_server E cf disconnect_depth s term reason w = Ok (tt, w') -> pooler_step w w'
| PS_disconnect_client c notify reason w w' :
    disconnect_client E cf disconnect_depth c notify reason w = Ok (tt, w') -> pooler_step w w'
| PS_cancel c k w w' :
    w_sockets w !! c = Some k -> sk_link k = None ->
    accept_cancel_request E cf c w = Ok (tt, w') -> pooler_step w w'
| PS_forward s ks p w w' :
    w_sockets w !! s = Some ks -> sk_pool ks = Some p -> sk_link ks = None -> sk_canceling_clients ks = [] ->
    cancels_wait p w -> forward_cancel_request E cf s w = Ok (tt, w') -> pooler_step w w'
| PS_activate c k w w' :
    w_sockets w !! c = Some k -> sk_link k = None -> activate_client E c w = Ok (tt, w') -> pooler_step w w'
| PS_tag_dirty d w w' : tag_database_dirty E cf d w = Ok (tt, w') -> pooler_step w w'
| PS_reuse w w' : reuse_just_freed_objects E cf w = Ok (tt, w') -> pooler_step w w'
| PS_recheck p w w' : launch_recheck E cf p w = Ok (tt, w') -> pooler_step w w'
| PS_scan p w w' : scan_unused E cf p w = Ok (tt, w') -> pooler_step w w'
| PS_check_size p w w' : check_pool_size E cf p w = Ok (tt, w') -> pooler_step w w'
| PS_other w w' : view w' = view w -> pooler_step w w'.

(** Nothing is connected yet. *)
Definition initial w : Prop :=
  w_sockets w = ∅ /\ w_lists w = ∅ /\
  (forall d r, w_dbs w !! d = Some r -> db_connection_count r = 0) /\
  (forall u r, w_users w !! u = Some r -> gu_connection_count r = 0).

Definition reachable w : Prop := exists w0, initial w0 /\ rtc pooler_step w0 w.

Lemma initial_inv w : initial w -> Inv (view w).
Proof.
  intros (Hs & Hl & Hd & Hu).
  assert (Hnone : forall x, vs (view w) !! x = None) by (intros x; by rewrite view_vs, Hs).
  assert (Hz : forall f, nservers (view w) f = 0) by (intros f; unfold nservers, view; cbn; by rewrite Hs, fmap_empty).
  split; [|split; [|split; [|split; [|split]]]].
  - unfold inv_loc, view; cbn. rewrite Hl. split; [|split].
    + intros x s. unfold lst. rewrite lookup_empty. cbn. split; [by intros ?%elem_of_nil|].
      intros (k & Hk & _). by rewrite lookup_fmap, Hs in Hk.
    + intros s. unfold lst. rewrite lookup_empty. constructor.
    + intros x k Hk. by rewrite lookup_fmap, Hs in Hk.
  - intros x k y Hk. by rewrite Hnone in Hk.
  - split; [|split]; intros *; by rewrite Hnone.
  - split; [intros x k Hk; by rewrite Hnone in Hk|]. split; intros x n Hn; rewrite Hz; cbn in Hn;
      rewrite lookup_fmap in Hn; apply fmap_Some in Hn as (r & Hr & ->); eauto.
  - intros s k Hk. by rewrite Hnone in Hk.
  - intros p. unfold view, lst; cbn. rewrite Hl, lookup_empty. unfold zlen; cbn. lia.
Qed.

Context `{!EnvOk E}.

Lemma pooler_step_runs w w' : Inv (view w) -> pooler_step w w' -> rtc vstep (view w) (view w').
Proof using All.
  intros Hv Hs. destruct Hs as [sock u r w w' Hr|c k p w Hc Hst|c k r w w' Hc Hl Hr|c r w w' Hr|p e w w' Hr|s r w w' Hready Hr|
    s t r w w' Hr|c n r w w' Hr|c k w w' Hc Hl Hr|s ks p w w' Hs Hp Hl Hcan Hwait Hr|c k w w' Hc Hl Hr|d w w' Hr|w w' Hr|p w w' Hr|p w w' Hr|p w w' Hr|w w' Hr].
  - exact (proj1 (accept_client_wp E cf sock u w Hv _ _ Hr)).
  - rewrite view_set. apply rtc_once, (VS_attach (view w) c (sview k)); [by apply view_vs_some|done].
  - exact (proj1 (finish_client_login_wp E cf c k w Hv Hc Hl _ _ Hr)).
  - exact (proj1 (proj1 (find_server_wp E cf c w Hv _ _ Hr))).
  - exact (proj1 (launch_new_connection_wp E cf p e w Hv _ _ Hr)).
  - exact (moves_release E cf s w Hv Hready _ _ Hr).
  - exact (proj1 (disconnect_s_wp E cf s t r w Hv _ _ Hr)).
  - exact (proj1 (disconnect_c_wp E cf c n r w Hv _ _ Hr)).
  - exact (proj1 (accept_cancel_request_wp E cf c k w Hv Hc Hl _ _ Hr)).
  - exact (proj1 (forward_cancel_request_wp E cf s p ks w Hv Hs Hp Hl Hcan Hwait _ _ Hr)).
  - refine (proj1 (activate_client_wp E cf c k w Hv Hc _ _ _ Hr)). intros s. by rewrite Hl.
  - exact (proj1 (tag_database_dirty_wp E cf d w Hv _ _ Hr)).
  - exact (proj1 (reuse_just_freed_objects_wp E cf w Hv _ _ Hr)).
  - exact (launch_recheck_moves E cf p w Hv _ _ Hr).
  - exact (scan_unused_moves E cf p w Hv _ _ Hr).
  - exact (check_pool_size_moves E cf p w Hv _ _ Hr).
  - by rewrite Hr.
Qed.

Lemma reachable_consistent w : reachable w -> Inv (view w).
Proof using All.
  intros (w0 & H0 & Hr). apply initial_inv in H0. induction Hr as [|w w1 w2 Hs _ IH]; [done|].
  apply IH. eapply PoolSpec.rtc_inv; [exact H0|]. by apply pooler_step_runs.
Qed.

End Machine.

(** ** An environment that serves *)

(** [E], where a client that is continued looks for a server: the first thing
    its handler does with a query. *)
Definition serving_env `{Realloc} {K} (E : ObjEnv K) (cf : Config) : ObjEnv K :=
  mkObjEnv K (oe_sbuf E) (oe_alloc E)
    (fun x => k ← sk_get x;
              if bool_decide (sk_state k = CL_ACTIVE) || bool_decide (sk_state k = CL_LOGIN)
              then _ ← find_server E cf x; mret tt else mret tt)
    (oe_connect E) (oe_resolve E) (oe_inet_pton E) (oe_accept E) (oe_varcache_apply E) (oe_welcome_client E).

Section ServingEnv.
Context `{Realloc} {K : Type} (E : ObjEnv K) `{!EnvOk E} (cf : Config).

#[export] Instance serving_env_ok : EnvOk (serving_env E cf).
Proof using All.
  split; intros; cbn; [|by apply connect_ok|by apply resolve_ok|by apply accept_ok|by apply welcome_ok].
  apply wp_bind, wp_sk_get. intros k _. destruct (_ || _); [|apply wp_ret, runs_refl].
  apply wp_bind. eapply wp_conseq; [by apply find_server_wp|]. cbv beta. intros r w' [Hr _]. by apply wp_ret.
Qed.

#[export] Instance serving_env_ends `{!EnvEnds E} : EnvEnds (serving_env E cf).
Proof using All.
  split; intros; cbn; [|by apply connect_ends|by apply resolve_ends].
  apply stops_bind; [apply ends_sk_get|]. apply wp_sk_get. intros k _. destruct (_ || _); [|apply ends_ret].
  apply stops_bind; [by apply find_server_stops|apply wp_stops; intros; apply ends_ret].
Qed.

End ServingEnv.

(** ** An example store *)

(** Defaults: session pooling, two servers per pool, at most three per
    database and user. *)
Definition toy_config : Config :=
  mkConfig SHUTDOWN_NONE false [] false 30 [] false 600 15 3600 5 0 POOL_SESSION 2 0 0 3 3 (str "/tmp") 4096.

(** The example environment: a client that is woken looks for a server, the
    other handlers do nothing, the kernel takes what is sent (its state is the
    bytes it got), memory is there. *)
Definition calm_sockets : SBufEnv (list Z) :=
  mkSBufEnv _ (fun _ bs k => (IoOk (zlen bs), k ++ bs)) (op_recv toy_env) (op_pending toy_env) (op_close toy_env)
    (dst_sock toy_env) (event_del toy_env) (event_add toy_env) (slab_alloc toy_env) (proto_cb toy_env)
    (handle_tls_handshake toy_env).
Definition idle_env : ObjEnv (list Z) :=
  mkObjEnv (list Z) calm_sockets (fun k => (true, k)) (fun _ => mret tt) (fun _ => mret tt) (fun _ => mret tt)
    (fun _ _ => true) (fun _ _ _ => mret true) (fun _ _ k => (true, false, k)) (fun _ => mret true).

#[export] Instance idle_env_ok : EnvOk idle_env.
Proof. split; intros; apply wp_ret, runs_refl. Qed.
#[export] Instance idle_env_ends : EnvEnds idle_env.
Proof. split; intros; apply ends_ret. Qed.

#[local] Existing Instance zero_Realloc.
Definition calm_env : ObjEnv (list Z) := serving_env idle_env toy_config.

Definition toy_db : PgDatabase :=
  mkPgDatabase (str "db") 0 None (Some (str "127.0.0.1")) 5432 (-1) (-1) (-1) POOL_INHERIT 0 0
    LOAD_BALANCE_HOSTS_ROUND_ROBIN false false false false None 0 0.
Definition toy_pool : PgPool := mkPgPool 1 (Some 1%positive) 0 0 0 false [] false true 0 0 0 0.
Definition toy_user : PgGlobalUser := mkPgGlobalUser (-1) (-1) POOL_INHERIT 0 0 0.

(** One database, one user and their pool; the time is 100. *)
Definition toy_world : World (list Z) :=
  mkWorld ∅ ∅ {[1%positive := toy_pool]} [1%positive] {[1%positive := toy_db]} []
    {[1%positive := mkPgCredentials (Some 1%positive) false]} {[1%positive := toy_user]} 100 P_NONE [].

Lemma toy_world_initial : initial toy_world.
Proof.
  split; [done|]. split; [done|]. split; intros d r Hd; unfold toy_world in Hd; cbn in Hd; apply lookup_singleton_Some in Hd as [_ <-]; done.
Qed.

(** What a run ends in. *)
Definition after {K A} (m : SM (World K) A) (w : World K) : World K :=
  match m w with Ok (_, w') => w' | _ => w end.

Definition toy_ready (x : positive) (w : World (list Z)) : World (list Z) :=
  after (sk_mod x (set_ready true)) w.

(** The socket of [x] waits for data. *)
Definition toy_open (x : positive) (w : World (list Z)) : World (list Z) :=
  after (sk_mod x (fun k => let s := sk_sbuf k in
    set_sbuf (mkSBuf true W_RECV (pkt_action s) (tls_state s) 8 (pkt_remain s) (skip_remain s) (extra_packets s)
      (extra_packet_queue_after s) (dst s) (io s)) k)) w.

(** A server is opened, logs in and is released. *)
Definition toy_launched : World (list Z) := after (launch_new_connection calm_env toy_config 1 true) toy_world.
Definition toy_idle : World (list Z) :=
  after (release_server calm_env toy_config disconnect_depth 1) (toy_ready 1 toy_launched).

(** A client is accepted, joins the pool and logs in. *)
Definition toy_accepted : World (list Z) := after (accept_client calm_env 7 false) toy_idle.
Definition toy_attached : World (list Z) :=
  after (sk_mod 2 (set_db (Some 1%positive))) (after (sk_mod 2 (set_pool (Some 1%positive))) toy_accepted).
Definition toy_client : World (list Z) := after (finish_client_login calm_env toy_config 2) toy_attached.

(** It gets the server for a query. *)
Definition toy_linked : World (list Z) := after (find_server calm_env toy_config 2) toy_client.

(** The run returns. *)
Definition returns {K A} (m : SM (World K) A) (w : World K) : bool := match m w with Ok _ => true | _ => false end.

Lemma after_run {K A} (m : SM (World K) A) w : returns m w = true -> exists a, m w = Ok (a, after m w).
Proof. unfold returns, after. destruct (m w) as [[a w']| | |]; try done. by exists a. Qed.

Lemma after_run_unit {K} (m : SM (World K) unit) w : returns m w = true -> m w = Ok (tt, after m w).
Proof. intros Hr. by destruct (after_run m w Hr) as [[] Ha]. Qed.

Lemma after_sk_mod {K} x f (w : World K) k :
  w_sockets w !! x = Some k -> after (sk_mod x f) w = set_sockets (<[x := f k]> (w_sockets w)) w.
Proof. intros Hk. unfold after, sk_mod, sk_get, mbind, SM_bind, getS, found, lift, modS. by rewrite Hk. Qed.

(** A computed part of a socket. *)
Lemma socket_part {A} (g : PgSocket -> A) {K} x (w : World K) k a :
  (g <$> w_sockets w !! x) = Some a -> w_sockets w !! x = Some k -> g k = a.
Proof. intros Hg Hk. rewrite Hk in Hg. by injection Hg. Qed.

Lemma socket_exists {K} x (w : World K) :
  (match w_sockets w !! x with Some _ => true | None => false end) = true -> exists k, w_sockets w !! x = Some k.
Proof. destruct (w_sockets w !! x); [eauto|done]. Qed.

Lemma reachable_step {K} `{Realloc} (E : ObjEnv K) cf w w' : reachable E cf w -> pooler_step E cf w w' -> reachable E cf w'.
Proof. intros (w0 & H0 & Hr) Hs. exists w0. split; [done|]. by eapply rtc_r. Qed.

Lemma reachable_attach {K} `{Realloc} (E : ObjEnv K) cf c p w :
  reachable E cf w -> (sk_state <$> w_sockets w !! c) = Some CL_LOGIN ->
  reachable E cf (after (sk_mod c (set_pool (Some p))) w).
Proof.
  intros Hr Hst. apply fmap_Some in Hst as (k & Hk & Hst). rewrite (after_sk_mod c _ w k Hk).
  eapply reachable_step; [exact Hr|]. by apply PS_attach.
Qed.

Lemma toy_world_reachable : reachable calm_env toy_config toy_world.
Proof. exists toy_world. split; [apply toy_world_initial|done]. Qed.

Lemma toy_launched_run : launch_new_connection calm_env toy_config 1 true toy_world = Ok (tt, toy_launched).
Proof. refine (after_run_unit (launch_new_connection calm_env toy_config 1 true) toy_world _). by vm_compute. Qed.

Lemma toy_linked_run : find_server calm_env toy_config 2 toy_client = Ok (true, toy_linked).
Proof.
  destruct (after_run (find_server calm_env toy_config 2) toy_client) as [r Hr]; [by vm_compute|].
  assert (Hb : match find_server calm_env toy_config 2 toy_client with Ok (b, _) => b | _ => false end = true)
    by (by vm_compute).
  rewrite Hr in Hb. rewrite Hr, Hb. reflexivity.
Qed.

Lemma toy_idle_reachable : reachable calm_env toy_config toy_idle.
Proof.
  assert (R1 : reachable calm_env toy_config toy_launched).
  { eapply reachable_step; [apply toy_world_reachable|]. exact (PS_launch _ _ 1 true _ _ toy_launched_run). }
  assert (R2 : reachable calm_env toy_config (toy_ready 1 toy_launched)).
  { eapply reachable_step; [exact R1|]. apply PS_other. by vm_compute. }
  eapply reachable_step; [exact R2|].
  destruct (after_run (release_server calm_env toy_config disconnect_depth 1) (toy_ready 1 toy_launched)) as [r Hr];
    [by vm_compute|].
  refine (PS_release _ _ 1 r _ _ _ Hr). intros ks c Hks _ Hl. exfalso.
  assert (Hn : (v_link <$> vs (view (toy_ready 1 toy_launched)) !! 1%positive) = Some None) by (by vm_compute).
  rewrite Hks in Hn. cbn in Hn. congruence.
Qed.

Lemma toy_client_reachable : reachable calm_env toy_config toy_client.
Proof.
  assert (R1 : reachable calm_env toy_config toy_accepted).
  { eapply reachable_step; [apply toy_idle_reachable|].
    destruct (after_run (accept_client calm_env 7 false) toy_idle) as [r Hr]; [by vm_compute|]. exact (PS_accept _ _ _ _ _ _ _ Hr). }
  assert (R2 : reachable calm_env toy_config (after (sk_mod 2 (set_pool (Some 1%positive))) toy_accepted)).
  { apply reachable_attach; [exact R1|]. by vm_compute. }
  assert (R3 : reachable calm_env toy_config toy_attached).
  { eapply reachable_step; [exact R2|]. apply PS_other. by vm_compute. }
  eapply reachable_step; [exact R3|].
  destruct (after_run (finish_client_login calm_env toy_config 2) toy_attached) as [r Hr]; [by vm_compute|].
  destruct (socket_exists 2 toy_attached) as [k Hk]; [by vm_compute|].
  refine (PS_login _ _ 2 k r _ _ Hk _ Hr). refine (socket_part sk_link 2 toy_attached k None _ Hk). by vm_compute.
Qed.

Lemma toy_linked_reachable : reachable calm_env toy_config toy_linked.
Proof.
  eapply reachable_step; [apply toy_client_reachable|].
  exact (PS_find_server _ _ _ _ _ _ toy_linked_run).
Qed.

(** ** Theorems about every reachable store *)

Section Theorems.
Context `{Realloc} {K : Type} (E : ObjEnv K) `{!EnvOk E} (cf : Config).
Implicit Types w : World K.

(** C3: The lists and the states agree in every reachable store: a socket is
    in the list that its state and pool name, in no other, and once. *)
Theorem lists_match_states w :
  reachable E cf w ->
  (forall x sl, x ∈ lst (w_lists w) sl <->
     exists k, w_sockets w !! x = Some k /\ slot_of (sk_state k) (sk_pool k) = Some sl) /\
  (forall sl, NoDup (lst (w_lists w) sl)) /\
  (forall x k, w_sockets w !! x = Some k -> is_Some (slot_of (sk_state k) (sk_pool k))).
Proof using All.
  intros Hr. destruct (reachable_consistent E cf w Hr) as ((Hin & Hnd & Hsome) & _). split; [|split].
  - intros x sl. rewrite (Hin x sl). split.
    + intros (kv & Hkv & Hs). apply view_vs_inv in Hkv as (k & Hk & ->). by exists k.
    + intros (k & Hk & Hs). exists (sview k). split; [by apply view_vs_some|done].
  - exact Hnd.
  - intros x k Hk. apply (Hsome x (sview k)). by apply view_vs_some.
Qed.

(** C2: A server serves one client: in every reachable store the links are
    mutual, so no two sockets are linked to the same one, and the states of
    the two ends fit. *)
Theorem links_are_exclusive w :
  reachable E cf w ->
  (forall x k y, w_sockets w !! x = Some k -> sk_link k = Some y ->
     exists k', w_sockets w !! y = Some k' /\ sk_link k' = Some x /\
       (pair_ok (sview k) (sview k') = true \/ pair_ok (sview k') (sview k) = true)) /\
  (forall a b ka kb s, w_sockets w !! a = Some ka -> w_sockets w !! b = Some kb ->
     sk_link ka = Some s -> sk_link kb = Some s -> a = b).
Proof using All.
  intros Hr. pose proof (reachable_consistent E cf w Hr) as Hv.
  assert (Hmut : forall x k y, w_sockets w !! x = Some k -> sk_link k = Some y ->
     exists k', w_sockets w !! y = Some k' /\ sk_link k' = Some x /\
       (pair_ok (sview k) (sview k') = true \/ pair_ok (sview k') (sview k) = true)).
  { intros x k y Hk Hl. destruct (link_partner x y k w Hv Hk Hl) as (_ & k' & Hk' & Hl' & Hp). by exists k'. }
  split; [exact Hmut|]. intros a b ka kb s Ha Hb Hla Hlb.
  destruct (Hmut a ka s Ha Hla) as (k1 & Hk1 & Hl1 & _). destruct (Hmut b kb s Hb Hlb) as (k2 & Hk2 & Hl2 & _). congruence.
Qed.

(** C25: A server that waits for work (IDLE, USED or TESTED) belongs to nobody:
    it has no client, no cancel request aims at it, and no socket refers to
    it by link or as the server to cancel. *)
Theorem idle_servers_are_free w s ks :
  reachable E cf w -> w_sockets w !! s = Some ks -> idle_state (sk_state ks) = true ->
  sk_link ks = None /\ sk_canceling_clients ks = [] /\
  (forall x k, w_sockets w !! x = Some k -> sk_link k <> Some s /\ sk_canceled_server k <> Some s).
Proof using All.
  intros Hr Hs Hst. pose proof (reachable_consistent E cf w Hr) as Hv.
  assert (Hl : sk_link ks = None) by (by eapply evictable_unlinked).
  assert (Hc : sk_canceling_clients ks = []).
  { apply (no_canceling (vs (view w)) s (sview ks)); [apply Hv|by apply view_vs_some|]. cbn. by destruct (sk_state ks). }
  split; [done|]. split; [done|]. intros x k Hk. split; intros Hx.
  - destruct (link_partner x s k w Hv Hk Hx) as (_ & k' & Hk' & Hl' & _). congruence.
  - pose proof Hv as (_ & _ & (Hcan & _) & _). destruct (Hcan x (sview k) s) as (_ & kv & Hkv & Hin);
      [by apply view_vs_some|done|]. apply view_vs_inv in Hkv as (k' & Hk' & ->). cbn in Hin. simplify_eq.
    rewrite Hc in Hin. by apply elem_of_nil in Hin.
Qed.

(** C27: The connection counts that max_db_connections and max_user_connections
    are compared with are exact: for each database (user), the number of live
    servers in the pools of that database (user). *)
Theorem connection_counts_exact w :
  reachable E cf w ->
  (forall d r, w_dbs w !! d = Some r -> db_connection_count r = nservers (view w) (of_db d)) /\
  (forall u r, w_users w !! u = Some r -> gu_connection_count r = nservers (view w) (of_user u)).
Proof using All.
  intros Hr. destruct (reachable_consistent E cf w Hr) as (_ & _ & _ & (_ & Hd & Hu) & _). split.
  - intros d r Hdr. apply Hd. cbn. by rewrite lookup_fmap, Hdr.
  - intros u r Hur. apply Hu. cbn. by rewrite lookup_fmap, Hur.
Qed.

(** C4: The operations of objects.c and the janitor's scans implement the
    abstract pool: whatever one of them does to a reachable store is a sequence
    of the transitions of PoolSpec.v on its abstract state. *)
Theorem operations_refine_pool_spec w w' :
  reachable E cf w -> pooler_step E cf w w' -> rtc vstep (view w) (view w').
Proof using All. intros Hr Hs. exact (pooler_step_runs E cf w w' (reachable_consistent E cf w Hr) Hs). Qed.

(** C26: When [find_server] says yes to a client that had none, the client has
    a server of its own pool to itself: active, linked back, in step with the
    protocol, not to be closed, and with no cancel request aimed at it. *)
Theorem find_server_gives_clean_server w c k w' :
  reachable E cf w -> w_sockets w !! c = Some k -> sk_link k = None -> find_server E cf c w = Ok (true, w') ->
  exists p, sk_pool k = Some p /\ linked_clean p c w'.
Proof using All.
  intros Hr Hc Hl Hf. apply (proj2 (find_server_wp E cf c w (reachable_consistent E cf w Hr) _ _ Hf) k); done.
Qed.

(** C28: A connection is opened only within the limits: either nothing is
    opened, or it is a connection to a peer or for a cancel request, or the
    pool (or its reserve) has room, and after evictions the database and the
    user are below their limits.  No other attempt of the pool is under way. *)
Theorem launch_within_limits p b w w' :
  reachable E cf w -> launch_new_connection E cf p b w = Ok (tt, w') ->
  (evicts (view w) (view w') /\ conf w' = conf w) \/
  exists w1 w2, evicts (view w) (view w1) /\ conf w1 = conf w /\ evicts (view w1) (view w2) /\ conf w2 = conf w /\
    no_new p (view w2) /\ open_server E cf p w2 = Ok (tt, w') /\
    (w2 = w1 /\ forced cf p w1 \/
     pool_room cf p w1 /\ exists pool c cr u, w_pools w1 !! p = Some pool /\ pl_user_credentials pool = Some c /\
       w_creds w1 !! c = Some cr /\ cr_global_user cr = Some u /\ db_room cf (pl_db pool) w2 /\ user_room cf u w2).
Proof using All.
  intros Hr Hl. pose proof (reachable_consistent E cf w Hr) as Hv. unfold launch_new_connection in Hl.
  apply bind_ok in Hl as (d & w1 & Hd & Hl). destruct (launch_decides E cf p b w Hv d w1 Hd) as (He1 & Hc1 & Hno & Hf & Ha).
  assert (Hv1 : Inv (view w1)) by (by eapply evicts_inv). destruct d; [injection Hl as <-; by left| |].
  - apply bind_ok in Hl as (room & w2 & Hm & Hl). destruct (make_room_wp E cf p b w1 Hv1 room w2 Hm) as (He2 & Hc2 & Hroom).
    destruct room; [|injection Hl as <-; left; split; [by eapply evicts_trans|congruence]]. right. exists w1, w2.
    split_and!; try done; [congruence|by apply He2, Hno|]. right. split; [by apply Ha|]. by apply Hroom.
  - right. exists w1, w1. split_and!; try done; [apply evicts_refl|by apply Hno|]. left. split; [done|]. by apply Hf.
Qed.
(** The end of a transaction: when [release_server] returns for a server
    that served a client, the client is in the state it was in, without a
    server, and nothing is linked to it. *)
Theorem release_detaches_client w s c ks kc r w' :
  reachable E cf w -> w_sockets w !! s = Some ks -> w_sockets w !! c = Some kc -> sk_link ks = Some c ->
  sk_state kc = CL_ACTIVE \/ sk_state kc = CL_LOGIN -> release_server E cf disconnect_depth s w = Ok (r, w') ->
  exists kc', w_sockets w' !! c = Some kc' /\ sk_state kc' = sk_state kc /\ sk_link kc' = None /\
    forall x kx, w_sockets w' !! x = Some kx -> sk_link kx <> Some c.
Proof using All.
  intros Hr Hs Hc Hl Hst Hrel. pose proof (reachable_consistent E cf w Hr) as Hv.
  destruct (link_partner s c ks w Hv Hs Hl) as (Hne & kc' & Hkc' & Hlc & _). simplify_eq.
  destruct (release_partner_parked _ s c ks kc w (proj2 (proj2 (disconnects_all E cf disconnect_depth)))
    Hv Hs Hc Hl Hlc Hne Hst _ _ Hrel) as [Hruns Hpk].
  destruct (parked_lookup c _ w' Hpk) as (kc' & Hkc' & Hst' & Hl'). exists kc'. split_and!; try done.
  intros x kx Hx Hlx. destruct (link_partner x c kx w') as (_ & k2 & Hk2 & Hl2 & _); [by eapply runs_inv|done|done|].
  congruence.
Qed.

(** A connection that is closed stays closed: when [disconnect_server]
    (or [disconnect_client]) returns, the socket is in state JUSTFREE, without
    a link, and in the list of sockets to be freed, although the calls it
    makes may close or release other sockets first. *)
Theorem disconnect_ends_justfree w :
  reachable E cf w ->
  (forall s term reason w', disconnect_server E cf disconnect_depth s term reason w = Ok (tt, w') ->
     s ∈ lst (w_lists w') justfree_server_list /\
     exists k, w_sockets w' !! s = Some k /\ sk_state k = SV_JUSTFREE /\ sk_link k = None) /\
  (forall c notify reason w', disconnect_client E cf disconnect_depth c notify reason w = Ok (tt, w') ->
     c ∈ lst (w_lists w') justfree_client_list /\
     exists k, w_sockets w' !! c = Some k /\ sk_state k = CL_JUSTFREE /\ sk_link k = None).
Proof using All.
  intros Hr. pose proof (reachable_consistent E cf w Hr) as Hv.
  pose proof (disconnects_all E cf 4) as (_ & Hdc & Hrs).
  assert (Hend : forall x k w' st sl, Inv (view w') -> vs (view w') !! x = Some k -> v_state k = st ->
     (st = SV_JUSTFREE \/ st = CL_JUSTFREE) -> slot_of st (v_pool k) = Some sl ->
     x ∈ lst (w_lists w') sl /\ exists k', w_sockets w' !! x = Some k' /\ sk_state k' = st /\ sk_link k' = None).
  { intros x k w' st sl Hv' Hk Hst Hj Hsl. split.
    - apply (proj1 (proj1 Hv')). exists k. split; [done|]. unfold k_slot. by rewrite Hst.
    - pose proof Hk as Hk2. apply view_vs_inv in Hk2 as (k' & Hk' & ->). exists k'. split_and!; [done..|].
      apply (inv_link_none (vs (view w')) x (sview k')); [apply Hv'|done|]. intros k2. unfold pair_ok. rewrite Hst.
      by destruct Hj as [-> | ->], (v_state k2). }
  split.
  - intros s t rs w' Hd. change (disconnect_server_body E cf (disconnect_client E cf 4) s t rs w = Ok (tt, w')) in Hd.
    destruct (disconnect_server_body_wp E cf _ s t rs w Hdc Hv _ _ Hd) as [Hru (k & Hk & Hst)].
    eapply Hend; [by eapply runs_inv|done..|by left|done].
  - intros c n rs w' Hd. change (disconnect_client_body E (disconnect_server E cf 4) (release_server E cf 4) c n None
      (Some (ztake 127 rs)) w = Ok (tt, w')) in Hd.
    assert (Hds : closes_server (disconnect_server E cf 4)).
    { intros s b r k w0 Hv0 Hs Hl. eapply wp_conseq; [by eapply disconnect_unlinked_wp|]. by cbn; intros _ w1 [? _]. }
    destruct (disconnect_client_body_wp E _ _ c n None _ w Hds Hrs Hv _ _ Hd) as [Hru (k & Hk & Hst)].
    eapply Hend; [by eapply runs_inv|done..|by right|done].
Qed.

Context `{!EnvEnds E}.

(** C30: The calls of objects.c that re-enter each other end: on a reachable
    store, closing a server or a client, releasing a server, opening one and
    finding one for a client, and the janitor's scans, stay within the depth
    and the rounds their definitions allow, provided the handlers they call
    return. *)
Theorem operations_terminate w x p :
  reachable E cf w ->
  (forall term reason, disconnect_server E cf disconnect_depth x term reason w <> NoFuel) /\
  (forall notify reason, disconnect_client E cf disconnect_depth x notify reason w <> NoFuel) /\
  (login_ready x (view w) -> release_server E cf disconnect_depth x w <> NoFuel) /\
  (forall evict, launch_new_connection E cf p evict w <> NoFuel) /\
  find_server E cf x w <> NoFuel /\
  launch_recheck E cf p w <> NoFuel /\ scan_unused E cf p w <> NoFuel /\ check_pool_size E cf p w <> NoFuel.
Proof using All.
  intros Hr. pose proof (reachable_consistent E cf w Hr) as Hv. split_and!.
  - intros t rs. by apply (disconnect_server_stops E cf 0).
  - intros n rs. by apply (disconnect_client_linked_stops E cf 1).
  - intros Hready. by apply (release_server_stops E cf 2).
  - intros e. by apply (launch_new_connection_stops E cf).
  - by apply (find_server_stops E cf).
  - by apply (launch_recheck_stops E cf).
  - by apply (scan_unused_stops E cf).
  - by apply (check_pool_size_stops E cf).
Qed.

End Theorems.

(** ** Witnesses *)

#[local] Opaque toy_launched toy_idle toy_accepted toy_attached toy_client toy_linked.

(** The socket of a store, where it is known to exist. *)
Definition toy_socket (x : positive) (w : World (list Z)) : PgSocket :=
  default (fresh_socket CL_FREE None None 0 0) (w_sockets w !! x).

Lemma toy_socket_some x w : (match w_sockets w !! x with Some _ => true | None => false end) = true ->
  w_sockets w !! x = Some (toy_socket x w).
Proof. unfold toy_socket. by destruct (w_sockets w !! x). Qed.

Definition toy_released : World (list Z) := after (release_server calm_env toy_config disconnect_depth 1) toy_linked.
Definition toy_closed : World (list Z) := after (disconnect_server calm_env toy_config disconnect_depth 1 true []) toy_linked.

Lemma toy_idle_server : w_sockets toy_idle !! 1%positive = Some (toy_socket 1 toy_idle).
Proof. apply toy_socket_some. by vm_compute. Qed.
Lemma toy_client_client : w_sockets toy_client !! 2%positive = Some (toy_socket 2 toy_client).
Proof. apply toy_socket_some. by vm_compute. Qed.
Lemma toy_linked_server : w_sockets toy_linked !! 1%positive = Some (toy_socket 1 toy_linked).
Proof. apply toy_socket_some. by vm_compute. Qed.
Lemma toy_linked_client : w_sockets toy_linked !! 2%positive = Some (toy_socket 2 toy_linked).
Proof. apply toy_socket_some. by vm_compute. Qed.
Lemma toy_linked_links :
  sk_link (toy_socket 1 toy_linked) = Some 2%positive /\ sk_link (toy_socket 2 toy_linked) = Some 1%positive /\
  sk_state (toy_socket 2 toy_linked) = CL_ACTIVE.
Proof. by vm_compute. Qed.
Lemma toy_released_run :
  exists r, release_server calm_env toy_config disconnect_depth 1 toy_linked = Ok (r, toy_released).
Proof. refine (after_run (release_server calm_env toy_config disconnect_depth 1) toy_linked _). by vm_compute. Qed.
Lemma toy_closed_run : disconnect_server calm_env toy_config disconnect_depth 1 true [] toy_linked = Ok (tt, toy_closed).
Proof.
  refine (after_run_unit (disconnect_server calm_env toy_config disconnect_depth 1 true []) toy_linked _). by vm_compute.
Qed.
Lemma toy_linked_count : exists r, w_dbs toy_linked !! 1%positive = Some r /\ db_connection_count r = 1.
Proof.
  assert (Hc : (db_connection_count <$> w_dbs toy_linked !! 1%positive) = Some 1) by (by vm_compute).
  apply fmap_Some in Hc as (r & Hr & Hn). exists r. by split.
Qed.
#[local] Opaque toy_released toy_closed toy_socket.

Lemma lists_match_states_witness :
  2%positive ∈ lst (w_lists toy_linked) (PoolSlot 1 active_client_list) <->
  exists k, w_sockets toy_linked !! 2%positive = Some k /\
    slot_of (sk_state k) (sk_pool k) = Some (PoolSlot 1 active_client_list).
Proof.
  exact (proj1 (lists_match_states calm_env toy_config toy_linked toy_linked_reachable) 2%positive
    (PoolSlot 1 active_client_list)).
Defined.

Lemma links_are_exclusive_witness :
  exists k', w_sockets toy_linked !! 1%positive = Some k' /\ sk_link k' = Some 2%positive.
Proof.
  pose proof (proj1 (links_are_exclusive calm_env toy_config toy_linked toy_linked_reachable) _ _ _
    toy_linked_client (proj1 (proj2 toy_linked_links))) as (k' & Hk' & Hl' & _).
  exists k'. split; [exact Hk'|exact Hl'].
Defined.

Lemma idle_servers_are_free_witness : sk_link (toy_socket 1 toy_idle) = None.
Proof.
  refine (proj1 (idle_servers_are_free calm_env toy_config toy_idle 1 (toy_socket 1 toy_idle) toy_idle_reachable
    toy_idle_server _)). by vm_compute.
Defined.

Lemma connection_counts_exact_witness : nservers (view toy_linked) (of_db 1) = 1.
Proof.
  destruct toy_linked_count as (r & Hr & <-). symmetry.
  exact (proj1 (connection_counts_exact calm_env toy_config toy_linked toy_linked_reachable) _ _ Hr).
Defined.

Lemma operations_refine_pool_spec_witness : rtc vstep (view toy_client) (view toy_linked).
Proof.
  exact (operations_refine_pool_spec calm_env toy_config toy_client toy_linked toy_client_reachable
    (PS_find_server _ _ _ _ _ _ toy_linked_run)).
Defined.

Lemma find_server_gives_clean_server_witness :
  exists p, sk_pool (toy_socket 2 toy_client) = Some p /\ linked_clean p 2 toy_linked.
Proof.
  refine (find_server_gives_clean_server calm_env toy_config toy_client 2 (toy_socket 2 toy_client) toy_linked
    toy_client_reachable toy_client_client _ toy_linked_run). by vm_compute.
Defined.

Lemma launch_within_limits_witness :
  (evicts (view toy_world) (view toy_launched) /\ conf toy_launched = conf toy_world) \/
  exists w1 w2, evicts (view toy_world) (view w1) /\ conf w1 = conf toy_world /\ evicts (view w1) (view w2) /\
    conf w2 = conf toy_world /\ no_new 1 (view w2) /\ open_server calm_env toy_config 1 w2 = Ok (tt, toy_launched) /\
    (w2 = w1 /\ forced toy_config 1 w1 \/
     pool_room toy_config 1 w1 /\ exists pool c cr u, w_pools w1 !! 1%positive = Some pool /\
       pl_user_credentials pool = Some c /\ w_creds w1 !! c = Some cr /\ cr_global_user cr = Some u /\
       db_room toy_config (pl_db pool) w2 /\ user_room toy_config u w2).
Proof.
  exact (launch_within_limits calm_env toy_config 1 true toy_world toy_launched toy_world_reachable toy_launched_run).
Defined.

Lemma release_detaches_client_witness :
  exists kc', w_sockets toy_released !! 2%positive = Some kc' /\ sk_state kc' = CL_ACTIVE /\ sk_link kc' = None.
Proof.
  destruct toy_released_run as [r Hr]. pose proof (proj2 (proj2 toy_linked_links)) as Hst.
  pose proof (release_detaches_client calm_env toy_config toy_linked 1 2 _ _ r toy_released toy_linked_reachable
    toy_linked_server toy_linked_client (proj1 toy_linked_links) (or_introl Hst) Hr) as (kc' & Hk & Hst' & Hl & _).
  exists kc'. split; [exact Hk|]. split; [|exact Hl]. rewrite Hst'. exact Hst.
Defined.

Lemma disconnect_ends_justfree_witness : 1%positive ∈ lst (w_lists toy_closed) justfree_server_list.
Proof.
  exact (proj1 (proj1 (disconnect_ends_justfree calm_env toy_config toy_linked toy_linked_reachable) _ _ _ _ toy_closed_run)).
Defined.

Lemma operations_terminate_witness :
  disconnect_server calm_env toy_config disconnect_depth 1 true [] toy_linked <> NoFuel.
Proof. exact (proj1 (operations_terminate calm_env toy_config toy_linked 1 1 toy_linked_reachable) true []). Defined.
