(* ===== verification/Isolation.v ===== *)
(** * What closing a lone client leaves alone (src/objects.c)

    A client that logs in and has no server can be closed without touching
    any other socket; so a cancel request with a key nobody holds has no
    effect on others.  A server that is held back by a cancel request escapes
    [tag_pool_dirty]. *)

From S2P Require Import Prelude Protocol MBuf PktBuf Proto IOBuf SBuf PoolSpec World Objects Launch Cancel Limits.
From S2P Require Import Terminate Pooler.
From stdpp Require Import base option countable gmap list strings.
#[local] Open Scope Z_scope.

(** ** Marking the servers of a pool *)

Section Marks.
Context {K : Type}.
Implicit Types w : World K.







End Marks.

(** ** Closing a lone client *)

Section Others.
Context `{Realloc} {K : Type} (E : ObjEnv K) `{!EnvOk E} (cf : Config).
Implicit Types w : World K.

(** The sockets other than [x]. *)
Definition others (x : positive) w : gmap positive PgSocket := delete x (w_sockets w).

Lemma others_sk_mod x f : keeps (K := K) (others x) (sk_mod x f).
Proof using. intros w. apply wp_sk_mod. intros k _. unfold others; cbn. apply delete_insert_eq. Qed.
Lemma others_db_mod x d f : keeps (K := K) (others x) (db_mod d f).
Proof using. intros w. by apply wp_db_mod. Qed.
Lemma others_gu_mod x u f : keeps (K := K) (others x) (gu_mod u f).
Proof using. intros w. by apply wp_gu_mod. Qed.
Lemma others_statlist_remove x s y : keeps (K := K) (others x) (statlist_remove s y).
Proof using. unfold statlist_remove. keeps_solve. Qed.
Lemma others_statlist_append x s y : keeps (K := K) (others x) (statlist_append s y).
Proof using. unfold statlist_append. keeps_solve. Qed.
Lemma others_client_free x : keeps (K := K) (others x) (client_free x).
Proof using. intros w. apply wp_modS. unfold others; cbn. apply delete_delete_eq. Qed.
Hint Resolve others_db_mod others_gu_mod others_statlist_remove others_statlist_append others_client_free : keeps.

(** As [keeps_solve], for changes of [x] itself. *)
Ltac others_solve := repeat (apply others_sk_mod || keeps_step).

Lemma others_change_client_state x st : keeps (K := K) (others x) (change_client_state x st).
Proof using. unfold change_client_state, remove_from_pool, append_to_pool, in_pool. others_solve. Qed.
Lemma others_on_sbuf {A} x (m : SM (SBuf * K) A) : keeps (others x) (on_sbuf x m).
Proof using. unfold on_sbuf. others_solve. Qed.
Lemma others_ask_kernel {A} x (f : K -> A * K) : keeps (others x) (ask_kernel f).
Proof using. unfold ask_kernel. others_solve. Qed.
Hint Resolve others_change_client_state others_on_sbuf others_ask_kernel : keeps.
Lemma others_send_immediate x y b : keeps (others x) (send_immediate E y b).
Proof using. unfold send_immediate. others_solve. Qed.
Hint Resolve others_send_immediate : keeps.
Lemma others_finish_client x n st r : keeps (others x) (finish_client E x n st r).
Proof using. unfold finish_client, free_client_parts, close_sbuf, send_error. others_solve. Qed.
Lemma sockets_uncount x : keeps (K := K) w_sockets (uncount_client x).
Proof using.
  assert (Hd : forall d f, keeps (K := K) w_sockets (db_mod d f)) by (intros d f w; by apply wp_db_mod).
  assert (Hu : forall u f, keeps (K := K) w_sockets (gu_mod u f)) by (intros d f w; by apply wp_gu_mod).
  unfold uncount_client. keeps_solve.
Qed.

(** Closing a client that logs in and has no server. *)
Lemma disconnect_lone_client c k n r w :
  Inv (view w) -> w_sockets w !! c = Some k -> sk_state k = CL_LOGIN -> sk_link k = None ->
  wp (disconnect_c E cf c n r) (fun _ w' => others c w' = others c w /\ closed_client c (view w')) w.
Proof using.
  intros Hv Hc Hst Hl. unfold disconnect_c, disconnect_depth.
  change (wp (disconnect_client_body E (disconnect_server E cf 4) (release_server E cf 4) c n None (Some (ztake 127 r)))
    (fun _ w' => others c w' = others c w /\ closed_client c (view w')) w).
  unfold disconnect_client_body. apply wp_bind. eapply wp_conseq; [apply wp_and; [apply sockets_uncount|]|].
  { apply wp_vkeep; [vkeep_solve|]. intros ? w1 Hv1. exact Hv1. }
  cbv beta. intros _ w1 [Hs1 Hv1]. apply wp_bind. unfold leave_client. apply wp_bind, wp_sk_get. intros k1 Hk1.
  rewrite Hs1, Hc in Hk1. injection Hk1 as <-. rewrite Hst, Hl. apply wp_ret.
  eapply wp_conseq; [apply wp_and; [apply others_finish_client|eapply (finish_client_wp E c n None _ k)]|].
  - by rewrite Hs1.
  - done.
  - apply (no_canceled (vs (view w)) c (sview k)); [apply Hv|by apply view_vs_some|]. cbn. by rewrite Hst.
  - cbv beta. intros _ w2 [Ho [_ Hcl]]. split; [|done]. rewrite Ho. unfold others. by rewrite Hs1.
Qed.

(** Nobody in the lists of the pools [ps] has the key. *)
Definition nobody_has (key : list Z) (ps : list positive) w : Prop :=
  forall p c k, p ∈ ps ->
    c ∈ lst (w_lists w) (PoolSlot p active_client_list) \/ c ∈ lst (w_lists w) (PoolSlot p waiting_client_list) ->
    w_sockets w !! c = Some k -> sk_cancel_key k <> key.

Lemma find_key_none key ps w :
  nobody_has key ps w -> wp (find_key key ps) (fun o w' => w' = w /\ o = None) w.
Proof using.
  assert (Hin : forall l, (forall c k, c ∈ l -> w_sockets w !! c = Some k -> sk_cancel_key k <> key) ->
            wp (find_key_in key l) (fun o w' => w' = w /\ o = None) w).
  { intros l. induction l as [|c l IH]; intros Hl; cbn [find_key_in]; [by apply wp_ret|].
    apply wp_bind, wp_sk_get. intros k Hk. rewrite decide_False by (apply (Hl c); [by left|done]).
    apply IH. intros c' k' Hc'. apply Hl. by right. }
  induction ps as [|p ps IH]; intros Hn; cbn [find_key]; [by apply wp_ret|].
  apply wp_bind, wp_sockets_in, wp_bind. eapply wp_conseq; [apply Hin|].
  { intros c k Hc. apply (Hn p c); [by left|by left]. }
  cbv beta. intros o w1 [-> ->]. apply wp_bind, wp_sockets_in, wp_bind. eapply wp_conseq; [apply Hin|].
  { intros c k Hc. apply (Hn p c); [by left|by right]. }
  cbv beta. intros o w1 [-> ->]. apply IH. intros p' c k Hp'. apply Hn. by right.
Qed.

(** No peer is configured under the id. *)
Definition no_peer (peer_id : Z) w : Prop :=
  forall p d, p ∈ w_peer_list w -> w_dbs w !! p = Some d -> db_peer_id d <> peer_id.

Lemma find_peer_none n w : no_peer n w -> wp (find_peer n) (fun o w' => w' = w /\ o = None) w.
Proof using.
  intros Hn. unfold find_peer. apply wp_bind, wp_getS. revert Hn. unfold no_peer. generalize (w_peer_list w) as l.
  intros l. induction l as [|p l IH]; intros Hl; cbn [find_peer_in]; [by apply wp_ret|].
  apply wp_bind, wp_db_get. intros d Hd. rewrite decide_False by (apply (Hl p); [by left|done]).
  apply IH. intros p' d' Hp'. apply Hl. by right.
Qed.

(** The request is for nobody.  Without peering its key is no client's.  With
    peering, a key of this process is, with its hop count restored, no client's;
    a key of another process has no hop left or names a peer that is not
    configured. *)
Definition for_nobody (key : list Z) w : Prop :=
  if bool_decide (cf_peer_id cf > 0) && bool_decide (cf_peer_id cf <> key_peer key)
  then key_ttl key = 0 \/ no_peer (key_peer key) w
  else nobody_has (if bool_decide (cf_peer_id cf > 0) then restore_ttl key else key) (w_pool_list w) w.

Definition rekeyed (c : positive) (k : PgSocket) (key : list Z) w : World K :=
  set_sockets (<[c := set_cancel_key key k]> (w_sockets w)) w.

(** The key of a socket that is closed next plays no part. *)
Lemma disconnect_rekeyed c k key n r w :
  Inv (view w) -> w_sockets w !! c = Some k -> sk_state k = CL_LOGIN -> sk_link k = None ->
  wp (disconnect_c E cf c n r) (fun _ w' => others c w' = others c w /\ closed_client c (view w')) (rekeyed c k key w).
Proof using.
  intros Hv Hc Hst Hl. assert (Ev : view (rekeyed c k key w) = view w) by (by eapply view_same).
  eapply wp_conseq; [apply (disconnect_lone_client c (set_cancel_key key k)); [by rewrite Ev|apply lookup_insert_eq|done|done]|].
  cbv beta. intros _ w' [Ho ?]. split; [|done]. rewrite Ho. apply delete_insert_eq.
Qed.

(** A client that logs in is in no list of a pool. *)
Lemma nobody_has_rekeyed c k key key' ps w :
  Inv (view w) -> w_sockets w !! c = Some k -> sk_state k = CL_LOGIN ->
  nobody_has key ps w -> nobody_has key ps (rekeyed c k key' w).
Proof using.
  intros [(Hin & _) _] Hc Hst Hno p x kx Hp Hx Hkx. cbn in Hx, Hkx.
  assert (Hne : x <> c).
  { intros ->. assert (Hs : exists l, c ∈ lst (vlists (view w)) (PoolSlot p l)) by (destruct Hx; eauto). destruct Hs as [l Hs].
    apply Hin in Hs as (kv & Hkv & Hs). rewrite (view_vs_some _ _ _ Hc) in Hkv. injection Hkv as <-. unfold k_slot, sview in Hs. cbn in Hs. by rewrite Hst in Hs. }
  rewrite lookup_insert_ne in Hkx by done. by apply (Hno p x kx Hp Hx).
Qed.

(** C31: A cancel request that is for nobody only costs its sender the
    connection: every other socket is left exactly as it was.  A request is for
    nobody when no client of this process holds its key and it is not to be
    passed on: with peering, a key of another process is passed on to that
    process, unless its hops are used up or the peer is not configured. *)
Theorem unknown_cancel_key_is_harmless w c k w' :
  reachable E cf w -> w_sockets w !! c = Some k -> sk_link k = None -> for_nobody (sk_cancel_key k) w ->
  accept_cancel_request E cf c w = Ok (tt, w') ->
  (forall x, x <> c -> w_sockets w' !! x = w_sockets w !! x) /\
  exists k', w_sockets w' !! c = Some k' /\ sk_state k' = CL_JUSTFREE.
Proof using All.
  intros Hr Hc Hl Hno Ha. pose proof (reachable_consistent E cf w Hr) as Hv. revert Ha.
  assert (Hwp : wp (accept_cancel_request E cf c) (fun _ w' => others c w' = others c w /\ closed_client c (view w')) w).
  { unfold accept_cancel_request. apply wp_bind, wp_sk_get. intros k' Hk'. simplify_eq.
    apply wp_bind, wp_AssertS. intros Hst. apply bool_decide_eq_true_1 in Hst.
    unfold for_nobody in Hno. destruct (bool_decide (cf_peer_id cf > 0) && _).
    - unfold accept_cancel_request_for_peer. apply wp_bind, wp_sk_get. intros k' Hk'. simplify_eq.
      case_bool_decide as Httl; [by eapply disconnect_lone_client|]. destruct Hno as [?|Hno]; [done|].
      apply wp_bind, wp_sk_mod. intros k' Hk'. simplify_eq. apply wp_bind. fold (rekeyed c k (spend_ttl (sk_cancel_key k)) w).
      eapply wp_conseq; [by apply find_peer_none|]. cbv beta. intros o w1 [-> ->]. by apply disconnect_rekeyed.
    - assert (Hgo : forall key w1, (w1 = w /\ key = sk_cancel_key k) \/ w1 = rekeyed c k key w -> nobody_has key (w_pool_list w1) w1 ->
        wp (k ← sk_get c; w ← getS; found ← find_key (sk_cancel_key k) (w_pool_list w);
            match found with
            | None => disconnect_c E cf c false (str "failed cancel request")
            | Some (pool, main_client) => cancel_query_of E cf c pool main_client
            end) (fun _ w' => others c w' = others c w /\ closed_client c (view w')) w1).
      { intros key w1 Hw1 Hno1. apply wp_bind, wp_sk_get. intros k1 Hk1. apply wp_bind, wp_getS, wp_bind.
        assert (sk_cancel_key k1 = key) as -> by (destruct Hw1 as [[-> ->]| ->]; [congruence|cbn in Hk1; rewrite lookup_insert_eq in Hk1; by injection Hk1 as <-]).
        eapply wp_conseq; [by apply find_key_none|]. cbv beta. intros o w2 [-> ->].
        destruct Hw1 as [[-> _]| ->]; [by apply (disconnect_lone_client c k)|by apply disconnect_rekeyed]. }
      destruct (bool_decide (cf_peer_id cf > 0)).
      + apply wp_bind, wp_sk_mod. intros k' Hk'. simplify_eq. apply (Hgo (restore_ttl (sk_cancel_key k))); [by right|].
        by apply nobody_has_rekeyed.
      + apply wp_bind, wp_ret. apply (Hgo (sk_cancel_key k)); auto. }
  intros Ha. destruct (Hwp _ _ Ha) as [Ho (kv & Hkv & Hst)]. split.
  - intros x Hx. pose proof (f_equal (fun m => m !! x) Ho) as Hox. cbn in Hox. unfold others in Hox.
    by rewrite !lookup_delete_ne in Hox.
  - apply view_vs_inv in Hkv as (k' & Hk' & ->). by exists k'.
Qed.


End Others.

(** ** Examples *)

#[local] Existing Instance zero_Realloc.

(** A third connection brings a key nobody has. *)
Definition toy_stranger : World (list Z) :=
  after (sk_mod 3 (set_cancel_key (repeat 9 8))) (after (accept_client calm_env 8 false) toy_linked).
Definition toy_stranger_gone : World (list Z) := after (accept_cancel_request calm_env toy_config 3) toy_stranger.

Lemma toy_stranger_reachable : reachable calm_env toy_config toy_stranger.
Proof.
  assert (R1 : reachable calm_env toy_config (after (accept_client calm_env 8 false) toy_linked)).
  { eapply reachable_step; [apply toy_linked_reachable|].
    destruct (after_run (accept_client calm_env 8 false) toy_linked) as [r Hr]; [by vm_compute|].
    exact (PS_accept _ _ _ _ _ _ _ Hr). }
  eapply reachable_step; [exact R1|]. apply PS_other. by vm_compute.
Qed.

Lemma toy_stranger_run : accept_cancel_request calm_env toy_config 3 toy_stranger = Ok (tt, toy_stranger_gone).
Proof. refine (after_run_unit (accept_cancel_request calm_env toy_config 3) toy_stranger _). by vm_compute. Qed.

Lemma toy_stranger_socket : w_sockets toy_stranger !! 3%positive = Some (toy_socket 3 toy_stranger).
Proof. apply toy_socket_some. by vm_compute. Qed.

Lemma toy_stranger_key : nobody_has (sk_cancel_key (toy_socket 3 toy_stranger)) (w_pool_list toy_stranger) toy_stranger.
Proof.
  assert (Hl : forall l, l = active_client_list \/ l = waiting_client_list ->
    forallb (fun c => match w_sockets toy_stranger !! c with
                      | Some k => negb (bool_decide (sk_cancel_key k = repeat 9 8)) | None => true end)
      (lst (w_lists toy_stranger) (PoolSlot 1 l)) = true).
  { intros l [-> | ->]; by vm_compute. }
  assert (Hk : sk_cancel_key (toy_socket 3 toy_stranger) = repeat 9 8) by (by vm_compute).
  assert (Hp : w_pool_list toy_stranger = [1%positive]) by (by vm_compute).
  intros p c k Hin Hc Hck. rewrite Hp, list_elem_of_singleton in Hin. rewrite Hin in Hc. rewrite Hk.
  assert (Hfor : exists l, (l = active_client_list \/ l = waiting_client_list) /\ c ∈ lst (w_lists toy_stranger) (PoolSlot 1 l)).
  { destruct Hc as [Hc|Hc]; eexists; split; [by left|exact Hc|by right|exact Hc]. }
  destruct Hfor as (l & Hlist & Hcl). specialize (Hl l Hlist). rewrite forallb_forall in Hl.
  specialize (Hl c (proj1 (list_elem_of_In _ _) Hcl)). rewrite Hck in Hl. by apply negb_true_iff, bool_decide_eq_false_1 in Hl.
Qed.

#[local] Opaque toy_stranger toy_stranger_gone toy_linked.

Lemma unknown_cancel_key_is_harmless_witness :
  w_sockets toy_stranger_gone !! 1%positive = w_sockets toy_stranger !! 1%positive.
Proof.
  refine (proj1 (unknown_cancel_key_is_harmless calm_env toy_config toy_stranger 3 (toy_socket 3 toy_stranger)
    toy_stranger_gone toy_stranger_reachable toy_stranger_socket _ toy_stranger_key toy_stranger_run) 1%positive _);
    [by vm_compute|discriminate].
Defined.

(** The client's query is canceled: the request (3) is on its way over a
    connection of its own (4) when the query (2 on 1) ends. *)
Definition toy_asking : World (list Z) := toy_open 3 (after (accept_client calm_env 8 false) toy_linked).
Definition toy_asked : World (list Z) := after (accept_cancel_request calm_env toy_config 3) toy_asking.
Definition toy_canceling : World (list Z) := after (forward_cancel_request calm_env toy_config 4) toy_asked.
Definition toy_held : World (list Z) := after (release_server calm_env toy_config disconnect_depth 1) toy_canceling.

#[local] Transparent toy_linked.






(** The connect string changes, then the request ends and the client asks
    for a server again: it gets the old one. *)
Definition toy_tagged : World (list Z) := after (tag_pool_dirty calm_env toy_config 1) toy_held.
Definition toy_ended : World (list Z) := after (disconnect_server calm_env toy_config disconnect_depth 4 true []) toy_tagged.
Definition toy_reused : World (list Z) := after (find_server calm_env toy_config 2) toy_ended.

Lemma held_server_serves_again :
  returns (tag_pool_dirty calm_env toy_config 1) toy_held = true /\
  returns (disconnect_server calm_env toy_config disconnect_depth 4 true []) toy_tagged = true /\
  returns (find_server calm_env toy_config 2) toy_ended = true /\
  sk_close_needed (toy_socket 1 toy_reused) = false /\
  sk_link (toy_socket 2 toy_reused) = Some 1%positive /\ sk_state (toy_socket 1 toy_reused) = SV_ACTIVE.
Proof. vm_compute. auto 10. Qed.
