(* ===== verification/Serving.v ===== *)
(** * Waiting clients are served (src/objects.c)

    In an environment where a client that is woken asks for a server again
    ([serving_env]), a server that is released goes to the first client of the
    queue. *)

From S2P Require Import Prelude Protocol MBuf PktBuf Proto IOBuf SBuf PoolSpec World Objects Launch Cancel Limits.
From S2P Require Import Terminate Pooler.
From stdpp Require Import base option countable gmap list strings.
#[local] Open Scope Z_scope.

Section Serving.
Context `{Realloc} {K : Type} (E : ObjEnv K) `{!EnvOk E} (cf : Config).
Implicit Types w : World K.

Lemma view_set_same x k k' w :
  w_sockets w !! x = Some k -> sview k' = sview k -> view (set_sockets (<[x := k']> (w_sockets w)) w) = view w.
Proof using.
  intros Hk Hv. rewrite view_set, Hv. unfold vset. rewrite insert_id; [by destruct (view w)|by apply view_vs_some].
Qed.

(** The pool gives out servers. *)
Definition pool_open (p : positive) w : Prop :=
  w_pause_mode w <> P_PAUSE /\
  forall pool d, w_pools w !! p = Some pool -> w_dbs w !! pl_db pool = Some d -> db_paused d = false.

(** The variables of [c] need no change on [s]. *)
Definition vars_agree (s c : positive) : Prop := forall k, (oe_varcache_apply E s c k).1 = (true, false).

Lemma find_first_idle p c s k w :
  Inv (view w) -> w_sockets w !! c = Some k -> sk_state k = CL_ACTIVE \/ sk_state k = CL_LOGIN -> sk_link k = None ->
  sk_pool k = Some p -> v_repl (sview k) = false -> pool_open p w ->
  head (lst (w_lists w) (PoolSlot p idle_server_list)) = Some s -> clean_idle p s w -> vars_agree s c ->
  wp (find_server E cf c) (fun _ w' => linked_to p c s w') w.
Proof using All.
  intros Hv Hc Hst Hl Hp Hrep [Hpause Hdb] Hh Hcl Hvars. unfold find_server.
  apply wp_bind, wp_sk_get. intros k' Hk'. simplify_eq. apply wp_bind, wp_AssertS. intros _.
  apply wp_bind. apply wp_sk_mod. intros k' Hk'. simplify_eq. rewrite bool_decide_false by (by rewrite Hl; intros []).
  set (w1 := set_sockets _ w). set (k1 := set_wait_start 0 k).
  assert (Hc1 : w_sockets w1 !! c = Some k1) by (unfold w1; cbn; by rewrite lookup_insert_eq).
  assert (Hv1 : view w1 = view w).
  { by apply (view_set_same c k). }
  assert (Hne : c <> s).
  { intros ->. destruct Hcl as (ks & Hks & Hidle & _). simplify_eq. naive_solver congruence. }
  assert (Hcl1 : clean_idle p s w1).
  { destruct Hcl as (ks & Hks & Hrest). exists ks. unfold w1; cbn. by rewrite lookup_insert_ne. }
  rewrite Hp. apply wp_bind, wp_found. intros p' [= <-]. apply wp_bind.
  apply (wp_conseq _ (fun o w' => o = Some (Some s) /\ w' = w1)).
  - unfold search_server. apply wp_bind, wp_sk_get. intros k2 Hk2. simplify_eq. apply wp_bind, wp_pl_get. intros pool Hpool.
    apply wp_bind, wp_db_get. intros d Hd. apply wp_bind, wp_getS.
    rewrite (bool_decide_false (w_pause_mode w1 = P_PAUSE)) by done. rewrite (Hdb pool d) by done. cbn [orb].
    change (is_replication k1 && negb (sending_auth_query k1)) with (v_repl (sview k)). rewrite Hrep.
    apply wp_bind, wp_sockets_in. apply wp_bind. cbn [usable_idle_server]. unfold first_socket.
    apply wp_bind, wp_bind, wp_sockets_in, wp_ret. change (w_lists w1) with (w_lists w). rewrite Hh.
    destruct Hcl1 as (ks & Hks & _ & _ & Hrdy & Hcn). apply wp_bind, wp_sk_get. intros ks' Hks'. simplify_eq.
    rewrite Hcn, Hrdy. by apply wp_ret, wp_ret.
  - intros o w' [-> ->]. apply wp_bind. eapply wp_conseq; [apply (idle_assert_wp (Some s))|]. cbv beta. intros _ w' ->.
    apply wp_bind. apply (wp_conseq _ (fun ov w' => ov = (Some s, false) /\ view w' = view w1 /\ w_sockets w' = w_sockets w1)).
    + unfold apply_vars. apply wp_bind, wp_sk_get. intros k2 _. destruct (sending_auth_query k2); [by apply wp_ret|].
      apply wp_bind. unfold ask_kernel. apply wp_bind, wp_getS. specialize (Hvars (w_kernel w1)).
      destruct (oe_varcache_apply E s c (w_kernel w1)) as [[res vc] kn]. cbn in Hvars. injection Hvars as -> ->.
      apply wp_bind, wp_modS. by apply wp_ret, wp_ret.
    + intros ov w2 (-> & Hv2 & Hs2). unfold link_server. apply wp_bind. eapply wp_conseq.
      * apply (join_server_wp cf c s p (sk_state k)); [by rewrite Hv2, Hv1| |done|].
        { rewrite Hv2, Hv1. by apply parked_of. }
        destruct Hcl1 as (ks & Hks & Hrest). exists ks. by rewrite Hs2.
      * cbv beta. intros _ w3 (_ & _ & Hlink). by apply wp_ret.
Qed.

(** A store in which the first waiting client [c] of pool [p] could use the
    idle server [s]. *)
Record can_serve (p s c : positive) (kc : PgSocket) w : Prop := {
  cs_waits : head (lst (w_lists w) (PoolSlot p waiting_client_list)) = Some c;
  cs_client : w_sockets w !! c = Some kc;
  cs_plain : is_replication kc = false;
  cs_first : head (lst (w_lists w) (PoolSlot p idle_server_list)) = Some s;
  cs_idle : clean_idle p s w;
  cs_open : pool_open p w
}.

Lemma woken_store p c kc w :
  w_sockets w !! c = Some kc -> sk_pool kc = Some p ->
  wp (wake_client c) (fun _ w1 => exists pool t, w_pools w !! p = Some pool /\
     moved false c kc (new_client_state (sk_state kc) CL_ACTIVE)
       (set_pools (<[p := set_wait_time t pool]> (w_pools w)) w) w1) w.
Proof using.
  intros Hc Hp. unfold wake_client. apply wp_bind, wp_sk_get. intros k' Hk'. simplify_eq.
  apply wp_bind, wp_AssertS. intros Hst. apply wp_bind, wp_AssertS. intros _. rewrite Hp.
  apply wp_bind, wp_found. intros p' [= <-]. apply wp_bind, wp_get_cached_time. apply wp_bind, wp_pl_mod.
  intros pool Hpool. eapply wp_conseq; [apply change_client_state_wp|]. cbv beta zeta.
  intros _ w1 (k & Hk & _ & _ & Hm). cbn in Hk. simplify_eq. exists pool. eexists. split; [done|].
  rewrite decide_False in Hm; [exact (proj2 Hm)|].
  apply orb_prop in Hst as [Hst|Hst]; apply bool_decide_eq_true_1 in Hst; by rewrite Hst.
Qed.

Lemma reuse_serves p s c kc w :
  Inv (view w) -> can_serve p s c kc w -> vars_agree s c ->
  wp (reuse_on_release (serving_env E cf) s) (fun r w' => r = true /\ linked_to p c s w') w.
Proof using All.
  intros Hv [Hwait Hkc Hplain Hfirst Hidle [Hpause Hdb]] Hvars. pose proof Hidle as (ks & Hks & Hsst & Hsp & Hrdy & Hcn).
  unfold reuse_on_release. apply wp_bind, wp_sk_get. intros ks' Hks'. simplify_eq.
  rewrite Hsp. apply wp_bind, wp_found. intros p' [= <-]. apply wp_bind, wp_AssertS. intros _.
  apply wp_bind. unfold first_socket. apply wp_bind, wp_sockets_in, wp_ret. rewrite Hwait.
  apply wp_bind, wp_sk_get. intros kc' Hkc'. simplify_eq. rewrite Hplain. cbn [negb orb].
  destruct (in_pool_list (view w) p waiting_client_list c Hv) as (kv & Hkv & Hwst & Hwp); [by apply head_elem|].
  rewrite (view_vs_some c kc w Hkc) in Hkv. injection Hkv as <-. cbn in Hwst, Hwp.
  assert (Hl : sk_link kc = None) by (eapply (waiting_unlinked p c); try done; by rewrite Hplain).
  apply wp_bind, wp_bind. eapply (wp_conseq _ (fun _ w1 => Inv (view w1) /\ exists k1, w_sockets w1 !! c = Some k1 /\
     (sk_state k1 = CL_ACTIVE \/ sk_state k1 = CL_LOGIN) /\ sk_link k1 = None /\ sk_pool k1 = Some p /\
     v_repl (sview k1) = false /\ pool_open p w1 /\
     lst (w_lists w1) (PoolSlot p idle_server_list) = lst (w_lists w) (PoolSlot p idle_server_list) /\
     w_sockets w1 !! s = w_sockets w !! s)).
  - eapply wp_conseq; [apply wp_and; [eapply (wake_client_wp c kc w); [done..|by rewrite Hl]|by apply (woken_store p)]|].
    cbv beta. intros _ w1 [(Hstep & _ & Hst) (pool & t & Hpool & k1 & Hk1 & _ & _ & ->)].
    split; [by eapply step_inv|].
    injection Hk1 as G1 G2 G3 G4 G5 G6. exists k1. cbn. rewrite lookup_insert_eq.
    assert (Hne : c <> s) by (intros ->; simplify_eq; destruct Hst; congruence).
    split_and!; [done| |congruence|congruence|by rewrite G4, Hplain| | |by rewrite lookup_insert_ne].
    { rewrite G1. by destruct Hst as [-> | ->]; [left|right]. }
    { split; [done|]. cbn. intros pool' d Hp'. rewrite lookup_insert_eq in Hp'. injection Hp' as <-. cbn. by apply Hdb. }
    rewrite lst_enlist_other, lst_unlist_other; [done| |];
      unfold slot_of; rewrite ?Hwp; by destruct Hst as [-> | ->].
  - cbv beta. intros _ w1 (Hv1 & k1 & Hk1 & Hst1 & Hl1 & Hp1 & Hr1 & Ho1 & Hlist & Hs1). cbn [oe_continue serving_env].
    apply wp_bind, wp_sk_get. intros k2 Hk2. simplify_eq.
    replace (_ || _) with true by (by destruct Hst1 as [-> | ->]).
    apply wp_bind. eapply wp_conseq; [eapply (find_first_idle p c s k1); try done|].
    + by rewrite Hlist.
    + exists ks. by rewrite Hs1.
    + cbv beta. intros _ w2 Hlink. apply wp_ret. pose proof Hlink as (kc2 & ks2 & _ & _ & Hs2 & Hst2 & _).
      apply wp_bind, wp_sk_get. intros ks3 Hks3. simplify_eq. rewrite Hst2. by apply wp_ret.
Qed.
(** A server at the end of a transaction, with nothing left to do. *)
Record at_rest (p s : positive) (ks : PgSocket) w : Prop := {
  ar_server : w_sockets w !! s = Some ks;
  ar_active : sk_state ks = SV_ACTIVE;
  ar_pool : sk_pool ks = Some p;
  ar_plain : is_replication ks = false;
  ar_done : sk_outstanding_requests ks = [];
  ar_keep : sk_close_needed ks = false;
  ar_uncanceled : sk_canceling_clients ks = [];
  ar_young : forall pool d, w_pools w !! p = Some pool -> w_dbs w !! pl_db pool = Some d ->
    u64 (w_now w - sk_connect_time ks) <
      (if bool_decide (db_server_lifetime d = 0) then cf_server_lifetime cf else db_server_lifetime d)
}.

(** Settings under which such a server is idle at once, and reused first. *)
Definition plain_settings : Prop :=
  cf_server_reset_query cf = [] /\ cf_server_round_robin cf = false /\
  (cf_server_check_delay cf <> 0 \/ cf_server_check_query cf = []).

Lemma left_store p s c0 kc0 ks w :
  plain_settings -> at_rest p s ks w -> sk_link ks = Some c0 -> w_sockets w !! c0 = Some kc0 -> c0 <> s ->
  wp (leave_old_state cf s) (fun st w1 => st = SV_IDLE /\
    w1 = set_sockets (<[s := set_link None ks]> (<[c0 := set_link None (set_copy_mode false kc0)]> (w_sockets w))) w) w.
Proof using.
  intros (Hreset & _ & Hcheck) [Hs Hst Hp _ _ _ _ _] Hl Hc0 Hne. unfold leave_old_state.
  apply wp_bind, wp_sk_get. intros k' Hk'. simplify_eq. rewrite Hp. apply wp_bind, wp_found. intros p' [= <-].
  rewrite Hst, Hl. apply wp_bind, wp_bind, wp_sk_mod. intros k1 Hk1. simplify_eq. apply wp_bind, wp_sk_mod. intros k1 Hk1.
  cbn in Hk1. rewrite lookup_insert_eq in Hk1. injection Hk1 as <-. apply wp_sk_mod. intros k1 Hk1.
  cbn in Hk1. rewrite !lookup_insert_ne in Hk1 by done. simplify_eq. unfold released_state. rewrite Hreset.
  rewrite decide_True by done. apply wp_bind, wp_ret, wp_ret. split.
  - destruct Hcheck as [Hc|Hc]; [by rewrite (bool_decide_false (cf_server_check_delay cf = 0))|].
    rewrite (bool_decide_false (cf_server_check_query cf <> [])) by (by rewrite Hc; intros []). by rewrite andb_false_r.
  - unfold set_sockets; cbn. by rewrite insert_insert_eq.
Qed.

Lemma young_server p s ks k w1 w :
  at_rest p s ks w -> w_sockets w1 !! s = Some k -> sk_pool k = Some p -> sk_connect_time k = sk_connect_time ks ->
  w_pools w1 = w_pools w -> w_dbs w1 = w_dbs w -> w_now w1 = w_now w ->
  wp (life_over cf s) (fun b w' => b = false /\ w' = w1) w1.
Proof using.
  intros Hrest Hs Hp Ht Hpools Hdbs Hnow. pose proof (ar_young _ _ _ _ Hrest) as Hyoung.
  unfold life_over. apply wp_bind, wp_sk_get. intros k' Hk'. simplify_eq. rewrite Hp. apply wp_bind, wp_found.
  intros p' [= <-]. apply wp_bind, wp_pl_get. intros pool Hpool. apply wp_bind, wp_get_cached_time. apply wp_bind.
  unfold pool_server_lifetime. apply wp_bind, wp_db_get. intros d Hd. apply wp_ret.
  rewrite Hpools in Hpool. rewrite Hdbs in Hd. specialize (Hyoung pool d Hpool Hd).
  rewrite bool_decide_true by (by rewrite Hnow, Ht). by apply wp_ret.
Qed.

Lemma waiter_distinct p s c0 kc0 c kc ks w :
  Inv (view w) -> w_sockets w !! s = Some ks -> sk_state ks = SV_ACTIVE -> sk_link ks = Some c0 ->
  w_sockets w !! c0 = Some kc0 -> head (lst (w_lists w) (PoolSlot p waiting_client_list)) = Some c ->
  w_sockets w !! c = Some kc -> is_replication kc = false -> c <> s /\ c <> c0.
Proof using.
  intros Hv Hs Hst Hl Hc0 Hh Hc Hplain.
  assert (Hlc : sk_link kc = None) by (eapply (waiting_unlinked p c); try done; by rewrite Hplain).
  destruct (in_pool_list (view w) p waiting_client_list c Hv) as (kv & Hkv & Hwst & _); [by apply head_elem|].
  rewrite (view_vs_some c kc w Hc) in Hkv. injection Hkv as <-. cbn in Hwst.
  destruct (link_partner s c0 ks w Hv Hs Hl) as (_ & k0 & Hk0 & Hl0 & _).
  split; intros ->; simplify_eq.
Qed.

(** C29: A waiting client is served: when a server ends its transaction with
    nothing left to do and [release_server] returns, the first ordinary client
    of the pool's queue runs on that very server, unless the pool is paused or
    the server has to be checked, reset or closed. *)
Theorem released_server_goes_to_waiter w p s c ks kc w' r :
  reachable (serving_env E cf) cf w -> plain_settings -> at_rest p s ks w -> sk_link ks <> None ->
  head (lst (w_lists w) (PoolSlot p waiting_client_list)) = Some c -> w_sockets w !! c = Some kc ->
  is_replication kc = false -> pool_open p w -> vars_agree s c ->
  release_server (serving_env E cf) cf disconnect_depth s w = Ok (r, w') ->
  r = true /\ linked_to p c s w'.
Proof using All.
  intros Hreach Hset Hrest Hlink Hwait Hkc Hplain Hopen Hvars. revert r w'.
  pose proof (reachable_consistent (serving_env E cf) cf w Hreach) as Hv. pose proof Hrest as [Hs Hst Hp Hsr Hdone Hkeep Hcan _].
  destruct (sk_link ks) as [c0|] eqn:Hl; [|done]. destruct (link_partner s c0 ks w Hv Hs Hl) as (Hne & kc0 & Hkc0 & _).
  destruct (waiter_distinct p s c0 kc0 c kc ks w) as [Hcs Hcc]; try done.
  change (wp (release_server_body (serving_env E cf) cf (disconnect_server (serving_env E cf) cf 4) s)
            (fun r w' => r = true /\ linked_to p c s w') w).
  unfold release_server_body. apply wp_bind, wp_sk_get. intros k' Hk'. simplify_eq.
  rewrite Hp. apply wp_bind, wp_found. intros p' [= <-]. apply wp_bind, wp_AssertS. intros Hready. apply wp_bind.
  eapply wp_conseq; [apply wp_and; [by apply (leave_old_state_wp cf s ks)|by eapply left_store]|].
  cbv beta. intros st w1 [(Hv1 & _) [-> Ew1]].
  assert (Hinv1 : Inv (view w1)) by (rewrite Hv1; by apply released_inv).
  assert (Hs1 : w_sockets w1 !! s = Some (set_link None ks)) by (rewrite Ew1; cbn; by rewrite lookup_insert_eq).
  assert (Hc1 : w_sockets w1 !! c = Some kc) by (rewrite Ew1; cbn; by rewrite !lookup_insert_ne).
  apply wp_bind, wp_sk_get. intros k' Hk'. rewrite Hs1 in Hk'. injection Hk' as <-.
  cbn [sk_canceling_clients set_link]. rewrite Hcan. cbn [drop_waiting_cancels]. apply wp_bind, wp_ret.
  cbn [sk_state set_link]. rewrite decide_False by congruence. apply wp_bind.
  eapply wp_conseq; [by eapply (young_server p s ks (set_link None ks)); try done; rewrite Ew1|].
  cbv beta. intros over w2 [-> ->]. unfold finish_release. apply wp_bind, wp_sk_get. intros k' Hk'.
  rewrite Hs1 in Hk'. injection Hk' as <-. cbn [sk_outstanding_requests sk_close_needed sk_canceling_clients set_link].
  rewrite Hdone, Hkeep, Hcan. cbn [zlen length Z.of_nat]. rewrite !(bool_decide_false (0 > 0)) by lia.
  change (is_replication (set_link None ks)) with (is_replication ks). rewrite Hsr.
  apply wp_bind, wp_AssertS. intros _. apply wp_bind. eapply wp_conseq; [apply wp_and;
    [eapply (move_server_wp cf s SV_IDLE (set_link None ks)); try done; [cbn; by rewrite Hst|by left]
    |apply change_server_state_wp]|].
  cbv beta. intros _ w2 [[Hq _] (k' & Hk' & _ & _ & _ & Hm)]. rewrite Hs1 in Hk'. injection Hk' as <-.
  rewrite decide_True by done. eapply wp_conseq; [eapply (reuse_serves p s c kc); [by eapply quiet_inv| |done]|done].
  destruct Hm as (k2 & Hk2 & [Hr2 Hcn2] & _ & ->). injection Hk2 as G1 G2 G3 _ _ _.
  cbn [server_front sk_close_needed set_link] in *. rewrite Hkeep, (proj1 (proj2 Hset)). cbn [orb negb].
  assert (Hlists : w_lists w1 = w_lists w) by (by rewrite Ew1).
  split; cbn; rewrite ?Hp, ?Hst, ?Hlists; cbn.
  - by rewrite !lst_insert, !decide_False by done.
  - by rewrite lookup_insert_ne.
  - done.
  - rewrite lst_insert, decide_True by done. done.
  - exists k2. cbn in Hr2, Hcn2 |- *. rewrite lookup_insert_eq. split_and!; congruence || done.
  - destruct Hopen as [Hpause Hdb]. rewrite Ew1. split; [done|]. exact Hdb.
Qed.

End Serving.

(** ** Example *)

#[local] Existing Instance zero_Realloc.

(** A second client logs in and finds no server: it waits. *)
Definition toy_accepted2 : World (list Z) := after (accept_client calm_env 8 false) toy_linked.
Definition toy_attached2 : World (list Z) :=
  toy_open 3 (after (sk_mod 3 (set_db (Some 1%positive))) (after (sk_mod 3 (set_pool (Some 1%positive))) toy_accepted2)).
Definition toy_client2 : World (list Z) := after (finish_client_login calm_env toy_config 3) toy_attached2.
Definition toy_waiting : World (list Z) := after (find_server calm_env toy_config 3) toy_client2.
Definition toy_served : World (list Z) := after (release_server calm_env toy_config disconnect_depth 1) toy_waiting.

Lemma toy_waiting_reachable : reachable calm_env toy_config toy_waiting.
Proof.
  assert (R1 : reachable calm_env toy_config toy_accepted2).
  { eapply reachable_step; [apply toy_linked_reachable|].
    destruct (after_run (accept_client calm_env 8 false) toy_linked) as [r Hr]; [by vm_compute|].
    exact (PS_accept _ _ _ _ _ _ _ Hr). }
  assert (R2 : reachable calm_env toy_config (after (sk_mod 3 (set_pool (Some 1%positive))) toy_accepted2)).
  { apply reachable_attach; [exact R1|]. by vm_compute. }
  assert (R3 : reachable calm_env toy_config toy_attached2).
  { eapply reachable_step; [exact R2|]. apply PS_other. by vm_compute. }
  assert (R4 : reachable calm_env toy_config toy_client2).
  { eapply reachable_step; [exact R3|].
    destruct (after_run (finish_client_login calm_env toy_config 3) toy_attached2) as [r Hr]; [by vm_compute|].
    destruct (socket_exists 3 toy_attached2) as [k Hk]; [by vm_compute|].
    refine (PS_login _ _ 3 k r _ _ Hk _ Hr). refine (socket_part sk_link 3 toy_attached2 k None _ Hk). by vm_compute. }
  eapply reachable_step; [exact R4|].
  destruct (after_run (find_server calm_env toy_config 3) toy_client2) as [r Hr]; [by vm_compute|].
  exact (PS_find_server _ _ _ _ _ _ Hr).
Qed.

Lemma toy_waiting_client : w_sockets toy_waiting !! 3%positive = Some (toy_socket 3 toy_waiting).
Proof. apply toy_socket_some. by vm_compute. Qed.
Lemma toy_served_run : exists r, release_server calm_env toy_config disconnect_depth 1 toy_waiting = Ok (r, toy_served).
Proof. refine (after_run (release_server calm_env toy_config disconnect_depth 1) toy_waiting _). by vm_compute. Qed.
Lemma toy_waiting_rest : at_rest toy_config 1 1 (toy_socket 1 toy_waiting) toy_waiting.
Proof.
  split; [apply toy_socket_some|..|]; try (by vm_compute). intros pool d Hpool Hd.
  assert (Hw : (fun p => match w_dbs toy_waiting !! pl_db p with Some r => db_server_lifetime r | None => 0 end)
    <$> w_pools toy_waiting !! 1%positive = Some 0) by (by vm_compute).
  rewrite Hpool in Hw. cbn [fmap option_fmap option_map] in Hw. rewrite Hd in Hw. injection Hw as ->. by vm_compute.
Qed.
Lemma toy_waiting_open : pool_open 1 toy_waiting.
Proof.
  split; [by vm_compute|]. intros pool d Hpool Hd.
  assert (Hw : (fun p => match w_dbs toy_waiting !! pl_db p with Some r => db_paused r | None => true end)
    <$> w_pools toy_waiting !! 1%positive = Some false) by (by vm_compute).
  rewrite Hpool in Hw. cbn [fmap option_fmap option_map] in Hw. rewrite Hd in Hw. by injection Hw as ->.
Qed.

#[local] Opaque toy_waiting toy_served toy_socket.

Lemma released_server_goes_to_waiter_witness : linked_to 1 3 1 toy_served.
Proof.
  destruct toy_served_run as [r Hr].
  refine (proj2 (released_server_goes_to_waiter idle_env toy_config toy_waiting 1 1 3 (toy_socket 1 toy_waiting)
    (toy_socket 3 toy_waiting) toy_served r toy_waiting_reachable _ toy_waiting_rest _ _ toy_waiting_client _
    toy_waiting_open _ Hr)).
  - split; [by vm_compute|]. split; [by vm_compute|]. right. by vm_compute.
  - vm_compute. discriminate.
  - by vm_compute.
  - by vm_compute.
  - intros k. reflexivity.
Defined.
