(* ===== verification/Refs.v ===== *)
(** * References and runs

    Tools shared by the components that count references: the number of times
    an address occurs in a list of references, the references held in a map of
    objects, and total correctness of a run from one state. *)

From S2P Require Import Prelude.
From stdpp Require Import base option countable gmap list strings.
#[local] Open Scope Z_scope.

(** ** Total correctness from one state *)

Definition good {S A} (m : SM S A) (Q : A -> S -> Prop) (s : S) : Prop :=
  exists a s', m s = Ok (a, s') /\ Q a s'.

Section Good.
Context {S A B : Type}.
Implicit Types (m : SM S A) (k : A -> SM S B) (s : S).

Lemma good_ret (a : A) (Q : A -> S -> Prop) s : Q a s -> good (mret a) Q s.
Proof. intros. exists a, s. done. Qed.

Lemma good_bind m k (R : A -> S -> Prop) (Q : B -> S -> Prop) s :
  good m R s -> (forall a s', R a s' -> good (k a) Q s') -> good (m ≫= k) Q s.
Proof.
  intros (a & s' & E & HR) Hk. destruct (Hk a s' HR) as (b & s2 & E2 & HQ).
  exists b, s2. split; [|done]. unfold mbind, SM_bind. by rewrite E.
Qed.

Lemma good_conseq m (Q Q' : A -> S -> Prop) s :
  good m Q s -> (forall a s', Q a s' -> Q' a s') -> good m Q' s.
Proof. intros (a & s' & E & HQ) H. exists a, s'. auto. Qed.

Lemma good_run m (Q : A -> S -> Prop) s a s' : good m Q s -> m s = Ok (a, s') -> Q a s'.
Proof. intros (? & ? & E & HQ) E'. rewrite E in E'. by injection E' as -> ->. Qed.
End Good.

Lemma good_assoc {S A B C} (m : SM S A) (f : A -> SM S B) (g : B -> SM S C) (Q : C -> S -> Prop) s :
  good ((m ≫= f) ≫= g) Q s -> good (m ≫= fun x => f x ≫= g) Q s.
Proof. unfold good. by rewrite SM_assoc. Qed.

Lemma good_step {S A B} (m : SM S A) (k : A -> SM S B) (Q : B -> S -> Prop) s a s' :
  m s = Ok (a, s') -> good (k a) Q s' -> good (m ≫= k) Q s.
Proof. intros E. unfold good. by rewrite (SM_bind_eq m k s a s' E). Qed.

(** ** Counting references *)

Definition uses (a : positive) (l : list positive) : Z := zlen (filter (fun b => b = a) l).

#[export] Instance uses_proper a : Proper ((≡ₚ) ==> (=)) (uses a).
Proof. intros l l' E. unfold uses, zlen. by rewrite E. Qed.

#[export] Instance zlen_proper {A} : Proper ((≡ₚ) ==> (=)) (@zlen A).
Proof. intros l l' E. unfold zlen. by rewrite E. Qed.

Lemma uses_app a l l' : uses a (l ++ l') = uses a l + uses a l'.
Proof. unfold uses. by rewrite filter_app, zlen_app. Qed.

Lemma uses_cons a b l : uses a (b :: l) = (if decide (b = a) then 1 else 0) + uses a l.
Proof. unfold uses. rewrite filter_cons. case_decide; [by rewrite zlen_cons | lia]. Qed.

Lemma uses_nonneg a l : 0 <= uses a l.
Proof. unfold uses, zlen. lia. Qed.

Lemma uses_le a l : uses a l <= zlen l.
Proof. unfold uses, zlen. pose proof (length_filter (fun b => b = a) l). lia. Qed.

Lemma uses_pos a l : a ∈ l <-> 0 < uses a l.
Proof.
  induction l as [|b l IH]; [by split; [set_solver | unfold uses, zlen; simpl; lia] |].
  rewrite elem_of_cons, uses_cons, IH. pose proof (uses_nonneg a l).
  destruct (decide (b = a)) as [->|n]; (split; [intros [?|?] | intros]); try lia; congruence.
Qed.

Section Permute.
Context {V : Type} (f : V -> list positive).
Implicit Types (m : gmap positive V).

Lemma refs_take m k x :
  m !! k = Some x ->
  (map_to_list m ≫= fun p => f p.2) ≡ₚ f x ++ (map_to_list (delete k m) ≫= fun p => f p.2).
Proof. intros E. by rewrite <- (map_to_list_delete m k x E). Qed.

Lemma refs_put m k x :
  (map_to_list (<[k := x]> m) ≫= fun p => f p.2)
    ≡ₚ f x ++ (map_to_list (delete k m) ≫= fun p => f p.2).
Proof. rewrite <- (map_to_list_delete (<[k := x]> m) k x) by apply lookup_insert_eq.
  by rewrite delete_insert_eq. Qed.

Lemma refs_new m k x :
  m !! k = None ->
  (map_to_list (<[k := x]> m) ≫= fun p => f p.2) ≡ₚ f x ++ (map_to_list m ≫= fun p => f p.2).
Proof. intros E. rewrite refs_put. by rewrite delete_id. Qed.
End Permute.
