(* ===== verification/Prepare.v ===== *)
(** * Prepared statements over pooled connections (src/prepare.c)

    A client names its prepared statements as it likes; on a server every
    distinct query has one name, PGBOUNCER_<id>.  The store holds the
    statements shared by all clients (reference counted), the table of each
    client, and for each server the statements prepared there in least
    recently used order, the queue of requests it has not answered, the
    packets sent to it and the answers made up for it.

    The queue operations are those of src/objects.c and src/server.c.  Each
    operation reads a freed statement as [Undef]; every allocation asks the
    parameter [mem] for its outcome.  When an allocation fails the handlers
    free what they made and drop both connections (label oom), which is the
    outcome [H_oom] here.  The label frees entries that are in a table: the
    store has no table for such a client any more, the server is marked, and
    further accesses to these tables are [Undef]. *)

From S2P Require Import Prelude Protocol PktBuf PoolSpec World.
From stdpp Require Import base option countable gmap list strings.
#[local] Open Scope Z_scope.

(** ** Data (include/prepare.h) *)

Record PgPreparedStatement := mkPs {
  ps_query_id : Z;
  ps_use_count : Z;
  ps_query_and_parameters : list Z
}.

Record PgClientPreparedStatement := mkClientPs { cp_stmt_name : list Z; cp_ps : positive }.

(** The packets the handlers put on the server's stream.  A Bind keeps the
    bytes after the statement name; [len] is its length field. *)
Inductive ToServer :=
| TS_Parse (name query : list Z)
| TS_CloseStmt (name : list Z)
| TS_Bind (len : Z) (portal name rest : list Z)
| TS_DescribeStmt (name : list Z).

(** The prepared statement part of a server's PgSocket. *)
Record PServer := mkPServer {
  pv_statements : list PgServerPreparedStatement;
  pv_requests : list OutstandingRequest;
  pv_sent : list ToServer;
  pv_extra_packets : list Z;
  pv_queue_after : bool;
  pv_sbuf_empty : bool;
  pv_freed_entry : bool
}.

Record PStore := mkPStore {
  st_heap : gmap positive PgPreparedStatement;
  st_prepared_statements : gmap (list Z) positive;
  st_next_unique_query_id : Z;
  st_clients : gmap positive (list PgClientPreparedStatement);
  st_servers : gmap positive PServer;
  st_allocs : nat
}.

Inductive handled :=
| H_true
| H_false
| H_disconnect_client (reason : string)
| H_oom.

#[export] Instance handled_eq_dec : EqDecision handled.
Proof. solve_decision. Defined.

#[export] Instance server_ps_eq_dec : EqDecision PgServerPreparedStatement.
Proof. solve_decision. Defined.

Definition ps_stmt_name (query_id : Z) : list Z := str "PGBOUNCER_" ++ dec query_id.

Definition set_heap h σ :=
  mkPStore h (st_prepared_statements σ) (st_next_unique_query_id σ) (st_clients σ) (st_servers σ)
    (st_allocs σ).
Definition set_hash h σ :=
  mkPStore (st_heap σ) h (st_next_unique_query_id σ) (st_clients σ) (st_servers σ) (st_allocs σ).
Definition set_client c t σ :=
  mkPStore (st_heap σ) (st_prepared_statements σ) (st_next_unique_query_id σ)
    (<[c := t]> (st_clients σ)) (st_servers σ) (st_allocs σ).
Definition set_server s v σ :=
  mkPStore (st_heap σ) (st_prepared_statements σ) (st_next_unique_query_id σ)
    (st_clients σ) (<[s := v]> (st_servers σ)) (st_allocs σ).

Definition set_statements l v :=
  mkPServer l (pv_requests v) (pv_sent v) (pv_extra_packets v) (pv_queue_after v) (pv_sbuf_empty v) (pv_freed_entry v).
Definition set_requests q v :=
  mkPServer (pv_statements v) q (pv_sent v) (pv_extra_packets v) (pv_queue_after v) (pv_sbuf_empty v) (pv_freed_entry v).
Definition put_sent m v :=
  mkPServer (pv_statements v) (pv_requests v) (pv_sent v ++ [m]) (pv_extra_packets v)
    (pv_queue_after v) (pv_sbuf_empty v) (pv_freed_entry v).
Definition put_extra t v :=
  mkPServer (pv_statements v) (pv_requests v) (pv_sent v) (pv_extra_packets v ++ [t])
    (pv_queue_after v) (pv_sbuf_empty v) (pv_freed_entry v).
Definition set_queue_after v :=
  mkPServer (pv_statements v) (pv_requests v) (pv_sent v) (pv_extra_packets v) true (pv_sbuf_empty v) (pv_freed_entry v).
Definition set_freed_entry v :=
  mkPServer (pv_statements v) (pv_requests v) (pv_sent v) (pv_extra_packets v) (pv_queue_after v) (pv_sbuf_empty v) true.

(** ** Hash tables

    The tables are uthash's: an entry is found by its key, iteration follows
    the order in which entries were added.  Of two entries with one key the
    last one added is found. *)
Fixpoint find_statement (id : Z) (l : list PgServerPreparedStatement) : option PgServerPreparedStatement :=
  match l with
  | [] => None
  | e :: l =>
      match find_statement id l with
      | Some e' => Some e'
      | None => if bool_decide (sp_query_id e = id) then Some e else None
      end
  end.

(** HASH_DEL of the entry [find_statement] gives *)
Fixpoint del_statement (id : Z) (l : list PgServerPreparedStatement) : list PgServerPreparedStatement :=
  match l with
  | [] => []
  | e :: l =>
      match find_statement id l with
      | Some _ => e :: del_statement id l
      | None => if bool_decide (sp_query_id e = id) then l else e :: l
      end
  end.

Fixpoint find_name (name : list Z) (t : list PgClientPreparedStatement) : option PgClientPreparedStatement :=
  match t with
  | [] => None
  | e :: t => if bool_decide (cp_stmt_name e = name) then Some e else find_name name t
  end.

Fixpoint del_name (name : list Z) (t : list PgClientPreparedStatement) : list PgClientPreparedStatement :=
  match t with
  | [] => []
  | e :: t => if bool_decide (cp_stmt_name e = name) then t else e :: del_name name t
  end.

(** The last element of the queue, for an update in place. *)
Fixpoint update_last {A} (f : A -> A) (l : list A) : list A :=
  match l with
  | [] => []
  | [x] => [f x]
  | x :: l => x :: update_last f l
  end.

Section Operations.
Context (mem : nat -> bool) (cf_max_prepared_statements : Z).

#[local] Abbreviation M := (SM PStore).

(** ** Access to the store *)

(** fatal() and a failed Assert *)
Definition fatal {A} : M A := fun _ => Fatal.

Definition allocate : M bool := fun σ =>
  Ok (mem (st_allocs σ),
      mkPStore (st_heap σ) (st_prepared_statements σ) (st_next_unique_query_id σ) (st_clients σ)
        (st_servers σ) (S (st_allocs σ))).

Definition the_statement (a : positive) : M PgPreparedStatement := fun σ =>
  match st_heap σ !! a with Some ps => Ok (ps, σ) | None => Undef end.

Definition client_table (c : positive) : M (list PgClientPreparedStatement) := fun σ =>
  match st_clients σ !! c with Some t => Ok (t, σ) | None => Undef end.

Definition the_server (s : positive) : M PServer := fun σ =>
  match st_servers σ !! s with Some v => Ok (v, σ) | None => Undef end.

(** The server, for an access to its table of statements. *)
Definition the_table (s : positive) : M PServer := fun σ =>
  match st_servers σ !! s with
  | Some v => if pv_freed_entry v then Undef else Ok (v, σ)
  | None => Undef
  end.

Definition put_client (c : positive) (t : list PgClientPreparedStatement) : M unit := fun σ =>
  Ok (tt, set_client c t σ).

Definition mod_server (s : positive) (f : PServer -> PServer) : M unit := fun σ =>
  match st_servers σ !! s with
  | Some v => Ok (tt, set_server s (f v) σ)
  | None => Undef
  end.

(** ** Shared statements *)

Definition add_use (a : positive) : M unit := fun σ =>
  match st_heap σ !! a with
  | Some ps =>
      Ok (tt, set_heap (<[a := mkPs (ps_query_id ps) (u32 (ps_use_count ps + 1))
                                   (ps_query_and_parameters ps)]> (st_heap σ)) σ)
  | None => Undef
  end.

(** if (--ps->use_count == 0) { HASH_DEL(prepared_statements, ps); free(ps); } *)
Definition drop_use (a : positive) : M unit := fun σ =>
  match st_heap σ !! a with
  | Some ps =>
      let n := u32 (ps_use_count ps - 1) in
      if bool_decide (n = 0) then
        Ok (tt, set_heap (delete a (st_heap σ))
                  (set_hash (delete (ps_query_and_parameters ps) (st_prepared_statements σ)) σ))
      else
        Ok (tt, set_heap (<[a := mkPs (ps_query_id ps) n (ps_query_and_parameters ps)]> (st_heap σ)) σ)
  | None => Undef
  end.

Definition create_prepared_statement (q : list Z) : M (option positive) :=
  ok ← allocate;
  if negb ok then mret None
  else fun σ =>
    let id := u64 (st_next_unique_query_id σ + 1) in
    let a := fresh (dom (st_heap σ)) in
    Ok (Some a, mkPStore (<[a := mkPs id 0 q]> (st_heap σ)) (st_prepared_statements σ) id
                  (st_clients σ) (st_servers σ) (st_allocs σ)).

(** The statement is not in the table yet: create and add it. *)
Definition new_prepared_statement (q : list Z) : M (option positive) :=
  ps ← create_prepared_statement q;
  match ps with
  | None => mret None
  | Some a =>
      ok ← allocate;
      (if negb ok then fun σ => Ok (None, set_heap (delete a (st_heap σ)) σ)
       else fun σ => Ok (Some a, set_hash (<[q := a]> (st_prepared_statements σ)) σ)) : M _
  end.

Definition get_prepared_statement (q : list Z) : M (option (positive * bool)) := fun σ =>
  match st_prepared_statements σ !! q with
  | Some a => Ok (Some (a, true), σ)
  | None => (new_prepared_statement q ≫= fun ps => mret ((fun a => (a, false)) <$> ps) : M _) σ
  end.

Definition create_client_prepared_statement (name : list Z) (a : positive) :
    M (option PgClientPreparedStatement) :=
  ok ← allocate;
  if negb ok then mret None
  else add_use a ≫= fun _ => mret (Some (mkClientPs name a)).

Definition create_server_prepared_statement (a : positive) : M (option PgServerPreparedStatement) :=
  ok ← allocate;
  if negb ok then mret None
  else
    ps ← the_statement a;
    add_use a ≫= fun _ => mret (Some (mkServerPs (ps_query_id ps) a)).

Definition free_server_prepared_statement (server_ps : option PgServerPreparedStatement) : M unit :=
  match server_ps with
  | None => mret tt
  | Some e => drop_use (sp_ps e)
  end.

(** free(client_ps) of an entry that stays in the client's table: from now on
    the table cannot be read. *)
Definition free_listed_client_ps (c : positive) : M unit := fun σ =>
  Ok (tt, mkPStore (st_heap σ) (st_prepared_statements σ) (st_next_unique_query_id σ)
            (delete c (st_clients σ)) (st_servers σ) (st_allocs σ)).

(** [free_server_prepared_statement] of an entry that may be in the table of
    the server, from which it is not taken. *)
Definition free_listed_server_ps (s : positive) (e : PgServerPreparedStatement) : M unit :=
  v ← the_server s;
  free_server_prepared_statement (Some e) ≫= fun _ =>
  if bool_decide (e ∈ pv_statements v) then mod_server s set_freed_entry else mret tt.

(** ** The requests a server has not answered (src/objects.c) *)

(** QUEUE_ParseComplete, QUEUE_CloseComplete: a packet after the ones queued
    on the server's side of the pair. *)
Definition queue_extra (s : positive) (type : Z) : M bool :=
  ok ← allocate;
  if negb ok then mret false
  else mod_server s (put_extra type) ≫= fun _ => mret true.

Definition queue_fake_response (s : positive) (request_type : Z) : M bool :=
  if bool_decide (request_type = PqMsg_Parse) then queue_extra s PqMsg_ParseComplete
  else if bool_decide (request_type = PqMsg_Close) then queue_extra s PqMsg_CloseComplete
  else fatal.

Definition add_outstanding_request (s : positive) (type : Z) (action : ResponseAction) : M bool :=
  v ← the_server s;
  if bool_decide (action = RA_FAKE) && bool_decide (pv_requests v = []) then
    mod_server s set_queue_after ≫= fun _ =>
    queue_fake_response s type
  else
    ok ← allocate;
    if negb ok then mret false
    else
      mod_server s (fun v => set_requests (pv_requests v ++ [mkRequest type action None 0]) v) ≫= fun _ =>
      mret true.

Definition pop_outstanding_request (s : positive) (types : list Z) : M (bool * bool) :=
  v ← the_server s;
  match pv_requests v with
  | [] => mret (false, false)
  | r :: rest =>
      if bool_decide (or_action r = RA_FAKE) then mret (false, false)
      else if negb (bool_decide (or_type r ∈ types)) then mret (false, false)
      else
        mod_server s (set_requests rest) ≫= fun _ =>
        free_server_prepared_statement (or_server_ps r) ≫= fun _ =>
        mret (true, bool_decide (or_action r = RA_SKIP))
  end.

(** ** The statements prepared on a server *)

Definition unregister_prepared_statement (s : positive) (query_id : Z) : M unit :=
  v ← the_table s;
  match find_statement query_id (pv_statements v) with
  | None => mret tt
  | Some e =>
      mod_server s (fun v => set_statements (del_statement query_id (pv_statements v)) v) ≫= fun _ =>
      free_server_prepared_statement (Some e)
  end.

Definition add_prepared_statement (s : positive) (server_ps : PgServerPreparedStatement) : M bool :=
  _ ← the_table s;
  ok ← allocate;
  if negb ok then mret false
  else
    mod_server s (fun v => set_statements (pv_statements v ++ [server_ps]) v) ≫= fun _ =>
    mret true.

(** sbuf_queue_packet from the client's side *)
Definition queue_packet (s : positive) (m : ToServer) : M bool :=
  ok ← allocate;
  if negb ok then mret false
  else mod_server s (put_sent m) ≫= fun _ => mret true.

(** The HASH_ITER loop of [register_prepared_statement]: [l] is what is left
    of the iteration. *)
Fixpoint evict_statements (s : positive) (l : list PgServerPreparedStatement) : M bool :=
  match l with
  | [] => mret true
  | current :: l =>
      v ← the_table s;
      if bool_decide (zlen (pv_statements v) <= u32 cf_max_prepared_statements) then mret true
      else
        ps ← the_statement (sp_ps current);
        sent ← queue_packet s (TS_CloseStmt (ps_stmt_name (ps_query_id ps)));
        if negb sent then mret false
        else
          queued ← add_outstanding_request s PqMsg_Close RA_SKIP;
          if negb queued then mret false
          else
            mod_server s (fun v =>
              set_requests
                (update_last (fun r => mkRequest (or_type r) (or_action r) (Some current)
                                         (or_server_ps_query_id r)) (pv_requests v)) v) ≫= fun _ =>
            mod_server s (fun v => set_statements (tail (pv_statements v)) v) ≫= fun _ =>
            evict_statements s l
  end.

Definition register_prepared_statement (s : positive) (server_ps : PgServerPreparedStatement) : M bool :=
  v ← the_server s;
  match last (pv_requests v) with
  | None => fatal
  | Some r =>
      if negb (bool_decide (or_type r = PqMsg_Parse) && bool_decide (or_server_ps_query_id r = 0))
      then fatal
      else
        ps ← the_statement (sp_ps server_ps);
        mod_server s (fun v =>
          set_requests
            (update_last (fun r => mkRequest (or_type r) (or_action r) (or_server_ps r)
                                     (ps_query_id ps)) (pv_requests v)) v) ≫= fun _ =>
        added ← add_prepared_statement s server_ps;
        if negb added then mret false
        else
          v ← the_table s;
          evict_statements s (pv_statements v)
  end.

(** ** The packets of the client *)

(** The label oom once the client's entry is in its table; [server_ps] is what
    the variable holds. *)
Definition parse_oom (c s : positive) (server_ps : option PgServerPreparedStatement) : M handled :=
  free_listed_client_ps c ≫= fun _ =>
  (match server_ps with Some e => free_listed_server_ps s e | None => mret tt end) ≫= fun _ =>
  mret H_oom.

(** The statement is not on the server: send a Parse and register it. *)
Definition parse_on_server (c s a : positive) (ps : PgPreparedStatement) : M handled :=
  sent ← queue_packet s (TS_Parse (ps_stmt_name (ps_query_id ps)) (ps_query_and_parameters ps));
  if negb sent then parse_oom c s None
  else
    queued ← add_outstanding_request s PqMsg_Parse RA_FORWARD;
    if negb queued then parse_oom c s None
    else
      server_ps ← create_server_prepared_statement a;
      match server_ps with
      | None => parse_oom c s None
      | Some server_ps =>
          registered ← register_prepared_statement s server_ps;
          if registered : bool then mret H_true else parse_oom c s (Some server_ps)
      end.

(** The client has its entry; [found]: the query was known before. *)
Definition parse_known (c s a : positive) (found : bool) : M handled :=
  ps ← the_statement a;
  server_ps ← (if found then v ← the_table s; mret (find_statement (ps_query_id ps) (pv_statements v)) else mret None);
  match server_ps with
  | Some e =>
      queued ← add_outstanding_request s PqMsg_Parse RA_FAKE;
      if queued : bool then mret H_true else parse_oom c s (Some e)
  | None => parse_on_server c s a ps
  end.

(** [pp] is what unmarshall_parse_packet gives: the statement name and the
    query with its parameter types.  Before the client's entry is in its table
    the label oom has only that entry to free. *)
Definition handle_parse_command (c s : positive) (pp : option (list Z * list Z)) : M handled :=
  match pp with
  | None => mret H_false
  | Some (name, query) =>
      t ← client_table c;
      match find_name name t with
      | Some _ => mret (H_disconnect_client "prepared statement name is already in use")
      | None =>
          g ← get_prepared_statement query;
          match g with
          | None => mret H_oom
          | Some (a, found) =>
              client_ps ← create_client_prepared_statement name a;
              match client_ps with
              | None => mret H_oom
              | Some client_ps =>
                  added ← allocate;
                  if negb added then mret H_oom
                  else
                    t ← client_table c;
                    put_client c (t ++ [client_ps]) ≫= fun _ =>
                    parse_known c s a found
              end
          end
      end
  end.

Definition get_client_prepared_statement (c : positive) (name : list Z) :
    M (option PgClientPreparedStatement) :=
  t ← client_table c;
  mret (find_name name t).

(** HASH_UNLINK then HASH_APPEND_LIST: the entry becomes the last one. *)
Definition touch_statement (e : PgServerPreparedStatement) (l : list PgServerPreparedStatement) :=
  if bool_decide (zlen l = 1) then l else del_statement (sp_query_id e) l ++ [e].

Definition ensure_statement_is_prepared_on_server (s a : positive) : M bool :=
  ps ← the_statement a;
  v ← the_table s;
  match find_statement (ps_query_id ps) (pv_statements v) with
  | Some e =>
      mod_server s (fun v => set_statements (touch_statement e (pv_statements v)) v) ≫= fun _ =>
      mret true
  | None =>
      queued ← add_outstanding_request s PqMsg_Parse RA_SKIP;
      if negb queued then mret false
      else
        sent ← queue_packet s (TS_Parse (ps_stmt_name (ps_query_id ps)) (ps_query_and_parameters ps));
        if negb sent then mret false
        else
          server_ps ← create_server_prepared_statement a;
          match server_ps with
          | None => mret false
          | Some server_ps =>
              registered ← register_prepared_statement s server_ps;
              if negb registered then
                free_listed_server_ps s server_ps ≫= fun _ =>
                mret false
              else mret true
          end
  end.

(** A Bind packet as unmarshall_bind_packet reads it: its length with the type
    byte, the portal, the statement name, and the bytes after the name. *)
Record BindPacket := mkBind { bk_len : Z; bk_portal : list Z; bk_name : list Z; bk_rest : list Z }.

(** The bytes after the name go to the server either in the queued packet
    (when the whole packet was buffered) or by the stream's own forwarding;
    both put them right after the new name. *)
Definition handle_bind_command (c s : positive) (bp : option BindPacket) : M handled :=
  match bp with
  | None => mret H_false
  | Some bp =>
      client_ps ← get_client_prepared_statement c (bk_name bp);
      match client_ps with
      | None => mret (H_disconnect_client "prepared statement did not exist")
      | Some client_ps =>
          prepared ← ensure_statement_is_prepared_on_server s (cp_ps client_ps);
          if negb prepared then mret H_oom
          else
            queued ← add_outstanding_request s PqMsg_Bind RA_FORWARD;
            if negb queued then mret H_oom
            else
              ps ← the_statement (cp_ps client_ps);
              let stmt_name := ps_stmt_name (ps_query_id ps) in
              let diff := s32 (zlen (bk_name bp) - u8 (zlen stmt_name)) in
              sent ← queue_packet s (TS_Bind (u32 (bk_len bp - diff - 1)) (bk_portal bp) stmt_name
                                       (bk_rest bp));
              mret (if sent : bool then H_true else H_oom)
      end
  end.

(** [dp] is what unmarshall_describe_packet gives: the kind and the name. *)
Definition handle_describe_command (c s : positive) (dp : option (Z * list Z)) : M handled :=
  match dp with
  | None => mret H_false
  | Some (type, name) =>
      if negb (bool_decide (type = 83)) then mret H_false
      else
        client_ps ← get_client_prepared_statement c name;
        match client_ps with
        | None => mret (H_disconnect_client "prepared statement did not exist")
        | Some client_ps =>
            prepared ← ensure_statement_is_prepared_on_server s (cp_ps client_ps);
            if negb prepared then mret H_oom
            else
              queued ← add_outstanding_request s PqMsg_Describe RA_FORWARD;
              if negb queued then mret H_oom
              else
                ps ← the_statement (cp_ps client_ps);
                sent ← queue_packet s (TS_DescribeStmt (ps_stmt_name (ps_query_id ps)));
                mret (if sent : bool then H_true else H_false)
        end
  end.

Definition nothing_in_flight_to_client (v : PServer) : bool :=
  bool_decide (pv_requests v = []) && bool_decide (pv_extra_packets v = []) && pv_sbuf_empty v.

(** [link] is the client's server; [sent_now] is what SEND_CloseComplete
    returns when the answer goes straight to the client. *)
Definition handle_close_statement_command (c : positive) (link : option positive) (sent_now : bool)
    (name : list Z) : M bool :=
  t ← client_table c;
  (match find_name name t with
   | Some e => put_client c (del_name name t) ≫= fun _ => drop_use (cp_ps e)
   | None => mret tt
   end) ≫= fun _ =>
  match link with
  | None => mret sent_now
  | Some s =>
      v ← the_server s;
      if nothing_in_flight_to_client v then mret sent_now
      else add_outstanding_request s PqMsg_Close RA_FAKE
  end.

(** ** Errors and disconnects *)

Fixpoint free_client_loop (c : positive) (l : list PgClientPreparedStatement) : M unit :=
  match l with
  | [] => mret tt
  | e :: l =>
      put_client c l ≫= fun _ =>
      drop_use (cp_ps e) ≫= fun _ =>
      free_client_loop c l
  end.

Definition free_client_prepared_statements (c : positive) : M unit :=
  t ← client_table c;
  free_client_loop c t.

Fixpoint free_server_loop (s : positive) (l : list PgServerPreparedStatement) : M unit :=
  match l with
  | [] => mret tt
  | e :: l =>
      mod_server s (set_statements l) ≫= fun _ =>
      free_server_prepared_statement (Some e) ≫= fun _ =>
      free_server_loop s l
  end.

Definition free_server_prepared_statements (s : positive) : M unit :=
  v ← the_table s;
  free_server_loop s (pv_statements v).

(** The first loop of server_free: what the unanswered requests hold. *)
Fixpoint free_requests_loop (s : positive) (l : list OutstandingRequest) : M unit :=
  match l with
  | [] => mret tt
  | r :: l =>
      mod_server s (set_requests l) ≫= fun _ =>
      free_server_prepared_statement (or_server_ps r) ≫= fun _ =>
      free_requests_loop s l
  end.

Definition forget_server (s : positive) : M unit := fun σ =>
  Ok (tt, mkPStore (st_heap σ) (st_prepared_statements σ) (st_next_unique_query_id σ) (st_clients σ)
            (delete s (st_servers σ)) (st_allocs σ)).

Definition server_free (s : positive) : M unit :=
  v ← the_server s;
  free_requests_loop s (pv_requests v) ≫= fun _ =>
  free_server_prepared_statements s ≫= fun _ =>
  forget_server s.

Definition forget_client (c : positive) : M unit := fun σ =>
  Ok (tt, mkPStore (st_heap σ) (st_prepared_statements σ) (st_next_unique_query_id σ)
            (delete c (st_clients σ)) (st_servers σ) (st_allocs σ)).

Definition client_free (c : positive) : M unit :=
  free_client_prepared_statements c ≫= fun _ => forget_client c.

(** [l] is what is left of the iteration over the queue.  False means that
    both connections are dropped for lack of memory. *)
Fixpoint clear_requests_loop (s : positive) (types : list Z) (l : list OutstandingRequest) : M bool :=
  match l with
  | [] => mret true
  | r :: l =>
      ok ← (if bool_decide (or_type r = PqMsg_Parse) && bool_decide (0 < or_server_ps_query_id r) then
              unregister_prepared_statement s (or_server_ps_query_id r) ≫= fun _ => mret true
            else
              match or_server_ps r with
              | Some e =>
                  if bool_decide (or_type r = PqMsg_Close) then add_prepared_statement s e
                  else mret true
              | None => mret true
              end);
      if negb ok then mret false
      else
        mod_server s (set_requests l) ≫= fun _ =>
        if bool_decide (or_type r ∈ types) then mret true
        else clear_requests_loop s types l
  end.

Definition clear_outstanding_requests_until (s : positive) (types : list Z) : M bool :=
  v ← the_server s;
  clear_requests_loop s types (pv_requests v).

(** src/server.c; false means that both connections are dropped. *)
Fixpoint send_fake_loop (s : positive) (l : list OutstandingRequest) : M bool :=
  match l with
  | [] => mret true
  | r :: l =>
      if negb (bool_decide (or_action r = RA_FAKE)) then mret true
      else
        mod_server s (fun v => set_queue_after (set_requests l v)) ≫= fun _ =>
        queued ← queue_fake_response s (or_type r);
        if negb queued then mret false else send_fake_loop s l
  end.

Definition send_pending_fake_responses (s : positive) : M bool :=
  v ← the_server s;
  send_fake_loop s (pv_requests v).

End Operations.
