(* ===== verification/Statements.v ===== *)
(** * What the prepared statement layer promises

    To a client its statement names are its own: a Parse binds a name to a
    query, a Close removes it, and a Bind or Describe acts on the query the
    name is bound to, whatever server the client is on.  This file states
    that contract over the store of Prepare.v, with the invariant behind it:
    use counts are exact, no table holds a freed statement, and what a server
    is believed to have prepared is what the packets sent to it prepare. *)

From S2P Require Import Prelude Refs Protocol PktBuf PoolSpec World Prepare.
From stdpp Require Import base option countable gmap list strings.
#[local] Open Scope Z_scope.

(** ** References

    [all_refs] lists every pointer to a shared statement, with repetition. *)

Definition client_refs (t : list PgClientPreparedStatement) : list positive := cp_ps <$> t.

Definition server_entries (v : PServer) : list PgServerPreparedStatement :=
  pv_statements v ++ omap or_server_ps (pv_requests v).

Definition server_refs (v : PServer) : list positive := sp_ps <$> server_entries v.

Definition all_refs (σ : PStore) : list positive :=
  (map_to_list (st_clients σ) ≫= fun p => client_refs p.2) ++
  (map_to_list (st_servers σ) ≫= fun p => server_refs p.2).

(** ** What a server makes of the packets

    The server keeps its prepared statements by name.  [None]: it reports an
    error about the name, because a Parse reuses one or a Bind or Describe
    names a statement that is not there; a Close of a statement that is not
    there, which PostgreSQL lets pass, counts as an error as well. *)
#[local] Abbreviation names := (gmap (list Z) (list Z)).

Definition serve (P : names) (m : ToServer) : option names :=
  match m with
  | TS_Parse n q => match P !! n with Some _ => None | None => Some (<[n := q]> P) end
  | TS_CloseStmt n => match P !! n with Some _ => Some (delete n P) | None => None end
  | TS_Bind _ _ n _ | TS_DescribeStmt n => match P !! n with Some _ => Some P | None => None end
  end.

Definition run_all (ms : list ToServer) : option names :=
  foldl (fun acc m => acc ≫= fun P => serve P m) (Some ∅) ms.

Lemma run_all_snoc ms m : run_all (ms ++ [m]) = run_all ms ≫= fun P => serve P m.
Proof. unfold run_all. by rewrite foldl_app. Qed.

(** ** The invariant *)

(** The id and the query of a statement. *)
Definition text (h : gmap positive PgPreparedStatement) (a : positive) : option (Z * list Z) :=
  (fun ps => (ps_query_id ps, ps_query_and_parameters ps)) <$> h !! a.

(** The query a client's name stands for. *)
Definition client_view (h : gmap positive PgPreparedStatement) (t : list PgClientPreparedStatement)
    (name : list Z) : option (list Z) :=
  e ← find_name name t; snd <$> text h (cp_ps e).

Definition bindings (σ : PStore) (c : positive) (name : list Z) : option (list Z) :=
  t ← st_clients σ !! c; client_view (st_heap σ) t name.

Definition entry_ok (h : gmap positive PgPreparedStatement) (e : PgServerPreparedStatement) : Prop :=
  exists q, text h (sp_ps e) = Some (sp_query_id e, q).

(** Only a Parse or Close is answered without the server, and only a
    Close the client did not ask for holds a statement. *)
Definition request_ok (r : OutstandingRequest) : Prop :=
  (or_action r = RA_FAKE -> or_type r = PqMsg_Parse \/ or_type r = PqMsg_Close) /\
  (is_Some (or_server_ps r) -> or_type r = PqMsg_Close /\ or_action r = RA_SKIP) /\
  0 <= or_server_ps_query_id r < 2 ^ 64.

Definition server_ok (h : gmap positive PgPreparedStatement) (v : PServer) : Prop :=
  Forall (entry_ok h) (server_entries v) /\ Forall request_ok (pv_requests v) /\ pv_freed_entry v = false.

(** What a request does to the ids on the server, if it is carried out: a
    Parse ([true]) or a Close ([false]). *)
Definition request_event (r : OutstandingRequest) : option (bool * Z) :=
  if bool_decide (or_type r = PqMsg_Parse) && bool_decide (0 < or_server_ps_query_id r)
  then Some (true, or_server_ps_query_id r)
  else
    match or_server_ps r with
    | Some e => if bool_decide (or_type r = PqMsg_Close) then Some (false, sp_query_id e) else None
    | None => None
    end.

Definition requested (l : list OutstandingRequest) : list (bool * list Z) :=
  (fun ev => (ev.1, ps_stmt_name ev.2)) <$> omap request_event l.

(** What a packet does to the names. *)
Definition packet_event (m : ToServer) : option (bool * list Z) :=
  match m with
  | TS_Parse n _ => Some (true, n)
  | TS_CloseStmt n => Some (false, n)
  | TS_Bind _ _ _ _ | TS_DescribeStmt _ => None
  end.

(** [ms0] are packets the server has handled, the others are those of the
    requests in the queue. *)
Definition handled_so_far (v : PServer) (ms0 : list ToServer) : Prop :=
  exists ms1, pv_sent v = ms0 ++ ms1 /\ omap packet_event ms1 = requested (pv_requests v).

(** The statements the server has when it has handled all packets sent to it
    are those in the pooler's table, and no packet refers to a wrong name; the
    queue has the Parses and Closes it has not answered. *)
Definition synced (h : gmap positive PgPreparedStatement) (v : PServer) : Prop :=
  (NoDup (sp_query_id <$> pv_statements v) /\ exists ms0, handled_so_far v ms0) /\
  exists P, run_all (pv_sent v) = Some P /\
    forall n q, P !! n = Some q <->
      exists e, e ∈ pv_statements v /\ n = ps_stmt_name (sp_query_id e) /\
                text h (sp_ps e) = Some (sp_query_id e, q).

(** [held] are the pointers in local variables, [spare] may have no pointer
    yet, [S] are the servers in step with their packets, [A] is the meaning
    of the clients' names, [N] bounds the number of pointers. *)
Record Pinv (N : Z) (held spare : list positive) (S : gset positive)
    (A : positive -> list Z -> option (list Z)) (σ : PStore) : Prop := {
  pi_few : zlen (all_refs σ ++ held) <= N;
  pi_live a : a ∈ all_refs σ ++ held -> is_Some (st_heap σ !! a);
  pi_count a ps : st_heap σ !! a = Some ps -> ps_use_count ps = u32 (uses a (all_refs σ ++ held));
  pi_used a : is_Some (st_heap σ !! a) -> a ∈ all_refs σ ++ held \/ a ∈ spare;
  pi_hash q a : st_prepared_statements σ !! q = Some a <-> exists id, text (st_heap σ) a = Some (id, q);
  pi_ids a id q : text (st_heap σ) a = Some (id, q) -> 1 <= id <= st_next_unique_query_id σ;
  pi_inj a b id q q' :
    text (st_heap σ) a = Some (id, q) -> text (st_heap σ) b = Some (id, q') -> a = b;
  pi_next : 0 <= st_next_unique_query_id σ < 2 ^ 64;
  pi_server s v : st_servers σ !! s = Some v -> server_ok (st_heap σ) v;
  pi_synced s v : st_servers σ !! s = Some v -> s ∈ S -> synced (st_heap σ) v;
  pi_names c t : st_clients σ !! c = Some t -> NoDup (cp_stmt_name <$> t);
  pi_abs c n : bindings σ c n = A c n
}.

Lemma text_some h a ps : h !! a = Some ps -> text h a = Some (ps_query_id ps, ps_query_and_parameters ps).
Proof. unfold text. by intros ->. Qed.

Lemma text_inv h a id q :
  text h a = Some (id, q) ->
  exists ps, h !! a = Some ps /\ ps_query_id ps = id /\ ps_query_and_parameters ps = q.
Proof. unfold text. destruct (h !! a); simpl; [|done]. intros [= <- <-]. eauto. Qed.

Lemma text_insert h a ps b :
  text (<[a := ps]> h) b =
    if decide (a = b) then Some (ps_query_id ps, ps_query_and_parameters ps) else text h b.
Proof. unfold text. rewrite lookup_insert. by case_decide. Qed.

Lemma text_delete h a b : text (delete a h) b = if decide (a = b) then None else text h b.
Proof. unfold text. rewrite lookup_delete. by case_decide. Qed.

Lemma requested_app l l' : requested (l ++ l') = requested l ++ requested l'.
Proof. unfold requested. by rewrite omap_app, fmap_app. Qed.

Lemma requested_parse act o id : 0 < id -> requested [mkRequest PqMsg_Parse act o id] = [(true, ps_stmt_name id)].
Proof.
  intros H. assert (E : request_event (mkRequest PqMsg_Parse act o id) = Some (true, id)).
  { unfold request_event. cbn [or_type or_server_ps_query_id]. rewrite (bool_decide_eq_true_2 (PqMsg_Parse = PqMsg_Parse)), (bool_decide_eq_true_2 (0 < id)) by done. reflexivity. }
  unfold requested. cbn [omap list_omap]. by rewrite E.
Qed.

(** Requests are answered in order. *)
Lemma handled_suffix v v' ms0 :
  handled_so_far v ms0 -> pv_sent v' = pv_sent v -> requested (pv_requests v') `suffix_of` requested (pv_requests v) ->
  exists ms0', handled_so_far v' ms0'.
Proof.
  intros (ms1 & Es & Er) Ev [k Ek]. rewrite Ek in Er. unfold handled_so_far. rewrite Ev, Es.
  clear Ev Es Ek. revert ms0 k Er. induction ms1 as [|m ms1 IH]; intros ms0 k Er.
  - symmetry in Er. apply app_nil in Er as [_ ->]. exists ms0, []. done.
  - destruct k as [|x k]; [by exists ms0, (m :: ms1)|].
    change (ms0 ++ m :: ms1) with (ms0 ++ [m] ++ ms1). rewrite (assoc_L (++)).
    cbn [omap list_omap] in Er. destruct (packet_event m).
    + injection Er as _ Er. by apply (IH _ k).
    + by apply (IH _ (x :: k)).
Qed.

Lemma handled_snoc v v' m r :
  pv_sent v' = pv_sent v ++ m -> pv_requests v' = pv_requests v ++ r -> omap packet_event m = requested r ->
  (exists ms0, handled_so_far v ms0) -> exists ms0, handled_so_far v' ms0.
Proof.
  intros Em Er E (ms0 & ms1 & Es & Eq). exists ms0, (ms1 ++ m).
  rewrite Em, Es, Er, (assoc_L (++)), omap_app, requested_app, Eq, E. done.
Qed.

Lemma find_name_in n t e : find_name n t = Some e -> e ∈ t /\ cp_stmt_name e = n.
Proof.
  induction t as [|x t IH]; simpl; [done|]. case_bool_decide; [intros [= <-]|intros E].
  - split; [left|done].
  - destruct (IH E). split; [by right|done].
Qed.

Lemma client_ref_in σ c t e : st_clients σ !! c = Some t -> e ∈ t -> cp_ps e ∈ all_refs σ.
Proof.
  intros Ec He. unfold all_refs. rewrite (refs_take client_refs _ _ _ Ec).
  rewrite !elem_of_app. left; left. by apply list_elem_of_fmap_2.
Qed.

Lemma server_ref_in σ s v e : st_servers σ !! s = Some v -> e ∈ server_entries v -> sp_ps e ∈ all_refs σ.
Proof.
  intros Es He. unfold all_refs. rewrite (refs_take server_refs _ _ _ Es).
  rewrite !elem_of_app. right; left. by apply list_elem_of_fmap_2.
Qed.

(** The meaning of what is referred to only depends on the texts. *)
Section Frame.
Context (h h' : gmap positive PgPreparedStatement) (R : list positive)
  (Htext : forall a, a ∈ R -> text h' a = text h a).

Lemma server_ok_frame v :
  (forall e, e ∈ server_entries v -> sp_ps e ∈ R) -> server_ok h v -> server_ok h' v.
Proof using Htext.
  intros HR [He Hf]. split; [|done]. rewrite Forall_forall in *. intros e Hin.
  destruct (He e Hin) as [q E]. exists q. rewrite Htext; auto.
Qed.

Lemma synced_frame v :
  (forall e, e ∈ server_entries v -> sp_ps e ∈ R) -> synced h v -> synced h' v.
Proof using Htext.
  intros HR (Hnd & P & Hrun & HP). split; [done|]. exists P. split; [done|]. intros n q. rewrite HP.
  assert (Hin : forall e, e ∈ pv_statements v -> text h' (sp_ps e) = text h (sp_ps e)).
  { intros e He. apply Htext, HR. unfold server_entries. rewrite elem_of_app. by left. }
  split; intros (e & Hin1 & Hn & Et); exists e; rewrite Hin in *; auto.
Qed.

Lemma client_view_frame t n :
  (forall e, e ∈ t -> cp_ps e ∈ R) -> client_view h' t n = client_view h t n.
Proof using Htext.
  intros HR. unfold client_view. destruct (find_name n t) as [e|] eqn:E; simpl; [|done].
  rewrite Htext; [done|]. by apply HR, (find_name_in n t).
Qed.
End Frame.

Lemma bindings_frame σ h' :
  (forall a, a ∈ all_refs σ -> text h' a = text (st_heap σ) a) ->
  forall c n, bindings (set_heap h' σ) c n = bindings σ c n.
Proof.
  intros Ht c n. unfold bindings. cbn [set_heap st_clients st_heap].
  destruct (st_clients σ !! c) as [t|] eqn:Ec; simpl; [|done].
  apply (client_view_frame _ _ (all_refs σ)); [done|]. intros e He. by apply (client_ref_in σ c t).
Qed.

Lemma perm_held (a a' h h' x : list positive) :
  a ++ h ≡ₚ a' ++ h' -> a' ++ x ++ h' ≡ₚ a ++ x ++ h.
Proof.
  intros Hp. rewrite (Permutation_app_comm x h'), (Permutation_app_comm x h).
  by rewrite !(assoc_L (++)), Hp.
Qed.

(** ** Steps that only move pointers *)
Section Moves.
Context (N : Z) (spare : list positive) (S : gset positive) (A : positive -> list Z -> option (list Z)).
Implicit Types (held : list positive) (σ : PStore).

Lemma pinv_client held held' A' σ c t t' :
  Pinv N held spare S A σ -> st_clients σ !! c = Some t ->
  client_refs t ++ held ≡ₚ client_refs t' ++ held' ->
  NoDup (cp_stmt_name <$> t') ->
  (forall c' n, A' c' n = if decide (c' = c) then client_view (st_heap σ) t' n else A c' n) ->
  Pinv N held' spare S A' (set_client c t' σ).
Proof.
  intros HI Ec Hp Hnd HA.
  assert (E : all_refs (set_client c t' σ) ++ held' ≡ₚ all_refs σ ++ held).
  { unfold all_refs. cbn [set_client st_clients st_servers].
    rewrite (refs_take client_refs _ _ _ Ec), refs_put, <- !(assoc_L (++)).
    rewrite !(assoc_L (++) (_ ≫= _)).
    by apply perm_held. }
  destruct HI. split; cbn [set_client st_heap st_prepared_statements st_next_unique_query_id
    st_clients st_servers]; auto.
  - by rewrite E.
  - intros a. rewrite E. auto.
  - intros a ps Ha. rewrite E. auto.
  - intros a. rewrite E. auto.
  - intros c' t1. rewrite lookup_insert. case_decide; [by intros [= <-] | eauto].
  - intros c' n. rewrite HA, <- pi_abs0. unfold bindings. cbn [set_client st_clients st_heap].
    rewrite lookup_insert. repeat case_decide; congruence || done.
Qed.

Lemma pinv_server held held' S' σ s v v' :
  Pinv N held spare S A σ -> st_servers σ !! s = Some v ->
  server_refs v ++ held ≡ₚ server_refs v' ++ held' ->
  server_ok (st_heap σ) v' ->
  (forall s', s' ∈ S' -> s' <> s -> s' ∈ S) ->
  (s ∈ S' -> synced (st_heap σ) v') ->
  Pinv N held' spare S' A (set_server s v' σ).
Proof.
  intros HI Es Hp Hok HS Hsync.
  assert (E : all_refs (set_server s v' σ) ++ held' ≡ₚ all_refs σ ++ held).
  { unfold all_refs. cbn [set_server st_clients st_servers].
    rewrite (refs_take server_refs _ _ _ Es), refs_put, <- !(assoc_L (++)).
    f_equiv. by apply perm_held. }
  destruct HI. split; cbn [set_server st_heap st_prepared_statements st_next_unique_query_id
    st_clients st_servers]; auto.
  - by rewrite E.
  - intros a. rewrite E. auto.
  - intros a ps Ha. rewrite E. auto.
  - intros a. rewrite E. auto.
  - intros s' v1. rewrite lookup_insert. case_decide; [by intros [= <-] | eauto].
  - intros s' v1. rewrite lookup_insert. case_decide; [intros [= <-]; subst; auto | eauto].
Qed.

Lemma pinv_allocs held σ n :
  Pinv N held spare S A σ ->
  Pinv N held spare S A (mkPStore (st_heap σ) (st_prepared_statements σ) (st_next_unique_query_id σ)
                           (st_clients σ) (st_servers σ) n).
Proof. intros []. by split. Qed.
End Moves.

(** ** Steps on the shared statements *)

Lemma u32_add n : u32 (u32 n + 1) = u32 (n + 1).
Proof. unfold u32. by rewrite Zplus_mod_idemp_l. Qed.

Lemma u32_sub n : u32 (u32 n - 1) = u32 (n - 1).
Proof. unfold u32. by rewrite Zminus_mod_idemp_l. Qed.

(** A new heap and table in which what is referred to keeps its text. *)
Lemma pinv_heap N N' held held' spare S A σ h' hash' :
  Pinv N held spare S A σ ->
  (forall b, b ∈ all_refs σ ++ held' -> is_Some (h' !! b) /\ text h' b = text (st_heap σ) b) ->
  (forall b x, text h' b = Some x -> text (st_heap σ) b = Some x) ->
  zlen (all_refs σ ++ held') <= N' ->
  (forall b ps, h' !! b = Some ps -> ps_use_count ps = u32 (uses b (all_refs σ ++ held'))) ->
  (forall b, is_Some (h' !! b) -> b ∈ all_refs σ ++ held' \/ b ∈ spare) ->
  (forall q b, hash' !! q = Some b <-> exists id, text h' b = Some (id, q)) ->
  Pinv N' held' spare S A (set_heap h' (set_hash hash' σ)).
Proof.
  intros HI Hlive Hold Hfew Hcount Hused Hhash.
  assert (Ht : forall b, b ∈ all_refs σ -> text h' b = text (st_heap σ) b).
  { intros b Hb. apply Hlive. rewrite elem_of_app. by left. }
  assert (Hin : forall s v, st_servers σ !! s = Some v ->
    forall e, e ∈ server_entries v -> sp_ps e ∈ all_refs σ) by (intros; eapply server_ref_in; eauto).
  split; cbn [set_heap set_hash st_heap st_prepared_statements st_next_unique_query_id st_servers
    st_clients]; auto.
  - intros b Hb. by apply Hlive.
  - intros b id q E%Hold. by apply (pi_ids _ _ _ _ _ _ HI b id q).
  - intros b b' id q q' E%Hold E'%Hold. by apply (pi_inj _ _ _ _ _ _ HI b b' id q q').
  - apply (pi_next _ _ _ _ _ _ HI).
  - intros s v Es. apply (server_ok_frame _ _ _ Ht); eauto using pi_server.
  - intros s v Es Hs. apply (synced_frame _ _ _ Ht); eauto using pi_synced.
  - apply (pi_names _ _ _ _ _ _ HI).
  - intros c n. rewrite <- (pi_abs _ _ _ _ _ _ HI). by apply (bindings_frame σ h').
Qed.

(** A statement that only changes its use count. *)
Lemma text_recount h a ps n b :
  h !! a = Some ps ->
  text (<[a := mkPs (ps_query_id ps) n (ps_query_and_parameters ps)]> h) b = text h b.
Proof. intros Ha. rewrite text_insert. case_decide; [subst|done]. by rewrite (text_some _ _ ps Ha). Qed.

Lemma live_insert (h : gmap positive PgPreparedStatement) a ps ps' b :
  h !! a = Some ps -> is_Some (<[a := ps']> h !! b) <-> is_Some (h !! b).
Proof. intros Ha. rewrite lookup_insert. case_decide; [subst; rewrite Ha; split; eauto | done]. Qed.

Lemma pinv_recount N N' held held' spare S A σ a ps n :
  Pinv N held spare S A σ -> st_heap σ !! a = Some ps ->
  (forall b, b ∈ all_refs σ ++ held' -> is_Some (st_heap σ !! b)) ->
  zlen (all_refs σ ++ held') <= N' ->
  n = u32 (uses a (all_refs σ ++ held')) ->
  (forall b, b <> a -> uses b held' = uses b held) ->
  a ∈ all_refs σ ++ held' ->
  Pinv N' held' spare S A
    (set_heap (<[a := mkPs (ps_query_id ps) n (ps_query_and_parameters ps)]> (st_heap σ)) σ).
Proof.
  intros HI Ha Hlive Hfew Hn Hother Hin.
  apply (pinv_heap N _ held _ _ _ _ σ _ (st_prepared_statements σ)); [done|..|done| | |].
  - intros b Hb. rewrite (live_insert _ _ ps), (text_recount _ _ ps) by done. auto.
  - intros b x. by rewrite (text_recount _ _ ps).
  - intros b ps' Hb. rewrite lookup_insert in Hb. destruct (decide (a = b)) as [->|Hne].
    + injection Hb as <-. by rewrite Hn.
    + rewrite (pi_count _ _ _ _ _ _ HI b ps' Hb), !uses_app, Hother by done. done.
  - intros b. rewrite (live_insert _ _ ps) by done. intros Hb.
    destruct (decide (b = a)) as [->|Hne]; [by left|].
    destruct (pi_used _ _ _ _ _ _ HI b Hb) as [Hu|]; [left|by right].
    rewrite uses_pos, uses_app in Hu |- *. by rewrite Hother.
  - intros q b. rewrite (pi_hash _ _ _ _ _ _ HI). by setoid_rewrite (text_recount _ _ ps).
Qed.

Lemma add_use_good N held spare S A σ a :
  Pinv N held spare S A σ -> is_Some (st_heap σ !! a) ->
  good (add_use a) (fun _ σ' => Pinv (N + 1) (a :: held) spare S A σ' /\
    exists h', σ' = set_heap h' σ /\ forall b, text h' b = text (st_heap σ) b) σ.
Proof.
  intros HI [ps Ha]. unfold add_use, good. rewrite Ha. eexists _, _. split; [reflexivity|]. cbv beta.
  split; [|eexists; split; [done|]; intros b; by apply text_recount].
  apply (pinv_recount N _ held); try done.
  - intros b. rewrite elem_of_app, elem_of_cons. intros [?|[->|?]]; eauto;
      apply (pi_live _ _ _ _ _ _ HI); rewrite elem_of_app; auto.
  - pose proof (pi_few _ _ _ _ _ _ HI). rewrite zlen_app, zlen_cons in *. lia.
  - rewrite (pi_count _ _ _ _ _ _ HI a ps Ha), u32_add, !uses_app, uses_cons, decide_True by done.
    f_equal. lia.
  - intros b Hb. rewrite uses_cons, decide_False by done. done.
  - rewrite elem_of_app, elem_of_cons. auto.
Qed.

(** The last pointer goes: the statement leaves the table and is freed. *)
Lemma pinv_free N held spare S A σ a ps :
  Pinv N (a :: held) spare S A σ -> st_heap σ !! a = Some ps -> a ∉ all_refs σ ++ held ->
  Pinv N held spare S A
    (set_heap (delete a (st_heap σ))
       (set_hash (delete (ps_query_and_parameters ps) (st_prepared_statements σ)) σ)).
Proof.
  intros HI Ha Hna. pose proof (text_some _ _ _ Ha) as Hta.
  assert (Ht : forall b, b <> a -> text (delete a (st_heap σ)) b = text (st_heap σ) b)
    by (intros; rewrite text_delete; by rewrite decide_False).
  assert (Hne : forall b x, text (delete a (st_heap σ)) b = Some x -> b <> a)
    by (intros b x E ->; rewrite text_delete, decide_True in E by done; done).
  apply (pinv_heap N _ (a :: held)); [done|..].
  - intros b Hb. assert (b <> a) by congruence. rewrite lookup_delete_ne, Ht by done. split; [|done].
    apply (pi_live _ _ _ _ _ _ HI). rewrite elem_of_app, elem_of_cons in *. tauto.
  - intros b x E. rewrite <- Ht; eauto.
  - pose proof (pi_few _ _ _ _ _ _ HI). rewrite zlen_app, zlen_cons in *. lia.
  - intros b ps' [Hb E]%lookup_delete_Some. rewrite (pi_count _ _ _ _ _ _ HI b ps' E), !uses_app, uses_cons.
    by rewrite decide_False.
  - intros b [Hb E]%lookup_delete_is_Some. destruct (pi_used _ _ _ _ _ _ HI b E) as [Hu|]; [left|by right].
    rewrite elem_of_app, elem_of_cons in *. destruct Hu as [?|[?|?]]; auto; congruence.
  - intros q b. rewrite lookup_delete_Some, (pi_hash _ _ _ _ _ _ HI). split.
    + intros [Hq [id E]]. exists id. rewrite Ht; [done|]. intros ->. congruence.
    + intros [id E]. pose proof (Hne _ _ E) as Hb. rewrite Ht in E by done. split; [|eauto].
      intros Eq. rewrite <- Eq in E. apply Hb.
      assert (Eb := proj2 (pi_hash _ _ _ _ _ _ HI _ b) (ex_intro _ id E)).
      assert (Ea := proj2 (pi_hash _ _ _ _ _ _ HI _ a) (ex_intro _ _ Hta)). congruence.
Qed.

Lemma drop_use_good N held spare S A σ a :
  Pinv N (a :: held) spare S A σ -> N <= 2 ^ 32 ->
  good (drop_use a) (fun _ σ' => Pinv N held spare S A σ' /\
    st_clients σ' = st_clients σ /\ st_servers σ' = st_servers σ) σ.
Proof.
  intros HI HN. destruct (pi_live _ _ _ _ _ _ HI a) as [ps Ha].
  { rewrite elem_of_app, elem_of_cons. auto. }
  pose proof (pi_few _ _ _ _ _ _ HI) as Hf. rewrite zlen_app, zlen_cons in Hf.
  pose proof (uses_le a (all_refs σ ++ held)) as Hle. rewrite zlen_app in Hle.
  pose proof (uses_nonneg a (all_refs σ ++ held)) as H0.
  assert (Hn : u32 (ps_use_count ps - 1) = u32 (uses a (all_refs σ ++ held))).
  { rewrite (pi_count _ _ _ _ _ _ HI a ps Ha), u32_sub, !uses_app, uses_cons, decide_True by done.
    f_equal. lia. }
  assert (Hs : u32 (uses a (all_refs σ ++ held)) = uses a (all_refs σ ++ held))
    by (unfold u32; apply Z.mod_small; lia).
  unfold drop_use, good. rewrite Ha. rewrite Hn. case_bool_decide as Hz.
  - eexists _, _. split; [reflexivity|]. cbv beta. split; [|done].
    apply pinv_free; [done..|]. rewrite uses_pos. lia.
  - eexists _, _. split; [reflexivity|]. cbv beta. split; [|done].
    apply (pinv_recount N _ (a :: held)); try done.
    + intros b Hb. apply (pi_live _ _ _ _ _ _ HI). rewrite elem_of_app, elem_of_cons in *. tauto.
    + rewrite zlen_app. lia.
    + intros b Hb. rewrite uses_cons, decide_False by done. done.
    + rewrite uses_pos. lia.
Qed.

(** A new statement enters the store. *)
Lemma pinv_create N held spare S A σ a q n :
  Pinv N held spare S A σ -> st_prepared_statements σ !! q = None -> st_heap σ !! a = None ->
  st_next_unique_query_id σ + 1 < 2 ^ 64 ->
  Pinv N held (a :: spare) S A
    (mkPStore (<[a := mkPs (st_next_unique_query_id σ + 1) 0 q]> (st_heap σ))
       (<[q := a]> (st_prepared_statements σ)) (st_next_unique_query_id σ + 1)
       (st_clients σ) (st_servers σ) n).
Proof.
  intros HI Hq Ha Hn. set (id := _ + 1). set (h' := <[a := _]> _). set (σ' := mkPStore _ _ _ _ _ _).
  assert (Hna : a ∉ all_refs σ ++ held).
  { intros [ps E]%(pi_live _ _ _ _ _ _ HI). congruence. }
  assert (Ht : forall b, text h' b = if decide (a = b) then Some (id, q) else text (st_heap σ) b)
    by (intros; apply text_insert).
  assert (Hold : forall b, b ∈ all_refs σ -> text h' b = text (st_heap σ) b).
  { intros b Hb. rewrite Ht, decide_False; [done|]. intros <-. apply Hna. set_solver. }
  assert (Hin : forall s v, st_servers σ !! s = Some v ->
    forall e, e ∈ server_entries v -> sp_ps e ∈ all_refs σ) by (intros; eapply server_ref_in; eauto).
  split; subst σ'; cbn [st_heap st_prepared_statements st_next_unique_query_id st_servers st_clients];
    try change (all_refs (mkPStore _ _ _ _ _ _)) with (all_refs σ).
  - apply (pi_few _ _ _ _ _ _ HI).
  - intros b Hb. unfold h'. rewrite lookup_insert. case_decide; [done|]. by apply (pi_live _ _ _ _ _ _ HI).
  - intros b ps. unfold h'. rewrite lookup_insert. case_decide; [|apply (pi_count _ _ _ _ _ _ HI)].
    intros [= <-]. subst b. simpl. rewrite uses_pos in Hna. pose proof (uses_nonneg a (all_refs σ ++ held)).
    by replace (uses a (all_refs σ ++ held)) with 0 by lia.
  - intros b. unfold h'. rewrite lookup_insert. rewrite elem_of_cons. case_decide; [subst; auto|].
    intros Hb. destruct (pi_used _ _ _ _ _ _ HI b Hb); auto.
  - intros q' b. rewrite lookup_insert, Ht. repeat case_decide; subst.
    + split; [eauto | done].
    + split; [congruence|]. intros Hb%(pi_hash _ _ _ _ _ _ HI). congruence.
    + split; [|intros [? [= ? ?]]; congruence]. intros [id' E]%(pi_hash _ _ _ _ _ _ HI).
      unfold text in E. by rewrite Ha in E.
    + apply (pi_hash _ _ _ _ _ _ HI).
  - intros b id' q'. rewrite Ht. pose proof (pi_next _ _ _ _ _ _ HI). case_decide.
    + intros [= <- <-]. lia.
    + intros E%(pi_ids _ _ _ _ _ _ HI). lia.
  - intros b b' id' q1 q2. rewrite !Ht. repeat case_decide; intros E E'; subst; try done.
    + injection E as <- _. apply (pi_ids _ _ _ _ _ _ HI) in E'. lia.
    + injection E' as <- _. apply (pi_ids _ _ _ _ _ _ HI) in E. lia.
    + by apply (pi_inj _ _ _ _ _ _ HI b b' id' q1 q2).
  - pose proof (pi_next _ _ _ _ _ _ HI). lia.
  - intros s v Es. apply (server_ok_frame _ _ _ Hold); eauto using pi_server.
  - intros s v Es Hs. apply (synced_frame _ _ _ Hold); eauto using pi_synced.
  - apply (pi_names _ _ _ _ _ _ HI).
  - intros c m. rewrite <- (pi_abs _ _ _ _ _ _ HI). by apply (bindings_frame σ h').
Qed.

(** A failed creation only uses up an id. *)
Lemma pinv_skip_id N held spare S A σ n :
  Pinv N held spare S A σ -> st_next_unique_query_id σ + 1 < 2 ^ 64 ->
  Pinv N held spare S A
    (mkPStore (st_heap σ) (st_prepared_statements σ) (st_next_unique_query_id σ + 1)
       (st_clients σ) (st_servers σ) n).
Proof.
  intros [] Hn. split; cbn; auto; [|lia]. intros b id q E. pose proof (pi_ids0 b id q E). lia.
Qed.

(** ** Steps on one server *)

(** [σ'] is [σ] with [v] for server [s], up to the count of allocations. *)
Definition at_server (s : positive) (v : PServer) (σ σ' : PStore) : Prop :=
  st_heap σ' = st_heap σ /\ st_prepared_statements σ' = st_prepared_statements σ /\
  st_next_unique_query_id σ' = st_next_unique_query_id σ /\ st_clients σ' = st_clients σ /\
  st_servers σ' = <[s := v]> (st_servers σ).

Lemma at_server_refl s v σ : st_servers σ !! s = Some v -> at_server s v σ σ.
Proof. intros. split_and!; try done. by rewrite insert_id. Qed.

Lemma at_server_trans s v v' σ σ' σ'' :
  at_server s v σ σ' -> at_server s v' σ' σ'' -> at_server s v' σ σ''.
Proof.
  intros (? & ? & ? & ? & E) (? & ? & ? & ? & E'). split_and!; try congruence.
  rewrite E', E. by rewrite insert_insert_eq.
Qed.

Lemma at_server_lookup s v σ σ' : at_server s v σ σ' -> st_servers σ' !! s = Some v.
Proof. intros (_ & _ & _ & _ & ->). apply lookup_insert_eq. Qed.

Lemma pinv_at_server N spare S A held held' S' σ σ' s v v' :
  Pinv N held spare S A σ -> st_servers σ !! s = Some v -> at_server s v' σ σ' ->
  server_refs v ++ held ≡ₚ server_refs v' ++ held' ->
  server_ok (st_heap σ) v' ->
  (forall s', s' ∈ S' -> s' <> s -> s' ∈ S) ->
  (s ∈ S' -> synced (st_heap σ) v') ->
  Pinv N held' spare S' A σ'.
Proof.
  intros HI Es (E1 & E2 & E3 & E4 & E5) Hp Hok HS Hsync.
  pose proof (pinv_server N spare S A held held' S' σ s v v' HI Es Hp Hok HS Hsync) as H.
  destruct σ' as [????? n]; cbn in *; subst. apply (pinv_allocs _ _ _ _ _ _ n H).
Qed.

Definition put_request r v := set_requests (pv_requests v ++ [r]) v.

Definition close_request (e : PgServerPreparedStatement) : OutstandingRequest :=
  mkRequest PqMsg_Close RA_SKIP (Some e) 0.
Definition close_packet (e : PgServerPreparedStatement) : ToServer :=
  TS_CloseStmt (ps_stmt_name (sp_query_id e)).

(** The first [k] statements are closed. *)
Definition evicted (k : nat) (v : PServer) : PServer :=
  let l := pv_statements v in
  mkPServer (drop k l) (pv_requests v ++ (close_request <$> take k l))
    (pv_sent v ++ (close_packet <$> take k l)) (pv_extra_packets v) (pv_queue_after v)
    (pv_sbuf_empty v) (pv_freed_entry v).

Lemma evicted_0 v : evicted 0 v = v.
Proof. destruct v. unfold evicted; cbn. by rewrite !app_nil_r. Qed.

Lemma update_last_snoc {X} (f : X -> X) l x : update_last f (l ++ [x]) = l ++ [f x].
Proof.
  induction l as [|y l IH]; [done|]. simpl. rewrite IH. by destruct l.
Qed.

Section Server.
Context (mem : nat -> bool) (cf_max_prepared_statements : Z) (s : positive).

(** [k] is the number of statements that have to go from [l], no more. *)
Definition evicts_to_max (l : list PgServerPreparedStatement) (k : nat) : Prop :=
  zlen (drop k l) <= u32 cf_max_prepared_statements /\
  (k = O \/ u32 cf_max_prepared_statements < zlen (drop (pred k) l)).

(** The outcomes of an operation on server [s]: done, or out of memory. *)
Definition moves (v' : PServer) (σ : PStore) (b : bool) (σ' : PStore) : Prop :=
  if b then at_server s v' σ σ' else st_heap σ' = st_heap σ /\ is_Some (st_servers σ' !! s).

Lemma allocate_good (Q : bool -> PStore -> Prop) σ :
  (forall b, Q b (mkPStore (st_heap σ) (st_prepared_statements σ) (st_next_unique_query_id σ)
                    (st_clients σ) (st_servers σ) (S (st_allocs σ)))) ->
  good (allocate mem) Q σ.
Proof. intros H. unfold allocate, good. eauto. Qed.

Lemma bind_server {B} (k : PServer -> SM PStore B) (Q : B -> PStore -> Prop) v σ :
  st_servers σ !! s = Some v -> good (k v) Q σ -> good (the_server s ≫= k) Q σ.
Proof. intros E H. unfold good, mbind, SM_bind, the_server. by rewrite E. Qed.

Lemma bind_table {B} (k : PServer -> SM PStore B) (Q : B -> PStore -> Prop) v σ :
  st_servers σ !! s = Some v -> pv_freed_entry v = false -> good (k v) Q σ -> good (the_table s ≫= k) Q σ.
Proof. intros E Ef H. unfold good, mbind, SM_bind, the_table. by rewrite E, Ef. Qed.

Lemma bind_statement {B} (k : PgPreparedStatement -> SM PStore B) (Q : B -> PStore -> Prop) a ps σ :
  st_heap σ !! a = Some ps -> good (k ps) Q σ -> good (the_statement a ≫= k) Q σ.
Proof. intros E H. unfold good, mbind, SM_bind, the_statement. by rewrite E. Qed.

Lemma bind_mod_server {B} f (k : unit -> SM PStore B) (Q : B -> PStore -> Prop) v σ :
  st_servers σ !! s = Some v ->
  (forall σ', at_server s (f v) σ σ' -> good (k tt) Q σ') -> good (mod_server s f ≫= k) Q σ.
Proof.
  intros E H. unfold good, mbind, SM_bind, mod_server. rewrite E. apply H. by split_and!.
Qed.

(** An allocation, then an update of the server. *)
Lemma allocate_mod_good f v σ :
  st_servers σ !! s = Some v ->
  good (ok ← allocate mem; if negb ok then mret false else mod_server s f ≫= fun _ => mret true)
    (moves (f v) σ) σ.
Proof.
  intros E. eapply good_bind; [apply (allocate_good (fun b σ' =>
    st_heap σ' = st_heap σ /\ at_server s v σ σ'))|].
  - intros b. split; [done|]. split_and!; try done. cbn. by rewrite insert_id.
  - intros [] σ1 [E1 Hat]; cbn [negb]; [|apply good_ret; split; [done|]; by rewrite (at_server_lookup _ _ _ _ Hat)].
    eapply bind_mod_server; [by apply (at_server_lookup _ _ _ _ Hat)|]. intros σ2 H2. apply good_ret. by apply (at_server_trans _ _ _ _ _ _ Hat).
Qed.

Lemma queue_packet_good m v σ :
  st_servers σ !! s = Some v -> good (queue_packet mem s m) (moves (put_sent m v) σ) σ.
Proof. apply allocate_mod_good. Qed.

Lemma add_request_good type action v σ :
  st_servers σ !! s = Some v -> action <> RA_FAKE ->
  good (add_outstanding_request mem s type action)
    (moves (put_request (mkRequest type action None 0) v) σ) σ.
Proof.
  intros E Ha. unfold add_outstanding_request. eapply bind_server; [done|]. rewrite (bool_decide_eq_false_2 (action = RA_FAKE)) by done. simpl andb.
  by apply (allocate_mod_good (fun v => put_request (mkRequest type action None 0) v)).
Qed.

Lemma add_statement_good e v σ :
  st_servers σ !! s = Some v -> pv_freed_entry v = false ->
  good (add_prepared_statement mem s e) (moves (set_statements (pv_statements v ++ [e]) v) σ) σ.
Proof.
  intros Es Ef. unfold add_prepared_statement. eapply bind_table; [done..|].
  by apply (allocate_mod_good (fun v => set_statements (pv_statements v ++ [e]) v)).
Qed.

(** Freeing an entry that may be in the table. *)
Lemma free_listed_server_good e ps σ :
  st_heap σ !! sp_ps e = Some ps -> is_Some (st_servers σ !! s) -> good (free_listed_server_ps s e) (fun _ _ => True) σ.
Proof.
  intros Hps [v Es]. unfold free_listed_server_ps. eapply bind_server; [done|]. cbn [free_server_prepared_statement].
  eapply good_bind with (R := fun _ σ' => is_Some (st_servers σ' !! s)).
  - unfold drop_use, good. rewrite Hps. case_bool_decide; eexists _, _; (split; [done|]); cbn; eauto.
  - intros _ σ' [v' Es']. case_bool_decide; [|by apply good_ret]. unfold good, mod_server. rewrite Es'. eauto.
Qed.

Lemma evict_good l v σ :
  st_servers σ !! s = Some v -> pv_freed_entry v = false -> pv_statements v = l -> Forall (entry_ok (st_heap σ)) l ->
  good (evict_statements mem cf_max_prepared_statements s l)
    (fun b σ' => (st_heap σ' = st_heap σ /\ is_Some (st_servers σ' !! s)) /\ (b = true ->
       exists k, at_server s (evicted k v) σ σ' /\ evicts_to_max l k)) σ.
Proof.
  assert (Hpos : 0 <= u32 cf_max_prepared_statements) by (unfold u32; apply Z.mod_pos_bound; lia).
  revert v σ. induction l as [|e l IH]; intros v σ Es Ef El Hok.
  - apply good_ret. split; [split; [done|by eexists]|]. exists O. rewrite evicted_0. split; [by apply at_server_refl|].
    split; [unfold zlen; simpl; lia | by left].
  - simpl. eapply bind_table; [done..|]. rewrite El. case_bool_decide as Hle.
    { apply good_ret. split; [split; [done|by eexists]|]. exists O. rewrite evicted_0. split; [by apply at_server_refl|].
      split; [done|by left]. }
    apply Forall_cons in Hok as [He Hok]. destruct He as [q Hq].
    apply text_inv in Hq as (ps & Hps & Hid & _).
    eapply bind_statement; [done|]. rewrite Hid.
    eapply good_bind; [by apply queue_packet_good|]. intros [] σ1 H1; cbn [negb moves] in *;
      [|apply good_ret; done].
    eapply good_bind; [apply add_request_good; [by apply (at_server_lookup _ _ _ _ H1)|done]|].
    intros [] σ2 H2; cbn [negb moves] in *; [|apply good_ret; destruct H1, H2; split; [split; [congruence|done]|done]].
    pose proof (at_server_trans _ _ _ _ _ _ H1 H2) as H12. clear H1 H2.
    eapply bind_mod_server; [by apply (at_server_lookup _ _ _ _ H12)|]. intros σ3 H3. pose proof (at_server_trans _ _ _ _ _ _ H12 H3) as H13. clear H12 H3.
    eapply bind_mod_server; [by apply (at_server_lookup _ _ _ _ H13)|]. intros σ4 H4. pose proof (at_server_trans _ _ _ _ _ _ H13 H4) as H14. clear H13 H4.
    cbn [set_requests put_request put_sent set_statements pv_requests pv_statements] in H14.
    rewrite update_last_snoc, El in H14. simpl in H14.
    assert (Eh : st_heap σ4 = st_heap σ) by apply H14.
    eapply good_conseq; [apply (IH _ _ (at_server_lookup _ _ _ _ H14)); [done|done|by rewrite Eh]|].
    cbv beta. intros b σ5 [[Eh5 Hs5] Hb]. split; [split; [congruence|done]|]. intros ->. destruct (Hb eq_refl) as (k & Hk & Hz & Hmin).
    exists (S k). split; [|split; [done|right; destruct k; simpl in *; [lia | by destruct Hmin]]].
    eapply at_server_trans; [exact H14|].
    cbn [evicted set_statements set_requests pv_statements pv_requests pv_sent pv_extra_packets
      pv_queue_after pv_sbuf_empty] in Hk |- *.
    unfold evicted in *. rewrite El. cbn in Hk |- *. by rewrite <- !app_assoc in Hk.
Qed.

Lemma register_good e act q0 ps v σ :
  st_servers σ !! s = Some v -> pv_requests v = q0 ++ [mkRequest PqMsg_Parse act None 0] ->
  st_heap σ !! sp_ps e = Some ps -> ps_query_id ps = sp_query_id e ->
  Forall (entry_ok (st_heap σ)) (pv_statements v) -> pv_freed_entry v = false ->
  good (register_prepared_statement mem cf_max_prepared_statements s e)
    (fun b σ' => (st_heap σ' = st_heap σ /\ is_Some (st_servers σ' !! s)) /\ (b = true ->
       exists k, at_server s (evicted k (set_statements (pv_statements v ++ [e])
                   (set_requests (q0 ++ [mkRequest PqMsg_Parse act None (sp_query_id e)]) v))) σ σ' /\
         evicts_to_max (pv_statements v ++ [e]) k)) σ.
Proof.
  intros Es Eq Hps Hid Hok Ef. unfold register_prepared_statement.
  eapply bind_server; [done|]. rewrite Eq, last_snoc. cbn [or_type or_server_ps_query_id negb].
  eapply bind_statement; [done|]. rewrite Hid.
  eapply bind_mod_server; [done|]. intros σ1 H1. rewrite Eq, update_last_snoc in H1.
  cbn [or_type or_action or_server_ps] in H1.
  eapply good_bind; [apply add_statement_good; [apply (at_server_lookup _ _ _ _ H1)|done]|].
  intros [] σ2 H2; cbn [negb moves] in *; [|apply good_ret; destruct H1, H2; split; [split; [congruence|done]|done]].
  pose proof (at_server_trans _ _ _ _ _ _ H1 H2) as H12. clear H1 H2.
  assert (Eh : st_heap σ2 = st_heap σ) by apply H12.
  eapply bind_table; [by apply (at_server_lookup _ _ _ _ H12)|done|].
  cbn [set_statements set_requests pv_statements] in *.
  eapply good_conseq; [eapply evict_good; [by apply (at_server_lookup _ _ _ _ H12)|done|done|]|].
  - rewrite Eh. apply Forall_app. split; [done|]. constructor; [|done].
    exists (ps_query_and_parameters ps). by rewrite (text_some _ _ ps Hps), Hid.
  - cbv beta. intros b σ3 [[Eh3 Hs3] Hb]. split; [split; [congruence|done]|]. intros ->.
    destruct (Hb eq_refl) as (k & Hk & Hz). exists k. split; [|done]. by eapply at_server_trans.
Qed.
End Server.

(** ** A statement prepared on a server *)

(** Server [v] after a Parse for entry [e] (the client expects an answer or
    not, [act]) and the eviction of the [k] oldest statements. *)
Definition parsed (act : ResponseAction) (e : PgServerPreparedStatement) (q : list Z) (v : PServer) :=
  mkPServer (pv_statements v ++ [e])
    (pv_requests v ++ [mkRequest PqMsg_Parse act None (sp_query_id e)])
    (pv_sent v ++ [TS_Parse (ps_stmt_name (sp_query_id e)) q]) (pv_extra_packets v) (pv_queue_after v)
    (pv_sbuf_empty v) (pv_freed_entry v).

Lemma ps_stmt_name_inj a b :
  0 <= a < 2 ^ 64 -> 0 <= b < 2 ^ 64 -> ps_stmt_name a = ps_stmt_name b -> a = b.
Proof. intros ?? E. apply dec_inj; [done..|]. unfold ps_stmt_name in E. by apply app_inv_head in E. Qed.

Lemma omap_close (l : list PgServerPreparedStatement) : omap or_server_ps (close_request <$> l) = l.
Proof. induction l as [|e l IH]; [done|]. cbn. f_equal. exact IH. Qed.

Lemma evicted_entries k v : server_entries (evicted k v) ≡ₚ server_entries v.
Proof.
  unfold server_entries, evicted. cbn [pv_statements pv_requests].
  rewrite omap_app, omap_close. rewrite (Permutation_app_comm (omap _ _)), (assoc_L (++)).
  rewrite (Permutation_app_comm (drop _ _)), take_drop. done.
Qed.

Lemma parsed_entries act e q v : server_entries (parsed act e q v) ≡ₚ e :: server_entries v.
Proof.
  unfold server_entries, parsed. cbn [pv_statements pv_requests]. rewrite omap_app. cbn.
  rewrite app_nil_r, <- (assoc_L (++)). simpl. by rewrite <- Permutation_middle.
Qed.

Lemma evicted_ok h k v : server_ok h v -> server_ok h (evicted k v).
Proof.
  intros (He & Hf & Hd). split; [by rewrite evicted_entries|]. unfold evicted. cbn [pv_requests pv_freed_entry]. split; [|done].
  apply Forall_app. split; [done|]. apply Forall_fmap, Forall_true. by intros x.
Qed.

Lemma parsed_ok h act e q v :
  server_ok h v -> entry_ok h e -> 0 <= sp_query_id e < 2 ^ 64 -> server_ok h (parsed act e q v).
Proof.
  intros (He & Hf & Hd) Ho Hid. split; [rewrite parsed_entries; by constructor|]. cbn [parsed pv_requests pv_freed_entry]. split; [|done].
  apply Forall_app. split; [done|]. constructor; [|done]. split_and!; [by left|by intros []|apply Hid..].
Qed.

Definition id_ok (e : PgServerPreparedStatement) : Prop := 0 <= sp_query_id e < 2 ^ 64.

Lemma find_statement_none id l : find_statement id l = None <-> id ∉ (sp_query_id <$> l).
Proof.
  induction l as [|e l IH]; simpl; [set_solver|]. rewrite not_elem_of_cons, <- IH.
  destruct (find_statement id l); [naive_solver|]. case_bool_decide; naive_solver.
Qed.

Lemma parsed_synced h act e q v :
  synced h v -> text h (sp_ps e) = Some (sp_query_id e, q) ->
  find_statement (sp_query_id e) (pv_statements v) = None ->
  id_ok e -> 0 < sp_query_id e -> Forall id_ok (pv_statements v) -> synced h (parsed act e q v).
Proof.
  intros ([Hnd Hst] & P & Hrun & HP) Ht Hnew%find_statement_none He Hpos Hids. split; cbn [parsed pv_statements pv_sent].
  { split; [|eapply (handled_snoc v); [done|done| |done]; by rewrite requested_parse].
    rewrite fmap_app. apply NoDup_app. split_and!; [done| |by apply NoDup_singleton].
    intros x Hx Hx'. simpl in Hx'. apply list_elem_of_singleton in Hx' as ->. done. }
  assert (Hno : P !! ps_stmt_name (sp_query_id e) = None).
  { apply eq_None_not_Some. intros [q' Hq']. apply HP in Hq' as (e' & Hin & En & _). apply Hnew.
    rewrite Forall_forall in Hids. apply ps_stmt_name_inj in En; [|done|by apply Hids].
    rewrite En. by apply list_elem_of_fmap_2. }
  exists (<[ps_stmt_name (sp_query_id e) := q]> P). rewrite run_all_snoc, Hrun. simpl. rewrite Hno.
  split; [done|]. intros n q'. rewrite lookup_insert_Some, HP. split.
  - intros [[<- <-]|[Hne (e' & Hin & En & Et)]]; [exists e|exists e']; rewrite elem_of_app, list_elem_of_singleton; auto.
  - intros (e' & Hin & En & Et). rewrite elem_of_app, list_elem_of_singleton in Hin. destruct Hin as [Hin| ->].
    + right. split; [|eauto]. intros E. apply Hnew. rewrite Forall_forall in Hids.
      rewrite En in E. apply ps_stmt_name_inj in E as ->; [by apply list_elem_of_fmap_2|done|by apply Hids].
    + left. split; [done|]. congruence.
Qed.

Lemma run_closes l ms P :
  run_all ms = Some P -> NoDup (ps_stmt_name ∘ sp_query_id <$> l) ->
  (forall e, e ∈ l -> is_Some (P !! ps_stmt_name (sp_query_id e))) ->
  exists P', run_all (ms ++ (close_packet <$> l)) = Some P' /\
    forall n q, P' !! n = Some q <-> P !! n = Some q /\ n ∉ (ps_stmt_name ∘ sp_query_id <$> l).
Proof.
  revert ms P. induction l as [|e l IH]; intros ms P E Hnd Hin.
  - exists P. rewrite app_nil_r. split; [done|]. set_solver.
  - apply NoDup_cons in Hnd as [Hne Hnd].
    destruct (IH (ms ++ [close_packet e]) (delete (ps_stmt_name (sp_query_id e)) P)) as (P' & E' & HP').
    { rewrite run_all_snoc, E. unfold close_packet, serve. cbn [mbind option_bind]. destruct (Hin e) as [q ->]; [by left|done]. }
    { done. }
    { intros e' He'. rewrite lookup_delete_ne; [apply Hin; by right|]. intros Ee. apply Hne.
      apply list_elem_of_fmap. exists e'. by split; [exact Ee|]. }
    exists P'. split; [by rewrite <- (assoc_L (++)) in E'|]. intros n q.
    rewrite HP', lookup_delete_Some. simpl. rewrite not_elem_of_cons. naive_solver.
Qed.

Lemma closes_requested l : omap packet_event (close_packet <$> l) = requested (close_request <$> l).
Proof. induction l as [|e l IH]; [done|]. cbn. by rewrite IH. Qed.

Lemma evicted_synced h k v :
  synced h v -> Forall id_ok (pv_statements v) -> Forall (entry_ok h) (pv_statements v) -> synced h (evicted k v).
Proof.
  intros ([Hnd Hst] & P & Hrun & HP) Hids Hok.
  assert (Hst' : exists ms0, handled_so_far (evicted k v) ms0)
    by (eapply (handled_snoc v); [done|done|apply closes_requested|done]).
  split; [split; [|done]; clear Hst'|clear Hst']; revert Hnd Hids Hok; unfold evicted; cbn [pv_statements pv_sent]; intros Hnd Hids Hok.
  { rewrite <- (take_drop k (pv_statements v)), fmap_app in Hnd. by apply NoDup_app in Hnd as (_ & _ & ?). }
  rewrite <- (take_drop k (pv_statements v)), fmap_app in Hnd. apply NoDup_app in Hnd as (Hndk & Hdis & Hnd).
  destruct (run_closes (take k (pv_statements v)) _ P Hrun) as (P' & E & HP').
  { rewrite list_fmap_compose. apply NoDup_fmap_2_strong; [|done]. rewrite Forall_forall in Hids.
    intros x y (ex & -> & Hx%subseteq_take)%list_elem_of_fmap (ey & -> & Hy%subseteq_take)%list_elem_of_fmap.
    apply ps_stmt_name_inj; by apply Hids. }
  { intros e He%subseteq_take. rewrite Forall_forall in Hok. destruct (Hok e He) as [q Hq]. exists q. apply HP. by exists e. }
  exists P'. split; [done|]. intros n q. rewrite HP', HP. split.
  - intros [(e & Hin & En & Et) Hn]. exists e. split_and!; [|done..].
    rewrite <- (take_drop k (pv_statements v)), elem_of_app in Hin. destruct Hin as [Hin|]; [|done].
    exfalso. apply Hn. rewrite En. by apply (list_elem_of_fmap_2 (ps_stmt_name ∘ sp_query_id)).
  - intros (e & Hin & En & Et).
    assert (Hin' : e ∈ pv_statements v) by (eapply subseteq_drop; eauto).
    split; [by exists e|]. intros (e' & En' & Hin2)%list_elem_of_fmap.
    rewrite Forall_forall in Hids. rewrite En in En'. apply ps_stmt_name_inj in En'; [|by apply Hids|].
    + apply (Hdis (sp_query_id e)); [rewrite En'|]; by apply list_elem_of_fmap_2.
    + apply Hids. by eapply subseteq_take.
Qed.

(** ** Preparing a statement *)
Section Prepared.
Context (mem : nat -> bool) (cf_max_prepared_statements : Z) (s : positive).
Context (N : Z) (held spare : list positive) (S : gset positive)
  (A : positive -> list Z -> option (list Z)).
Context (act : ResponseAction) (a : positive) (id : Z) (q : list Z) (v : PServer) (σ : PStore).

(** The Parse is on its way and [k] statements made room for the new one. *)
Definition prepared (σ' : PStore) : Prop :=
  Pinv (N + 1) held spare S A σ' /\
  (exists k, st_servers σ' !! s = Some (evicted k (parsed act (mkServerPs id a) q v)) /\
     evicts_to_max cf_max_prepared_statements (pv_statements v ++ [mkServerPs id a]) k) /\
  (forall b, text (st_heap σ') b = text (st_heap σ) b) /\
  st_clients σ' = st_clients σ.

Lemma statement_ids :
  Pinv N held spare S A σ -> st_servers σ !! s = Some v -> Forall id_ok (pv_statements v).
Proof.
  intros HI Es. destruct (pi_server _ _ _ _ _ _ HI s v Es) as [He _].
  unfold server_entries in He. apply Forall_app in He as [He _].
  eapply Forall_impl; [exact He|]. intros e [q' Ht]. apply (pi_ids _ _ _ _ _ _ HI) in Ht.
  pose proof (pi_next _ _ _ _ _ _ HI). unfold id_ok. lia.
Qed.

(** The server right after the Parse was queued. *)
Definition asked : PServer :=
  put_request (mkRequest PqMsg_Parse act None 0) (put_sent (TS_Parse (ps_stmt_name id) q) v).

Lemma asked_entries : server_entries asked = server_entries v.
Proof.
  unfold server_entries, asked. cbn [put_request put_sent set_requests pv_requests pv_statements].
  rewrite omap_app. cbn. by rewrite app_nil_r.
Qed.

Lemma pinv_asked σ1 :
  Pinv N held spare S A σ -> st_servers σ !! s = Some v -> at_server s asked σ σ1 ->
  Pinv N held spare (S ∖ {[s]}) A σ1.
Proof.
  intros HI Es Hat. destruct (pi_server _ _ _ _ _ _ HI s v Es) as (He & Hf & Hd).
  eapply pinv_at_server; [exact HI|exact Es|exact Hat| | |set_solver..].
  - unfold server_refs. by rewrite asked_entries.
  - split; [by rewrite asked_entries|]. cbn [asked put_request put_sent set_requests pv_requests pv_freed_entry]. split; [|done].
    apply Forall_app. split; [done|]. constructor; [|done]. split; [by left|]. by split; [intros []|].
Qed.

(** [σ2] differs from [σ1] in use counts and allocations only. *)
Definition recounted (σ1 σ2 : PStore) : Prop :=
  (forall b, text (st_heap σ2) b = text (st_heap σ1) b) /\
  st_servers σ2 = st_servers σ1 /\ st_clients σ2 = st_clients σ1.

Lemma create_server_good σ1 S' :
  Pinv N held spare S' A σ1 -> text (st_heap σ1) a = Some (id, q) ->
  good (create_server_prepared_statement mem a) (fun r σ2 => r = None \/
    (r = Some (mkServerPs id a) /\ Pinv (N + 1) (a :: held) spare S' A σ2 /\ recounted σ1 σ2)) σ1.
Proof.
  intros HI Ht. apply text_inv in Ht as (ps & Hps & Hid & _). unfold create_server_prepared_statement.
  eapply good_bind with (R := fun b σ2 => exists n, σ2 = mkPStore (st_heap σ1) (st_prepared_statements σ1)
    (st_next_unique_query_id σ1) (st_clients σ1) (st_servers σ1) n); [apply allocate_good; eauto|].
  intros [] σ2 [n ->]; cbn [negb]; [|apply good_ret; by left].
  eapply bind_statement; [cbn [st_heap]; exact Hps|].
  eapply good_bind; [apply (add_use_good N held spare S' A); [by apply pinv_allocs | cbn; eauto]|].
  cbv beta. intros _ σ3 (HI3 & h' & -> & Ht3). apply good_ret. right. by rewrite Hid.
Qed.

Lemma pinv_registered σ2 σ3 k :
  Pinv N held spare S A σ -> st_servers σ !! s = Some v ->
  text (st_heap σ) a = Some (id, q) -> find_statement id (pv_statements v) = None ->
  Pinv (N + 1) (a :: held) spare (S ∖ {[s]}) A σ2 -> st_servers σ2 !! s = Some asked ->
  (forall b, text (st_heap σ2) b = text (st_heap σ) b) ->
  at_server s (evicted k (parsed act (mkServerPs id a) q v)) σ2 σ3 ->
  Pinv (N + 1) held spare S A σ3.
Proof.
  intros HI Es Ht Hnew HI2 Es2 Htx Hat. pose proof (pi_server _ _ _ _ _ _ HI s v Es) as Hok.
  assert (Hfr : forall b, b ∈ server_refs v -> text (st_heap σ2) b = text (st_heap σ) b) by auto.
  assert (Hin : forall e, e ∈ server_entries v -> sp_ps e ∈ server_refs v)
    by (intros; by apply list_elem_of_fmap_2).
  eapply pinv_at_server; [exact HI2|exact Es2|exact Hat| | | |].
  3: { intros s' Hs' Hne. apply elem_of_difference. by rewrite elem_of_singleton. }
  - unfold server_refs. rewrite evicted_entries, parsed_entries, asked_entries. cbn.
    by rewrite <- Permutation_middle.
  - apply evicted_ok, parsed_ok; [by apply (server_ok_frame _ _ _ Hfr)|exists q; cbn; by rewrite Htx|].
    cbn. apply (pi_ids _ _ _ _ _ _ HI) in Ht. pose proof (pi_next _ _ _ _ _ _ HI). lia.
  - intros Hs. assert (Hids := statement_ids HI Es).
    assert (Hide : id_ok (mkServerPs id a)).
    { apply (pi_ids _ _ _ _ _ _ HI) in Ht. pose proof (pi_next _ _ _ _ _ _ HI). unfold id_ok. cbn. lia. }
    apply evicted_synced.
    + apply parsed_synced; try done; [|cbn; by rewrite Htx|].
      * apply (synced_frame _ _ _ Hfr); [done|]. by apply (pi_synced _ _ _ _ _ _ HI s v Es).
      * cbn. apply (pi_ids _ _ _ _ _ _ HI) in Ht. lia.
    + cbn [parsed pv_statements]. apply Forall_app. auto.
    + cbn [parsed pv_statements]. apply Forall_app. split; [|constructor; [|done]; exists q; cbn; by rewrite Htx].
      pose proof (server_ok_frame _ _ _ Hfr v Hin Hok) as [[He _]%Forall_app _]. exact He.
Qed.

Lemma create_register_good σ1 B (k : PgServerPreparedStatement -> bool -> SM PStore B) (Q : B -> PStore -> Prop) (oom : SM PStore B) :
  Pinv N held spare S A σ -> st_servers σ !! s = Some v -> at_server s asked σ σ1 ->
  text (st_heap σ) a = Some (id, q) -> find_statement id (pv_statements v) = None ->
  (forall σ', good oom Q σ') ->
  (forall σ', prepared σ' -> good (k (mkServerPs id a) true) Q σ') ->
  (forall σ', is_Some (st_heap σ' !! a) -> is_Some (st_servers σ' !! s) -> good (k (mkServerPs id a) false) Q σ') ->
  good (server_ps ← create_server_prepared_statement mem a;
        match server_ps with
        | None => oom
        | Some server_ps =>
            registered ← register_prepared_statement mem cf_max_prepared_statements s server_ps; k server_ps registered
        end) Q σ1.
Proof.
  intros HI Es Hat Ht Hnew Hoom Htrue Hfalse.
  pose proof (pinv_asked σ1 HI Es Hat) as HI1. assert (Eh1 : st_heap σ1 = st_heap σ) by apply Hat.
  eapply good_bind; [apply (create_server_good σ1 _ HI1); by rewrite Eh1|].
  cbv beta. intros r σ2 [-> |(-> & HI2 & Htx & Esv & Ecl)]; [apply Hoom|]. rewrite Eh1 in Htx.
  assert (Es2 : st_servers σ2 !! s = Some asked) by (rewrite Esv; apply (at_server_lookup _ _ _ _ Hat)).
  destruct (text_inv (st_heap σ2) a id q) as (ps2 & Hps2 & Hid2 & _); [by rewrite Htx|].
  destruct (pi_server _ _ _ _ _ _ HI2 s _ Es2) as ([Hent2 _]%Forall_app & _ & Hfr2).
  eapply good_bind; [by eapply register_good; [exact Es2|reflexivity|exact Hps2|..]|].
  cbv beta. intros b σ3 [[Eh3 Hs3] Hb]. destruct b; [|apply Hfalse; [rewrite Eh3; eauto|done]].
  destruct (Hb eq_refl) as (j & Hj & Hjmax). apply Htrue.
  change (set_statements _ (set_requests _ _)) with (parsed act (mkServerPs id a) q v) in Hj.
  split_and!.
  - by apply (pinv_registered σ2 σ3 j).
  - exists j. split; [by apply (at_server_lookup _ _ _ _ Hj)|done].
  - intros b. by rewrite Eh3.
  - destruct Hj as (_ & _ & _ & -> & _). rewrite Ecl. apply Hat.
Qed.
End Prepared.

(** ** The handlers keep the invariant *)

Definition bind_name (A : positive -> list Z -> option (list Z)) (c : positive) (name : list Z)
    (q : option (list Z)) : positive -> list Z -> option (list Z) :=
  fun c' n => if decide (c' = c) then (if decide (n = name) then q else A c' n) else A c' n.

(** The answers the client waits for, by the requests in the queue. *)
Definition expected (q : list OutstandingRequest) : list Z :=
  or_type <$> filter (fun r => or_action r <> RA_SKIP) q.

Definition no_fake_head (q : list OutstandingRequest) : Prop :=
  match q with [] => True | r :: _ => or_action r <> RA_FAKE end.

Definition fake_answer (type : Z) : Z :=
  if bool_decide (type = PqMsg_Parse) then PqMsg_ParseComplete else PqMsg_CloseComplete.

(** The client asked for one thing: one request of its own is added to the
    queue, with requests of the pooler's own beside it that the client does
    not see answered; or, for a Parse or Close when nothing was in the queue,
    the answer is made up at once. *)
Definition asks (type : Z) (v v' : PServer) : Prop :=
  (exists L, pv_requests v' = pv_requests v ++ L /\ expected L = [type] /\
     pv_extra_packets v' = pv_extra_packets v /\ (pv_requests v = [] -> no_fake_head L)) \/
  ((type = PqMsg_Parse \/ type = PqMsg_Close) /\ pv_requests v = [] /\ pv_requests v' = [] /\
     pv_extra_packets v' = pv_extra_packets v ++ [fake_answer type]).

(** An update of one server that leaves its statements and packets alone. *)
Lemma pinv_quiet N held spare S A σ σ' s v v' :
  Pinv N held spare S A σ -> st_servers σ !! s = Some v -> at_server s v' σ σ' ->
  pv_statements v' = pv_statements v -> pv_sent v' = pv_sent v ->
  omap or_server_ps (pv_requests v') = omap or_server_ps (pv_requests v) ->
  Forall request_ok (pv_requests v') -> requested (pv_requests v') = requested (pv_requests v) ->
  pv_freed_entry v' = pv_freed_entry v ->
  Pinv N held spare S A σ'.
Proof.
  intros HI Es Hat E1 E2 E3 Hf E5 E4. pose proof (pi_server _ _ _ _ _ _ HI s v Es) as (He & _ & Hd).
  assert (E : server_entries v' = server_entries v) by (unfold server_entries; congruence).
  eapply pinv_at_server; [exact HI|exact Es|exact Hat| | |done|].
  - unfold server_refs. by rewrite E.
  - split_and!; [by rewrite E|done|congruence].
  - intros Hs. destruct (pi_synced _ _ _ _ _ _ HI s v Es Hs) as ([Hnd [ms0 Hst]] & P & Hrun & HP).
    unfold synced. rewrite E1, E2. split; [|eauto]. split; [done|]. eapply handled_suffix; [done..|]. by rewrite E5.
Qed.

(** A packet on a statement the server has. *)
Lemma pinv_packet N held spare S A σ σ' s v m :
  Pinv N held spare S A σ -> st_servers σ !! s = Some v -> at_server s (put_sent m v) σ σ' ->
  packet_event m = None -> (forall P, run_all (pv_sent v) = Some P -> s ∈ S -> serve P m = Some P) ->
  Pinv N held spare S A σ'.
Proof.
  intros HI Es Hat Hn Hm. pose proof (pi_server _ _ _ _ _ _ HI s v Es) as Hok.
  eapply pinv_at_server; [exact HI|exact Es|exact Hat|done|done|done|].
  intros Hs. destruct (pi_synced _ _ _ _ _ _ HI s v Es Hs) as ([Hnd Hst] & P & Hrun & HP).
  split; [split; [done|]; eapply (handled_snoc v _ [m] []); [done|by rewrite app_nil_r|cbn; by rewrite Hn|done]|].
  exists P. split; [|done]. cbn [put_sent pv_sent]. rewrite run_all_snoc, Hrun. by apply Hm.
Qed.

Lemma pinv_spare N held spare S A σ :
  Pinv N held spare S A σ -> (forall a, a ∈ spare -> a ∈ held) -> Pinv N held [] S A σ.
Proof.
  intros [] Hs. split; auto. intros a Ha. destruct (pi_used0 a Ha) as [|H%Hs]; left; set_solver.
Qed.

Lemma pinv_more_spare N held S A σ a : Pinv N held [] S A σ -> Pinv N held [a] S A σ.
Proof. intros []. split; auto. intros b Hb. destruct (pi_used0 b Hb); set_solver. Qed.

Lemma put_request_ok type act v :
  Forall request_ok (pv_requests v) ->
  (act = RA_FAKE -> type = PqMsg_Parse \/ type = PqMsg_Close) ->
  Forall request_ok (pv_requests (put_request (mkRequest type act None 0) v)) /\
  omap or_server_ps (pv_requests (put_request (mkRequest type act None 0) v)) =
    omap or_server_ps (pv_requests v) /\
  requested (pv_requests (put_request (mkRequest type act None 0) v)) = requested (pv_requests v).
Proof.
  intros Hf Ht. cbn [put_request set_requests pv_requests]. rewrite omap_app, requested_app. unfold requested at 2, request_event.
  cbn. rewrite andb_false_r, !app_nil_r. split_and!; [|done..]. apply Forall_app. split; [done|]. constructor; [|done]. split; [done|]. by split; [intros []|].
Qed.

Section Handlers.
Context (mem : nat -> bool) (cf_max_prepared_statements : Z).
Context (N : Z) (S : gset positive) (A : positive -> list Z -> option (list Z)).

Lemma get_good q σ :
  Pinv N [] [] S A σ -> st_next_unique_query_id σ + 1 < 2 ^ 64 ->
  good (get_prepared_statement mem q) (fun r σ' =>
    match r with
    | None => Pinv N [] [] S A σ'
    | Some (a, found) => Pinv N [] [a] S A σ' /\
        st_clients σ' = st_clients σ /\ st_servers σ' = st_servers σ /\
        exists id, text (st_heap σ') a = Some (id, q) /\
          (found = false -> forall s v, st_servers σ !! s = Some v -> find_statement id (pv_statements v) = None)
    end) σ.
Proof.
  intros HI Hn. unfold get_prepared_statement.
  destruct (st_prepared_statements σ !! q) as [a|] eqn:Eq.
  { exists (Some (a, true)), σ. split; [by rewrite Eq|]. split_and!; try done; [by apply pinv_more_spare|].
    apply (pi_hash _ _ _ _ _ _ HI) in Eq as [id E]. by exists id. }
  assert (E64 : u64 (st_next_unique_query_id σ + 1) = st_next_unique_query_id σ + 1).
  { unfold u64. apply Z.mod_small. pose proof (pi_next _ _ _ _ _ _ HI). lia. }
  unfold good. rewrite Eq. unfold new_prepared_statement, create_prepared_statement, allocate, mbind, SM_bind.
  cbn [st_heap st_allocs st_next_unique_query_id st_prepared_statements st_clients st_servers].
  destruct (mem (st_allocs σ)); cbn -[fresh]; [|eexists _, _; split; [done|]; by apply pinv_allocs].
  rewrite E64. set (a := fresh _). assert (Ha : st_heap σ !! a = None) by (apply not_elem_of_dom, is_fresh).
  destruct (mem (Datatypes.S (st_allocs σ))); cbn -[fresh]; eexists _, _; (split; [done|]); cbv beta iota.
  - split_and!; [exact (pinv_create N [] [] S A σ a q _ HI Eq Ha Hn)|done..|]. exists (st_next_unique_query_id σ + 1). split.
    { cbn. by rewrite text_insert, decide_True. }
    intros _ s v Es. apply find_statement_none. intros (e & Eid & He)%list_elem_of_fmap.
    destruct (pi_server _ _ _ _ _ _ HI s v Es) as [Hent _]. rewrite Forall_forall in Hent.
    destruct (Hent e) as [q' Ht]; [unfold server_entries; rewrite elem_of_app; auto|].
    apply (pi_ids _ _ _ _ _ _ HI) in Ht. lia.
  - unfold set_heap. cbn. rewrite delete_insert_id by done. by apply pinv_skip_id.
Qed.

Lemma create_client_good name a σ :
  Pinv N [] [a] S A σ -> is_Some (st_heap σ !! a) ->
  good (create_client_prepared_statement mem name a) (fun r σ' => r = None \/
    (r = Some (mkClientPs name a) /\ Pinv (N + 1) [a] [] S A σ' /\ recounted σ σ')) σ.
Proof.
  intros HI Ha. unfold create_client_prepared_statement.
  eapply good_bind with (R := fun b σ2 => exists n, σ2 = mkPStore (st_heap σ) (st_prepared_statements σ)
    (st_next_unique_query_id σ) (st_clients σ) (st_servers σ) n); [apply allocate_good; eauto|].
  intros [] σ2 [n ->]; cbn [negb]; [|apply good_ret; by left].
  eapply good_bind; [apply (add_use_good N [] [a] S A); [by apply pinv_allocs | done]|].
  cbv beta. intros _ σ3 (HI3 & h' & -> & Ht3). apply good_ret. right. split_and!; [done| |done].
  eapply pinv_spare; [exact HI3|done].
Qed.

(** A request that is answered without the server. *)
Lemma add_fake_good type s v σ :
  type = PqMsg_Parse \/ type = PqMsg_Close -> Pinv N [] [] S A σ -> st_servers σ !! s = Some v ->
  good (add_outstanding_request mem s type RA_FAKE) (fun b σ' => if b : bool then Pinv N [] [] S A σ' /\
    exists v', at_server s v' σ σ' /\ pv_statements v' = pv_statements v /\ pv_sent v' = pv_sent v /\
      asks type v v' else st_heap σ' = st_heap σ /\ is_Some (st_servers σ' !! s)) σ.
Proof.
  intros Ht HI Es. destruct (pi_server _ _ _ _ _ _ HI s v Es) as (_ & Hf & _).
  unfold add_outstanding_request. eapply bind_server; [done|].
  rewrite (bool_decide_eq_true_2 (RA_FAKE = RA_FAKE)) by done. cbn [andb]. case_bool_decide as Eq.
  - eapply bind_mod_server; [done|]. intros σ1 H1.
    unfold queue_fake_response.
    assert (Hx : forall t, t = fake_answer type -> good (queue_extra mem s t) (fun b σ' => if b : bool then
      Pinv N [] [] S A σ' /\ exists v', at_server s v' σ σ' /\ pv_statements v' = pv_statements v /\
        pv_sent v' = pv_sent v /\ asks type v v' else st_heap σ' = st_heap σ /\ is_Some (st_servers σ' !! s)) σ1).
    { intros t ->. eapply good_conseq; [apply allocate_mod_good, (at_server_lookup _ _ _ _ H1)|].
      intros [] σ2 H2; cbn [moves] in H2; [|destruct H1 as [<- _]; done]. pose proof (at_server_trans _ _ _ _ _ _ H1 H2) as H12.
      split; [by eapply pinv_quiet|]. eexists. split_and!; [exact H12|done..|]. by right. }
    destruct Ht as [-> | ->]; by apply Hx.
  - eapply good_conseq; [apply (allocate_mod_good mem s
      (fun v => put_request (mkRequest type RA_FAKE None 0) v) v σ Es)|].
    intros [] σ' H; cbn [moves] in H; [|done].
    destruct (put_request_ok type RA_FAKE v Hf) as (H1 & H2 & H3); [done|].
    split; [by eapply pinv_quiet|]. eexists. split_and!; [exact H|done..|]. left. by eexists.
Qed.
End Handlers.
