(* ===== verification/Transparent.v ===== *)
(** * The handlers keep the contract

    Every handler of Prepare.v keeps the invariant of Statements.v and acts on
    the clients' names as the contract says: [handle_parse_command] binds,
    [handle_close_statement_command] unbinds, the others change no name.  The
    theorems at the end are about runs of any number of clients and servers. *)

From S2P Require Import Prelude Refs Protocol PktBuf PoolSpec World Prepare Statements.
From stdpp Require Import base option countable gmap list strings.
#[local] Open Scope Z_scope.

(** ** Client tables *)

Lemma bind_client {B} c (k : list PgClientPreparedStatement -> SM PStore B) (Q : B -> PStore -> Prop) t σ :
  st_clients σ !! c = Some t -> good (k t) Q σ -> good (client_table c ≫= k) Q σ.
Proof. intros E H. unfold good, mbind, SM_bind, client_table. by rewrite E. Qed.

Lemma bind_put_client {B} c t (k : unit -> SM PStore B) (Q : B -> PStore -> Prop) σ :
  good (k tt) Q (set_client c t σ) -> good (put_client c t ≫= k) Q σ.
Proof. done. Qed.

Lemma find_name_none n t : find_name n t = None <-> n ∉ (cp_stmt_name <$> t).
Proof.
  induction t as [|e t IH]; simpl; [set_solver|]. rewrite not_elem_of_cons, <- IH.
  case_bool_decide; naive_solver.
Qed.

Lemma find_name_snoc n t e :
  find_name (cp_stmt_name e) t = None ->
  find_name n (t ++ [e]) = if decide (n = cp_stmt_name e) then Some e else find_name n t.
Proof.
  induction t as [|x t IH]; simpl.
  - intros _. case_bool_decide; case_decide; congruence || done.
  - case_bool_decide as Hx; [done|]. intros Hn. rewrite IH by done. case_bool_decide as Hy; [|done].
    case_decide; congruence || done.
Qed.

Lemma find_del_name n m t :
  NoDup (cp_stmt_name <$> t) -> find_name n (del_name m t) = if decide (n = m) then None else find_name n t.
Proof.
  induction t as [|x t IH]; simpl; [by case_decide|]. rewrite NoDup_cons. intros [Hx Hnd].
  case_bool_decide as Hm; simpl.
  - case_decide as Hn; [subst; by apply find_name_none|]. by rewrite bool_decide_eq_false_2 by congruence.
  - case_bool_decide as Hxn; [by rewrite decide_False by congruence|]. by apply IH.
Qed.

Lemma del_name_perm n t e : find_name n t = Some e -> t ≡ₚ e :: del_name n t.
Proof.
  induction t as [|x t IH]; simpl; [done|]. case_bool_decide; [by intros [= ->]|].
  intros E. rewrite (IH E) at 1. apply Permutation_swap.
Qed.

Section Handlers.
Context (mem : nat -> bool) (cf_max_prepared_statements : Z).
Context (N : Z) (S : gset positive) (A : positive -> list Z -> option (list Z)).

Lemma client_bound σ c t name :
  Pinv N [] [] S A σ -> st_clients σ !! c = Some t ->
  A c name = client_view (st_heap σ) t name.
Proof. intros HI Ec. rewrite <- (pi_abs _ _ _ _ _ _ HI). unfold bindings. by rewrite Ec. Qed.

Lemma pinv_new_name σ c t name a id q :
  Pinv (N + 1) [a] [] S A σ -> st_clients σ !! c = Some t -> find_name name t = None ->
  text (st_heap σ) a = Some (id, q) ->
  Pinv (N + 1) [] [] S (bind_name A c name (Some q)) (set_client c (t ++ [mkClientPs name a]) σ).
Proof.
  intros HI Ec Hn Ht. pose proof (pi_names _ _ _ _ _ _ HI c t Ec) as Hnd.
  eapply pinv_client; [exact HI|exact Ec|..].
  - unfold client_refs. rewrite fmap_app. cbn. by rewrite app_nil_r.
  - rewrite fmap_app. apply NoDup_app. split_and!; [done| |by apply NoDup_singleton].
    intros x Hx Hx'%list_elem_of_singleton. subst. by apply find_name_none in Hn.
  - intros c' n. unfold bind_name. case_decide as Hc; [subst c'|done].
    unfold client_view. rewrite find_name_snoc by done. cbn [cp_stmt_name].
    rewrite <- (pi_abs _ _ _ _ _ _ HI). unfold bindings. rewrite Ec. cbn [mbind option_bind].
    case_decide; cbn; [by rewrite Ht|done].
Qed.

(** The client asked server [s], [v] before, for one thing; the server's table
    is within the limit if it was. *)
Definition served (s : positive) (type : Z) (v : PServer) (σ' : PStore) : Prop :=
  exists v', st_servers σ' !! s = Some v' /\ asks type v v' /\
    (zlen (pv_statements v) <= u32 cf_max_prepared_statements ->
     zlen (pv_statements v') <= u32 cf_max_prepared_statements).

(** What [handle_parse_command] makes of the store. *)
Definition parse_result (c s : positive) (v : PServer) (name q : list Z) (σ : PStore) (r : handled)
    (σ' : PStore) : Prop :=
  match r with
  | H_true => Pinv (N + 2) [] [] S (bind_name A c name (Some q)) σ' /\ A c name = None /\
      served s PqMsg_Parse v σ'
  | H_disconnect_client _ => σ' = σ /\ is_Some (A c name)
  | H_false => False
  | H_oom => A c name = None
  end.

Lemma pinv_le M held spare S' A' σ : Pinv N held spare S' A' σ -> N <= M -> Pinv M held spare S' A' σ.
Proof. intros [] HM. split; auto. lia. Qed.
End Handlers.

Lemma expected_skipped L r :
  Forall (fun r => or_action r = RA_SKIP) L -> or_action r = RA_FORWARD -> expected (L ++ [r]) = [or_type r].
Proof.
  intros HL Hr. unfold expected. induction HL as [|x L Hx HL IH]; cbn [app].
  - rewrite filter_cons, decide_True by congruence. done.
  - by rewrite filter_cons, decide_False by (intros Hn; apply Hn, Hx).
Qed.

Lemma expected_closes l : filter (fun r => or_action r <> RA_SKIP) (close_request <$> l) = [].
Proof. induction l as [|e l IH]; [done|]. rewrite fmap_cons, filter_cons, decide_False by (intros Hn; by apply Hn). done. Qed.

Lemma find_statement_in id l e : find_statement id l = Some e -> e ∈ l /\ sp_query_id e = id.
Proof.
  induction l as [|x l IH]; simpl; [done|]. destruct (find_statement id l) as [e'|].
  - intros [= ->]. destruct (IH eq_refl). split; [by right|done].
  - case_bool_decide; [|done]. intros [= ->]. split; [by left|done].
Qed.

Section Parse.
Context (mem : nat -> bool) (cf_max_prepared_statements : Z).
Context (N : Z) (S : gset positive) (A : positive -> list Z -> option (list Z)).

(** The label oom comes back. *)
Lemma parse_oom_good c s o (Q : handled -> PStore -> Prop) σ :
  (forall σ', Q H_oom σ') ->
  (forall e, o = Some e -> is_Some (st_heap σ !! sp_ps e) /\ is_Some (st_servers σ !! s)) ->
  good (parse_oom c s o) Q σ.
Proof.
  intros HQ Ho. unfold parse_oom.
  eapply good_bind with (R := fun _ σ' => st_heap σ' = st_heap σ /\ st_servers σ' = st_servers σ);
    [eexists _, _; by split; [reflexivity|]|].
  intros _ σ1 [Eh Es]. rewrite <- Eh, <- Es in Ho.
  eapply good_bind with (R := fun _ _ => True); [|intros; by apply good_ret].
  destruct o as [e|]; [|by apply good_ret]. destruct (Ho e eq_refl) as [[ps Hps] Hs]. by eapply free_listed_server_good.
Qed.

(** The second half: the client has its name, the server may need a Parse. *)
Lemma parse_known_good A' c s v a id q found σ :
  Pinv (N + 1) [] [] S A' σ -> st_servers σ !! s = Some v -> text (st_heap σ) a = Some (id, q) ->
  (found = false -> find_statement id (pv_statements v) = None) ->
  good (parse_known mem cf_max_prepared_statements c s a found)
    (fun r σ' => (r = H_true /\ Pinv (N + 2) [] [] S A' σ' /\
       served cf_max_prepared_statements s PqMsg_Parse v σ') \/ r = H_oom) σ.
Proof.
  intros HI Es Ht Hfound. pose proof Ht as Hps. apply text_inv in Hps as (ps & Hps & Hid & Hq).
  destruct (pi_server _ _ _ _ _ _ HI s v Es) as (Hent & _ & Hfr). unfold parse_known.
  eapply bind_statement; [done|]. rewrite Hid.
  eapply good_bind with (R := fun r σ' => σ' = σ /\ r = if found then find_statement id (pv_statements v) else None).
  { destruct found; [eapply bind_table; [done..|]|]; by apply good_ret. }
  intros server_ps ? [-> ->]. destruct (if found then _ else _) as [e|] eqn:Ef.
  - assert (He : is_Some (st_heap σ !! sp_ps e)).
    { destruct found; [|done]. destruct (find_statement_in _ _ _ Ef) as [Hin _]. rewrite Forall_forall in Hent.
      destruct (Hent e) as [q' Hq']; [unfold server_entries; rewrite elem_of_app; auto|]. apply text_inv in Hq' as (ps' & ? & _). by exists ps'. }
    eapply good_bind; [apply (add_fake_good mem (N + 1) S A'); [by left|done|done]|].
    intros [] σ1 H1; [apply good_ret; left|].
    + split; [done|]. destruct H1 as (HI1 & v' & Hat & Ev & _ & Hask). split; [apply (pinv_le (N + 1)); [done|lia]|].
      exists v'. split_and!; [by apply (at_server_lookup _ _ _ _ Hat)|done|]. by rewrite Ev.
    + destruct H1 as [Eh1 Hs1]. apply parse_oom_good; [by right|]. intros e' [= <-]. by rewrite Eh1.
  - assert (Hnew : find_statement id (pv_statements v) = None) by (destruct found; [done|by apply Hfound]).
    unfold parse_on_server. rewrite Hid, Hq.
    assert (Hoom : forall σ', good (parse_oom c s None) (fun r σ' => (r = H_true /\ Pinv (N + 2) [] [] S A' σ' /\
       served cf_max_prepared_statements s PqMsg_Parse v σ') \/ r = H_oom) σ') by (intros; apply parse_oom_good; [by right|done]).
    eapply good_bind; [by apply queue_packet_good|]. intros [] σ1 H1; cbn [negb moves] in *; [|apply Hoom].
    eapply good_bind; [apply add_request_good; [by apply (at_server_lookup _ _ _ _ H1)|done]|].
    intros [] σ2 H2; cbn [negb moves] in *; [|apply Hoom].
    pose proof (at_server_trans _ _ _ _ _ _ H1 H2) as H12.
    eapply (create_register_good _ _ _ _ _ _ _ _ _ _ _ _ _ _ _ _
      (fun e registered => if registered : bool then mret H_true else parse_oom c s (Some e))); [exact HI|exact Es|exact H12|done|done|done| |].
    + intros σ3 (HI3 & (k & Es3 & Hk & _) & _). apply good_ret. left. split; [done|].
      replace (N + 2) with (N + 1 + 1) by lia. split; [done|]. eexists. split_and!; [exact Es3| |done].
      left. eexists. split_and!; [by cbn; rewrite <- (assoc_L (++))| |done|done]. unfold expected.
      cbn. by rewrite expected_closes.
    + intros σ3 Ha Hs3. apply parse_oom_good; [by right|]. by intros e [= <-].
Qed.

Lemma parse_good c s t v name q σ :
  Pinv N [] [] S A σ -> st_next_unique_query_id σ + 1 < 2 ^ 64 ->
  st_clients σ !! c = Some t -> st_servers σ !! s = Some v ->
  good (handle_parse_command mem cf_max_prepared_statements c s (Some (name, q)))
    (parse_result cf_max_prepared_statements N S A c s v name q σ) σ.
Proof.
  intros HI Hnx Ec Es. cbn [handle_parse_command]. eapply bind_client; [done|].
  pose proof (client_bound N S A σ c t name HI Ec) as EA.
  destruct (find_name name t) as [e|] eqn:En.
  { apply good_ret. split; [done|]. rewrite EA. unfold client_view. rewrite En. cbn.
    destruct (find_name_in _ _ _ En) as [He _]. pose proof (client_ref_in _ _ _ _ Ec He) as Hin.
    destruct (pi_live _ _ _ _ _ _ HI (cp_ps e)) as [ps Hps]; [by rewrite app_nil_r|].
    rewrite (text_some _ _ _ Hps). by eexists. }
  assert (HA : A c name = None) by (rewrite EA; unfold client_view; by rewrite En).
  eapply good_bind; [by apply (get_good mem N S A)|].
  cbv beta. intros [[a found]|] σ1 H1; [|by apply good_ret].
  destruct H1 as (HI1 & Ec1 & Es1 & id & Ht & Hfound).
  destruct (text_inv _ _ _ _ Ht) as (ps & Hps & _).
  eapply good_bind; [apply (create_client_good mem N S A name a); [done|eauto]|].
  cbv beta. intros r σ2 [-> |(-> & HI2 & Htx2 & Es2 & Ec2)]; [by apply good_ret|].
  eapply good_bind with (R := fun b σ3 => exists n, σ3 = mkPStore (st_heap σ2) (st_prepared_statements σ2)
    (st_next_unique_query_id σ2) (st_clients σ2) (st_servers σ2) n); [apply allocate_good; eauto|].
  intros [] σ3 [n ->]; cbn [negb]; [|by apply good_ret].
  eapply bind_client; [cbn; by rewrite Ec2, Ec1|]. apply bind_put_client.
  eapply good_conseq; [eapply (parse_known_good _ c s v a id q found)|].
  - apply (pinv_new_name N S A _ c t name a id q); [by apply pinv_allocs|cbn; by rewrite Ec2, Ec1|done|].
    cbn. by rewrite Htx2.
  - cbn. by rewrite Es2, Es1.
  - cbn. by rewrite Htx2.
  - intros Hf. by apply (Hfound Hf s).
  - intros r σ4 [(-> & HI4 & Hw)| ->]; [|done]. by split_and!.
Qed.
End Parse.

(** ** Bind and Describe *)

Lemma del_statement_perm id l e : find_statement id l = Some e -> l ≡ₚ e :: del_statement id l.
Proof.
  induction l as [|x l IH]; simpl; [done|]. destruct (find_statement id l) as [e'|].
  - intros [= ->]. rewrite (IH eq_refl) at 1. apply Permutation_swap.
  - case_bool_decide; [|done]. by intros [= ->].
Qed.

Lemma touch_perm l e : find_statement (sp_query_id e) l = Some e -> touch_statement e l ≡ₚ l.
Proof.
  intros E. unfold touch_statement. case_bool_decide; [done|].
  rewrite <- Permutation_cons_append. symmetry. by apply del_statement_perm.
Qed.

Lemma synced_perm h v l :
  l ≡ₚ pv_statements v -> synced h v -> synced h (set_statements l v).
Proof.
  intros Hp ([Hnd Hst] & P & Hrun & HP). split; cbn [set_statements pv_statements pv_sent].
  - split; [by rewrite Hp|done].
  - exists P. split; [done|]. intros n q. rewrite HP. by setoid_rewrite Hp.
Qed.

Section Use.
Context (mem : nat -> bool) (cf_max_prepared_statements : Z).
Context (N : Z) (S : gset positive) (A : positive -> list Z -> option (list Z)).
Context (Hmax : 1 <= u32 cf_max_prepared_statements).

(** The server of [σ'] has statement [a]; what was added to its queue is not
    answered to the client. *)
Definition ready_for (s a : positive) (id : Z) (v : PServer) (σ σ' : PStore) (v' : PServer) : Prop :=
  Pinv (N + 1) [] [] S A σ' /\ st_servers σ' !! s = Some v' /\
  mkServerPs id a ∈ pv_statements v' /\
  (forall b, text (st_heap σ') b = text (st_heap σ) b) /\
  (exists L, pv_requests v' = pv_requests v ++ L /\ Forall (fun r => or_action r = RA_SKIP) L) /\
  pv_extra_packets v' = pv_extra_packets v /\
  (zlen (pv_statements v) <= u32 cf_max_prepared_statements ->
   zlen (pv_statements v') <= u32 cf_max_prepared_statements).

Lemma evicts_keep_last l e k :
  evicts_to_max cf_max_prepared_statements (l ++ [e]) k -> e ∈ drop k (l ++ [e]).
Proof using Hmax.
  intros [_ Hk]. assert (k <= length l)%nat as Hle.
  { destruct Hk as [->|Hk]; [lia|]. unfold zlen in Hk. rewrite length_drop, length_app in Hk. simpl in Hk. lia. }
  rewrite drop_app_le by done. apply elem_of_app. right. by left.
Qed.

Lemma ensure_found_good s a id q v e σ :
  Pinv N [] [] S A σ -> st_servers σ !! s = Some v -> text (st_heap σ) a = Some (id, q) ->
  find_statement id (pv_statements v) = Some e ->
  good (mod_server s (fun v => set_statements (touch_statement e (pv_statements v)) v) ≫= fun _ => mret true)
    (fun b σ' => b = true -> exists v', ready_for s a id v σ σ' v') σ.
Proof using.
  intros HI Es Ht Hf. destruct (find_statement_in _ _ _ Hf) as [Hin Hid].
  destruct (pi_server _ _ _ _ _ _ HI s v Es) as (He & Hfk & Hfr).
  assert (Ha : sp_ps e = a).
  { rewrite Forall_forall in He. destruct (He e) as [q' Hq']; [unfold server_entries; rewrite elem_of_app; auto|].
    rewrite Hid in Hq'. by apply (pi_inj _ _ _ _ _ _ HI _ _ id q' q). }
  assert (Ee : e = mkServerPs id a) by (destruct e; cbn in *; congruence). clear Ha.
  assert (Hp : touch_statement e (pv_statements v) ≡ₚ pv_statements v) by (apply touch_perm; by rewrite Hid).
  assert (Hpe : server_entries (set_statements (touch_statement e (pv_statements v)) v) ≡ₚ server_entries v)
    by (unfold server_entries; cbn [set_statements pv_statements pv_requests]; by rewrite Hp).
  eapply bind_mod_server; [done|]. intros σ1 H1. apply good_ret. intros _. eexists.
  split; [|split; [by apply (at_server_lookup _ _ _ _ H1)|split_and!]].
  - apply (pinv_le N); [|lia]. eapply pinv_at_server; [exact HI|exact Es|exact H1| | |done|].
    + unfold server_refs. by rewrite Hpe.
    + split_and!; [by rewrite Hpe|done|done].
    + intros Hs. apply synced_perm; [done|]. by apply (pi_synced _ _ _ _ _ _ HI s).
  - cbn [set_statements pv_statements]. rewrite Hp. by rewrite <- Ee.
  - intros b. by destruct H1 as [-> _].
  - exists []. by rewrite app_nil_r.
  - done.
  - cbn [set_statements pv_statements]. by rewrite Hp.
Qed.

Lemma prepared_ready s a id q v σ σ' :
  prepared cf_max_prepared_statements s N [] [] S A RA_SKIP a id q v σ σ' ->
  exists v', ready_for s a id v σ σ' v'.
Proof using Hmax.
  intros (HI & (k & Es & Hk) & Ht & _). eexists. split; [done|]. split; [exact Es|].
  split_and!; [|done| |done|by destruct Hk].
  - cbn [evicted parsed pv_statements]. by apply evicts_keep_last.
  - cbn [evicted parsed pv_statements pv_requests]. rewrite <- (assoc_L (++)). eexists. split; [done|].
    constructor; [done|]. apply Forall_fmap, Forall_true. done.
Qed.

Lemma ensure_good s a id q v σ :
  Pinv N [] [] S A σ -> st_servers σ !! s = Some v -> text (st_heap σ) a = Some (id, q) ->
  good (ensure_statement_is_prepared_on_server mem cf_max_prepared_statements s a)
    (fun b σ' => b = true -> exists v', ready_for s a id v σ σ' v') σ.
Proof using Hmax.
  intros HI Es Ht. pose proof Ht as Hps. apply text_inv in Hps as (ps & Hps & Hid & Hq).
  unfold ensure_statement_is_prepared_on_server.
  destruct (pi_server _ _ _ _ _ _ HI s v Es) as (_ & _ & Hfr).
  eapply bind_statement; [done|]. eapply bind_table; [done..|]. rewrite Hid, Hq.
  destruct (find_statement id (pv_statements v)) as [e|] eqn:Ef; [by eapply ensure_found_good|].
  eapply good_bind; [by apply add_request_good|]. intros [] σ1 H1; cbn [negb moves] in *; [|by apply good_ret].
  eapply good_bind; [apply queue_packet_good, (at_server_lookup _ _ _ _ H1)|].
  intros [] σ2 H2; cbn [negb moves] in *; [|by apply good_ret].
  pose proof (at_server_trans _ _ _ _ _ _ H1 H2) as H12.
  eapply (create_register_good _ _ s N [] [] S A RA_SKIP a id q v σ σ2 bool (fun e registered =>
    if negb registered then free_listed_server_ps s e ≫= fun _ => mret false else mret true));
    try done; [by intros; apply good_ret|..].
  - intros σ3 H3. cbn [negb]. apply good_ret. intros _. by apply (prepared_ready s a id q v).
  - intros σ3 [ps3 Hps3] Hs3. cbn [negb].
    eapply good_bind with (R := fun _ _ => True); [by eapply free_listed_server_good|intros; by apply good_ret].
Qed.

(** The part [handle_bind_command] and [handle_describe_command] share. *)
Definition use_statement (s a : positive) (type : Z) (mk : list Z -> ToServer) (failed : handled) :
    SM PStore handled :=
  prepared ← ensure_statement_is_prepared_on_server mem cf_max_prepared_statements s a;
  if negb prepared then mret H_oom
  else
    queued ← add_outstanding_request mem s type RA_FORWARD;
    if negb queued then mret H_oom
    else
      ps ← the_statement a;
      sent ← queue_packet mem s (mk (ps_stmt_name (ps_query_id ps)));
      mret (if sent : bool then H_true else failed).

(** The last packet on the server's stream is [mk] with a name under which the
    server, once it has handled the packets before, has query [q]. *)
Definition reaches (s : positive) (mk : list Z -> ToServer) (q : list Z) (σ' : PStore) : Prop :=
  exists v' ms id, st_servers σ' !! s = Some v' /\ pv_sent v' = ms ++ [mk (ps_stmt_name id)] /\
    (s ∈ S -> exists P, run_all ms = Some P /\ P !! ps_stmt_name id = Some q).

Lemma use_statement_good s a id q v type mk failed σ :
  failed <> H_true -> (forall n, packet_event (mk n) = None) -> (forall P n, serve P (mk n) = match P !! n with Some _ => Some P | None => None end) ->
  Pinv N [] [] S A σ -> st_servers σ !! s = Some v -> text (st_heap σ) a = Some (id, q) ->
  good (use_statement s a type mk failed) (fun r σ' =>
    (r = H_true /\ Pinv (N + 1) [] [] S A σ' /\ reaches s mk q σ' /\
       served cf_max_prepared_statements s type v σ') \/ r = H_oom \/ r = failed) σ.
Proof using Hmax.
  intros Hfail Hev Hmk HI Es Ht. unfold use_statement.
  eapply good_bind; [by apply (ensure_good s a id q v)|]. cbv beta.
  intros [] σ1 H1; cbn [negb]; [|apply good_ret; auto].
  destruct (H1 eq_refl) as (v1 & HI1 & Es1 & Hin & Htx & (L & HL & HLs) & Hex & Hw). clear H1.
  eapply good_bind; [by apply add_request_good|]. intros [] σ2 H2; cbn [negb moves] in *; [|apply good_ret; auto].
  destruct (pi_server _ _ _ _ _ _ HI1 s v1 Es1) as (_ & Hf1 & Hfr).
  destruct (put_request_ok type RA_FORWARD v1 Hf1) as (Hf2 & Ho2 & Hr2); [done|].
  assert (HI2 : Pinv (N + 1) [] [] S A σ2) by by eapply (pinv_quiet _ _ _ _ _ σ1 σ2 s v1).
  assert (Ht2 : text (st_heap σ2) a = Some (id, q)) by (destruct H2 as [-> _]; by rewrite Htx).
  destruct (text_inv _ _ _ _ Ht2) as (ps & Hps & Hid & _).
  eapply bind_statement; [done|]. rewrite Hid.
  assert (Hhas : forall P, run_all (pv_sent v1) = Some P -> s ∈ S -> P !! ps_stmt_name id = Some q).
  { intros P HP Hs. destruct (pi_synced _ _ _ _ _ _ HI1 s v1 Es1 Hs) as (_ & P' & HP' & Hiff).
    rewrite HP in HP'. injection HP' as <-. apply Hiff. exists (mkServerPs id a). split_and!; [done..|].
    cbn. by rewrite Htx. }
  pose proof (at_server_lookup _ _ _ _ H2) as Es2.
  eapply good_bind; [by apply queue_packet_good|]. intros [] σ3 H3; cbn [moves] in *;
    apply good_ret; [|auto]. left. split_and!; [done| | |].
  - eapply pinv_packet; [exact HI2|exact Es2|exact H3|apply Hev|]. intros P HP Hs. rewrite Hmk. by rewrite (Hhas P).
  - exists (put_sent (mk (ps_stmt_name id)) (put_request (mkRequest type RA_FORWARD None 0) v1)), (pv_sent v1), id.
    split_and!; [by apply (at_server_lookup _ _ _ _ H3)|done|]. intros Hs.
    destruct (pi_synced _ _ _ _ _ _ HI1 s v1 Es1 Hs) as (_ & P & HP & _). eauto.
  - eexists. split_and!; [by apply (at_server_lookup _ _ _ _ H3)| |done].
    left. exists (L ++ [mkRequest type RA_FORWARD None 0]). split_and!; [by cbn; rewrite HL, <- (assoc_L (++))| |done|].
    + by apply expected_skipped.
    + intros _. destruct HLs; cbn; congruence.
Qed.

Lemma client_statement σ c t e name :
  Pinv N [] [] S A σ -> st_clients σ !! c = Some t -> find_name name t = Some e ->
  exists id q, text (st_heap σ) (cp_ps e) = Some (id, q) /\ A c name = Some q.
Proof using.
  intros HI Ec En. destruct (find_name_in _ _ _ En) as [He _].
  destruct (pi_live _ _ _ _ _ _ HI (cp_ps e)) as [ps Hps].
  { rewrite app_nil_r. by apply (client_ref_in σ c t). }
  eexists _, _. split; [by apply text_some|]. rewrite (client_bound N S A σ c t name HI Ec).
  unfold client_view. rewrite En. cbn. by rewrite (text_some _ _ _ Hps).
Qed.

(** The outcome of a Bind or Describe of [name]. *)
Definition use_result (c s : positive) (type : Z) (v : PServer) (name : list Z) (mk : list Z -> ToServer) (failed : handled)
    (σ : PStore) (r : handled) (σ' : PStore) : Prop :=
  (r = H_true /\ Pinv (N + 1) [] [] S A σ' /\ served cf_max_prepared_statements s type v σ' /\
     exists q, A c name = Some q /\ reaches s mk q σ') \/
  ((exists why, r = H_disconnect_client why) /\ σ' = σ /\ A c name = None) \/
  (is_Some (A c name) /\ (r = H_oom \/ r = failed)).

Lemma use_command_good c s t v name type mk failed σ :
  failed <> H_true -> (forall n, packet_event (mk n) = None) -> (forall P n, serve P (mk n) = match P !! n with Some _ => Some P | None => None end) ->
  Pinv N [] [] S A σ -> st_clients σ !! c = Some t -> st_servers σ !! s = Some v ->
  good (client_ps ← get_client_prepared_statement c name;
        match client_ps with
        | None => mret (H_disconnect_client "prepared statement did not exist")
        | Some client_ps => use_statement s (cp_ps client_ps) type mk failed
        end) (use_result c s type v name mk failed σ) σ.
Proof using Hmax.
  intros Hfail Hev Hmk HI Ec Es. eapply good_bind with (R := fun r σ' => r = find_name name t /\ σ' = σ).
  { eapply bind_client; [done|]. by apply good_ret. }
  intros r _ [-> ->]. destruct (find_name name t) as [e|] eqn:En.
  - destruct (client_statement σ c t e name HI Ec En) as (id & q & Ht & EA).
    eapply good_conseq; [by apply (use_statement_good s (cp_ps e) id q v)|].
    intros r σ' [(-> & HI' & Hr & Hw)|Ho]; unfold use_result; [eauto 10|]. right; right.
    split; [by rewrite EA|done].
  - apply good_ret. right; left. split; [eauto|]. split; [done|].
    rewrite (client_bound N S A σ c t name HI Ec). unfold client_view. by rewrite En.
Qed.

Definition bind_packet (bp : BindPacket) (n : list Z) : ToServer :=
  TS_Bind (u32 (bk_len bp - s32 (zlen (bk_name bp) - u8 (zlen n)) - 1)) (bk_portal bp) n (bk_rest bp).

Lemma bind_good c s t v bp σ :
  Pinv N [] [] S A σ -> st_clients σ !! c = Some t -> st_servers σ !! s = Some v ->
  good (handle_bind_command mem cf_max_prepared_statements c s (Some bp))
    (use_result c s PqMsg_Bind v (bk_name bp) (bind_packet bp) H_oom σ) σ.
Proof using Hmax.
  intros HI Ec Es. exact (use_command_good c s t v (bk_name bp) PqMsg_Bind (bind_packet bp) H_oom σ
    ltac:(done) (fun _ => eq_refl) (fun _ _ => eq_refl) HI Ec Es).
Qed.

Lemma describe_good c s t v name σ :
  Pinv N [] [] S A σ -> st_clients σ !! c = Some t -> st_servers σ !! s = Some v ->
  good (handle_describe_command mem cf_max_prepared_statements c s (Some (83, name)))
    (use_result c s PqMsg_Describe v name TS_DescribeStmt H_false σ) σ.
Proof using Hmax.
  intros HI Ec Es. exact (use_command_good c s t v name PqMsg_Describe TS_DescribeStmt H_false σ
    ltac:(done) (fun _ => eq_refl) (fun _ _ => eq_refl) HI Ec Es).
Qed.
End Use.

(** ** Close, answers, errors and disconnects *)
Section Release.
Context (mem : nat -> bool).
Context (N : Z) (HN : N <= 2 ^ 32) (A : positive -> list Z -> option (list Z)).
Implicit Types (S : gset positive).

Lemma bind_drop_use {B} held S A' a (k : unit -> SM PStore B) (Q : B -> PStore -> Prop) σ :
  Pinv N (a :: held) [] S A' σ ->
  (forall σ', Pinv N held [] S A' σ' -> st_clients σ' = st_clients σ -> st_servers σ' = st_servers σ ->
     good (k tt) Q σ') ->
  good (drop_use a ≫= k) Q σ.
Proof using HN.
  intros HI Hk. eapply good_bind; [by apply (drop_use_good N held [] S A')|].
  cbv beta. intros [] σ' (HI' & E1 & E2). auto.
Qed.

Lemma pinv_del_name S σ c t e name :
  Pinv N [] [] S A σ -> st_clients σ !! c = Some t -> find_name name t = Some e ->
  Pinv N [cp_ps e] [] S (bind_name A c name None) (set_client c (del_name name t) σ).
Proof using.
  intros HI Ec En. pose proof (pi_names _ _ _ _ _ _ HI c t Ec) as Hnd.
  eapply pinv_client; [exact HI|exact Ec|..].
  - unfold client_refs. rewrite (del_name_perm _ _ _ En) at 1. cbn. rewrite app_nil_r.
    apply Permutation_cons_append.
  - rewrite (del_name_perm _ _ _ En) in Hnd. by apply NoDup_cons in Hnd as [_ ?].
  - intros c' n. unfold bind_name. case_decide as Hc; [subst c'|done].
    unfold client_view. rewrite find_del_name by done. case_decide; [done|].
    by rewrite (client_bound N S A σ c t n HI Ec).
Qed.

(** A Close is answered at once when nothing is on its way to the client. *)
Definition closed_by (link : option positive) (sent_now : bool) (σ σ' : PStore) : Prop :=
  match link with
  | None => sent_now = true
  | Some s =>
      match st_servers σ !! s with
      | None => False
      | Some v =>
          if nothing_in_flight_to_client v then sent_now = true /\ st_servers σ' !! s = Some v
          else exists v', st_servers σ' !! s = Some v' /\ asks PqMsg_Close v v'
      end
  end.

Lemma close_good S c t link sent_now name σ :
  Pinv N [] [] S A σ -> st_clients σ !! c = Some t ->
  (forall s, link = Some s -> is_Some (st_servers σ !! s)) ->
  good (handle_close_statement_command mem c link sent_now name)
    (fun b σ' => b = true -> Pinv N [] [] S (bind_name A c name None) σ' /\ closed_by link sent_now σ σ') σ.
Proof using HN.
  intros HI Ec Hlink. unfold handle_close_statement_command. eapply bind_client; [done|].
  eapply good_bind with (R := fun _ σ' => Pinv N [] [] S (bind_name A c name None) σ' /\
    st_servers σ' = st_servers σ).
  - destruct (find_name name t) as [e|] eqn:En.
    + apply bind_put_client.
      eapply good_conseq; [apply (drop_use_good N [] []); [by apply pinv_del_name|done]|].
      intros _ σ' (? & ? & E). by rewrite E.
    + apply good_ret. split; [|done]. pose proof (pi_abs _ _ _ _ _ _ HI) as Habs. destruct HI. split; auto.
      intros c' n. rewrite Habs. unfold bind_name. repeat case_decide; subst; try done. rewrite <- Habs. unfold bindings. rewrite Ec. cbn.
      unfold client_view. by rewrite En.
  - intros _ σ1 [HI1 Es1]. destruct link as [s|]; [|by apply good_ret].
    destruct (Hlink s eq_refl) as [v Ev]. eapply bind_server; [by rewrite Es1|]. unfold closed_by. rewrite Ev.
    destruct (nothing_in_flight_to_client v); [apply good_ret; intros ->; by rewrite Es1|].
    eapply good_conseq; [apply (add_fake_good mem N S (bind_name A c name None) PqMsg_Close s v); [by right|done|by rewrite Es1]|].
    intros b σ2 H ->. destruct H as (? & v' & Hat & _ & _ & Hask). split; [done|].
    exists v'. split; [by apply (at_server_lookup _ _ _ _ Hat)|done].
Qed.

(** A request leaves the front of the queue; what it holds is in hand. *)
Lemma pinv_pop_request S σ σ' s v r rest f :
  Pinv N [] [] S A σ -> st_servers σ !! s = Some v -> pv_requests v = r :: rest ->
  at_server s (f (set_requests rest v)) σ σ' ->
  (forall w, pv_statements (f w) = pv_statements w /\ pv_requests (f w) = pv_requests w /\ pv_sent (f w) = pv_sent w /\
    pv_freed_entry (f w) = pv_freed_entry w) ->
  Pinv N (match or_server_ps r with Some e => [sp_ps e] | None => [] end) [] S A σ'.
Proof using.
  intros HI Es Er Hat Hf. destruct (Hf (set_requests rest v)) as (F1 & F2 & F3 & F4).
  destruct (pi_server _ _ _ _ _ _ HI s v Es) as (He & Hq & Hfr). rewrite Er in Hq. apply Forall_cons in Hq as [_ Hq].
  unfold server_entries in He. rewrite Er in He. apply Forall_app in He as [He1 He2].
  eapply pinv_at_server; [exact HI|exact Es|exact Hat| | |done|].
  - unfold server_refs, server_entries. rewrite F1, F2, Er. cbn [set_requests pv_statements pv_requests omap list_omap].
    rewrite !fmap_app, app_nil_r. destruct (or_server_ps r); cbn; [|by rewrite app_nil_r].
    rewrite <- (assoc_L (++)). f_equiv. apply Permutation_cons_append.
  - split; [|rewrite F2, F4; by split]. unfold server_entries. rewrite F1, F2. cbn [set_requests pv_statements pv_requests].
    apply Forall_app. split; [done|]. cbn [omap list_omap] in He2.
    destruct (or_server_ps r); [by apply Forall_cons in He2 as [_ ?] | done].
  - intros Hs. destruct (pi_synced _ _ _ _ _ _ HI s v Es Hs) as ([Hnd [ms0 Hst]] & P & Hrun & HP).
    unfold synced. rewrite F1, F3. split; [|eauto]. split; [done|]. eapply handled_suffix; [done..|].
    rewrite F2, Er. cbn [set_requests pv_requests]. exists (requested [r]). apply (requested_app [r] rest).
Qed.

Lemma free_held_good S o σ :
  Pinv N (match o with Some e => [sp_ps e] | None => [] end) [] S A σ ->
  good (free_server_prepared_statement o) (fun _ σ' => Pinv N [] [] S A σ' /\
    st_clients σ' = st_clients σ /\ st_servers σ' = st_servers σ) σ.
Proof using HN.
  intros HI. destruct o as [e|]; [|by apply good_ret].
  by apply (drop_use_good N [] []).
Qed.

Lemma pop_good S s v types σ :
  Pinv N [] [] S A σ -> st_servers σ !! s = Some v ->
  good (pop_outstanding_request s types) (fun _ σ' => Pinv N [] [] S A σ' /\ st_clients σ' = st_clients σ /\
    exists v', st_servers σ' = <[s := v']> (st_servers σ)) σ.
Proof using HN.
  intros HI Es. unfold pop_outstanding_request. eapply bind_server; [done|].
  destruct (pv_requests v) as [|r rest] eqn:Er.
  { apply good_ret. split_and!; [done..|]. exists v. by rewrite insert_id. }
  case_bool_decide; [apply good_ret; split_and!; [done..|]; exists v; by rewrite insert_id|].
  case_bool_decide; cbn [negb]; [|apply good_ret; split_and!; [done..|]; exists v; by rewrite insert_id].
  eapply bind_mod_server; [done|]. intros σ1 H1.
  eapply good_bind; [apply (free_held_good S); by apply (pinv_pop_request S σ σ1 s v r rest (fun w => w))|].
  cbv beta. intros _ σ2 (HI2 & E1 & E2). apply good_ret. split; [done|]. rewrite E1, E2.
  destruct H1 as (_ & _ & _ & -> & ->). eauto.
Qed.

Lemma pinv_del_statement S σ σ' s v e id :
  Pinv N [] [] S A σ -> st_servers σ !! s = Some v -> find_statement id (pv_statements v) = Some e ->
  at_server s (set_statements (del_statement id (pv_statements v)) v) σ σ' ->
  Pinv N [sp_ps e] [] (S ∖ {[s]}) A σ'.
Proof using.
  intros HI Es Ef Hat. destruct (pi_server _ _ _ _ _ _ HI s v Es) as (He & Hq & Hfr).
  pose proof (del_statement_perm _ _ _ Ef) as Hp.
  eapply pinv_at_server; [exact HI|exact Es|exact Hat| | | |].
  - unfold server_refs, server_entries. cbn [set_statements pv_statements pv_requests].
    rewrite Hp at 1. cbn. rewrite app_nil_r. apply Permutation_cons_append.
  - split; [|done]. unfold server_entries in *. cbn [set_statements pv_statements pv_requests].
    rewrite Hp in He. by apply Forall_cons in He as [_ ?].
  - intros s' [? _]%elem_of_difference _. done.
  - intros [_ Hs]%elem_of_difference. by rewrite elem_of_singleton in Hs.
Qed.

Lemma pinv_unsync S σ s : Pinv N [] [] S A σ -> Pinv N [] [] (S ∖ {[s]}) A σ.
Proof using. intros []. split; auto. intros s' v' E [? _]%elem_of_difference. eauto. Qed.

(** [σ'] is as good as [σ], and server [s] of it has queue [q]. *)
Definition queue_is (S : gset positive) (s : positive) (q : list OutstandingRequest) (σ σ' : PStore) : Prop :=
  Pinv N [] [] S A σ' /\ st_clients σ' = st_clients σ /\
  exists v, st_servers σ' !! s = Some v /\ pv_requests v = q.

Lemma unregister_good S s v id σ :
  Pinv N [] [] (S ∖ {[s]}) A σ -> st_servers σ !! s = Some v ->
  good (unregister_prepared_statement s id) (fun _ => queue_is (S ∖ {[s]}) s (pv_requests v) σ) σ.
Proof using HN.
  intros HI Es. unfold unregister_prepared_statement. destruct (pi_server _ _ _ _ _ _ HI s v Es) as (_ & _ & Hfr). eapply bind_table; [done..|].
  destruct (find_statement _ _) as [e|] eqn:Ef; [|apply good_ret; split_and!; eauto].
  eapply bind_mod_server; [done|]. intros σ1 H1.
  assert (E : S ∖ {[s]} ∖ {[s]} = S ∖ {[s]}) by (apply set_eq; intros x; rewrite !elem_of_difference; tauto).
  eapply good_conseq; [apply (free_held_good (S ∖ {[s]} ∖ {[s]}) (Some e));
    by apply (pinv_del_statement _ σ σ1 s v e id)|].
  intros _ σ2 (HI2 & Ec2 & Es2). rewrite E in HI2. split_and!; [done|rewrite Ec2; apply H1|].
  rewrite Es2. eexists. split; [by apply (at_server_lookup _ _ _ _ H1)|done].
Qed.

(** A Close that failed: its statement goes back to the table. *)
Lemma pinv_readd S s v r l e σ σ' :
  Pinv N [] [] (S ∖ {[s]}) A σ -> st_servers σ !! s = Some v -> pv_requests v = r :: l ->
  or_server_ps r = Some e ->
  at_server s (set_requests l (set_statements (pv_statements v ++ [e]) v)) σ σ' ->
  Pinv N [] [] (S ∖ {[s]}) A σ'.
Proof using.
  intros HI Es El Ee Hat. destruct (pi_server _ _ _ _ _ _ HI s v Es) as (He & Hq & Hfr). rewrite El in Hq.
  apply Forall_cons in Hq as [_ Hq].
  unfold server_entries in He. rewrite El in He. cbn [omap list_omap] in He. rewrite Ee in He.
  eapply pinv_at_server; [exact HI|exact Es|exact Hat| | |done|].
  - unfold server_refs, server_entries. cbn [set_requests set_statements pv_statements pv_requests].
    rewrite El. cbn [omap list_omap]. rewrite Ee, !app_nil_r, <- (assoc_L (++)). done.
  - split; [|done]. unfold server_entries. cbn [set_requests set_statements pv_statements pv_requests].
    rewrite <- (assoc_L (++)). done.
  - intros [_ Hs]%elem_of_difference. by rewrite elem_of_singleton in Hs.
Qed.

Lemma drop_request_good {B} S s r l σ (k : unit -> SM PStore B) (Q : B -> PStore -> Prop) σ1 :
  queue_is S s (r :: l) σ σ1 -> or_server_ps r = None ->
  (forall σ', queue_is S s l σ σ' -> good (k tt) Q σ') ->
  good (mod_server s (set_requests l) ≫= k) Q σ1.
Proof using.
  intros (HI1 & Ec1 & v1 & Es1 & El1) Hn Hk. eapply bind_mod_server; [done|]. intros σ2 H2. apply Hk.
  pose proof (pinv_pop_request _ σ1 σ2 s v1 r l (fun w => w) HI1 Es1 El1 H2 ltac:(done)) as HI2.
  rewrite Hn in HI2. split_and!; [done|rewrite <- Ec1; apply H2|].
  eexists. split; [by apply (at_server_lookup _ _ _ _ H2)|done].
Qed.

(** One request of the loop of [clear_outstanding_requests_until]. *)
Lemma clear_one_good {B} S s r l σ (k : SM PStore B) (Q : B -> PStore -> Prop) (oom : B) :
  queue_is (S ∖ {[s]}) s (r :: l) σ σ ->
  (forall σ', Q oom σ') ->
  (forall σ', queue_is (S ∖ {[s]}) s l σ σ' -> good k Q σ') ->
  good (ok ← (if bool_decide (or_type r = PqMsg_Parse) && bool_decide (0 < or_server_ps_query_id r) then
                unregister_prepared_statement s (or_server_ps_query_id r) ≫= fun _ => mret true
              else
                match or_server_ps r with
                | Some e =>
                    if bool_decide (or_type r = PqMsg_Close) then add_prepared_statement mem s e
                    else mret true
                | None => mret true
                end);
        if negb ok then mret oom else mod_server s (set_requests l) ≫= fun _ => k) Q σ.
Proof using HN.
  intros Hq Hoom Hk. pose proof Hq as (HI & _ & v & Es & El).
  destruct (pi_server _ _ _ _ _ _ HI s v Es) as (_ & Hok & Hfr). rewrite El in Hok.
  apply Forall_cons in Hok as [(_ & Hclose & _) _].
  destruct (bool_decide (or_type r = PqMsg_Parse) && bool_decide (0 < or_server_ps_query_id r)) eqn:Ep.
  - apply andb_true_iff in Ep as [Ep _]. bprop.
    assert (Hn : or_server_ps r = None).
    { destruct (or_server_ps r); [|done]. destruct Hclose as [Hc _]; [eauto|]. by rewrite Ep in Hc. }
    eapply good_bind with (R := fun b σ1 => b = true /\ queue_is (S ∖ {[s]}) s (r :: l) σ σ1).
    + eapply good_bind; [by apply (unregister_good S s v)|]. intros ? σ1 H1. rewrite El in H1. by apply good_ret.
    + intros b σ1 [-> H1]. cbn [negb]. by eapply drop_request_good.
  - destruct (or_server_ps r) as [e|] eqn:Ee.
    + rewrite (bool_decide_eq_true_2 (or_type r = PqMsg_Close)) by (apply Hclose; eauto).
      eapply good_bind; [by apply add_statement_good|].
      intros [] σ1 H1; cbn [negb moves] in *; [|by apply good_ret].
      eapply bind_mod_server; [by apply (at_server_lookup _ _ _ _ H1)|]. intros σ2 H2.
      pose proof (at_server_trans _ _ _ _ _ _ H1 H2) as H12. apply Hk.
      split_and!; [by eapply pinv_readd|apply H12|].
      eexists. split; [by apply (at_server_lookup _ _ _ _ H12)|done].
    + cbn. by eapply drop_request_good.
Qed.

Lemma queue_is_trans S s q q' σ σ' σ'' :
  queue_is S s q σ σ' -> queue_is S s q' σ' σ'' -> queue_is S s q' σ σ''.
Proof using. intros (_ & E & _) (HI & E' & Hv). split_and!; [done|congruence|done]. Qed.

Lemma clear_loop_good S s types l σ :
  queue_is (S ∖ {[s]}) s l σ σ ->
  good (clear_requests_loop mem s types l) (fun b σ' => b = true ->
    exists q, queue_is (S ∖ {[s]}) s q σ σ') σ.
Proof using HN.
  revert σ. induction l as [|r l IH]; intros σ Hq; [apply good_ret; eauto|].
  cbn [clear_requests_loop]. apply (clear_one_good S s r l σ); [done|done|].
  intros σ1 H1. case_bool_decide; [apply good_ret; eauto|].
  eapply good_conseq; [apply IH|].
  - destruct H1 as (? & ? & ?). by split_and!.
  - intros b σ2 Hb ->. destruct (Hb eq_refl) as [q Hq2]. exists q. by eapply queue_is_trans.
Qed.

Lemma clear_good S s v types σ :
  Pinv N [] [] S A σ -> st_servers σ !! s = Some v ->
  good (clear_outstanding_requests_until mem s types) (fun b σ' => b = true ->
    exists q, queue_is (S ∖ {[s]}) s q σ σ') σ.
Proof using HN.
  intros HI Es. unfold clear_outstanding_requests_until. eapply bind_server; [done|].
  apply clear_loop_good. split_and!; [by apply pinv_unsync|done|eauto].
Qed.

Lemma fakes_loop_good S s l v σ :
  Pinv N [] [] S A σ -> st_servers σ !! s = Some v -> pv_requests v = l ->
  good (send_fake_loop mem s l) (fun b σ' => b = true ->
    Pinv N [] [] S A σ' /\ st_clients σ' = st_clients σ /\ is_Some (st_servers σ' !! s)) σ.
Proof using.
  revert v σ. induction l as [|r l IH]; intros v σ HI Es El; [apply good_ret; intros _; split_and!; eauto|].
  cbn [send_fake_loop]. case_bool_decide as Hf; cbn [negb]; [|apply good_ret; intros _; split_and!; eauto].
  destruct (pi_server _ _ _ _ _ _ HI s v Es) as (_ & Hok & Hfr). rewrite El in Hok.
  apply Forall_cons in Hok as [(Hfk & Hclose & _) Hok]. specialize (Hfk Hf).
  eapply bind_mod_server; [done|]. intros σ1 H1.
  assert (Hn : or_server_ps r = None).
  { destruct (or_server_ps r); [|done]. destruct Hclose as [_ Hc]; [eauto|]. by rewrite Hf in Hc. }
  pose proof (pinv_pop_request _ σ σ1 s v r l set_queue_after HI Es El H1 ltac:(done)) as HI1.
  rewrite Hn in HI1. pose proof (at_server_lookup _ _ _ _ H1) as Es1.
  assert (Hx : forall t, good (queued ← queue_extra mem s t; if negb queued then mret false else send_fake_loop mem s l)
    (fun b σ' => b = true -> Pinv N [] [] S A σ' /\ st_clients σ' = st_clients σ /\ is_Some (st_servers σ' !! s)) σ1).
  { intros t. eapply good_bind; [by apply allocate_mod_good|].
    intros [] σ2 H2; cbn [negb moves] in *; [|by apply good_ret].
    assert (HI2 : Pinv N [] [] S A σ2) by (eapply pinv_quiet; [exact HI1|exact Es1|exact H2|done..]).
    eapply good_conseq; [eapply IH; [done|by apply (at_server_lookup _ _ _ _ H2)|done]|].
    intros b σ3 Hb ->. destruct (Hb eq_refl) as (? & E & ?). split_and!; [done| |done].
    rewrite E. destruct H2 as (_ & _ & _ & -> & _). apply H1. }
  unfold queue_fake_response. destruct Hfk as [-> | ->]; apply Hx.
Qed.

Lemma fakes_good S s v σ :
  Pinv N [] [] S A σ -> st_servers σ !! s = Some v ->
  good (send_pending_fake_responses mem s) (fun b σ' => b = true ->
    Pinv N [] [] S A σ' /\ st_clients σ' = st_clients σ /\ is_Some (st_servers σ' !! s)) σ.
Proof using. intros HI Es. unfold send_pending_fake_responses. eapply bind_server; [done|]. by apply (fakes_loop_good S s _ v). Qed.

(** *** Freeing tables *)

Definition no_names (c : positive) : positive -> list Z -> option (list Z) :=
  fun c' n => if decide (c' = c) then None else A c' n.

Lemma free_requests_good S s l v σ :
  Pinv N [] [] S A σ -> st_servers σ !! s = Some v -> pv_requests v = l ->
  good (free_requests_loop s l) (fun _ => queue_is S s [] σ) σ.
Proof using HN.
  revert v σ. induction l as [|r l IH]; intros v σ HI Es El; [apply good_ret; split_and!; eauto|].
  cbn [free_requests_loop]. eapply bind_mod_server; [done|]. intros σ1 H1.
  eapply good_bind; [apply (free_held_good S); by apply (pinv_pop_request S σ σ1 s v r l (fun w => w))|].
  cbv beta. intros _ σ2 (HI2 & Ec2 & Es2).
  eapply good_conseq; [eapply IH; [done|rewrite Es2; by apply (at_server_lookup _ _ _ _ H1)|done]|].
  intros ? σ3 (HI3 & Ec3 & Hv3). split_and!; [done| |done]. rewrite Ec3, Ec2. apply H1.
Qed.

Lemma pinv_drop_first S σ σ' s v e l :
  Pinv N [] [] (S ∖ {[s]}) A σ -> st_servers σ !! s = Some v -> pv_statements v = e :: l ->
  at_server s (set_statements l v) σ σ' -> Pinv N [sp_ps e] [] (S ∖ {[s]}) A σ'.
Proof using.
  intros HI Es El Hat. destruct (pi_server _ _ _ _ _ _ HI s v Es) as (He & Hq & Hfr).
  eapply pinv_at_server; [exact HI|exact Es|exact Hat| | |done|].
  - unfold server_refs, server_entries. cbn [set_statements pv_statements pv_requests].
    rewrite El. cbn. rewrite app_nil_r. apply Permutation_cons_append.
  - split; [|done]. unfold server_entries in *. cbn [set_statements pv_statements pv_requests].
    rewrite El in He. by apply Forall_cons in He as [_ ?].
  - intros [_ Hs]%elem_of_difference. by rewrite elem_of_singleton in Hs.
Qed.

Lemma free_server_loop_good S s l v σ :
  Pinv N [] [] (S ∖ {[s]}) A σ -> st_servers σ !! s = Some v -> pv_statements v = l ->
  good (free_server_loop s l) (fun _ σ' => Pinv N [] [] (S ∖ {[s]}) A σ' /\ st_clients σ' = st_clients σ /\
    st_servers σ' !! s = Some (set_statements [] v)) σ.
Proof using HN.
  revert v σ. induction l as [|e l IH]; intros v σ HI Es El.
  { apply good_ret. split_and!; [done..|]. rewrite Es. f_equal. destruct v; cbn in *; by subst. }
  cbn [free_server_loop]. eapply bind_mod_server; [done|]. intros σ1 H1.
  eapply good_bind; [apply (free_held_good (S ∖ {[s]}) (Some e)); by apply (pinv_drop_first S σ σ1 s v e l)|].
  cbv beta. intros _ σ2 (HI2 & Ec2 & Es2).
  eapply good_conseq; [eapply IH; [done|rewrite Es2; by apply (at_server_lookup _ _ _ _ H1)|done]|].
  intros ? σ3 (HI3 & Ec3 & Es3). split_and!; [done| |done]. rewrite Ec3, Ec2. apply H1.
Qed.

Lemma free_server_good S s v σ :
  Pinv N [] [] S A σ -> st_servers σ !! s = Some v ->
  good (free_server_prepared_statements s) (fun _ σ' => Pinv N [] [] (S ∖ {[s]}) A σ' /\
    st_clients σ' = st_clients σ /\ st_servers σ' !! s = Some (set_statements [] v)) σ.
Proof using HN.
  intros HI Es. unfold free_server_prepared_statements. destruct (pi_server _ _ _ _ _ _ HI s v Es) as (_ & _ & Hfr). eapply bind_table; [done..|].
  by apply (free_server_loop_good S s _ v); [apply pinv_unsync|..].
Qed.

Lemma pinv_forget_server S s v σ :
  Pinv N [] [] S A σ -> st_servers σ !! s = Some v -> server_entries v = [] ->
  good (forget_server s) (fun _ => Pinv N [] [] S A) σ.
Proof using.
  intros HI Es Ev. eexists _, _. split; [done|]. cbv beta. set (σ' := mkPStore _ _ _ _ _ _).
  assert (E : all_refs σ' ++ [] ≡ₚ all_refs σ ++ []).
  { unfold all_refs, σ'. cbn [st_clients st_servers]. rewrite (refs_take server_refs _ _ _ Es).
    unfold server_refs at 2. by rewrite Ev. }
  destruct HI. split; unfold σ'; cbn [st_heap st_prepared_statements st_next_unique_query_id st_clients st_servers];
    auto; fold σ'.
  - by rewrite E.
  - intros a. rewrite E. auto.
  - intros a ps Ha. rewrite E. auto.
  - intros a. rewrite E. auto.
  - intros s' v' [_ ?]%lookup_delete_Some. eauto.
  - intros s' v' [_ ?]%lookup_delete_Some. eauto.
Qed.

Lemma server_free_good S s v σ :
  Pinv N [] [] S A σ -> st_servers σ !! s = Some v ->
  good (server_free s) (fun _ => Pinv N [] [] (S ∖ {[s]}) A) σ.
Proof using HN.
  intros HI Es. unfold server_free. eapply bind_server; [done|].
  eapply good_bind; [by apply (free_requests_good S s _ v)|].
  intros ? σ1 (HI1 & _ & v1 & Es1 & El1).
  eapply good_bind; [by apply (free_server_good S s v1)|]. cbv beta. intros ? σ2 (HI2 & _ & Es2).
  eapply pinv_forget_server; [done..|]. unfold server_entries. cbn [set_statements pv_statements pv_requests].
  by rewrite El1.
Qed.

Lemma pinv_drop_name S c σ A' e l :
  Pinv N [] [] S A' σ -> st_clients σ !! c = Some (e :: l) ->
  exists A'', Pinv N [cp_ps e] [] S A'' (set_client c l σ) /\ forall c' n, c' <> c -> A'' c' n = A' c' n.
Proof using.
  intros HI Ec. pose proof (pi_names _ _ _ _ _ _ HI c _ Ec) as Hnd.
  exists (fun c' n => if decide (c' = c) then client_view (st_heap σ) l n else A' c' n). split.
  - eapply pinv_client; [exact HI|exact Ec|..|done].
    + cbn. rewrite app_nil_r. apply Permutation_cons_append.
    + by apply NoDup_cons in Hnd as [_ ?].
  - intros c' n Hc. by rewrite decide_False.
Qed.

Lemma free_client_loop_good S c l A' σ :
  Pinv N [] [] S A' σ -> st_clients σ !! c = Some l -> (forall c' n, c' <> c -> A' c' n = A c' n) ->
  good (free_client_loop c l) (fun _ σ' => Pinv N [] [] S (no_names c) σ' /\ st_clients σ' !! c = Some [] /\
    st_servers σ' = st_servers σ) σ.
Proof using HN.
  revert A' σ. induction l as [|e l IH]; intros A' σ HI Ec HA.
  - apply good_ret. split_and!; [|done..]. pose proof (pi_abs _ _ _ _ _ _ HI) as Habs. destruct HI.
    split; auto. intros c' n. unfold no_names. case_decide as Hc; [|rewrite Habs; auto].
    subst. unfold bindings. by rewrite Ec.
  - cbn [free_client_loop]. apply bind_put_client.
    destruct (pinv_drop_name S c σ A' e l HI Ec) as (A'' & HI1 & HA1).
    eapply bind_drop_use; [exact HI1|]. intros σ2 HI2 Ec2 Es2.
    eapply good_conseq; [apply (IH A'')|].
    + done.
    + rewrite Ec2. cbn. by rewrite lookup_insert_eq.
    + intros c' n Hc. rewrite HA1 by done. auto.
    + intros ? σ3 (? & ? & E). split_and!; [done..|]. by rewrite E, Es2.
Qed.

Lemma free_client_good S c t σ :
  Pinv N [] [] S A σ -> st_clients σ !! c = Some t ->
  good (free_client_prepared_statements c) (fun _ σ' => Pinv N [] [] S (no_names c) σ' /\
    st_clients σ' !! c = Some [] /\ st_servers σ' = st_servers σ) σ.
Proof using HN.
  intros HI Ec. unfold free_client_prepared_statements. eapply bind_client; [done|].
  by apply (free_client_loop_good S c t A).
Qed.

Lemma client_free_good S c t σ :
  Pinv N [] [] S A σ -> st_clients σ !! c = Some t ->
  good (client_free c) (fun _ => Pinv N [] [] S (no_names c)) σ.
Proof using HN.
  intros HI Ec. unfold client_free. eapply good_bind; [by apply (free_client_good S c t)|].
  cbv beta. intros [] σ1 (HI1 & Ec1 & _). eexists _, _. split; [done|]. cbv beta. set (σ' := mkPStore _ _ _ _ _ _).
  assert (E : all_refs σ' ++ [] ≡ₚ all_refs σ1 ++ []).
  { unfold all_refs, σ'. cbn [st_clients st_servers]. by rewrite (refs_take client_refs _ _ _ Ec1). }
  pose proof (pi_abs _ _ _ _ _ _ HI1) as Habs.
  destruct HI1. split; unfold σ'; cbn [st_heap st_prepared_statements st_next_unique_query_id st_clients st_servers];
    auto; fold σ'.
  - by rewrite E.
  - intros a. rewrite E. auto.
  - intros a ps Ha. rewrite E. auto.
  - intros a. rewrite E. auto.
  - intros c' t' [_ ?]%lookup_delete_Some. eauto.
  - intros c' n. rewrite <- Habs. unfold bindings, σ'. cbn. rewrite lookup_delete. case_decide; [|done].
    subst. by rewrite Ec1.
Qed.
End Release.
