(* ===== verification/Contract.v ===== *)
(** * Prepared statements over whole runs

    [preach] are the runs of any number of clients and servers through the
    operations of Prepare.v, with the meaning of the clients' names beside
    them.  The theorems say that use counts are exact and operations never
    touch a freed statement, that a Bind acts on the client's own query, that
    a server's table stays within max_prepared_statements, and what undoing
    requests after an error does: it restores the table but for statements
    parsed and closed again among the undone requests.  The runs go on only
    after operations that found the memory they needed; what a Parse leaves
    behind that did not is the subject of [parse_oom_leaves_freed_entries]. *)

From S2P Require Import Prelude Refs Protocol PktBuf PoolSpec World Prepare Statements Transparent.
From stdpp Require Import base option countable gmap list strings.
#[local] Open Scope Z_scope.

(** ** With memory to spare nothing fails *)
Section Yields.
Context {St : Type}.

Definition yields {B} (m : SM St B) (P : B -> Prop) : Prop :=
  forall σ b σ', m σ = Ok (b, σ') -> P b.

Lemma yields_bind {B C} (m : SM St B) (k : B -> SM St C) P Q :
  yields m P -> (forall b, P b -> yields (k b) Q) -> yields (m ≫= k) Q.
Proof. intros Hm Hk σ c σ'' (b & σ' & E & E')%SM_bind_ok. by eapply Hk; [eapply Hm|]. Qed.

Lemma yields_ret {B} (b : B) (P : B -> Prop) : P b -> yields (mret b) P.
Proof. intros HP σ b' σ' [= <- <-]. done. Qed.

Lemma yields_any {B} (m : SM St B) : yields m (fun _ => True).
Proof. done. Qed.
End Yields.

Lemma allocate_yields mem : (forall n, mem n = true) -> yields (allocate mem) (fun b => b = true).
Proof. intros Hmem σ b σ' [= <- <-]. apply Hmem. Qed.

Create HintDb yields discriminated.
#[export] Hint Resolve allocate_yields : yields.

(** Follows the code: an operation of the database gives its result, any other
    gives no information. *)
Ltac yields_solve :=
  repeat match goal with
  | |- forall _, _ => intro
  | H : ?b = true |- context [negb ?b] => rewrite H; cbn [negb]
  | H : is_Some ?o |- context [match ?o with _ => _ end] => destruct H as [? ->]
  | |- yields (mret _) _ => apply yields_ret
  | |- yields (mbind _ _) _ =>
      eapply yields_bind; [first [solve [eauto with yields nocore] | apply yields_any]|]; cbv beta
  | |- yields (match ?x with _ => _ end) _ => destruct x eqn:?
  | |- yields (if ?x then _ else _) _ => destruct x eqn:?
  end; subst; try done; eauto with yields nocore.

Section Enough.
Context (mem : nat -> bool) (cf_max_prepared_statements : Z) (Hmem : forall n, mem n = true).

#[local] Hint Extern 0 (forall n, mem n = true) => exact Hmem : yields.

Lemma queue_extra_yields s t : yields (queue_extra mem s t) (fun b => b = true).
Proof using Hmem. unfold queue_extra. yields_solve. Qed.

Lemma queue_packet_yields s m : yields (queue_packet mem s m) (fun b => b = true).
Proof using Hmem. unfold queue_packet. yields_solve. Qed.

Lemma add_statement_yields s e : yields (add_prepared_statement mem s e) (fun b => b = true).
Proof using Hmem. unfold add_prepared_statement. yields_solve. Qed.

Lemma fake_response_yields s t : yields (queue_fake_response mem s t) (fun b => b = true).
Proof using Hmem.
  unfold queue_fake_response. case_bool_decide; [apply queue_extra_yields|].
  case_bool_decide; [apply queue_extra_yields|done].
Qed.

#[local] Hint Resolve queue_extra_yields queue_packet_yields add_statement_yields fake_response_yields : yields.

Lemma add_outstanding_yields s t act : yields (add_outstanding_request mem s t act) (fun b => b = true).
Proof using Hmem. unfold add_outstanding_request. yields_solve. Qed.

#[local] Hint Resolve add_outstanding_yields : yields.

Lemma evict_yields s l : yields (evict_statements mem cf_max_prepared_statements s l) (fun b => b = true).
Proof using Hmem. induction l as [|e l IH]; cbn [evict_statements]; yields_solve. Qed.

#[local] Hint Resolve evict_yields : yields.

Lemma register_yields s e :
  yields (register_prepared_statement mem cf_max_prepared_statements s e) (fun b => b = true).
Proof using Hmem. unfold register_prepared_statement. yields_solve. Qed.

Lemma create_server_yields a : yields (create_server_prepared_statement mem a) is_Some.
Proof using Hmem. unfold create_server_prepared_statement. yields_solve. Qed.

Lemma create_client_yields n a : yields (create_client_prepared_statement mem n a) is_Some.
Proof using Hmem. unfold create_client_prepared_statement. yields_solve. Qed.

Lemma get_yields q : yields (get_prepared_statement mem q) is_Some.
Proof using Hmem.
  intros σ b σ'. unfold get_prepared_statement, new_prepared_statement, create_prepared_statement, allocate,
    mbind, SM_bind. destruct (_ !! q); [by intros [= <- <-]|]. rewrite Hmem. cbn -[fresh].
  rewrite Hmem. cbn -[fresh]. intros E. injection E as <- <-. by eexists.
Qed.

#[local] Hint Resolve register_yields create_server_yields create_client_yields get_yields : yields.

Lemma ensure_yields s a :
  yields (ensure_statement_is_prepared_on_server mem cf_max_prepared_statements s a) (fun b => b = true).
Proof using Hmem. unfold ensure_statement_is_prepared_on_server. yields_solve. Qed.

#[local] Hint Resolve ensure_yields : yields.

Lemma parse_known_yields c s a found :
  yields (parse_known mem cf_max_prepared_statements c s a found) (fun r => r <> H_oom).
Proof using Hmem. unfold parse_known, parse_on_server. yields_solve. Qed.

#[local] Hint Resolve parse_known_yields : yields.

Lemma parse_yields c s pp :
  yields (handle_parse_command mem cf_max_prepared_statements c s pp) (fun r => r <> H_oom).
Proof using Hmem. unfold handle_parse_command. yields_solve. Qed.

Lemma bind_yields c s bp :
  yields (handle_bind_command mem cf_max_prepared_statements c s bp) (fun r => r <> H_oom).
Proof using Hmem. unfold handle_bind_command. yields_solve. Qed.

Lemma describe_yields c s name :
  yields (handle_describe_command mem cf_max_prepared_statements c s (Some (83, name)))
    (fun r => r <> H_oom /\ r <> H_false).
Proof using Hmem. unfold handle_describe_command. yields_solve. Qed.

Lemma clear_loop_yields s types l : yields (clear_requests_loop mem s types l) (fun b => b = true).
Proof using Hmem.
  induction l as [|r l IH]; cbn [clear_requests_loop]; [by apply yields_ret|].
  eapply yields_bind with (P := fun b => b = true); [yields_solve|]. intros b ->. cbn [negb]. yields_solve.
Qed.

Lemma clear_yields s types : yields (clear_outstanding_requests_until mem s types) (fun b => b = true).
Proof using Hmem. eapply yields_bind; [apply yields_any|]. intros v _. apply clear_loop_yields. Qed.
End Enough.

(** ** Runs *)

Definition empty_store : PStore := mkPStore ∅ ∅ 0 ∅ ∅ 0.
Definition fresh_server : PServer := mkPServer [] [] [] [] false true false.

(** Room for one more operation: use counts and ids do not wrap. *)
Definition roomy (σ : PStore) : Prop :=
  zlen (all_refs σ) + 2 <= 2 ^ 32 /\ st_next_unique_query_id σ + 1 < 2 ^ 64.

(** The server's side of the pair was written out, as far as [extra] shows. *)
Definition flushed (extra : list Z) (empty : bool) (v : PServer) : PServer :=
  mkPServer (pv_statements v) (pv_requests v) (pv_sent v) extra (pv_queue_after v) empty (pv_freed_entry v).

Section Runs.
Context (mem : nat -> bool) (cf_max_prepared_statements : Z).

(** [preach σ S A]: a run leads to [σ]; [S] are the servers on which no request
    was undone and no table dropped, [A] is what each client's names mean. *)
Inductive preach : PStore -> gset positive -> (positive -> list Z -> option (list Z)) -> Prop :=
| pr_init : preach empty_store ∅ (fun _ _ => None)
| pr_client σ S A c :
    preach σ S A -> st_clients σ !! c = None -> preach (set_client c [] σ) S A
| pr_server σ S A s :
    preach σ S A -> st_servers σ !! s = None -> preach (set_server s fresh_server σ) (S ∪ {[s]}) A
| pr_parse σ S A c s name q σ' :
    preach σ S A -> roomy σ -> is_Some (st_clients σ !! c) -> is_Some (st_servers σ !! s) ->
    handle_parse_command mem cf_max_prepared_statements c s (Some (name, q)) σ = Ok (H_true, σ') ->
    preach σ' S (bind_name A c name (Some q))
| pr_bind σ S A c s bp σ' :
    preach σ S A -> roomy σ -> is_Some (st_clients σ !! c) -> is_Some (st_servers σ !! s) ->
    handle_bind_command mem cf_max_prepared_statements c s (Some bp) σ = Ok (H_true, σ') ->
    preach σ' S A
| pr_describe σ S A c s name σ' :
    preach σ S A -> roomy σ -> is_Some (st_clients σ !! c) -> is_Some (st_servers σ !! s) ->
    handle_describe_command mem cf_max_prepared_statements c s (Some (83, name)) σ = Ok (H_true, σ') ->
    preach σ' S A
| pr_close σ S A c link sent name σ' :
    preach σ S A -> roomy σ -> is_Some (st_clients σ !! c) ->
    (forall s, link = Some s -> is_Some (st_servers σ !! s)) ->
    handle_close_statement_command mem c link sent name σ = Ok (true, σ') ->
    preach σ' S (bind_name A c name None)
| pr_forward σ S A s type σ' :
    preach σ S A -> is_Some (st_servers σ !! s) ->
    add_outstanding_request mem s type RA_FORWARD σ = Ok (true, σ') -> preach σ' S A
| pr_answer σ S A s types r σ' :
    preach σ S A -> roomy σ -> is_Some (st_servers σ !! s) ->
    pop_outstanding_request s types σ = Ok (r, σ') -> preach σ' S A
| pr_fakes σ S A s σ' :
    preach σ S A -> is_Some (st_servers σ !! s) ->
    send_pending_fake_responses mem s σ = Ok (true, σ') -> preach σ' S A
| pr_flush σ S A s v extra empty :
    preach σ S A -> st_servers σ !! s = Some v -> preach (set_server s (flushed extra empty v) σ) S A
| pr_error σ S A s types σ' :
    preach σ S A -> roomy σ -> is_Some (st_servers σ !! s) ->
    clear_outstanding_requests_until mem s types σ = Ok (true, σ') -> preach σ' (S ∖ {[s]}) A
| pr_reset_server σ S A s σ' :
    preach σ S A -> roomy σ -> is_Some (st_servers σ !! s) ->
    free_server_prepared_statements s σ = Ok (tt, σ') -> preach σ' (S ∖ {[s]}) A
| pr_reset_client σ S A c σ' :
    preach σ S A -> roomy σ -> is_Some (st_clients σ !! c) ->
    free_client_prepared_statements c σ = Ok (tt, σ') -> preach σ' S (no_names A c)
| pr_server_gone σ S A s σ' :
    preach σ S A -> roomy σ -> is_Some (st_servers σ !! s) ->
    server_free s σ = Ok (tt, σ') -> preach σ' (S ∖ {[s]}) A
| pr_client_gone σ S A c σ' :
    preach σ S A -> roomy σ -> is_Some (st_clients σ !! c) ->
    client_free c σ = Ok (tt, σ') -> preach σ' S (no_names A c).
End Runs.

Lemma pinv_init : Pinv 0 [] [] ∅ (fun _ _ => None) empty_store.
Proof.
  split; unfold all_refs; cbn [empty_store st_clients st_servers st_heap st_prepared_statements
    st_next_unique_query_id]; rewrite ?map_to_list_empty; cbn; try done.
  - intros a Ha. set_solver.
  - intros a [ps Ha]. by rewrite lookup_empty in Ha.
  - intros q a. rewrite lookup_empty. split; [done|]. intros [id E]. unfold text in E. by rewrite lookup_empty in E.
Qed.

Lemma pinv_new_client N S A σ c :
  Pinv N [] [] S A σ -> st_clients σ !! c = None -> Pinv N [] [] S A (set_client c [] σ).
Proof.
  intros HI Ec. assert (E : all_refs (set_client c [] σ) ≡ₚ all_refs σ).
  { unfold all_refs. cbn [set_client st_clients st_servers]. by rewrite (refs_new client_refs _ _ _ Ec). }
  pose proof (pi_abs _ _ _ _ _ _ HI) as Habs.
  destruct HI. split; cbn [set_client st_heap st_prepared_statements st_next_unique_query_id st_clients
    st_servers]; auto; try (intros; rewrite E in *; eauto; fail).
  - intros c' t. rewrite lookup_insert. case_decide; [intros [= <-]; constructor|eauto].
  - intros c' n. rewrite <- Habs. unfold bindings. cbn [set_client st_clients st_heap].
    rewrite lookup_insert. case_decide; [subst; by rewrite Ec|done].
Qed.

Lemma fresh_server_synced h : synced h fresh_server.
Proof.
  split; [split; [constructor|by exists [], []]|]. exists ∅. split; [done|]. intros n q. rewrite lookup_empty. split; [done|].
  intros (e & He & _). by apply not_elem_of_nil in He.
Qed.

Lemma pinv_new_server N S A σ s :
  Pinv N [] [] S A σ -> st_servers σ !! s = None ->
  Pinv N [] [] (S ∪ {[s]}) A (set_server s fresh_server σ).
Proof.
  intros HI Es. assert (E : all_refs (set_server s fresh_server σ) ≡ₚ all_refs σ).
  { unfold all_refs. cbn [set_server st_clients st_servers]. by rewrite (refs_new server_refs _ _ _ Es). }
  destruct HI. split; cbn [set_server st_heap st_prepared_statements st_next_unique_query_id st_clients
    st_servers]; auto; try (intros; rewrite E in *; eauto; fail).
  - intros s' v. rewrite lookup_insert. case_decide; [intros [= <-]; split_and!; constructor|eauto].
  - intros s' v. rewrite lookup_insert. case_decide; [intros [= <-] _; apply fresh_server_synced|].
    intros Ev [?| <-%elem_of_singleton]%elem_of_union; [eauto|done].
Qed.

Lemma pinv_tight N S A σ : Pinv N [] [] S A σ -> Pinv (zlen (all_refs σ)) [] [] S A σ.
Proof. intros []. split; auto. rewrite app_nil_r. lia. Qed.

Section Reached.
Context (mem : nat -> bool) (cf_max_prepared_statements : Z)
  (Hmax : 1 <= u32 cf_max_prepared_statements).

Lemma preach_inv σ S A :
  preach mem cf_max_prepared_statements σ S A -> Pinv (zlen (all_refs σ)) [] [] S A σ.
Proof using Hmax.
  induction 1 as [|????? HI|????? HI|???????? _ HI [? ?] [? ?] [? ?] E|??????? _ HI [? ?] [? ?] [? ?] E
    |??????? _ HI [? ?] [? ?] [? ?] E|???????? _ HI [? ?] [? ?] ? E|?????? _ HI [v ?] E|??????? _ HI [? ?] [? ?] E
    |????? _ HI [? ?] E|??????? _ HI|?????? _ HI [? ?] [? ?] E|????? _ HI [? ?] [? ?] E|????? _ HI [? ?] [? ?] E
    |????? _ HI [? ?] [? ?] E|????? _ HI [? ?] [? ?] E]; eapply pinv_tight.
  - apply pinv_init.
  - by apply pinv_new_client.
  - by apply pinv_new_server.
  - eapply good_run in E; [|eapply parse_good; eauto]. by destruct E as [? _].
  - eapply good_run in E; [|eapply bind_good; eauto]. destruct E as [(_ & ? & _)|[[[? ?] _]|[_ [?|?]]]]; done.
  - eapply good_run in E; [|eapply describe_good; eauto]. destruct E as [(_ & ? & _)|[[[? ?] _]|[_ [?|?]]]]; done.
  - assert (zlen (all_refs σ) <= 2 ^ 32) by lia. eapply good_run in E; [|eapply close_good; eauto]. by apply E.
  - eapply good_run in E; [|eapply add_request_good; eauto; done]. cbn [moves] in E.
    destruct (pi_server _ _ _ _ _ _ HI _ v ltac:(done)) as (_ & Hf & Hfr).
    destruct (put_request_ok type RA_FORWARD v Hf) as (H1 & H2 & H3); [done|]. by eapply pinv_quiet.
  - assert (zlen (all_refs σ) <= 2 ^ 32) by lia. eapply good_run in E; [|eapply pop_good; eauto]. by destruct E as [? _].
  - eapply good_run in E; [|eapply fakes_good; eauto]. by destruct (E eq_refl) as [? _].
  - destruct (pi_server _ _ _ _ _ _ HI s v ltac:(done)) as (_ & Hf & Hfr).
    eapply (pinv_quiet _ _ _ _ _ σ _ s v (flushed extra empty v)); try done.
  - assert (zlen (all_refs σ) <= 2 ^ 32) by lia. eapply good_run in E; [|eapply clear_good; eauto]. by destruct (E eq_refl) as (q & ? & _).
  - assert (zlen (all_refs σ) <= 2 ^ 32) by lia. eapply good_run in E; [|eapply free_server_good; eauto]. by destruct E as [? _].
  - assert (zlen (all_refs σ) <= 2 ^ 32) by lia. eapply good_run in E; [|eapply free_client_good; eauto]. by destruct E as [? _].
  - assert (zlen (all_refs σ) <= 2 ^ 32) by lia. eapply good_run in E; [|eapply server_free_good; eauto]. exact E.
  - assert (zlen (all_refs σ) <= 2 ^ 32) by lia. eapply good_run in E; [|eapply client_free_good; eauto]. exact E.
Qed.
End Reached.

(** ** A small run, for the examples

    One client and one server, enough memory, room for one statement on the
    server: the client prepares one statement, then another. *)
Definition plenty : nat -> bool := fun _ => true.

Definition outcome {B} (d : PStore) (m : SM PStore B) (σ : PStore) : PStore :=
  match m σ with Ok (_, σ') => σ' | _ => d end.

Definition toy_name (n : Z) : list Z := [115; n].
Definition toy_query (n : Z) : list Z := [81; n; 0; 0; 0].

Definition toy_start : PStore := set_server 1 fresh_server (set_client 1 [] empty_store).
Definition toy_parse (n : Z) : SM PStore handled :=
  handle_parse_command plenty 1 1 1 (Some (toy_name n, toy_query n)).
Definition toy_one : PStore := outcome empty_store (toy_parse 1) toy_start.
Definition toy_two : PStore := outcome empty_store (toy_parse 2) toy_one.

Definition toy_sync : PStore :=
  outcome empty_store (add_outstanding_request plenty 1 PqMsg_Sync RA_FORWARD) toy_two.

(** The server reports an error for the first Parse and skips to the Sync. *)
Definition toy_failed : PStore :=
  outcome empty_store (clear_outstanding_requests_until plenty 1 [PqMsg_Sync]) toy_sync.

Definition toy_names : positive -> list Z -> option (list Z) :=
  bind_name (bind_name (fun _ _ => None) 1 (toy_name 1) (Some (toy_query 1))) 1 (toy_name 2)
    (Some (toy_query 2)).

Lemma toy_roomy : roomy toy_start /\ roomy toy_one /\ roomy toy_two /\ roomy toy_sync /\ roomy toy_failed.
Proof. unfold roomy. repeat split; vm_compute; congruence. Qed.

Lemma toy_one_runs :
  handle_parse_command plenty 1 1 1 (Some (toy_name 1, toy_query 1)) toy_start = Ok (H_true, toy_one).
Proof. by vm_compute. Qed.

Lemma toy_two_runs :
  handle_parse_command plenty 1 1 1 (Some (toy_name 2, toy_query 2)) toy_one = Ok (H_true, toy_two).
Proof. by vm_compute. Qed.

Lemma toy_sync_runs : add_outstanding_request plenty 1 PqMsg_Sync RA_FORWARD toy_two = Ok (true, toy_sync).
Proof. by vm_compute. Qed.

Lemma toy_failed_runs :
  clear_outstanding_requests_until plenty 1 [PqMsg_Sync] toy_sync = Ok (true, toy_failed).
Proof. by vm_compute. Qed.

Lemma toy_sockets :
  is_Some (st_clients toy_start !! 1%positive) /\ is_Some (st_servers toy_start !! 1%positive) /\
  is_Some (st_clients toy_one !! 1%positive) /\ is_Some (st_servers toy_one !! 1%positive) /\
  is_Some (st_clients toy_two !! 1%positive) /\ is_Some (st_servers toy_two !! 1%positive) /\
  is_Some (st_clients toy_sync !! 1%positive) /\ is_Some (st_servers toy_sync !! 1%positive) /\
  is_Some (st_clients toy_failed !! 1%positive) /\ is_Some (st_servers toy_failed !! 1%positive).
Proof. split_and!; vm_compute; by eexists. Qed.

Lemma toy_start_reached : preach plenty 1 toy_start (∅ ∪ {[1%positive]}) (fun _ _ => None).
Proof.
  apply (pr_server _ _ (set_client 1 [] empty_store) ∅); [|done].
  apply (pr_client _ _ empty_store ∅); [apply pr_init|done].
Qed.

#[local] Opaque toy_start toy_one toy_two toy_sync toy_failed.

Lemma toy_one_reached :
  preach plenty 1 toy_one (∅ ∪ {[1%positive]}) (bind_name (fun _ _ => None) 1 (toy_name 1) (Some (toy_query 1))).
Proof.
  destruct toy_roomy as (R0 & R1 & _). destruct toy_sockets as (C0 & V0 & _).
  exact (pr_parse plenty 1 toy_start _ _ 1%positive 1%positive (toy_name 1) (toy_query 1) toy_one
    toy_start_reached R0 C0 V0 toy_one_runs).
Qed.

Lemma toy_two_reached : preach plenty 1 toy_two (∅ ∪ {[1%positive]}) toy_names.
Proof.
  destruct toy_roomy as (R0 & R1 & _). destruct toy_sockets as (C0 & V0 & C1 & V1 & _).
  exact (pr_parse plenty 1 toy_one _ _ 1%positive 1%positive (toy_name 2) (toy_query 2) toy_two
    toy_one_reached R1 C1 V1 toy_two_runs).
Qed.

Lemma toy_sync_reached : preach plenty 1 toy_sync (∅ ∪ {[1%positive]}) toy_names.
Proof.
  destruct toy_sockets as (_ & _ & _ & _ & _ & V2 & _).
  exact (pr_forward plenty 1 _ _ _ 1%positive _ _ toy_two_reached V2 toy_sync_runs).
Qed.

Lemma toy_failed_reached :
  preach plenty 1 toy_failed ((∅ ∪ {[1%positive]}) ∖ {[1%positive]}) toy_names.
Proof.
  destruct toy_roomy as (_ & _ & _ & R3 & _). destruct toy_sockets as (_ & _ & _ & _ & _ & _ & _ & V3 & _).
  exact (pr_error plenty 1 _ _ _ 1%positive _ _ toy_sync_reached R3 V3 toy_failed_runs).
Qed.

(** ** The properties *)

Section Properties.
Context (mem : nat -> bool) (cf_max_prepared_statements : Z) (σ : PStore) (S : gset positive)
  (A : positive -> list Z -> option (list Z)).

(** C23: after any run, a shared statement's use count is the number of table
    entries and unanswered Close requests that point to it; it is never zero,
    no entry points to a freed statement, and the table of all statements has
    exactly the statements in memory, each under its query. *)
Theorem prepared_use_counts_exact :
  1 <= u32 cf_max_prepared_statements -> preach mem cf_max_prepared_statements σ S A ->
  zlen (all_refs σ) < 2 ^ 32 ->
  (forall a ps, st_heap σ !! a = Some ps ->
     ps_use_count ps = uses a (all_refs σ) /\ 0 < ps_use_count ps) /\
  (forall a, a ∈ all_refs σ -> is_Some (st_heap σ !! a)) /\
  (forall q a, st_prepared_statements σ !! q = Some a <->
     exists ps, st_heap σ !! a = Some ps /\ ps_query_and_parameters ps = q).
Proof using.
  intros Hmax Hr%preach_inv Hfew; [|done]. split_and!.
  - intros a ps Ha. rewrite (pi_count _ _ _ _ _ _ Hr a ps Ha), app_nil_r.
    pose proof (uses_le a (all_refs σ)). pose proof (uses_nonneg a (all_refs σ)).
    unfold u32. rewrite Z.mod_small by lia. split; [done|]. apply uses_pos.
    destruct (pi_used _ _ _ _ _ _ Hr a) as [Hu|Hu]; [eauto|by rewrite app_nil_r in Hu|by apply not_elem_of_nil in Hu].
  - intros a Ha. apply (pi_live _ _ _ _ _ _ Hr). by rewrite app_nil_r.
  - intros q a. rewrite (pi_hash _ _ _ _ _ _ Hr). split.
    + intros [id E]. apply text_inv in E as (ps & ? & _ & ?). eauto.
    + intros (ps & Ha & <-). eexists. by apply text_some.
Qed.

Definition returns {B} (m : SM PStore B) : Prop := exists r σ', m σ = Ok (r, σ').

Lemma good_returns {B} (m : SM PStore B) Q : good m Q σ -> returns m.
Proof using. intros (r & σ' & E & _). by exists r, σ'. Qed.

(** C24: after any run in which memory sufficed, every operation on a connected
    client and server comes back, also when allocations fail in it: none
    follows a pointer to a freed statement or table entry, fails an assertion
    or stops the process.  Nothing is said about what follows an operation
    that ran out of memory; after a Parse it can be a read of freed memory
    ([parse_oom_leaves_freed_entries]). *)
Theorem prepared_operations_return (c s : positive) :
  1 <= u32 cf_max_prepared_statements -> preach mem cf_max_prepared_statements σ S A -> roomy σ ->
  is_Some (st_clients σ !! c) -> is_Some (st_servers σ !! s) ->
  (forall name q, returns (handle_parse_command mem cf_max_prepared_statements c s (Some (name, q)))) /\
  (forall bp, returns (handle_bind_command mem cf_max_prepared_statements c s (Some bp))) /\
  (forall name, returns (handle_describe_command mem cf_max_prepared_statements c s (Some (83, name)))) /\
  (forall sent name, returns (handle_close_statement_command mem c (Some s) sent name)) /\
  (forall types, returns (pop_outstanding_request s types)) /\
  (forall types, returns (clear_outstanding_requests_until mem s types)) /\
  returns (send_pending_fake_responses mem s) /\
  returns (server_free s) /\ returns (client_free c).
Proof using.
  intros Hmax Hr%preach_inv [Hn1 Hn2] [t Ec] [v Es]; [|done].
  assert (HN : zlen (all_refs σ) <= 2 ^ 32) by lia.
  split_and!; intros; eapply good_returns.
  - by eapply parse_good.
  - by eapply bind_good.
  - by eapply describe_good.
  - eapply close_good; [done..|]. by intros ? [= <-].
  - by eapply pop_good.
  - by eapply clear_good.
  - by eapply fakes_good.
  - by eapply server_free_good.
  - by eapply client_free_good.
Qed.

(** What a Bind or Describe of [name] does, seen from the client: without
    such a name the client is disconnected; otherwise the packet [mk n] is
    sent (unless memory runs out) for a name [n] of the pooler's, and when the
    server gets to it, it has the client's query under [n]. *)
Definition acts_on_own_query (c s : positive) (name : list Z) (mk : list Z -> ToServer)
    (m : SM PStore handled) : Prop :=
  exists r σ', m σ = Ok (r, σ') /\
    match A c name with
    | None => (exists why, r = H_disconnect_client why) /\ σ' = σ
    | Some q =>
        (r = H_true /\ exists v' ms id P, st_servers σ' !! s = Some v' /\
           pv_sent v' = ms ++ [mk (ps_stmt_name id)] /\
           run_all ms = Some P /\ P !! ps_stmt_name id = Some q) \/
        ((r = H_oom \/ r = H_false) /\ ~ (forall n, mem n = true))
    end.

Lemma use_result_acts c s type v name mk failed (m : SM PStore handled) N :
  good m (use_result cf_max_prepared_statements N S A c s type v name mk failed σ) σ -> s ∈ S ->
  failed = H_oom \/ failed = H_false ->
  ((forall n, mem n = true) -> yields m (fun r => r <> H_oom /\ r <> failed)) ->
  acts_on_own_query c s name mk m.
Proof using.
  intros (r & σ' & E & Hres) Hs Hf Hy. exists r, σ'. split; [done|].
  destruct Hres as [(-> & _ & _ & q & -> & v' & ms & n & Es & Em & HP)|[(Hw & -> & ->)|[[q ->] Ho]]]; [|done|].
  - left. split; [done|]. destruct (HP Hs) as (P & ? & ?). by exists v', ms, n, P.
  - assert (Hno : ~ (forall n, mem n = true)).
    { intros Hm. destruct (Hy Hm σ r σ' E) as [? ?]. destruct Ho; congruence. }
    right. split; [|done]. destruct Ho as [-> | ->]; auto.
Qed.

(** C6: to a client its statement names are its own.  After any run, and on a
    server where no request was undone and no table dropped since it was
    connected, a Bind or Describe of a name the
    client has prepared reaches the server with the name of a statement that
    by then has exactly the client's query, prepared there first if need be;
    no packet sent makes the server complain about a name.  A name the client
    has not prepared gets it disconnected and changes nothing. *)
Theorem statement_names_are_private (c s : positive) :
  1 <= u32 cf_max_prepared_statements -> preach mem cf_max_prepared_statements σ S A -> roomy σ ->
  is_Some (st_clients σ !! c) -> is_Some (st_servers σ !! s) -> s ∈ S ->
  (forall bp, acts_on_own_query c s (bk_name bp) (bind_packet bp)
     (handle_bind_command mem cf_max_prepared_statements c s (Some bp))) /\
  (forall name, acts_on_own_query c s name TS_DescribeStmt
     (handle_describe_command mem cf_max_prepared_statements c s (Some (83, name)))).
Proof using.
  intros Hmax Hr%preach_inv [Hn1 Hn2] [t Ec] [v Es] Hs; [|done]. split; intros.
  - eapply use_result_acts; [by eapply (bind_good mem)|done|by left|].
    intros Hm ? ? ? E. by apply bind_yields in E.
  - eapply use_result_acts; [by eapply (describe_good mem)|done|by right|].
    intros Hm. by apply describe_yields.
Qed.

(** A server's table of prepared statements stays within
    max_prepared_statements: a Parse, Bind or Describe that adds a statement
    closes as many of the oldest ones as it must. *)
Theorem statement_table_bounded (c s : positive) (v : PServer) (σ' : PStore) name q bp :
  1 <= u32 cf_max_prepared_statements -> preach mem cf_max_prepared_statements σ S A -> roomy σ ->
  is_Some (st_clients σ !! c) -> st_servers σ !! s = Some v ->
  zlen (pv_statements v) <= u32 cf_max_prepared_statements ->
  handle_parse_command mem cf_max_prepared_statements c s (Some (name, q)) σ = Ok (H_true, σ') \/
  handle_bind_command mem cf_max_prepared_statements c s (Some bp) σ = Ok (H_true, σ') \/
  handle_describe_command mem cf_max_prepared_statements c s (Some (83, name)) σ = Ok (H_true, σ') ->
  exists v', st_servers σ' !! s = Some v' /\ zlen (pv_statements v') <= u32 cf_max_prepared_statements.
Proof using.
  intros Hmax Hr%preach_inv [Hn1 Hn2] [t Ec] Es Hz E; [|done].
  assert (Hw : exists type, served cf_max_prepared_statements s type v σ').
  { destruct E as [E|[E|E]].
    - eapply good_run in E; [|by eapply parse_good]. destruct E as (_ & _ & ?). eauto.
    - eapply good_run in E; [|by eapply bind_good].
      destruct E as [(_ & _ & ? & _)|[([? ?] & _)|[_ [?|?]]]]; eauto; done.
    - eapply good_run in E; [|by eapply describe_good].
      destruct E as [(_ & _ & ? & _)|[([? ?] & _)|[_ [?|?]]]]; eauto; done. }
  destruct Hw as (type & v' & ? & _ & Hle). eauto.
Qed.

End Properties.

Lemma prepared_use_counts_exact_witness :
  1 <= u32 1 /\ forall a ps, st_heap toy_sync !! a = Some ps -> ps_use_count ps = uses a (all_refs toy_sync).
Proof.
  split; [done|]. intros a ps Ha.
  apply (prepared_use_counts_exact plenty 1 toy_sync (∅ ∪ {[1%positive]}) toy_names); [done|apply toy_sync_reached| |done].
  destruct toy_roomy as (_ & _ & _ & [R _] & _). lia.
Defined.

Lemma prepared_operations_return_witness :
  roomy toy_sync /\ returns toy_sync (clear_outstanding_requests_until plenty 1 [PqMsg_Sync]).
Proof.
  destruct toy_roomy as (_ & _ & _ & R & _).
  destruct toy_sockets as (_ & _ & _ & _ & _ & _ & C & V & _). split; [exact R|].
  apply (prepared_operations_return plenty 1 toy_sync (∅ ∪ {[1%positive]}) toy_names 1 1);
    [done|apply toy_sync_reached|exact R|exact C|exact V].
Defined.

Lemma statement_names_are_private_witness :
  acts_on_own_query plenty toy_sync toy_names 1 1 (toy_name 1) TS_DescribeStmt
    (handle_describe_command plenty 1 1 1 (Some (83, toy_name 1))).
Proof.
  destruct toy_roomy as (_ & _ & _ & R & _).
  destruct toy_sockets as (_ & _ & _ & _ & _ & _ & C & V & _).
  apply (statement_names_are_private plenty 1 toy_sync (∅ ∪ {[1%positive]}) toy_names 1 1);
    [done|apply toy_sync_reached|exact R|exact C|exact V|].
  apply elem_of_union. right. by apply elem_of_singleton.
Defined.

Lemma toy_one_server : st_servers toy_one !! 1%positive = Some
  (mkPServer [mkServerPs 1 1] [mkRequest PqMsg_Parse RA_FORWARD None 1]
     [TS_Parse (ps_stmt_name 1) (toy_query 1)] [] false true false).
Proof. by vm_compute. Qed.

Lemma statement_table_bounded_witness :
  exists v', st_servers toy_two !! 1%positive = Some v' /\ zlen (pv_statements v') <= u32 1.
Proof.
  destruct toy_roomy as (_ & R & _). destruct toy_sockets as (_ & _ & C & V & _).
  refine (statement_table_bounded plenty 1 toy_one (∅ ∪ {[1%positive]}) _ 1 1 _ toy_two (toy_name 2)
    (toy_query 2) (mkBind 0 [] [] []) _ toy_one_reached R C toy_one_server _ (or_introl toy_two_runs));
    [done|by vm_compute].
Defined.

(** ** Undoing requests, one id at a time *)

(** The Parses ([true]) and Closes ([false]) of id [i]. *)
Definition event_of (i : Z) (r : OutstandingRequest) : option bool :=
  '(b, j) ← request_event r; if bool_decide (j = i) then Some b else None.

Definition events (i : Z) (l : list OutstandingRequest) : list bool := omap (event_of i) l.

(** Is [i] on the server after the events, if it was ([x]) or was not before;
    do they make sense: only what is not there is parsed, only what is there
    is closed. *)
Fixpoint after (x : bool) (E : list bool) : bool :=
  match E with [] => x | b :: E => after b E end.

Fixpoint sensible (x : bool) (E : list bool) : bool :=
  match E with
  | [] => true
  | b :: E => bool_decide (x = negb b) && sensible b E
  end.

(** The last of the events is a Close. *)
Definition closed_last (E : list bool) : bool := bool_decide (last E = Some false).

(** The number of entries for id [i]. *)
Definition entries_of (i : Z) (l : list PgServerPreparedStatement) : nat :=
  length (filter (fun e => sp_query_id e = i) l).

(** What [clear_outstanding_requests_until] does to the table, per request. *)
Definition undo (l : list PgServerPreparedStatement) (r : OutstandingRequest) : list PgServerPreparedStatement :=
  match request_event r with
  | Some (true, id) => del_statement id l
  | Some (false, _) => match or_server_ps r with Some e => l ++ [e] | None => l end
  | None => l
  end.

Definition undo_count (n : nat) (b : bool) : nat := if b then pred n else S n.

Lemma entries_of_perm i l l' : l ≡ₚ l' -> entries_of i l = entries_of i l'.
Proof. intros E. unfold entries_of. by rewrite E. Qed.

Lemma entries_of_cons i e l :
  entries_of i (e :: l) = if bool_decide (sp_query_id e = i) then S (entries_of i l) else entries_of i l.
Proof. unfold entries_of. rewrite filter_cons. case_bool_decide; [by rewrite decide_True|by rewrite decide_False]. Qed.

Lemma del_statement_none id l : find_statement id l = None -> del_statement id l = l.
Proof.
  induction l as [|e l IH]; simpl; [done|]. destruct (find_statement id l); [done|]. by case_bool_decide.
Qed.

Lemma entries_of_del i id l :
  entries_of i (del_statement id l) = if bool_decide (id = i) then pred (entries_of i l) else entries_of i l.
Proof.
  destruct (find_statement id l) as [e|] eqn:Ef.
  - rewrite (entries_of_perm i l _ (del_statement_perm _ _ _ Ef)), entries_of_cons.
    destruct (find_statement_in _ _ _ Ef) as [_ ->]. by case_bool_decide.
  - rewrite del_statement_none by done. case_bool_decide; [subst|done].
    apply find_statement_none in Ef. unfold entries_of.
    assert (E : filter (fun e => sp_query_id e = i) l = []); [|by rewrite E].
    induction l as [|e l IH]; [done|]. cbn in Ef. apply not_elem_of_cons in Ef as [? ?].
    rewrite filter_cons, decide_False by congruence. auto.
Qed.

Lemma entries_of_undo i l r :
  entries_of i (undo l r) =
    match event_of i r with Some b => undo_count (entries_of i l) b | None => entries_of i l end.
Proof.
  unfold undo, event_of. destruct (request_event r) as [[[] id]|] eqn:Er; cbn; [| |done].
  - rewrite entries_of_del. by case_bool_decide.
  - unfold request_event in Er. destruct (_ && _); [done|]. destruct (or_server_ps r) as [e|]; [|done].
    destruct (bool_decide _) in Er; [|done]. injection Er as <-.
    rewrite (entries_of_perm i (l ++ [e]) (e :: l)) by (symmetry; apply Permutation_cons_append).
    rewrite entries_of_cons. by case_bool_decide.
Qed.

Lemma entries_of_undo_all i l D :
  entries_of i (foldl undo l D) = foldl undo_count (entries_of i l) (events i D).
Proof.
  revert l. induction D as [|r D IH]; intros l; simpl; [done|]. rewrite IH, entries_of_undo.
  unfold events. simpl. by destruct (event_of i r).
Qed.

Lemma last_after b E : last (b :: E) = Some (after b E).
Proof. revert b. induction E as [|b' E IH]; intros b; [done|]. by rewrite last_cons_cons, IH. Qed.

Lemma undo_from_there n E :
  sensible true E = true -> foldl undo_count n E = if after true E then n else S n.
Proof.
  revert n. induction E as [E IH] using (induction_ltof1 _ (@length bool)); unfold ltof in IH. intros n Hs.
  destruct E as [|[] [|[] E]]; try done. cbn in *. apply IH; [lia|done].
Qed.

(** Undoing sensible events in their own order: an id that was there is there
    again; one that was not is there if its last event is a Close. *)
Lemma undo_counts x E :
  sensible x E = true ->
  foldl undo_count (if after x E then 1%nat else 0%nat) E = if x || closed_last E then 1%nat else 0%nat.
Proof.
  destruct x; intros Hs; [rewrite undo_from_there by done; by destruct (after true E)|].
  destruct E as [|[] E]; [done| |done]. unfold closed_last. rewrite last_after. cbn in *.
  rewrite undo_from_there by done. by destruct (after true E).
Qed.

(** The requests that go, up to and with the first of a given type, and the
    ones that stay. *)
Fixpoint dropped (types : list Z) (l : list OutstandingRequest) : list OutstandingRequest :=
  match l with
  | [] => []
  | r :: l => r :: (if bool_decide (or_type r ∈ types) then [] else dropped types l)
  end.

Fixpoint remaining (types : list Z) (l : list OutstandingRequest) : list OutstandingRequest :=
  match l with
  | [] => []
  | r :: l => if bool_decide (or_type r ∈ types) then l else remaining types l
  end.

Lemma dropped_remaining types l : dropped types l ++ remaining types l = l.
Proof. induction l as [|r l IH]; [done|]. simpl. case_bool_decide; [done|]. simpl. by rewrite IH. Qed.

Section Undo.
Context (mem : nat -> bool) (s : positive).

Lemma mod_server_run f v σ u σ' :
  st_servers σ !! s = Some v -> mod_server s f σ = Ok (u, σ') -> st_servers σ' !! s = Some (f v).
Proof. intros Es. unfold mod_server. rewrite Es. intros [= _ <-]. apply lookup_insert_eq. Qed.

Lemma drop_use_run a σ u σ' : drop_use a σ = Ok (u, σ') -> st_servers σ' = st_servers σ.
Proof. unfold drop_use. destruct (_ !! a); [|done]. case_bool_decide; by intros [= _ <-]. Qed.

Lemma the_table_run v σ σ' : the_table s σ = Ok (v, σ') -> σ' = σ /\ st_servers σ !! s = Some v /\ pv_freed_entry v = false.
Proof. unfold the_table. destruct (st_servers σ !! s) as [v'|]; [|done]. destruct (pv_freed_entry v') eqn:Ef; [done|]. by intros [= <- <-]. Qed.

Lemma unregister_run id v σ u σ' :
  st_servers σ !! s = Some v -> unregister_prepared_statement s id σ = Ok (u, σ') ->
  exists v', st_servers σ' !! s = Some v' /\ pv_statements v' = del_statement id (pv_statements v) /\
    pv_extra_packets v' = pv_extra_packets v.
Proof.
  intros Es E. unfold unregister_prepared_statement in E. apply SM_bind_ok in E as (v1 & σ1 & E1 & E).
  apply the_table_run in E1 as (-> & E1 & _). simplify_eq.
  destruct (find_statement id (pv_statements v)) as [e|] eqn:Ef.
  - apply SM_bind_ok in E as (? & σ2 & E2 & E). apply (mod_server_run _ v) in E2; [|done].
    apply drop_use_run in E. rewrite E. eauto.
  - injection E as _ <-. rewrite del_statement_none by done. eauto.
Qed.

Lemma add_statement_run e v σ σ' :
  st_servers σ !! s = Some v -> add_prepared_statement mem s e σ = Ok (true, σ') ->
  exists v', st_servers σ' !! s = Some v' /\ pv_statements v' = pv_statements v ++ [e] /\
    pv_extra_packets v' = pv_extra_packets v.
Proof.
  intros Es E. pose proof E as E1. unfold add_prepared_statement in E1. apply SM_bind_ok in E1 as (v1 & σ1 & E1 & _).
  apply the_table_run in E1 as (_ & E1 & Ef). simplify_eq.
  eapply good_run in E; [|by apply add_statement_good]. cbn [moves] in E.
  eexists. split; [by apply (at_server_lookup _ _ _ _ E)|done].
Qed.

(** One request: the table is as [undo] says. *)
Lemma clear_request_run r v σ σ' :
  st_servers σ !! s = Some v ->
  (if bool_decide (or_type r = PqMsg_Parse) && bool_decide (0 < or_server_ps_query_id r) then
     unregister_prepared_statement s (or_server_ps_query_id r) ≫= fun _ => mret true
   else
     match or_server_ps r with
     | Some e => if bool_decide (or_type r = PqMsg_Close) then add_prepared_statement mem s e else mret true
     | None => mret true
     end) σ = Ok (true, σ') ->
  exists v', st_servers σ' !! s = Some v' /\ pv_statements v' = undo (pv_statements v) r /\
    pv_extra_packets v' = pv_extra_packets v.
Proof.
  intros Es. unfold undo, request_event. destruct (_ && _).
  - intros (u & σ1 & E1 & E)%SM_bind_ok. injection E as <-. by eapply unregister_run.
  - destruct (or_server_ps r) as [e|]; [|intros [= <-]; eauto].
    case_bool_decide; [|intros [= <-]; eauto]. by apply add_statement_run.
Qed.

Lemma clear_loop_run types l v σ σ' :
  st_servers σ !! s = Some v -> pv_requests v = l -> clear_requests_loop mem s types l σ = Ok (true, σ') ->
  exists v', st_servers σ' !! s = Some v' /\ pv_statements v' = foldl undo (pv_statements v) (dropped types l) /\
    pv_requests v' = remaining types l /\ pv_extra_packets v' = pv_extra_packets v.
Proof.
  revert v σ. induction l as [|r l IH]; intros v σ Es El E; [injection E as <-; eauto|].
  cbn [clear_requests_loop] in E. apply SM_bind_ok in E as (ok & σ1 & E1 & E).
  destruct ok; [|by injection E]. cbn [negb] in E.
  destruct (clear_request_run r v σ σ1 Es E1) as (v1 & Es1 & Ev1 & Ex1).
  apply SM_bind_ok in E as (u & σ2 & E2 & E). apply (mod_server_run _ v1) in E2; [|done].
  cbn [dropped remaining foldl]. rewrite <- Ev1, <- Ex1. case_bool_decide as Ht.
  - injection E as <-. eauto.
  - apply (IH _ _ E2 eq_refl E).
Qed.
End Undo.

(** *** What the server has *)

Definition on_server (P : gmap (list Z) (list Z)) (i : Z) : bool := bool_decide (is_Some (P !! ps_stmt_name i)).

(** What a packet does to one name. *)
Definition name_event (n : list Z) (m : ToServer) : option bool :=
  '(b, k) ← packet_event m; if bool_decide (k = n) then Some b else None.

Definition run_from (P : gmap (list Z) (list Z)) (ms : list ToServer) : option (gmap (list Z) (list Z)) :=
  foldl (fun acc m => acc ≫= fun P => serve P m) (Some P) ms.

Lemma run_from_none ms : foldl (fun acc m => acc ≫= fun P => serve P m) None ms = None.
Proof. by induction ms. Qed.

Lemma run_all_app ms ms' P :
  run_all (ms ++ ms') = Some P -> exists P0, run_all ms = Some P0 /\ run_from P0 ms' = Some P.
Proof.
  unfold run_all, run_from. rewrite foldl_app. destruct (foldl _ (Some ∅) ms) as [P0|]; [eauto|].
  by rewrite run_from_none.
Qed.

(** A server that complains about nothing is asked for sensible things. *)
Lemma run_from_events n ms P P' :
  run_from P ms = Some P' ->
  sensible (bool_decide (is_Some (P !! n))) (omap (name_event n) ms) = true /\
  bool_decide (is_Some (P' !! n)) = after (bool_decide (is_Some (P !! n))) (omap (name_event n) ms).
Proof.
  revert P. induction ms as [|m ms IH]; intros P E; [by injection E as ->|].
  unfold run_from in E. cbn [foldl mbind option_bind] in E.
  destruct (serve P m) as [P1|] eqn:Em; [|by rewrite run_from_none in E]. apply IH in E.
  cbn [omap list_omap]. destruct m as [k q|k|len po k re|k]; cbn [serve] in *.
  - destruct (P !! k) eqn:Ek; [done|]. injection Em as <-.
    change (name_event n (TS_Parse k q)) with (if bool_decide (k = n) then Some true else None).
    destruct (decide (k = n)) as [->|Hk];
      [rewrite (bool_decide_eq_true_2 (n = n)) by done|
       rewrite (bool_decide_eq_false_2 (k = n)) by done; rewrite lookup_insert_ne in E by done; exact E].
    rewrite lookup_insert_eq in E. rewrite Ek. cbn [sensible after].
    rewrite (bool_decide_eq_true_2 (is_Some (Some q))) in E by eauto.
    by rewrite (bool_decide_eq_false_2 (is_Some None)) by (by intros []).
  - destruct (P !! k) as [q|] eqn:Ek; [|done]. injection Em as <-.
    change (name_event n (TS_CloseStmt k)) with (if bool_decide (k = n) then Some false else None).
    destruct (decide (k = n)) as [->|Hk];
      [rewrite (bool_decide_eq_true_2 (n = n)) by done|
       rewrite (bool_decide_eq_false_2 (k = n)) by done; rewrite lookup_delete_ne in E by done; exact E].
    rewrite lookup_delete_eq in E. rewrite Ek. cbn [sensible after].
    rewrite (bool_decide_eq_false_2 (is_Some None)) in E by (by intros []).
    by rewrite (bool_decide_eq_true_2 (is_Some (Some q))) by eauto.
  - destruct (P !! k); [|done]. by injection Em as <-.
  - destruct (P !! k); [|done]. by injection Em as <-.
Qed.

Lemma omap_bind {B C D} (f : B -> option C) (g : C -> option D) (l : list B) :
  omap (fun x => f x ≫= g) l = omap g (omap f l).
Proof.
  induction l as [|x l IH]; [done|].
  change (omap (fun x => f x ≫= g) (x :: l)) with
    (match f x ≫= g with Some y => y :: omap (fun x => f x ≫= g) l | None => omap (fun x => f x ≫= g) l end).
  rewrite IH. cbn [omap list_omap]. by destruct (f x).
Qed.

Lemma events_named i ms l :
  0 <= i < 2 ^ 64 -> Forall (fun r => forall b j, request_event r = Some (b, j) -> 0 <= j < 2 ^ 64) l ->
  omap packet_event ms = requested l -> omap (name_event (ps_stmt_name i)) ms = events i l.
Proof.
  intros Hi Hl E. unfold name_event, events, event_of. rewrite !omap_bind, E. unfold requested. clear E.
  induction Hl as [|r l Hr Hl IH]; [done|]. cbn [omap list_omap].
  destruct (request_event r) as [[b j]|]; [|exact IH]. specialize (Hr b j eq_refl). cbn [fmap list_fmap omap list_omap fst snd].
  cbn [omap list_omap] in IH. rewrite IH. repeat case_bool_decide; try done; [|by subst].
  exfalso. by apply ps_stmt_name_inj in H.
Qed.

Lemma entries_nodup i l :
  NoDup (sp_query_id <$> l) -> entries_of i l = if bool_decide (i ∈ (sp_query_id <$> l)) then 1%nat else 0%nat.
Proof.
  induction l as [|e l IH]; [done|]. intros [Hn Hl]%NoDup_cons. rewrite entries_of_cons, (IH Hl). clear IH Hl.
  rewrite (bool_decide_ext (i ∈ (sp_query_id <$> e :: l)) (sp_query_id e = i \/ i ∈ (sp_query_id <$> l)))
    by (cbn; rewrite elem_of_cons; naive_solver).
  repeat case_bool_decide; naive_solver.
Qed.

(** The table of a server in step with its packets, and the queue. *)
Lemma synced_table N held spare S A σ s v ms0 :
  Pinv N held spare S A σ -> st_servers σ !! s = Some v -> s ∈ S -> handled_so_far v ms0 ->
  exists P0, run_all ms0 = Some P0 /\ forall i, 0 <= i < 2 ^ 64 ->
    sensible (on_server P0 i) (events i (pv_requests v)) = true /\
    entries_of i (pv_statements v) = if after (on_server P0 i) (events i (pv_requests v)) then 1%nat else 0%nat.
Proof.
  intros HI Es Hs (ms1 & Em & Ev). destruct (pi_synced _ _ _ _ _ _ HI s v Es Hs) as ([Hnd _] & P & Hrun & HP).
  pose proof (statement_ids _ _ _ _ _ _ _ _ HI Es) as Hids. rewrite Em in Hrun. apply run_all_app in Hrun as (P0 & Hrun & Hfrom).
  exists P0. split; [done|]. intros i Hi.
  destruct (pi_server _ _ _ _ _ _ HI s v Es) as (He & Hq & _). apply Forall_app in He as [He Heq].
  assert (Hr : Forall (fun r => forall b j, request_event r = Some (b, j) -> 0 <= j < 2 ^ 64) (pv_requests v)).
  { rewrite Forall_forall in Heq. rewrite Forall_forall in Hq. apply Forall_forall. intros r Hr b j Er. destruct (Hq r Hr) as (_ & _ & Hid).
    unfold request_event in Er. destruct (_ && _); [by injection Er as <- <-|].
    destruct (or_server_ps r) as [e|] eqn:Ee; [|done]. destruct (bool_decide _); [|done]. injection Er as <- <-.
    destruct (Heq e) as [q Ht]; [apply list_elem_of_omap; eauto|].
    apply (pi_ids _ _ _ _ _ _ HI) in Ht. pose proof (pi_next _ _ _ _ _ _ HI). lia. }
  rewrite <- (events_named i ms1 _ Hi Hr Ev).
  destruct (run_from_events (ps_stmt_name i) ms1 P0 P Hfrom) as [Hsen Haft]. split; [exact Hsen|].
  unfold on_server. rewrite <- Haft, entries_nodup by done.
  rewrite (bool_decide_ext (i ∈ (sp_query_id <$> pv_statements v)) (is_Some (P !! ps_stmt_name i))); [done|].
  rewrite list_elem_of_fmap. rewrite Forall_forall in He, Hids. split.
  - intros (e & -> & Hin). destruct (He e Hin) as [q Ht]. exists q. apply HP. by exists e.
  - intros [q (e & Hin & En & _)%HP]. exists e. split; [|done]. apply ps_stmt_name_inj; [done|by apply Hids|done].
Qed.

(** ** Bytes on the wire *)

Definition ts_bytes (m : ToServer) : list Z :=
  match m with
  | TS_Parse n q => enc_packet PqMsg_Parse (n ++ [0] ++ q)
  | TS_CloseStmt n => enc_packet PqMsg_Close ([83] ++ n ++ [0])
  | TS_DescribeStmt n => enc_packet PqMsg_Describe ([83] ++ n ++ [0])
  | TS_Bind len portal n rest => [PqMsg_Bind] ++ be32 len ++ portal ++ [0] ++ n ++ [0] ++ rest
  end.

Lemma ps_stmt_name_len id : zlen (ps_stmt_name id) <= 30.
Proof. unfold ps_stmt_name. rewrite zlen_app. pose proof (dec_len id). change (zlen (str "PGBOUNCER_")) with 10. lia. Qed.

Lemma bind_packet_bytes bp id :
  bk_len bp = 1 + 4 + zlen (bk_portal bp ++ [0] ++ bk_name bp ++ [0] ++ bk_rest bp) ->
  bk_len bp < 2 ^ 31 ->
  ts_bytes (bind_packet bp (ps_stmt_name id)) =
    enc_packet PqMsg_Bind (bk_portal bp ++ [0] ++ ps_stmt_name id ++ [0] ++ bk_rest bp).
Proof.
  intros Hlen Hlt. pose proof (ps_stmt_name_len id) as Hn.
  unfold bind_packet, ts_bytes, enc_packet. cbn [bool_decide]. rewrite bool_decide_eq_true_2 by done.
  change (u8 PqMsg_Bind) with PqMsg_Bind. repeat f_equal.
  autorewrite with zlen in *. pose proof (zlen_nonneg (ps_stmt_name id)). pose proof (zlen_nonneg (bk_portal bp)).
  pose proof (zlen_nonneg (bk_name bp)). pose proof (zlen_nonneg (bk_rest bp)).
  unfold s32, u8. rewrite (Z.mod_small (zlen (ps_stmt_name id))) by lia.
  set (d := zlen (bk_name bp) - zlen (ps_stmt_name id)).
  assert (Hd : (let r := d mod 2 ^ 32 in if bool_decide (r < 2 ^ 31) then r else r - 2 ^ 32) = d).
  { cbv zeta. destruct (Z_lt_dec d 0).
    - rewrite <- (Z.mod_add d 1) by lia. rewrite Z.mod_small by lia. rewrite bool_decide_eq_false_2 by lia. lia.
    - rewrite Z.mod_small by lia. by rewrite bool_decide_eq_true_2 by lia. }
  cbv zeta in Hd. rewrite Hd. f_equal. lia.
Qed.

(** The Bind that goes to the server is a well-formed Bind packet with the
    portal and the parameters of the client's packet and the pooler's name
    for the statement; its length field is right. *)
Theorem rewritten_bind_well_formed mem cf_max σ S A (c s : positive) bp σ' :
  1 <= u32 cf_max -> preach mem cf_max σ S A -> roomy σ ->
  is_Some (st_clients σ !! c) -> is_Some (st_servers σ !! s) ->
  bk_len bp = 1 + 4 + zlen (bk_portal bp ++ [0] ++ bk_name bp ++ [0] ++ bk_rest bp) ->
  bk_len bp < 2 ^ 31 ->
  handle_bind_command mem cf_max c s (Some bp) σ = Ok (H_true, σ') ->
  exists v' ms m id, st_servers σ' !! s = Some v' /\ pv_sent v' = ms ++ [m] /\
    ts_bytes m = enc_packet PqMsg_Bind (bk_portal bp ++ [0] ++ ps_stmt_name id ++ [0] ++ bk_rest bp).
Proof.
  intros Hmax Hr%preach_inv [Hn1 Hn2] [t Ec] [v Es] Hlen Hlt E; [|done].
  eapply good_run in E; [|by eapply bind_good].
  destruct E as [(_ & _ & _ & q & _ & v' & ms & id & Ev & Em & _)|[([? ?] & _)|[_ [?|?]]]]; try done.
  exists v', ms, (bind_packet bp (ps_stmt_name id)), id. split_and!; [done..|]. by apply bind_packet_bytes.
Qed.

Definition toy_bind : BindPacket := mkBind 14 [] (toy_name 1) [0; 0; 0; 0; 0].
Definition toy_bound : PStore := outcome empty_store (handle_bind_command plenty 1 1 1 (Some toy_bind)) toy_sync.

Lemma toy_bound_runs : handle_bind_command plenty 1 1 1 (Some toy_bind) toy_sync = Ok (H_true, toy_bound).
Proof. by vm_compute. Qed.

#[local] Opaque toy_bound.

Lemma rewritten_bind_well_formed_witness :
  exists v' ms m id, st_servers toy_bound !! 1%positive = Some v' /\ pv_sent v' = ms ++ [m] /\
    ts_bytes m = enc_packet PqMsg_Bind ([] ++ [0] ++ ps_stmt_name id ++ [0] ++ [0; 0; 0; 0; 0]).
Proof.
  destruct toy_roomy as (_ & _ & _ & R & _).
  destruct toy_sockets as (_ & _ & _ & _ & _ & _ & C & V & _).
  refine (rewritten_bind_well_formed plenty 1 toy_sync (∅ ∪ {[1%positive]}) toy_names 1 1 toy_bind toy_bound
    _ toy_sync_reached R C V _ _ toy_bound_runs); by vm_compute.
Defined.

(** ** What goes wrong after errors *)

(** C37: a client that prepares a statement gets an error from the server, and
    the name stays taken all the same: preparing another query under it, as
    the protocol allows, gets the client disconnected. *)
Theorem failed_parse_keeps_name mem cf_max σ S A (c s : positive) name q q' types σ1 σ2 :
  1 <= u32 cf_max -> preach mem cf_max σ S A -> roomy σ -> roomy σ1 -> roomy σ2 ->
  is_Some (st_clients σ !! c) -> is_Some (st_servers σ !! s) ->
  is_Some (st_clients σ2 !! c) -> is_Some (st_servers σ1 !! s) -> is_Some (st_servers σ2 !! s) ->
  handle_parse_command mem cf_max c s (Some (name, q)) σ = Ok (H_true, σ1) ->
  clear_outstanding_requests_until mem s types σ1 = Ok (true, σ2) ->
  exists why, handle_parse_command mem cf_max c s (Some (name, q')) σ2 = Ok (H_disconnect_client why, σ2).
Proof.
  intros Hmax Hr R R1 [R2 R2'] C V [t C2] V1 [v V2] E1 E2.
  pose proof (pr_parse _ _ _ _ _ _ _ _ _ _ Hr R C V E1) as H1.
  pose proof (pr_error _ _ _ _ _ _ _ _ H1 R1 V1 E2) as H2. apply preach_inv in H2; [|done].
  destruct (parse_good mem cf_max _ _ _ c s t v name q' σ2 H2 R2' C2 V2) as (r & σ3 & E & Hres).
  assert (EA : bind_name A c name (Some q) c name = Some q).
  { unfold bind_name. by rewrite !decide_True. }
  destruct r as [| |why|]; cbn [parse_result] in Hres.
  - destruct Hres as (_ & HA & _). by rewrite EA in HA.
  - done.
  - destruct Hres as [-> _]. by exists why.
  - by rewrite EA in Hres.
Qed.

Definition toy_two_failed : PStore :=
  outcome empty_store (clear_outstanding_requests_until plenty 1 [PqMsg_Sync]) toy_two.

Lemma toy_two_failed_runs :
  clear_outstanding_requests_until plenty 1 [PqMsg_Sync] toy_two = Ok (true, toy_two_failed).
Proof. by vm_compute. Qed.

Lemma toy_two_failed_state :
  roomy toy_two_failed /\ is_Some (st_clients toy_two_failed !! 1%positive) /\
  is_Some (st_servers toy_two_failed !! 1%positive).
Proof. unfold roomy. split_and!; vm_compute; first [congruence | by eexists]. Qed.

#[local] Opaque toy_two_failed.

Lemma failed_parse_keeps_name_witness :
  exists why, handle_parse_command plenty 1 1 1 (Some (toy_name 2, toy_query 3)) toy_two_failed =
    Ok (H_disconnect_client why, toy_two_failed).
Proof.
  destruct toy_roomy as (_ & R1 & R2 & _). destruct toy_sockets as (_ & _ & C1 & V1 & _ & V2 & _).
  destruct toy_two_failed_state as (R3 & C3 & V3).
  exact (failed_parse_keeps_name plenty 1 toy_one (∅ ∪ {[1%positive]})
    (bind_name (fun _ _ => None) 1 (toy_name 1) (Some (toy_query 1))) 1 1 (toy_name 2) (toy_query 2) (toy_query 3)
    [PqMsg_Sync] toy_two toy_two_failed ltac:(done) toy_one_reached R1 R2 R3 C1 V1 C3 V2 V3 toy_two_runs
    toy_two_failed_runs).
Defined.

(** *** Memory runs out inside a Parse *)

Lemma mod_server_clients s f σ u σ' : mod_server s f σ = Ok (u, σ') -> st_clients σ' = st_clients σ.
Proof. unfold mod_server. destruct (_ !! s); [|done]. by intros [= _ <-]. Qed.

Lemma drop_use_clients a σ u σ' : drop_use a σ = Ok (u, σ') -> st_clients σ' = st_clients σ.
Proof. unfold drop_use. destruct (_ !! a); [|done]. case_bool_decide; by intros [= _ <-]. Qed.

Lemma free_listed_run s e σ u σ' :
  free_listed_server_ps s e σ = Ok (u, σ') ->
  st_clients σ' = st_clients σ /\
  exists v, st_servers σ !! s = Some v /\
    (e ∈ pv_statements v -> exists v', st_servers σ' !! s = Some v' /\ pv_freed_entry v' = true).
Proof.
  intros E. apply SM_bind_ok in E as (v & σ1 & E1 & E). unfold the_server in E1.
  destruct (st_servers σ !! s) as [v1|] eqn:Es; [|done]. injection E1 as -> <-.
  apply SM_bind_ok in E as (u1 & σ1 & E1 & E). cbn [free_server_prepared_statement] in E1.
  pose proof (drop_use_run _ _ _ _ E1) as Hs. apply drop_use_clients in E1. case_bool_decide as He.
  - rewrite (mod_server_clients _ _ _ _ _ E). split; [done|]. exists v. split; [done|]. intros _.
    apply (mod_server_run s _ v) in E; [|by rewrite Hs]. eauto.
  - injection E as _ <-. split; [done|]. by exists v.
Qed.

(** The label oom leaves the client without a table that can be read, and the
    server too if the entry freed there was in its table. *)
Lemma parse_oom_run c s server_ps σ r σ' :
  parse_oom c s server_ps σ = Ok (r, σ') ->
  st_clients σ' !! c = None /\
  (forall e v, server_ps = Some e -> st_servers σ !! s = Some v -> e ∈ pv_statements v ->
     exists v', st_servers σ' !! s = Some v' /\ pv_freed_entry v' = true).
Proof.
  intros E. apply SM_bind_ok in E as (u1 & σ1 & E1 & E). injection E1 as _ <-.
  apply SM_bind_ok in E as (u2 & σ2 & E2 & E). injection E as _ <-. destruct server_ps as [e|].
  - apply free_listed_run in E2 as (-> & v & Es & H). split; [apply lookup_delete_eq|].
    intros ? ? [= <-] Ev. cbn in Es. rewrite Es in Ev. injection Ev as <-. exact H.
  - injection E2 as _ <-. split; [apply lookup_delete_eq|done].
Qed.

Lemma allocate_run mem b σ σ' : allocate mem σ = Ok (b, σ') ->
  b = mem (st_allocs σ) /\ st_servers σ' = st_servers σ /\ st_heap σ' = st_heap σ /\
  st_prepared_statements σ' = st_prepared_statements σ /\ st_allocs σ' = S (st_allocs σ).
Proof. by intros [= <- <-]. Qed.

(** A request, added or not, leaves the table and the packets sent alone. *)
Lemma add_outstanding_table mem s type act b v σ σ' :
  add_outstanding_request mem s type act σ = Ok (b, σ') -> st_servers σ !! s = Some v ->
  exists v', st_servers σ' !! s = Some v' /\ pv_statements v' = pv_statements v /\ pv_sent v' = pv_sent v.
Proof.
  assert (Hx : forall t v σ, queue_extra mem s t σ = Ok (b, σ') -> st_servers σ !! s = Some v ->
    exists v', st_servers σ' !! s = Some v' /\ pv_statements v' = pv_statements v /\ pv_sent v' = pv_sent v).
  { clear. intros t v σ E Es. apply SM_bind_ok in E as (ok & σ1 & E1 & E). apply allocate_run in E1 as (_ & H1 & _).
    rewrite <- H1 in Es. destruct ok; cbn [negb] in E; [|injection E as _ <-; eauto].
    apply SM_bind_ok in E as (u & σ2 & E2 & E). injection E as _ <-. apply (mod_server_run s _ v) in E2; [|done]. eauto. }
  intros E Es. apply SM_bind_ok in E as (v1 & σ1 & E1 & E). unfold the_server in E1. rewrite Es in E1.
  injection E1 as <- <-. destruct (_ && _).
  - apply SM_bind_ok in E as (u & σ1 & E1 & E). apply (mod_server_run s _ v) in E1; [|done].
    unfold queue_fake_response in E. repeat case_bool_decide; [..|done]; destruct (Hx _ _ _ E E1) as (v' & ? & Ht & Hm); exists v'; by rewrite Ht, Hm.
  - apply SM_bind_ok in E as (ok & σ1 & E1 & E). apply allocate_run in E1 as (_ & H1 & _). rewrite <- H1 in Es.
    destruct ok; cbn [negb] in E; [|injection E as _ <-; eauto].
    apply SM_bind_ok in E as (u & σ2 & E2 & E). injection E as _ <-. apply (mod_server_run s _ v) in E2; [|done]. eauto.
Qed.

Lemma parse_known_oom mem cf_max c s a found σ σ' :
  parse_known mem cf_max c s a found σ = Ok (H_oom, σ') ->
  st_clients σ' !! c = None /\
  (forall ps v e, found = true -> st_heap σ !! a = Some ps -> st_servers σ !! s = Some v ->
     find_statement (ps_query_id ps) (pv_statements v) = Some e ->
     exists v', st_servers σ' !! s = Some v' /\ pv_freed_entry v' = true).
Proof.
  intros E. apply SM_bind_ok in E as (ps & σ1 & E1 & E). unfold the_statement in E1.
  destruct (st_heap σ !! a) as [ps1|] eqn:Ea; [|done]. injection E1 as -> <-.
  apply SM_bind_ok in E as (o & σ1 & E1 & E).
  assert (Ho : σ1 = σ /\ forall v, found = true -> st_servers σ !! s = Some v ->
    o = find_statement (ps_query_id ps) (pv_statements v)).
  { destruct found; [|by injection E1 as <- <-]. apply SM_bind_ok in E1 as (v & σ2 & E2 & E1).
    apply the_table_run in E2 as (-> & Es & _). injection E1 as <- <-. split; [done|]. intros ? _ ?. by simplify_eq. }
  destruct Ho as [-> Ho]. destruct o as [e|].
  - apply SM_bind_ok in E as (b & σ2 & E2 & E). destruct b; [done|]. apply parse_oom_run in E as [Hc Hs].
    split; [done|]. intros ps' v e' -> [= <-] Es Ef. rewrite <- (Ho v) in Ef by done. injection Ef as <-.
    destruct (add_outstanding_table _ _ _ _ _ _ _ _ E2 Es) as (v2 & Es2 & Et & _).
    apply (Hs e v2); [done|done|]. rewrite Et. by apply (find_statement_in (ps_query_id ps)); rewrite <- Ho.
  - split; [|intros ps' v e -> [= <-] Es; by rewrite <- (Ho v)].
    unfold parse_on_server in E. apply SM_bind_ok in E as (b & σ2 & _ & E).
    destruct b; cbn [negb] in E; [|by apply parse_oom_run in E as [? _]]. apply SM_bind_ok in E as (b & σ3 & _ & E).
    destruct b; cbn [negb] in E; [|by apply parse_oom_run in E as [? _]]. apply SM_bind_ok in E as (o & σ4 & _ & E).
    destruct o; [|by apply parse_oom_run in E as [? _]]. apply SM_bind_ok in E as (b & σ5 & _ & E).
    destruct b; [done|]. by apply parse_oom_run in E as [? _].
Qed.

(** A client's table that holds a freed entry cannot be freed, nor a server's. *)
Lemma freed_entries_undef c σ : st_clients σ !! c = None -> client_free c σ = Undef.
Proof.
  intros E. unfold client_free, free_client_prepared_statements, client_table, mbind, SM_bind. by rewrite E.
Qed.

Lemma free_requests_freed s l v σ u σ' :
  free_requests_loop s l σ = Ok (u, σ') -> st_servers σ !! s = Some v -> pv_freed_entry v = true ->
  exists v', st_servers σ' !! s = Some v' /\ pv_freed_entry v' = true.
Proof.
  revert v σ. induction l as [|r l IH]; intros v σ E Es Ef; [injection E as _ <-; eauto|].
  cbn [free_requests_loop] in E. apply SM_bind_ok in E as (u1 & σ1 & E1 & E).
  apply (mod_server_run s _ v) in E1; [|done]. apply SM_bind_ok in E as (u2 & σ2 & E2 & E).
  assert (H2 : st_servers σ2 = st_servers σ1).
  { destruct (or_server_ps r); [by apply drop_use_run in E2|by injection E2 as _ <-]. }
  rewrite <- H2 in E1. by apply (IH _ _ E E1).
Qed.

Lemma freed_entry_blocks_free s v σ :
  st_servers σ !! s = Some v -> pv_freed_entry v = true -> ~ returns σ (server_free s).
Proof.
  intros Es Ef (r & σ' & E). apply SM_bind_ok in E as (v1 & σ1 & E1 & E). unfold the_server in E1.
  rewrite Es in E1. injection E1 as <- <-. apply SM_bind_ok in E as (u & σ1 & E1 & E).
  destruct (free_requests_freed _ _ _ _ _ _ E1 Es Ef) as (v' & Es' & Ef').
  apply SM_bind_ok in E as (u' & σ2 & E2 & E). apply SM_bind_ok in E2 as (v2 & σ3 & E3 & _).
  apply the_table_run in E3 as (_ & Es2 & Ef2). congruence.
Qed.

Lemma get_run mem q o σ σ' :
  get_prepared_statement mem q σ = Ok (o, σ') ->
  st_servers σ' = st_servers σ /\
  (forall b, st_prepared_statements σ !! q = Some b -> o = Some (b, true) /\ σ' = σ) /\
  ((forall i, (i < 2)%nat -> mem (st_allocs σ + i)%nat = true) -> st_prepared_statements σ !! q = None ->
   is_Some o /\ st_allocs σ' = (st_allocs σ + 2)%nat).
Proof.
  unfold get_prepared_statement. destruct (st_prepared_statements σ !! q) as [a|] eqn:Eq.
  { intros [= <- <-]. split_and!; [done| |done]. by intros ? [= <-]. }
  unfold new_prepared_statement, create_prepared_statement, allocate, mbind, SM_bind.
  destruct (mem (st_allocs σ)) eqn:H0; cbn -[fresh]; [destruct (mem (S (st_allocs σ))) eqn:H1; cbn -[fresh]|];
    intros E; injection E as <- <-; (split; [done|]); (split; [done|]); intros Hm _.
  - split; [by eexists|cbn; lia].
  - specialize (Hm 1%nat ltac:(lia)). rewrite Nat.add_1_r in Hm. congruence.
  - specialize (Hm 0%nat ltac:(lia)). rewrite Nat.add_0_r in Hm. congruence.
Qed.

(** The allocations up to the entry in the client's table succeed: two for
    the entry, two before them if the query is new. *)
Definition entry_allocated (mem : nat -> bool) (q : list Z) (σ : PStore) : Prop :=
  forall i, (i < match st_prepared_statements σ !! q with Some _ => 2 | None => 4 end)%nat ->
    mem (st_allocs σ + i)%nat = true.

(** A Parse that gets as far as the client's table: from there the statement
    is known, under the id it had. *)
Lemma parse_reaches_known mem cf_max c s name q r σ σ' :
  handle_parse_command mem cf_max c s (Some (name, q)) σ = Ok (r, σ') ->
  r = H_true \/ r = H_oom /\ entry_allocated mem q σ ->
  exists a found σ1, parse_known mem cf_max c s a found σ1 = Ok (r, σ') /\ st_servers σ1 = st_servers σ /\
    forall b ps, st_prepared_statements σ !! q = Some b -> st_heap σ !! b = Some ps ->
      a = b /\ found = true /\ exists ps1, st_heap σ1 !! b = Some ps1 /\ ps_query_id ps1 = ps_query_id ps.
Proof.
  intros E Hr. unfold handle_parse_command in E.
  apply SM_bind_ok in E as (t & σ1 & E1 & E). unfold client_table in E1.
  destruct (st_clients σ !! c) as [t'|]; [|done]. injection E1 as -> <-.
  destruct (find_name name t); [injection E as <- _; naive_solver|]. apply SM_bind_ok in E as (g & σ1 & E1 & E).
  apply get_run in E1 as (Hs1 & Hk & Hn).
  assert (Hm : r = H_true \/ is_Some g /\ mem (st_allocs σ1) = true /\ mem (S (st_allocs σ1)) = true).
  { destruct Hr as [|[_ Hm]]; [by left|right]. unfold entry_allocated in Hm.
    destruct (st_prepared_statements σ !! q) as [b|] eqn:Eq.
    - destruct (Hk b eq_refl) as [-> ->]. pose proof (Hm 0%nat ltac:(lia)) as H0. pose proof (Hm 1%nat ltac:(lia)) as H1.
      rewrite Nat.add_0_r in H0. rewrite Nat.add_1_r in H1. by split.
    - destruct Hn as [Hg Ha]; [intros; apply Hm; lia|done|]. rewrite Ha.
      pose proof (Hm 2%nat ltac:(lia)). pose proof (Hm 3%nat ltac:(lia)). by rewrite <- Nat.add_succ_r. }
  destruct g as [[a found]|]; [|injection E as <- _; destruct Hm as [|[[] _]]; done].
  apply SM_bind_ok in E as (o & σ2 & E2 & E). unfold create_client_prepared_statement in E2.
  apply SM_bind_ok in E2 as (ok & σ3 & E3 & E2). apply allocate_run in E3 as (-> & Hs3 & Hh3 & _ & Ha3).
  destruct (mem (st_allocs σ1)); cbn [negb] in E2;
    [|injection E2 as <- <-; injection E as <- _; destruct Hm as [|(_ & ? & _)]; done].
  apply SM_bind_ok in E2 as (u & σ4 & E4 & E2). injection E2 as <- <-.
  unfold add_use in E4. destruct (st_heap σ3 !! a) as [ps3|] eqn:Eh3; [|done]. injection E4 as _ <-.
  apply SM_bind_ok in E as (ok & σ5 & E5 & E). apply allocate_run in E5 as (-> & Hs5 & Hh5 & _).
  cbn [set_heap st_allocs st_servers st_heap] in *. rewrite Ha3 in E.
  destruct (mem (S (st_allocs σ1))); cbn [negb] in E; [|injection E as <- _; destruct Hm as [|(_ & _ & ?)]; done].
  apply SM_bind_ok in E as (t2 & σ6 & E6 & E). unfold client_table in E6.
  destruct (st_clients σ5 !! c); [|done]. injection E6 as _ <-. apply SM_bind_ok in E as (u2 & σ6 & E6 & E).
  injection E6 as _ <-. eexists a, found, _. split; [exact E|]. cbn [set_client st_servers st_heap]. split; [congruence|].
  intros b ps Eb Ep. destruct (Hk b Eb) as [[= -> ->] ->]. split_and!; [done..|].
  rewrite Hh3, Ep in Eh3. injection Eh3 as <-. rewrite Hh5, lookup_insert_eq. by eexists.
Qed.

(** When memory runs out after a Parse has entered the statement in the
    client's table, the entry is freed and stays there: the disconnect that
    follows walks the table and reads it.  If the statement was on the server
    the entry of the server's table is freed as well, and closing the server
    reads that. *)
Theorem parse_oom_leaves_freed_entries mem cf_max σ (c s : positive) name q σ' :
  entry_allocated mem q σ ->
  handle_parse_command mem cf_max c s (Some (name, q)) σ = Ok (H_oom, σ') ->
  client_free c σ' = Undef /\
  (forall a ps v, st_prepared_statements σ !! q = Some a -> st_heap σ !! a = Some ps -> st_servers σ !! s = Some v ->
     is_Some (find_statement (ps_query_id ps) (pv_statements v)) -> ~ returns σ' (server_free s)).
Proof.
  intros Hm E. destruct (parse_reaches_known _ _ _ _ _ _ _ _ _ E) as (a & found & σ1 & E1 & Hs1 & Hk); [auto|].
  apply parse_known_oom in E1 as [Hc Hsv]. split; [by apply freed_entries_undef|].
  intros b ps v Eb Ep Es [e Hf]. destruct (Hk b ps Eb Ep) as (-> & -> & ps1 & Ep1 & Eid). rewrite Hs1 in Hsv.
  destruct (Hsv ps1 v e eq_refl Ep1 Es) as (v' & ? & ?); [by rewrite Eid|]. by eapply freed_entry_blocks_free.
Qed.

(** The fifth allocation fails, the one that queues the packet for the
    server: the client's entry is in its table by then. *)
Definition fifth_fails (n : nat) : bool := negb (bool_decide (n = 4%nat)).

Lemma parse_oom_leaves_freed_entries_witness :
  exists σ', handle_parse_command fifth_fails 1 1 1 (Some (toy_name 1, toy_query 1)) toy_start = Ok (H_oom, σ') /\
    client_free 1 σ' = Undef.
Proof.
  destruct (handle_parse_command fifth_fails 1 1 1 (Some (toy_name 1, toy_query 1)) toy_start)
    as [[r σ']| | |] eqn:E; [|by vm_compute in E..].
  assert (Er : r = H_oom) by (vm_compute in E; congruence). subst r. exists σ'. split; [done|].
  destruct (parse_oom_leaves_freed_entries fifth_fails 1 toy_start 1 1 (toy_name 1) (toy_query 1) σ')
    as [H _]; [|exact E|exact H].
  intros i Hi. assert ((i < 4)%nat) as Hi4 by exact Hi.
  change (st_allocs toy_start) with 0%nat. unfold fifth_fails. rewrite bool_decide_eq_false_2 by lia. done.
Defined.

(** *** Undone in the wrong order *)

(** A Parse of a query that is in the server's table is not sent on. *)
Lemma parse_listed mem cf_max c s name q a ps v σ σ' :
  handle_parse_command mem cf_max c s (Some (name, q)) σ = Ok (H_true, σ') ->
  st_prepared_statements σ !! q = Some a -> st_heap σ !! a = Some ps -> st_servers σ !! s = Some v ->
  is_Some (find_statement (ps_query_id ps) (pv_statements v)) ->
  exists v', st_servers σ' !! s = Some v' /\ pv_sent v' = pv_sent v.
Proof.
  intros E Eq Ep Es [e Hf]. destruct (parse_reaches_known _ _ _ _ _ _ _ _ _ E) as (b & found & σ1 & E1 & Hs1 & Hk); [auto|].
  destruct (Hk a ps Eq Ep) as (-> & -> & ps1 & Ep1 & Eid). unfold parse_known in E1.
  apply SM_bind_ok in E1 as (ps2 & σ2 & E2 & E1). unfold the_statement in E2. rewrite Ep1 in E2. injection E2 as <- <-.
  apply SM_bind_ok in E1 as (o & σ2 & E2 & E1). apply SM_bind_ok in E2 as (v2 & σ3 & E3 & E2).
  apply the_table_run in E3 as (-> & Es3 & _). injection E2 as <- <-. rewrite Hs1, Es in Es3. injection Es3 as <-.
  rewrite Eid, Hf in E1. apply SM_bind_ok in E1 as (b & σ2 & E2 & E1).
  destruct b; [injection E1 as <-|apply SM_bind_ok in E1 as (? & ? & _ & E1); apply SM_bind_ok in E1 as (? & ? & _ & E1); done].
  rewrite <- Hs1 in Es. destruct (add_outstanding_table _ _ _ _ _ _ _ _ E2 Es) as (v' & ? & _ & ?). eauto.
Qed.

(** A Parse of [q], by whichever client and under whichever name, is taken
    care of without a packet to server [s]. *)
Definition not_asked_for mem cf_max (σ : PStore) (s : positive) (q : list Z) : Prop :=
  forall c name σ', handle_parse_command mem cf_max c s (Some (name, q)) σ = Ok (H_true, σ') ->
    exists v v', st_servers σ !! s = Some v /\ st_servers σ' !! s = Some v' /\ pv_sent v' = pv_sent v.

Lemma listed_not_asked_for mem cf_max N S A σ s v e :
  Pinv N [] [] S A σ -> st_servers σ !! s = Some v -> e ∈ pv_statements v ->
  exists q, text (st_heap σ) (sp_ps e) = Some (sp_query_id e, q) /\ not_asked_for mem cf_max σ s q.
Proof.
  intros HI Es He. destruct (pi_server _ _ _ _ _ _ HI s v Es) as ([Hent _]%Forall_app & _).
  rewrite Forall_forall in Hent. destruct (Hent e He) as [q Hq]. exists q. split; [done|].
  intros c name σ' E. destruct (text_inv _ _ _ _ Hq) as (ps & Hps & Hid & _).
  destruct (parse_listed _ _ _ _ _ _ (sp_ps e) ps v _ _ E) as (v' & ? & ?); [|done|done| |eauto].
  - apply (pi_hash _ _ _ _ _ _ HI). eauto.
  - rewrite Hid. destruct (find_statement (sp_query_id e) (pv_statements v)) eqn:Ef; [eauto|].
    apply find_statement_none in Ef. exfalso. apply Ef. by apply list_elem_of_fmap_2.
Qed.

(** C38: undoing the requests a server did not carry out, from the oldest to
    the newest, can invent a statement.  After any run, on a server where
    nothing was undone before: [ms0] are the packets it has handled, [P0] the
    statements it has, and the requests up to the first of [types] are
    undone.  Of the ids no later request is about, the table then lists those
    the server has and, besides, those it does not have whose last undone
    request is a Close: such a statement was parsed and closed again among
    the requests the server skipped.  A Parse of a query that is listed is
    answered by PgBouncer and not sent to the server. *)
Theorem undo_can_invent_statement mem cf_max σ S A (s : positive) v types ms0 :
  1 <= u32 cf_max -> preach mem cf_max σ S A -> roomy σ -> st_servers σ !! s = Some v -> s ∈ S ->
  handled_so_far v ms0 ->
  exists b σ' P0, clear_outstanding_requests_until mem s types σ = Ok (b, σ') /\
    ((forall n, mem n = true) -> b = true) /\ run_all ms0 = Some P0 /\
    (b = true -> exists v', st_servers σ' !! s = Some v' /\ pv_requests v' = remaining types (pv_requests v) /\
       (forall i, 0 <= i < 2 ^ 64 -> events i (remaining types (pv_requests v)) = [] ->
          entries_of i (pv_statements v') =
            if on_server P0 i || closed_last (events i (dropped types (pv_requests v))) then 1%nat else 0%nat) /\
       (forall e, e ∈ pv_statements v' -> exists q,
          text (st_heap σ') (sp_ps e) = Some (sp_query_id e, q) /\ not_asked_for mem cf_max σ' s q)).
Proof.
  intros Hmax Hr R Es Hs Hh. pose proof (preach_inv _ _ Hmax _ _ _ Hr) as HI. destruct R as [Hn1 Hn2].
  destruct (synced_table _ _ _ _ _ _ _ _ _ HI Es Hs Hh) as (P0 & Hrun & Htab).
  destruct (clear_good mem (zlen (all_refs σ)) ltac:(lia) A S s v types σ HI Es) as (b & σ' & E & Hgood).
  exists b, σ', P0. split; [done|]. split; [intros Hm; by eapply clear_yields in E|]. split; [done|]. intros ->.
  destruct (Hgood eq_refl) as (q & HI' & _).
  unfold clear_outstanding_requests_until in E. apply SM_bind_ok in E as (v1 & σ1 & E1 & E).
  unfold the_server in E1. rewrite Es in E1. injection E1 as <- <-.
  destruct (clear_loop_run mem s types _ v σ σ' Es eq_refl E) as (v' & Es' & Ev' & Hq & _).
  exists v'. split; [done|]. split; [done|]. split; [|intros e He; by eapply listed_not_asked_for].
  intros i Hi Hk. destruct (Htab i Hi) as [Hsen Hent].
  assert (Ee : events i (pv_requests v) = events i (dropped types (pv_requests v))).
  { rewrite <- (dropped_remaining types (pv_requests v)) at 1. unfold events in *. by rewrite omap_app, Hk, app_nil_r. }
  rewrite Ev', entries_of_undo_all, Hent, Ee. apply undo_counts. by rewrite <- Ee.
Qed.

(** With room for one statement, a client sends two Parses and a Sync; the
    second Parse closes the first statement again.  The server fails the first
    Parse and skips the rest, so it has prepared nothing, yet undoing the
    requests leaves the first statement in its table. *)
Lemma toy_sync_server : exists v, st_servers toy_sync !! 1%positive = Some v /\ handled_so_far v [] /\
  pv_requests v = [mkRequest PqMsg_Parse RA_FORWARD None 1; mkRequest PqMsg_Parse RA_FORWARD None 2;
                   mkRequest PqMsg_Close RA_SKIP (Some (mkServerPs 1 1)) 0; mkRequest PqMsg_Sync RA_FORWARD None 0].
Proof.
  eexists. split; [by vm_compute|]. split; [eexists; by split; [reflexivity|]|by vm_compute].
Qed.

Lemma undo_can_invent_statement_witness :
  exists σ' v', clear_outstanding_requests_until plenty 1 [PqMsg_Sync] toy_sync = Ok (true, σ') /\
    st_servers σ' !! 1%positive = Some v' /\ run_all [] = Some ∅ /\ entries_of 1 (pv_statements v') = 1%nat.
Proof.
  destruct toy_roomy as (_ & _ & _ & R & _). destruct toy_sync_server as (v & Es & Hh & Hq).
  destruct (undo_can_invent_statement plenty 1 toy_sync (∅ ∪ {[1%positive]}) toy_names 1 v [PqMsg_Sync] [])
    as (b & σ' & P0 & E & Hb & HP & H); [done|apply toy_sync_reached|exact R|exact Es| |exact Hh|].
  { apply elem_of_union. right. by apply elem_of_singleton. }
  specialize (Hb ltac:(done)). subst b. destruct (H eq_refl) as (v' & Es' & _ & Hi & _).
  exists σ', v'. split_and!; [done|done|done|]. rewrite Hi; [|done|rewrite Hq; by vm_compute].
  rewrite Hq. injection HP as <-. by vm_compute.
Defined.
