(* ===== verification/Work.v ===== *)
(** * The work of a linked pair (src/client.c, src/server.c)

    [handle_client_work] takes a packet of a logged in client,
    [handle_server_work] one of a server; [flush_event] is the SBUF_EV_FLUSH
    case of server_proto, which decides when a server goes back to the pool.
    Packets are inspected with Messages.v, named prepared statements go
    through Prepare.v.

    The state has the fields of client and server these handlers use.  The
    search for a server (find_server, modelled in Launch.v) is a parameter
    here with what it promises stated in [FindServer].  Statistics and log
    messages are left out; the pool is not the admin console's where the code
    asserts so. *)

From S2P Require Import Prelude Protocol MBuf PktBuf Proto Messages PoolSpec World Prepare.
From stdpp Require Import base option countable gmap list strings.
#[local] Open Scope Z_scope.

Record WServer := mkWServer {
  ws_link : option positive;
  ws_state : SocketState;
  ws_ready : bool;
  ws_idle_tx : bool;
  ws_query_failed : bool;
  ws_copy_mode : bool;
  ws_setting_vars : bool;
  ws_resetting : bool
}.

Record WClient := mkWClient {
  wc_link : option positive;
  wc_login : bool;
  wc_copy_mode : bool;
  wc_query_start : Z;
  wc_xact_start : Z
}.

Record Work := mkWork {
  wk_store : PStore;
  wk_servers : gmap positive WServer;
  wk_clients : gmap positive WClient
}.

(** What a handler does with the packet. *)
Inductive did :=
| D_false                              (* wait for more of the packet *)
| D_skip                               (* sbuf_prepare_skip *)
| D_send                               (* sbuf_prepare_send to the other side *)
| D_fetch                              (* sbuf_prepare_fetch, for a callback *)
| D_requeue                            (* sbuf_queue_full_packet *)
| D_done                               (* handled by the prepared statement code *)
| D_no_server                          (* find_server returned false *)
| D_admin                              (* admin_handle_client *)
| D_auth_query                         (* handle_auth_query_response *)
| D_disconnect_client (why : string)
| D_disconnect_server (why : string)
| D_oom.                               (* both dropped, out of memory *)

(** What EV_FLUSH does. *)
Inductive flush_did :=
| FL_nothing
| FL_continue_client
| FL_release.

#[export] Instance did_eq_dec : EqDecision did.
Proof. solve_decision. Defined.
#[export] Instance flush_did_eq_dec : EqDecision flush_did.
Proof. solve_decision. Defined.

(** ** Access *)
Section Access.
#[local] Abbreviation M := (SM Work).

Definition lift {B} (m : SM PStore B) : M B := fun w =>
  match m (wk_store w) with
  | Ok (b, σ) => Ok (b, mkWork σ (wk_servers w) (wk_clients w))
  | Fatal => Fatal
  | Undef => Undef
  | NoFuel => NoFuel
  end.

Definition of_res {B} (r : res B) : M B := fun w =>
  match r with Ok b => Ok (b, w) | Fatal => Fatal | Undef => Undef | NoFuel => NoFuel end.

Definition server_of (s : positive) : M WServer := fun w =>
  match wk_servers w !! s with Some x => Ok (x, w) | None => Undef end.

Definition client_of (c : positive) : M WClient := fun w =>
  match wk_clients w !! c with Some x => Ok (x, w) | None => Undef end.

Definition upd_server (s : positive) (f : WServer -> WServer) : M unit := fun w =>
  match wk_servers w !! s with
  | Some x => Ok (tt, mkWork (wk_store w) (<[s := f x]> (wk_servers w)) (wk_clients w))
  | None => Undef
  end.

Definition upd_client (c : positive) (f : WClient -> WClient) : M unit := fun w =>
  match wk_clients w !! c with
  | Some x => Ok (tt, mkWork (wk_store w) (wk_servers w) (<[c := f x]> (wk_clients w)))
  | None => Undef
  end.

Definition assertW (b : bool) : M unit := fun w => if b then Ok (tt, w) else Fatal.
End Access.

Definition set_tx (ready idle_tx : bool) (x : WServer) : WServer :=
  mkWServer (ws_link x) (ws_state x) ready idle_tx (ws_query_failed x) (ws_copy_mode x)
    (ws_setting_vars x) (ws_resetting x).
Definition set_query_failed b x :=
  mkWServer (ws_link x) (ws_state x) (ws_ready x) (ws_idle_tx x) b (ws_copy_mode x)
    (ws_setting_vars x) (ws_resetting x).
Definition set_copy_mode b x :=
  mkWServer (ws_link x) (ws_state x) (ws_ready x) (ws_idle_tx x) (ws_query_failed x) b
    (ws_setting_vars x) (ws_resetting x).
Definition set_setting_vars b x :=
  mkWServer (ws_link x) (ws_state x) (ws_ready x) (ws_idle_tx x) (ws_query_failed x) (ws_copy_mode x)
    b (ws_resetting x).
Definition set_resetting b x :=
  mkWServer (ws_link x) (ws_state x) (ws_ready x) (ws_idle_tx x) (ws_query_failed x) (ws_copy_mode x)
    (ws_setting_vars x) b.
Definition set_client_copy_mode b x :=
  mkWClient (wc_link x) (wc_login x) b (wc_query_start x) (wc_xact_start x).
Definition set_starts q t x :=
  mkWClient (wc_link x) (wc_login x) (wc_copy_mode x) q t.

(** The settings and the clock. *)
Record WConfig := mkWConfig {
  cf_max_prepared : Z;
  cf_pool_mode : PoolMode;
  cf_disable_pqexec : bool;
  cf_sbuf_len : Z;
  cf_admin : bool;
  cf_now : Z
}.

Definition is_prepared_statements_enabled (cf : WConfig) : bool :=
  negb (bool_decide (cf_pool_mode cf = POOL_SESSION)) && negb (bool_decide (cf_max_prepared cf = 0)).

(** ** Packets from the server *)
Section ServerWork.
Context (mem : nat -> bool) (cf : WConfig).
#[local] Abbreviation M := (SM Work).

(** Flags the switch leaves for the rest of the function. *)
Record after_switch := mkAfter {
  as_ready : bool;
  as_idle_tx : bool;
  as_async_response : bool;
  as_ignore_packet : bool
}.

Definition plain_after (ignore : bool) : did + after_switch := inr (mkAfter false false false ignore).

Definition pop (s : positive) (types : list Z) : M (bool * bool) := lift (pop_outstanding_request s types).
Definition clear (s : positive) (types : list Z) : M bool :=
  lift (clear_outstanding_requests_until mem s types).

Definition on_ready_for_query (s : positive) (state : option Z) : M (did + after_switch) :=
  match state with
  | None => mret (inl D_false)
  | Some state =>
      '(popped, ignore) ← pop s [PqMsg_Sync; PqMsg_Query; PqMsg_FunctionCall];
      x ← server_of s;
      ok ← (if negb popped && ws_query_failed x then clear s [PqMsg_Sync] else mret true);
      if negb ok then mret (inl D_oom)
      else
        upd_server s (set_query_failed false) ≫= fun _ =>
        if bool_decide (state = 73) then mret (inr (mkAfter true false false ignore))
        else if bool_decide (cf_pool_mode cf = POOL_STMT) then
          mret (inl (D_disconnect_server "transaction blocks not allowed in statement pooling mode"))
        else mret (inr (mkAfter false (bool_decide (state = 84) || bool_decide (state = 69)) false ignore))
  end.

Definition on_error_response (s : positive) : M (did + after_switch) :=
  x ← server_of s;
  if ws_setting_vars x then mret (inl (D_disconnect_server "invalid server parameter"))
  else
    ok ← (if ws_copy_mode x then
            upd_server s (set_copy_mode false) ≫= fun _ =>
            clear s [PqMsg_CopyDone; PqMsg_CopyFail]
          else mret true);
    if negb ok then mret (inl D_oom)
    else
      upd_server s (set_query_failed true) ≫= fun _ =>
      mret (plain_after false).

(** [tag] is the command tag, if it was received completely. *)
Definition on_command_complete (s : positive) (client : option positive) (len : Z) (tag : option (list Z)) :
    M (did + after_switch) :=
  x ← server_of s;
  ok ← (if ws_copy_mode x then
          upd_server s (set_copy_mode false) ≫= fun _ =>
          clear s [PqMsg_CopyDone]
        else mret true);
  if negb ok then mret (inl D_oom)
  else
    read ← (if is_prepared_statements_enabled cf
               && (bool_decide (len = 1 + 4 + 15) || bool_decide (len = 1 + 4 + 12)) then
              match tag with
              | None => mret false
              | Some tag =>
                  if bool_decide (tag = str "DEALLOCATE ALL") || bool_decide (tag = str "DISCARD ALL") then
                    lift (free_server_prepared_statements s) ≫= fun _ =>
                    match client with
                    | Some c => lift (free_client_prepared_statements c) ≫= fun _ => mret true
                    | None => mret true
                    end
                  else mret true
              end
            else mret true);
    if negb read then mret (inl D_false)
    else
      '(_, ignore) ← pop s [PqMsg_Execute];
      mret (plain_after ignore).

Definition on_answer (s : positive) (type : Z) : M (did + after_switch) :=
  '(_, ignore) ← pop s [type];
  mret (plain_after ignore).

(** The switch of handle_server_work.  [state] and [tag] are what the packet's
    data gives; [loaded] is what load_parameter returns. *)
Definition server_switch (s : positive) (client : option positive) (type len : Z) (state : option Z)
    (tag : option (list Z)) (loaded : bool) : M (did + after_switch) :=
  let ty t := bool_decide (type = t) in
  if ty PqMsg_ReadyForQuery then on_ready_for_query s state
  else if ty PqMsg_ParameterStatus then mret (if loaded then plain_after false else inl D_false)
  else if ty PqMsg_ErrorResponse then on_error_response s
  else if ty PqMsg_CommandComplete then on_command_complete s client len tag
  else if ty PqMsg_NoticeResponse then mret (plain_after false)
  else if ty PqMsg_NotificationResponse then
    x ← server_of s;
    mret (inr (mkAfter (ws_ready x) (ws_idle_tx x) true false))
  else if ty PqMsg_CopyInResponse || ty PqMsg_CopyBothResponse then
    upd_server s (set_copy_mode true) ≫= fun _ =>
    match client with
    | Some c => upd_client c (set_client_copy_mode true) ≫= fun _ => mret (plain_after false)
    | None => mret (plain_after false)
    end
  else if ty PqMsg_CopyOutResponse then mret (plain_after false)
  else if ty PqMsg_ParseComplete then on_answer s PqMsg_Parse
  else if ty PqMsg_BindComplete then on_answer s PqMsg_Bind
  else if ty PqMsg_CloseComplete then on_answer s PqMsg_Close
  else if ty PqMsg_NoData || ty PqMsg_RowDescription then on_answer s PqMsg_Describe
  else if ty PqMsg_ParameterDescription || ty PqMsg_CopyDone || ty PqMsg_CopyFail
          || ty PqMsg_FunctionCallResponse then mret (plain_after false)
  else if ty PqMsg_EmptyQueryResponse || ty PqMsg_PortalSuspended then on_answer s PqMsg_Execute
  else if ty PqMsg_CopyData || ty PqMsg_DataRow then mret (plain_after false)
  else mret (inl (D_disconnect_server "unknown pkt")).

(** The end of a query and of a transaction, for a packet that is forwarded. *)
Definition note_end (s c : positive) (a : after_switch) : M unit :=
  v ← lift (the_server s);
  if bool_decide (pv_requests v = []) then
    y ← client_of c;
    (if as_ready a || as_idle_tx a then
       if negb (bool_decide (wc_query_start y = 0)) then upd_client c (set_starts 0 (wc_xact_start y))
       else assertW (as_async_response a)
     else mret tt) ≫= fun _ =>
    y ← client_of c;
    if as_ready a && negb (bool_decide (wc_xact_start y = 0))
    then upd_client c (set_starts (wc_query_start y) 0)
    else mret tt
  else mret tt.

Definition handle_server_work (s : positive) (type len : Z) (state : option Z) (tag : option (list Z))
    (loaded : bool) : M did :=
  x ← server_of s;
  let client := ws_link x in
  sw ← server_switch s client type len state tag loaded;
  match sw with
  | inl d => mret d
  | inr a =>
      upd_server s (set_tx (as_ready a) (as_idle_tx a)) ≫= fun _ =>
      x ← server_of s;
      if ws_setting_vars x then
        assertW (bool_decide (is_Some client)) ≫= fun _ => mret D_skip
      else
        match client with
        | None => mret D_skip
        | Some c =>
            y ← client_of c;
            if wc_login y then mret D_auth_query
            else
              (if as_ignore_packet a then mret tt else note_end s c a) ≫= fun _ =>
              sent ← lift (send_pending_fake_responses mem s);
              mret (if negb sent then D_oom else if as_ignore_packet a then D_skip else D_send)
        end
  end.

(** SBUF_EV_FLUSH in server_proto. *)
Definition flush_event (s : positive) : M flush_did :=
  x ← server_of s;
  if negb (ws_ready x) then mret FL_nothing
  else if ws_setting_vars x then
    assertW (bool_decide (is_Some (ws_link x))) ≫= fun _ =>
    upd_server s (set_setting_vars false) ≫= fun _ =>
    mret FL_continue_client
  else if negb (bool_decide (cf_pool_mode cf = POOL_SESSION)) || bool_decide (ws_state x = SV_TESTED)
          || ws_resetting x then
    upd_server s (set_resetting false) ≫= fun _ =>
    if bool_decide (ws_state x = SV_ACTIVE) || bool_decide (ws_state x = SV_ACTIVE_CANCEL)
       || bool_decide (ws_state x = SV_TESTED) then
      match ws_link x with
      | None => mret FL_release
      | Some c =>
          v ← lift (the_server s);
          y ← client_of c;
          if negb (bool_decide (pv_requests v = [])) then mret FL_nothing
          else if wc_copy_mode y then mret FL_nothing
          else mret FL_release
      end
    else mret FL_nothing
  else mret FL_nothing.
End ServerWork.

(** ** Packets from the client *)

(** What handle_client_work relies on: a client that has a server keeps it;
    when a server is found the two are linked; nobody's requests or statements
    change, no server becomes ready, and one that is sent SET commands is not
    ready. *)
Class FindServer := {
  look_for_server : positive -> SM Work bool;
  find_server_linked c y s w :
    wk_clients w !! c = Some y -> wc_link y = Some s -> look_for_server c w = Ok (true, w);
  find_server_links c y w w' :
    wk_clients w !! c = Some y -> wc_link y = None -> look_for_server c w = Ok (true, w') ->
    exists y' x s, wk_clients w' !! c = Some y' /\ wc_link y' = Some s /\
      wk_servers w' !! s = Some x /\ ws_link x = Some c;
  find_server_store c w b w' : look_for_server c w = Ok (b, w') -> wk_store w' = wk_store w;
  find_server_ready c w b w' s x' :
    look_for_server c w = Ok (b, w') -> wk_servers w' !! s = Some x' -> ws_ready x' = true ->
    exists x, wk_servers w !! s = Some x /\ ws_ready x = true /\
      (ws_setting_vars x' = true -> ws_setting_vars x = true)
}.

Section ClientWork.
Context {F : FindServer} (mem : nat -> bool) (cf : WConfig).
#[local] Abbreviation M := (SM Work).

Definition inspect (f : PktHdr -> res (PreparedStatementAction * PktHdr)) (pkt : PktHdr) :
    M (did + (bool * PreparedStatementAction * PktHdr)) :=
  if is_prepared_statements_enabled cf then
    '(a, pkt) ← of_res (f pkt);
    mret (inr (true, a, pkt_rewind_v3 pkt))
  else mret (inr (true, PS_IGNORE, pkt)).

(** The switch: is an answer expected, and what about prepared statements. *)
Definition client_switch (c : positive) (pkt : PktHdr) :
    M (did + (bool * PreparedStatementAction * PktHdr)) :=
  let ty t := bool_decide (pkt_type pkt = t) in
  if ty PqMsg_Query then
    if cf_disable_pqexec cf then mret (inl (D_disconnect_client "PQexec disallowed"))
    else mret (inr (true, PS_IGNORE, pkt))
  else if ty PqMsg_FunctionCall || ty PqMsg_Sync then mret (inr (true, PS_IGNORE, pkt))
  else if ty PqMsg_Flush then mret (inr (false, PS_IGNORE, pkt))
  else if ty PqMsg_CopyDone || ty PqMsg_CopyFail then
    y ← client_of c;
    match wc_link y with
    | None => mret (inl D_skip)
    | Some s =>
        x ← server_of s;
        upd_client c (set_client_copy_mode false) ≫= fun _ =>
        mret (inr (ws_copy_mode x, PS_IGNORE, pkt))
    end
  else if ty PqMsg_Parse then inspect inspect_parse_packet pkt
  else if ty PqMsg_Execute then mret (inr (true, PS_IGNORE, pkt))
  else if ty PqMsg_Close then inspect inspect_describe_or_close_packet pkt
  else if ty PqMsg_Bind then inspect inspect_bind_packet pkt
  else if ty PqMsg_Describe then inspect inspect_describe_or_close_packet pkt
  else if ty PqMsg_CopyData then
    y ← client_of c;
    match wc_link y with
    | None => mret (inl D_skip)
    | Some _ => mret (inr (false, PS_IGNORE, pkt))
    end
  else if ty PqMsg_Terminate then mret (inl (D_disconnect_client "client close request"))
  else mret (inl (D_disconnect_client "unknown pkt")).

(** What the size and completeness of the packet decide. *)
Definition packet_ready (pkt : PktHdr) (a : PreparedStatementAction) : option did :=
  if bool_decide (a = PS_HANDLE_FULL_PACKET) && incomplete_pkt pkt then
    Some (if bool_decide (pkt_len pkt > u32 (cf_sbuf_len cf)) then D_fetch else D_false)
  else if bool_decide (a = PS_INSPECT_FAILED) then
    Some (if negb (incomplete_pkt pkt) then D_disconnect_client "failed to parse packet"
          else if bool_decide (write_pos (pkt_data pkt) >= u32 (cf_sbuf_len cf)) then D_fetch
          else D_false)
  else None.

Definition of_handled (r : handled) : did :=
  match r with
  | H_true => D_done
  | H_false => D_false
  | H_disconnect_client why => D_disconnect_client why
  | H_oom => D_oom
  end.

(** [rest]: the bytes of a Bind after the statement name. *)
Definition prepared_command (c s : positive) (pkt : PktHdr) (rest : list Z) : M did :=
  if bool_decide (pkt_type pkt = PqMsg_Parse) then
    '(u, _) ← of_res (unmarshall_parse_packet pkt);
    match u with
    | UOk p =>
        r ← lift (handle_parse_command mem (cf_max_prepared cf) c s
                    (Some (pp_name p, pp_query_and_parameters p)));
        mret (of_handled r)
    | UBroken => mret (D_disconnect_client "broken Parse packet")
    | UIncomplete => mret D_false
    end
  else if bool_decide (pkt_type pkt = PqMsg_Bind) then
    '(u, _) ← of_res (unmarshall_bind_packet pkt);
    match u with
    | UOk p =>
        r ← lift (handle_bind_command mem (cf_max_prepared cf) c s
                    (Some (mkBind (pkt_len pkt) (bp_portal p) (bp_name p) rest)));
        mret (of_handled r)
    | UBroken => mret (D_disconnect_client "broken Bind packet")
    | UIncomplete => mret D_false
    end
  else if bool_decide (pkt_type pkt = PqMsg_Describe) then
    '(u, _) ← of_res (unmarshall_describe_packet pkt);
    match u with
    | UOk p =>
        r ← lift (handle_describe_command mem (cf_max_prepared cf) c s (Some (dp_type p, dp_name p)));
        mret (of_handled r)
    | UBroken => mret (D_disconnect_client "broken Describe packet")
    | UIncomplete => mret D_false
    end
  else mret D_done.

(** A named statement is closed: no server is needed.  [None]: go on. *)
Definition close_command (c : positive) (pkt : PktHdr) (a : PreparedStatementAction) (sent_now : bool) :
    M (option did) :=
  if negb (bool_decide (a = PS_IGNORE)) && bool_decide (pkt_type pkt = PqMsg_Close) then
    '(u, _) ← of_res (unmarshall_close_packet pkt);
    match u with
    | UOk p =>
        if is_close_named_statement_packet p then
          y ← client_of c;
          ok ← lift (handle_close_statement_command mem c (wc_link y) sent_now (cp_name p));
          mret (Some (if ok : bool then D_done else D_false))
        else mret None
    | UBroken => mret (Some (D_disconnect_client "broken Close packet"))
    | UIncomplete => mret (Some D_false)
    end
  else mret None.

Definition note_start (c : positive) : M unit :=
  upd_client c (fun y =>
    let q := if bool_decide (wc_query_start y = 0) then cf_now cf else wc_query_start y in
    set_starts q (if bool_decide (wc_xact_start y = 0) then q else wc_xact_start y) y).

(** A packet for the server as it is.  [complete]: it was buffered whole;
    [flushed], [queued]: what sbuf_flush and sbuf_queue_full_packet return. *)
Definition forward_packet (s : positive) (pkt : PktHdr) (track complete flushed queued : bool) : M did :=
  tracked ← (if track : bool then lift (add_outstanding_request mem s (pkt_type pkt) RA_FORWARD) else mret true);
  if negb tracked then mret D_false
  else if complete : bool then
    if negb flushed then mret D_false
    else if negb queued then mret D_oom
    else mret D_requeue
  else mret D_send.

Definition handle_client_work (c : positive) (pkt : PktHdr) (rest : list Z)
    (sent_now complete flushed queued : bool) : M did :=
  sw ← client_switch c pkt;
  match sw with
  | inl d => mret d
  | inr (track, a, pkt) =>
      match packet_ready pkt a with
      | Some d => mret d
      | None =>
          closed ← close_command c pkt a sent_now;
          match closed with
          | Some d => mret d
          | None =>
              note_start c ≫= fun _ =>
              if cf_admin cf then mret D_admin
              else
                found ← look_for_server c;
                if negb found then mret D_no_server
                else
                  y ← client_of c;
                  match wc_link y with
                  | None => fun _ => Undef
                  | Some s =>
                      upd_server s (set_tx false false) ≫= fun _ =>
                      if negb (bool_decide (a = PS_IGNORE)) then
                        if negb flushed then mret D_false
                        else prepared_command c s pkt rest
                      else forward_packet s pkt track complete flushed queued
                  end
          end
      end
  end.
End ClientWork.
