(* ===== verification/Relay.v ===== *)
(** * Answers in turn

    What the handlers of Work.v promise.  Requests of a client are answered in
    the order it made them, whether the server answers, the pooler makes the
    answer up or hides one, also when requests are given up after an error or
    at the end of a COPY. *)

From S2P Require Import Prelude Refs Protocol MBuf PktBuf Proto Messages PoolSpec World Prepare Statements.
From S2P Require Import Transparent Contract Work.
From stdpp Require Import base option countable gmap list strings.
#[local] Open Scope Z_scope.

(** ** Effects on one server's queue *)

(** What an answer to a request of one of [types] takes from the queue: the
    head, if it is such a request and one the server answers. *)
Definition takes (types : list Z) (l : list OutstandingRequest) : list OutstandingRequest :=
  match l with
  | [] => []
  | r :: _ => if negb (bool_decide (or_action r = RA_FAKE)) && bool_decide (or_type r ∈ types) then [r] else []
  end.

(** The client did not ask for it. *)
Definition hidden (l : list OutstandingRequest) : bool :=
  match l with r :: _ => bool_decide (or_action r = RA_SKIP) | [] => false end.

Lemma pop_run s types v σ p ig σ' :
  st_servers σ !! s = Some v -> pop_outstanding_request s types σ = Ok ((p, ig), σ') ->
  exists v', st_servers σ' !! s = Some v' /\ pv_requests v = takes types (pv_requests v) ++ pv_requests v' /\
    pv_extra_packets v' = pv_extra_packets v /\ ig = hidden (takes types (pv_requests v)) /\
    p = negb (bool_decide (takes types (pv_requests v) = [])).
Proof.
  intros Es E. unfold pop_outstanding_request in E. apply SM_bind_ok in E as (v1 & σ1 & E1 & E).
  unfold the_server in E1. rewrite Es in E1. injection E1 as <- <-.
  destruct (pv_requests v) as [|r rest] eqn:Er; [injection E as <- <- <-; exists v; by rewrite Er|]. cbn [takes].
  case_bool_decide as Hf; [injection E as <- <- <-; exists v; by rewrite Er|]. cbn [negb andb].
  case_bool_decide as Ht; cbn [negb] in E; [|injection E as <- <- <-; exists v; by rewrite Er].
  apply SM_bind_ok in E as (u & σ2 & E2 & E). apply (mod_server_run s _ v) in E2; [|done].
  apply SM_bind_ok in E as (u' & σ3 & E3 & E). injection E as <- <- <-.
  assert (st_servers σ3 = st_servers σ2) as ->; [|eexists; by split].
  destruct (or_server_ps r); [by apply drop_use_run in E3|by injection E3 as _ <-].
Qed.

Lemma queue_extra_run mem s t v σ b σ' :
  st_servers σ !! s = Some v -> queue_extra mem s t σ = Ok (b, σ') -> b = true ->
  st_servers σ' !! s = Some (put_extra t v).
Proof.
  intros Es E ->. eapply good_run in E; [|by apply (allocate_mod_good mem s (put_extra t))].
  cbn [moves] in E. by apply (at_server_lookup _ _ _ _ E).
Qed.

Lemma fake_response_run mem s t v σ σ' :
  st_servers σ !! s = Some v -> queue_fake_response mem s t σ = Ok (true, σ') ->
  st_servers σ' !! s = Some (put_extra (fake_answer t) v).
Proof.
  intros Es. unfold queue_fake_response, fake_answer. case_bool_decide; [intros E; by eapply queue_extra_run|].
  case_bool_decide; [intros E; by eapply queue_extra_run|done].
Qed.

(** The fakes at the head of the queue are answered, in order. *)
Definition flushes_fakes (v v' : PServer) : Prop :=
  exists fs, pv_requests v = fs ++ pv_requests v' /\ Forall (fun r => or_action r = RA_FAKE) fs /\
    no_fake_head (pv_requests v') /\
    pv_extra_packets v' = pv_extra_packets v ++ (fake_answer ∘ or_type <$> fs).

Lemma fakes_loop_run mem s l v σ σ' :
  st_servers σ !! s = Some v -> pv_requests v = l -> send_fake_loop mem s l σ = Ok (true, σ') ->
  exists v', st_servers σ' !! s = Some v' /\ flushes_fakes v v'.
Proof.
  revert v σ. induction l as [|r l IH]; intros v σ Es El E.
  - injection E as <-. exists v. split; [done|]. exists []. rewrite El. split_and!; [done|constructor|done|by rewrite app_nil_r].
  - cbn [send_fake_loop] in E. case_bool_decide as Hf; cbn [negb] in E.
    + apply SM_bind_ok in E as (u & σ1 & E1 & E). apply (mod_server_run s _ v) in E1; [|done].
      apply SM_bind_ok in E as (b & σ2 & E2 & E). destruct b; [|by injection E].
      apply (fake_response_run mem s _ _ _ _ E1) in E2.
      destruct (IH _ _ E2 ltac:(done) E) as (v' & Es' & fs & Hr & Hfs & Hh & Hx).
      exists v'. split; [done|]. exists (r :: fs). cbn in Hr, Hx. split_and!.
      * by rewrite El, Hr.
      * by constructor.
      * done.
      * rewrite Hx. by rewrite <- (assoc_L (++)).
    + injection E as <-. exists v. split; [done|]. exists []. rewrite El. split_and!; [done|constructor|done|by rewrite app_nil_r].
Qed.

Lemma fakes_run mem s v σ σ' :
  st_servers σ !! s = Some v -> send_pending_fake_responses mem s σ = Ok (true, σ') ->
  exists v', st_servers σ' !! s = Some v' /\ flushes_fakes v v'.
Proof.
  intros Es E. apply SM_bind_ok in E as (v1 & σ1 & E1 & E). unfold the_server in E1. rewrite Es in E1.
  injection E1 as <- <-. by eapply fakes_loop_run.
Qed.

(** Freeing tables leaves queue and answers alone. *)
Definition same_queue (v v' : PServer) : Prop :=
  pv_requests v' = pv_requests v /\ pv_extra_packets v' = pv_extra_packets v.

Lemma free_server_run s v σ u σ' :
  st_servers σ !! s = Some v -> free_server_prepared_statements s σ = Ok (u, σ') ->
  exists v', st_servers σ' !! s = Some v' /\ same_queue v v'.
Proof.
  intros Es E. apply SM_bind_ok in E as (v1 & σ1 & E1 & E). apply the_table_run in E1 as (-> & E1 & _).
  simplify_eq. revert E. generalize (pv_statements v). intros l. revert v σ Es.
  induction l as [|e l IH]; intros v σ Es E; [injection E as _ <-; by exists v|].
  cbn [free_server_loop] in E. apply SM_bind_ok in E as (u1 & σ1 & E1 & E).
  apply (mod_server_run s _ v) in E1; [|done]. apply SM_bind_ok in E as (u2 & σ2 & E2 & E).
  apply drop_use_run in E2. rewrite <- E2 in E1. destruct (IH _ _ E1 E) as (v' & Es' & H1 & H2).
  by exists v'.
Qed.

Lemma free_client_run c σ u σ' :
  free_client_prepared_statements c σ = Ok (u, σ') -> st_servers σ' = st_servers σ.
Proof.
  intros E. apply SM_bind_ok in E as (t & σ1 & E1 & E). unfold client_table in E1.
  destruct (st_clients σ !! c); [|done]. injection E1 as <- <-. revert σ E.
  induction l as [|e l IH]; intros σ E; [by injection E as _ <-|].
  cbn [free_client_loop] in E. apply SM_bind_ok in E as (u1 & σ1 & E1 & E). injection E1 as _ <-.
  apply SM_bind_ok in E as (u2 & σ2 & E2 & E). apply drop_use_run in E2. apply IH in E. by rewrite E, E2.
Qed.

(** ** Packets from the server *)

(** The requests a packet of the server can be the last answer to. *)
Definition answer_of (type : Z) : list Z :=
  let ty t := bool_decide (type = t) in
  if ty PqMsg_ReadyForQuery then [PqMsg_Sync; PqMsg_Query; PqMsg_FunctionCall]
  else if ty PqMsg_CommandComplete then [PqMsg_Execute]
  else if ty PqMsg_ParseComplete then [PqMsg_Parse]
  else if ty PqMsg_BindComplete then [PqMsg_Bind]
  else if ty PqMsg_CloseComplete then [PqMsg_Close]
  else if ty PqMsg_NoData || ty PqMsg_RowDescription then [PqMsg_Describe]
  else if ty PqMsg_EmptyQueryResponse || ty PqMsg_PortalSuspended then [PqMsg_Execute]
  else [].

(** What the switch did to the queue: the requests [gone] were given up, then
    [taken] was taken off; [ig]: the client did not ask for it. *)
Definition pops (gone taken : list OutstandingRequest) (v v' : PServer) (ig : bool) : Prop :=
  pv_extra_packets v' = pv_extra_packets v /\
  pv_requests v = gone ++ taken ++ pv_requests v' /\ ig = hidden taken.

Lemma pops_none v v' : same_queue v v' -> pops [] [] v v' false.
Proof. intros [? ?]. by split_and!. Qed.

Lemma lift_run {B} (m : SM PStore B) w b w' :
  lift m w = Ok (b, w') ->
  exists σ', m (wk_store w) = Ok (b, σ') /\ w' = mkWork σ' (wk_servers w) (wk_clients w).
Proof. unfold lift. destruct (m _) as [[? ?]| | |]; try done. intros [= <- <-]. eauto. Qed.

Lemma server_of_run s w x w' : server_of s w = Ok (x, w') -> w' = w /\ wk_servers w !! s = Some x.
Proof. unfold server_of. destruct (_ !! s); [|done]. by intros [= <- <-]. Qed.

Lemma client_of_run c w y w' : client_of c w = Ok (y, w') -> w' = w /\ wk_clients w !! c = Some y.
Proof. unfold client_of. destruct (_ !! c); [|done]. by intros [= <- <-]. Qed.

Lemma upd_server_run s f w u w' :
  upd_server s f w = Ok (u, w') ->
  exists x, wk_servers w !! s = Some x /\
    w' = mkWork (wk_store w) (<[s := f x]> (wk_servers w)) (wk_clients w).
Proof. unfold upd_server. destruct (_ !! s) as [x|]; [|done]. intros [= _ <-]. eauto. Qed.

Lemma upd_client_run c f w u w' :
  upd_client c f w = Ok (u, w') ->
  exists y, wk_clients w !! c = Some y /\
    w' = mkWork (wk_store w) (wk_servers w) (<[c := f y]> (wk_clients w)).
Proof. unfold upd_client. destruct (_ !! c) as [y|]; [|done]. intros [= _ <-]. eauto. Qed.

(** Inverts the steps of a handler that came back. *)
Ltac winv :=
  repeat match goal with
  | H : mbind _ _ _ = Ok _ |- _ =>
      let a := fresh "a" in let w := fresh "w" in let E := fresh "E" in
      apply SM_bind_ok in H as (a & w & E & H)
  | H : server_of _ _ = Ok _ |- _ => apply server_of_run in H as [-> H]
  | H : client_of _ _ = Ok _ |- _ => apply client_of_run in H as [-> H]
  | H : mret _ _ = Ok _ |- _ => injection H; clear H; intros; subst
  | H : upd_server _ _ _ = Ok _ |- _ =>
      let x := fresh "x" in let Hx := fresh "Hx" in apply upd_server_run in H as (x & Hx & ->)
  | H : upd_client _ _ _ = Ok _ |- _ =>
      let y := fresh "y" in let Hy := fresh "Hy" in apply upd_client_run in H as (y & Hy & ->)
  | H : lift _ _ = Ok _ |- _ =>
      let σ := fresh "σ" in let Hm := fresh "Hm" in apply lift_run in H as (σ & Hm & ->)
  | H : plain_after _ = inr _ |- _ => injection H; clear H; intros; subst
  | H : inl _ = inr _ |- _ => discriminate H
  | H : inr _ = inr _ |- _ => injection H; clear H; intros; subst
  | H : inr _ = inl _ |- _ => discriminate H
  | H : context [let '(_, _) := ?p in _] |- _ => is_var p; destruct p
  end; cbn [wk_store wk_servers wk_clients] in *.

Section ServerSide.
Context (mem : nat -> bool) (cf : WConfig).

(** What the switch leaves alone. *)
Definition kept (s : positive) (w w' : Work) : Prop :=
  (forall x', wk_servers w' !! s = Some x' -> exists x, wk_servers w !! s = Some x /\
     ws_link x' = ws_link x /\ ws_setting_vars x' = ws_setting_vars x) /\
  (forall c y', wk_clients w' !! c = Some y' -> exists y, wk_clients w !! c = Some y /\ wc_login y' = wc_login y).

Lemma kept_refl s w : kept s w w.
Proof. split; eauto. Qed.

Lemma kept_store s w σ : kept s w (mkWork σ (wk_servers w) (wk_clients w)).
Proof. split; cbn; eauto. Qed.

Lemma kept_upd s w f x σ m :
  wk_servers w !! s = Some x -> ws_link (f x) = ws_link x -> ws_setting_vars (f x) = ws_setting_vars x ->
  (forall c y', m !! c = Some y' -> exists y, wk_clients w !! c = Some y /\ wc_login y' = wc_login y) ->
  kept s w (mkWork σ (<[s := f x]> (wk_servers w)) m).
Proof.
  intros Hx H1 H2 Hm. split; cbn; [|done]. intros x'. rewrite lookup_insert_eq. intros [= <-]. eauto.
Qed.

Lemma pop_work_run s types w p ig w' v :
  st_servers (wk_store w) !! s = Some v -> pop s types w = Ok ((p, ig), w') ->
  wk_servers w' = wk_servers w /\ wk_clients w' = wk_clients w /\
  exists v', st_servers (wk_store w') !! s = Some v' /\ pops [] (takes types (pv_requests v)) v v' ig /\
    p = negb (bool_decide (takes types (pv_requests v) = [])).
Proof.
  intros Es E. unfold pop in E. winv. split; [done|]. split; [done|].
  destruct (pop_run s types v _ _ _ _ Es Hm) as (v' & Es' & Er & Ex & Hig & Hp). exists v'. by split_and!.
Qed.

Lemma clear_work_run s types w w' v :
  st_servers (wk_store w) !! s = Some v -> clear mem s types w = Ok (true, w') ->
  wk_servers w' = wk_servers w /\ wk_clients w' = wk_clients w /\
  exists v', st_servers (wk_store w') !! s = Some v' /\ pops (dropped types (pv_requests v)) [] v v' false.
Proof.
  intros Es E. unfold clear in E. apply lift_run in E as (σ & E & ->). cbn. split; [done|]. split; [done|].
  apply SM_bind_ok in E as (v1 & σ1 & E1 & E). unfold the_server in E1. rewrite Es in E1. injection E1 as <- <-.
  destruct (clear_loop_run mem s types _ v _ _ Es eq_refl E) as (v' & Es' & _ & Hq & Hx). exists v'.
  split; [done|]. split_and!; [done| |done]. cbn. by rewrite Hq, dropped_remaining.
Qed.

(** What the switch does: to the queue, and not to what [kept] names. *)
Definition switched (gone taken : list OutstandingRequest) (s : positive) (w : Work) (v : PServer) (a : after_switch)
    (w' : Work) : Prop :=
  kept s w w' /\ exists v', st_servers (wk_store w') !! s = Some v' /\ pops gone taken v v' (as_ignore_packet a).

Lemma kept_same s w w' : wk_servers w' = wk_servers w -> wk_clients w' = wk_clients w -> kept s w w'.
Proof. intros E1 E2. unfold kept. rewrite E1, E2. split; eauto. Qed.

Lemma on_answer_run s type w a w' v :
  st_servers (wk_store w) !! s = Some v -> on_answer s type w = Ok (inr a, w') ->
  switched [] (takes [type] (pv_requests v)) s w v a w'.
Proof.
  intros Es E. unfold on_answer in E. apply SM_bind_ok in E as ([p ig] & w1 & E1 & E). winv.
  destruct (pop_work_run _ _ _ _ _ _ _ Es E1) as (H1 & H2 & v' & ? & ? & _). split; [by apply kept_same|]. eauto.
Qed.

(** The requests that are given up when a packet of type [type] arrives: after
    an error those up to the Sync, for a COPY the server ended by itself those
    up to the end of the client's data. *)
Definition given_up (x : WServer) (type : Z) (l : list OutstandingRequest) : list OutstandingRequest :=
  if bool_decide (type = PqMsg_ReadyForQuery) then
    if bool_decide (takes (answer_of type) l = []) && ws_query_failed x then dropped [PqMsg_Sync] l else []
  else if negb (ws_copy_mode x) then []
  else if bool_decide (type = PqMsg_ErrorResponse) then dropped [PqMsg_CopyDone; PqMsg_CopyFail] l
  else if bool_decide (type = PqMsg_CommandComplete) then dropped [PqMsg_CopyDone] l
  else [].

(** The request the packet answers, if any. *)
Definition answered (x : WServer) (type : Z) (l : list OutstandingRequest) : list OutstandingRequest :=
  if bool_decide (type = PqMsg_ReadyForQuery) then takes (answer_of type) l
  else takes (answer_of type) (drop (length (given_up x type l)) l).

Lemma ready_run s state x w a w' v :
  st_servers (wk_store w) !! s = Some v -> wk_servers w !! s = Some x ->
  on_ready_for_query mem cf s state w = Ok (inr a, w') ->
  switched (given_up x PqMsg_ReadyForQuery (pv_requests v)) (answered x PqMsg_ReadyForQuery (pv_requests v)) s w v a w'.
Proof.
  intros Es Ex E. unfold on_ready_for_query in E. destruct state as [st|]; [|by winv].
  apply SM_bind_ok in E as ([p ig] & w1 & E1 & E).
  destruct (pop_work_run _ _ _ _ _ _ _ Es E1) as (Hsv & Hcl & v1 & Es1 & (Hx1 & Hr1 & Hig) & Hp).
  apply SM_bind_ok in E as (x1 & w2 & E2 & E). apply server_of_run in E2 as [-> Hx].
  rewrite Hsv, Ex in Hx. injection Hx as <-.
  apply SM_bind_ok in E as (ok & w3 & E3 & E). destruct ok; cbn [negb] in E; [|by winv].
  apply SM_bind_ok in E as (u & w4 & E4 & E). apply upd_server_run in E4 as (x2 & Hx2 & ->).
  assert (Hig' : as_ignore_packet a = ig /\ w' = mkWork (wk_store w3)
    (<[s := set_query_failed false x2]> (wk_servers w3)) (wk_clients w3)).
  { destruct (bool_decide (st = 73)); [by winv|]. destruct (bool_decide _); by winv. }
  destruct Hig' as [Hig' ->]. unfold switched. rewrite Hig'.
  change (given_up x PqMsg_ReadyForQuery (pv_requests v)) with
    (if bool_decide (takes [PqMsg_Sync; PqMsg_Query; PqMsg_FunctionCall] (pv_requests v) = []) && ws_query_failed x
     then dropped [PqMsg_Sync] (pv_requests v) else []).
  change (answered x PqMsg_ReadyForQuery (pv_requests v)) with
    (takes [PqMsg_Sync; PqMsg_Query; PqMsg_FunctionCall] (pv_requests v)).
  set (tk := takes _ (pv_requests v)) in *. rewrite Hp, negb_involutive in E3.
  destruct (bool_decide (tk = []) && ws_query_failed x) eqn:Hc.
  - apply andb_true_iff in Hc as [Hc _]. bprop. rewrite Hc in *. cbn in Hr1.
    destruct (clear_work_run _ _ _ _ _ Es1 E3) as (Hsv3 & Hcl3 & v3 & Es3 & Hx3 & Hr3 & _).
    rewrite Hsv3, Hsv in *. split; [apply kept_upd; [done..|]; rewrite Hcl3, Hcl; eauto|]. exists v3. split; [done|].
    rewrite <- Hr1 in Hr3. split_and!; [congruence|exact Hr3|done].
  - injection E3 as <-. rewrite Hsv in *. split; [apply kept_upd; [done..|]; rewrite Hcl; eauto|]. exists v1. split; [done|].
    by split_and!.
Qed.

Lemma error_run s x w a w' v :
  st_servers (wk_store w) !! s = Some v -> wk_servers w !! s = Some x ->
  on_error_response mem s w = Ok (inr a, w') ->
  switched (if ws_copy_mode x then dropped [PqMsg_CopyDone; PqMsg_CopyFail] (pv_requests v) else []) [] s w v a w'.
Proof.
  intros Es Ex E. unfold on_error_response in E.
  apply SM_bind_ok in E as (x1 & w2 & E2 & E). apply server_of_run in E2 as [-> Hx1].
  rewrite Ex in Hx1. injection Hx1 as <-. destruct (ws_setting_vars x); [by winv|].
  apply SM_bind_ok in E as (ok & w3 & E3 & E). destruct ok; cbn [negb] in E; [|by winv].
  apply SM_bind_ok in E as (u & w4 & E4 & E). apply upd_server_run in E4 as (x4 & Hx4 & ->).
  unfold plain_after in E. injection E as <- <-. destruct (ws_copy_mode x).
  - apply SM_bind_ok in E3 as (u3 & w5 & E5 & E3). apply upd_server_run in E5 as (x5 & Hx5 & ->).
    rewrite Ex in Hx5. injection Hx5 as <-.
    apply (clear_work_run _ _ _ _ v) in E3 as (Hsv & Hcl & v3 & Es3 & Hp); [|done]. cbn in Hsv, Hcl.
    rewrite Hsv, lookup_insert_eq in Hx4. injection Hx4 as <-. split; [|by exists v3].
    rewrite Hsv, insert_insert_eq. apply (kept_upd s w (set_query_failed true ∘ set_copy_mode false)); [done..|].
    rewrite Hcl. eauto.
  - injection E3 as <-. split; [apply kept_upd; eauto|]. exists v. split; [done|]. by apply pops_none.
Qed.

Lemma command_run s client len tag x w a w' v :
  st_servers (wk_store w) !! s = Some v -> wk_servers w !! s = Some x ->
  on_command_complete mem cf s client len tag w = Ok (inr a, w') ->
  let gone := if ws_copy_mode x then dropped [PqMsg_CopyDone] (pv_requests v) else [] in
  switched gone (takes [PqMsg_Execute] (drop (length gone) (pv_requests v))) s w v a w'.
Proof.
  intros Es Ex E gone. unfold on_command_complete in E.
  apply SM_bind_ok in E as (x1 & w2 & E2 & E). apply server_of_run in E2 as [-> Hx1].
  rewrite Ex in Hx1. injection Hx1 as <-.
  apply SM_bind_ok in E as (ok & w3 & E3 & E). destruct ok; cbn [negb] in E; [|by winv].
  assert (H3 : kept s w w3 /\ exists v3, st_servers (wk_store w3) !! s = Some v3 /\ pops gone [] v v3 false).
  { unfold gone. destruct (ws_copy_mode x).
    - apply SM_bind_ok in E3 as (u3 & w5 & E5 & E3). apply upd_server_run in E5 as (x5 & Hx5 & ->).
      rewrite Ex in Hx5. injection Hx5 as <-.
      apply (clear_work_run _ _ _ _ v) in E3 as (Hsv & Hcl & v3 & Es3 & Hp); [|done]. cbn in Hsv, Hcl.
      split; [|by exists v3]. destruct w3; cbn in *; subst. apply kept_upd; eauto.
    - injection E3 as <-. split; [apply kept_refl|]. exists v. split; [done|]. by apply pops_none. }
  destruct H3 as ([K1 K2] & v3 & Es3 & Hx3 & Hr3 & _). cbn in Hr3.
  apply SM_bind_ok in E as (read & w4 & E4 & E). destruct read; [|by winv]. cbn [negb] in E.
  assert (H4 : exists v4, st_servers (wk_store w4) !! s = Some v4 /\ same_queue v3 v4 /\
    wk_servers w4 = wk_servers w3 /\ wk_clients w4 = wk_clients w3).
  { destruct (_ && _); [|winv; exists v3; by split_and!]. destruct tag as [tag|]; [|by winv].
    destruct (_ || _); [|winv; exists v3; by split_and!].
    apply SM_bind_ok in E4 as (u & w5 & E5 & E4). apply lift_run in E5 as (σ5 & E5 & ->).
    destruct (free_server_run _ _ _ _ _ Es3 E5) as (v5 & Es5 & Hq5). destruct client as [c|]; [|winv; exists v5; by split_and!].
    apply SM_bind_ok in E4 as (u6 & w6 & E6 & E4). apply lift_run in E6 as (σ6 & E6 & ->). winv.
    apply free_client_run in E6. cbn in E6. rewrite E6. exists v5. by split_and!. }
  destruct H4 as (v4 & Es4 & [Hq4 Hx4] & Hs4 & Hc4).
  apply SM_bind_ok in E as ([p ig] & w7 & E7 & E). winv.
  destruct (pop_work_run _ _ _ _ _ _ _ Es4 E7) as (Hs7 & Hc7 & v' & Es' & (Hx7 & Hr7 & Hig) & _). split.
  - split; [rewrite Hs7, Hs4; eauto|rewrite Hc7, Hc4; eauto].
  - exists v'. split; [done|]. rewrite Hq4 in Hr7, Hig. rewrite Hr3, drop_app_length. split_and!; [congruence| |done].
    rewrite Hr3 at 1. f_equal. exact Hr7.
Qed.

Lemma plain_run s w v a w' ig :
  st_servers (wk_store w) !! s = Some v -> (mret (plain_after ig) : SM Work _) w = Ok (inr a, w') -> ig = false ->
  switched [] [] s w v a w'.
Proof.
  intros Es E ->. unfold plain_after in E. injection E as <- <-. split; [apply kept_refl|].
  exists v. split; [done|]. by apply pops_none.
Qed.

Lemma takes_none l : takes [] l = [].
Proof. destruct l as [|r l]; [done|]. cbn. rewrite (bool_decide_eq_false_2 (_ ∈ [])) by apply not_elem_of_nil. by rewrite andb_false_r. Qed.

(** A packet that ends no COPY and no error gives nothing up. *)
Lemma nothing_given_up x type l :
  type <> PqMsg_ReadyForQuery -> type <> PqMsg_ErrorResponse -> type <> PqMsg_CommandComplete ->
  given_up x type l = [] /\ answered x type l = takes (answer_of type) l.
Proof.
  intros H1 H2 H3. assert (E : given_up x type l = []).
  { unfold given_up. rewrite !bool_decide_eq_false_2 by done. by destruct (negb _). }
  split; [done|]. unfold answered. by rewrite bool_decide_eq_false_2, E.
Qed.

Lemma given_up_error x l :
  given_up x PqMsg_ErrorResponse l = if ws_copy_mode x then dropped [PqMsg_CopyDone; PqMsg_CopyFail] l else [].
Proof. unfold given_up. by destruct (ws_copy_mode x). Qed.

Lemma answered_error x l : answered x PqMsg_ErrorResponse l = [].
Proof. apply takes_none. Qed.

Lemma given_up_command x l :
  given_up x PqMsg_CommandComplete l = if ws_copy_mode x then dropped [PqMsg_CopyDone] l else [].
Proof. unfold given_up. by destruct (ws_copy_mode x). Qed.

Lemma answered_command x l :
  answered x PqMsg_CommandComplete l = takes [PqMsg_Execute] (drop (length (given_up x PqMsg_CommandComplete l)) l).
Proof. reflexivity. Qed.

Lemma switch_run s client type len state tag loaded x w a w' v :
  st_servers (wk_store w) !! s = Some v -> wk_servers w !! s = Some x ->
  server_switch mem cf s client type len state tag loaded w = Ok (inr a, w') ->
  switched (given_up x type (pv_requests v)) (answered x type (pv_requests v)) s w v a w'.
Proof.
  intros Es Ex E. unfold server_switch in E.
  case_bool_decide as T1; [subst; by eapply ready_run|].
  case_bool_decide as T2; [subst; destruct (nothing_given_up x PqMsg_ParameterStatus (pv_requests v)) as [-> ->]; [done..|];
    cbn [answer_of]; rewrite takes_none; destruct loaded; [by eapply plain_run|by winv]|].
  case_bool_decide as T3.
  { subst. eapply error_run in E; [|done..]. by rewrite given_up_error, answered_error. }
  case_bool_decide as T4.
  { subst. eapply command_run in E; [|done..]. by rewrite answered_command, given_up_command. }
  destruct (nothing_given_up x type (pv_requests v)) as [-> ->]; [done..|]. unfold answer_of.
  rewrite (bool_decide_eq_false_2 _ T1), (bool_decide_eq_false_2 _ T4).
  case_bool_decide as T5; [subst; cbn -[takes]; rewrite takes_none; by eapply plain_run|].
  case_bool_decide as T6.
  { subst; cbn -[takes]. rewrite takes_none. winv. split; [apply kept_refl|]. exists v. split; [done|]. by apply pops_none. }
  destruct (bool_decide (type = PqMsg_CopyInResponse) || _) eqn:T7.
  { assert (Et : type = PqMsg_CopyInResponse \/ type = PqMsg_CopyBothResponse)
      by (apply orb_true_iff in T7 as [?|?]; bprop; auto).
    apply SM_bind_ok in E as (u & w1 & E1 & E). apply upd_server_run in E1 as (x1 & Hx1 & ->).
    assert (Hm : as_ignore_packet a = false /\ wk_store w' = wk_store w /\
      wk_servers w' = <[s := set_copy_mode true x1]> (wk_servers w) /\
      forall c y', wk_clients w' !! c = Some y' -> exists y, wk_clients w !! c = Some y /\ wc_login y' = wc_login y).
    { destruct client as [c|]; winv; split_and!; try done; [|eauto].
      intros c' y'. rewrite lookup_insert. destruct (decide (c = c')) as [<-|]; [intros [= <-]|]; eauto. }
    destruct Hm as (Hig & Hst & Hsv & Hcl). split.
    - destruct w' as [? ? ?]; cbn in *; subst. by apply kept_upd.
    - rewrite Hst, Hig. exists v. split; [done|].
      destruct Et as [-> | ->]; cbn -[takes]; rewrite takes_none; by apply pops_none. }
  case_bool_decide as T8; [subst; cbn -[takes]; rewrite takes_none; by eapply plain_run|].
  case_bool_decide as T9; [by eapply on_answer_run|].
  case_bool_decide as T10; [by eapply on_answer_run|].
  case_bool_decide as T11; [by eapply on_answer_run|].
  destruct (bool_decide (type = PqMsg_NoData) || _); [by eapply on_answer_run|].
  destruct (bool_decide (type = PqMsg_ParameterDescription) || _ || _ || _) eqn:T12.
  { assert (Hno : bool_decide (type = PqMsg_EmptyQueryResponse) || bool_decide (type = PqMsg_PortalSuspended) = false).
    { rewrite !orb_true_iff in T12. destruct T12 as [[[?|?]|?]|?]; bprop; by subst. }
    rewrite Hno, takes_none. by eapply plain_run. }
  destruct (bool_decide (type = PqMsg_EmptyQueryResponse) || _); [by eapply on_answer_run|].
  rewrite takes_none. destruct (bool_decide (type = PqMsg_CopyData) || _); [by eapply plain_run|by winv].
Qed.

(** The switch does not return early to skip or send the packet. *)
Definition not_relayed {X} (r : did + X) : Prop := match r with inl d => d <> D_send /\ d <> D_skip /\ d <> D_auth_query | inr _ => True end.

Lemma switch_early s client type len state tag loaded :
  yields (server_switch mem cf s client type len state tag loaded) not_relayed.
Proof.
  unfold server_switch, on_ready_for_query, on_error_response, on_command_complete, on_answer. yields_solve.
  by destruct loaded.
Qed.

Lemma note_end_run s c a w u w' : note_end s c a w = Ok (u, w') -> wk_store w' = wk_store w.
Proof.
  intros E. unfold note_end in E. apply SM_bind_ok in E as (v & w1 & E1 & E).
  apply lift_run in E1 as (σ & E1 & ->). unfold the_server in E1.
  destruct (st_servers (wk_store w) !! s); [|done]. injection E1 as <- <-.
  case_bool_decide; [|by winv].
  apply SM_bind_ok in E as (y & w1 & E1 & E). apply client_of_run in E1 as [-> E1].
  apply SM_bind_ok in E as (u1 & w2 & E2 & E).
  assert (H2 : wk_store w2 = wk_store w).
  { destruct (_ || _); [|by winv]. destruct (negb _); [by winv|]. unfold assertW in E2.
    destruct (as_async_response a); [by injection E2 as _ <-|done]. }
  apply SM_bind_ok in E as (y3 & w3 & E3 & E). apply client_of_run in E3 as [-> E3].
  destruct (_ && _); by winv.
Qed.

(** What becomes of the queue: requests that can have no answer any more are
    given up; the head of what is left is answered by the packet, which the
    client gets unless it did not ask for it; then come the requests that wait
    for no server, by made up answers after it. *)
Definition answered_in_turn (x : WServer) (type : Z) (d : did) (v v' : PServer) : Prop :=
  exists fs, pv_requests v = given_up x type (pv_requests v) ++ answered x type (pv_requests v) ++
      fs ++ pv_requests v' /\
    Forall (fun r => or_action r = RA_FAKE) fs /\ no_fake_head (pv_requests v') /\
    pv_extra_packets v' = pv_extra_packets v ++ (fake_answer ∘ or_type <$> fs) /\
    d = if hidden (answered x type (pv_requests v)) then D_skip else D_send.

(** C7: a packet of a server that has a client, when it is passed on or
    dropped.  It answers the request at the head of the queue, if it is of a
    type that answers it, and none otherwise; the client gets it, unless that
    request was the pooler's own.  Then come made up answers for the requests
    behind it that need no server, in their order, and after that the head of
    the queue is something the server has to answer.  Requests are given up
    before that in three cases: at the ReadyForQuery after an error that finds
    no Sync, Query or FunctionCall at the head, those up to the next Sync; at
    an error and at a CommandComplete while the server is in COPY mode, those
    up to the end of the client's data.  While the server answers PgBouncer's
    own SET commands the client gets nothing. *)
Theorem server_packet_answers_in_turn s c x v type len state tag loaded w d w' :
  wk_servers w !! s = Some x -> ws_link x = Some c -> st_servers (wk_store w) !! s = Some v ->
  handle_server_work mem cf s type len state tag loaded w = Ok (d, w') -> d = D_send \/ d = D_skip ->
  if ws_setting_vars x then d = D_skip
  else exists v', st_servers (wk_store w') !! s = Some v' /\ answered_in_turn x type d v v'.
Proof.
  intros Ex El Es E Hd. unfold handle_server_work in E.
  apply SM_bind_ok in E as (x1 & w1 & E1 & E). apply server_of_run in E1 as [-> E1].
  rewrite Ex in E1. injection E1 as <-. rewrite El in E.
  apply SM_bind_ok in E as ([d'|a] & w1 & E1 & E).
  { injection E as <- <-. apply switch_early in E1 as (? & ? & _). by destruct Hd. }
  destruct (switch_run s (Some c) type len state tag loaded x w a w1 v Es Ex E1) as ([Hk1 Hk2] & v1 & Es1 & Hx1 & Hr1 & Hig).
  apply SM_bind_ok in E as (u & w2 & E2 & E). apply upd_server_run in E2 as (x2 & Hx2 & ->).
  destruct (Hk1 _ Hx2) as (x0 & Hx0 & Hl2 & Hv2). rewrite Ex in Hx0. injection Hx0 as <-.
  apply SM_bind_ok in E as (x3 & w3 & E3 & E). apply server_of_run in E3 as [-> E3].
  cbn in E3. rewrite lookup_insert_eq in E3. injection E3 as <-. cbn in E. rewrite Hv2 in E.
  destruct (ws_setting_vars x); [by winv|].
  apply SM_bind_ok in E as (y4 & w4 & E4 & E). apply client_of_run in E4 as [-> E4]. cbn in E4.
  destruct (wc_login y4); [injection E as <- <-; by destruct Hd|].
  apply SM_bind_ok in E as (u5 & w5 & E5 & E).
  assert (Hst5 : wk_store w5 = wk_store w1).
  { destruct (as_ignore_packet a); [by injection E5 as _ <-|]. by apply note_end_run in E5. }
  apply SM_bind_ok in E as (sent & w6 & E6 & E). apply lift_run in E6 as (σ6 & E6 & ->).
  injection E as <- <-. destruct sent; cbn [negb] in *; [|by destruct Hd].
  rewrite Hst5 in E6. destruct (fakes_run _ _ _ _ _ Es1 E6) as (v' & Es' & fs & Hr & Hfs & Hh & Hx).
  exists v'. split; [done|]. exists fs. rewrite <- Hig, <- Hr, <- Hx1. by split_and!.
Qed.
End ServerSide.

(** ** Packets from the client *)

Lemma asks_no_fake_head type v v' :
  no_fake_head (pv_requests v) -> asks type v v' -> no_fake_head (pv_requests v').
Proof.
  intros Hh [(L & -> & _ & _ & HL)|(_ & _ & -> & _)]; [|done].
  destruct (pv_requests v); [by apply HL|done].
Qed.

(** Reading from a packet only moves the read position. *)
Lemma mbuf_get_char_keeps d c d' : mbuf_get_char d = Ok (c, d') -> forall n, set_read_pos d' n = set_read_pos d n.
Proof.
  unfold mbuf_get_char, mbuf_next. intros E n. destruct (bool_decide _); [by rinv|].
  apply res_bind_ok in E as ([b d1] & E1 & E). apply res_bind_ok in E1 as (x & _ & E1).
  injection E1 as <- <-. by injection E as <- <-.
Qed.

Lemma mbuf_get_string_keeps d c d' : mbuf_get_string d = Ok (c, d') -> forall n, set_read_pos d' n = set_read_pos d n.
Proof. unfold mbuf_get_string. intros E n. rinv. destruct (memchr0 a); rinv; done. Qed.

Lemma or_else_ok {X Y} (r : res (option X * MBuf)) dflt (k : X -> MBuf -> res Y) y :
  or_else r dflt k = Ok y ->
  (exists d, r = Ok (None, d) /\ dflt d = Ok y) \/ (exists x d, r = Ok (Some x, d) /\ k x d = Ok y).
Proof.
  unfold or_else. intros E. apply res_bind_ok in E as ([[x|] d] & E1 & E); eauto 6.
Qed.

Definition fresh_packet (pkt : PktHdr) : Prop := read_pos (pkt_data pkt) = NEW_HEADER_LEN.

Lemma rewind_after pkt d :
  fresh_packet pkt -> (forall n, set_read_pos d n = set_read_pos (pkt_data pkt) n) ->
  pkt_rewind_v3 (set_data pkt d) = pkt.
Proof.
  intros Hf Hd. unfold pkt_rewind_v3, set_data. cbn. rewrite Hd. destruct pkt as [t l [? ? ? ? ? ?]].
  unfold fresh_packet in Hf. cbn in *. by subst.
Qed.

(** A Close the inspection wants handled names a statement. *)
Lemma inspect_close_named pkt a pkt1 p pkt2 :
  fresh_packet pkt -> inspect_describe_or_close_packet pkt = Ok (a, pkt1) -> a <> PS_IGNORE ->
  a <> PS_INSPECT_FAILED -> unmarshall_close_packet (pkt_rewind_v3 pkt1) = Ok (UOk p, pkt2) ->
  is_close_named_statement_packet p = true.
Proof.
  intros Hf E Ha Ha'. unfold inspect_describe_or_close_packet in E.
  apply or_else_ok in E as [(d & E1 & E)|(ch & d & E1 & E)]; [by injection E as <- <-|].
  case_bool_decide as Hch; cbn [negb] in E; [|by injection E as <- <-].
  apply or_else_ok in E as [(d2 & E2 & E)|(nm & d2 & E2 & E)]; [by injection E as <- <-|].
  injection E as <- <-. rewrite (rewind_after pkt d2 Hf).
  2: { intros n. rewrite (mbuf_get_string_keeps _ _ _ E2). by apply (mbuf_get_char_keeps _ _ _ E1). }
  intros E. unfold unmarshall_close_packet in E. destruct (incomplete_pkt pkt); [done|].
  rewrite E1 in E. cbn in E. rewrite E2 in E. cbn in E. injection E as <- <-.
  unfold is_close_named_statement_packet. cbn. subst ch. by destruct (is_empty nm).
Qed.

Section ClientSide.
Context {F : FindServer} (mem : nat -> bool) (cf : WConfig).

(** Does the client get an answer to this packet? *)
Definition expects_answer (x : WServer) (type : Z) : bool :=
  if bool_decide (type = PqMsg_Flush) || bool_decide (type = PqMsg_CopyData) then false
  else if bool_decide (type = PqMsg_CopyDone) || bool_decide (type = PqMsg_CopyFail) then ws_copy_mode x
  else true.

Record client_switched (c : positive) (link : option positive) (pkt : PktHdr) (x : WServer) (w : Work) (track : bool)
    (a : PreparedStatementAction) (pkt' : PktHdr) (w' : Work) : Prop := {
  cs_type : pkt_type pkt' = pkt_type pkt;
  cs_store : wk_store w' = wk_store w;
  cs_servers : wk_servers w' = wk_servers w;
  cs_link : exists y', wk_clients w' !! c = Some y' /\ wc_link y' = link;
  cs_track : track = expects_answer x (pkt_type pkt);
  cs_inspected : a = PS_IGNORE \/
    (pkt_type pkt = PqMsg_Parse \/ pkt_type pkt = PqMsg_Bind \/ pkt_type pkt = PqMsg_Describe \/
     (pkt_type pkt = PqMsg_Close /\ exists p, inspect_describe_or_close_packet pkt = Ok (a, p) /\ pkt' = pkt_rewind_v3 p))
}.

Lemma set_data_type f pkt a p :
  f = inspect_parse_packet \/ f = inspect_bind_packet \/ f = inspect_describe_or_close_packet ->
  f pkt = Ok (a, p) -> pkt_type p = pkt_type pkt.
Proof.
  intros Hf E.
  destruct Hf as [-> |[-> | ->]]; unfold inspect_parse_packet, inspect_bind_packet, inspect_describe_or_close_packet in E;
    repeat first [ apply or_else_ok in E as [(? & _ & E)|(? & ? & _ & E)] | case_bool_decide; cbn [negb] in E ];
    by injection E as _ <-.
Qed.

Lemma inspect_run f c y pkt x w track a pkt' w' :
  wk_clients w !! c = Some y ->
  f = inspect_parse_packet \/ f = inspect_bind_packet \/ f = inspect_describe_or_close_packet ->
  expects_answer x (pkt_type pkt) = true ->
  (pkt_type pkt = PqMsg_Parse \/ pkt_type pkt = PqMsg_Bind \/ pkt_type pkt = PqMsg_Describe \/
   (pkt_type pkt = PqMsg_Close /\ f = inspect_describe_or_close_packet)) ->
  inspect cf f pkt w = Ok (inr (track, a, pkt'), w') ->
  client_switched c (wc_link y) pkt x w track a pkt' w'.
Proof.
  intros Ey Hf Hx Ht E. unfold inspect in E. destruct (is_prepared_statements_enabled cf).
  - apply SM_bind_ok in E as ([a' p] & w1 & E1 & E). injection E as <- <- <- <-.
    unfold of_res in E1. destruct (f pkt) as [[a1 p1]| | |] eqn:Ef; try done. injection E1 as <- <- <-.
    pose proof (set_data_type _ _ _ _ Hf Ef) as Hty. split; try done; [by exists y|].
    right. destruct Ht as [?|[?|[?|[? ->]]]]; eauto 10.
  - injection E as <- <- <- <-. split; auto. by exists y.
Qed.

Lemma client_switch_run c y s x pkt w track a pkt' w' :
  wk_clients w !! c = Some y -> wc_link y = Some s -> wk_servers w !! s = Some x ->
  client_switch cf c pkt w = Ok (inr (track, a, pkt'), w') ->
  client_switched c (Some s) pkt x w track a pkt' w'.
Proof.
  intros Ey Hl Ex E. unfold client_switch in E.
  assert (Hsame : forall t, t = expects_answer x (pkt_type pkt) -> client_switched c (Some s) pkt x w t PS_IGNORE pkt w)
    by (intros t ->; split; auto; by exists y).
  case_bool_decide as T1; [destruct (cf_disable_pqexec cf); [done|]; injection E as <- <- <- <-; apply Hsame; by rewrite T1|].
  destruct (bool_decide (pkt_type pkt = PqMsg_FunctionCall) || _) eqn:T2.
  { injection E as <- <- <- <-. apply Hsame. apply orb_true_iff in T2 as [T|T]; bprop; by rewrite T. }
  case_bool_decide as T3; [injection E as <- <- <- <-; apply Hsame; by rewrite T3|].
  destruct (bool_decide (pkt_type pkt = PqMsg_CopyDone) || _) eqn:T4.
  { winv. rewrite Ey in E0. injection E0 as <-. rewrite Hl in E. winv. rewrite Ex in E0. injection E0 as <-.
    split; cbn; auto.
    - eexists. split; [apply lookup_insert_eq|]. cbn. congruence.
    - apply orb_true_iff in T4 as [T|T]; bprop; by rewrite T. }
  case_bool_decide as T5; [rewrite <- Hl; apply (inspect_run inspect_parse_packet); [done|auto|by rewrite T5|auto 10|exact E]|].
  case_bool_decide as T6; [injection E as <- <- <- <-; apply Hsame; by rewrite T6|].
  case_bool_decide as T7; [rewrite <- Hl; apply (inspect_run inspect_describe_or_close_packet); [done|auto|by rewrite T7|auto 10|exact E]|].
  case_bool_decide as T8; [rewrite <- Hl; apply (inspect_run inspect_bind_packet); [done|auto|by rewrite T8|auto 10|exact E]|].
  case_bool_decide as T9; [rewrite <- Hl; apply (inspect_run inspect_describe_or_close_packet); [done|auto|by rewrite T9|auto 10|exact E]|].
  case_bool_decide as T10; [|case_bool_decide; by winv].
  winv. rewrite Ey in E0. injection E0 as <-. rewrite Hl in E. winv. apply Hsame. by rewrite T10.
Qed.

Lemma of_res_run {X} (r : res X) w b w' : of_res r w = Ok (b, w') -> r = Ok b /\ w' = w.
Proof. unfold of_res. destruct r; try done. by intros [= <- <-]. Qed.

Definition not_passed {X} (r : did + X) : Prop :=
  match r with inl d => d <> D_send /\ d <> D_requeue /\ d <> D_done | inr _ => True end.

Lemma client_switch_early c pkt : yields (client_switch cf c pkt) not_passed.
Proof. unfold client_switch, inspect. yields_solve. Qed.

Lemma packet_ready_early pkt a d :
  packet_ready cf pkt a = Some d -> d <> D_send /\ d <> D_requeue /\ d <> D_done.
Proof. unfold packet_ready. intros E. by repeat (case_match; simplify_eq/=). Qed.

Section Linked.
Context (c s : positive) (S : gset positive) (A : positive -> list Z -> option (list Z))
  (w : Work) (v : PServer) (t : list PgClientPreparedStatement).
Context (Hmax : 1 <= u32 (cf_max_prepared cf)) (Hinv : Pinv (zlen (all_refs (wk_store w))) [] [] S A (wk_store w))
  (Hroom : roomy (wk_store w)) (Ec : st_clients (wk_store w) !! c = Some t)
  (Es : st_servers (wk_store w) !! s = Some v).

Lemma prepared_command_run pkt rest w1 d w' :
  wk_store w1 = wk_store w -> d = D_send \/ d = D_requeue \/ d = D_done ->
  prepared_command mem cf c s pkt rest w1 = Ok (d, w') ->
  pkt_type pkt = PqMsg_Parse \/ pkt_type pkt = PqMsg_Bind \/ pkt_type pkt = PqMsg_Describe ->
  exists v', st_servers (wk_store w') !! s = Some v' /\ asks (pkt_type pkt) v v'.
Proof using Hmax Hinv Hroom Ec Es.
  intros Hst Hd E Ht. destruct Hroom as [Hn1 Hn2]. unfold prepared_command in E.
  assert (Hfin : forall r w1, (mret (of_handled r) : SM Work did) w1 = Ok (d, w') -> r = H_true).
  { intros r w2 E2. injection E2 as <- <-. destruct r; try done; by destruct Hd as [?|[?|?]]. }
  case_bool_decide as T1.
  { apply SM_bind_ok in E as ([u p2] & w2 & E2 & E). apply of_res_run in E2 as [_ ->].
    destruct u as [p| |]; [|by winv; destruct Hd as [?|[?|?]]..].
    apply SM_bind_ok in E as (r & w3 & E3 & E). pose proof (Hfin _ _ E) as ->. injection E as _ <-.
    apply lift_run in E3 as (σ3 & E3 & ->). rewrite Hst in E3.
    eapply good_run in E3; [|by eapply parse_good]. destruct E3 as (_ & _ & v' & ? & ? & _). rewrite T1. eauto. }
  case_bool_decide as T2.
  { apply SM_bind_ok in E as ([u p2] & w2 & E2 & E). apply of_res_run in E2 as [_ ->].
    destruct u as [p| |]; [|by winv; destruct Hd as [?|[?|?]]..].
    apply SM_bind_ok in E as (r & w3 & E3 & E). pose proof (Hfin _ _ E) as ->. injection E as _ <-.
    apply lift_run in E3 as (σ3 & E3 & ->). rewrite Hst in E3.
    eapply good_run in E3; [|by eapply bind_good]. rewrite T2.
    destruct E3 as [(_ & _ & (v' & ? & ? & _) & _)|[([? ?] & _)|[_ [?|?]]]]; try done. eauto. }
  case_bool_decide as T3; [|by destruct Ht as [?|[?|?]]].
  apply SM_bind_ok in E as ([u p2] & w2 & E2 & E). apply of_res_run in E2 as [_ ->].
  destruct u as [p| |]; [|by winv; destruct Hd as [?|[?|?]]..].
  apply SM_bind_ok in E as (r & w3 & E3 & E). pose proof (Hfin _ _ E) as ->. injection E as _ <-.
  apply lift_run in E3 as (σ3 & E3 & ->). rewrite Hst in E3.
  assert (Hty : dp_type p = 83).
  { destruct (decide (dp_type p = 83)) as [|Hne]; [done|]. cbn [handle_describe_command] in E3.
    rewrite bool_decide_eq_false_2 in E3 by done. done. }
  rewrite Hty in E3. eapply good_run in E3; [|by eapply describe_good]. rewrite T3.
  destruct E3 as [(_ & _ & (v' & ? & ? & _) & _)|[([? ?] & _)|[_ [?|?]]]]; try done. eauto.
Qed.

Lemma close_command_run y pkt a sent_now w1 o w' :
  wk_store w1 = wk_store w -> wk_clients w1 !! c = Some y -> wc_link y = Some s ->
  close_command mem c pkt a sent_now w1 = Ok (o, w') ->
  match o with
  | None => w' = w1 /\ (a = PS_IGNORE \/ pkt_type pkt <> PqMsg_Close \/
      exists p pkt2, unmarshall_close_packet pkt = Ok (UOk p, pkt2) /\ is_close_named_statement_packet p = false)
  | Some d => d <> D_send /\ d <> D_requeue /\ (d = D_done -> pkt_type pkt = PqMsg_Close /\
      exists v', st_servers (wk_store w') !! s = Some v' /\
        (asks PqMsg_Close v v' \/ (nothing_in_flight_to_client v = true /\ sent_now = true /\ v' = v)))
  end.
Proof using Hinv Hroom Ec Es.
  intros Hst Ey Hl E. unfold close_command in E. destruct Hroom as [Hn1 Hn2].
  case_bool_decide as Ha; cbn [negb andb] in E; [injection E as <- <-; auto|].
  case_bool_decide as Ht; [|injection E as <- <-; auto].
  apply SM_bind_ok in E as ([u p2] & w2 & E2 & E). apply of_res_run in E2 as [Eu ->].
  destruct u as [p| |]; [|by injection E as <- <-..].
  destruct (is_close_named_statement_packet p) eqn:Hn; [|injection E as <- <-; eauto 10].
  winv. rewrite Ey in E0. injection E0 as <-. rewrite Hl, Hst in Hm.
  destruct a1; [|by split_and!]. split_and!; [done..|]. intros _. split; [done|].
  eapply good_run in Hm; [|eapply (close_good mem (zlen (all_refs (wk_store w))) ltac:(lia)); eauto; by intros ? [= <-]].
  destruct (Hm eq_refl) as [_ Hcl]. unfold closed_by in Hcl. rewrite Es in Hcl.
  destruct (nothing_in_flight_to_client v); [destruct Hcl; eauto 10|]. destruct Hcl as (v' & ? & ?). eauto.
Qed.

Lemma forward_run pkt track complete flushed queued w1 d w' :
  wk_store w1 = wk_store w -> d = D_send \/ d = D_requeue \/ d = D_done ->
  forward_packet mem s pkt track complete flushed queued w1 = Ok (d, w') ->
  exists v', st_servers (wk_store w') !! s = Some v' /\
    if track then asks (pkt_type pkt) v v' else v' = v.
Proof using Es.
  intros Hst Hd E. unfold forward_packet in E. apply SM_bind_ok in E as (ok & w2 & E2 & E).
  destruct ok; cbn [negb] in E; [|winv; by destruct Hd as [?|[?|?]]].
  assert (w' = w2) as ->.
  { destruct complete, flushed, queued; cbn [negb] in E; by injection E as _ <-. }
  destruct track.
  - apply lift_run in E2 as (σ2 & E2 & ->). rewrite Hst in E2.
    eapply good_run in E2; [|by apply add_request_good]. cbn [moves] in E2.
    eexists. split; [by apply (at_server_lookup _ _ _ _ E2)|]. left. by eexists.
  - injection E2 as <-. exists v. by rewrite Hst.
Qed.
End Linked.

(** C8: a packet of a client linked to a server, when it was handled to its
    end.  If the client expects an answer to it, requests are added at the end
    of the queue, of which exactly one is the client's, of the packet's type;
    any others are the pooler's own, whose answers the client does not see.
    Instead of that a Parse or Close can be answered at once: by a made up
    answer when nothing is in the queue, or, for a Close, directly when nothing
    is on its way to the client.  A packet that gets no answer leaves the queue
    alone.  The head of the queue stays something the server has to answer. *)
Theorem client_packet_asks_once c s S A x y v pkt rest sent_now complete flushed queued w d w' :
  1 <= u32 (cf_max_prepared cf) -> preach mem (cf_max_prepared cf) (wk_store w) S A -> roomy (wk_store w) ->
  is_Some (st_clients (wk_store w) !! c) -> st_servers (wk_store w) !! s = Some v ->
  wk_clients w !! c = Some y -> wc_link y = Some s -> wk_servers w !! s = Some x ->
  fresh_packet pkt -> no_fake_head (pv_requests v) ->
  handle_client_work mem cf c pkt rest sent_now complete flushed queued w = Ok (d, w') ->
  d = D_send \/ d = D_requeue \/ d = D_done ->
  exists v', st_servers (wk_store w') !! s = Some v' /\ no_fake_head (pv_requests v') /\
    if expects_answer x (pkt_type pkt)
    then asks (pkt_type pkt) v v' \/
         (pkt_type pkt = PqMsg_Close /\ nothing_in_flight_to_client v = true /\ sent_now = true /\ same_queue v v')
    else same_queue v v'.
Proof.
  intros Hmax Hr%preach_inv Hroom [t Ec] Es Ey Hl Ex Hfresh Hh E Hd; [|done].
  unfold handle_client_work in E. apply SM_bind_ok in E as ([d1|[[track a] p]] & w1 & E1 & E).
  { injection E as <- <-. apply client_switch_early in E1 as (? & ? & ?). by destruct Hd as [?|[?|?]]. }
  destruct (client_switch_run c y s x pkt w track a p w1 Ey Hl Ex E1) as [Hty Hst Hsv (y1 & Ey1 & Hl1) Htr Hin].
  destruct (packet_ready cf p a) as [d1|] eqn:Hpr.
  { injection E as <- <-. apply packet_ready_early in Hpr as (? & ? & ?). by destruct Hd as [?|[?|?]]. }
  apply SM_bind_ok in E as (o & w2 & E2 & E).
  pose proof (close_command_run c s S A w v t Hr Hroom Ec Es y1 p a sent_now w1 o w2 Hst Ey1 Hl1 E2) as Hcl.
  destruct o as [d1|].
  { injection E as <- <-. destruct Hcl as (? & ? & Hdone). destruct Hd as [?|[?|Hd]]; [done..|].
    destruct (Hdone Hd) as (Htc & v' & Es' & Hv'). rewrite Hty in Htc. exists v'. split; [done|]. rewrite Htc. cbn.
    destruct Hv' as [Hask|(Hnf & Hs & ->)].
    - split; [by eapply asks_no_fake_head|by left].
    - split; [done|]. right. by split_and!. }
  destruct Hcl as [-> Hnc]. apply SM_bind_ok in E as (u3 & w3 & E3 & E).
  apply upd_client_run in E3 as (y3 & Ey3 & ->). rewrite Ey1 in Ey3. injection Ey3 as <-.
  destruct (cf_admin cf); [injection E as <- <-; by destruct Hd as [?|[?|?]]|].
  apply SM_bind_ok in E as (f & w4 & E4 & E).
  erewrite find_server_linked in E4; [|cbn; apply lookup_insert_eq|exact Hl1].
  injection E4 as <- <-. cbn [negb] in E.
  apply SM_bind_ok in E as (y5 & w5 & E5 & E). apply client_of_run in E5 as [-> E5].
  cbn in E5. rewrite lookup_insert_eq in E5. injection E5 as <-. cbn [set_starts wc_link] in E. rewrite Hl1 in E.
  apply SM_bind_ok in E as (u6 & w6 & E6 & E). apply upd_server_run in E6 as (x6 & _ & ->).
  match type of E with _ ?ww = _ => assert (Hst6 : wk_store ww = wk_store w) by exact Hst; generalize dependent ww end.
  intros w6 E Hst6.
  case_bool_decide as Ha; cbn [negb] in E.
  - destruct (forward_run s w v Es p track complete flushed queued w6 d w' Hst6 Hd E) as (v' & Es' & Hv').
    exists v'. split; [done|]. rewrite <- Htr. rewrite Hty in Hv'. destruct track; [|by subst].
    split; [by eapply asks_no_fake_head|by left].
  - destruct flushed; cbn [negb] in E; [|injection E as <- <-; by destruct Hd as [?|[?|?]]].
    assert (Hpt : pkt_type p = PqMsg_Parse \/ pkt_type p = PqMsg_Bind \/ pkt_type p = PqMsg_Describe).
    { rewrite Hty. destruct Hin as [?|[?|[?|[?|(Htc & p1 & Ei & ->)]]]]; auto; [done|].
      exfalso. destruct Hnc as [?|[Hn|(q & q2 & Eu & Hq)]]; [done|by rewrite Hty in Hn|].
      rewrite (inspect_close_named pkt a p1 q q2 Hfresh Ei Ha) in Hq; [done| |exact Eu].
      intros ->. unfold packet_ready in Hpr. by destruct (_ && _) in Hpr. }
    destruct (prepared_command_run c s S A w v t Hmax Hr Hroom Ec Es p rest w6 d w' Hst6 Hd E Hpt) as (v' & Es' & Hask).
    rewrite Hty in Hask, Hpt. exists v'. split; [done|]. split; [by eapply asks_no_fake_head|].
    by destruct Hpt as [Ht|[Ht|Ht]]; rewrite Ht in Hask |- *; left.
Qed.
End ClientSide.

(** ** The promises at work *)
Module Example.
#[local] Open Scope positive_scope.

(** Nobody but a linked client gets a server. *)
#[export] Program Instance linked_only : FindServer := {
  look_for_server c w :=
    Ok (bool_decide (is_Some (y ← wk_clients w !! c; wc_link y)), w)
}.
Next Obligation. intros c y s w Ey El. cbn. by rewrite Ey; cbn; rewrite El. Qed.
Next Obligation. intros c y w w' Ey El. cbn. rewrite Ey. cbn. by rewrite El. Qed.
Next Obligation. by intros c w b w' [= _ <-]. Qed.
Next Obligation. intros c w b w' s x' [= _ <-] ? ?. eauto. Qed.

Definition config : WConfig := mkWConfig 1 POOL_TX false 4096 false 7.
Definition toy_server : WServer := mkWServer (Some 1) SV_ACTIVE false false false false false false.
Definition toy_client : WClient := mkWClient (Some 1) false false 0 0.
Definition toy_work : Work := mkWork toy_one {[1 := toy_server]} {[1 := toy_client]}.

(** Describe of the statement the client has parsed. *)
Definition toy_describe : PktHdr :=
  mkPktHdr PqMsg_Describe 9 (mkMBuf (Some [68; 0; 0; 0; 8; 83; 115; 1; 0]%Z) 5 9 9 true true).

Definition outcome_of {B} (m : SM Work B) (w : Work) : Work :=
  match m w with Ok (_, w') => w' | _ => w end.

Definition toy_answered : Work :=
  outcome_of (handle_server_work plenty config 1 PqMsg_ParseComplete 5 None None true) toy_work.
Definition toy_asked : Work :=
  outcome_of (handle_client_work plenty config 1 toy_describe [] true true true true) toy_work.

Lemma toy_answered_runs :
  handle_server_work plenty config 1 PqMsg_ParseComplete 5 None None true toy_work = Ok (D_send, toy_answered).
Proof. by vm_compute. Qed.

Lemma toy_asked_runs :
  handle_client_work plenty config 1 toy_describe [] true true true true toy_work = Ok (D_done, toy_asked).
Proof. by vm_compute. Qed.

Lemma toy_head : exists v, st_servers toy_one !! 1 = Some v /\ no_fake_head (pv_requests v).
Proof. eexists. split; by vm_compute. Qed.

#[local] Opaque toy_one toy_answered toy_asked.

Lemma server_packet_answers_in_turn_witness :
  exists v v', st_servers toy_one !! 1 = Some v /\ answered_in_turn toy_server PqMsg_ParseComplete D_send v v'.
Proof.
  destruct toy_head as (v & Ev & Hh). exists v.
  destruct (server_packet_answers_in_turn plenty config 1 1 toy_server v PqMsg_ParseComplete 5 None None true
    toy_work D_send toy_answered eq_refl eq_refl Ev toy_answered_runs (or_introl eq_refl)) as (v' & _ & Hv').
  exists v'. exact (conj Ev Hv').
Defined.

Lemma client_packet_asks_once_witness :
  exists v v', st_servers toy_one !! 1 = Some v /\ asks PqMsg_Describe v v'.
Proof.
  destruct toy_head as (v & Ev & Hh). exists v.
  destruct toy_roomy as (_ & R1 & _). destruct toy_sockets as (_ & _ & C1 & _).
  destruct (client_packet_asks_once plenty config 1 1 (∅ ∪ {[1%positive]})
    (bind_name (fun _ _ => None) 1 (toy_name 1) (Some (toy_query 1))) toy_server toy_client v toy_describe []
    true true true true toy_work D_done toy_asked) as (v' & _ & _ & Hv');
    [done|exact toy_one_reached|exact R1|exact C1|exact Ev|reflexivity..|exact Hh|exact toy_asked_runs|auto|].
  exists v'. split; [exact Ev|]. by destruct Hv' as [?|[? _]].
Defined.
End Example.
