(* ===== verification/Idle.v ===== *)
(** * A server goes back to the pool only when it is idle

    Runs of the handlers of Work.v over many clients and servers, with a
    record, kept beside the state, of the servers that have said they are idle
    and have been sent nothing since, by clients or by PgBouncer itself, and of
    those PgBouncer sent a test or reset query that they have not begun to
    answer.  The ready flag, which decides when EV_FLUSH releases a server, is
    only set for these; that it stays set for the second kind is a flaw
    ([test_released_unanswered]). *)

From S2P Require Import Prelude Refs Protocol MBuf PktBuf Proto Messages PoolSpec World Prepare Statements.
From S2P Require Import Transparent Contract Work Relay.
From stdpp Require Import base option countable gmap list strings.
#[local] Open Scope Z_scope.

Definition ready_in (w : Work) (s : positive) : Prop :=
  exists x, wk_servers w !! s = Some x /\ ws_ready x = true.

(** The server has not answered the SET commands of varcache_apply yet. *)
Definition vars_in (w : Work) (s : positive) : Prop :=
  exists x, wk_servers w !! s = Some x /\ ws_setting_vars x = true.

#[export] Instance vars_in_dec w s : Decision (vars_in w s).
Proof.
  unfold vars_in. destruct (wk_servers w !! s) as [x|]; [|right; by intros (? & ? & _)].
  destruct (decide (ws_setting_vars x = true)); [left; eauto|right]. by intros (? & [= <-] & ?).
Defined.

(** ** Code that makes no server ready *)

Definition quiet {B} (m : SM Work B) : Prop :=
  forall w b w' s, m w = Ok (b, w') -> ready_in w' s ->
    ready_in w s /\ (vars_in w' s -> vars_in w s).

Create HintDb quiet discriminated.

Lemma quiet_ret {B} (b : B) : quiet (mret b).
Proof. by intros w b' w' s [= _ <-]. Qed.

Lemma quiet_bind {B C} (m : SM Work B) (k : B -> SM Work C) :
  quiet m -> (forall b, quiet (k b)) -> quiet (m ≫= k).
Proof.
  intros Hm Hk w b w' s E H. apply SM_bind_ok in E as (b1 & w1 & E1 & E).
  destruct (Hk _ _ _ _ _ E H) as [H1 V1]. destruct (Hm _ _ _ _ E1 H1) as [H0 V0]. auto.
Qed.

Lemma quiet_same {B} (m : SM Work B) :
  (forall w b w', m w = Ok (b, w') -> wk_servers w' = wk_servers w) -> quiet m.
Proof. intros Hm w b w' s E H. unfold ready_in, vars_in in *. by rewrite (Hm _ _ _ E) in *. Qed.

Lemma quiet_lift {B} (m : SM PStore B) : quiet (lift m).
Proof. apply quiet_same. intros w b w' E. by winv. Qed.

Lemma quiet_of_res {B} (r : res B) : quiet (of_res r).
Proof. apply quiet_same. intros w b w' E. by apply of_res_run in E as [_ ->]. Qed.

Lemma quiet_server_of s : quiet (server_of s).
Proof. apply quiet_same. intros w b w' E. by winv. Qed.

Lemma quiet_client_of c : quiet (client_of c).
Proof. apply quiet_same. intros w b w' E. by winv. Qed.

Lemma quiet_upd_client c f : quiet (upd_client c f).
Proof. apply quiet_same. intros w b w' E. by winv. Qed.

Lemma quiet_assert b : quiet (assertW b).
Proof. apply quiet_same. intros w u w' E. unfold assertW in E. destruct b; [by injection E as _ <-|done]. Qed.

Lemma quiet_stuck {B} : quiet (fun _ => Undef : res (B * Work)).
Proof. by intros w b w' s E. Qed.

Lemma quiet_upd_server s f :
  (forall x, ws_ready (f x) = true -> ws_ready x = true /\ (ws_setting_vars (f x) = true -> ws_setting_vars x = true)) ->
  quiet (upd_server s f).
Proof.
  intros Hf w b w' s' E (x' & Ex' & Hx'). apply upd_server_run in E as (x & Ex & ->). cbn in Ex'.
  unfold ready_in, vars_in. cbn. rewrite lookup_insert in *.
  destruct (decide (s = s')) as [<-|]; [|eauto]. injection Ex' as <-. destruct (Hf x Hx'). split; [eauto|].
  intros (? & [= <-] & ?). eauto.
Qed.

#[export] Hint Resolve quiet_ret quiet_lift quiet_of_res quiet_server_of quiet_client_of quiet_upd_client
  quiet_assert quiet_stuck : quiet.

Ltac quiet_solve :=
  repeat match goal with
  | |- quiet (mbind _ _) => apply quiet_bind; [|intros ?]
  | |- quiet (match ?x with _ => _ end) => destruct x
  | |- quiet (if ?x then _ else _) => destruct x
  | |- quiet (upd_server _ _) => apply quiet_upd_server; by intros []
  | |- _ => progress cbv beta
  | |- quiet (pop _ _) => apply quiet_lift
  | |- quiet (clear _ _ _) => apply quiet_lift
  end; eauto with quiet nocore.

Section Quiet.
Context (mem : nat -> bool) (cf : WConfig).

Lemma on_ready_quiet s state : quiet (on_ready_for_query mem cf s state).
Proof. unfold on_ready_for_query. quiet_solve. Qed.

Lemma on_error_quiet s : quiet (on_error_response mem s).
Proof. unfold on_error_response, plain_after. quiet_solve. Qed.

Lemma on_command_quiet s client len tag : quiet (on_command_complete mem cf s client len tag).
Proof. unfold on_command_complete, plain_after. quiet_solve. Qed.

Lemma on_answer_quiet s t : quiet (on_answer s t).
Proof. unfold on_answer, plain_after. quiet_solve. Qed.

Lemma note_end_quiet s c a : quiet (note_end s c a).
Proof. unfold note_end. quiet_solve. Qed.

#[local] Hint Resolve on_ready_quiet on_error_quiet on_command_quiet on_answer_quiet : quiet.

Lemma switch_quiet s client type len state tag loaded :
  quiet (server_switch mem cf s client type len state tag loaded).
Proof. unfold server_switch. quiet_solve. Qed.

Lemma flush_quiet s : quiet (flush_event cf s).
Proof. unfold flush_event. quiet_solve. Qed.

Context {F : FindServer}.

Lemma find_quiet c : quiet (look_for_server c).
Proof.
  intros w b w' s E (x' & Ex' & Hx'). destruct (find_server_ready _ _ _ _ _ _ E Ex' Hx') as (x & ? & ? & Hv).
  split; [by exists x|]. intros (x1 & Ex1 & ?). exists x. split; [done|]. apply Hv. congruence.
Qed.

Lemma client_switch_quiet c pkt : quiet (client_switch cf c pkt).
Proof. unfold client_switch, inspect. quiet_solve. Qed.

Lemma close_quiet c pkt a b : quiet (close_command mem c pkt a b).
Proof. unfold close_command. quiet_solve. Qed.

Lemma note_start_quiet c : quiet (note_start cf c).
Proof. apply quiet_upd_client. Qed.

Lemma prepared_quiet c s pkt rest : quiet (prepared_command mem cf c s pkt rest).
Proof. unfold prepared_command. quiet_solve. Qed.

Lemma forward_quiet s pkt track complete flushed queued : quiet (forward_packet mem s pkt track complete flushed queued).
Proof. unfold forward_packet. quiet_solve. Qed.

#[local] Hint Resolve find_quiet client_switch_quiet close_quiet note_start_quiet prepared_quiet forward_quiet : quiet.

Lemma client_work_quiet c pkt rest sent_now complete flushed queued :
  quiet (handle_client_work mem cf c pkt rest sent_now complete flushed queued).
Proof. unfold handle_client_work. quiet_solve. Qed.
End Quiet.

(** ** When a server becomes ready *)
Section Ready.
Context {F : FindServer} (mem : nat -> bool) (cf : WConfig).

(** ReadyForQuery outside a transaction block. *)
Definition says_idle (type : Z) (state : option Z) : Prop := type = PqMsg_ReadyForQuery /\ state = Some 73.

#[export] Instance says_idle_dec type state : Decision (says_idle type state).
Proof. unfold says_idle. apply _. Defined.

Lemma after_plain_ready ig a w w' :
  (mret (plain_after ig) : SM Work _) w = Ok (inr a, w') -> as_ready a = true -> False.
Proof. by intros [= <- <-]. Qed.

Lemma on_ready_ready s state w a w' :
  on_ready_for_query mem cf s state w = Ok (inr a, w') -> as_ready a = true -> state = Some 73.
Proof.
  intros E Ha. unfold on_ready_for_query in E. destruct state as [st|]; [|by winv].
  apply SM_bind_ok in E as ([p ig] & w1 & _ & E). apply SM_bind_ok in E as (x & w2 & _ & E).
  apply SM_bind_ok in E as (ok & w3 & _ & E). destruct ok; cbn [negb] in E; [|by winv].
  apply SM_bind_ok in E as (u & w4 & _ & E). case_bool_decide; [by subst|].
  case_bool_decide; by winv.
Qed.

(** Every case but the first and asynchronous notifications clears the flag. *)
Lemma switch_ready s client type len state tag loaded w a w' :
  server_switch mem cf s client type len state tag loaded w = Ok (inr a, w') -> as_ready a = true ->
  says_idle type state \/ type = PqMsg_NotificationResponse /\ ready_in w s.
Proof.
  intros E Ha. unfold server_switch in E.
  case_bool_decide; [left; split; [done|by eapply on_ready_ready]|].
  case_bool_decide; [destruct loaded; by winv|].
  case_bool_decide.
  { unfold on_error_response in E. winv. case_match; [by winv|]. winv. case_match; by winv. }
  case_bool_decide.
  { unfold on_command_complete in E. winv. case_match; [by winv|]. winv. case_match; by winv. }
  case_bool_decide; [by winv|].
  case_bool_decide; [winv; right; split; [done|by exists a0]|].
  repeat (case_match; [unfold on_answer in E; by repeat (winv; try case_match)|]). by winv.
Qed.

(** The packet was complete and dealt with. *)
Definition taken (d : did) : Prop := d = D_send \/ d = D_skip \/ d = D_auth_query.

#[export] Instance taken_dec d : Decision (taken d).
Proof. unfold taken. apply _. Defined.

Lemma server_work_ready s type len state tag loaded w d w' s' :
  handle_server_work mem cf s type len state tag loaded w = Ok (d, w') -> ready_in w' s' ->
  s' = s /\ says_idle type state \/
  ready_in w s' /\ (s' = s -> taken d -> type = PqMsg_NotificationResponse).
Proof.
  intros E H. unfold handle_server_work in E.
  apply SM_bind_ok in E as (x & w1 & E1 & E). apply server_of_run in E1 as [-> E1].
  apply SM_bind_ok in E as ([d'|a] & w1 & E2 & E).
  { injection E as <- <-. right. split; [by eapply switch_quiet|]. intros _ Hd.
    apply switch_early in E2 as (? & ? & ?). by destruct Hd as [?|[?|?]]. }
  apply SM_bind_ok in E as (u & w2 & E3 & E).
  assert (H2 : ready_in w2 s').
  { revert H. revert E. match goal with |- ?m w2 = _ -> _ => assert (Hq : quiet m) end;
      [|by intros E; apply (Hq _ _ _ _ E)].
    quiet_solve. apply note_end_quiet. }
  apply upd_server_run in E3 as (x2 & Ex2 & ->). destruct H2 as (x' & Ex' & Hx'). cbn in Ex'.
  rewrite lookup_insert in Ex'. destruct (decide (s = s')) as [<-|].
  - injection Ex' as <-. cbn in Hx'. destruct (switch_ready _ _ _ _ _ _ _ _ _ _ E2 Hx') as [|[? ?]]; auto.
  - right. split; [|congruence]. eapply switch_quiet; [exact E2|by exists x'].
Qed.

(** The packet went to the server, as it is or as the prepared statement code
    made it. *)
Definition passed (pkt : PktHdr) (d : did) : Prop :=
  d = D_send \/ d = D_requeue \/ (d = D_done /\ pkt_type pkt <> PqMsg_Close).

#[export] Instance passed_dec pkt d : Decision (passed pkt d).
Proof. unfold passed. apply _. Defined.

Lemma client_switch_type c pkt :
  yields (client_switch cf c pkt) (fun r => match r with inl _ => True | inr (_, _, p) => pkt_type p = pkt_type pkt end).
Proof.
  assert (Hi : forall f, f = inspect_parse_packet \/ f = inspect_bind_packet \/ f = inspect_describe_or_close_packet ->
    yields (inspect cf f pkt) (fun r => match r with inl _ => True | inr (_, _, p) => pkt_type p = pkt_type pkt end)).
  { intros f Hf w r w' E. unfold inspect in E. destruct (is_prepared_statements_enabled cf); [|by injection E as <- <-].
    apply SM_bind_ok in E as ([a p] & w1 & E1 & E). apply of_res_run in E1 as [E1 ->]. injection E as <- <-.
    by apply (set_data_type f pkt a p Hf E1). }
  unfold client_switch. yields_solve; apply Hi; auto.
Qed.

Lemma close_done c pkt a sent_now w w' :
  close_command mem c pkt a sent_now w = Ok (Some D_done, w') -> pkt_type pkt = PqMsg_Close.
Proof.
  unfold close_command. destruct (_ && _) eqn:T; [|done]. apply andb_true_iff in T as [_ T]. by bprop.
Qed.

Lemma close_early c pkt a sent_now :
  yields (close_command mem c pkt a sent_now) (fun o => match o with Some d => d <> D_send /\ d <> D_requeue | None => True end).
Proof. unfold close_command. yields_solve. by destruct b1. Qed.

(** Code that touches requests and statements only. *)
Definition still {B} (m : SM Work B) : Prop :=
  forall w b w', m w = Ok (b, w') -> wk_servers w' = wk_servers w /\ wk_clients w' = wk_clients w.

Lemma still_bind {B C} (m : SM Work B) (k : B -> SM Work C) : still m -> (forall b, still (k b)) -> still (m ≫= k).
Proof.
  intros Hm Hk w b w' E. apply SM_bind_ok in E as (b1 & w1 & E1 & E).
  destruct (Hm _ _ _ E1), (Hk _ _ _ _ E). by split; etrans.
Qed.

Lemma still_ret {B} (b : B) : still (mret b).
Proof. by intros w b' w' [= _ <-]. Qed.

Lemma still_lift {B} (m : SM PStore B) : still (lift m).
Proof. intros w b w' E. by winv. Qed.

Lemma still_of_res {B} (r : res B) : still (of_res r).
Proof. intros w b w' E. by apply of_res_run in E as [_ ->]. Qed.

Lemma still_stuck {B} : still (fun _ => Undef : res (B * Work)).
Proof. by intros w b w' E. Qed.

#[local] Hint Resolve still_ret still_lift still_of_res still_stuck : quiet.
Ltac still_solve :=
  repeat match goal with
  | |- still (mbind _ _) => apply still_bind; [|intros ?]
  | |- still (match ?x with _ => _ end) => destruct x
  | |- still (if ?x then _ else _) => destruct x
  | |- _ => progress cbv beta
  end; eauto with quiet nocore.

Lemma prepared_still c s pkt rest : still (prepared_command mem cf c s pkt rest).
Proof. unfold prepared_command. still_solve. Qed.

Lemma forward_still s pkt track complete flushed queued : still (forward_packet mem s pkt track complete flushed queued).
Proof. unfold forward_packet. still_solve. Qed.

Definition server_asked (c : positive) (w : Work) : option positive := y ← wk_clients w !! c; wc_link y.

Lemma client_work_asks c pkt rest sent_now complete flushed queued w d w' :
  handle_client_work mem cf c pkt rest sent_now complete flushed queued w = Ok (d, w') -> passed pkt d ->
  exists s, server_asked c w' = Some s /\ ~ ready_in w' s.
Proof.
  intros E Hd. unfold handle_client_work in E. apply SM_bind_ok in E as ([d1|[[track a] p]] & w1 & E1 & E).
  { injection E as <- <-. apply client_switch_early in E1 as (? & ? & ?). by destruct Hd as [?|[?|[? _]]]. }
  apply client_switch_type in E1.
  destruct (packet_ready cf p a) as [d1|] eqn:Hpr.
  { injection E as <- <-. apply packet_ready_early in Hpr as (? & ? & ?). by destruct Hd as [?|[?|[? _]]]. }
  apply SM_bind_ok in E as ([d1|] & w2 & E2 & E).
  { injection E as <- <-. pose proof (close_early _ _ _ _ _ _ _ E2) as [? ?].
    destruct Hd as [?|[?|[-> Ht]]]; [done..|]. apply close_done in E2. by rewrite E1 in E2. }
  apply SM_bind_ok in E as (u3 & w3 & E3 & E).
  destruct (cf_admin cf); [injection E as <- <-; by destruct Hd as [?|[?|[? _]]]|].
  apply SM_bind_ok in E as (f & w4 & E4 & E).
  destruct f; cbn [negb] in E; [|injection E as <- <-; by destruct Hd as [?|[?|[? _]]]].
  apply SM_bind_ok in E as (y5 & w5 & E5 & E). apply client_of_run in E5 as [-> E5].
  destruct (wc_link y5) as [s|] eqn:El; [|done].
  apply SM_bind_ok in E as (u6 & w6 & E6 & E). apply upd_server_run in E6 as (x6 & _ & ->).
  assert (H6 : wk_servers w' = <[s := set_tx false false x6]> (wk_servers w4) /\ wk_clients w' = wk_clients w4).
  { destruct (negb _) in E; [destruct flushed; cbn [negb] in E; [|injection E as _ <-; done]|].
    - by apply prepared_still in E.
    - by apply forward_still in E. }
  destruct H6 as [Hs Hc]. exists s. unfold server_asked. rewrite Hc, E5. cbn. split; [done|].
  intros (x & Ex & Hx). rewrite Hs, lookup_insert_eq in Ex. by injection Ex as <-.
Qed.
End Ready.

(** ** Runs *)

(** The servers that were sent SET commands from [w] to [w']. *)
Definition told (w w' : Work) : gset positive :=
  filter (fun s => vars_in w' s /\ ~ vars_in w s) (dom (wk_servers w')).

Lemma told_spec w w' s : s ∈ told w w' <-> vars_in w' s /\ ~ vars_in w s.
Proof.
  unfold told. rewrite elem_of_filter. split; [tauto|]. intros H. split; [done|].
  destruct H as [(x & Ex & _) _]. apply elem_of_dom. eauto.
Qed.

Definition set_tested (x : WServer) : WServer :=
  mkWServer None SV_TESTED (ws_ready x) (ws_idle_tx x) (ws_query_failed x) (ws_copy_mode x)
    (ws_setting_vars x) (ws_resetting x).

(** PgBouncer tests or resets a server nobody has: release_server with
    reset_on_release, or launch_recheck.  Both take a ready server, put it into
    the tested state and send a query; neither clears the flag. *)
Definition send_test (s : positive) : SM Work unit :=
  x ← server_of s;
  assertW (ws_ready x) ≫= fun _ =>
  upd_server s set_tested.

Section Runs.
Context {F : FindServer} (mem : nat -> bool) (cf : WConfig).

(** [I]: the servers that have logged in or said they are idle, and were sent
    nothing since.  [T]: those that were in [I] or [T], were then sent a test or
    reset query and have since said nothing but notifications.  Everything is in the
    order in which PgBouncer sends and receives it. *)
Inductive idle_run : Work -> gset positive -> gset positive -> Prop :=
| ir_start w : (forall s, ~ ready_in w s) -> idle_run w ∅ ∅
| ir_login w I T s w' :
    idle_run w I T -> upd_server s (fun x => set_tx true (ws_idle_tx x) x) w = Ok (tt, w') ->
    idle_run w' (I ∪ {[s]}) (T ∖ {[s]})
| ir_client w I T c pkt rest sent_now complete flushed queued d w' :
    idle_run w I T -> handle_client_work mem cf c pkt rest sent_now complete flushed queued w = Ok (d, w') ->
    let sent := told w w' ∪ (if decide (passed pkt d) then
                               match server_asked c w' with Some s => {[s]} | None => ∅ end
                             else ∅) in
    idle_run w' (I ∖ sent) (T ∖ sent)
| ir_auth_query w I T s w' :
    idle_run w I T -> upd_server s (fun x => set_tx false (ws_idle_tx x) x) w = Ok (tt, w') ->
    idle_run w' (I ∖ {[s]}) (T ∖ {[s]})
| ir_test w I T s w' :
    idle_run w I T -> send_test s w = Ok (tt, w') -> idle_run w' (I ∖ {[s]}) (T ∪ {[s]})
| ir_server w I T s type len state tag loaded d w' :
    idle_run w I T -> handle_server_work mem cf s type len state tag loaded w = Ok (d, w') ->
    idle_run w' (if decide (says_idle type state) then I ∪ {[s]} else I)
      (if decide (taken d /\ type <> PqMsg_NotificationResponse) then T ∖ {[s]} else T)
| ir_flush w I T s fd w' :
    idle_run w I T -> flush_event cf s w = Ok (fd, w') -> idle_run w' I T
| ir_elsewhere w I T w' :
    idle_run w I T -> (forall s, ready_in w' s -> ready_in w s /\ (vars_in w' s -> vars_in w s)) ->
    idle_run w' (I ∖ told w w') (T ∖ told w w').

Lemma ready_in_upd s f w w' s' :
  upd_server s f w = Ok (tt, w') -> ready_in w' s' ->
  s' = s /\ (exists x, wk_servers w !! s = Some x /\ ws_ready (f x) = true) \/ s' <> s /\ ready_in w s'.
Proof.
  intros E (x' & Ex' & Hx'). apply upd_server_run in E as (x & Ex & ->). cbn in Ex'. rewrite lookup_insert in Ex'.
  destruct (decide (s = s')) as [<-|]; [left; split; [done|]; injection Ex' as <-; eauto|right; split; [done|by exists x']].
Qed.

Lemma ready_servers_idle w I T : idle_run w I T -> forall s, ready_in w s -> s ∈ I \/ s ∈ T.
Proof.
  induction 1 as [w Hw|w I T s w' _ IH E|w I T c pkt rest sn co fl q d w' _ IH E sent|w I T s w' _ IH E|w I T s w' _ IH E
                 |w I T s type len state tag loaded d w' _ IH E|w I T s fd w' _ IH E|w I T w' _ IH E]; intros s' Hs'.
  - by destruct (Hw s').
  - destruct (ready_in_upd _ _ _ _ _ E Hs') as [[-> _]|[Hne Hs]]; [set_solver|]. destruct (IH s' Hs); set_solver.
  - destruct (client_work_quiet _ _ _ _ _ _ _ _ _ _ _ _ _ E Hs') as [Hr Hv]. specialize (IH _ Hr).
    assert (Hns : s' ∉ sent); [|set_solver]. unfold sent. rewrite elem_of_union, told_spec. intros [[? ?]|Hin]; [tauto|].
    destruct (decide (passed pkt d)) as [Hp|]; [|set_solver].
    destruct (client_work_asks _ _ _ _ _ _ _ _ _ _ _ _ E Hp) as (s & Ea & Hs). rewrite Ea in Hin. set_solver.
  - destruct (ready_in_upd _ _ _ _ _ E Hs') as [[-> (x & _ & ?)]|[Hne Hs]]; [done|]. destruct (IH s' Hs); set_solver.
  - unfold send_test in E. apply SM_bind_ok in E as (x & w1 & E1 & E). apply server_of_run in E1 as [-> _].
    apply SM_bind_ok in E as (u & w1 & E1 & E). unfold assertW in E1. destruct (ws_ready x); [|done]. injection E1 as _ <-.
    destruct (ready_in_upd _ _ _ _ _ E Hs') as [[-> _]|[Hne Hs]]; [set_solver|]. destruct (IH s' Hs); set_solver.
  - destruct (server_work_ready _ _ _ _ _ _ _ _ _ _ _ _ E Hs') as [[-> Hi]|[Hs Ht]].
    + left. rewrite decide_True by done. set_solver.
    + destruct (IH s' Hs) as [Hi|Hi]; [left; destruct (decide _); set_solver|right].
      destruct (decide (taken d /\ _)) as [[Htk Hty]|]; [|done]. apply elem_of_difference. split; [done|].
      rewrite elem_of_singleton. intros ->. by apply Hty, Ht.
  - apply IH. by eapply flush_quiet.
  - destruct (E s' Hs') as [Hr Hv]. specialize (IH _ Hr). assert (s' ∉ told w w') by (rewrite told_spec; tauto). set_solver.
Qed.

Lemma flush_releases s w w' :
  flush_event cf s w = Ok (FL_release, w') ->
  ready_in w s /\ exists x, wk_servers w !! s = Some x /\ ws_setting_vars x = false /\
    (cf_pool_mode cf <> POOL_SESSION \/ ws_state x = SV_TESTED \/ ws_resetting x = true) /\
    forall c, ws_link x = Some c ->
      exists v y, st_servers (wk_store w) !! s = Some v /\ wk_clients w !! c = Some y /\
        pv_requests v = [] /\ wc_copy_mode y = false.
Proof.
  intros E. unfold flush_event in E. apply SM_bind_ok in E as (x & w1 & E1 & E).
  apply server_of_run in E1 as [-> Ex]. destruct (ws_ready x) eqn:Hr; cbn [negb] in E; [|by winv].
  split; [by exists x|]. exists x. split; [done|].
  destruct (ws_setting_vars x); [by winv|]. split; [done|].
  destruct (negb _ || bool_decide (ws_state x = SV_TESTED) || ws_resetting x) eqn:T; [|by winv].
  split. { apply orb_true_iff in T as [T|T]; [|auto]. apply orb_true_iff in T as [T|T]; [left|right; left; by bprop].
    apply negb_true_iff in T. by bprop. }
  apply SM_bind_ok in E as (u & w1 & E1 & E). apply upd_server_run in E1 as (x1 & _ & ->).
  destruct (_ || _) in E; [|by winv]. intros c Hc. rewrite Hc in E.
  apply SM_bind_ok in E as (v & w2 & E2 & E). apply lift_run in E2 as (σ & E2 & ->). cbn in E2.
  unfold the_server in E2. destruct (st_servers (wk_store w) !! s) as [v'|] eqn:Ev; [|done]. injection E2 as -> <-.
  apply SM_bind_ok in E as (y & w3 & E3 & E). apply client_of_run in E3 as [-> E3]. cbn in E3.
  exists v, y. split; [done|]. split; [done|]. case_bool_decide; cbn [negb] in E; [|by winv].
  split; [done|]. destruct (wc_copy_mode y); [by winv|done].
Qed.

(** C5: in every run, the server that EV_FLUSH gives back to the pool has said
    it is idle, outside any transaction block, and was sent nothing since, by a
    client or by PgBouncer; or it was so when PgBouncer sent it a test or reset
    query, to which it has sent nothing but notifications.  If a client is
    still linked to it, no answer is owed to that client and it is not sending
    COPY data; in session pooling the link is only given up by a test or reset
    of the server. *)
Theorem released_only_when_idle w I T s w' :
  idle_run w I T -> flush_event cf s w = Ok (FL_release, w') ->
  (s ∈ I \/ s ∈ T) /\ exists x, wk_servers w !! s = Some x /\ ws_setting_vars x = false /\
    (cf_pool_mode cf <> POOL_SESSION \/ ws_state x = SV_TESTED \/ ws_resetting x = true) /\
    forall c, ws_link x = Some c ->
      exists v y, st_servers (wk_store w) !! s = Some v /\ wk_clients w !! c = Some y /\
        pv_requests v = [] /\ wc_copy_mode y = false.
Proof. intros Hr E. apply flush_releases in E as [Hs Hx]. split; [by eapply ready_servers_idle|done]. Qed.

Lemma switch_notification s client len state tag loaded :
  server_switch mem cf s client PqMsg_NotificationResponse len state tag loaded =
    (x ← server_of s; mret (inr (mkAfter (ws_ready x) (ws_idle_tx x) true false))).
Proof. reflexivity. Qed.

(** The second case does occur: after a test or reset query was sent, a
    notification of the server is enough for EV_FLUSH to release it, with the
    query unanswered. *)
Theorem test_released_unanswered w I T s w1 len state tag loaded :
  idle_run w I T -> ~ vars_in w s -> send_test s w = Ok (tt, w1) ->
  exists w2 w3, handle_server_work mem cf s PqMsg_NotificationResponse len state tag loaded w1 = Ok (D_skip, w2) /\
    idle_run w2 (I ∖ {[s]}) (T ∪ {[s]}) /\ flush_event cf s w2 = Ok (FL_release, w3).
Proof.
  intros Hr Hv E. pose proof (ir_test _ _ _ _ _ Hr E) as Hr1. unfold send_test in E.
  apply SM_bind_ok in E as (x & w0 & E1 & E). apply server_of_run in E1 as [-> Ex].
  apply SM_bind_ok in E as (u & w0 & E1 & E). unfold assertW in E1. destruct (ws_ready x) eqn:Hx; [|done]. injection E1 as _ <-.
  apply upd_server_run in E as (x' & Ex' & ->). rewrite Ex in Ex'. injection Ex' as <-.
  assert (Hvx : ws_setting_vars x = false) by (apply not_true_is_false; intros ?; apply Hv; by exists x).
  set (w1 := mkWork _ _ _) in *.
  assert (E1 : wk_servers w1 !! s = Some (set_tested x)) by apply lookup_insert_eq. clearbody w1.
  set (w2 := mkWork (wk_store w1) (<[s := set_tx true (ws_idle_tx x) (set_tested x)]> (wk_servers w1)) (wk_clients w1)).
  assert (H1 : handle_server_work mem cf s PqMsg_NotificationResponse len state tag loaded w1 = Ok (D_skip, w2)).
  { unfold handle_server_work. rewrite (SM_bind_eq (server_of s) _ w1 (set_tested x) w1) by (unfold server_of; by rewrite E1).
    rewrite switch_notification. unfold server_of, upd_server, mbind, SM_bind. rewrite E1. cbn. rewrite E1. cbn.
    rewrite lookup_insert_eq. cbn. rewrite Hvx. unfold w2. by rewrite Hx. }
  assert (Hr2 := ir_server _ _ _ _ _ _ _ _ _ _ _ Hr1 H1). eexists w2, _. split; [exact H1|]. split.
  - rewrite !decide_False in Hr2; [exact Hr2|naive_solver|by intros [? _]].
  - unfold flush_event, server_of, upd_server, mbind, SM_bind. cbn. rewrite lookup_insert_eq. cbn. rewrite Hvx.
    rewrite (bool_decide_eq_true_2 (SV_TESTED = SV_TESTED)), orb_true_r by done. cbn. by rewrite lookup_insert_eq.
Qed.
End Runs.

Module Example.
#[local] Open Scope positive_scope.
Import Relay.Example.

(** The answer to a Sync ends the transaction; then the server is released. *)
Definition busy : Work :=
  mkWork (set_client 1 [] (set_server 1 (mkPServer [] [mkRequest PqMsg_Sync RA_FORWARD None 0] [] [] false true false) empty_store))
    {[1 := toy_server]} {[1 := mkWClient (Some 1) false false 5 5]}.
Definition rested : Work :=
  outcome_of (handle_server_work plenty config 1 PqMsg_ReadyForQuery 6 (Some 73%Z) None true) busy.

Lemma rested_runs :
  handle_server_work plenty config 1 PqMsg_ReadyForQuery 6 (Some 73%Z) None true busy = Ok (D_send, rested).
Proof. by vm_compute. Qed.

Lemma rested_released : flush_event config 1 rested = Ok (FL_release, outcome_of (flush_event config 1) rested).
Proof. by vm_compute. Qed.

Lemma busy_start : forall s, ~ ready_in busy s.
Proof.
  intros s (x & Ex & Hx). unfold busy in Ex. cbn in Ex. apply lookup_singleton_Some in Ex as [_ <-]. done.
Qed.

Lemma rested_tested : exists w1, send_test 1 rested = Ok (tt, w1) /\ ~ vars_in rested 1.
Proof.
  eexists. split; [by vm_compute|]. intros (x & Ex & Hx). vm_compute in Ex. injection Ex as <-. done.
Qed.

#[local] Opaque rested.

Lemma released_only_when_idle_witness : exists I T, idle_run plenty config rested I T /\ 1 ∈ I.
Proof.
  assert (R : idle_run plenty config rested (∅ ∪ {[1]}) (∅ ∖ {[1]})).
  { exact (ir_server plenty config busy ∅ ∅ 1 PqMsg_ReadyForQuery 6 (Some 73%Z) None true D_send rested
      (ir_start plenty config busy busy_start) rested_runs). }
  exists (∅ ∪ {[1]}), (∅ ∖ {[1]}). split; [exact R|].
  destruct (released_only_when_idle plenty config rested (∅ ∪ {[1]}) (∅ ∖ {[1]}) 1 _ R rested_released) as [[H|H] _];
    [exact H|].
  apply elem_of_difference in H as [H _]. by apply not_elem_of_empty in H.
Defined.

(** The reset query has been sent; a notification arrives. *)
Lemma test_released_unanswered_witness : exists w1 w2 w3, send_test 1 rested = Ok (tt, w1) /\
  handle_server_work plenty config 1 PqMsg_NotificationResponse 20 None None true w1 = Ok (D_skip, w2) /\
  flush_event config 1 w2 = Ok (FL_release, w3).
Proof.
  destruct rested_tested as (w1 & E & Hv).
  destruct (test_released_unanswered plenty config rested (∅ ∪ {[1]}) (∅ ∖ {[1]}) 1 w1 20 None None true)
    as (w2 & w3 & H1 & _ & H2); [|exact Hv|exact E|by exists w1, w2, w3].
  exact (ir_server plenty config busy ∅ ∅ 1 PqMsg_ReadyForQuery 6 (Some 73%Z) None true D_send rested
    (ir_start plenty config busy busy_start) rested_runs).
Defined.
End Example.
