(* ===== verification/AATree.v ===== *)
(** * Balanced trees (lib/usual/aatree.c)

    The users of a database, the global users and the names under resolution
    are kept in AA trees: the nodes are embedded in the objects and linked by
    pointers, NIL is one constant node.  The heap maps addresses to nodes;
    following a pointer to a freed node, writing to NIL and overflow of an int
    are [Undef].  The comparison function is a parameter that looks at the
    object around the node.  Recursion follows pointers and has the number of
    allocated nodes as fuel.

    AABalance.v has the operations on trees as values and what they do to
    levels and to the order of the nodes; AAHeap.v shows that the code does
    the same in the heap. *)

From S2P Require Import Prelude.
From stdpp Require Import base option countable gmap list sorting strings.
#[local] Open Scope Z_scope.

(** ** The code *)

Record AANode := mkAANode { an_left : option positive; an_right : option positive; an_level : Z }.

Definition NIL : option positive := None.

Record AATree := mkAATree {
  at_heap : gmap positive AANode;
  at_root : option positive;
  at_count : Z;
  at_released : list positive
}.

Inductive AATreeWalkType := AA_WALK_IN_ORDER | AA_WALK_PRE_ORDER | AA_WALK_POST_ORDER.

Definition set_heap h t := mkAATree h (at_root t) (at_count t) (at_released t).
Definition set_root p t := mkAATree (at_heap t) p (at_count t) (at_released t).
Definition set_count n t := mkAATree (at_heap t) (at_root t) n (at_released t).

#[local] Abbreviation M := (SM AATree).

(** A value of type int, or overflow. *)
Definition int (z : Z) : M Z := lift (if bool_decide (- 2 ^ 31 <= z <= INT_MAX) then Ok z else Undef).

Definition node (p : option positive) : M AANode := fun t =>
  match p with
  | None => Ok (mkAANode NIL NIL 0, t)
  | Some a => match at_heap t !! a with Some n => Ok (n, t) | None => Undef end
  end.

(** Assignment to a node: NIL is constant. *)
Definition put_node (p : option positive) (f : AANode -> AANode) : M unit := fun t =>
  match p with
  | None => Undef
  | Some a =>
      match at_heap t !! a with
      | Some n => Ok (tt, set_heap (<[a := f n]> (at_heap t)) t)
      | None => Undef
      end
  end.

Definition set_left p q : M unit := put_node p (fun n => mkAANode q (an_right n) (an_level n)).
Definition set_right p q : M unit := put_node p (fun n => mkAANode (an_left n) q (an_level n)).
Definition set_level p z : M unit := put_node p (fun n => mkAANode (an_left n) (an_right n) z).

(** p->right = f(p->right), p->left = f(p->left) *)
Definition upd_right (p : option positive) (f : option positive -> M (option positive)) : M unit :=
  n ← node p; q ← f (an_right n); set_right p q.
Definition upd_left (p : option positive) (f : option positive -> M (option positive)) : M unit :=
  n ← node p; q ← f (an_left n); set_left p q.

Definition skew (x : option positive) : M (option positive) :=
  nx ← node x;
  let y := an_left nx in
  ny ← node y;
  if bool_decide (an_level nx = an_level ny) && negb (bool_decide (x = NIL)) then
    set_left x (an_right ny) ≫= fun _ =>
    set_right y x ≫= fun _ =>
    mret y
  else mret x.

Definition split (x : option positive) : M (option positive) :=
  nx ← node x;
  let y := an_right nx in
  ny ← node y;
  nyr ← node (an_right ny);
  if bool_decide (an_level nx = an_level nyr) && negb (bool_decide (x = NIL)) then
    set_right x (an_left ny) ≫= fun _ =>
    set_left y x ≫= fun _ =>
    z ← int (an_level ny + 1);
    set_level y z ≫= fun _ =>
    mret y
  else mret x.

Definition rebalance_on_insert (current : option positive) : M (option positive) :=
  x ← skew current; split x.

Definition rebalance_on_remove (current : option positive) : M (option positive) :=
  n ← node current;
  nl ← node (an_left n);
  nr ← node (an_right n);
  if bool_decide (an_level nl < an_level n - 1) || bool_decide (an_level nr < an_level n - 1) then
    z ← int (an_level n - 1);
    set_level current z ≫= fun _ =>
    n ← node current;
    nr ← node (an_right n);
    (if bool_decide (an_level nr > an_level n) then set_level (an_right n) (an_level n) else mret tt) ≫= fun _ =>
    current ← skew current;
    upd_right current skew ≫= fun _ =>
    n ← node current;
    upd_right (an_right n) skew ≫= fun _ =>
    current ← split current;
    upd_right current split ≫= fun _ =>
    mret current
  else mret current.

Section Operations.
Context {V : Type} (node_cmp : V -> positive -> Z).
(** Does the tree have a release_cb?  The callback frees the node. *)
Context (release_cb : bool).

Fixpoint insert_sub (fuel : nat) (current : option positive) (value : V) (a : positive) : M (option positive) :=
  match fuel with
  | O => fun _ => NoFuel
  | S fuel =>
      match current with
      | None =>
          put_node (Some a) (fun _ => mkAANode NIL NIL 1) ≫= fun _ =>
          t ← getS;
          z ← int (at_count t + 1);
          modS (set_count z) ≫= fun _ =>
          mret (Some a)
      | Some c =>
          let cmp := node_cmp value c in
          if bool_decide (cmp > 0) then
            upd_right current (fun r => insert_sub fuel r value a) ≫= fun _ =>
            rebalance_on_insert current
          else if bool_decide (cmp < 0) then
            upd_left current (fun l => insert_sub fuel l value a) ≫= fun _ =>
            rebalance_on_insert current
          else mret current
      end
  end.

(** Enough for every path of the tree. *)
Definition fuel_of (t : AATree) : nat := S (size (at_heap t)).

Definition aatree_insert (value : V) (a : positive) : M unit :=
  t ← getS;
  p ← insert_sub (fuel_of t) (at_root t) value a;
  modS (set_root p).

(** Gives the rest of the tree and the node taken out. *)
Fixpoint steal_leftmost (fuel : nat) (current : option positive) : M (option positive * option positive) :=
  match fuel with
  | O => fun _ => NoFuel
  | S fuel =>
      n ← node current;
      if bool_decide (an_left n = NIL) then mret (an_right n, current)
      else
        '(l, save) ← steal_leftmost fuel (an_left n);
        set_left current l ≫= fun _ =>
        p ← rebalance_on_remove current;
        mret (p, save)
  end.

Definition release (a : positive) : M unit := fun t =>
  Ok (tt, mkAATree (delete a (at_heap t)) (at_root t) (at_count t) (at_released t ++ [a])).

Definition drop_this_node (fuel : nat) (a : positive) : M (option positive) :=
  n ← node (Some a);
  new ← (if bool_decide (an_left n = NIL) then mret (an_right n)
         else if bool_decide (an_right n = NIL) then mret (an_left n)
         else
           '(r, new) ← steal_leftmost fuel (an_right n);
           set_right (Some a) r ≫= fun _ =>
           old ← node (Some a);
           put_node new (fun _ => old) ≫= fun _ =>
           mret new);
  (if release_cb then release a else mret tt) ≫= fun _ =>
  t ← getS;
  z ← int (at_count t - 1);
  modS (set_count z) ≫= fun _ =>
  mret new.

Fixpoint remove_sub (fuel : nat) (current : option positive) (value : V) : M (option positive) :=
  match fuel with
  | O => fun _ => NoFuel
  | S fuel =>
      match current with
      | None => mret current
      | Some c =>
          let cmp := node_cmp value c in
          current ← (if bool_decide (cmp > 0) then
                       upd_right current (fun r => remove_sub fuel r value) ≫= fun _ => mret current
                     else if bool_decide (cmp < 0) then
                       upd_left current (fun l => remove_sub fuel l value) ≫= fun _ => mret current
                     else drop_this_node fuel c);
          rebalance_on_remove current
      end
  end.

Definition aatree_remove (value : V) : M unit :=
  t ← getS;
  p ← remove_sub (fuel_of t) (at_root t) value;
  modS (set_root p).

Fixpoint walk_sub (fuel : nat) (current : option positive) (wtype : AATreeWalkType) (walker : positive -> M unit) : M unit :=
  match fuel with
  | O => fun _ => NoFuel
  | S fuel =>
      match current with
      | None => mret tt
      | Some c =>
          match wtype with
          | AA_WALK_IN_ORDER =>
              n ← node current;
              walk_sub fuel (an_left n) wtype walker ≫= fun _ =>
              walker c ≫= fun _ =>
              n ← node current;
              walk_sub fuel (an_right n) wtype walker
          | AA_WALK_POST_ORDER =>
              n ← node current;
              walk_sub fuel (an_left n) wtype walker ≫= fun _ =>
              n ← node current;
              walk_sub fuel (an_right n) wtype walker ≫= fun _ =>
              walker c
          | AA_WALK_PRE_ORDER =>
              walker c ≫= fun _ =>
              n ← node current;
              walk_sub fuel (an_left n) wtype walker ≫= fun _ =>
              n ← node current;
              walk_sub fuel (an_right n) wtype walker
          end
      end
  end.

Definition aatree_walk (wtype : AATreeWalkType) (walker : positive -> M unit) : M unit :=
  t ← getS; walk_sub (fuel_of t) (at_root t) wtype walker.

(** Without a release_cb this calls a null pointer. *)
Definition aatree_destroy : M unit :=
  t ← getS;
  walk_sub (fuel_of t) (at_root t) AA_WALK_POST_ORDER (fun a => if release_cb then release a else fun _ => Undef) ≫= fun _ =>
  modS (fun t => set_count 0 (set_root NIL t)).

Definition aatree_init : M unit := modS (fun t => set_count 0 (set_root NIL t)).

Fixpoint search_loop (fuel : nat) (current : option positive) (value : V) : M (option positive) :=
  match fuel with
  | O => fun _ => NoFuel
  | S fuel =>
      match current with
      | None => mret None
      | Some c =>
          let cmp := node_cmp value c in
          if bool_decide (cmp > 0) then n ← node current; search_loop fuel (an_right n) value
          else if bool_decide (cmp < 0) then n ← node current; search_loop fuel (an_left n) value
          else mret current
      end
  end.

Definition aatree_search (value : V) : M (option positive) :=
  t ← getS; search_loop (fuel_of t) (at_root t) value.
End Operations.
