(* ===== verification/AABalance.v ===== *)
(** * AA trees as values

    The operations of AATree.v on trees as values: they keep the tree balanced,
    its height is logarithmic, and on the nodes in order they are insertion
    into, removal from and search in a sorted list. *)

From S2P Require Import Prelude.
From stdpp Require Import base option countable gmap list sorting strings.
#[local] Open Scope Z_scope.

(** ** Trees as values *)

Inductive tree := E | T (l : tree) (a : positive) (n : Z) (r : tree).

Definition ptr (t : tree) : option positive := match t with E => None | T _ a _ _ => Some a end.
Definition lev (t : tree) : Z := match t with E => 0 | T _ _ n _ => n end.
Definition rt (t : tree) : tree := match t with E => E | T _ _ _ r => r end.
Fixpoint nodes (t : tree) : list positive := match t with E => [] | T l a _ r => nodes l ++ a :: nodes r end.
Fixpoint height (t : tree) : nat := match t with E => O | T l _ _ r => S (height l `max` height r) end.

Definition map_right (f : tree -> tree) (t : tree) : tree :=
  match t with E => E | T l a n r => T l a n (f r) end.

Definition fskew (t : tree) : tree :=
  match t with
  | T (T ll b m lr) a n r => if bool_decide (n = m) then T ll b m (T lr a n r) else t
  | _ => t
  end.

Definition fsplit (t : tree) : tree :=
  match t with
  | T l a n (T rl b m rr) => if bool_decide (n = lev rr) then T (T l a n rl) b (m + 1) rr else t
  | _ => t
  end.

Definition lower (z : Z) (t : tree) : tree :=
  match t with T l a n r => if bool_decide (n > z) then T l a z r else t | E => E end.

Definition frebalance (t : tree) : tree :=
  match t with
  | E => E
  | T l a n r =>
      if bool_decide (lev l < n - 1) || bool_decide (lev r < n - 1) then
        let t := fskew (T l a (n - 1) (lower (n - 1) r)) in
        let t := map_right fskew t in
        let t := map_right (map_right fskew) t in
        let t := fsplit t in
        map_right fsplit t
      else t
  end.

Fixpoint fsteal (t : tree) : tree * option positive :=
  match t with
  | E => (E, None)
  | T E a n r => (r, Some a)
  | T l a n r => let '(l', s) := fsteal l in (frebalance (T l' a n r), s)
  end.

Definition fdrop (t : tree) : tree :=
  match t with
  | E => E
  | T E _ _ r => r
  | T l _ _ E => l
  | T l _ n r => match fsteal r with (r', Some b) => T l b n r' | (r', None) => r' end
  end.

Section Values.
Context {V : Type} (node_cmp : V -> positive -> Z).

Fixpoint finsert (v : V) (x : positive) (t : tree) : tree :=
  match t with
  | E => T E x 1 E
  | T l a n r =>
      if bool_decide (node_cmp v a > 0) then fsplit (fskew (T l a n (finsert v x r)))
      else if bool_decide (node_cmp v a < 0) then fsplit (fskew (T (finsert v x l) a n r))
      else t
  end.

Fixpoint fremove (v : V) (t : tree) : tree :=
  match t with
  | E => E
  | T l a n r =>
      frebalance
        (if bool_decide (node_cmp v a > 0) then T l a n (fremove v r)
         else if bool_decide (node_cmp v a < 0) then T (fremove v l) a n r
         else fdrop t)
  end.

Fixpoint fsearch (v : V) (t : tree) : option positive :=
  match t with
  | E => None
  | T l a n r =>
      if bool_decide (node_cmp v a > 0) then fsearch v r
      else if bool_decide (node_cmp v a < 0) then fsearch v l
      else Some a
  end.
End Values.

(** ** Levels *)

(** Properties 1 to 6 of the header of aatree.c, in terms of levels: a red
    node has the level of its parent. *)
Fixpoint balanced (t : tree) : Prop :=
  match t with
  | E => True
  | T l _ n r => lev l = n - 1 /\ (lev r = n - 1 \/ (lev r = n /\ lev (rt r) < n)) /\ balanced l /\ balanced r
  end.

(** No red child. *)
Definition single (t : tree) : Prop := match t with E => True | T _ _ n r => lev r < n end.

Lemma lev_nonneg t : balanced t -> 0 <= lev t.
Proof. induction t as [|l IHl a n r IHr]; cbn; [lia|]. intros (H & _ & Hl & _). apply IHl in Hl. lia. Qed.

Lemma lev_zero t : balanced t -> lev t = 0 -> t = E.
Proof. destruct t as [|l a n r]; [done|]. cbn. intros (H & _ & Hl & _) ->. apply lev_nonneg in Hl. lia. Qed.

Ltac level_solve :=
  repeat case_bool_decide; cbn in *; destruct_and?; split_and?; try done; try lia; intuition (try lia).

Definition grown (t t' : tree) : Prop :=
  balanced t' /\ (lev t' = lev t \/ (lev t' = lev t + 1 /\ single t')) /\ (t <> E -> single t -> lev t' = lev t).

Lemma grow_right l a n r r' :
  balanced (T l a n r) -> grown r r' -> grown (T l a n r) (fsplit (fskew (T l a n r'))).
Proof.
  intros (Hl & Hr & Bl & Br) (Br' & Hlev & Hs). pose proof (lev_nonneg _ Bl). pose proof (lev_nonneg _ Br).
  assert (Esk : fskew (T l a n r') = T l a n r').
  { destruct l as [|ll b m lr]; [done|]. cbn in *. by rewrite bool_decide_eq_false_2 by lia. }
  rewrite Esk. clear Esk. destruct r' as [|rl b m rr].
  - cbn in *. assert (r = E) as -> by (apply lev_zero; [done|lia]). cbn in *. repeat split; auto with lia.
  - cbn [fsplit]. unfold grown. destruct r as [|rl0 b0 m0 rr0]; [clear Hs|specialize (Hs ltac:(done))];
      cbn in *; case_bool_decide; cbn; destruct_and?; split_and!; try done; try lia; intuition (try lia).
Qed.

Lemma rt_below l a n r : balanced (T l a n r) -> lev (rt r) < n.
Proof. cbn. intros (_ & [H|[_ H]] & _ & Br); [|done]. destruct r as [|rl b m rr]; cbn in *; lia. Qed.

Lemma no_split l a n r : balanced (T l a n r) -> fsplit (T l a n r) = T l a n r.
Proof.
  intros B%rt_below. destruct r as [|rl b m rr]; [done|]. cbn in *. by rewrite bool_decide_eq_false_2 by lia.
Qed.

Lemma grow_left l a n r l' :
  balanced (T l a n r) -> grown l l' -> grown (T l a n r) (fsplit (fskew (T l' a n r))).
Proof.
  intros B (Bl' & Hlev & _). pose proof B as (Hl & Hr & Bl & Br). pose proof (lev_nonneg _ Bl). pose proof (lev_nonneg _ Br).
  destruct (decide (lev l' = n)) as [Hn|Hn].
  - destruct l' as [|ll b m lr]; [cbn in *; lia|]. cbn in Hn. subst m.
    cbn [fskew]. rewrite bool_decide_eq_true_2 by done. cbn [fsplit]. unfold grown. case_bool_decide as Hs; cbn in *; destruct_and?;
      split_and!; try done; try lia; intuition (try lia).
  - assert (B' : balanced (T l' a n r)) by (cbn; split_and!; auto; lia).
    assert (Esk : fskew (T l' a n r) = T l' a n r).
    { destruct l' as [|ll b m lr]; [done|]. cbn in *. by rewrite bool_decide_eq_false_2 by lia. }
    rewrite Esk, no_split by done. split_and!; auto.
Qed.

Section Grow.
Context {V : Type} (node_cmp : V -> positive -> Z).

Lemma finsert_grown v x t : balanced t -> grown t (finsert node_cmp v x t).
Proof.
  induction t as [|l IHl a n r IHr]; intros B; cbn [finsert].
  - unfold grown. cbn. split_and!; [lia..|done|done|lia|by intros []].
  - pose proof B as (_ & _ & Bl & Br). case_bool_decide; [by apply grow_right; auto|].
    case_bool_decide; [by apply grow_left; auto|]. split_and!; auto.
Qed.
End Grow.

(** Removal lowers a tree by at most one level. *)
Definition shrunk (t t' : tree) : Prop :=
  balanced t' /\ (lev t' = lev t \/ lev t' = lev t - 1) /\ (single t -> lev t' = lev t -> single t').

Ltac decided :=
  repeat first [progress cbn | rewrite bool_decide_eq_true_2 by lia | rewrite bool_decide_eq_false_2 by lia].

Lemma no_skew t : balanced t -> fskew t = t.
Proof.
  destruct t as [|[|ll b m lr] a n r]; [done..|]. cbn. intros (H & _). by rewrite bool_decide_eq_false_2 by lia.
Qed.

Lemma split_balanced t : balanced t -> fsplit t = t.
Proof. destruct t; [done|apply no_split]. Qed.

Lemma no_gap l a n r : balanced (T l a n r) -> frebalance (T l a n r) = T l a n r.
Proof. cbn. intros (H & Hr & _). by rewrite !bool_decide_eq_false_2 by lia. Qed.

(** A tree of a level above zero is a node. *)
Ltac open_tree t :=
  let l := fresh t "l" in let a := fresh t "a" in let n := fresh t "n" in let r := fresh t "r" in
  destruct t as [|l a n r]; cbn [lev rt balanced] in *; [try lia|]; destruct_and?.

Lemma lower_same z t : lev t <= z -> lower z t = t.
Proof. destruct t; cbn; intros; [done|]. by rewrite bool_decide_eq_false_2 by lia. Qed.

Lemma gap l a n r :
  lev l < n - 1 \/ lev r < n - 1 ->
  frebalance (T l a n r) =
    map_right fsplit (fsplit (map_right (map_right fskew) (map_right fskew (fskew (T l a (n - 1) (lower (n - 1) r)))))).
Proof. intros H. cbn [frebalance]. by destruct H; rewrite ?(bool_decide_eq_true_2 _ H), ?orb_true_r. Qed.

Lemma skew_at ll b n lr a m r : m = n -> fskew (T (T ll b m lr) a n r) = T ll b n (T lr a n r).
Proof. intros ->. cbn. by rewrite bool_decide_eq_true_2. Qed.

Lemma skew_none l a n r : lev l <> n -> fskew (T l a n r) = T l a n r.
Proof. destruct l; cbn; intros; [done|]. by rewrite bool_decide_eq_false_2. Qed.

Lemma split_at l a n rl b m rr : lev rr = n -> fsplit (T l a n (T rl b m rr)) = T (T l a n rl) b (m + 1) rr.
Proof. intros <-. cbn. by rewrite bool_decide_eq_true_2. Qed.

Lemma split_none l a n r : lev (rt r) <> n -> fsplit (T l a n r) = T l a n r.
Proof. destruct r; cbn; intros; [done|]. by rewrite bool_decide_eq_false_2. Qed.

(** Runs the reshaping of a tree whose levels are known. *)
Ltac reshape :=
  repeat first [progress cbn [map_right]
    | rewrite skew_at by lia | rewrite skew_none by (cbn; lia)
    | rewrite split_at by (cbn; lia) | rewrite split_none by (cbn; lia)
    | rewrite no_skew by done | rewrite split_balanced by done].

Lemma shrink_right l a n r r' :
  balanced (T l a n r) -> shrunk r r' -> shrunk (T l a n r) (frebalance (T l a n r')).
Proof.
  intros B (Br' & Hlev & Hs). pose proof B as (Hl & Hr & Bl & Br).
  pose proof (lev_nonneg _ Bl). pose proof (lev_nonneg _ Br).  pose proof (lev_nonneg _ Br').
  destruct (decide (lev r' < n - 1)) as [Hg|Hg].
  - assert (lev r' = n - 2 /\ lev r = n - 1) as [Hr' Hr1] by lia. pose proof (rt_below _ _ _ _ B).
    assert (lev (rt r') < n - 1) by (destruct r'; cbn in *; lia).
    rewrite gap, lower_same by auto with lia. clear B. open_tree l. subst ln. unfold shrunk.
    destruct (decide (lev lr = n - 1)) as [Hlr|Hlr].
    + open_tree lr. subst lrn. reshape. cbn. split_and!; auto; lia.
    + reshape. cbn. split_and!; auto; lia.
  - assert (B' : balanced (T l a n r')).
    { cbn. split_and!; auto. destruct (decide (lev r' = n - 1)); [by left|right]. split; [lia|].
      assert (single r') by (apply Hs; [destruct r; cbn in *; lia|lia]). destruct r'; cbn in *; lia. }
    rewrite no_gap by done. unfold shrunk. split; [done|]. cbn. lia.
Qed.

Lemma shrink_left l a n r l' :
  balanced (T l a n r) -> shrunk l l' -> shrunk (T l a n r) (frebalance (T l' a n r)).
Proof.
  intros B (Bl' & Hlev & _). pose proof B as (Hl & Hr & Bl & Br).
  pose proof (lev_nonneg _ Bl). pose proof (lev_nonneg _ Br).  pose proof (lev_nonneg _ Bl').
  destruct (decide (lev l' < n - 1)) as [Hg|Hg].
  - rewrite gap by auto. clear B. open_tree r. unfold shrunk.
    destruct (decide (rn = n)) as [->|Hrn].
    + assert (lev rr = n - 1) by lia. cbn [lower]. rewrite bool_decide_eq_true_2 by lia.
      open_tree rl. subst rln. open_tree rr. subst rrn.
      destruct (decide (lev rlr = n - 1)) as [Hlr|Hlr].
      * open_tree rlr. subst rlrn. reshape. cbn. split_and!; auto; lia.
      * destruct (decide (lev rrr = n - 1)) as [Hrr|Hrr]; reshape; cbn; split_and!; auto; lia.
    + rewrite lower_same by (cbn; lia).
      destruct (decide (lev rr = n - 1)) as [Hrr|Hrr].
      * open_tree rr. subst rrn. reshape. cbn; split_and!; auto; lia.
      * reshape. cbn; split_and!; auto; lia.
  - assert (B' : balanced (T l' a n r)) by (cbn; split_and!; auto; lia).
    rewrite no_gap by done. unfold shrunk. split; [done|]. cbn. lia.
Qed.

Lemma rebalance_id t : balanced t -> frebalance t = t.
Proof. destruct t; [done|apply no_gap]. Qed.

(** The leftmost node goes, or the only child takes its parent's place. *)
Lemma shrink_to_right a n r : balanced (T E a n r) -> shrunk (T E a n r) r.
Proof. cbn. intros (H & Hr & _ & Br). unfold shrunk. cbn. split_and!; auto; lia. Qed.

Lemma fsteal_shrunk t : t <> E -> balanced t -> shrunk t (fsteal t).1 /\ exists b, (fsteal t).2 = Some b.
Proof.
  induction t as [|l IHl a n r _]; [done|]. intros _ B. destruct l as [|ll la ln lr].
  - split; [by apply shrink_to_right|by exists a].
  - pose proof B as (_ & _ & Bl & _). destruct (IHl ltac:(done) Bl) as [Hs [b Hb]].
    change (fsteal (T (T ll la ln lr) a n r)) with
      (let '(l', s) := fsteal (T ll la ln lr) in (frebalance (T l' a n r), s)).
    destruct (fsteal (T ll la ln lr)) as [l' s]. cbn in Hs, Hb |- *. split; [|by exists b].
    by eapply shrink_left.
Qed.

Lemma fdrop_shrunk t : balanced t -> shrunk t (frebalance (fdrop t)).
Proof.
  destruct t as [|l a n r]; intros B; [by repeat split; auto|]. pose proof B as (Hl & Hr & Bl & Br).
  destruct l as [|ll la ln lr]; [cbn; rewrite rebalance_id by done; by apply (shrink_to_right a)|].
  destruct r as [|rl ra rn rr].
  { exfalso. apply lev_zero in Bl; [done|]. cbn in *. destruct_and?. pose proof (lev_nonneg ll). intuition lia. }
  destruct (fsteal_shrunk (T rl ra rn rr) ltac:(done) Br) as [Hs [b Hb]].
  change (fdrop (T (T ll la ln lr) a n (T rl ra rn rr))) with
    (match fsteal (T rl ra rn rr) with (r', Some b) => T (T ll la ln lr) b n r' | (r', None) => r' end).
  destruct (fsteal (T rl ra rn rr)) as [r' s]. cbn in Hs, Hb. subst s.
  pose proof (shrink_right (T ll la ln lr) b n (T rl ra rn rr) r' B Hs) as Hsh. exact Hsh.
Qed.

Lemma fremove_shrunk {V} (node_cmp : V -> positive -> Z) v t : balanced t -> shrunk t (fremove node_cmp v t).
Proof.
  induction t as [|l IHl a n r IHr]; intros B; cbn [fremove]; [by repeat split; auto|].
  pose proof B as (_ & _ & Bl & Br). case_bool_decide; [by apply (shrink_right l a n r); auto|].
  case_bool_decide; [by apply (shrink_left l a n r); auto|]. by apply fdrop_shrunk.
Qed.

Lemma level_size t : balanced t -> 2 ^ lev t <= zlen (nodes t) + 1.
Proof.
  induction t as [|l IHl a n r IHr]; cbn; [done|]. intros (Hl & Hr & Bl & Br).
  specialize (IHl Bl). specialize (IHr Br). pose proof (lev_nonneg _ Bl). rewrite Hl in IHl.
  assert (2 ^ (n - 1) <= 2 ^ lev r) by (apply Z.pow_le_mono_r; lia).
  rewrite zlen_app, zlen_cons. replace n with (Z.succ (n - 1)) by lia. rewrite Z.pow_succ_r by lia. lia.
Qed.

Lemma height_level t : balanced t -> Z.of_nat (height t) <= 2 * lev t /\ (single t -> Z.of_nat (height t) <= Z.max 0 (2 * lev t - 1)).
Proof.
  induction t as [|l IHl a n r IHr]; cbn; [lia|]. intros (Hl & Hr & Bl & Br).
  specialize (IHl Bl). specialize (IHr Br). pose proof (lev_nonneg _ Bl).
  destruct Hr as [Hr|[Hr Hs]]; [lia|]. assert (single r) by (destruct r; cbn in *; lia). intuition lia.
Qed.

Lemma height_log t : balanced t -> Z.of_nat (height t) <= 2 * Z.log2 (zlen (nodes t) + 1).
Proof.
  intros B. destruct (height_level t B) as [H _]. pose proof (level_size t B) as Hs.
  pose proof (lev_nonneg t B). apply Z.log2_le_mono in Hs. rewrite Z.log2_pow2 in Hs by done. lia.
Qed.

(** ** Nodes in order *)

Lemma nodes_fskew t : nodes (fskew t) = nodes t.
Proof. destruct t as [|[|ll b m lr] a n r]; [done..|]. cbn. case_bool_decide; [|done]. cbn. by rewrite <- app_assoc. Qed.

Lemma nodes_fsplit t : nodes (fsplit t) = nodes t.
Proof. destruct t as [|l a n [|rl b m rr]]; [done..|]. cbn. case_bool_decide; [|done]. cbn. by rewrite <- app_assoc. Qed.

Lemma nodes_map_right f t : (forall t, nodes (f t) = nodes t) -> nodes (map_right f t) = nodes t.
Proof. intros H. destruct t; cbn; [done|]. by rewrite H. Qed.

Lemma nodes_lower z t : nodes (lower z t) = nodes t.
Proof. destruct t; cbn; [done|]. by case_bool_decide. Qed.

Lemma nodes_frebalance t : nodes (frebalance t) = nodes t.
Proof.
  destruct t as [|l a n r]; [done|]. cbn [frebalance]. destruct (_ || _); [|done].
  rewrite nodes_map_right by apply nodes_fsplit. rewrite nodes_fsplit.
  rewrite nodes_map_right by (intros; apply nodes_map_right, nodes_fskew).
  rewrite nodes_map_right by apply nodes_fskew. rewrite nodes_fskew. cbn. by rewrite nodes_lower.
Qed.

Lemma nodes_fsteal t b : (fsteal t).2 = Some b -> nodes t = b :: nodes (fsteal t).1.
Proof.
  induction t as [|l IHl a n r _]; [done|]. destruct l as [|ll la ln lr]; [by intros [= <-]|].
  change (fsteal (T (T ll la ln lr) a n r)) with
    (let '(l', s) := fsteal (T ll la ln lr) in (frebalance (T l' a n r), s)).
  destruct (fsteal (T ll la ln lr)) as [l' s]. cbn [fst snd] in *. intros Hb. rewrite nodes_frebalance.
  change (nodes (T (T ll la ln lr) a n r)) with (nodes (T ll la ln lr) ++ a :: nodes r). by rewrite (IHl Hb).
Qed.

Lemma nodes_fdrop l a n r : balanced (T l a n r) -> nodes (fdrop (T l a n r)) = nodes l ++ nodes r.
Proof.
  intros (_ & _ & _ & Br). destruct l as [|ll la ln lr]; [done|]. destruct r as [|rl ra rn rr]; [by cbn; rewrite app_nil_r|].
  destruct (fsteal_shrunk (T rl ra rn rr) ltac:(done) Br) as [_ [b Hb]]. pose proof (nodes_fsteal _ _ Hb) as Hn.
  change (fdrop (T (T ll la ln lr) a n (T rl ra rn rr))) with
    (match fsteal (T rl ra rn rr) with (r', Some b) => T (T ll la ln lr) b n r' | (r', None) => r' end).
  destruct (fsteal (T rl ra rn rr)) as [r' s]. cbn in Hb. subst s.  rewrite Hn. done.
Qed.

(** ** The sorted list of nodes *)

(** What node_cmp is expected to be: the comparison of a value with the key of
    the object around the node. *)
Class Ordered (V : Type) := {
  cmp : V -> V -> Z;
  cmp_eq x y : cmp x y = 0 <-> x = y;
  cmp_flip x y : cmp x y < 0 <-> cmp y x > 0;
  cmp_trans x y z : cmp x y < 0 -> cmp y z < 0 -> cmp x z < 0
}.

Section Order.
Context {V : Type} {O : Ordered V} (key : positive -> V).

Definition key_cmp (v : V) (a : positive) : Z := cmp v (key a).
Definition before (a b : positive) : Prop := cmp (key a) (key b) < 0.
Definition in_order (l : list positive) : Prop := StronglySorted before l.

Fixpoint sinsert (v : V) (x : positive) (l : list positive) : list positive :=
  match l with
  | [] => [x]
  | y :: l =>
      if bool_decide (key_cmp v y > 0) then y :: sinsert v x l
      else if bool_decide (key_cmp v y < 0) then x :: y :: l
      else y :: l
  end.
Definition sremove (v : V) (l : list positive) : list positive := filter (fun a => key_cmp v a <> 0) l.
Definition sfind (v : V) (l : list positive) : option positive := head (filter (fun a => key_cmp v a = 0) l).

Lemma in_order_middle l a k :
  in_order (l ++ a :: k) <->
  in_order l /\ in_order k /\ Forall (fun b => before b a) l /\ Forall (before a) k /\
  Forall (fun b => Forall (before b) k) l.
Proof.
  unfold in_order. induction l as [|b l IH]; cbn.
  - split; [intros H; inversion H; subst; by repeat constructor|]. intros (_ & Hk & _ & Ha & _). by constructor.
  - split.
    + intros H. inversion H as [|? ? Hs Hf]; subst. apply IH in Hs as (Hl & Hk & Hla & Hak & Hlk).
      apply Forall_app in Hf as [Hbl Hf]. apply Forall_cons in Hf as [Hba Hbk]. by repeat constructor.
    + intros (Hl & Hk & Hla & Hak & Hlk). inversion Hl; subst. apply Forall_cons in Hla as [Hba Hla].
      apply Forall_cons in Hlk as [Hbk Hlk]. constructor; [apply IH; by split_and!|].
      apply Forall_app. split; [done|]. by constructor.
Qed.

Lemma above v a b : key_cmp v a > 0 -> before b a -> key_cmp v b > 0.
Proof. unfold key_cmp, before. rewrite <- !cmp_flip. intros H1 H2. by eapply cmp_trans. Qed.

Lemma below v a b : key_cmp v a < 0 -> before a b -> key_cmp v b < 0.
Proof. unfold key_cmp, before. apply cmp_trans. Qed.

Lemma equal_above v a b : key_cmp v a = 0 -> before b a -> key_cmp v b > 0.
Proof. unfold key_cmp, before. rewrite cmp_eq. intros ->. by rewrite cmp_flip. Qed.

Lemma equal_below v a b : key_cmp v a = 0 -> before a b -> key_cmp v b < 0.
Proof. unfold key_cmp, before. rewrite cmp_eq. by intros ->. Qed.

Lemma sinsert_skip v x l k : Forall (fun b => key_cmp v b > 0) l -> sinsert v x (l ++ k) = l ++ sinsert v x k.
Proof. induction 1 as [|b l Hb _ IH]; cbn; [done|]. by rewrite bool_decide_eq_true_2, IH. Qed.

Lemma sinsert_right v x l a k :
  in_order (l ++ a :: k) -> key_cmp v a > 0 -> sinsert v x (l ++ a :: k) = l ++ a :: sinsert v x k.
Proof.
  intros (_ & _ & Hl & _)%in_order_middle Ha. rewrite sinsert_skip.
  - cbn. by rewrite bool_decide_eq_true_2.
  - eapply Forall_impl; [exact Hl|]. intros b. by apply above.
Qed.

Lemma sinsert_left v x l a k : key_cmp v a < 0 -> sinsert v x (l ++ a :: k) = sinsert v x l ++ a :: k.
Proof.
  intros Ha. induction l as [|b l IH]; cbn.
  - by rewrite bool_decide_eq_false_2, bool_decide_eq_true_2 by lia.
  - case_bool_decide; [by rewrite IH|]. by case_bool_decide.
Qed.

Lemma sinsert_at v x l a k : in_order (l ++ a :: k) -> key_cmp v a = 0 -> sinsert v x (l ++ a :: k) = l ++ a :: k.
Proof.
  intros (_ & _ & Hl & _)%in_order_middle Ha. rewrite sinsert_skip.
  - cbn. by rewrite !bool_decide_eq_false_2 by lia.
  - eapply Forall_impl; [exact Hl|]. intros b. by apply equal_above.
Qed.

Lemma nodes_finsert v x t : in_order (nodes t) -> nodes (finsert key_cmp v x t) = sinsert v x (nodes t).
Proof.
  induction t as [|l IHl a n r IHr]; [done|]. intros Ho. cbn [finsert nodes] in Ho |- *.
  pose proof Ho as (Hl & Hr & _)%in_order_middle.
  case_bool_decide; [rewrite nodes_fsplit, nodes_fskew; cbn [nodes]; by rewrite IHr, sinsert_right|].
  case_bool_decide; [rewrite nodes_fsplit, nodes_fskew; cbn [nodes]; by rewrite IHl, sinsert_left|].
  cbn [nodes]. by rewrite sinsert_at by (done || lia).
Qed.

Lemma filter_id {A} (P : A -> Prop) `{!forall x, Decision (P x)} l : Forall P l -> filter P l = l.
Proof. induction 1 as [|b l Hb _ IH]; [done|]. rewrite filter_cons_True by done. by rewrite IH. Qed.

Lemma sremove_middle v l a k : sremove v (l ++ a :: k) = sremove v l ++ (if bool_decide (key_cmp v a = 0) then [] else [a]) ++ sremove v k.
Proof.
  unfold sremove. rewrite filter_app. f_equal. case_bool_decide.
  - by rewrite filter_cons_False by auto.
  - by rewrite filter_cons_True.
Qed.

Lemma sremove_none v l : Forall (fun a => key_cmp v a <> 0) l -> sremove v l = l.
Proof. apply filter_id. Qed.

Lemma nodes_fremove v t : balanced t -> in_order (nodes t) -> nodes (fremove key_cmp v t) = sremove v (nodes t).
Proof.
  induction t as [|l IHl a n r IHr]; [done|]. intros B Ho. pose proof B as (_ & _ & Bl & Br). cbn [fremove nodes] in Ho |- *.
  pose proof Ho as (Hl & Hr & Hla & Har & _)%in_order_middle.
  rewrite nodes_frebalance, sremove_middle. case_bool_decide as H1; [|case_bool_decide as H2]; cbn [nodes].
  - rewrite IHr by done. rewrite bool_decide_eq_false_2 by lia. rewrite (sremove_none v (nodes l)); [done|].
    eapply Forall_impl; [exact Hla|]. intros b Hb. pose proof (above v a b H1 Hb). lia.
  - rewrite IHl by done. rewrite bool_decide_eq_false_2 by lia. rewrite (sremove_none v (nodes r)); [done|].
    eapply Forall_impl; [exact Har|]. intros b Hb. pose proof (below v a b H2 Hb). lia.
  - rewrite nodes_fdrop by done. assert (H0 : key_cmp v a = 0) by lia. rewrite bool_decide_eq_true_2 by done.
    rewrite !sremove_none; [done|..].
    + eapply Forall_impl; [exact Har|]. intros b Hb. pose proof (equal_below v a b H0 Hb). lia.
    + eapply Forall_impl; [exact Hla|]. intros b Hb. pose proof (equal_above v a b H0 Hb). lia.
Qed.

Lemma sfind_app v l k : sfind v (l ++ k) = match sfind v l with Some a => Some a | None => sfind v k end.
Proof. unfold sfind. rewrite filter_app. by destruct (filter _ l). Qed.

Lemma sfind_none v l : Forall (fun a => key_cmp v a <> 0) l -> sfind v l = None.
Proof.
  unfold sfind. induction 1 as [|b l Hb _ IH]; [done|]. by rewrite filter_cons_False.
Qed.

Lemma fsearch_find v t : in_order (nodes t) -> fsearch key_cmp v t = sfind v (nodes t).
Proof.
  induction t as [|l IHl a n r IHr]; [done|]. intros Ho. cbn [fsearch nodes] in Ho |- *.
  pose proof Ho as (Hl & Hr & Hla & Har & _)%in_order_middle. rewrite sfind_app.
  case_bool_decide as H1; [|case_bool_decide as H2].
  - rewrite sfind_none. 2:{ eapply Forall_impl; [exact Hla|]. intros b Hb. pose proof (above v a b H1 Hb). lia. }
    rewrite IHr by done. unfold sfind. by rewrite filter_cons_False by lia.
  - rewrite (sfind_none v (a :: nodes r)).
    2:{ constructor; [lia|]. eapply Forall_impl; [exact Har|]. intros b Hb. pose proof (below v a b H2 Hb). lia. }
    rewrite IHl by done. by destruct (sfind v (nodes l)).
  - assert (H0 : key_cmp v a = 0) by lia. rewrite sfind_none.
    2:{ eapply Forall_impl; [exact Hla|]. intros b Hb. pose proof (equal_above v a b H0 Hb). lia. }
    unfold sfind. by rewrite filter_cons_True.
Qed.

Lemma sinsert_elem v x l b : b ∈ sinsert v x l -> b = x \/ b ∈ l.
Proof.
  induction l as [|y l IH]; cbn; [rewrite list_elem_of_singleton; auto|].
  repeat case_bool_decide; rewrite ?elem_of_cons; intuition auto.
Qed.

Lemma sinsert_in_order v x l : key x = v -> in_order l -> in_order (sinsert v x l).
Proof.
  intros <-. unfold in_order. induction 1 as [|y l Hs IH Hf]; cbn; [by repeat constructor|].
  repeat case_bool_decide.
  - constructor; [done|]. apply Forall_forall. intros b [->|Hb]%sinsert_elem; [|by eapply Forall_forall in Hf].
    unfold before. by rewrite cmp_flip.
  - repeat constructor; auto. eapply Forall_impl; [exact Hf|]. intros b Hb. by eapply cmp_trans.
  - by constructor.
Qed.

Lemma sremove_in_order v l : in_order l -> in_order (sremove v l).
Proof.
  unfold in_order, sremove. induction 1 as [|y l Hs IH Hf]; [constructor|].
  rewrite filter_cons. case_decide; [|done]. constructor; [done|]. apply Forall_forall. intros b [_ Hb]%list_elem_of_filter.
  by eapply Forall_forall in Hf.
Qed.

Lemma in_order_NoDup l : in_order l -> NoDup l.
Proof.
  unfold in_order. induction 1 as [|y l Hs IH Hf]; constructor; [|done]. intros Hy.
  eapply Forall_forall in Hf; [|exact Hy]. unfold before in Hf. assert (cmp (key y) (key y) = 0) by by apply cmp_eq. lia.
Qed.
End Order.
