(* ===== verification/AAHeap.v ===== *)
(** * AA trees in the heap

    The pointer code of AATree.v refines the operations on values of
    AABalance.v: what it reads and writes, what it frees, and that it returns.
    The comparison of the code's users is strcmp. *)

From stdpp Require Import base option countable gmap list sorting strings.
From S2P Require Import Prelude AATree AABalance.
#[local] Open Scope Z_scope.

#[local] Abbreviation M := (SM AATree).

(** ** Trees in the heap *)

(** The heap holds the tree. *)
Fixpoint repr (h : gmap positive AANode) (t : tree) : Prop :=
  match t with
  | E => True
  | T l a n r => h !! a = Some (mkAANode (ptr l) (ptr r) n) /\ repr h l /\ repr h r
  end.

Definition lft (t : tree) : tree := match t with E => E | T l _ _ _ => l end.

Lemma node_run s t : repr (at_heap s) t -> node (ptr t) s = Ok (mkAANode (ptr (lft t)) (ptr (rt t)) (lev t), s).
Proof. destruct t as [|l a n r]; [done|]. intros (H & _). cbn. by rewrite H. Qed.

Lemma put_node_run s a n f :
  at_heap s !! a = Some n -> put_node (Some a) f s = Ok (tt, set_heap (<[a := f n]> (at_heap s)) s).
Proof. intros H. cbn. by rewrite H. Qed.

Lemma repr_frame h h' t : (forall a, a ∈ nodes t -> h' !! a = h !! a) -> repr h t -> repr h' t.
Proof.
  induction t as [|l IHl a n r IHr]; [done|]. cbn [repr nodes]. intros Hf (H & Hl & Hr). split_and!.
  - rewrite Hf; [done|]. apply elem_of_app. right. by left.
  - apply IHl; [|done]. intros b Hb. apply Hf, elem_of_app. by left.
  - apply IHr; [|done]. intros b Hb. apply Hf, elem_of_app. right. by right.
Qed.

Lemma repr_insert h a n t : a ∉ nodes t -> repr h t -> repr (<[a := n]> h) t.
Proof. intros H. apply repr_frame. intros b Hb. apply lookup_insert_ne. by intros ->. Qed.

Lemma repr_alloc h t a : repr h t -> a ∈ nodes t -> is_Some (h !! a).
Proof.
  induction t as [|l IHl b n r IHr]; cbn; [by intros _ ?%not_elem_of_nil|]. intros (H & Hl & Hr).
  rewrite elem_of_app, elem_of_cons. intros [?|[->|?]]; eauto.
Qed.

(** [acts m s N b t' c rel]: the code returns [b], has written to the nodes in
    [N] only, and leaves the tree [t'], the count [c] and the freed nodes [rel].
    [does]: what it returns is the root of the tree. *)
Definition acts {B} (m : SM AATree B) (s : AATree) (N : list positive) (b : B) (t' : tree) (c : Z) (rel : list positive) : Prop :=
  exists s', m s = Ok (b, s') /\ repr (at_heap s') t' /\
    (forall a, a ∉ N -> at_heap s' !! a = at_heap s !! a) /\ at_root s' = at_root s /\
    at_count s' = c /\ at_released s' = rel.

Definition does (m : SM AATree (option positive)) (s : AATree) (N : list positive) (t' : tree) (c : Z) (rel : list positive) : Prop :=
  acts m s N (ptr t') t' c rel.

Lemma acts_ret {B} (b : B) s N t : repr (at_heap s) t -> acts (mret b) s N b t (at_count s) (at_released s).
Proof. intros H. exists s. by split_and!. Qed.

Lemma acts_bind {B C} (m : SM AATree B) (k : B -> SM AATree C) s N b t c rel b2 t2 c2 rel2 :
  acts m s N b t c rel ->
  (forall s1, repr (at_heap s1) t -> at_count s1 = c -> at_released s1 = rel -> acts (k b) s1 N b2 t2 c2 rel2) ->
  acts (m ≫= k) s N b2 t2 c2 rel2.
Proof.
  intros (s1 & E1 & R1 & F1 & T1 & C1 & L1) Hk. destruct (Hk s1 R1 C1 L1) as (s2 & E2 & R2 & F2 & T2 & C2 & L2).
  exists s2. split_and!; auto; [by erewrite SM_bind_eq by exact E1|..|congruence].
  intros a Ha. by rewrite F2, F1.
Qed.

Lemma acts_widen {B} (m : SM AATree B) s N N' b t c rel : (forall a, a ∈ N -> a ∈ N') -> acts m s N b t c rel -> acts m s N' b t c rel.
Proof. intros Hs (s1 & E1 & R1 & F1 & T1). exists s1. split; [done|]. split; [done|]. split; [|done]. intros a Ha. apply F1. intros Hn. by apply Ha, Hs. Qed.

Lemma acts_node s N t :
  repr (at_heap s) t ->
  acts (node (ptr t)) s N (mkAANode (ptr (lft t)) (ptr (rt t)) (lev t)) t (at_count s) (at_released s).
Proof. intros H. exists s. split_and!; try done. by apply node_run. Qed.

(** Work on a subtree is work on the tree. *)
Lemma acts_right {B} (m : SM AATree B) s N b l a n r r' c rel :
  repr (at_heap s) (T l a n r) -> acts m s N b r' c rel -> ptr r' = ptr r ->
  a ∉ N -> (forall x, x ∈ nodes l -> x ∉ N) -> acts m s N b (T l a n r') c rel.
Proof.
  intros (Ha & Hl & _) (s1 & E1 & R1 & F1 & T1) Hp HaN HlN. exists s1. split; [done|]. split; [|done].
  split; [rewrite F1, Hp; done|]. split; [|done]. eapply repr_frame; [|exact Hl]. auto.
Qed.

Lemma upd_right_acts f s N l a n r r' c rel :
  repr (at_heap s) (T l a n r) -> does (f (ptr r)) s N r' c rel ->
  a ∉ N -> a ∉ nodes l -> a ∉ nodes r' -> (forall x, x ∈ nodes l -> x ∉ N) ->
  acts (upd_right (Some a) f) s (a :: N) tt (T l a n r') c rel.
Proof.
  intros Hr (s1 & E1 & R1 & F1 & T1 & C1 & L1) HaN Hal Ha' HlN. pose proof Hr as (Ha & Hl & _). unfold upd_right.
  eexists. erewrite SM_bind_eq by (by apply (node_run s (T l a n r))). cbv beta. erewrite SM_bind_eq by exact E1.
  split; [apply put_node_run; by rewrite F1|]. cbn -[repr]. split_and!; auto.
  - cbn [repr]. rewrite lookup_insert_eq. split_and!; [done| |by apply repr_insert].
    apply repr_insert; [done|]. eapply repr_frame; [|exact Hl]. auto.
  - intros x [Hx Hx']%not_elem_of_cons. by rewrite lookup_insert_ne, F1.
Qed.

Lemma upd_left_acts f s N l a n r l' c rel :
  repr (at_heap s) (T l a n r) -> does (f (ptr l)) s N l' c rel ->
  a ∉ N -> a ∉ nodes r -> a ∉ nodes l' -> (forall x, x ∈ nodes r -> x ∉ N) ->
  acts (upd_left (Some a) f) s (a :: N) tt (T l' a n r) c rel.
Proof.
  intros Hr (s1 & E1 & R1 & F1 & T1 & C1 & L1) HaN Har Ha' HrN. pose proof Hr as (Ha & _ & Hrr). unfold upd_left.
  eexists. erewrite SM_bind_eq by (by apply (node_run s (T l a n r))). cbv beta. erewrite SM_bind_eq by exact E1.
  split; [apply put_node_run; by rewrite F1|]. cbn -[repr]. split_and!; auto.
  - cbn [repr]. rewrite lookup_insert_eq. split_and!; [done|by apply repr_insert|].
    apply repr_insert; [done|]. eapply repr_frame; [|exact Hrr]. auto.
  - intros x [Hx Hx']%not_elem_of_cons. by rewrite lookup_insert_ne, F1.
Qed.

Lemma set_level_acts s l a n r z N :
  repr (at_heap s) (T l a n r) -> a ∉ nodes l -> a ∉ nodes r -> a ∈ N ->
  acts (set_level (Some a) z) s N tt (T l a z r) (at_count s) (at_released s).
Proof.
  intros (Ha & Hl & Hr) Hal Har HN. eexists. split; [by apply put_node_run|]. cbn -[repr]. split_and!; auto.
  - cbn [repr]. rewrite lookup_insert_eq. split_and!; [done|by apply repr_insert..].
  - intros x Hx. rewrite lookup_insert_ne; [done|]. by intros ->.
Qed.

Lemma NoDup_middle (l : list positive) a k :
  NoDup (l ++ a :: k) ->
  (a ∉ l) /\ (a ∉ k) /\ NoDup l /\ NoDup k /\ (forall x, x ∈ l -> x ∉ k) /\ (forall x, x ∈ k -> x ∉ l).
Proof.
  intros (Hl & Hd & Hk)%NoDup_app. apply NoDup_cons in Hk as [Ha Hk]. split_and!; auto.
  - intros H. by apply (Hd a H), list_elem_of_here.
  - intros x Hx H. by apply (Hd x Hx), list_elem_of_further.
  - intros x Hx H. by apply (Hd x H), list_elem_of_further.
Qed.

(** Distinctness of the nodes of a tree, taken apart. *)
Ltac apart :=
  repeat match goal with
  | H : NoDup (_ ++ _ :: _) |- _ => apply NoDup_middle in H as (? & ? & ? & ? & ? & ?)
  | H : NoDup (_ :: _) |- _ => apply NoDup_cons in H as (? & ?)
  | H : _ ∉ _ ++ _ |- _ => apply not_elem_of_app in H as (? & ?)
  | H : _ ∉ _ :: _ |- _ => apply not_elem_of_cons in H as (? & ?)
  | H : forall x, x ∈ _ ++ _ -> _ |- _ =>
      pose proof (fun x Hx => H x (proj2 (elem_of_app _ _ x) (or_introl Hx)));
      pose proof (fun x Hx => H x (proj2 (elem_of_app _ _ x) (or_intror Hx))); clear H
  | H : forall x, x ∈ ?a :: _ -> _ |- _ =>
      pose proof (H a (list_elem_of_here _ _));
      pose proof (fun x Hx => H x (list_elem_of_further _ _ _ Hx)); clear H
  end; cbv beta in *.

(** One statement of the code, run with a lemma. *)
Tactic Notation "srun" uconstr(H) := erewrite SM_bind_eq by (eapply H; done); cbv beta; cbn [an_left an_right an_level].

Ltac fresh_ne := first [assumption | congruence].

(** The heap after some assignments holds the tree they make. *)
Ltac held :=
  repeat match goal with
  | |- repr _ (T _ _ _ _) => cbn [repr]
  | |- _ /\ _ => split
  | |- repr (<[_ := _]> _) _ => apply repr_insert; [fresh_ne|]
  | |- <[?a := _]> _ !! ?a = _ => rewrite lookup_insert_eq; reflexivity
  | |- <[_ := _]> _ !! _ = _ => rewrite lookup_insert_ne by fresh_ne
  end; try assumption.

Lemma skew_does s t :
  repr (at_heap s) t -> NoDup (nodes t) -> (t = E \/ 1 <= lev t) ->
  does (skew (ptr t)) s (nodes t) (fskew t) (at_count s) (at_released s).
Proof.
  intros Hr Hd Hn. unfold skew. destruct t as [|l a n r]; [by exists s|].
  destruct Hn as [?|Hn]; [done|]. unfold does, acts. srun (node_run s (T l a n r)).
  pose proof Hr as (Ha & Hl & Hr'). cbn [lft]. srun (node_run s l).
  cbn [lev ptr]. rewrite (bool_decide_eq_false_2 (Some a = NIL)) by done.
  destruct l as [|ll b m lr].
  - rewrite bool_decide_eq_false_2 by (cbn in *; lia). by exists s.
  - cbn [lev fskew]. case_bool_decide; cbn [andb negb]; [|by exists s].
    cbn [nodes] in Hd |- *. pose proof Hl as (Hb & Hll & Hlr). apart.
    srun put_node_run. erewrite SM_bind_eq.
    2:{ apply put_node_run. cbn. held. exact Hb. }
    eexists. split; [done|]. cbn -[repr]. split; [subst; held|]. split; [|done].
    intros x Hx. apart. held. done.
Qed.

Lemma split_does s t :
  repr (at_heap s) t -> NoDup (nodes t) -> (t = E \/ 1 <= lev t) -> 0 <= lev (rt t) < INT_MAX ->
  does (split (ptr t)) s (nodes t) (fsplit t) (at_count s) (at_released s).
Proof.
  intros Hr Hd Hn Hi. unfold split. destruct t as [|l a n r]; [by exists s|].
  destruct Hn as [?|Hn]; [done|]. unfold does, acts. srun (node_run s (T l a n r)).
  pose proof Hr as (Ha & Hl & Hr'). cbn [rt lev]. srun (node_run s r).
  assert (Hrt : repr (at_heap s) (rt r)) by (by destruct r as [|rl b m rr]; [|destruct Hr' as (_ & _ & ?)]).
  srun (node_run s (rt r)).
  rewrite (bool_decide_eq_false_2 (ptr (T l a n r) = NIL)) by done. cbn [negb]. rewrite andb_true_r.
  destruct r as [|rl b m rr]; [rewrite bool_decide_eq_false_2 by (cbn in *; lia); by exists s|].
  cbn [rt lev fsplit] in *. case_bool_decide; [|by exists s].
  cbn [nodes] in Hd |- *. pose proof Hr' as (Hb & Hrl & Hrr). apart.
  cbn [ptr]. srun put_node_run. erewrite SM_bind_eq by (apply put_node_run; cbn; held; exact Hb). cbv beta.
  unfold int. rewrite bool_decide_eq_true_2 by lia. rewrite bind_lift_ok.
  erewrite SM_bind_eq by (apply put_node_run; cbn; held).
  eexists. split; [done|]. cbn -[repr]. split; [subst; held|]. split; [|done].
  intros x Hx. apart. held. done.
Qed.

(** Levels between one and [K]. *)
Fixpoint levels (K : Z) (t : tree) : Prop :=
  match t with E => True | T l _ n r => 1 <= n <= K /\ levels K l /\ levels K r end.

Lemma levels_mono K K' t : K <= K' -> levels K t -> levels K' t.
Proof. intros. induction t; cbn in *; [done|]. intuition lia. Qed.

Lemma levels_balanced K t : balanced t -> lev t <= K -> levels K t.
Proof.
  induction t as [|l IHl a n r IHr]; cbn; [done|]. intros (Hl & Hr & Bl & Br) Hn. pose proof (lev_nonneg _ Bl).
  split; [lia|]. split; [apply IHl; [done|lia]|apply IHr; [done|lia]].
Qed.

Lemma levels_fskew K t : levels K t -> levels K (fskew t).
Proof. destruct t as [|[|ll b m lr] a n r]; cbn; [done..|]. case_bool_decide; cbn; intuition lia. Qed.

Lemma levels_fsplit K t : levels K t -> levels (K + 1) (fsplit t).
Proof.
  intros H. assert (H' : levels (K + 1) t) by (eapply levels_mono; [|done]; lia).
  destruct t as [|l a n [|rl b m rr]]; [done..|]. cbn in H, H' |- *. case_bool_decide; cbn; intuition lia.
Qed.

Lemma levels_lev K t : levels K t -> t = E \/ 1 <= lev t.
Proof. destruct t; cbn; [auto|]. intros [? _]. right. lia. Qed.

Lemma levels_rt K t : levels K t -> levels K (rt t).
Proof. destruct t; cbn; [auto|]. tauto. Qed.

Lemma levels_bound K t : levels K t -> 0 <= K -> 0 <= lev t <= K.
Proof. destruct t; cbn; lia. Qed.

Lemma rebalance_insert_does s K t :
  repr (at_heap s) t -> NoDup (nodes t) -> levels K t -> 0 <= K < INT_MAX ->
  does (rebalance_on_insert (ptr t)) s (nodes t) (fsplit (fskew t)) (at_count s) (at_released s).
Proof.
  intros Hr Hd Hl HK. unfold rebalance_on_insert. eapply acts_bind.
  - apply skew_does; [done..|]. by eapply levels_lev.
  - intros s1 R1 <- <-. rewrite <- (nodes_fskew t). pose proof (levels_fskew _ _ Hl) as Hl'.
    apply split_does; [done|by rewrite nodes_fskew|by eapply levels_lev|].
    pose proof (levels_bound _ _ (levels_rt _ _ Hl')). lia.
Qed.

Lemma acts_pure {B C} (m : SM AATree B) (k : B -> SM AATree C) s N b b2 t2 c2 rel2 :
  m s = Ok (b, s) -> acts (k b) s N b2 t2 c2 rel2 -> acts (m ≫= k) s N b2 t2 c2 rel2.
Proof. intros E. unfold acts. by rewrite (SM_bind_eq _ _ _ _ _ E). Qed.

Lemma does_same_nodes m s t N t' c rel : nodes t = N -> does m s (nodes t) t' c rel -> does m s N t' c rel.
Proof. by intros <-. Qed.

Lemma upd_right_map f g s t :
  repr (at_heap s) t -> NoDup (nodes t) -> t <> E -> nodes (g (rt t)) = nodes (rt t) ->
  does (f (ptr (rt t))) s (nodes (rt t)) (g (rt t)) (at_count s) (at_released s) ->
  acts (upd_right (ptr t) f) s (nodes t) tt (map_right g t) (at_count s) (at_released s).
Proof.
  intros Hr Hd Ht Hg Hf. destruct t as [|l a n r]; [done|]. cbn [nodes rt map_right ptr] in *. apart.
  eapply acts_widen; [|eapply upd_right_acts; [exact Hr|exact Hf|done|done|by rewrite Hg|done]].
  intros x. rewrite elem_of_app. auto.
Qed.

Lemma levels_map_right K f t : (levels K (rt t) -> levels K (f (rt t))) -> levels K t -> levels K (map_right f t).
Proof. destruct t; cbn; [done|]. tauto. Qed.

Lemma map_right_not_E f t : t <> E -> map_right f t <> E.
Proof. by destruct t. Qed.

Lemma fskew_not_E t : t <> E -> fskew t <> E.
Proof. destruct t as [|[|ll b m lr] a n r]; [done..|]. cbn. by case_bool_decide. Qed.

Lemma fsplit_not_E t : t <> E -> fsplit t <> E.
Proof. destruct t as [|l a n [|rl b m rr]]; [done..|]. cbn. by case_bool_decide. Qed.

Lemma rt_map_right f t : t <> E -> rt (map_right f t) = f (rt t).
Proof. by destruct t. Qed.

Lemma repr_rt h t : repr h t -> repr h (rt t).
Proof. destruct t; cbn; tauto. Qed.

Lemma NoDup_rt t : NoDup (nodes t) -> NoDup (nodes (rt t)).
Proof. destruct t; cbn; [done|]. by intros (_ & _ & _ & ? & _)%NoDup_middle. Qed.

(** p->right = skew(p->right), p->right->right = skew(p->right->right),
    p->right = split(p->right) *)
Lemma skew_right_acts s K t :
  repr (at_heap s) t -> NoDup (nodes t) -> levels K t -> t <> E ->
  acts (upd_right (ptr t) skew) s (nodes t) tt (map_right fskew t) (at_count s) (at_released s).
Proof.
  intros Hr Hd Hl Ht. apply (upd_right_map skew fskew); [done..|apply nodes_fskew|].
  apply skew_does; [by apply repr_rt|by apply NoDup_rt|]. by eapply levels_lev, levels_rt.
Qed.

Lemma skew_right_right_acts s K t :
  repr (at_heap s) t -> NoDup (nodes t) -> levels K t -> rt t <> E ->
  acts (n ← node (ptr t); upd_right (an_right n) skew) s (nodes t) tt (map_right (map_right fskew) t)
    (at_count s) (at_released s).
Proof.
  intros Hr Hd Hl Ht. eapply acts_pure; [by apply node_run|]. cbn [an_right].
  destruct t as [|l a n r]; [done|]. cbn [rt map_right] in *. pose proof Hr as (_ & _ & Rr).
  eapply acts_widen; [|eapply (acts_right _ s (nodes r)); [exact Hr|eapply skew_right_acts|..]]; try done.
  - intros x Hx. cbn. apply elem_of_app. right. by right.
  - by apply (NoDup_rt (T l a n r)).
  - by destruct Hl as (_ & _ & ?).
  - by destruct r.
  - cbn in Hd. by apart.
  - cbn in Hd. by apart.
Qed.

Lemma split_right_acts s K t :
  repr (at_heap s) t -> NoDup (nodes t) -> levels K t -> 0 <= K < INT_MAX -> t <> E ->
  acts (upd_right (ptr t) split) s (nodes t) tt (map_right fsplit t) (at_count s) (at_released s).
Proof.
  intros Hr Hd Hl HK Ht. apply (upd_right_map split fsplit); [done..|apply nodes_fsplit|].
  apply split_does; [by apply repr_rt|by apply NoDup_rt|by eapply levels_lev, levels_rt|].
  pose proof (levels_bound _ _ (levels_rt _ _ (levels_rt _ _ Hl))). lia.
Qed.

(** The reshaping, on a tree that has a right child after the first rotation. *)
Lemma reshape_does s K t :
  repr (at_heap s) t -> NoDup (nodes t) -> levels K t -> 0 <= K < INT_MAX - 1 -> rt (fskew t) <> E ->
  does (current ← skew (ptr t);
        upd_right current skew ≫= fun _ =>
        n ← node current;
        upd_right (an_right n) skew ≫= fun _ =>
        current ← split current;
        upd_right current split ≫= fun _ =>
        mret current) s (nodes t)
    (map_right fsplit (fsplit (map_right (map_right fskew) (map_right fskew (fskew t)))))
    (at_count s) (at_released s).
Proof.
  intros Hr Hd Hl HK Ht. eapply acts_bind; [apply skew_does; [done..|by eapply levels_lev]|]. intros s1 R1 <- <-.
  remember (fskew t) as t1 eqn:E1. assert (N1 : nodes t1 = nodes t) by (by rewrite E1, nodes_fskew).
  assert (L1 : levels K t1) by (subst; by apply levels_fskew). rewrite <- N1 in *. clear E1 N1 Hr Hl t.
  assert (Hn1 : t1 <> E) by (by intros ->).
  eapply acts_bind; [by eapply skew_right_acts|]. intros s2 R2 <- <-. remember (map_right fskew t1) as t2 eqn:E2.
  assert (N2 : nodes t2 = nodes t1) by (subst; by apply nodes_map_right, nodes_fskew).
  assert (L2 : levels K t2) by (subst; apply levels_map_right; [apply levels_fskew|done]).
  assert (P2 : ptr t2 = ptr t1) by (by subst; destruct t1).
  assert (Hn2 : rt t2 <> E) by (subst; rewrite rt_map_right by done; by apply fskew_not_E).
  rewrite <- N2, <- P2 in *. clear E2 N2 P2 R1 L1 Hn1 Ht t1.
  remember (map_right (map_right fskew) t2) as t3 eqn:E3.
  assert (N3 : nodes t3 = nodes t2) by (subst; apply nodes_map_right; intros; by apply nodes_map_right, nodes_fskew).
  assert (L3 : levels K t3).
  { subst. apply levels_map_right; [|done]. intros. apply levels_map_right; [apply levels_fskew|done]. }
  assert (P3 : ptr t3 = ptr t2) by (by subst; destruct t2).
  assert (Hn3 : t3 <> E) by (subst; by destruct t2).
  unfold does, acts. rewrite <- SM_assoc. 
  pose proof (skew_right_right_acts s2 K t2 R2 Hd L2 Hn2) as A3. rewrite <- E3 in A3.
  eapply acts_bind; [exact A3|]. intros s3 R3 <- <-. cbv beta.
  rewrite <- N3, <- P3 in *. clear E3 A3 N3 P3 R2 L2 Hn2 t2.
  eapply acts_bind.
  { apply split_does; [done..|by eapply levels_lev|]. pose proof (levels_bound _ _ (levels_rt _ _ L3)). lia. }
  intros s5 R5 <- <-. remember (fsplit t3) as t5 eqn:E5.
  assert (N5 : nodes t5 = nodes t3) by (subst t5; apply nodes_fsplit).
  assert (L5 : levels (K + 1) t5) by (subst t5; by apply levels_fsplit).
  assert (Hn5 : t5 <> E) by (subst t5; by apply fsplit_not_E). rewrite <- N5 in *. clear E5.
  eapply acts_bind; [eapply (split_right_acts _ (K + 1)); [done..|lia|done]|].
  intros s6 R6 <- <-. destruct t5; [done|]. by apply acts_ret.
Qed.

Lemma levels_lower K z t : 1 <= z <= K -> levels K t -> levels K (lower z t).
Proof. destruct t; cbn; [done|]. intros Hz (Hn & Hl & Hr). case_bool_decide; cbn; split_and!; auto; lia. Qed.

Lemma lower_acts s l a n r z N :
  repr (at_heap s) (T l a n r) -> NoDup (nodes (T l a n r)) -> 0 <= z -> (forall x, x ∈ nodes r -> x ∈ N) ->
  acts (if bool_decide (lev r > z) then set_level (ptr r) z else mret tt) s N tt (T l a n (lower z r))
    (at_count s) (at_released s).
Proof.
  intros R Hd Hz HN. destruct r as [|rl b m rr]; [rewrite bool_decide_eq_false_2 by (cbn in *; lia); by apply acts_ret|].
  cbn [lev lower ptr]. case_bool_decide; [|by apply acts_ret]. pose proof R as (_ & _ & Rr).
  apply (acts_widen _ _ [b]).
  { intros x ->%list_elem_of_singleton. apply HN, elem_of_app. right. by left. }
  clear HN. cbn [nodes] in *. apart.
  eapply acts_right; [exact R|apply (set_level_acts s rl b m rr); try done; by left|done|..].
  - by intros ->%list_elem_of_singleton.
  - intros x Hx ->%list_elem_of_singleton. done.
Qed.

Lemma rebalance_remove_does s K l a n r :
  repr (at_heap s) (T l a n r) -> NoDup (nodes (T l a n r)) -> levels K (T l a n r) -> 0 <= K < INT_MAX - 1 ->
  (r = E -> lev l < n - 1 \/ lev r < n - 1 -> lev l = n - 1 /\ l <> E) ->
  does (rebalance_on_remove (Some a)) s (nodes (T l a n r)) (frebalance (T l a n r)) (at_count s) (at_released s).
Proof.
  intros Hr Hd Hl HK Hsafe. unfold rebalance_on_remove, does. pose proof Hr as (Ha & Rl & Rr).
  pose proof Hl as (Hn & Ll & Lr). pose proof (levels_bound _ _ Ll). pose proof (levels_bound _ _ Lr).
  assert (Hd' : NoDup (nodes l ++ a :: nodes r)) by exact Hd. apply NoDup_middle in Hd' as (Hal & Har & _ & Hdr & Hlr & Hrl).
  eapply acts_pure; [by apply (node_run s (T l a n r))|]. cbn [an_left an_right an_level lft rt lev].
  eapply acts_pure; [by apply (node_run s l)|]. eapply acts_pure; [by apply (node_run s r)|].
  cbn [an_level]. destruct (bool_decide (lev l < n - 1) || bool_decide (lev r < n - 1)) eqn:Hg.
  2:{ cbn [frebalance]. rewrite Hg. by apply acts_ret. }
  assert (Hg' : lev l < n - 1 \/ lev r < n - 1) by (apply orb_true_iff in Hg as [?|?]; bprop; auto).
  rewrite gap by done. eapply acts_pure; [unfold int; by rewrite bool_decide_eq_true_2 by lia|].
  assert (HaN : a ∈ nodes (T l a n r)) by (cbn; apply elem_of_app; right; by left).
  eapply acts_bind; [by apply (set_level_acts s l a n r (n - 1))|]. intros s1 R1 <- <-.
  eapply acts_pure; [by apply (node_run s1 (T l a (n - 1) r))|]. cbn [an_right an_level rt lev].
  pose proof R1 as (_ & _ & Rr1). eapply acts_pure; [by apply (node_run s1 r)|]. cbn [an_level].
  eapply acts_bind; [apply (lower_acts s1 l a (n - 1) r (n - 1)); [done|exact Hd|lia|]|].
  { intros x Hx. cbn. apply elem_of_app. right. by right. }
  intros s2 R2 <- <-. set (t2 := T l a (n - 1) (lower (n - 1) r)) in *.
  apply (does_same_nodes _ _ t2); [cbn; by rewrite nodes_lower|]. apply (reshape_does s2 K t2); [done|..].
  - cbn. by rewrite nodes_lower.
  - cbn. split_and!; [lia..|done|]. apply levels_lower; [lia|done].
  - lia.
  - subst t2. destruct r as [|rl b m rr].
    + destruct (Hsafe eq_refl Hg') as [Hll Hle]. destruct l as [|ll c k lr]; [done|]. cbn in Hll. by rewrite skew_at by lia.
    + clear Hg. assert (Hlow : lower (n - 1) (T rl b m rr) <> E) by (cbn; by case_bool_decide).
      destruct l as [|ll c k lr]; [done|]. cbn [fskew]. by case_bool_decide.
Qed.

Lemma level_small t : balanced t -> zlen (nodes t) <= INT_MAX -> lev t <= 31.
Proof.
  intros B Hz. pose proof (level_size t B). pose proof (lev_nonneg t B).
  destruct (decide (lev t <= 31)); [done|]. assert (2 ^ 32 <= 2 ^ lev t) by (apply Z.pow_le_mono_r; lia).
  unfold INT_MAX in *. lia.
Qed.

Section Heap.
Context {V : Type} {O : Ordered V} (key : positive -> V) (release_cb : bool).
#[local] Abbreviation kcmp := (key_cmp key).

Lemma not_at v x a : key x = v -> kcmp v a <> 0 -> x <> a.
Proof. intros <- H ->. apply H. by apply cmp_eq. Qed.

Lemma insert_leaf_does fuel s v x N :
  is_Some (at_heap s !! x) -> 0 <= at_count s < INT_MAX -> x ∈ N ->
  does (insert_sub kcmp (S fuel) None v x) s N (T E x 1 E) (at_count s + 1) (at_released s).
Proof.
  intros [n Hx] Hc HN. unfold does, acts. cbn [insert_sub]. erewrite SM_bind_eq by (by apply put_node_run). cbv beta.
  rewrite bind_getS. unfold int. cbn [at_count set_heap]. rewrite bool_decide_eq_true_2 by lia.
  rewrite bind_lift_ok, bind_modS. eexists. split; [done|]. cbn. split_and!; auto; [by rewrite lookup_insert_eq|].
  intros a Ha. rewrite lookup_insert_ne; [done|]. by intros ->.
Qed.

Lemma sinsert_zlen v x l : zlen l <= zlen (sinsert key v x l) <= zlen l + 1.
Proof. induction l as [|y l IH]; cbn; [done|]. repeat case_bool_decide; rewrite ?zlen_cons; lia. Qed.

Lemma nodes_elem_l l a n r x : x ∈ nodes l -> x ∈ nodes (T l a n r).
Proof. intros. cbn. apply elem_of_app. by left. Qed.
Lemma nodes_elem_r l a n r x : x ∈ nodes r -> x ∈ nodes (T l a n r).
Proof. intros. cbn. apply elem_of_app. right. by right. Qed.
Lemma nodes_elem_m l a n r : a ∈ nodes (T l a n r).
Proof. cbn. apply elem_of_app. right. by left. Qed.

Lemma finsert_elem v x t y : in_order key (nodes t) -> y ∈ nodes (finsert kcmp v x t) -> y ∈ x :: nodes t.
Proof. intros Ho. rewrite nodes_finsert by done. intros [->|H]%sinsert_elem; [by left|by right]. Qed.

(** Rebalancing after one child has grown. *)
Lemma regrow_does s l a n r t N :
  repr (at_heap s) (T l a n r) -> in_order key (nodes (T l a n r)) -> balanced l -> balanced r ->
  balanced t -> zlen (nodes t) <= INT_MAX -> 1 <= n <= lev t -> lev l <= lev t + 1 -> lev r <= lev t + 1 ->
  (forall y, y ∈ nodes (T l a n r) -> y ∈ N) ->
  does (rebalance_on_insert (Some a)) s N (fsplit (fskew (T l a n r))) (at_count s) (at_released s).
Proof.
  intros R Ho Bl Br Bt Hz Hn Hl Hr HN. pose proof (level_small t Bt Hz).
  eapply acts_widen; [exact HN|]. apply (rebalance_insert_does s (lev t + 1) (T l a n r)); [done| | |unfold INT_MAX; lia].
  - by eapply in_order_NoDup.
  - cbn. split; [lia|]. split; apply levels_balanced; auto; lia.
Qed.

Lemma insert_right_does f s l a n r v x c rel :
  repr (at_heap s) (T l a n r) -> in_order key (nodes (T l a n r)) -> balanced (T l a n r) ->
  zlen (nodes (T l a n r)) <= INT_MAX -> key x = v -> kcmp v a > 0 ->
  does (f (ptr r)) s (x :: nodes r) (finsert kcmp v x r) c rel ->
  does (upd_right (Some a) f ≫= fun _ => rebalance_on_insert (Some a)) s (x :: nodes (T l a n r))
    (fsplit (fskew (T l a n (finsert kcmp v x r)))) c rel.
Proof.
  intros R Ho B Hz Hk Hgt Hf. pose proof B as (Hl & Hr & Bl & Br). pose proof (lev_nonneg _ Bl). pose proof (lev_nonneg _ Br).
  pose proof Ho as (_ & Hor & Hla & _)%in_order_middle.
  pose proof (in_order_NoDup key _ Ho) as (Hal & Har & _ & _ & Hlr & _)%NoDup_middle.
  pose proof (finsert_grown kcmp v x r Br) as (Br' & Hlev & _).
  pose proof (fun y Hy => finsert_elem v x r y Hor Hy) as Hsub.
  assert (Hxa : x <> a) by (apply (not_at v); [done|lia]).
  eapply acts_bind.
  { eapply acts_widen; [|eapply upd_right_acts; [exact R|exact Hf|..]]; try done.
    - intros y [->|[->|Hy]%elem_of_cons]%elem_of_cons; [right; apply (nodes_elem_m l a n r)|by left|right; by apply (nodes_elem_r l a n r)].
    - apply not_elem_of_cons. auto.
    - intros Ha%Hsub. apply elem_of_cons in Ha as [?|?]; auto.
    - intros y Hy [->|Hyr]%elem_of_cons; [|by apply (Hlr y)]. eapply Forall_forall in Hla; [|exact Hy].
      pose proof (above key v a x Hgt Hla). apply (not_at v x x); [done|lia|done]. }
  intros s1 R1 <- <-. apply (regrow_does s1 l a n _ (T l a n r)); auto; cbn [lev]; try lia.
  - cbn [nodes] in Ho |- *. rewrite nodes_finsert, <- sinsert_right by done. by apply sinsert_in_order.
  - intros y. cbn [nodes]. rewrite elem_of_app, elem_of_cons. intros [Hy|[->|Hy%Hsub]].
    + right. by apply (nodes_elem_l l a n r).
    + right. apply (nodes_elem_m l a n r).
    + apply elem_of_cons in Hy as [->|Hy]; [by left|]. right. by apply (nodes_elem_r l a n r).
Qed.

Lemma insert_left_does f s l a n r v x c rel :
  repr (at_heap s) (T l a n r) -> in_order key (nodes (T l a n r)) -> balanced (T l a n r) ->
  zlen (nodes (T l a n r)) <= INT_MAX -> key x = v -> kcmp v a < 0 ->
  does (f (ptr l)) s (x :: nodes l) (finsert kcmp v x l) c rel ->
  does (upd_left (Some a) f ≫= fun _ => rebalance_on_insert (Some a)) s (x :: nodes (T l a n r))
    (fsplit (fskew (T (finsert kcmp v x l) a n r))) c rel.
Proof.
  intros R Ho B Hz Hk Hlt Hf. pose proof B as (Hl & Hr & Bl & Br). pose proof (lev_nonneg _ Bl). pose proof (lev_nonneg _ Br).
  pose proof Ho as (Hol & _ & _ & Har & _)%in_order_middle.
  pose proof (in_order_NoDup key _ Ho) as (Hal & Har' & _ & _ & _ & Hrl)%NoDup_middle.
  pose proof (finsert_grown kcmp v x l Bl) as (Bl' & Hlev & _).
  pose proof (fun y Hy => finsert_elem v x l y Hol Hy) as Hsub.
  assert (Hxa : x <> a) by (apply (not_at v); [done|lia]).
  eapply acts_bind.
  { eapply acts_widen; [|eapply upd_left_acts; [exact R|exact Hf|..]]; try done.
    - intros y [->|[->|Hy]%elem_of_cons]%elem_of_cons; [right; apply (nodes_elem_m l a n r)|by left|right; by apply (nodes_elem_l l a n r)].
    - apply not_elem_of_cons. auto.
    - intros Ha%Hsub. apply elem_of_cons in Ha as [?|?]; auto.
    - intros y Hy [->|Hyr]%elem_of_cons; [|by apply (Hrl y)]. eapply Forall_forall in Har; [|exact Hy].
      pose proof (below key v a x Hlt Har). apply (not_at v x x); [done|lia|done]. }
  intros s1 R1 <- <-. apply (regrow_does s1 _ a n r (T l a n r)); auto; cbn [lev]; try lia.
  - cbn [nodes] in Ho |- *. rewrite nodes_finsert, <- sinsert_left by done. by apply sinsert_in_order.
  - intros y. cbn [nodes]. rewrite elem_of_app, elem_of_cons. intros [Hy%Hsub|[->|Hy]].
    + apply elem_of_cons in Hy as [->|Hy]; [by left|]. right. by apply (nodes_elem_l l a n r).
    + right. apply (nodes_elem_m l a n r).
    + right. by apply (nodes_elem_r l a n r).
Qed.

Lemma insert_sub_does fuel : forall s t v x,
  repr (at_heap s) t -> in_order key (nodes t) -> balanced t -> (height t < fuel)%nat ->
  key x = v -> is_Some (at_heap s !! x) -> 0 <= at_count s < INT_MAX -> zlen (nodes t) <= INT_MAX ->
  does (insert_sub kcmp fuel (ptr t) v x) s (x :: nodes t) (finsert kcmp v x t)
    (at_count s + (zlen (sinsert key v x (nodes t)) - zlen (nodes t))) (at_released s).
Proof.
  induction fuel as [|fuel IH]; [lia|]. intros s t v x R Ho B Hh Hk Hx Hc Hz.
  destruct t as [|l a n r]; [apply (insert_leaf_does fuel s v x); [done..|by left]|].
  pose proof R as (_ & Rl & Rr). pose proof B as (_ & _ & Bl & Br).
  pose proof Ho as (Hol & Hor & _)%in_order_middle. cbn [height] in Hh.
  assert (zlen (nodes l) <= INT_MAX /\ zlen (nodes r) <= INT_MAX) as [Hzl Hzr].
  { cbn in Hz. rewrite zlen_app, zlen_cons in Hz. pose proof (zlen_nonneg (nodes l)). pose proof (zlen_nonneg (nodes r)). lia. }
  cbn [insert_sub ptr finsert]. case_bool_decide as Hgt; [|case_bool_decide as Hlt].
  - cbn [nodes] in Ho |- *. rewrite sinsert_right, !zlen_app, !zlen_cons by done.
    replace (at_count s + _) with (at_count s + (zlen (sinsert key v x (nodes r)) - zlen (nodes r))) by lia.
    apply (insert_right_does (fun r => insert_sub kcmp fuel r v x)); auto. apply IH; auto. lia.
  - cbn [nodes] in Ho |- *. rewrite sinsert_left, !zlen_app, !zlen_cons by done.
    replace (at_count s + _) with (at_count s + (zlen (sinsert key v x (nodes l)) - zlen (nodes l))) by lia.
    apply (insert_left_does (fun r => insert_sub kcmp fuel r v x)); auto. apply IH; auto. lia.
  - cbn [nodes] in Ho |- *. rewrite sinsert_at by (done || lia). rewrite Z.sub_diag, Z.add_0_r.
    by apply (acts_ret _ _ _ (T l a n r)).
Qed.

(** *** Removal *)

(** The gaps that removal makes can be mended. *)
Definition mendable (t : tree) : Prop :=
  match t with
  | E => True
  | T l _ n r => r = E -> lev l < n - 1 \/ lev r < n - 1 -> lev l = n - 1 /\ l <> E
  end.

Lemma mendable_balanced t : balanced t -> mendable t.
Proof. destruct t; cbn; [done|]. intros (Hl & Hr & _) _ ?. lia. Qed.

Lemma mendable_left l a n r l' : balanced (T l a n r) -> shrunk l l' -> mendable (T l' a n r).
Proof.
  intros (Hl & Hr & Bl & _) (Bl' & Hlev & _). pose proof (lev_nonneg _ Bl). pose proof (lev_nonneg _ Bl').
  intros -> ?. cbn in *. lia.
Qed.

Lemma mendable_right l a n r r' : balanced (T l a n r) -> shrunk r r' -> mendable (T l a n r').
Proof.
  intros (Hl & Hr & Bl & _) _ -> ?. cbn in *. split; [done|]. intros ->. cbn in *. lia.
Qed.

Lemma remend_does s K t N :
  repr (at_heap s) t -> NoDup (nodes t) -> levels K t -> 0 <= K < INT_MAX - 1 -> mendable t -> (forall x, x ∈ nodes t -> x ∈ N) ->
  does (rebalance_on_remove (ptr t)) s N (frebalance t) (at_count s) (at_released s).
Proof.
  intros R Hd Hl HK Hm HN. eapply acts_widen; [exact HN|]. destruct t as [|l a n r].
  - unfold rebalance_on_remove. repeat (eapply acts_pure; [done|]). cbn. by apply (acts_ret _ _ _ E).
  - by apply (rebalance_remove_does s K).
Qed.

Lemma acts_after {B C} (m : SM AATree B) (k : B -> SM AATree C) s s1 N b b2 t2 c2 rel2 :
  m s = Ok (b, s1) -> (forall a, a ∉ N -> at_heap s1 !! a = at_heap s !! a) -> at_root s1 = at_root s ->
  acts (k b) s1 N b2 t2 c2 rel2 -> acts (m ≫= k) s N b2 t2 c2 rel2.
Proof.
  intros E1 F1 T1 (s2 & E2 & R2 & F2 & T2 & C2). exists s2. rewrite (SM_bind_eq _ _ _ _ _ E1).
  split; [done|]. split; [done|]. split; [|split; [congruence|done]]. intros a Ha. by rewrite F2, F1.
Qed.

Lemma set_left_acts s l' a q n r N :
  at_heap s !! a = Some (mkAANode q (ptr r) n) -> repr (at_heap s) r -> repr (at_heap s) l' ->
  a ∉ nodes l' -> a ∉ nodes r -> a ∈ N ->
  acts (set_left (Some a) (ptr l')) s N tt (T l' a n r) (at_count s) (at_released s).
Proof.
  intros Ha Rr Rl' Hal Har HN. eexists. split; [by apply put_node_run|]. cbn -[repr]. split_and!; auto.
  - cbn [repr]. rewrite lookup_insert_eq. split_and!; [done|by apply repr_insert..].
  - intros x Hx. rewrite lookup_insert_ne; [done|]. by intros ->.
Qed.

Lemma steal_acts fuel : forall s t,
  t <> E -> repr (at_heap s) t -> NoDup (nodes t) -> balanced t -> (height t <= fuel)%nat -> zlen (nodes t) <= INT_MAX ->
  acts (steal_leftmost fuel (ptr t)) s (nodes (fsteal t).1) (ptr (fsteal t).1, (fsteal t).2) (fsteal t).1
    (at_count s) (at_released s).
Proof.
  induction fuel as [|fuel IH]; intros s t Ht R Hd B Hh Hz; [by destruct t; cbn in *; [done|lia]|].
  destruct t as [|l a n r]; [done|]. pose proof R as (_ & Rl & Rr). cbn [steal_leftmost].
  eapply acts_pure; [by apply (node_run s (T l a n r))|]. cbn [an_left an_right lft rt].
  destruct l as [|ll la ln lr]; [by apply acts_ret|].
  remember (T ll la ln lr) as l eqn:El. assert (Hne : l <> E) by (by subst).
  assert (Est : fsteal (T l a n r) = let '(l', s) := fsteal l in (frebalance (T l' a n r), s)) by (by subst).
  rewrite Est. clear Est. rewrite bool_decide_eq_false_2 by (by subst). clear El ll la ln lr.
  pose proof B as (Hl & Hr & Bl & Br). cbn [nodes height] in *. rewrite zlen_app, zlen_cons in Hz.
  pose proof (zlen_nonneg (nodes r)).
  destruct (fsteal_shrunk l Hne Bl) as [Hs [b Hb]]. pose proof (nodes_fsteal l b Hb) as Hnl.
  destruct (IH s l Hne Rl ltac:(by apart) Bl ltac:(lia) ltac:(lia)) as (s1 & E1 & R1 & F1 & T1 & C1 & L1).
  destruct (fsteal l) as [l' sv]. cbn [fst snd] in *. subst sv. rewrite Hnl in Hd. apart.
  rewrite nodes_frebalance. cbn [nodes]. pose proof R as (Ha & _ & _).
  assert (HN : forall x, x ∉ nodes l' ++ a :: nodes r -> x ∉ nodes l') by (intros x [? _]%not_elem_of_app; done).
  eapply acts_after; [exact E1|auto|done|]. cbv beta iota.
  assert (Hdis : forall x, x ∈ nodes l' -> x ∉ nodes r) by assumption.
  assert (NoDup (nodes (T l' a n r))).
  { cbn. apply NoDup_app. split_and!; [done| |by constructor]. intros x Hx [->|Hxr]%elem_of_cons; [done|]. by apply (Hdis x). }
  eapply acts_bind; [apply (set_left_acts s1 l' a (ptr l) n r)|].
  - by rewrite F1.
  - eapply repr_frame; [|exact Rr]. intros x Hx. apply F1. intros Hx'. by apply (Hdis x).
  - done.
  - done.
  - done.
  - apply elem_of_app. right. by left.
  - intros s2 R2 C2 L2. rewrite <- C1, <- L1, <- C2, <- L2.
    pose proof Hs as (Bl' & Hlev & _). pose proof (level_small (T l a n r) B) as Hsm.
    eapply (acts_bind _ _ s2 _ _ _ (at_count s2) (at_released s2)).
    + apply (remend_does s2 (lev (T l a n r)) (T l' a n r)); auto.
      * cbn. pose proof (lev_nonneg _ Bl). split; [lia|]. split; apply levels_balanced; auto; lia.
      * cbn [lev nodes] in *. rewrite zlen_app, zlen_cons in Hsm. pose proof (lev_nonneg _ Bl). unfold INT_MAX in *. lia.
      * by eapply mendable_left.
    + intros s3 R3 <- <-. by apply acts_ret.
Qed.

Definition freed (l : list positive) : list positive := if release_cb then l else [].

Lemma drop_tail_does s a t N :
  repr (at_heap s) t -> a ∉ nodes t -> a ∈ N -> 1 <= at_count s <= INT_MAX ->
  does ((if release_cb then release a else mret tt) ≫= fun _ =>
        s ← getS;
        z ← int (at_count s - 1);
        modS (set_count z) ≫= fun _ =>
        mret (ptr t)) s N t (at_count s - 1) (at_released s ++ freed [a]).
Proof.
  intros R Ha HN Hc. set (s1 := if release_cb then mkAATree (delete a (at_heap s)) (at_root s) (at_count s) (at_released s ++ [a]) else s).
  assert (E1 : (if release_cb then release a else mret tt) s = Ok (tt, s1)) by (subst s1; by destruct release_cb).
  assert (F1 : forall x, x <> a -> at_heap s1 !! x = at_heap s !! x).
  { subst s1. intros x Hx. destruct release_cb; [|done]. cbn. by rewrite lookup_delete_ne. }
  assert (C1 : at_count s1 = at_count s) by (subst s1; by destruct release_cb).
  eexists. erewrite SM_bind_eq by exact E1. cbv beta. rewrite bind_getS. unfold int. rewrite bool_decide_eq_true_2 by lia.
  rewrite bind_lift_ok, bind_modS. split; [done|]. cbn. split_and!.
  - eapply repr_frame; [|exact R]. intros x Hx. apply F1. by intros ->.
  - intros x Hx. apply F1. by intros ->.
  - subst s1. by destruct release_cb.
  - by rewrite C1.
  - subst s1. unfold freed. destruct release_cb; cbn; [done|]. by rewrite app_nil_r.
Qed.

(** The node [b] takes the place of [a]. *)
Lemma replace_acts s l a b n r r' N k c rel b2 t2 :
  repr (at_heap s) l -> repr (at_heap s) r' -> at_heap s !! a = Some (mkAANode (ptr l) (ptr r) n) ->
  is_Some (at_heap s !! b) -> a <> b ->
  a ∉ nodes l -> a ∉ nodes r' -> b ∉ nodes l -> b ∉ nodes r' -> a ∈ N -> b ∈ N ->
  (forall s1, repr (at_heap s1) (T l b n r') -> at_count s1 = at_count s -> at_released s1 = at_released s ->
     acts k s1 N b2 t2 c rel) ->
  acts (set_right (Some a) (ptr r') ≫= fun _ =>
        old ← node (Some a);
        put_node (Some b) (fun _ => old) ≫= fun _ => k) s N (b2 : option positive) t2 c rel.
Proof.
  intros Rl Rr Ha [nb Hb] Hab Hal Har Hbl Hbr HaN HbN Hk.
  eapply acts_after; [by apply put_node_run| |done|].
  { intros x Hx. cbn. rewrite lookup_insert_ne; [done|]. by intros ->. }
  eapply acts_pure; [cbn; by rewrite lookup_insert_eq|]. cbn [an_left an_level].
  eapply acts_after; [apply put_node_run; cbn; rewrite lookup_insert_ne by done; exact Hb| |done|].
  { intros x Hx. cbn. rewrite lookup_insert_ne; [done|]. by intros ->. }
  apply Hk; [|done..]. cbn -[repr]. held.
Qed.

Lemma steal_replace_does fuel s l a n r :
  repr (at_heap s) (T l a n r) -> NoDup (nodes (T l a n r)) -> balanced r -> r <> E ->
  (height r <= fuel)%nat -> zlen (nodes r) <= INT_MAX -> l <> E ->
  does ('(r, new) ← steal_leftmost fuel (ptr r);
        set_right (Some a) r ≫= fun _ =>
        old ← node (Some a);
        put_node new (fun _ => old) ≫= fun _ =>
        mret new) s (nodes (T l a n r)) (fdrop (T l a n r)) (at_count s) (at_released s).
Proof.
  intros R Hd Br Hr Hh Hz Hl. pose proof R as (Ha & Rl & Rr). cbn [nodes] in *.
  destruct (fsteal_shrunk r Hr Br) as [_ [b Hb]]. pose proof (nodes_fsteal r b Hb) as Hnr.
  destruct (steal_acts fuel s r Hr Rr ltac:(by apart) Br Hh Hz) as (s1 & E1 & R1 & F1 & T1 & C1 & L1).
  assert (Ed : fdrop (T l a n r) = T l b n (fsteal r).1).
  { destruct l as [|? ? ? ?], r as [|rl ra rn rr]; try done. unfold fdrop. destruct (fsteal (T rl ra rn rr)). cbn in Hb. by subst. }
  assert (Hball : is_Some (at_heap s !! b)) by (apply (repr_alloc _ r); [done|]; rewrite Hnr; by left).
  rewrite Ed, <- C1, <- L1. destruct (fsteal r) as [r' sv]. cbn [fst snd] in *. subst sv. rewrite Hnr in Hd |- *. apart.
  assert (Hdis' : forall x, x ∈ nodes r' -> x ∉ nodes l) by assumption.
  assert (Hdis : forall x, x ∈ nodes l -> x ∉ nodes r') by (intros x Hx Hx'; by apply (Hdis' x)).
  eapply acts_after; [exact E1| |done|].
  { intros x Hx. apply F1. by apart. }
  cbv beta iota. eapply (replace_acts s1 l a b n r r'); try done.
  - eapply repr_frame; [|exact Rl]. auto.
  - by rewrite F1.
  - by rewrite F1.
  - apply elem_of_app. right. by left.
  - apply elem_of_app. right. right. by left.
  - intros s2 R2 <- <-. by apply acts_ret.
Qed.

Lemma drop_does fuel s l a n r :
  repr (at_heap s) (T l a n r) -> NoDup (nodes (T l a n r)) -> balanced (T l a n r) ->
  (height r <= fuel)%nat -> zlen (nodes r) <= INT_MAX -> 1 <= at_count s <= INT_MAX ->
  does (drop_this_node release_cb fuel a) s (nodes (T l a n r)) (fdrop (T l a n r))
    (at_count s - 1) (at_released s ++ freed [a]).
Proof.
  intros R Hd B Hh Hz Hc. pose proof R as (Ha & Rl & Rr). pose proof B as (_ & _ & _ & Br). unfold drop_this_node.
  eapply acts_pure; [by apply (node_run s (T l a n r))|]. cbn [an_left an_right lft rt].
  eapply (acts_bind _ _ s _ (ptr (fdrop (T l a n r))) (fdrop (T l a n r)) (at_count s) (at_released s)).
  - destruct l as [|ll la ln lr]; [by apply acts_ret|]. rewrite (bool_decide_eq_false_2 (ptr (T ll la ln lr) = NIL)) by done.
    destruct r as [|rl ra rn rr]; [by apply acts_ret|]. rewrite bool_decide_eq_false_2 by done.
    by apply steal_replace_does.
  - intros s1 R1 C1 L1. rewrite <- C1, <- L1. apply drop_tail_does; auto using nodes_elem_m; [|lia].
    rewrite nodes_fdrop by done. cbn [nodes] in Hd. apart. by apply not_elem_of_app.
Qed.

Definition taken (v : V) (l : list positive) : list positive := filter (fun a => kcmp v a = 0) l.

Lemma taken_none v l : Forall (fun a => kcmp v a <> 0) l -> taken v l = [].
Proof. unfold taken. induction 1 as [|b l Hb _ IH]; [done|]. by rewrite filter_cons_False. Qed.

Lemma taken_middle v l a k : taken v (l ++ a :: k) = taken v l ++ (if bool_decide (kcmp v a = 0) then [a] else []) ++ taken v k.
Proof.
  unfold taken. rewrite filter_app. f_equal. case_bool_decide; [by rewrite filter_cons_True|by rewrite filter_cons_False].
Qed.

(** Which side has the node. *)
Lemma apart_right v l a k :
  in_order key (l ++ a :: k) -> kcmp v a > 0 ->
  sremove key v (l ++ a :: k) = l ++ a :: sremove key v k /\ taken v (l ++ a :: k) = taken v k.
Proof.
  intros (_ & _ & Hl & _)%in_order_middle Ha. assert (Forall (fun a => kcmp v a <> 0) l).
  { eapply Forall_impl; [exact Hl|]. intros b Hb. pose proof (above key v a b Ha Hb). cbv beta. lia. }
  rewrite sremove_middle, taken_middle, bool_decide_eq_false_2, sremove_none, taken_none by (done || lia). done.
Qed.

Lemma apart_left v l a k :
  in_order key (l ++ a :: k) -> kcmp v a < 0 ->
  sremove key v (l ++ a :: k) = sremove key v l ++ a :: k /\ taken v (l ++ a :: k) = taken v l.
Proof.
  intros (_ & _ & _ & Hk & _)%in_order_middle Ha. assert (Forall (fun a => kcmp v a <> 0) k).
  { eapply Forall_impl; [exact Hk|]. intros b Hb. pose proof (below key v a b Ha Hb). cbv beta. lia. }
  rewrite sremove_middle, taken_middle, bool_decide_eq_false_2, (sremove_none key v k), (taken_none v k) by (done || lia).
  by rewrite app_nil_r.
Qed.

Lemma apart_at v l a k :
  in_order key (l ++ a :: k) -> kcmp v a = 0 ->
  sremove key v (l ++ a :: k) = l ++ k /\ taken v (l ++ a :: k) = [a].
Proof.
  intros (_ & _ & Hl & Hk & _)%in_order_middle Ha.
  assert (Forall (fun a => kcmp v a <> 0) l).
  { eapply Forall_impl; [exact Hl|]. intros b Hb. pose proof (equal_above key v a b Ha Hb). cbv beta. lia. }
  assert (Forall (fun a => kcmp v a <> 0) k).
  { eapply Forall_impl; [exact Hk|]. intros b Hb. pose proof (equal_below key v a b Ha Hb). cbv beta. lia. }
  rewrite sremove_middle, taken_middle, bool_decide_eq_true_2, !sremove_none, !taken_none by done. done.
Qed.

Lemma fremove_elem v t x : balanced t -> in_order key (nodes t) -> x ∈ nodes (fremove kcmp v t) -> x ∈ nodes t.
Proof. intros B Ho. rewrite nodes_fremove by done. by intros [_ ?]%list_elem_of_filter. Qed.

Lemma mend_after s s0 l a n r t c rel :
  repr (at_heap s) (T l a n r) -> NoDup (nodes (T l a n r)) -> balanced l -> balanced r ->
  balanced t -> zlen (nodes t) <= INT_MAX -> 1 <= n <= lev t -> lev l <= lev t -> lev r <= lev t ->
  mendable (T l a n r) -> (forall y, y ∈ nodes (T l a n r) -> y ∈ nodes t) ->
  at_count s = c -> at_released s = rel -> s0 = Some a ->
  does (rebalance_on_remove s0) s (nodes t) (frebalance (T l a n r)) c rel.
Proof.
  intros R Hd Bl Br Bt Hz Hn Hl Hr Hm HN <- <- ->. pose proof (level_small t Bt Hz).
  apply (remend_does s (lev t) (T l a n r)); auto.
  - cbn. split; [lia|]. split; apply levels_balanced; auto.
  - unfold INT_MAX. lia.
Qed.

Lemma remove_right_does f s l a n r v c rel :
  repr (at_heap s) (T l a n r) -> in_order key (nodes (T l a n r)) -> balanced (T l a n r) ->
  zlen (nodes (T l a n r)) <= INT_MAX -> kcmp v a > 0 ->
  does (f (ptr r)) s (nodes r) (fremove kcmp v r) c rel ->
  does (current ← (upd_right (Some a) f ≫= fun _ => mret (Some a)); rebalance_on_remove current) s (nodes (T l a n r))
    (frebalance (T l a n (fremove kcmp v r))) c rel.
Proof.
  intros R Ho B Hz Hgt Hf. pose proof B as (Hl & Hr & Bl & Br). pose proof (lev_nonneg _ Bl).
  pose proof Ho as (_ & Hor & _)%in_order_middle.
  pose proof (in_order_NoDup key _ Ho) as (Hal & Har & Hdl & Hdr & Hlr & Hrl)%NoDup_middle.
  pose proof (fremove_shrunk kcmp v r Br) as Hs. pose proof Hs as (Br' & Hlev & _).
  pose proof (fun y Hy => fremove_elem v r y Br Hor Hy) as Hsub.
  unfold does, acts. rewrite SM_assoc. eapply acts_bind.
  { eapply acts_widen; [|eapply upd_right_acts; [exact R|exact Hf|..]]; try done; [|by intros ?%Hsub].
    intros y [->|Hy]%elem_of_cons; [apply (nodes_elem_m l a n r)|by apply (nodes_elem_r l a n r)]. }
  intros s1 R1 C1 L1. eapply acts_pure; [done|]. apply (mend_after _ _ l a n _ (T l a n r)); auto; cbn [lev]; try lia.
  - cbn. apply NoDup_app. split_and!; [done| |].
    + intros x Hx [->|Hxr%Hsub]%elem_of_cons; [done|]. by apply (Hlr x).
    + constructor; [by intros ?%Hsub|]. rewrite nodes_fremove by done. by apply NoDup_filter.
  - by eapply mendable_right.
  - intros y. cbn [nodes]. rewrite elem_of_app, elem_of_cons. intros [Hy|[->|Hy%Hsub]];
      [by apply (nodes_elem_l l a n r)|apply (nodes_elem_m l a n r)|by apply (nodes_elem_r l a n r)].
Qed.

Lemma remove_left_does f s l a n r v c rel :
  repr (at_heap s) (T l a n r) -> in_order key (nodes (T l a n r)) -> balanced (T l a n r) ->
  zlen (nodes (T l a n r)) <= INT_MAX -> kcmp v a < 0 ->
  does (f (ptr l)) s (nodes l) (fremove kcmp v l) c rel ->
  does (current ← (upd_left (Some a) f ≫= fun _ => mret (Some a)); rebalance_on_remove current) s (nodes (T l a n r))
    (frebalance (T (fremove kcmp v l) a n r)) c rel.
Proof.
  intros R Ho B Hz Hlt Hf. pose proof B as (Hl & Hr & Bl & Br). pose proof (lev_nonneg _ Bl).
  pose proof Ho as (Hol & _)%in_order_middle.
  pose proof (in_order_NoDup key _ Ho) as (Hal & Har & Hdl & Hdr & Hlr & Hrl)%NoDup_middle.
  pose proof (fremove_shrunk kcmp v l Bl) as Hs. pose proof Hs as (Bl' & Hlev & _).
  pose proof (fun y Hy => fremove_elem v l y Bl Hol Hy) as Hsub.
  unfold does, acts. rewrite SM_assoc. eapply acts_bind.
  { eapply acts_widen; [|eapply upd_left_acts; [exact R|exact Hf|..]]; try done; [|by intros ?%Hsub].
    intros y [->|Hy]%elem_of_cons; [apply (nodes_elem_m l a n r)|by apply (nodes_elem_l l a n r)]. }
  intros s1 R1 C1 L1. eapply acts_pure; [done|]. apply (mend_after _ _ _ a n r (T l a n r)); auto; cbn [lev]; try lia.
  - cbn. apply NoDup_app. split_and!; [rewrite nodes_fremove by done; by apply NoDup_filter| |by constructor].
    intros x Hx%Hsub [->|Hxr]%elem_of_cons; [done|]. by apply (Hlr x).
  - by eapply mendable_left.
  - intros y. cbn [nodes]. rewrite elem_of_app, elem_of_cons. intros [Hy%Hsub|[->|Hy]];
      [by apply (nodes_elem_l l a n r)|apply (nodes_elem_m l a n r)|by apply (nodes_elem_r l a n r)].
Qed.

Lemma remove_at_does fuel s l a n r :
  repr (at_heap s) (T l a n r) -> in_order key (nodes (T l a n r)) -> balanced (T l a n r) ->
  (height r <= fuel)%nat -> zlen (nodes (T l a n r)) <= INT_MAX -> 1 <= at_count s <= INT_MAX ->
  does (current ← drop_this_node release_cb fuel a; rebalance_on_remove current) s (nodes (T l a n r))
    (frebalance (fdrop (T l a n r))) (at_count s - 1) (at_released s ++ freed [a]).
Proof.
  intros R Ho B Hh Hz Hc. pose proof (in_order_NoDup key _ Ho) as Hd. pose proof B as (Hl & Hr & Bl & Br).
  pose proof (level_small _ B Hz) as Hsm. pose proof (lev_nonneg _ Bl). cbn [lev] in Hsm.
  eapply acts_bind; [apply drop_does; auto|].
  { cbn [nodes] in Hz. rewrite zlen_app, zlen_cons in Hz. pose proof (zlen_nonneg (nodes l)). lia. }
  intros s1 R1 <- <-. pose proof (nodes_fdrop _ _ _ _ B) as Hn.
  apply (remend_does s1 n).
  - done.
  - rewrite Hn. cbn [nodes] in Hd. apply NoDup_app in Hd as (? & Hx & ?%NoDup_cons). apply NoDup_app.
    split_and!; [done| |tauto]. intros x Hxl Hxr. apply (Hx x Hxl). by right.
  - destruct l as [|ll la ln lr]; [apply levels_balanced; cbn; [done|lia]|].
    destruct r as [|rl ra rn rr]; [apply levels_balanced; cbn in *; [done|lia]|].
    destruct (fsteal_shrunk (T rl ra rn rr) ltac:(done) Br) as [(Br' & Hlev & _) [b Hb]].
    unfold fdrop. destruct (fsteal (T rl ra rn rr)) as [r' sv]. cbn [fst snd] in *. subst sv. cbn [lev] in *.
    cbn -[levels]. split; [lia|]. split; apply levels_balanced; auto; cbn [lev]; lia.
  - unfold INT_MAX. lia.
  - destruct l as [|ll la ln lr]; [by apply mendable_balanced|]. destruct r as [|rl ra rn rr]; [by apply mendable_balanced|].
    destruct (fsteal_shrunk (T rl ra rn rr) ltac:(done) Br) as [Hs [b Hb]].
    unfold fdrop. destruct (fsteal (T rl ra rn rr)) as [r' sv]. cbn [fst snd] in *. subst sv.
    by apply (mendable_right _ _ _ (T rl ra rn rr)).
  - intros x. rewrite Hn. intros [?|?]%elem_of_app; [by apply nodes_elem_l|by apply nodes_elem_r].
Qed.

Lemma remove_sub_does fuel : forall s t v,
  repr (at_heap s) t -> in_order key (nodes t) -> balanced t -> (height t < fuel)%nat ->
  zlen (nodes t) <= at_count s <= INT_MAX ->
  does (remove_sub kcmp release_cb fuel (ptr t) v) s (nodes t) (fremove kcmp v t)
    (at_count s - zlen (taken v (nodes t))) (at_released s ++ freed (taken v (nodes t))).
Proof.
  induction fuel as [|fuel IH]; [lia|]. intros s t v R Ho B Hh Hc.
  destruct t as [|l a n r].
  { cbn. unfold freed. replace (if release_cb then [] else []) with (@nil positive) by (by destruct release_cb).
    rewrite app_nil_r, Z.sub_0_r. by apply (acts_ret _ _ _ E). }
  pose proof R as (_ & Rl & Rr). pose proof B as (_ & _ & Bl & Br).
  pose proof Ho as (Hol & Hor & _)%in_order_middle. cbn [height] in Hh.
  assert (Hz : zlen (nodes l) + (1 + zlen (nodes r)) = zlen (nodes (T l a n r))) by (cbn; by rewrite zlen_app, zlen_cons).
  pose proof (zlen_nonneg (nodes l)). pose proof (zlen_nonneg (nodes r)).
  cbn [remove_sub ptr fremove]. case_bool_decide as Hgt; [|case_bool_decide as Hlt].
  - destruct (apart_right v (nodes l) a (nodes r) Ho Hgt) as [_ Ht]. cbn [nodes]. rewrite Ht.
    apply (remove_right_does (fun r => remove_sub kcmp release_cb fuel r v)); auto; [lia|]. apply IH; auto; lia.
  - destruct (apart_left v (nodes l) a (nodes r) Ho Hlt) as [_ Ht]. cbn [nodes]. rewrite Ht.
    apply (remove_left_does (fun r => remove_sub kcmp release_cb fuel r v)); auto; [lia|]. apply IH; auto; lia.
  - destruct (apart_at v (nodes l) a (nodes r) Ho ltac:(lia)) as [_ Ht]. cbn [nodes]. rewrite Ht.
    apply remove_at_does; auto; lia.
Qed.

Lemma search_run fuel : forall s t v,
  repr (at_heap s) t -> (height t < fuel)%nat ->
  search_loop kcmp fuel (ptr t) v s = Ok (fsearch kcmp v t, s).
Proof.
  induction fuel as [|fuel IH]; [lia|]. intros s t v R Hh. destruct t as [|l a n r]; [done|].
  pose proof R as (_ & Rl & Rr). cbn [height] in Hh. cbn [search_loop ptr fsearch].
  repeat case_bool_decide; [erewrite SM_bind_eq by (by apply (node_run s (T l a n r))); apply IH; [done|cbn; lia]..|done].
Qed.

(** *** Walks *)

Fixpoint visit (walker : positive -> SM AATree unit) (l : list positive) : SM AATree unit :=
  match l with [] => mret tt | a :: l => walker a ≫= fun _ => visit walker l end.

Lemma visit_app walker l k s : visit walker (l ++ k) s = (visit walker l ≫= fun _ => visit walker k) s.
Proof.
  revert s. induction l as [|a l IH]; intros s; cbn; [done|]. rewrite SM_assoc. unfold mbind, SM_bind.
  by destruct (walker a s) as [[[] s1]| | |].
Qed.

Definition looks (walker : positive -> SM AATree unit) : Prop :=
  forall a s, exists s', walker a s = Ok (tt, s') /\ at_heap s' = at_heap s.

Lemma visit_looks walker l s : looks walker -> exists s', visit walker l s = Ok (tt, s') /\ at_heap s' = at_heap s.
Proof.
  intros Hw. revert s. induction l as [|a l IH]; intros s; [by exists s|]. cbn. destruct (Hw a s) as (s1 & E1 & H1).
  erewrite SM_bind_eq by exact E1. destruct (IH s1) as (s2 & E2 & H2). exists s2. split; [done|congruence].
Qed.

(** The nodes in the order of a walk. *)
Fixpoint bottom_up (t : tree) : list positive := match t with E => [] | T l a _ r => bottom_up l ++ bottom_up r ++ [a] end.
Fixpoint top_down (t : tree) : list positive := match t with E => [] | T l a _ r => a :: top_down l ++ top_down r end.

Definition order (wtype : AATreeWalkType) (t : tree) : list positive :=
  match wtype with AA_WALK_IN_ORDER => nodes t | AA_WALK_POST_ORDER => bottom_up t | AA_WALK_PRE_ORDER => top_down t end.

Lemma bottom_up_perm t : bottom_up t ≡ₚ nodes t.
Proof.
  induction t as [|l IHl a n r IHr]; [done|]. cbn. rewrite IHl, IHr. apply Permutation_app_head. symmetry.
  apply Permutation_cons_append.
Qed.

Lemma top_down_perm t : top_down t ≡ₚ nodes t.
Proof. induction t as [|l IHl a n r IHr]; [done|]. cbn. rewrite IHl, IHr. apply Permutation_middle. Qed.

(** A part of a walk, and what comes after it in an unchanged tree. *)
Lemma visit_then walker (m k : SM AATree unit) l l' s :
  looks walker -> m s = visit walker l s -> (forall s', at_heap s' = at_heap s -> k s' = visit walker l' s') ->
  (m ≫= fun _ => k) s = visit walker (l ++ l') s.
Proof.
  intros Hw Em Hk. rewrite visit_app. destruct (visit_looks walker l s Hw) as (s1 & E1 & H1).
  rewrite (SM_bind_eq (visit walker l) _ _ _ _ E1). rewrite <- Em in E1. rewrite (SM_bind_eq _ _ _ _ _ E1). by apply Hk.
Qed.

Lemma visit_one walker a s : walker a s = visit walker [a] s.
Proof. cbn. unfold mbind, SM_bind. by destruct (walker a s) as [[[] s1]| | |]. Qed.

Lemma walk_visits_nodes fuel walker wtype : looks walker -> forall s t, repr (at_heap s) t -> (height t < fuel)%nat ->
  walk_sub fuel (ptr t) wtype walker s = visit walker (order wtype t) s.
Proof.
  intros Hw. induction fuel as [|fuel IH]; [lia|]. intros s t R Hh. destruct t as [|l a n r]; [by destruct wtype|].
  pose proof R as (_ & Rl & Rr). cbn [height] in Hh.
  assert (Hl : forall s', at_heap s' = at_heap s -> walk_sub fuel (ptr l) wtype walker s' = visit walker (order wtype l) s')
    by (intros s' E'; apply IH; [by rewrite E'|lia]).
  assert (Hr : forall s', at_heap s' = at_heap s -> walk_sub fuel (ptr r) wtype walker s' = visit walker (order wtype r) s')
    by (intros s' E'; apply IH; [by rewrite E'|lia]).
  assert (Hn : forall s' (k : AANode -> SM AATree unit), at_heap s' = at_heap s ->
    (node (Some a) ≫= k) s' = k (mkAANode (ptr l) (ptr r) n) s').
  { intros s' k E'. erewrite SM_bind_eq by (apply (node_run s' (T l a n r)); by rewrite E'). done. }
  cbn [walk_sub ptr]. destruct wtype; cbn [order nodes bottom_up top_down] in *.
  - rewrite Hn by done. apply visit_then; [done|by apply Hl|]. intros s1 E1.
    apply (visit_then walker _ _ [a]); [done|apply visit_one|]. intros s2 E2. rewrite Hn by congruence. apply Hr. congruence.
  - apply (visit_then walker _ _ [a]); [done|apply visit_one|]. intros s1 E1. rewrite Hn by done.
    apply visit_then; [done|by apply Hl|]. intros s2 E2. rewrite Hn by congruence. apply Hr. congruence.
  - rewrite Hn by done. apply visit_then; [done|by apply Hl|]. intros s1 E1. rewrite Hn by done.
    apply visit_then; [done|by apply Hr|]. intros s2 E2. apply visit_one.
Qed.

(** Destroying: the walker frees each node after its children. *)
Lemma walk_release fuel : forall s t, repr (at_heap s) t -> NoDup (nodes t) -> (height t < fuel)%nat ->
  exists s', walk_sub fuel (ptr t) AA_WALK_POST_ORDER release s = Ok (tt, s') /\
    (forall a, a ∉ nodes t -> at_heap s' !! a = at_heap s !! a) /\ at_root s' = at_root s /\
    at_count s' = at_count s /\ at_released s' = at_released s ++ bottom_up t.
Proof.
  induction fuel as [|fuel IH]; [lia|]. intros s t R Hd Hh. destruct t as [|l a n r].
  { exists s. cbn. by rewrite app_nil_r. }
  pose proof R as (Ha & Rl & Rr). cbn [height nodes] in *. apply NoDup_middle in Hd as (Hal & Har & Hdl & Hdr & Hlr & Hrl).
  cbn [walk_sub ptr]. erewrite SM_bind_eq by (by apply (node_run s (T l a n r))). cbn [an_left lft].
  destruct (IH s l Rl Hdl ltac:(lia)) as (s1 & E1 & F1 & T1 & C1 & L1). erewrite SM_bind_eq by exact E1. cbv beta.
  erewrite SM_bind_eq by (cbn; rewrite F1, Ha by done; done). cbn [an_right rt].
  assert (R1 : repr (at_heap s1) r) by (eapply repr_frame; [|exact Rr]; auto).
  destruct (IH s1 r R1 Hdr ltac:(lia)) as (s2 & E2 & F2 & T2 & C2 & L2). erewrite SM_bind_eq by exact E2. cbv beta.
  eexists. split; [done|]. cbn. split_and!; try congruence.
  - intros x [Hx [Hxa Hxr]%not_elem_of_cons]%not_elem_of_app. rewrite lookup_delete_ne by done. by rewrite F2, F1.
  - rewrite L2, L1. by rewrite <- !app_assoc.
Qed.

(** ** The contract *)

(** The tree holds the nodes [L], in order. *)
Definition holds (s : AATree) (L : list positive) : Prop :=
  exists t, at_root s = ptr t /\ repr (at_heap s) t /\ balanced t /\ nodes t = L /\ in_order key L /\ at_count s = zlen L.

Lemma height_nodes t : (height t <= length (nodes t))%nat.
Proof. induction t; cbn; [done|]. rewrite length_app. cbn. lia. Qed.

Lemma fuel_enough s t : repr (at_heap s) t -> NoDup (nodes t) -> (height t < fuel_of s)%nat.
Proof.
  intros R Hd. pose proof (height_nodes t). unfold fuel_of. rewrite <- size_dom.
  assert (list_to_set (nodes t) ⊆ dom (at_heap s)) as Hsub.
  { intros a Ha%elem_of_list_to_set. apply elem_of_dom. by eapply repr_alloc. }
  apply subseteq_size in Hsub. rewrite size_list_to_set in Hsub by done. lia.
Qed.

Lemma aatree_insert_ok s L v x :
  holds s L -> zlen L < INT_MAX -> key x = v -> is_Some (at_heap s !! x) ->
  exists s', aatree_insert kcmp v x s = Ok (tt, s') /\ holds s' (sinsert key v x L) /\ at_released s' = at_released s /\
    forall a, a ∉ x :: L -> at_heap s' !! a = at_heap s !! a.
Proof.
  intros (t & Hp & R & B & <- & Ho & Hc) Hz Hk Hx. pose proof (zlen_nonneg (nodes t)). unfold aatree_insert. rewrite bind_getS, Hp.
  destruct (insert_sub_does (fuel_of s) s t v x R Ho B) as (s1 & E1 & R1 & F1 & T1 & C1 & L1); try done; try lia.
  { apply fuel_enough; [done|by eapply in_order_NoDup]. }
  erewrite SM_bind_eq by exact E1. eexists. split; [done|]. split; [|done].
  exists (finsert kcmp v x t). split_and!; cbn; auto.
  - by apply finsert_grown.
  - by apply nodes_finsert.
  - by apply sinsert_in_order.
  - rewrite C1. lia.
Qed.

Lemma taken_removed v l : zlen (taken v l) + zlen (sremove key v l) = zlen l.
Proof.
  unfold taken, sremove. induction l as [|b l IH]; [done|]. rewrite !filter_cons, zlen_cons.
  destruct (decide (kcmp v b = 0)), (decide (kcmp v b <> 0)); try done; rewrite ?zlen_cons; lia.
Qed.

Lemma aatree_remove_ok s L v :
  holds s L -> zlen L <= INT_MAX ->
  exists s', aatree_remove kcmp release_cb v s = Ok (tt, s') /\ holds s' (sremove key v L) /\
    at_released s' = at_released s ++ freed (taken v L) /\ forall a, a ∉ L -> at_heap s' !! a = at_heap s !! a.
Proof.
  intros (t & Hp & R & B & <- & Ho & Hc) Hz. unfold aatree_remove. rewrite bind_getS, Hp.
  destruct (remove_sub_does (fuel_of s) s t v R Ho B) as (s1 & E1 & R1 & F1 & T1 & C1 & L1); try lia.
  { apply fuel_enough; [done|by eapply in_order_NoDup]. }
  erewrite SM_bind_eq by exact E1. eexists. split; [done|]. split; [|done].
  exists (fremove kcmp v t). split_and!; cbn; auto.
  - by apply fremove_shrunk.
  - by apply nodes_fremove.
  - by apply sremove_in_order.
  - rewrite C1. pose proof (taken_removed v (nodes t)). lia.
Qed.

Lemma aatree_destroy_ok s L :
  holds s L -> release_cb = true ->
  exists s' P, aatree_destroy release_cb s = Ok (tt, s') /\ holds s' [] /\ at_released s' = at_released s ++ P /\ P ≡ₚ L.
Proof.
  intros (t & Hp & R & B & <- & Ho & Hc) ->. unfold aatree_destroy. rewrite bind_getS, Hp.
  pose proof (in_order_NoDup key _ Ho) as Hd.
  destruct (walk_release (fuel_of s) s t R Hd (fuel_enough s t R Hd)) as (s1 & E1 & F1 & T1 & C1 & L1).
  eexists _, (bottom_up t). erewrite SM_bind_eq by exact E1. split; [done|]. split_and!; [|done|apply bottom_up_perm].
  exists E. split_and!; try done. constructor.
Qed.

(** C19: an AA tree is the sorted list of its nodes.  Insertion, removal and
    destruction of a tree with fewer than 2^31 - 1 nodes return without writing
    to the constant NIL node, following a freed node or overflowing a level;
    insertion adds the node at its place, or nothing if the value is there;
    removal takes out and frees exactly the nodes with the value; destruction
    frees every node once; search finds the node with the value.  A walk with a
    callback that leaves the tree alone calls it once for every node, for an
    in-order walk in the order of the list. *)
Theorem aatree_implements_sorted_list s L :
  holds s L -> zlen L < INT_MAX ->
  (forall v x, key x = v -> is_Some (at_heap s !! x) ->
     exists s', aatree_insert kcmp v x s = Ok (tt, s') /\ holds s' (sinsert key v x L) /\
       at_released s' = at_released s /\ forall a, a ∉ x :: L -> at_heap s' !! a = at_heap s !! a) /\
  (forall v, exists s', aatree_remove kcmp release_cb v s = Ok (tt, s') /\ holds s' (sremove key v L) /\
     at_released s' = at_released s ++ freed (taken v L) /\ forall a, a ∉ L -> at_heap s' !! a = at_heap s !! a) /\
  (release_cb = true ->
     exists s' P, aatree_destroy release_cb s = Ok (tt, s') /\ holds s' [] /\ at_released s' = at_released s ++ P /\ P ≡ₚ L) /\
  (forall v, aatree_search kcmp v s = Ok (sfind key v L, s)) /\
  (forall walker wtype, looks walker -> exists P, aatree_walk wtype walker s = visit walker P s /\ P ≡ₚ L /\
     (wtype = AA_WALK_IN_ORDER -> P = L)).
Proof.
  intros H Hz. split_and!.
  - intros v x. by apply aatree_insert_ok.
  - intros v. apply aatree_remove_ok; [done|lia].
  - by apply aatree_destroy_ok.
  - intros v. destruct H as (t & Hp & R & B & <- & Ho & Hc). unfold aatree_search. rewrite bind_getS, Hp, search_run.
    + by rewrite fsearch_find.
    + done.
    + apply fuel_enough; [done|by eapply in_order_NoDup].
  - intros walker wtype Hw. destruct H as (t & Hp & R & B & <- & Ho & Hc). exists (order wtype t). unfold aatree_walk. rewrite bind_getS, Hp.
    split; [apply walk_visits_nodes; [done|done|]; apply fuel_enough; [done|by eapply in_order_NoDup]|].
    destruct wtype; cbn [order]; split; try done; [apply top_down_perm|apply bottom_up_perm].
Qed.

(** A search in a tree of n nodes ends after at most 2 log2 (n + 1)
    comparisons. *)
Theorem aatree_search_logarithmic s L v fuel :
  holds s L -> 2 * Z.log2 (zlen L + 1) < Z.of_nat fuel ->
  search_loop kcmp fuel (at_root s) v s = Ok (sfind key v L, s).
Proof.
  intros (t & -> & R & B & <- & Ho & Hc) Hf. pose proof (height_log t B). rewrite search_run by (done || lia).
  by rewrite fsearch_find.
Qed.
End Heap.

(** ** Names *)

(** strcmp of strings without their terminator, which sorts before any byte. *)
Fixpoint strcmp (s t : list Z) : Z :=
  match s, t with
  | [], [] => 0
  | [], _ :: _ => -1
  | _ :: _, [] => 1
  | x :: s, y :: t => if bool_decide (x = y) then strcmp s t else x - y
  end.

#[export] Program Instance strcmp_order : Ordered (list Z) := {| cmp := strcmp |}.
Next Obligation.
  intros s. induction s as [|x s IH]; intros [|y t]; cbn; try (split; intros; (done || lia)).
  case_bool_decide as H; [subst; rewrite IH; split; congruence|]. split; [lia|congruence].
Qed.
Next Obligation.
  intros s. induction s as [|x s IH]; intros [|y t]; cbn; try lia.
  case_bool_decide; [subst; rewrite bool_decide_eq_true_2 by done; apply IH|].
  rewrite bool_decide_eq_false_2 by done. lia.
Qed.
Next Obligation.
  intros s. induction s as [|x s IH]; intros [|y t] [|z u]; cbn; try lia.
  repeat case_bool_decide; subst; try lia; [apply IH|congruence..].
Qed.

(** credentials_node_cmp and global_user_node_cmp of src/objects.c: [name]
    gives the name of the user around a node. *)
Definition credentials_node_cmp (name : positive -> list Z) (userptr : list Z) (a : positive) : Z :=
  strcmp userptr (name a).

Module Example.
#[local] Open Scope positive_scope.

Definition toy_user (a : positive) : list Z := match a with 1 => str "bob" | 2 => str "alice" | _ => str "carol" end.
Definition toy_tree : AATree :=
  mkAATree (<[1 := mkAANode None None 7]> (<[2 := mkAANode None None 7]> ∅)) None 0 [].

Lemma toy_tree_holds : holds toy_user toy_tree [].
Proof. exists E. split_and!; try done. constructor. Qed.

Lemma aatree_implements_sorted_list_witness :
  exists s', aatree_insert (key_cmp toy_user) (str "bob") 1 toy_tree = Ok (tt, s') /\ holds toy_user s' [1].
Proof.
  destruct (proj1 (aatree_implements_sorted_list toy_user true toy_tree [] toy_tree_holds eq_refl) (str "bob") 1 eq_refl)
    as (s' & E1 & H1 & _); [by eexists|]. exists s'. split; [exact E1|exact H1].
Defined.

Lemma aatree_search_logarithmic_witness :
  search_loop (key_cmp toy_user) 1 (at_root toy_tree) (str "bob") toy_tree = Ok (None, toy_tree).
Proof. apply (aatree_search_logarithmic toy_user toy_tree [] (str "bob") 1 toy_tree_holds). done. Defined.
End Example.
