(* ===== verification/CBTree.v ===== *)
(** * Crit-bit trees (lib/usual/cbtree.c)

    The tree the pool of strings is kept in.  Its nodes are not shared, so a
    tree is a value here: an object, or a node with a bit position and two
    children.  [key] stands for the callback that gives the key of an object,
    a list of bytes; keys count as followed by zeros without end.

    The tree implements a finite map from keys to objects, and a walk visits
    the objects in the order of their keys. *)

From S2P Require Import Prelude.
From stdpp Require Import base option countable gmap list sorting.
#[local] Open Scope Z_scope.

Inductive Node :=
| External (obj : positive)
| Inner (bitpos : Z) (child0 child1 : Node).

Definition CBTree := option Node.

Definition SAME_KEY : Z := 2 ^ 64 - 1.
Definition MAX_KEY : Z := SAME_KEY / 8.

(** ** Bits of keys *)

Definition get_bit (bitpos : Z) (key : list Z) : bool :=
  let pos := bitpos / 8 in
  let bit := 7 - bitpos mod 8 in
  match key !! Z.to_nat pos with
  | Some c => negb (bool_decide (Z.land c (Z.shiftl 1 bit) = 0))
  | None => false
  end.

(** lib/usual/bits.h: position of the highest bit, from 1. *)
Definition fls (c : Z) : Z := if bool_decide (c = 0) then 0 else Z.log2 c + 1.

(** The code after the label found. *)
Definition found (i av bv : Z) : Z := i * 8 + (8 - fls (Z.lxor av bv)).

(** The loop over what one key has beyond the other. *)
Fixpoint crit_tail (pick : Z -> Z -> Z) (l : list Z) (i : Z) : Z :=
  match l with
  | [] => SAME_KEY
  | c :: l => if bool_decide (c <> 0) then pick i c else crit_tail pick l (i + 1)
  end.

Fixpoint crit_loop (a b : list Z) (i : Z) : Z :=
  match a, b with
  | av :: a, bv :: b => if bool_decide (av <> bv) then found i av bv else crit_loop a b (i + 1)
  | [], b => crit_tail (fun i bv => found i 0 bv) b i
  | a, [] => crit_tail (fun i av => found i av 0) a i
  end.

Definition find_crit_bit (a b : list Z) : Z := crit_loop a b 0.

Section Operations.
Context (key : positive -> list Z).

(** ** Lookup *)

Definition key_matches (obj : positive) (k : list Z) : bool := bool_decide (key obj = k).

Fixpoint raw_lookup (node : Node) (k : list Z) : positive :=
  match node with
  | External obj => obj
  | Inner bitpos child0 child1 => if get_bit bitpos k then raw_lookup child1 k else raw_lookup child0 k
  end.

Definition cbtree_lookup (tree : CBTree) (k : list Z) : option positive :=
  match tree with
  | None => None
  | Some root => let obj := raw_lookup root k in if key_matches obj k then Some obj else None
  end.

(** ** Insertion; [mem]: does the allocation of a node succeed? *)

Definition new_node (bit : bool) (newbit : Z) (obj : positive) (old : Node) : Node :=
  if bit then Inner newbit old (External obj) else Inner newbit (External obj) old.

Fixpoint insert_at (node : Node) (newbit : Z) (k : list Z) (obj : positive) : Node :=
  match node with
  | Inner bitpos child0 child1 =>
      if bool_decide (bitpos < newbit) then
        if get_bit bitpos k then Inner bitpos child0 (insert_at child1 newbit k obj)
        else Inner bitpos (insert_at child0 newbit k obj) child1
      else new_node (get_bit newbit k) newbit obj node
  | External _ => new_node (get_bit newbit k) newbit obj node
  end.

Definition cbtree_insert (mem : bool) (tree : CBTree) (obj : positive) : bool * CBTree :=
  match tree with
  | None => (true, Some (External obj))
  | Some root =>
      let k := key obj in
      if bool_decide (zlen k > MAX_KEY) then (false, tree)
      else
        let newbit := find_crit_bit k (key (raw_lookup root k)) in
        if bool_decide (newbit = SAME_KEY) then (false, tree)
        else if mem then (true, Some (insert_at root newbit k obj)) else (false, tree)
  end.

(** ** Deletion *)

(** Without the object the key leads to: its node is replaced by its other
    child; None when there is no node above it. *)
Fixpoint drop (node : Node) (k : list Z) : option Node :=
  match node with
  | External _ => None
  | Inner bitpos child0 child1 =>
      if get_bit bitpos k then
        Some (match drop child1 k with Some c => Inner bitpos child0 c | None => child0 end)
      else
        Some (match drop child0 k with Some c => Inner bitpos c child1 | None => child1 end)
  end.

(** The answer, the tree, and the object handed to obj_free_cb if there is
    such a callback. *)
Definition cbtree_delete (tree : CBTree) (k : list Z) : bool * CBTree * option positive :=
  match tree with
  | None => (false, None, None)
  | Some root =>
      let obj := raw_lookup root k in
      if key_matches obj k then (true, drop root k, Some obj) else (false, tree, None)
  end.

(** ** Walking; the callback has a state. *)

Fixpoint walk {S} (cb_func : positive -> S -> bool * S) (node : Node) (s : S) : bool * S :=
  match node with
  | External obj => cb_func obj s
  | Inner _ child0 child1 =>
      let '(ok, s) := walk cb_func child0 s in
      if ok then walk cb_func child1 s else (false, s)
  end.

Definition cbtree_walk {S} (cb_func : positive -> S -> bool * S) (tree : CBTree) (s : S) : bool * S :=
  match tree with None => (true, s) | Some root => walk cb_func root s end.

(** The objects handed to obj_free_cb, in order. *)
Fixpoint destroy_node (node : Node) : list positive :=
  match node with
  | External obj => [obj]
  | Inner _ child0 child1 => destroy_node child0 ++ destroy_node child1
  end.

Definition cbtree_destroy (tree : CBTree) : list positive :=
  match tree with None => [] | Some root => destroy_node root end.
End Operations.

(** ** Facts about bits *)

Lemma land_bit c k : 0 <= k -> negb (bool_decide (Z.land c (Z.shiftl 1 k) = 0)) = Z.testbit c k.
Proof.
  intros Hk. rewrite Z.shiftl_1_l. destruct (Z.testbit c k) eqn:E.
  - rewrite bool_decide_eq_false_2; [done|]. intros H0. apply (f_equal (fun z => Z.testbit z k)) in H0.
    rewrite Z.land_spec, Z.pow2_bits_true, E, Z.bits_0 in H0 by done. done.
  - rewrite bool_decide_eq_true_2; [done|]. apply Z.bits_inj'. intros j Hj. rewrite Z.land_spec, Z.bits_0.
    destruct (decide (j = k)) as [->|Hne]; [by rewrite E|]. rewrite Z.pow2_bits_false by done. apply andb_false_r.
Qed.

(** Bit [i] of a key, as a bit of a byte. *)
Lemma get_bit_byte i j key c :
  key !! i = Some c -> 0 <= j < 8 -> get_bit (Z.of_nat i * 8 + j) key = Z.testbit c (7 - j).
Proof.
  intros E Hj. unfold get_bit. rewrite Z.div_add_l, Z.div_small, Z.add_0_r, Nat2Z.id, E by lia.
  rewrite Z.add_comm, Z.mod_add, Z.mod_small by lia. apply land_bit. lia.
Qed.

Lemma get_bit_end i j key : key !! i = None -> 0 <= j < 8 -> get_bit (Z.of_nat i * 8 + j) key = false.
Proof. intros E Hj. unfold get_bit. by rewrite Z.div_add_l, Z.div_small, Z.add_0_r, Nat2Z.id, E by lia. Qed.

(** The first bit in which two bytes differ. *)
Lemma found_bit x y :
  0 <= x < 256 -> 0 <= y < 256 -> x <> y ->
  let p := 8 - fls (Z.lxor x y) in
  0 <= p < 8 /\ Z.testbit x (7 - p) <> Z.testbit y (7 - p) /\
  forall j, 0 <= j < p -> Z.testbit x (7 - j) = Z.testbit y (7 - j).
Proof.
  intros Hx Hy Hne p. assert (Hz : Z.lxor x y <> 0) by (by rewrite Z.lxor_eq_0_iff).
  assert (H0 : 0 <= Z.lxor x y) by (apply Z.lxor_nonneg; lia).
  assert (Hl : Z.log2 (Z.lxor x y) < 8).
  { pose proof (Z.log2_lxor x y). pose proof (Z.log2_le_mono x 255). pose proof (Z.log2_le_mono y 255).
    change (Z.log2 255) with 7 in *. lia. }
  pose proof (Z.log2_nonneg (Z.lxor x y)). unfold p, fls. rewrite bool_decide_eq_false_2 by done. split; [lia|]. split.
  - replace (7 - (8 - (Z.log2 (Z.lxor x y) + 1))) with (Z.log2 (Z.lxor x y)) by lia. intros Hb.
    pose proof (Z.bit_log2 (Z.lxor x y)) as Ht. rewrite Z.lxor_spec, Hb, xorb_nilpotent in Ht. discriminate Ht. lia.
  - intros j Hj. apply xorb_eq. rewrite <- Z.lxor_spec. apply Z.bits_above_log2; lia.
Qed.

(** Byte [i] of a key that goes on with zeros. *)
Definition byte (k : list Z) (i : nat) : Z := default 0 (k !! i).

Lemma get_bit_split i : 0 <= i -> exists q j, i = Z.of_nat q * 8 + j /\ 0 <= j < 8.
Proof. intros Hi. exists (Z.to_nat (i / 8)), (i mod 8). pose proof (Z.div_mod i 8). pose proof (Z.mod_pos_bound i 8). lia. Qed.

Lemma get_bit_at k q j : 0 <= j < 8 -> get_bit (Z.of_nat q * 8 + j) k = Z.testbit (byte k q) (7 - j).
Proof.
  intros Hj. unfold byte. destruct (k !! q) as [c|] eqn:E; cbn; [by apply get_bit_byte|].
  by rewrite get_bit_end, Z.bits_0.
Qed.

Lemma byte_range k q : Forall is_u8 k -> 0 <= byte k q < 256.
Proof. intros Hk. unfold byte. destruct (k !! q) eqn:E; cbn; [|lia]. rewrite Forall_lookup in Hk. exact (Hk q _ E). Qed.

Lemma same_bits_bytes a b :
  Forall is_u8 a -> Forall is_u8 b ->
  (forall i, 0 <= i -> get_bit i a = get_bit i b) -> forall q, byte a q = byte b q.
Proof.
  intros Ha Hb Hall q. apply Z.bits_inj'. intros n Hn.
  pose proof (byte_range a q Ha). pose proof (byte_range b q Hb). destruct (decide (n < 8)).
  - replace n with (7 - (7 - n)) by lia. rewrite <- !get_bit_at by lia. apply Hall. lia.
  - assert (Hlog : forall x, 0 <= x < 256 -> Z.testbit x n = false).
    { intros x Hx. destruct (decide (x = 0)) as [->|]; [apply Z.bits_0|]. apply Z.bits_above_log2; [lia|].
      pose proof (Z.log2_le_mono x 255). change (Z.log2 255) with 7 in *. lia. }
    by rewrite !Hlog.
Qed.

(** The place where two keys part. *)
Definition parts_at (a b : list Z) (q : nat) : Prop :=
  byte a q <> byte b q /\ (forall q', (q' < q)%nat -> byte a q' = byte b q') /\ (q < Nat.max (length a) (length b))%nat.

Lemma crit_tail_bytes pick l : forall i,
  (crit_tail pick l i = SAME_KEY /\ forall q, byte l q = 0) \/
  (exists q, crit_tail pick l i = pick (i + Z.of_nat q) (byte l q) /\ parts_at l [] q).
Proof.
  induction l as [|c l IH]; intros i; cbn; [by left|]. case_bool_decide as Hc.
  - right. exists 0%nat. split; [by rewrite Z.add_0_r|]. split_and!; [done|lia|cbn; lia].
  - assert (c = 0) as -> by lia. destruct (IH (i + 1)) as [[E H0]|(q & E & Hd & Hs & Hl)].
    + left. split; [done|]. intros [|q]; [done|]. apply H0.
    + right. exists (S q). split; [rewrite E; f_equal; lia|]. split_and!; [done| |cbn in *; lia].
      intros [|q'] Hq; [done|]. apply (Hs q'). lia.
Qed.

Lemma crit_loop_bytes a : forall b i,
  (crit_loop a b i = SAME_KEY /\ forall q, byte a q = byte b q) \/
  (exists q, crit_loop a b i = found (i + Z.of_nat q) (byte a q) (byte b q) /\ parts_at a b q).
Proof.
  induction a as [|av a IH]; intros b i.
  - destruct (crit_tail_bytes (fun i bv => found i 0 bv) b i) as [[E H0]|(q & E & Hd & Hs & Hl)].
    + left. by destruct b.
    + right. exists q. split; [by destruct b|]. split_and!; [by intros ?; apply Hd| |cbn in *; lia]. intros q' Hq. symmetry. by apply (Hs q').
  - destruct b as [|bv b].
    + apply (crit_tail_bytes (fun i av => found i av 0) (av :: a) i).
    + cbn [crit_loop]. case_bool_decide as Hne.
      * right. exists 0%nat. rewrite Z.add_0_r. split; [done|]. split_and!; [done|lia|cbn; lia].
      * assert (av = bv) as -> by (by destruct (decide (av = bv))). destruct (IH b (i + 1)) as [[E H0]|(q & E & Hd & Hs & Hl)].
        -- left. split; [done|]. intros [|q]; [done|]. apply H0.
        -- right. exists (S q). split; [rewrite E; cbn; f_equal; lia|]. split_and!; [done| |cbn in *; lia].
           intros [|q'] Hq; [done|]. apply (Hs q'). lia.
Qed.

(** Equal keys, or the first bit in which they differ. *)
Lemma find_crit_bit_spec a b :
  Forall is_u8 a -> Forall is_u8 b ->
  let r := find_crit_bit a b in
  (r = SAME_KEY /\ forall q, byte a q = byte b q) \/
  (0 <= r < 8 * Z.max (zlen a) (zlen b) /\ get_bit r a <> get_bit r b /\ forall i, 0 <= i < r -> get_bit i a = get_bit i b).
Proof.
  intros Ha Hb. unfold find_crit_bit. destruct (crit_loop_bytes a b 0) as [?|(q & E & Hd & Hs & Hl)]; [by left|]. right.
  rewrite E. unfold found. rewrite Z.add_0_l.
  destruct (found_bit (byte a q) (byte b q)) as (Hp & Hne & Heq); [by apply byte_range..|done|].
  set (p := 8 - fls (Z.lxor (byte a q) (byte b q))) in *. split; [unfold zlen; lia|]. split; [by rewrite !get_bit_at|].
  intros i Hi. destruct (get_bit_split i) as (q' & j & -> & Hj); [lia|]. rewrite !get_bit_at by done.
  destruct (decide (q' = q)) as [->|]; [apply Heq; lia|]. rewrite Hs; [done|lia].
Qed.

(** Keys without a NUL are told apart by their bytes. *)
Lemma bytes_inj a b : 0 ∉ a -> 0 ∉ b -> (forall q, byte a q = byte b q) -> a = b.
Proof.
  intros Ha Hb Hall. apply list_eq. intros i. specialize (Hall i). unfold byte in Hall.
  destruct (a !! i) as [x|] eqn:Ex, (b !! i) as [y|] eqn:Ey; cbn in Hall; subst; try done.
  - apply list_elem_of_lookup_2 in Ex. done.
  - apply list_elem_of_lookup_2 in Ey. done.
Qed.

(** ** The invariant *)

Section Trees.
Context (key : positive -> list Z).
Implicit Types (t : Node) (o : positive) (k : list Z).
#[local] Abbreviation elems := destroy_node.
#[local] Abbreviation bit o i := (get_bit i (key o)).

Definition alike (b : Z) (L : list positive) : Prop :=
  forall o o', o ∈ L -> o' ∈ L -> forall i, 0 <= i < b -> bit o i = bit o' i.

(** The bit of a node tells its children apart; before it they are alike. *)
Fixpoint wf (lo : Z) t : Prop :=
  match t with
  | External _ => True
  | Inner b l r =>
      lo <= b /\ wf (b + 1) l /\ wf (b + 1) r /\
      Forall (fun o => bit o b = false) (elems l) /\ Forall (fun o => bit o b = true) (elems r) /\ alike b (elems l ++ elems r)
  end.

Lemma wf_mono lo lo' t : lo' <= lo -> wf lo t -> wf lo' t.
Proof. destruct t; cbn; [done|]. intros ? (? & ?). split; [lia|done]. Qed.

Lemma alike_sub b L L' : (forall o, o ∈ L' -> o ∈ L) -> alike b L -> alike b L'.
Proof. intros Hs Ha o o' Ho Ho'. apply Ha; auto. Qed.

Lemma raw_elem t k : raw_lookup t k ∈ elems t.
Proof.
  induction t as [o|b l IHl r IHr]; cbn; [by left|]. apply elem_of_app. destruct (get_bit b k); auto.
Qed.

(** Only the object a key leads to can have that key. *)
Lemma raw_hit t k : forall lo o,
  wf lo t -> 0 <= lo -> o ∈ elems t -> (forall i, 0 <= i -> get_bit i k = bit o i) -> raw_lookup t k = o.
Proof.
  induction t as [o'|b l IHl r IHr]; intros lo o Hw Hlo Ho Hk; cbn in *; [by apply list_elem_of_singleton in Ho|].
  destruct Hw as (Hb & Hl & Hr & H0 & H1 & _). rewrite Hk by lia. rewrite Forall_forall in H0, H1.
  apply elem_of_app in Ho as [Ho|Ho]; [rewrite (H0 o Ho); eapply IHl|rewrite (H1 o Ho); eapply IHr]; eauto; lia.
Qed.

(** The bit a node looks at is the key's in all that the key can lead to. *)
Lemma raw_bit k lo b l r : wf lo (Inner b l r) -> bit (raw_lookup (Inner b l r) k) b = get_bit b k.
Proof.
  intros (_ & _ & _ & H0 & H1 & _). rewrite Forall_forall in H0, H1. cbn.
  destruct (get_bit b k); [apply H1|apply H0]; apply raw_elem.
Qed.

(** *** Insertion *)

Lemma new_node_elems c nb obj t : elems (new_node c nb obj t) ≡ₚ obj :: elems t.
Proof. unfold new_node. destruct c; cbn; [|done]. by rewrite Permutation_app_comm. Qed.

(** All of [t] differs from the new object first in bit [nb]. *)
Lemma new_node_wf lo nb obj t :
  lo <= nb -> wf (nb + 1) t ->
  (forall o, o ∈ elems t -> bit o nb = negb (bit obj nb) /\ forall i, 0 <= i < nb -> bit obj i = bit o i) ->
  wf lo (new_node (bit obj nb) nb obj t).
Proof.
  intros Hlo Hw Ht.
  assert (Hal : alike nb (obj :: elems t)).
  { intros o o' Ho Ho' i Hi. apply elem_of_cons in Ho as [->|Ho], Ho' as [->|Ho']; [done|by apply Ht|symmetry; by apply Ht|].
    transitivity (bit obj i); [symmetry|]; by apply Ht. }
  unfold new_node. destruct (bit obj nb) eqn:Eb; cbn; split_and!; auto.
  - apply Forall_forall. intros o Ho. by apply Ht.
  - apply (alike_sub nb (obj :: elems t)); [|done]. intros o. rewrite elem_of_app, !elem_of_cons, elem_of_nil. tauto.
  - apply Forall_forall. intros o Ho. by apply Ht.
Qed.

Lemma insert_at_ok t nb obj : forall lo,
  let k := key obj in
  wf lo t -> 0 <= lo -> lo <= nb -> bit obj nb <> bit (raw_lookup t k) nb ->
  (forall i, 0 <= i < nb -> bit obj i = bit (raw_lookup t k) i) ->
  wf lo (insert_at t nb k obj) /\ elems (insert_at t nb k obj) ≡ₚ obj :: elems t.
Proof.
  induction t as [o|b l IHl r IHr]; intros lo k Hw Hlo Hnb Hd Heq.
  - cbn in *. split; [|apply new_node_elems]. apply new_node_wf; [done|done|]. intros o' ->%list_elem_of_singleton. split; [|done].
    by destruct (bit obj nb), (bit o nb).
  - pose proof (raw_elem (Inner b l r) k) as Hraw. pose proof (raw_bit k lo b l r Hw) as Hbit.
    pose proof Hw as (Hb & Hl & Hr & H0 & H1 & Hal). cbn [insert_at]. case_bool_decide as Hlt.
    + assert (Hobj : forall o, o ∈ elems l ++ elems r -> forall i, 0 <= i < b -> bit obj i = bit o i).
      { intros o Ho i Hi. rewrite Heq by lia. apply Hal; [done|done|lia]. }
      assert (Hal' : alike b (obj :: elems l ++ elems r)).
      { intros o o' Ho Ho' i Hi. apply elem_of_cons in Ho as [->|Ho], Ho' as [->|Ho']; auto. symmetry. auto. }
      cbn in Hd, Heq. fold k in Hbit. destruct (get_bit b k) eqn:Ek.
      * destruct (IHr (b + 1)) as [Hw' Hp]; auto; try lia. fold k in Hw', Hp. split; [cbn; split_and!; auto|].
        -- by rewrite Hp, Forall_cons.
        -- eapply alike_sub; [|exact Hal']. intros o. rewrite Hp, !elem_of_app, !elem_of_cons, elem_of_app. tauto.
        -- cbn. rewrite Hp. by rewrite <- Permutation_middle.
      * destruct (IHl (b + 1)) as [Hw' Hp]; auto; try lia. fold k in Hw', Hp. split; [cbn; split_and!; auto|].
        -- by rewrite Hp, Forall_cons.
        -- eapply alike_sub; [|exact Hal']. intros o. rewrite elem_of_app, Hp, !elem_of_cons, elem_of_app. tauto.
        -- cbn. by rewrite Hp.
    + split; [|apply new_node_elems]. assert (b <> nb) by (intros ->; by rewrite Hbit in Hd).
      apply new_node_wf; [done| |].
      * cbn. split_and!; auto. lia.
      * intros o Ho. assert (Hsame : forall i, 0 <= i < b -> bit o i = bit (raw_lookup (Inner b l r) k) i) by (apply Hal; done).
        split; [|intros i Hi; rewrite Heq by done; symmetry; apply Hsame; lia].
        rewrite Hsame by lia. by destruct (bit obj nb), (bit (raw_lookup (Inner b l r) k) nb).
Qed.

(** *** Deletion *)

Lemma drop_ok t k : forall lo, wf lo t ->
  match drop t k with
  | None => elems t = [raw_lookup t k]
  | Some t' => wf lo t' /\ elems t ≡ₚ raw_lookup t k :: elems t'
  end.
Proof.
  induction t as [o|b l IHl r IHr]; intros lo Hw; [done|]. cbn. destruct Hw as (Hb & Hl & Hr & H0 & H1 & Hal).
  destruct (get_bit b k).
  - specialize (IHr (b + 1) Hr). destruct (drop r k) as [r'|].
    + destruct IHr as [Hw' Hp]. split; [cbn; split_and!; auto|].
      * rewrite Hp in H1. by apply Forall_cons in H1 as [_ ?].
      * eapply alike_sub; [|exact Hal]. intros o. rewrite !elem_of_app, Hp, elem_of_cons. tauto.
      * rewrite Hp. cbn. by rewrite <- Permutation_middle.
    + split; [eapply wf_mono; [|done]; lia|]. rewrite IHr. by rewrite Permutation_app_comm.
  - specialize (IHl (b + 1) Hl). destruct (drop l k) as [l'|].
    + destruct IHl as [Hw' Hp]. split; [cbn; split_and!; auto|].
      * rewrite Hp in H0. by apply Forall_cons in H0 as [_ ?].
      * eapply alike_sub; [|exact Hal]. intros o. rewrite !elem_of_app, Hp, elem_of_cons. tauto.
      * rewrite Hp. done.
    + split; [eapply wf_mono; [|done]; lia|]. by rewrite IHl.
Qed.

(** *** Order *)

(** The order of the keys as texts. *)
Definition key_lt (k k' : list Z) : Prop :=
  exists q, byte k q < byte k' q /\ forall q', (q' < q)%nat -> byte k q' = byte k' q'.

(** The first bit in which two bytes differ decides. *)
Lemma first_bit_lt x y n :
  0 <= n -> Z.testbit x n = false -> Z.testbit y n = true -> (forall m, n < m -> Z.testbit x m = Z.testbit y m) -> x < y.
Proof.
  intros Hn Hx Hy Hhi.
  assert (Hs : Z.shiftr x (n + 1) = Z.shiftr y (n + 1)).
  { apply Z.bits_inj'. intros m Hm. rewrite !Z.shiftr_spec by done. apply Hhi. lia. }
  assert (Hsplit : forall z, Z.shiftr z n = 2 * Z.shiftr z (n + 1) + Z.b2z (Z.testbit z n)).
  { intros z. rewrite <- (Z.shiftr_shiftr z n 1) by lia. rewrite <- Z.div2_spec. pose proof (Z.div2_odd (Z.shiftr z n)) as Ho.
    rewrite <- Z.bit0_odd, Z.shiftr_spec, Z.add_0_l in Ho by lia. exact Ho. }
  destruct (decide (x < y)) as [|Hge]; [done|]. exfalso.
  assert (Hle : Z.shiftr y n <= Z.shiftr x n) by (rewrite !Z.shiftr_div_pow2 by done; apply Z.div_le_mono; lia).
  rewrite !Hsplit, Hs, Hx, Hy in Hle. cbn in Hle. lia.
Qed.

Lemma bits_lt k k' i :
  Forall is_u8 k -> Forall is_u8 k' -> 0 <= i -> get_bit i k = false -> get_bit i k' = true ->
  (forall j, 0 <= j < i -> get_bit j k = get_bit j k') -> key_lt k k'.
Proof.
  intros Hk Hk' Hi H0 H1 Heq. destruct (get_bit_split i Hi) as (q & j & -> & Hj). rewrite get_bit_at in H0, H1 by done.
  assert (Hpre : forall q' j', 0 <= j' < 8 -> Z.of_nat q' * 8 + j' < Z.of_nat q * 8 + j ->
    Z.testbit (byte k q') (7 - j') = Z.testbit (byte k' q') (7 - j')).
  { intros q' j' Hj' Hlt. rewrite <- !get_bit_at by done. apply Heq. lia. }
  assert (Hhigh : forall x m, 0 <= x < 256 -> 8 <= m -> Z.testbit x m = false).
  { intros x m Hx Hm. destruct (decide (x = 0)) as [->|]; [apply Z.bits_0|]. apply Z.bits_above_log2; [lia|].
    pose proof (Z.log2_le_mono x 255). change (Z.log2 255) with 7 in *. lia. }
  pose proof (byte_range k) as Rk. pose proof (byte_range k') as Rk'. exists q. split.
  - apply (first_bit_lt _ _ (7 - j)); [lia|done|done|]. intros m Hm. destruct (decide (m < 8)).
    + replace m with (7 - (7 - m)) by lia. apply Hpre; lia.
    + rewrite !Hhigh; auto; lia.
  - intros q' Hq'. apply Z.bits_inj'. intros m Hm. destruct (decide (m < 8)).
    + replace m with (7 - (7 - m)) by lia. apply Hpre; lia.
    + rewrite !Hhigh; auto; lia.
Qed.

Lemma StronglySorted_app_2 {A} (R : A -> A -> Prop) l l' :
  StronglySorted R l -> StronglySorted R l' -> (forall x y, x ∈ l -> y ∈ l' -> R x y) -> StronglySorted R (l ++ l').
Proof.
  induction 1 as [|x l Hs IH Hx]; intros Hs' Hall; [done|]. cbn. constructor.
  - apply IH; [done|]. intros; apply Hall; [by right|done].
  - apply Forall_app. split; [done|]. apply Forall_forall. intros y Hy. apply Hall; [by left|done].
Qed.

Lemma elems_sorted t : forall lo,
  wf lo t -> 0 <= lo -> (forall o, o ∈ elems t -> Forall is_u8 (key o)) -> StronglySorted key_lt (key <$> elems t).
Proof.
  induction t as [o|b l IHl r IHr]; intros lo Hw Hlo Hu; cbn; [repeat constructor|].
  destruct Hw as (Hb & Hl & Hr & H0 & H1 & Hal). cbn in Hu. rewrite fmap_app. apply StronglySorted_app_2.
  - eapply IHl; [done|lia|]. intros; apply Hu, elem_of_app; auto.
  - eapply IHr; [done|lia|]. intros; apply Hu, elem_of_app; auto.
  - intros x y (o & -> & Ho)%list_elem_of_fmap (o' & -> & Ho')%list_elem_of_fmap. rewrite Forall_forall in H0, H1.
    apply (bits_lt _ _ b); [apply Hu, elem_of_app; auto..|lia|by apply H0|by apply H1|]. apply Hal; apply elem_of_app; auto.
Qed.
End Trees.

(** ** A finite map *)

Definition good_key (k : list Z) : Prop := (0 ∉ k) /\ Forall is_u8 k /\ zlen k <= MAX_KEY.

Inductive cbop :=
| CLookup (k : list Z)
| CInsert (obj : positive) (mem : bool)
| CDelete (k : list Z).

Inductive cbres := RObj (o : option positive) | RInserted (b : bool) | RDeleted (b : bool) (freed : option positive).

Section Refinement.
Context (key : positive -> list Z).
Implicit Types (t : CBTree) (M : gmap (list Z) positive).

Definition tree_step (op : cbop) t : cbres * CBTree :=
  match op with
  | CLookup k => (RObj (cbtree_lookup key t k), t)
  | CInsert obj mem => let '(b, t) := cbtree_insert key mem t obj in (RInserted b, t)
  | CDelete k => let '(b, t, o) := cbtree_delete key t k in (RDeleted b o, t)
  end.

(** A key that is there is not inserted again; the first object needs no
    node. *)
Definition map_step (op : cbop) M : cbres * gmap (list Z) positive :=
  match op with
  | CLookup k => (RObj (M !! k), M)
  | CInsert obj mem =>
      if bool_decide (M !! key obj = None) && (mem || bool_decide (M = ∅)) then (RInserted true, <[key obj := obj]> M)
      else (RInserted false, M)
  | CDelete k => (RDeleted (bool_decide (is_Some (M !! k))) (M !! k), delete k M)
  end.

Fixpoint tree_run (ops : list cbop) t : list cbres * CBTree :=
  match ops with
  | [] => ([], t)
  | op :: ops => let '(r, t) := tree_step op t in let '(rs, t) := tree_run ops t in (r :: rs, t)
  end.

Fixpoint map_run (ops : list cbop) M : list cbres * gmap (list Z) positive :=
  match ops with
  | [] => ([], M)
  | op :: ops => let '(r, M) := map_step op M in let '(rs, M) := map_run ops M in (r :: rs, M)
  end.

Definition op_ok (op : cbop) : Prop :=
  match op with CLookup k | CDelete k => good_key k | CInsert obj _ => good_key (key obj) end.

Fixpoint walk_list {S} (cb : positive -> S -> bool * S) (L : list positive) (s : S) : bool * S :=
  match L with
  | [] => (true, s)
  | o :: L => let '(ok, s) := cb o s in if ok then walk_list cb L s else (false, s)
  end.

Definition implements t M : Prop :=
  match t with Some n => wf key 0 n | None => True end /\
  (forall k o, M !! k = Some o <-> o ∈ cbtree_destroy t /\ key o = k) /\
  (forall o, o ∈ cbtree_destroy t -> good_key (key o)).

Lemma same_bits k k' : k = k' -> forall i, 0 <= i -> get_bit i k = get_bit i k'.
Proof. by intros ->. Qed.

Lemma lookup_ok t M k : implements t M -> cbtree_lookup key t k = M !! k.
Proof.
  intros (Hw & HM & _). destruct t as [n|]; cbn in *.
  - unfold key_matches. case_bool_decide as E.
    + symmetry. apply HM. split; [apply raw_elem|done].
    + symmetry. apply eq_None_not_Some. intros [o [Ho Hk]%HM]. apply E.
      rewrite (raw_hit key n k 0 o); auto; [lia|]. by apply same_bits.
  - symmetry. apply eq_None_not_Some. by intros [o [?%not_elem_of_nil _]%HM].
Qed.

Lemma empty_ok t M : implements t M -> M = ∅ <-> t = None.
Proof.
  intros (_ & HM & _). split.
  - intros ->. destruct t as [n|]; [|done].
    assert (E : (∅ : gmap (list Z) positive) !! key (raw_lookup n []) = Some (raw_lookup n [])) by (apply HM; split; [apply raw_elem|done]).
    by rewrite lookup_empty in E.
  - intros ->. apply map_eq. intros k. rewrite lookup_empty. apply eq_None_not_Some. by intros [o [?%not_elem_of_nil _]%HM].
Qed.

Lemma implements_insert t t' M obj :
  implements t M -> match t' with Some n => wf key 0 n | None => True end -> good_key (key obj) -> M !! key obj = None ->
  cbtree_destroy t' ≡ₚ obj :: cbtree_destroy t -> implements t' (<[key obj := obj]> M).
Proof.
  intros (_ & HM & Hg) Hw Hk Hn Hp. split; [done|]. split.
  - intros k o. rewrite Hp, elem_of_cons, lookup_insert. case_decide as E; [|rewrite HM; naive_solver].
    subst k. split; [intros [= ->]; auto|]. intros [[->|Ho] Ek]; [done|]. exfalso.
    assert (M !! key obj = Some o) by (apply HM; auto). congruence.
  - intros o. rewrite Hp, elem_of_cons. intros [->|Ho]; auto.
Qed.

Lemma insert_ok t M obj mem :
  implements t M -> good_key (key obj) ->
  exists t', tree_step (CInsert obj mem) t = ((map_step (CInsert obj mem) M).1, t') /\ implements t' (map_step (CInsert obj mem) M).2.
Proof.
  intros HI Hk. pose proof (empty_ok t M HI) as He. cbn [tree_step map_step]. destruct t as [n|]; cbn [cbtree_insert].
  2: { destruct He as [_ He]. specialize (He eq_refl) as ->. rewrite lookup_empty, !bool_decide_eq_true_2, orb_true_r by done. cbn.
       eexists. split; [done|]. by apply (implements_insert None). }
  assert (Hne : bool_decide (M = ∅) = false) by (apply bool_decide_eq_false; intros [=]%He). rewrite Hne, orb_false_r.
  pose proof HI as (Hw & HM & Hg). set (k := key obj). set (o := raw_lookup n k).
  assert (Ho : o ∈ destroy_node n) by apply raw_elem. destruct (Hg o Ho) as (Ho0 & Hou & Hol). destruct Hk as (Hk0 & Hku & Hkl).
  rewrite bool_decide_eq_false_2 by (fold k in Hkl; lia).
  destruct (find_crit_bit_spec k (key o)) as [[E Hb]|(Hr & Hd & Heq)]; auto.
  - rewrite (bool_decide_eq_true_2 _ E). assert (Ek : k = key o) by (by apply bytes_inj).
    assert (HMk : M !! k = Some o) by (apply HM; auto). rewrite HMk. cbn. by eexists.
  - assert (find_crit_bit k (key o) < SAME_KEY) by (assert (8 * MAX_KEY <= SAME_KEY) by done; fold k in Hkl; lia).
    rewrite (bool_decide_eq_false_2 (_ = SAME_KEY)) by lia.
    assert (HMk : M !! k = None).
    { apply eq_None_not_Some. intros [o' [Ho' Ek]%HM]. apply Hd. unfold o. rewrite (raw_hit key n k 0 o'); auto; [by rewrite Ek|lia|].
      by apply same_bits. }
    rewrite (bool_decide_eq_true_2 _ HMk). cbn [andb]. destruct mem; [|by eexists]. eexists. split; [done|].
    destruct (insert_at_ok key n (find_crit_bit k (key o)) obj 0) as [Hw' Hp]; auto; try lia.
    by apply (implements_insert (Some n)).
Qed.

Lemma elems_nodup n : wf key 0 n -> (forall o, o ∈ destroy_node n -> good_key (key o)) -> NoDup (key <$> destroy_node n).
Proof.
  intros Hw Hg. assert (Hs : StronglySorted key_lt (key <$> destroy_node n)).
  { apply (elems_sorted key n 0); [done|done|]. intros o Ho. by destruct (Hg o Ho) as (_ & ? & _). }
  induction Hs as [|k L _ IH Hk]; constructor; [|done]. intros Hin. rewrite Forall_forall in Hk.
  destruct (Hk k Hin) as (q & Hlt & _). lia.
Qed.

Lemma delete_ok t M k :
  implements t M -> good_key k ->
  exists t', tree_step (CDelete k) t = ((map_step (CDelete k) M).1, t') /\ implements t' (map_step (CDelete k) M).2.
Proof.
  intros HI _. pose proof (lookup_ok t M k HI) as Hl. pose proof HI as (Hw & HM & Hg). cbn [tree_step map_step fst snd].
  rewrite <- Hl. unfold cbtree_lookup in Hl. unfold cbtree_lookup, cbtree_delete. destruct t as [n|]; cbn zeta.
  2: { rewrite bool_decide_eq_false_2 by (by intros []). eexists. split; [done|]. by rewrite delete_id. }
  destruct (key_matches key (raw_lookup n k) k) eqn:Em.
  2: { rewrite bool_decide_eq_false_2 by (by intros []). eexists. split; [done|]. by rewrite delete_id. }
  rewrite bool_decide_eq_true_2 by eauto. eexists. split; [done|]. unfold key_matches in Em. apply bool_decide_eq_true in Em.
  set (o := raw_lookup n k) in *. pose proof (drop_ok key n k 0 Hw) as Hd. fold o in Hd.
  assert (Hp : destroy_node n ≡ₚ o :: cbtree_destroy (drop n k)).
  { destruct (drop n k); cbn; [by destruct Hd|by rewrite Hd]. }
  pose proof (elems_nodup n Hw Hg) as Hnd. rewrite Hp, fmap_cons in Hnd. apply NoDup_cons in Hnd as [Hno _].
  split; [destruct (drop n k); [by destruct Hd|done]|]. split.
  - intros k' o'. rewrite lookup_delete_Some, HM. cbn. rewrite Hp, elem_of_cons. split.
    + intros (Hne & [->|Ho'] & <-); [congruence|auto].
    + intros [Ho' <-]. split; [|auto]. intros E. apply Hno. apply list_elem_of_fmap. exists o'. split; [congruence|done].
  - intros o' Ho'. apply Hg. cbn. rewrite Hp. by right.
Qed.

Lemma walk_visits {S} (cb : positive -> S -> bool * S) n : forall s, walk cb n s = walk_list cb (destroy_node n) s.
Proof.
  assert (Happ : forall L L' s, walk_list cb (L ++ L') s = let '(ok, s) := walk_list cb L s in if ok then walk_list cb L' s else (false, s)).
  { induction L as [|o L IH]; intros L' s; cbn; [done|]. destruct (cb o s) as [[] s1]; [apply IH|done]. }
  induction n as [o|b l IHl r IHr]; intros s; cbn; [by destruct (cb o s) as [[] s1]|].
  rewrite Happ, IHl. destruct (walk_list cb (destroy_node l) s) as [[] s1]; [apply IHr|done].
Qed.

Lemma step_ok op t M :
  implements t M -> op_ok op ->
  exists t', tree_step op t = ((map_step op M).1, t') /\ implements t' (map_step op M).2.
Proof.
  intros HI Hop. destruct op as [k|obj mem|k]; [|by apply insert_ok|by apply delete_ok].
  exists t. cbn. by rewrite (lookup_ok t M k HI).
Qed.

Lemma run_ok ops : forall t M,
  implements t M -> Forall op_ok ops ->
  (tree_run ops t).1 = (map_run ops M).1 /\ implements (tree_run ops t).2 (map_run ops M).2.
Proof.
  induction ops as [|op ops IH]; intros t M HI Hops; [done|]. apply Forall_cons in Hops as [Hop Hops].
  destruct (step_ok op t M HI Hop) as (t1 & E & HI1). cbn. rewrite E. destruct (map_step op M) as [r M1]. cbn in *.
  destruct (IH t1 M1 HI1 Hops) as [Er HI2]. destruct (tree_run ops t1), (map_run ops M1). cbn in *. by rewrite Er.
Qed.

(** C20: a crit-bit tree is a finite map: whatever is inserted, deleted and
    looked up, with or without memory, every answer is that of a map from keys
    to objects; a walk visits exactly the objects of the map, in the order of
    their keys, until the callback says stop. *)
Theorem cbtree_refines_map ops :
  Forall op_ok ops ->
  let '(rs, t) := tree_run ops None in
  let '(rs', M) := map_run ops ∅ in
  rs = rs' /\
  exists L, L ≡ₚ (map_to_list M).*2 /\ StronglySorted key_lt (key <$> L) /\ cbtree_destroy t = L /\
    forall S (cb : positive -> S -> bool * S) s, cbtree_walk cb t s = walk_list cb L s.
Proof.
  intros Hops. assert (HI : implements None ∅).
  { split; [done|]. split; [|by intros o ?%not_elem_of_nil]. intros k o. rewrite lookup_empty.
    split; [done|]. by intros [?%not_elem_of_nil _]. }
  destruct (run_ok ops None ∅ HI Hops) as [Er (Hw & HM & Hg)]. destruct (tree_run ops None) as [rs t], (map_run ops ∅) as [rs' M]. cbn in *.
  split; [done|]. exists (cbtree_destroy t).
  assert (Hs : StronglySorted key_lt (key <$> cbtree_destroy t) /\ NoDup (key <$> cbtree_destroy t)).
  { destruct t as [n|]; cbn in *; [|split; constructor]. split; [|by apply elems_nodup].
    apply (elems_sorted key n 0); [done|done|]. intros o Ho. by destruct (Hg o Ho) as (_ & ? & _). }
  destruct Hs as [Hs Hnd]. split_and!; auto.
  - apply NoDup_Permutation; [by apply (NoDup_fmap_1 key)| |].
    + apply NoDup_fmap_2_strong; [|apply NoDup_map_to_list]. intros [k o] [k' o'] Hx%elem_of_map_to_list Hy%elem_of_map_to_list E.
      cbn in *. subst o'. apply HM in Hx as [_ <-], Hy as [_ <-]. done.
    + intros o. rewrite list_elem_of_fmap. split.
      * intros Ho. exists (key o, o). split; [done|]. apply elem_of_map_to_list, HM. auto.
      * intros ([k o'] & -> & Hx%elem_of_map_to_list). by apply HM in Hx as [? _].
  - intros S cb s. destruct t as [n|]; [|done]. apply walk_visits.
Qed.
End Refinement.

(** ** An example *)

Definition toy_key (o : positive) : list Z := match o with 1%positive => [98; 111; 98] | 2%positive => [98] | _ => [97; 120] end.

Lemma good_key_check k : forallb (fun c => (1 <=? c) && (c <? 256)) k && (zlen k <=? 1000) = true -> good_key k.
Proof.
  intros [Hf Hz%Z.leb_le]%andb_true_iff. rewrite forallb_forall in Hf.
  assert (Hk : forall c, c ∈ k -> 1 <= c < 256).
  { intros c Hc%list_elem_of_In. specialize (Hf c Hc). apply andb_true_iff in Hf as [?%Z.leb_le ?%Z.ltb_lt]. lia. }
  split_and!.
  - intros Hin. specialize (Hk 0 Hin). lia.
  - apply Forall_forall. intros c Hc. specialize (Hk c Hc). unfold is_u8. lia.
  - assert (1000 <= MAX_KEY) by done. lia.
Qed.

Lemma cbtree_refines_map_witness :
  let ops := [CInsert 1 true; CInsert 2 true; CInsert 3 true; CInsert 2 true; CLookup [98]; CDelete [98; 111; 98]] in
  (tree_run toy_key ops None).1 = [RInserted true; RInserted true; RInserted true; RInserted false; RObj (Some 2%positive); RDeleted true (Some 1%positive)]
  /\ cbtree_destroy (tree_run toy_key ops None).2 = [3; 2]%positive
  /\ (tree_run toy_key ops None).1 = (map_run toy_key ops ∅).1.
Proof.
  intros ops. pose proof (cbtree_refines_map toy_key ops) as H. split; [by vm_compute|]. split; [by vm_compute|].
  assert (Hok : Forall (op_ok toy_key) ops).
  { repeat (apply Forall_cons; split; [by apply good_key_check|]). by apply Forall_nil. }
  specialize (H Hok). destruct (tree_run toy_key ops None), (map_run toy_key ops ∅). by destruct H as [H _].
Defined.
