(* ===== verification/StrSet.v ===== *)
(** * Sets of strings (src/hba.c, struct StrSet)

    The names of a column of an HBA rule: an array of ten nodes, and a crit-bit
    tree once there are more.  The nodes are the strings allocated from the
    pool of the set, in order; a pointer to a node is its number.  [mem] says
    which of the allocations of a call succeed.

    A set holds the strings that were added to it, before and after the change
    of representation. *)

From S2P Require Import Prelude CBTree.
From stdpp Require Import base option countable gmap list.
#[local] Open Scope Z_scope.

Record StrSet := mkStrSet {
  ss_pool : list (list Z);
  ss_count : Z;
  ss_alloc : Z;
  ss_nodes : list positive;
  ss_cbtree : option CBTree
}.

Definition strset_new : StrSet := mkStrSet [] 0 10 [] None.

Definition strset_node_key (pool : list (list Z)) (obj : positive) : list Z :=
  default [] (pool !! pred (Pos.to_nat obj)).

Definition strset_contains (set : StrSet) (s : list Z) : bool :=
  let key := strset_node_key (ss_pool set) in
  match ss_cbtree set with
  | Some t => bool_decide (is_Some (cbtree_lookup key t s))
  | None =>
      existsb (fun node => bool_decide (zlen (key node) = zlen s) && bool_decide (key node = s)) (ztake (ss_count set) (ss_nodes set))
  end.

(** The loop that moves the array to the tree. *)
Fixpoint fill_tree (key : positive -> list Z) (mem : nat -> bool) (i : nat) (nodes : list positive) (t : CBTree) : bool * CBTree :=
  match nodes with
  | [] => (true, t)
  | node :: nodes =>
      let '(ok, t) := cbtree_insert key (mem i) t node in
      if ok then fill_tree key mem (S i) nodes t else (false, t)
  end.

Definition strset_add (mem : nat -> bool) (set : StrSet) (s : list Z) : bool * StrSet :=
  if strset_contains set s then (true, set)
  else if negb (mem 0%nat) then (false, set)
  else
    let node := Pos.of_succ_nat (length (ss_pool set)) in
    let pool := ss_pool set ++ [s] in
    let key := strset_node_key pool in
    if bool_decide (ss_count set < ss_alloc set) then
      (true, mkStrSet pool (ss_count set + 1) (ss_alloc set) (ss_nodes set ++ [node]) (ss_cbtree set))
    else
      let with_tree t := mkStrSet pool (ss_count set) (ss_alloc set) (ss_nodes set) t in
      let insert t :=
        let '(ok, t) := cbtree_insert key (mem 2%nat) t node in
        if ok then (true, mkStrSet pool (ss_count set + 1) (ss_alloc set) (ss_nodes set) (Some t)) else (false, with_tree (Some t)) in
      match ss_cbtree set with
      | Some t => insert t
      | None =>
          if negb (mem 1%nat) then (false, with_tree None)
          else
            let '(ok, t) := fill_tree key (fun i => mem (3 + i)%nat) 0 (ztake (ss_count set) (ss_nodes set)) None in
            if ok then insert t else (false, with_tree (Some t))
      end.

(** ** The set a structure holds *)

Implicit Types (L : list (list Z)) (s : list Z) (t : CBTree).

Definition node_ids (n : nat) : list positive := Pos.of_succ_nat <$> seq 0 n.

Lemma node_key_lookup L i s : L !! i = Some s -> strset_node_key L (Pos.of_succ_nat i) = s.
Proof. intros E. unfold strset_node_key. rewrite SuccNat2Pos.id_succ. cbn [pred]. by rewrite E. Qed.

Lemma node_key_app L s o : (Pos.to_nat o <= length L)%nat -> strset_node_key (L ++ [s]) o = strset_node_key L o.
Proof. intros Ho. unfold strset_node_key. rewrite lookup_app_l by lia. done. Qed.

Lemma node_key_new L s : strset_node_key (L ++ [s]) (Pos.of_succ_nat (length L)) = s.
Proof. apply node_key_lookup. by rewrite lookup_app_r, Nat.sub_diag by lia. Qed.

Lemma node_key_elem L o : (Pos.to_nat o <= length L)%nat -> strset_node_key L o ∈ L.
Proof.
  intros Ho. unfold strset_node_key. pose proof (Pos2Nat.is_pos o).
  destruct (lookup_lt_is_Some_2 L (pred (Pos.to_nat o))) as [s E]; [lia|]. rewrite E. by apply list_elem_of_lookup_2 in E.
Qed.

Lemma elem_node_key L s : s ∈ L -> exists o, (Pos.to_nat o <= length L)%nat /\ strset_node_key L o = s.
Proof.
  intros [i Hi]%list_elem_of_lookup. exists (Pos.of_succ_nat i). apply lookup_lt_Some in Hi as Hl. split; [lia|by apply node_key_lookup].
Qed.

(** The tree has the nodes up to number [n], under their strings. *)
Definition tree_of (key : positive -> list Z) (n : nat) t : Prop :=
  exists M, implements key t M /\ forall o, o ∈ cbtree_destroy t <-> (Pos.to_nat o <= n)%nat.

Lemma implements_ext (key key' : positive -> list Z) t M :
  (forall o, o ∈ cbtree_destroy t -> key o = key' o) -> implements key t M -> implements key' t M.
Proof.
  intros He (Hw & HM & Hg). split; [|split].
  - destruct t as [n|]; [|done]. cbn in He. clear HM Hg. revert Hw. generalize 0. induction n as [o|b l IHl r IHr]; cbn in *; [done|].
    intros lo (Hb & Hl & Hr & H0 & H1 & Ha).
    assert (El : forall o, o ∈ destroy_node l -> key o = key' o) by (intros; apply He, elem_of_app; auto).
    assert (Er : forall o, o ∈ destroy_node r -> key o = key' o) by (intros; apply He, elem_of_app; auto).
    split_and!; auto.
    + eapply Forall_impl; [apply Forall_and; split; [exact H0|apply Forall_forall, El]|]. by intros o [Hbit <-].
    + eapply Forall_impl; [apply Forall_and; split; [exact H1|apply Forall_forall, Er]|]. by intros o [Hbit <-].
    + intros o o' Ho Ho' i Hi. rewrite <- !He by done. by apply Ha.
  - intros k o. rewrite HM. split; intros [Ho <-]; split; auto. symmetry. auto.
  - intros o Ho. rewrite <- He by done. auto.
Qed.

Lemma tree_of_app L s t : tree_of (strset_node_key L) (length L) t -> tree_of (strset_node_key (L ++ [s])) (length L) t.
Proof.
  intros (M & HI & Ho). exists M. split; [|done]. eapply implements_ext, HI. intros o Hin%Ho. by rewrite node_key_app.
Qed.

(** Inserting the next node. *)
Lemma tree_of_insert key n t :
  tree_of key n t -> good_key (key (Pos.of_succ_nat n)) ->
  (forall o, (Pos.to_nat o <= n)%nat -> key o <> key (Pos.of_succ_nat n)) ->
  exists t', cbtree_insert key true t (Pos.of_succ_nat n) = (true, t') /\ tree_of key (S n) t'.
Proof.
  intros (M & HI & Ho) Hg Hne. set (new := Pos.of_succ_nat n) in *.
  assert (HM : M !! key new = None).
  { apply eq_None_not_Some. intros [o E]. pose proof HI as (_ & HMk & _). apply HMk in E as [Hin E]. apply Ho in Hin. by apply (Hne o). }
  destruct (insert_ok key t M new true HI Hg) as (t' & E & HI'). cbn [tree_step map_step] in E, HI'.
  rewrite (bool_decide_eq_true_2 _ HM) in E, HI'. cbn in E, HI'.
  destruct (cbtree_insert key true t new) as [ok t'']. injection E as -> ->. exists t'. split; [done|].
  exists (<[key new := new]> M). split; [done|]. intros o. pose proof HI as (_ & HMk & _). pose proof HI' as (_ & HMk' & _).
  assert (Hn : Pos.to_nat new = S n) by (unfold new; lia). split.
  - intros Hin. assert (E : <[key new := new]> M !! key o = Some o) by (by apply HMk').
    rewrite lookup_insert in E. case_decide; [injection E as <-; lia|]. apply HMk in E as [Hin' _]. apply Ho in Hin'. lia.
  - intros Hle. apply (HMk' (key o)). destruct (decide (o = new)) as [->|Hno]; [apply lookup_insert_eq|].
    assert (Hlo : (Pos.to_nat o <= n)%nat) by (assert (Pos.to_nat o <> Pos.to_nat new) by (by intros ?%Pos2Nat.inj); lia).
    rewrite lookup_insert_ne by (intros ?; by apply (Hne o)). apply HMk. split; [by apply Ho|done].
Qed.

Lemma tree_of_empty key : tree_of key 0 None.
Proof.
  exists ∅. split.
  - split; [done|]. split; [|by intros o ?%not_elem_of_nil]. intros k o. rewrite lookup_empty.
    split; [done|]. by intros [?%not_elem_of_nil _].
  - intros o. cbn. pose proof (Pos2Nat.is_pos o). split; [by intros ?%not_elem_of_nil|lia].
Qed.

Lemma node_keys_differ L o n :
  NoDup L -> (n < length L)%nat -> (Pos.to_nat o <= n)%nat -> strset_node_key L o <> strset_node_key L (Pos.of_succ_nat n).
Proof.
  intros Hnd Hn Ho E. pose proof (Pos2Nat.is_pos o).
  destruct (lookup_lt_is_Some_2 L n Hn) as [s Es]. destruct (lookup_lt_is_Some_2 L (pred (Pos.to_nat o))) as [s' Es']; [lia|].
  rewrite (node_key_lookup _ _ _ Es) in E. unfold strset_node_key in E. rewrite Es' in E. cbn in E. subst s'.
  pose proof (NoDup_lookup L _ _ _ Hnd Es Es'). lia.
Qed.

Lemma fill_tree_ok L mem k : forall i n t,
  NoDup L -> Forall good_key L -> (forall j, mem j = true) -> (n + k <= length L)%nat ->
  tree_of (strset_node_key L) n t ->
  exists t', fill_tree (strset_node_key L) mem i (Pos.of_succ_nat <$> seq n k) t = (true, t') /\ tree_of (strset_node_key L) (n + k) t'.
Proof.
  induction k as [|k IH]; intros i n t Hnd Hg Hmem Hle Ht; cbn [seq fmap list_fmap fill_tree].
  - exists t. by rewrite Nat.add_0_r.
  - rewrite Hmem. destruct (tree_of_insert (strset_node_key L) n t Ht) as (t1 & E & Ht1).
    + rewrite Forall_forall in Hg. apply Hg, node_key_elem. lia.
    + intros o Ho. apply node_keys_differ; auto; lia.
    + rewrite E. destruct (IH (S i) (S n) t1) as (t' & E' & Ht'); auto; [lia|]. exists t'. by rewrite Nat.add_succ_r.
Qed.

(** [set] holds the strings [L], in the order they came. *)
Definition strset_holds (set : StrSet) L : Prop :=
  NoDup L /\ Forall good_key L /\ ss_pool set = L /\ ss_count set = zlen L /\ ss_alloc set = 10 /\
  if bool_decide (length L <= 10)%nat then ss_nodes set = node_ids (length L) /\ ss_cbtree set = None
  else exists t, ss_nodes set = node_ids 10 /\ ss_cbtree set = Some t /\ tree_of (strset_node_key L) (length L) t.

Lemma strset_new_holds : strset_holds strset_new [].
Proof. split_and!; [apply NoDup_nil_2|by apply Forall_nil|done..]. Qed.

Lemma length_node_ids n : length (node_ids n) = n.
Proof. unfold node_ids. by rewrite length_fmap, length_seq. Qed.

Lemma elem_node_ids o n : o ∈ node_ids n <-> (Pos.to_nat o <= n)%nat.
Proof.
  unfold node_ids. rewrite list_elem_of_fmap. split.
  - intros (i & -> & Hi%list_elem_of_In%in_seq). lia.
  - intros Ho. pose proof (Pos2Nat.is_pos o). exists (pred (Pos.to_nat o)). split; [lia|]. apply list_elem_of_In, in_seq. lia.
Qed.

Lemma strset_contains_holds set L s : strset_holds set L -> strset_contains set s = bool_decide (s ∈ L).
Proof.
  intros (Hnd & Hg & Hp & Hc & Ha & Hr). unfold strset_contains. rewrite Hp, Hc. case_bool_decide.
  - destruct Hr as [-> ->]. rewrite ztake_all by (unfold zlen; rewrite length_node_ids; lia).
    apply eq_bool_prop_intro. rewrite !Is_true_true, bool_decide_eq_true, existsb_exists. split.
    + intros (o & Ho%list_elem_of_In%elem_node_ids & [_ <-%bool_decide_eq_true]%andb_true_iff). by apply node_key_elem.
    + intros (o & Ho & E)%elem_node_key. exists o. split; [by apply list_elem_of_In, elem_node_ids|]. by rewrite E, !bool_decide_eq_true_2.
  - destruct Hr as (t & _ & -> & M & HI & Ho). rewrite (lookup_ok _ t M s HI). apply bool_decide_ext. destruct HI as (_ & HM & _). split.
    + intros [o [Hin <-]%HM]. by apply node_key_elem, Ho.
    + intros (o & Hle & E)%elem_node_key. exists o. apply HM. split; [by apply Ho|done].
Qed.

Lemma holds_snoc L s : NoDup L -> Forall good_key L -> good_key s -> s ∉ L -> NoDup (L ++ [s]) /\ Forall good_key (L ++ [s]).
Proof.
  intros Hnd Hg Hs Hn. split; [|by apply Forall_app; split; [|apply Forall_singleton]].
  apply NoDup_app. split_and!; [done| |apply NoDup_singleton]. by intros x Hx ->%list_elem_of_singleton.
Qed.

Lemma node_ids_S n : node_ids (S n) = node_ids n ++ [Pos.of_succ_nat n].
Proof. unfold node_ids. by rewrite seq_S, fmap_app. Qed.

Lemma strset_add_holds mem set L s :
  strset_holds set L -> good_key s -> (forall i, mem i = true) ->
  exists set', strset_add mem set s = (true, set') /\ strset_holds set' (if bool_decide (s ∈ L) then L else L ++ [s]).
Proof.
  intros Hh Hs Hmem. unfold strset_add. rewrite (strset_contains_holds _ _ _ Hh), !Hmem. case_bool_decide as Hin; [by eexists|].
  pose proof Hh as (Hnd & Hg & Hp & Hc & Ha & Hr). destruct (holds_snoc L s Hnd Hg Hs Hin) as [Hnd' Hg']. cbn [negb].
  rewrite Hp, Hc, Ha. unfold strset_holds. rewrite length_app. cbn [length].
  destruct (decide (length L < 10)%nat) as [Hlt|Hge].
  - rewrite !(bool_decide_eq_true_2 _) in * by (unfold zlen; lia). destruct Hr as [-> ->]. eexists. split; [done|]. cbn.
    rewrite Nat.add_1_r, node_ids_S, zlen_app. split_and!; auto; zlia.
  - rewrite (bool_decide_eq_false_2 (zlen L < 10)) by (unfold zlen; lia). rewrite (bool_decide_eq_false_2 (length L + 1 <= 10)%nat) by lia.
    assert (Htree : forall t, tree_of (strset_node_key (L ++ [s])) (length L) t ->
      exists t', cbtree_insert (strset_node_key (L ++ [s])) true t (Pos.of_succ_nat (length L)) = (true, t') /\ tree_of (strset_node_key (L ++ [s])) (length L + 1) t').
    { intros t Ht. rewrite Nat.add_1_r. apply tree_of_insert; [done|by rewrite node_key_new|].
      intros o Ho. apply node_keys_differ; [done|rewrite length_app; cbn; lia|done]. }
    case_bool_decide as Hl.
    + destruct Hr as [-> ->]. assert (Hlen : length L = 10%nat) by lia.
      rewrite ztake_all by (unfold zlen; rewrite length_node_ids; lia).
      destruct (fill_tree_ok (L ++ [s]) (fun i => mem (3 + i)%nat) (length L) 0 0 None) as (t0 & E0 & Ht0); auto;
        [rewrite length_app; lia|apply tree_of_empty|].
      unfold node_ids. rewrite E0. destruct (Htree t0 Ht0) as (t1 & E1 & Ht1). rewrite E1. eexists. split; [done|]. cbn.
      rewrite zlen_app. split_and!; auto. exists t1. by rewrite Hlen in *.
    + destruct Hr as (t & -> & -> & Ht). destruct (Htree t (tree_of_app L s t Ht)) as (t1 & E1 & Ht1). rewrite E1.
      eexists. split; [done|]. cbn. rewrite zlen_app. split_and!; auto. by exists t1.
Qed.
