(* ===== verification/Inet.v ===== *)
(** * Internet addresses (lib/usual/socket_pton.c, lib/usual/socket_ntop.c)

    Addresses as texts and as bytes.  Texts are C strings without their NUL, an
    address is four or sixteen bytes.  A store outside the local arrays is
    [Undef]; a formatted text that does not fit is the NULL the code returns.

    Reading back a formatted address gives the address, whatever it is. *)

From S2P Require Import Prelude.
From stdpp Require Import base option list strings.
#[local] Open Scope Z_scope.

Inductive family := AF_INET | AF_INET6.

Definition INADDRSZ : nat := 4.
Definition IN6ADDRSZ : nat := 16.
Definition INT16SZ : nat := 2.

Definition DOT : Z := 46.
Definition COLON : Z := 58.

(** ** Text to address *)

(** strchr in the digits. *)
Definition digit (ch : Z) : option Z := if bool_decide (48 <= ch <= 57) then Some (ch - 48) else None.
(** The digits at the start of a text, as strtol and strtoul read them. *)
Fixpoint read_digits (s : list Z) (v : Z) : Z * list Z :=
  match s with
  | c :: s' => match digit c with Some d => read_digits s' (v * 10 + d) | None => (v, s) end
  | [] => (v, [])
  end.
Definition xdigit (ch : Z) : option Z :=
  if bool_decide (48 <= ch <= 57) then Some (ch - 48)
  else if bool_decide (97 <= ch <= 102) then Some (ch - 87)
  else if bool_decide (65 <= ch <= 70) then Some (ch - 55)
  else None.

(** [done]: the octets before tp; [cur]: the one at tp. *)
Fixpoint pton4_loop (src done : list Z) (cur : Z) (saw_digit : bool) (octets : Z) : res (option (list Z)) :=
  match src with
  | [] => if bool_decide (octets < 4) then Ok None else Ok (Some (done ++ [cur]))
  | ch :: src =>
      match digit ch with
      | Some d =>
          let new := cur * 10 + d in
          if bool_decide (new > 255) then Ok None
          else if negb saw_digit then
            if bool_decide (octets + 1 > 4) then Ok None else pton4_loop src done new true (octets + 1)
          else pton4_loop src done new saw_digit octets
      | None =>
          if bool_decide (ch = DOT) && saw_digit then
            if bool_decide (octets = 4) then Ok None
            else if bool_decide (S (length done) < INADDRSZ)%nat then pton4_loop src (done ++ [cur]) 0 false octets
            else Undef
          else Ok None
      end
  end.

Definition inet_pton4 (src : list Z) : res (option (list Z)) := pton4_loop src [] 0 false 0.

(** Where the loop of inet_pton6 ends: the bytes before tp, colonp as an
    offset, saw_xdigit and val. *)
Record pton6_state := mkPton6 { p6_out : list Z; p6_colonp : option nat; p6_saw : bool; p6_val : Z }.

Definition word_bytes (val : Z) : list Z := [Z.land (Z.shiftr val 8) 255; Z.land val 255].

Fixpoint pton6_loop (src curtok out : list Z) (colonp : option nat) (saw_xdigit : bool) (count_xdigit val : Z)
  : res (option pton6_state) :=
  match src with
  | [] => Ok (Some (mkPton6 out colonp saw_xdigit val))
  | ch :: src =>
      match xdigit ch with
      | Some d =>
          if bool_decide (count_xdigit >= 4) then Ok None
          else
            let val := Z.lor (Z.shiftl val 4) d in
            if bool_decide (val > 65535) then Ok None
            else pton6_loop src curtok out colonp true (count_xdigit + 1) val
      | None =>
          if bool_decide (ch = COLON) then
            if negb saw_xdigit then
              match colonp with
              | Some _ => Ok None
              | None => pton6_loop src src out (Some (length out)) saw_xdigit count_xdigit val
              end
            else if bool_decide (src = []) then Ok None
            else if bool_decide (IN6ADDRSZ < length out + INT16SZ)%nat then Ok None
            else pton6_loop src src (out ++ word_bytes val) colonp false 0 0
          else if bool_decide (ch = DOT) && bool_decide (length out + INADDRSZ <= IN6ADDRSZ)%nat then
            r ← inet_pton4 curtok;
            match r with
            | Some b => Ok (Some (mkPton6 (out ++ b) colonp false val))
            | None => Ok None
            end
          else Ok None
      end
  end.

(** The shift by hand: byte [i] from the end for [i] from 1 to [n]. *)
Fixpoint shift_loop (tmp : list Z) (colonp n i k : nat) : list Z :=
  match k with
  | O => tmp
  | S k =>
      let tmp := <[(IN6ADDRSZ - i)%nat := nth (colonp + n - i) tmp 0]> tmp in
      let tmp := <[(colonp + n - i)%nat := 0]> tmp in
      shift_loop tmp colonp n (S i) k
  end.

(** The code after the loop. *)
Definition pton6_end (st : pton6_state) : option (list Z) :=
  let out :=
    if p6_saw st then
      if bool_decide (IN6ADDRSZ < length (p6_out st) + INT16SZ)%nat then None else Some (p6_out st ++ word_bytes (p6_val st))
    else Some (p6_out st) in
  match out with
  | None => None
  | Some out =>
      match p6_colonp st with
      | Some c =>
          if bool_decide (length out = IN6ADDRSZ) then None
          else
            let n := (length out - c)%nat in
            Some (shift_loop (out ++ replicate (IN6ADDRSZ - length out) 0) c n 1 n)
      | None => if bool_decide (length out <> IN6ADDRSZ) then None else Some out
      end
  end.

Definition inet_pton6 (src : list Z) : res (option (list Z)) :=
  let loop src :=
    st ← pton6_loop src src [] None false 0 0;
    Ok (st ≫= pton6_end) in
  match src with
  | ch :: src' =>
      if bool_decide (ch = COLON) then
        match src' with
        | ch' :: _ => if bool_decide (ch' <> COLON) then Ok None else loop src'
        | [] => Ok None
        end
      else loop src
  | [] => loop src
  end.

Definition inet_pton (af : family) (src : list Z) : res (option (list Z)) :=
  match af with AF_INET => inet_pton4 src | AF_INET6 => inet_pton6 src end.

(** ** Address to text *)

(** printf's %x *)
Fixpoint hex_digits (fuel : nat) (n : Z) (acc : list Z) : list Z :=
  match fuel with
  | O => acc
  | S fuel =>
      let acc := hex_digit (n mod 16) :: acc in
      if bool_decide (n / 16 = 0) then acc else hex_digits fuel (n / 16) acc
  end.
Definition hex (n : Z) : list Z := hex_digits 8 n [].

(** snprintf into sixteen bytes, then the copy of [size] bytes. *)
Definition inet_ntop4 (src : list Z) (size : Z) : option (list Z) :=
  let b i := nth i src 0 in
  let l := dec (b 0%nat) ++ [DOT] ++ dec (b 1%nat) ++ [DOT] ++ dec (b 2%nat) ++ [DOT] ++ dec (b 3%nat) in
  if bool_decide (zlen l <= 0) || bool_decide (zlen l >= size) then None else Some (take 15 l).

Definition word_at (src : list Z) (i : nat) : Z := Z.lor (Z.shiftl (nth (2 * i) src 0) 8) (nth (2 * i + 1) src 0).
Definition words_of (src : list Z) : list Z := map (word_at src) (seq 0 8).

Record run := mkRun { r_base : Z; r_len : Z }.

Definition better (best cur : run) : run :=
  if bool_decide (r_base best = -1) || bool_decide (r_len cur > r_len best) then cur else best.

Fixpoint run_loop (words : list Z) (i : Z) (best cur : run) : run :=
  match words with
  | [] => if bool_decide (r_base cur <> -1) then better best cur else best
  | w :: words =>
      if bool_decide (w = 0) then
        run_loop words (i + 1) best
          (if bool_decide (r_base cur = -1) then mkRun i 1 else mkRun (r_base cur) (r_len cur + 1))
      else if bool_decide (r_base cur <> -1) then run_loop words (i + 1) (better best cur) (mkRun (-1) (r_len cur))
      else run_loop words (i + 1) best cur
  end.

Definition best_run (words : list Z) : run :=
  let best := run_loop words 0 (mkRun (-1) (-1)) (mkRun (-1) (-1)) in
  if bool_decide (r_base best <> -1) && bool_decide (r_len best < 2) then mkRun (-1) (r_len best) else best.

Definition TMP6 : Z := 46.

(** *tp++ = ch, after the test of the room *)
Definition put_ch (ch : Z) (out : list Z) : option (list Z) :=
  if bool_decide (zlen out + 1 >= TMP6) then None else Some (out ++ [ch]).

Definition in_run (best : run) (i : Z) : bool :=
  bool_decide (r_base best <> -1) && bool_decide (i >= r_base best) && bool_decide (i < r_base best + r_len best).

Definition encapsulated (best : run) (word5 i : Z) : bool :=
  bool_decide (i = 6) && bool_decide (r_base best = 0) &&
  (bool_decide (r_len best = 6) || bool_decide (r_len best = 5) && bool_decide (word5 = 65535)).

Fixpoint fmt_loop (src : list Z) (best : run) (words : list Z) (i : Z) (out : list Z) : option (list Z) :=
  match words with
  | [] => Some out
  | w :: words =>
      if negb (bool_decide (zlen out < TMP6)) then Some out
      else if in_run best i then
        if bool_decide (i = r_base best) then out ← put_ch COLON out; fmt_loop src best words (i + 1) out
        else fmt_loop src best words (i + 1) out
      else
        out ← (if bool_decide (i <> 0) then put_ch COLON out else Some out);
        if encapsulated best (word_at src 5) i then
          t ← inet_ntop4 (drop 12 src) (TMP6 - zlen out);
          Some (out ++ t)
        else if bool_decide (zlen (hex w) >= TMP6 - zlen out) then None
        else fmt_loop src best words (i + 1) (out ++ hex w)
  end.

Definition inet_ntop6 (src : list Z) (size : Z) : option (list Z) :=
  let best := best_run (words_of src) in
  out ← fmt_loop src best (words_of src) 0 [];
  out ← (if bool_decide (r_base best <> -1) && bool_decide (r_base best + r_len best = 8) then put_ch COLON out else Some out);
  if bool_decide (zlen out + 1 >= TMP6) then None
  else if bool_decide (zlen out + 1 > size) then None
  else Some out.

Definition inet_ntop (af : family) (src : list Z) (size : Z) : option (list Z) :=
  if bool_decide (size < 0) then None
  else match af with AF_INET => inet_ntop4 src size | AF_INET6 => inet_ntop6 src size end.

(** ** Digits *)

Definition bytes_of (n : nat) (src : list Z) : Prop := length src = n /\ Forall (fun b => 0 <= b < 256) src.

Definition val10 (v : Z) (ds : list Z) : Z := foldl (fun v d => v * 10 + d) v ds.
Definition val16 (v : Z) (ds : list Z) : Z := foldl (fun v d => v * 16 + d) v ds.

Definition dec_ok (b : Z) : bool :=
  match mapM digit (dec b) with
  | Some (d :: ds) => bool_decide (val10 0 (d :: ds) = b) && bool_decide (length ds <= 2)%nat
                      && bool_decide (mapM xdigit (dec b) = Some (d :: ds))
  | _ => false
  end.

Lemma dec_byte b : 0 <= b < 256 ->
  exists d ds, mapM digit (dec b) = Some (d :: ds) /\ mapM xdigit (dec b) = Some (d :: ds) /\ val10 0 (d :: ds) = b /\
    (length (dec b) <= 3)%nat.
Proof.
  intros Hb. assert (H : dec_ok b = true) by (apply (range_cases dec_ok 256); [by vm_compute|done]). unfold dec_ok in H.
  destruct (mapM digit (dec b)) as [[|d ds]|] eqn:E; try done. apply andb_true_iff in H as [[H1%bool_decide_eq_true H2%bool_decide_eq_true]%andb_true_iff H3%bool_decide_eq_true].
  exists d, ds. split_and!; auto. apply length_mapM in E. cbn [length] in E. lia.
Qed.

Lemma xdigit_hex d : 0 <= d < 16 -> xdigit (hex_digit d) = Some d.
Proof.
  intros Hd. pose proof (range_cases (fun d => bool_decide (xdigit (hex_digit d) = Some d)) 16 d ltac:(by vm_compute) Hd) as H.
  by apply bool_decide_eq_true in H.
Qed.

Lemma hex_digits_ok k : forall fuel n acc,
  (k < fuel)%nat -> 0 <= n < 16 ^ Z.of_nat (S k) ->
  exists l d ds, hex_digits fuel n acc = l ++ acc /\ mapM xdigit l = Some (d :: ds) /\ val16 0 (d :: ds) = n /\ (length ds <= k)%nat.
Proof.
  induction k as [|k IH]; intros [|fuel] n acc Hf Hn; try lia; cbn [hex_digits]; pose proof (Z.mod_pos_bound n 16) as Hm.
  - rewrite bool_decide_eq_true_2 by (apply Z.div_small; lia). exists [hex_digit (n mod 16)], (n mod 16), [].
    cbn. rewrite xdigit_hex by lia. split_and!; auto. apply Z.mod_small. lia.
  - rewrite Nat2Z.inj_succ, Z.pow_succ_r in Hn by lia. case_bool_decide as E.
    + exists [hex_digit (n mod 16)], (n mod 16), []. cbn. rewrite xdigit_hex by lia. split_and!; auto; [|lia].
      pose proof (Z.div_mod n 16). lia.
    + destruct (IH fuel (n / 16) (hex_digit (n mod 16) :: acc)) as (l & d & ds & -> & Hl & Hv & Hlen); [lia| |].
      { split; [apply Z.div_pos; lia|]. apply Z.div_lt_upper_bound; lia. }
      exists (l ++ [hex_digit (n mod 16)]), d, (ds ++ [n mod 16]). rewrite <- app_assoc. split_and!; [done| | |rewrite length_app; cbn; lia].
      * apply mapM_Some. change (d :: ds ++ [n mod 16]) with ((d :: ds) ++ [n mod 16]). apply Forall2_app; [by apply mapM_Some|].
        apply Forall2_cons; split; [apply xdigit_hex; lia|by apply Forall2_nil].
      * change (d :: ds ++ [n mod 16]) with ((d :: ds) ++ [n mod 16]). unfold val16 in *. rewrite foldl_app, Hv. cbn.
        pose proof (Z.div_mod n 16). lia.
Qed.

Lemma hex_word w : 0 <= w < 65536 ->
  exists d ds, mapM xdigit (hex w) = Some (d :: ds) /\ val16 0 (d :: ds) = w /\ (1 <= length (hex w) <= 4)%nat.
Proof.
  intros Hw. destruct (hex_digits_ok 3 8 w []) as (l & d & ds & E & Hl & Hv & Hlen); [lia|exact Hw|].
  unfold hex. rewrite E, app_nil_r. exists d, ds. split_and!; auto; apply length_mapM in Hl; cbn [length] in Hl; lia.
Qed.

Lemma digit_range ch d : digit ch = Some d -> 0 <= d <= 9.
Proof. unfold digit. case_bool_decide; [|done]. intros [= <-]. lia. Qed.

Lemma xdigit_range ch d : xdigit ch = Some d -> 0 <= d <= 15.
Proof. unfold xdigit. repeat case_bool_decide; intros [= <-]; lia. Qed.

Lemma val10_ge ds : forall v, 0 <= v -> Forall (fun d => 0 <= d) ds -> v <= val10 v ds.
Proof.
  induction ds as [|d ds IH]; intros v Hv Hd; [done|]. apply Forall_cons in Hd as [Hd Hds]. cbn.
  specialize (IH (v * 10 + d) ltac:(lia) Hds). unfold val10 in *. lia.
Qed.

(** ** Dotted quads *)

Lemma digits_run l ds rest done octets : forall v,
  mapM digit l = Some ds -> 0 <= v -> val10 v ds <= 255 ->
  pton4_loop (l ++ rest) done v true octets = pton4_loop rest done (val10 v ds) true octets.
Proof.
  revert ds. induction l as [|ch l IH]; intros ds v E Hv Hle; cbn in E; [by injection E as <-|].
  apply bind_Some in E as (d & Ed & E). apply bind_Some in E as (ds' & Eds & [= <-]).
  assert (Hnn : Forall (fun d => 0 <= d) ds').
  { apply mapM_Some in Eds. clear -Eds. induction Eds; constructor; auto. apply digit_range in H. lia. }
  pose proof (digit_range _ _ Ed). pose proof (val10_ge ds' (v * 10 + d) ltac:(lia) Hnn) as Hge. cbn in Hle.
  unfold val10 in Hge, Hle. cbn [app pton4_loop]. rewrite Ed. rewrite bool_decide_eq_false_2 by lia. cbn [negb].
  rewrite (IH ds' (v * 10 + d) Eds); [done|lia|exact Hle].
Qed.

Lemma octet_run b rest done octets :
  0 <= b < 256 -> octets < 4 -> pton4_loop (dec b ++ rest) done 0 false octets = pton4_loop rest done b true (octets + 1).
Proof.
  intros Hb Ho. destruct (dec_byte b Hb) as (d & ds & E & _ & Hv & _). destruct (dec b) as [|ch l] eqn:El; [done|].
  cbn in E. apply bind_Some in E as (d' & Ed & E). apply bind_Some in E as (ds' & Eds & [= -> ->]).
  cbn [app pton4_loop]. rewrite Ed. pose proof (digit_range _ _ Ed). rewrite !bool_decide_eq_false_2 by lia. cbn [negb].
  cbn in Hv. rewrite (digits_run l ds rest done (octets + 1) _ Eds); [|lia|unfold val10 in *; cbn in *; lia].
  unfold val10 in *. cbn in *. by rewrite Hv.
Qed.

Lemma dot_run rest done cur octets :
  octets <> 4 -> (S (length done) < 4)%nat ->
  pton4_loop (DOT :: rest) done cur true octets = pton4_loop rest (done ++ [cur]) 0 false octets.
Proof.
  intros Ho Hl. cbn [pton4_loop]. change (digit DOT) with (@None Z). cbn iota. rewrite (bool_decide_eq_true_2 (DOT = DOT)) by done.
  cbn [andb]. rewrite bool_decide_eq_false_2 by done. unfold INADDRSZ. by rewrite bool_decide_eq_true_2.
Qed.

Lemma quad_back a b c d :
  0 <= a < 256 -> 0 <= b < 256 -> 0 <= c < 256 -> 0 <= d < 256 ->
  inet_pton4 (dec a ++ DOT :: dec b ++ DOT :: dec c ++ DOT :: dec d) = Ok (Some [a; b; c; d]).
Proof.
  intros. unfold inet_pton4.
  do 3 (rewrite octet_run by lia; rewrite dot_run by (cbn; lia)). by rewrite <- (app_nil_r (dec d)), octet_run by lia.
Qed.

Lemma dec_byte_len b : 0 <= b < 256 -> 1 <= zlen (dec b) <= 3.
Proof.
  intros Hb. destruct (dec_byte b Hb) as (d & ds & E & _ & _ & Hl). unfold zlen. apply length_mapM in E. cbn [length] in E. lia.
Qed.

Lemma ntop4_run src size :
  bytes_of 4 src -> 16 <= size ->
  exists t, inet_ntop4 src size = Some t /\ 7 <= zlen t <= 15 /\ inet_pton4 t = Ok (Some src) /\
    exists b0 t', t = dec b0 ++ DOT :: t' /\ 0 <= b0 < 256.
Proof.
  intros [Hl Hb] Hs. do 5 (destruct src as [|? src]; try done). clear Hl.
  rewrite !Forall_cons in Hb. destruct Hb as (H0 & H1 & H2 & H3 & _).
  pose proof (dec_byte_len z H0). pose proof (dec_byte_len z0 H1). pose proof (dec_byte_len z1 H2). pose proof (dec_byte_len z2 H3).
  unfold inet_ntop4. cbn [nth]. set (l := dec z ++ [DOT] ++ dec z0 ++ [DOT] ++ dec z1 ++ [DOT] ++ dec z2).
  assert (Hz : 7 <= zlen l <= 15) by (unfold l; rewrite !zlen_app; change (zlen [DOT]) with 1; lia).
  rewrite !bool_decide_eq_false_2 by lia. cbn [orb]. exists l.
  split; [f_equal; apply take_ge; unfold zlen in Hz; lia|]. split; [done|]. split; [by apply quad_back|].
  exists z. eexists. split; [|done]. unfold l. done.
Qed.

(** ** Groups of an IPv6 address *)

Lemma lor_nibble v d : 0 <= d < 16 -> Z.lor (Z.shiftl v 4) d = v * 16 + d.
Proof.
  intros Hd. rewrite <- Z.lxor_lor, <- Z.add_nocarry_lxor; [by rewrite Z.shiftl_mul_pow2|..].
  all: apply Z.bits_inj'; intros i Hi; rewrite Z.land_spec, Z.bits_0; destruct (decide (i < 4)).
  all: try by rewrite Z.shiftl_spec_low.
  all: rewrite andb_comm; apply andb_false_intro1; destruct (decide (d = 0)) as [->|]; [apply Z.bits_0|].
  all: apply Z.bits_above_log2; [lia|]; pose proof (Z.log2_le_mono d 15); change (Z.log2 15) with 3 in *; lia.
Qed.

Lemma xdigits_run l : forall ds rest cur out cp count v,
  mapM xdigit l = Some ds -> 0 <= count -> count + zlen l <= 4 -> 0 <= v < 16 ^ count ->
  pton6_loop (l ++ rest) cur out cp true count v = pton6_loop rest cur out cp true (count + zlen l) (val16 v ds).
Proof.
  induction l as [|ch l IH]; intros ds rest cur out cp count v E Hc Hl Hv; cbn in E.
  { injection E as <-. cbn. by rewrite Z.add_0_r. }
  apply bind_Some in E as (d & Ed & E). apply bind_Some in E as (ds' & Eds & [= <-]). pose proof (xdigit_range _ _ Ed).
  rewrite zlen_cons in *. pose proof (zlen_nonneg l). cbn [app pton6_loop]. rewrite Ed, bool_decide_eq_false_2 by lia.
  rewrite lor_nibble by lia. assert (Hv' : v * 16 + d < 16 ^ (count + 1)) by (rewrite Z.pow_add_r by lia; lia).
  assert (16 ^ (count + 1) <= 16 ^ 4) by (apply Z.pow_le_mono_r; lia). change (16 ^ 4) with 65536 in *.
  rewrite bool_decide_eq_false_2 by lia. rewrite (IH ds' rest cur out cp (count + 1) (v * 16 + d) Eds) by lia.
  f_equal. lia.
Qed.

Lemma group_run l d ds rest cur out cp :
  mapM xdigit l = Some (d :: ds) -> zlen l <= 4 ->
  pton6_loop (l ++ rest) cur out cp false 0 0 = pton6_loop rest cur out cp true (zlen l) (val16 0 (d :: ds)).
Proof.
  intros E Hl. destruct l as [|ch l]; [done|]. cbn in E. apply bind_Some in E as (d' & Ed & E).
  apply bind_Some in E as (ds' & Eds & [= -> ->]). pose proof (xdigit_range _ _ Ed). rewrite zlen_cons in *.
  cbn [app pton6_loop]. rewrite Ed, bool_decide_eq_false_2 by lia. rewrite lor_nibble by lia.
  rewrite bool_decide_eq_false_2 by lia. rewrite (xdigits_run l ds rest cur out cp (0 + 1) (0 * 16 + d) Eds) by lia. done.
Qed.

Lemma colon_run rest cur out cp count v :
  rest <> [] -> (length out + 2 <= 16)%nat ->
  pton6_loop (COLON :: rest) cur out cp true count v = pton6_loop rest rest (out ++ word_bytes v) cp false 0 0.
Proof.
  intros Hr Hl. cbn [pton6_loop]. change (xdigit COLON) with (@None Z). cbn iota. rewrite (bool_decide_eq_true_2 (COLON = COLON)) by done.
  cbn [negb]. rewrite (bool_decide_eq_false_2 (rest = [])) by done. unfold IN6ADDRSZ, INT16SZ. by rewrite bool_decide_eq_false_2 by lia.
Qed.

(** Words with colons between them. *)
Fixpoint joinc (ws : list Z) : list Z :=
  match ws with
  | [] => []
  | w :: ws => match ws with [] => hex w | _ => hex w ++ COLON :: joinc ws end
  end.

Definition flat (ws : list Z) : list Z := ws ≫= word_bytes.

Definition is_word (w : Z) : Prop := 0 <= w < 65536.

Lemma hex_group w rest cur out cp :
  is_word w -> exists count, pton6_loop (hex w ++ rest) cur out cp false 0 0 = pton6_loop rest cur out cp true count w.
Proof.
  intros Hw. destruct (hex_word w Hw) as (d & ds & E & Hv & Hl). exists (zlen (hex w)).
  rewrite (group_run _ d ds) by (done || unfold zlen; lia). by rewrite Hv.
Qed.

Lemma hex_nonempty w rest : is_word w -> hex w ++ rest <> [].
Proof. intros Hw E. apply app_nil in E as [E _]. destruct (hex_word w Hw) as (d & ds & _ & _ & Hl). rewrite E in Hl. cbn in Hl. lia. Qed.

Lemma joinc_nonempty w ws rest : is_word w -> joinc (w :: ws) ++ rest <> [].
Proof. intros Hw. cbn. destruct ws; [by apply hex_nonempty|]. rewrite <- app_assoc. by apply hex_nonempty. Qed.

Lemma length_flat ws : length (flat ws) = (2 * length ws)%nat.
Proof. induction ws as [|w ws IH]; [done|]. unfold flat in *. cbn. rewrite IH. lia. Qed.

(** Groups up to the end. *)
Lemma groups_run ws : forall cur out cp,
  Forall is_word ws -> ws <> [] -> (length out + 2 * length ws <= 16)%nat ->
  exists st, pton6_loop (joinc ws) cur out cp false 0 0 = Ok (Some st) /\ p6_saw st = true /\ p6_colonp st = cp /\
    p6_out st ++ word_bytes (p6_val st) = out ++ flat ws.
Proof.
  induction ws as [|w ws IH]; intros cur out cp Hw Hne Hl; [done|]. apply Forall_cons in Hw as [Hw Hws].
  destruct ws as [|w' ws].
  - cbn [joinc]. destruct (hex_group w [] cur out cp Hw) as [count E]. rewrite app_nil_r in E. rewrite E. eexists. split; [done|]. done.
  - assert (E : joinc (w :: w' :: ws) = hex w ++ COLON :: joinc (w' :: ws)) by done. rewrite E. clear E.
    destruct (hex_group w (COLON :: joinc (w' :: ws)) cur out cp Hw) as [count ->]. cbn [length] in Hl.
    pose proof Hws as Hws'. apply Forall_cons in Hws' as [Hw' _].
    rewrite colon_run; [|rewrite <- (app_nil_r (joinc _)); by apply joinc_nonempty|lia].
    destruct (IH (joinc (w' :: ws)) (out ++ word_bytes w) cp Hws) as (st & E & Hs & Hc & Ho); [done|rewrite length_app; cbn; lia|].
    exists st. split_and!; auto. rewrite Ho, <- app_assoc. done.
Qed.

(** Groups before the double colon. *)
Lemma groups_then ws : forall cur out cp rest,
  Forall is_word ws -> ws <> [] -> (length out + 2 * length ws <= 16)%nat -> rest <> [] ->
  pton6_loop (joinc ws ++ COLON :: rest) cur out cp false 0 0 = pton6_loop rest rest (out ++ flat ws) cp false 0 0.
Proof.
  induction ws as [|w ws IH]; intros cur out cp rest Hw Hne Hl Hr; [done|]. apply Forall_cons in Hw as [Hw Hws].
  destruct ws as [|w' ws].
  - cbn [joinc]. destruct (hex_group w (COLON :: rest) cur out cp Hw) as [count ->]. rewrite colon_run by (done || cbn in *; lia). done.
  - assert (E : joinc (w :: w' :: ws) ++ COLON :: rest = hex w ++ COLON :: joinc (w' :: ws) ++ COLON :: rest).
    { cbn. by rewrite <- !app_assoc. }
    rewrite E. clear E. destruct (hex_group w (COLON :: joinc (w' :: ws) ++ COLON :: rest) cur out cp Hw) as [count ->].
    pose proof Hws as Hws'. apply Forall_cons in Hws' as [Hw' _]. cbn [length] in Hl.
    rewrite colon_run; [|by apply joinc_nonempty|lia]. rewrite IH; [|done|done|rewrite length_app; cbn; lia|done].
    rewrite <- app_assoc. done.
Qed.

(** The double colon. *)
Lemma gap_run rest cur out count v :
  pton6_loop (COLON :: rest) cur out None false count v = pton6_loop rest rest out (Some (length out)) false count v.
Proof. done. Qed.

Lemma insert_middle {A} (l1 l2 : list A) x y : <[length l1 := y]> (l1 ++ x :: l2) = l1 ++ y :: l2.
Proof. rewrite <- (Nat.add_0_r (length l1)), insert_app_r. done. Qed.

(** The shift moves what follows the gap to the end. *)
Lemma shift_loop_ok pre a : forall b z n i,
  (n + 1 = i + length a)%nat -> i = S (length b) -> (length pre + length a + S z + length b = 16)%nat ->
  shift_loop (pre ++ a ++ replicate (S z) 0 ++ b) (length pre) n i (length a) = pre ++ replicate (S z) 0 ++ a ++ b.
Proof.
  induction a as [|x a IH] using rev_ind; intros b z n i Hn Hi Hl; [done|]. rewrite length_app in *. cbn [length] in *.
  rewrite Nat.add_1_r. cbn [shift_loop].
  assert (E1 : (length pre + n - i)%nat = length (pre ++ a)) by (rewrite length_app; lia).
  assert (E2 : (IN6ADDRSZ - i)%nat = length ((pre ++ a) ++ x :: replicate z 0)).
  { unfold IN6ADDRSZ. rewrite !length_app. cbn. rewrite length_replicate. lia. }
  assert (Et : pre ++ (a ++ [x]) ++ replicate (S z) 0 ++ b = ((pre ++ a) ++ x :: replicate z 0) ++ 0 :: b).
  { rewrite replicate_S_end, <- !app_assoc. done. }
  rewrite Et, E1, E2. rewrite insert_middle.
  assert (Hx : nth (length (pre ++ a)) (((pre ++ a) ++ x :: replicate z 0) ++ 0 :: b) 0 = x).
  { rewrite <- app_assoc, app_nth2, Nat.sub_diag by lia. done. }
  rewrite Hx, <- app_assoc. cbn [app]. rewrite insert_middle.
  assert (Es : (pre ++ a) ++ 0 :: replicate z 0 ++ x :: b = pre ++ a ++ replicate (S z) 0 ++ x :: b) by (by rewrite <- app_assoc).
  rewrite Es, (IH (x :: b) z n (S i)); [by rewrite <- !app_assoc|lia|cbn; lia|cbn; lia].
Qed.

Lemma pton6_end_gap st pre post :
  p6_colonp st = Some (length pre) -> (length pre + length post < 16)%nat ->
  (if p6_saw st then p6_out st ++ word_bytes (p6_val st) else p6_out st) = pre ++ post ->
  pton6_end st = Some (pre ++ replicate (16 - length (pre ++ post)) 0 ++ post).
Proof.
  intros Hc Hl Ho. unfold pton6_end.
  assert (E : (if p6_saw st then if bool_decide (IN6ADDRSZ < length (p6_out st) + INT16SZ)%nat then None
               else Some (p6_out st ++ word_bytes (p6_val st)) else Some (p6_out st)) = Some (pre ++ post)).
  { destruct (p6_saw st); [|by rewrite Ho]. rewrite bool_decide_eq_false_2; [by rewrite Ho|].
    apply (f_equal length) in Ho. rewrite !length_app in Ho. cbn in Ho. unfold IN6ADDRSZ, INT16SZ. lia. }
  rewrite E, Hc. rewrite bool_decide_eq_false_2 by (rewrite length_app; unfold IN6ADDRSZ; lia).
  rewrite length_app. replace (length pre + length post - length pre)%nat with (length post) by lia.
  destruct (IN6ADDRSZ - (length pre + length post))%nat as [|z] eqn:Ez; [unfold IN6ADDRSZ in Ez; lia|]. rewrite <- app_assoc.
  pose proof (shift_loop_ok pre post [] z (length post) 1) as Hs. rewrite !app_nil_r in Hs. rewrite Hs; [|lia|done|unfold IN6ADDRSZ in Ez; cbn; lia].
  unfold IN6ADDRSZ in Ez. by rewrite Ez.
Qed.

Lemma hex_not_colon w rest : is_word w -> exists c t, hex w ++ rest = c :: t /\ c <> COLON.
Proof.
  intros Hw. destruct (hex_word w Hw) as (d & ds & E & _ & _). destruct (hex w) as [|c t]; [done|]. exists c, (t ++ rest). split; [done|].
  intros ->. done.
Qed.

Lemma joinc_not_colon w ws rest : is_word w -> exists c t, joinc (w :: ws) ++ rest = c :: t /\ c <> COLON.
Proof. intros Hw. cbn. destruct ws; [by apply hex_not_colon|]. rewrite <- app_assoc. by apply hex_not_colon. Qed.

Lemma pton6_full ws : Forall is_word ws -> length ws = 8%nat -> inet_pton6 (joinc ws) = Ok (Some (flat ws)).
Proof.
  intros Hw Hl. destruct ws as [|w ws]; [done|]. pose proof Hw as Hw'. apply Forall_cons in Hw' as [H0 _].
  destruct (groups_run (w :: ws) (joinc (w :: ws)) [] None Hw) as (st & E & Hs & Hc & Ho); [done|cbn in *; lia|].
  unfold inet_pton6. destruct (joinc_not_colon w ws [] H0) as (c & t & Ej & Hne). rewrite app_nil_r in Ej. rewrite Ej in *.
  rewrite bool_decide_eq_false_2 by done. rewrite E. cbn. unfold pton6_end. rewrite Hs, Hc, Ho. cbn [app].
  pose proof (length_flat (w :: ws)) as Hf. apply (f_equal length) in Ho as Hlo. rewrite length_app in Hlo. cbn [length word_bytes app] in Hl, Hlo, Hf.
  unfold IN6ADDRSZ, INT16SZ. rewrite bool_decide_eq_false_2 by lia.
  rewrite bool_decide_eq_false_2; [done|]. intros Hn. apply Hn. lia.
Qed.

(** An address that starts with a double colon: the loop starts at the second
    one, as it does after groups. *)
Lemma pton6_start pre rest :
  Forall is_word pre -> (length pre <= 7)%nat ->
  inet_pton6 (joinc pre ++ COLON :: COLON :: rest) =
    (st ← pton6_loop rest rest (flat pre) (Some (length (flat pre))) false 0 0; Ok (st ≫= pton6_end)).
Proof.
  intros Hw Hl. unfold inet_pton6. destruct pre as [|w pre]; [done|]. pose proof Hw as Hw'. apply Forall_cons in Hw' as [H0 _].
  destruct (joinc_not_colon w pre (COLON :: COLON :: rest) H0) as (c & t & Ej & Hne).
  rewrite Ej at 1. rewrite bool_decide_eq_false_2 by done. rewrite groups_then; [|done|done|cbn in *; lia|done].
  by rewrite gap_run.
Qed.

Lemma pton6_gap pre post :
  Forall is_word pre -> Forall is_word post -> (length pre + length post < 8)%nat ->
  inet_pton6 (joinc pre ++ COLON :: COLON :: joinc post)
    = Ok (Some (flat pre ++ replicate (16 - length (flat pre ++ flat post)) 0 ++ flat post)).
Proof.
  intros Hpre Hpost Hl. rewrite pton6_start by (done || lia).
  pose proof (length_flat pre) as Hf1. pose proof (length_flat post) as Hf2. destruct post as [|w post].
  - cbn [joinc pton6_loop mbind res_bind option_bind].
    rewrite (pton6_end_gap _ (flat pre) (flat [])); [done|done|cbn [length] in *; lia|]. cbn [p6_saw p6_out]. by rewrite app_nil_r.
  - destruct (groups_run (w :: post) (joinc (w :: post)) (flat pre) (Some (length (flat pre))) Hpost) as (st & E & Hs & Hc & Ho); [done|lia|].
    rewrite E. cbn [mbind res_bind option_bind]. rewrite (pton6_end_gap st (flat pre) (flat (w :: post))); [done|done|lia|]. by rewrite Hs.
Qed.

(** A dotted quad at the end. *)
Lemma quad_run t b b0 t' cur out cp :
  t = dec b0 ++ DOT :: t' -> 0 <= b0 < 256 -> inet_pton4 t = Ok (Some b) -> (length out + 4 <= 16)%nat -> cur = t ->
  exists v, pton6_loop t cur out cp false 0 0 = Ok (Some (mkPton6 (out ++ b) cp false v)).
Proof.
  intros -> Hb E Hl ->. destruct (dec_byte b0 Hb) as (d & ds & _ & Ex & _ & Hlen).
  rewrite (group_run (dec b0) d ds) by (done || unfold zlen; lia). eexists. cbn [pton6_loop]. change (xdigit DOT) with (@None Z). cbn iota.
  rewrite bool_decide_eq_false_2 by done. rewrite (bool_decide_eq_true_2 (DOT = DOT)) by done. unfold INADDRSZ, IN6ADDRSZ.
  rewrite bool_decide_eq_true_2 by done. cbn [andb]. rewrite E. done.
Qed.

Lemma pton6_quad post t b b0 t' :
  Forall is_word post -> (length post <= 5)%nat -> length b = 4%nat ->
  t = dec b0 ++ DOT :: t' -> 0 <= b0 < 256 -> inet_pton4 t = Ok (Some b) ->
  inet_pton6 (COLON :: COLON :: match post with [] => t | _ => joinc post ++ COLON :: t end)
    = Ok (Some (replicate (16 - length (flat post ++ b)) 0 ++ flat post ++ b)).
Proof.
  intros Hw Hl Hb Ht H0 E. pose proof (length_flat post) as Hf. set (rest := match post with [] => t | _ => joinc post ++ COLON :: t end).
  assert (Hrun : exists v, pton6_loop rest rest [] (Some 0%nat) false 0 0 = Ok (Some (mkPton6 (flat post ++ b) (Some 0%nat) false v))).
  { unfold rest. destruct post as [|w post].
    - apply (quad_run t b b0 t'); auto. cbn. lia.
    - rewrite groups_then; [|done|done|cbn in *; lia|].
      + apply (quad_run t b b0 t'); auto. cbn [app]. rewrite Hf. lia.
      + rewrite Ht. by destruct (dec b0). }
  destruct Hrun as [v Hrun]. pose proof (pton6_start [] rest) as Hst. cbn [joinc app] in Hst. rewrite Hst by (done || cbn; lia).
  change (flat []) with (@nil Z). cbn [length]. rewrite Hrun.
  cbn [mbind res_bind option_bind]. rewrite (pton6_end_gap _ [] (flat post ++ b)); [done|done| |done]. rewrite length_app. cbn [length]. lia.
Qed.

(** ** The longest run of zeros *)

Definition zero_run (ws : list Z) (r : run) : Prop :=
  r_base r = -1 \/
  (0 <= r_base r /\ 1 <= r_len r /\ r_base r + r_len r <= zlen ws /\
   forall j : nat, r_base r <= Z.of_nat j < r_base r + r_len r -> ws !! j = Some 0).

Lemma better_ok ws best cur : zero_run ws best -> zero_run ws cur -> zero_run ws (better best cur).
Proof. intros. unfold better. by destruct (_ || _). Qed.

Lemma run_loop_ok full ws : forall pfx best cur,
  full = pfx ++ ws -> zero_run full best -> zero_run full cur -> (r_base cur = -1 \/ r_base cur + r_len cur = zlen pfx) ->
  zero_run full (run_loop ws (zlen pfx) best cur).
Proof.
  induction ws as [|w ws IH]; intros pfx best cur Hf Hb Hc He; cbn.
  { case_bool_decide; [by apply better_ok|done]. }
  assert (Hz : zlen pfx + 1 = zlen (pfx ++ [w])) by (by rewrite zlen_app). pose proof (zlen_nonneg pfx). pose proof (zlen_nonneg ws).
  assert (Hlen : zlen full = zlen pfx + 1 + zlen ws) by (rewrite Hf, zlen_app, zlen_cons; lia).
  rewrite Hz. case_bool_decide as Hw.
  - assert (Hw0 : full !! length pfx = Some 0) by (rewrite Hf, list_lookup_middle by done; by rewrite Hw).
    apply IH; [by rewrite <- app_assoc|done| |].
    + case_bool_decide as Hc1; right; cbn.
      * split_and!; try lia. intros j Hj. assert (j = length pfx) as -> by (unfold zlen in *; lia). done.
      * destruct Hc as [?|(H1 & H2 & H3 & H4)]; [done|]. destruct He as [?|He]; [done|]. split_and!; try lia.
        intros j Hj. destruct (decide (j = length pfx)) as [->|]; [done|]. apply H4. unfold zlen in *. lia.
    + case_bool_decide; cbn; rewrite <- Hz; [right; lia|]. destruct He as [?|He]; [done|right; lia].
  - case_bool_decide.
    + apply IH; [by rewrite <- app_assoc|by apply better_ok|by left|by left].
    + apply IH; [by rewrite <- app_assoc|done|done|]. left. lia.
Qed.

Lemma best_run_ok ws : zero_run ws (best_run ws).
Proof.
  unfold best_run. pose proof (run_loop_ok ws ws [] (mkRun (-1) (-1)) (mkRun (-1) (-1))) as H. change (zlen []) with 0 in H.
  destruct (_ && _); [by left|]. apply H; [done|by left..].
Qed.

(** ** Formatting *)

Definition seps (ws : list Z) : list Z := ws ≫= fun w => COLON :: hex w.

Lemma joinc_seps w ws : joinc (w :: ws) = hex w ++ seps ws.
Proof. revert w. induction ws as [|w' ws IH]; intros w; [cbn; by rewrite app_nil_r|]. change (joinc (w :: w' :: ws)) with (hex w ++ COLON :: joinc (w' :: ws)). by rewrite IH. Qed.

Lemma seps_joinc w ws : seps (w :: ws) = COLON :: joinc (w :: ws).
Proof. by rewrite joinc_seps. Qed.

Lemma hex_len w : is_word w -> 1 <= zlen (hex w) <= 4.
Proof. intros Hw. destruct (hex_word w Hw) as (d & ds & _ & _ & Hl). unfold zlen. lia. Qed.

Lemma put_ch_ok c out : zlen out + 1 < TMP6 -> put_ch c out = Some (out ++ [c]).
Proof. intros. unfold put_ch. by rewrite bool_decide_eq_false_2 by lia. Qed.

Section Format.
Context (src : list Z) (best : run).

(** A word outside of the run. *)
Lemma fmt_word w rest i out :
  is_word w -> 0 < i < 8 -> zlen out <= 5 * i + 1 -> in_run best i = false -> encapsulated best (word_at src 5) i = false ->
  fmt_loop src best (w :: rest) i out = fmt_loop src best rest (i + 1) (out ++ COLON :: hex w).
Proof.
  intros Hw Hi Ho Hr He. cbn [fmt_loop]. pose proof (hex_len w Hw). unfold TMP6. rewrite bool_decide_eq_true_2 by lia. cbn [negb].
  rewrite Hr. rewrite bool_decide_eq_true_2 by lia. rewrite put_ch_ok by (unfold TMP6; lia). cbn [mbind option_bind]. rewrite He.
  rewrite zlen_app, zlen_cons, zlen_nil. rewrite bool_decide_eq_false_2 by lia. by rewrite <- app_assoc.
Qed.

Lemma fmt_words ws : forall rest i out,
  Forall is_word ws -> 0 < i -> i + zlen ws <= 8 -> zlen out <= 5 * i + 1 ->
  (forall j, i <= j < i + zlen ws -> in_run best j = false /\ encapsulated best (word_at src 5) j = false) ->
  fmt_loop src best (ws ++ rest) i out = fmt_loop src best rest (i + zlen ws) (out ++ seps ws) /\ zlen (out ++ seps ws) <= 5 * (i + zlen ws) + 1.
Proof.
  induction ws as [|w ws IH]; intros rest i out Hw Hi Hl Ho Hj; [cbn; rewrite app_nil_r, Z.add_0_r; done|].
  apply Forall_cons in Hw as [Hw Hws]. rewrite zlen_cons in *. pose proof (zlen_nonneg ws). pose proof (hex_len w Hw).
  destruct (Hj i) as [Hr He]; [lia|]. cbn [app]. rewrite fmt_word by (done || lia).
  assert (E : (out ++ COLON :: hex w) ++ seps ws = out ++ seps (w :: ws)) by (by rewrite <- app_assoc).
  destruct (IH rest (i + 1) (out ++ COLON :: hex w)) as [H1 H2]; auto; try lia.
  - rewrite zlen_app, zlen_cons. lia.
  - intros j Hj'. apply Hj. lia.
  - rewrite E in *. rewrite H1. split; [f_equal; lia|lia].
Qed.

(** The run itself. *)
Lemma fmt_run k rest out :
  0 <= r_base best <= 7 -> (0 < k)%nat -> Z.of_nat k = r_len best -> zlen out + 1 < TMP6 ->
  fmt_loop src best (replicate k 0 ++ rest) (r_base best) out = fmt_loop src best rest (r_base best + r_len best) (out ++ [COLON]).
Proof.
  intros Hb Hk Hl Ho.
  assert (Hin : forall j, r_base best <= j < r_base best + r_len best -> in_run best j = true).
  { intros j Hj. unfold in_run. rewrite !bool_decide_eq_true_2 by lia. done. }
  assert (Hskip : forall k' i out, r_base best < i -> i + Z.of_nat k' = r_base best + r_len best -> zlen out < TMP6 ->
    fmt_loop src best (replicate k' 0 ++ rest) i out = fmt_loop src best rest (r_base best + r_len best) out).
  { induction k' as [|k' IH]; intros i out' Hi Hk' Hz; [cbn; f_equal; lia|]. cbn [replicate app fmt_loop].
    rewrite bool_decide_eq_true_2 by done. cbn [negb]. rewrite Hin by lia. rewrite bool_decide_eq_false_2 by lia. apply IH; lia. }
  destruct k as [|k]; [lia|]. cbn [replicate app fmt_loop]. rewrite bool_decide_eq_true_2 by lia. cbn [negb]. rewrite Hin by lia.
  rewrite bool_decide_eq_true_2 by done. rewrite put_ch_ok by done. cbn [mbind option_bind].
  apply Hskip; [lia|lia|]. rewrite zlen_app, zlen_cons, zlen_nil. lia.
Qed.

(** Words before the run, from the first one. *)
Lemma fmt_first pre rest :
  Forall is_word pre -> zlen pre <= 8 ->
  (forall j, 0 <= j < zlen pre -> in_run best j = false /\ encapsulated best (word_at src 5) j = false) ->
  fmt_loop src best (pre ++ rest) 0 [] = fmt_loop src best rest (zlen pre) (joinc pre) /\ zlen (joinc pre) <= 5 * zlen pre + 1.
Proof.
  intros Hw Hl Hj. destruct pre as [|w pre]; [done|]. apply Forall_cons in Hw as [Hw Hws]. rewrite zlen_cons in *.
  pose proof (zlen_nonneg pre). pose proof (hex_len w Hw). destruct (Hj 0) as [Hr He]; [lia|]. rewrite joinc_seps.
  destruct (fmt_words pre rest 1 (hex w)) as [H1 H2]; auto; try lia.
  { intros j Hj'. apply Hj. lia. }
  cbn [app fmt_loop]. change (zlen []) with 0. rewrite (bool_decide_eq_true_2 (0 < TMP6)) by done. cbn [negb]. rewrite Hr.
  rewrite (bool_decide_eq_false_2 (0 <> 0)) by lia. cbn [mbind option_bind]. rewrite He. change (zlen []) with 0. unfold TMP6.
  rewrite bool_decide_eq_false_2 by lia. cbn [app]. rewrite Z.add_0_l, H1. split; [done|lia].
Qed.
End Format.

(** ** Words of an address *)

Lemma word_bytes_of a b : 0 <= a < 256 -> 0 <= b < 256 ->
  is_word (Z.lor (Z.shiftl a 8) b) /\ word_bytes (Z.lor (Z.shiftl a 8) b) = [a; b].
Proof.
  intros Ha Hb. assert (E : Z.lor (Z.shiftl a 8) b = a * 256 + b).
  { rewrite <- Z.lxor_lor, <- Z.add_nocarry_lxor; [by rewrite Z.shiftl_mul_pow2|..].
    all: apply Z.bits_inj'; intros i Hi; rewrite Z.land_spec, Z.bits_0; destruct (decide (i < 8)).
    all: try by rewrite Z.shiftl_spec_low.
    all: rewrite andb_comm; apply andb_false_intro1; destruct (decide (b = 0)) as [->|]; [apply Z.bits_0|].
    all: apply Z.bits_above_log2; [lia|]; pose proof (Z.log2_le_mono b 255); change (Z.log2 255) with 7 in *; lia. }
  rewrite E. split; [unfold is_word; lia|]. unfold word_bytes. change 255 with (Z.ones 8). rewrite !Z.land_ones by lia.
  rewrite Z.shiftr_div_pow2 by lia. change (2 ^ 8) with 256. rewrite Z.div_add_l, Z.div_small by lia.
  rewrite (Z.add_comm (a * 256)), Z.mod_add, !Z.mod_small by lia. by rewrite Z.add_0_r.
Qed.

Lemma words_ok src : bytes_of 16 src -> Forall is_word (words_of src) /\ flat (words_of src) = src /\ length (words_of src) = 8%nat.
Proof.
  intros [Hl Hb]. do 17 (destruct src as [|? src]; try done). clear Hl. rewrite !Forall_cons in Hb. destruct_and! Hb.
  unfold words_of, word_at. cbn [map seq nth Nat.mul Nat.add].
  repeat match goal with
  | |- context [Z.lor (Z.shiftl ?a 8) ?b] =>
      destruct (word_bytes_of a b) as [? ?]; [done|done|]; generalize dependent (Z.lor (Z.shiftl a 8) b); intros
  end.
  split; [|split; [|done]].
  - repeat (apply Forall_cons; split; [done|]). by apply Forall_nil.
  - unfold flat. rewrite !bind_cons. by repeat match goal with E : word_bytes _ = _ |- _ => rewrite E; clear E end.
Qed.

Lemma flat_app l l' : flat (l ++ l') = flat l ++ flat l'.
Proof. apply bind_app. Qed.

Lemma flat_zeros n : flat (replicate n 0) = replicate (2 * n) 0.
Proof. induction n as [|n IH]; [done|]. replace (2 * S n)%nat with (S (S (2 * n))) by lia. cbn. f_equal. f_equal. exact IH. Qed.

(** The words around a run of zeros. *)
Lemma split_run ws r :
  zero_run ws r -> r_base r <> -1 ->
  forall b n, b = Z.to_nat (r_base r) -> n = Z.to_nat (r_len r) ->
  ws = take b ws ++ replicate n 0 ++ drop (b + n) ws /\ zlen (take b ws) = r_base r /\ (0 < n)%nat /\ Z.of_nat n = r_len r.
Proof.
  intros [?|(H1 & H2 & H3 & H4)] Hne b n Eb En; [done|]. unfold zlen in *.
  assert (Hb : (b + n <= length ws)%nat) by lia. split; [|split; [rewrite length_take; lia|lia]].
  rewrite <- (take_drop b ws) at 1. f_equal. rewrite <- (take_drop n (drop b ws)) at 1. rewrite drop_drop. f_equal.
  apply list_eq. intros i. destruct (decide (i < n)%nat).
  - rewrite lookup_take_lt by done. rewrite lookup_drop, lookup_replicate_2 by done. apply H4. lia.
  - rewrite !lookup_ge_None_2; [done|rewrite length_replicate; lia|rewrite length_take; lia].
Qed.

(** ** Reading back *)

Lemma outside_run best j : j < r_base best \/ r_base best + r_len best <= j \/ r_base best = -1 -> in_run best j = false.
Proof.
  intros Hj. unfold in_run. apply andb_false_iff. destruct Hj as [Hj|[Hj|Hj]].
  - left. apply andb_false_iff. right. apply bool_decide_eq_false_2. lia.
  - right. apply bool_decide_eq_false_2. lia.
  - left. apply andb_false_iff. left. apply bool_decide_eq_false_2. lia.
Qed.

Definition quad_at_end (best : run) (word5 : Z) : bool :=
  bool_decide (r_base best = 0) && (bool_decide (r_len best = 6) || bool_decide (r_len best = 5) && bool_decide (word5 = 65535)).

Lemma encapsulated_false best w5 j : quad_at_end best w5 = false \/ j <> 6 -> encapsulated best w5 j = false.
Proof.
  intros Hj. unfold encapsulated, quad_at_end in *. destruct (decide (j = 6)) as [->|]; [|by rewrite bool_decide_eq_false_2].
  rewrite (bool_decide_eq_true_2 (6 = 6)) by done. destruct Hj; [done|lia].
Qed.

(** The text that comes out of the loop and the final colon. *)
Definition finish (best : run) (out : list Z) : option (list Z) :=
  if bool_decide (r_base best <> -1) && bool_decide (r_base best + r_len best = 8) then put_ch COLON out else Some out.

Lemma fmt_no_run src best ws :
  r_base best = -1 -> Forall is_word ws -> zlen ws = 8 -> fmt_loop src best ws 0 [] = Some (joinc ws) /\ zlen (joinc ws) <= 41.
Proof.
  intros Hb Hw Hl. destruct (fmt_first src best ws []) as [H1 H2]; [done|lia| |].
  - intros j Hj. split; [apply outside_run; auto|]. apply encapsulated_false. left. unfold quad_at_end. by rewrite bool_decide_eq_false_2 by lia.
  - rewrite app_nil_r in H1. rewrite H1. split; [done|lia].
Qed.

Lemma fmt_gap src best pre post :
  r_base best = zlen pre -> 1 <= r_len best -> zlen pre + r_len best + zlen post = 8 -> Forall is_word pre -> Forall is_word post ->
  quad_at_end best (word_at src 5) = false ->
  exists out, fmt_loop src best (pre ++ replicate (Z.to_nat (r_len best)) 0 ++ post) 0 [] = Some out /\
    finish best out = Some (joinc pre ++ COLON :: COLON :: joinc post) /\ zlen (joinc pre ++ COLON :: COLON :: joinc post) < 45.
Proof.
  intros Hb Hn Hl Hpre Hpost Hq. pose proof (zlen_nonneg pre). pose proof (zlen_nonneg post).
  destruct (fmt_first src best pre (replicate (Z.to_nat (r_len best)) 0 ++ post)) as [H1 L1]; [done|lia| |].
  { intros j Hj. split; [apply outside_run; lia|]. apply encapsulated_false. by left. }
  rewrite H1, <- Hb. rewrite fmt_run by (unfold TMP6; lia).
  destruct (fmt_words src best post [] (r_base best + r_len best) (joinc pre ++ [COLON])) as [H2 L2]; [done|lia|lia| |..].
  { rewrite zlen_app, zlen_cons, zlen_nil. lia. }
  { intros j Hj. split; [apply outside_run; lia|]. apply encapsulated_false. by left. }
  rewrite app_nil_r in H2. rewrite H2. eexists. split; [done|]. unfold finish. rewrite (bool_decide_eq_true_2 (_ <> -1)) by lia.
  destruct post as [|w post].
  - rewrite zlen_nil in Hl, L2. rewrite bool_decide_eq_true_2 by lia. cbn [andb]. change (seps []) with (@nil Z) in *.
    rewrite app_nil_r in L2 |- *. rewrite put_ch_ok by (unfold TMP6; lia). split; [by rewrite <- app_assoc|].
    rewrite zlen_app in L2 |- *. cbn [joinc]. rewrite !zlen_cons, zlen_nil in *. lia.
  - rewrite zlen_cons in *. pose proof (zlen_nonneg post). rewrite bool_decide_eq_false_2 by lia. cbn [andb].
    rewrite seps_joinc, <- app_assoc in *. split; [done|]. cbn [app] in L2. lia.
Qed.

Lemma fmt_quad src best mid w6 w7 t :
  r_base best = 0 -> r_len best = 6 - zlen mid -> zlen mid <= 1 -> Forall is_word mid ->
  quad_at_end best (word_at src 5) = true -> inet_ntop4 (drop 12 src) (46 - zlen (COLON :: COLON :: match mid with [] => [] | _ => joinc mid ++ [COLON] end)) = Some t ->
  fmt_loop src best (replicate (Z.to_nat (r_len best)) 0 ++ mid ++ [w6; w7]) 0 []
    = Some (COLON :: COLON :: match mid with [] => t | _ => joinc mid ++ COLON :: t end).
Proof.
  intros Hb Hn Hm Hw Hq Ht. pose proof (zlen_nonneg mid). rewrite <- Hb at 2. rewrite fmt_run by (unfold TMP6; rewrite ?zlen_nil; lia).
  destruct (fmt_words src best mid [w6; w7] (r_base best + r_len best) ([] ++ [COLON])) as [H2 L2]; [done|lia|lia| |..].
  { rewrite Hb, Hn. cbn [app]. rewrite zlen_cons, zlen_nil. lia. }
  { intros j Hj. split; [apply outside_run; lia|]. apply encapsulated_false. right. lia. }
  rewrite H2. replace (r_base best + r_len best + zlen mid) with 6 by lia. cbn [fmt_loop app].
  set (out := COLON :: seps mid). assert (Ho : zlen out <= 6).
  { unfold out. destruct mid as [|m [|m' l]]; [done| |rewrite !zlen_cons in *; pose proof (zlen_nonneg l); lia].
    apply Forall_cons in Hw as [Hw _]. pose proof (hex_len m Hw). rewrite seps_joinc. cbn [joinc]. rewrite !zlen_cons. lia. }
  unfold TMP6. rewrite bool_decide_eq_true_2 by lia. cbn [negb]. rewrite outside_run by lia. rewrite (bool_decide_eq_true_2 (6 <> 0)) by lia.
  rewrite put_ch_ok by (unfold TMP6; lia). cbn [mbind option_bind].
  assert (He : encapsulated best (word_at src 5) 6 = true) by exact Hq. rewrite He.
  assert (Eo : out ++ [COLON] = COLON :: COLON :: match mid with [] => [] | _ => joinc mid ++ [COLON] end).
  { unfold out. destruct mid as [|m mid]; [done|]. by rewrite seps_joinc. }
  rewrite Eo, Ht. cbn. destruct mid; [done|]. by rewrite <- app_assoc.
Qed.

(** An address with an IPv4 address at its end. *)
Lemma ntop6_quad src size best mid w6 w7 :
  bytes_of 16 src -> 46 <= size -> best = best_run (words_of src) ->
  words_of src = replicate (Z.to_nat (r_len best)) 0 ++ mid ++ [w6; w7] ->
  r_base best = 0 -> r_len best = 6 - zlen mid -> zlen mid <= 1 -> Forall is_word mid ->
  quad_at_end best (word_at src 5) = true ->
  src = replicate (2 * Z.to_nat (r_len best)) 0 ++ flat mid ++ drop 12 src ->
  exists t, inet_ntop6 src size = Some t /\ zlen t <= 45 /\ inet_pton6 t = Ok (Some src).
Proof.
  intros [Hl Hb] Hsz Ebest Ews Hb0 Hlm Hm Hmid Hq Esrc. pose proof (zlen_nonneg mid).
  set (pfx := COLON :: COLON :: match mid with [] => [] | _ => joinc mid ++ [COLON] end).
  assert (Hp : 2 <= zlen pfx <= 7).
  { unfold pfx. destruct mid as [|m [|m' l]]; [done| |rewrite !zlen_cons in *; pose proof (zlen_nonneg l); lia].
    apply Forall_cons in Hmid as [Hw _]. pose proof (hex_len m Hw). cbn [joinc]. rewrite !zlen_cons, zlen_app, zlen_cons, zlen_nil. lia. }
  assert (H4 : bytes_of 4 (drop 12 src)) by (split; [rewrite length_drop; lia|by apply Forall_drop]).
  destruct (ntop4_run (drop 12 src) (46 - zlen pfx) H4) as (t & Et & Lt & Ep & b0 & t' & Ett & Hb0'); [lia|].
  pose proof (fmt_quad src best mid w6 w7 t Hb0 Hlm Hm Hmid Hq Et) as Ef. rewrite <- Ews in Ef.
  set (text := COLON :: COLON :: match mid with [] => t | _ => joinc mid ++ COLON :: t end) in *.
  assert (Htext : text = pfx ++ t) by (unfold text, pfx; destruct mid; [done|]; cbn; by rewrite <- app_assoc).
  assert (Lx : zlen text <= 22) by (rewrite Htext, zlen_app; lia).
  exists text. split; [|split; [lia|]].
  - unfold inet_ntop6. rewrite <- Ebest, Ef. cbn [mbind option_bind]. rewrite (bool_decide_eq_false_2 (r_base best + r_len best = 8)) by lia.
    rewrite andb_false_r. cbn [mbind option_bind]. unfold TMP6. by rewrite !bool_decide_eq_false_2 by lia.
  - unfold text. rewrite (pton6_quad mid t (drop 12 src) b0 t'); auto; [|unfold zlen in *; lia|by destruct H4].
    do 2 f_equal. rewrite Esrc at 3. f_equal. f_equal. rewrite length_app, length_flat. destruct H4 as [-> _]. unfold zlen in *. lia.
Qed.

Lemma quad_at_end_inv best w :
  quad_at_end best w = true -> r_base best = 0 /\ (r_len best = 6 \/ r_len best = 5).
Proof.
  unfold quad_at_end. generalize (bool_decide (w = 65535)). intros c. rewrite andb_true_iff, orb_true_iff, andb_true_iff, !bool_decide_eq_true. tauto.
Qed.

(** The last part of the formatting: what the loop wrote, closed and copied out. *)
Lemma ntop6_done src size best out t :
  best = best_run (words_of src) -> 46 <= size -> fmt_loop src best (words_of src) 0 [] = Some out -> finish best out = Some t ->
  zlen t < 45 -> inet_ntop6 src size = Some t.
Proof.
  intros Ebest Hsz E1 E2 Hlt. unfold inet_ntop6. rewrite <- Ebest, E1. cbn [mbind option_bind].
  unfold finish in E2. rewrite E2. cbn [mbind option_bind]. unfold TMP6. by rewrite !bool_decide_eq_false_2 by lia.
Qed.

Lemma quad_tail best (post : list Z) :
  r_len best + zlen post = 8 -> r_len best = 6 \/ r_len best = 5 ->
  exists mid w6 w7, post = mid ++ [w6; w7] /\ r_len best = 6 - zlen mid /\ zlen mid <= 1.
Proof.
  intros Hlen [H|H]; unfold zlen in *.
  - destruct post as [|w6 [|w7 [|? ?]]]; cbn [length] in *; try lia. exists [], w6, w7. cbn. split_and!; auto; lia.
  - destruct post as [|w5 [|w6 [|w7 [|? ?]]]]; cbn [length] in *; try lia. exists [w5], w6, w7. cbn. split_and!; auto; lia.
Qed.

(** An address with a run of zero words that is written as a double colon. *)
Lemma ntop6_run src size best n pre post :
  bytes_of 16 src -> 46 <= size -> best = best_run (words_of src) -> n = Z.to_nat (r_len best) ->
  words_of src = pre ++ replicate n 0 ++ post -> src = flat pre ++ replicate (2 * n) 0 ++ flat post ->
  r_base best = zlen pre -> 1 <= r_len best -> zlen pre + r_len best + zlen post = 8 -> Forall is_word pre -> Forall is_word post ->
  exists t, inet_ntop6 src size = Some t /\ zlen t <= 45 /\ inet_pton6 t = Ok (Some src).
Proof.
  intros Hs Hsz Ebest Hn Ews Esrc Hb Hr Hlen Hpre Hpost. destruct (quad_at_end best (word_at src 5)) eqn:Hq.
  - destruct (quad_at_end_inv _ _ Hq) as [Hb0 Hlen']. assert (Epre : pre = []) by (apply length_zero_iff_nil; unfold zlen in *; lia).
    destruct (quad_tail best post) as (mid & w6 & w7 & Epost & Hlm & Hm); [unfold zlen in *; lia|done|]. subst pre post.
    apply Forall_app in Hpost as [Hmid _]. rewrite app_nil_l in Ews. change (flat []) with (@nil Z) in Esrc. rewrite app_nil_l, flat_app in Esrc.
    assert (Hb4 : drop 12 src = flat [w6; w7]).
    { rewrite Esrc at 1. rewrite app_assoc, drop_app_length'; [done|].
      rewrite length_app, length_replicate, length_flat. unfold zlen in *. lia. }
    subst n. apply (ntop6_quad src size best mid w6 w7); try done. rewrite Hb4. done.
  - destruct (fmt_gap src best pre post) as (out & E & Ef & L); [done..|]. rewrite <- Hn, <- Ews in E.
    exists (joinc pre ++ COLON :: COLON :: joinc post). split; [by apply (ntop6_done src size best out)|split; [lia|]].
    rewrite pton6_gap by (done || unfold zlen in *; lia). rewrite Esrc at 1. do 5 f_equal.
    rewrite length_app, !length_flat. unfold zlen in *. lia.
Qed.

Lemma run_lengths (ws pre post : list Z) n :
  ws = pre ++ replicate n 0 ++ post -> length ws = 8%nat -> zlen pre + Z.of_nat n + zlen post = 8.
Proof. intros -> H. rewrite !length_app, length_replicate in H. unfold zlen. lia. Qed.

Lemma ntop6_back src size :
  bytes_of 16 src -> 46 <= size ->
  exists t, inet_ntop6 src size = Some t /\ zlen t <= 45 /\ inet_pton6 t = Ok (Some src).
Proof.
  intros Hs Hsz. destruct (words_ok src Hs) as (Hw & Hf & Hl).
  pose proof (best_run_ok (words_of src)) as Hz. remember (best_run (words_of src)) as best eqn:Ebest.
  destruct (decide (r_base best = -1)) as [Hb|Hb].
  - destruct (fmt_no_run src best (words_of src)) as [E L]; [done|done|unfold zlen; lia|].
    exists (joinc (words_of src)). split; [apply (ntop6_done src size best (joinc (words_of src))); try done; try lia|split; [lia|]].
    + unfold finish. by rewrite bool_decide_eq_false_2 by lia.
    + rewrite pton6_full by done. by rewrite Hf.
  - remember (Z.to_nat (r_base best)) as b eqn:Eb. remember (Z.to_nat (r_len best)) as n eqn:En.
    destruct (split_run _ best Hz Hb b n Eb En) as (Ews & Hpl & Hn & Hnl).
    apply (ntop6_run src size best n (take b (words_of src)) (drop (b + n) (words_of src)) Hs Hsz Ebest En Ews); [|done|lia| |by apply Forall_take|by apply Forall_drop].
    + rewrite <- Hf at 1. rewrite Ews at 1. by rewrite !flat_app, flat_zeros.
    + rewrite <- Hnl. by apply (run_lengths (words_of src)).
Qed.

(** ** Reading any text *)

Definition addr_size (af : family) : nat := match af with AF_INET => INADDRSZ | AF_INET6 => IN6ADDRSZ end.

Lemma pton4_loop_safe src : forall done cur saw octets,
  Forall (fun b => 0 <= b < 256) done -> 0 <= cur < 256 -> (length done <= 3)%nat ->
  octets = zlen done + (if saw : bool then 1 else 0) ->
  exists r, pton4_loop src done cur saw octets = Ok r /\ forall b, r = Some b -> bytes_of 4 b.
Proof.
  induction src as [|ch src IH]; intros done cur saw octets Hd Hc Hl Ho; cbn [pton4_loop].
  - case_bool_decide; [by eexists|]. eexists. split; [done|]. intros b [= <-]. unfold zlen in *. split.
    + rewrite length_app. destruct saw; cbn; lia.
    + apply Forall_app. split; [done|]. by apply Forall_singleton.
  - destruct (digit ch) as [d|] eqn:Ed.
    + apply digit_range in Ed. case_bool_decide; [by eexists|]. unfold zlen in *. destruct saw; cbn [negb]; [apply IH; auto; lia|].
      case_bool_decide; [by eexists|]. apply IH; auto; lia.
    + destruct saw; [rewrite andb_true_r|rewrite andb_false_r; by eexists]. case_bool_decide; [|by eexists]. case_bool_decide; [by eexists|].
      unfold zlen in *. rewrite bool_decide_eq_true_2 by (unfold INADDRSZ; lia).
      apply IH; [apply Forall_app; split; [done|by apply Forall_singleton]|lia|rewrite length_app; cbn; lia|].
      rewrite length_app; cbn; lia.
Qed.

Lemma inet_pton4_safe src : exists r, inet_pton4 src = Ok r /\ forall b, r = Some b -> bytes_of 4 b.
Proof. apply pton4_loop_safe; [by apply Forall_nil|lia|cbn; lia|done]. Qed.

Lemma word_bytes_ok v : Forall (fun b => 0 <= b < 256) (word_bytes v).
Proof.
  assert (H : forall x, 0 <= Z.land x 255 < 256).
  { intros x. change 255 with (Z.ones 8). rewrite Z.land_ones by lia. apply Z.mod_pos_bound. lia. }
  unfold word_bytes. repeat (apply Forall_cons; split; [apply H|]). by apply Forall_nil.
Qed.

(** What the loop of inet_pton6 leaves: bytes within tmp, and colonp at or before tp. *)
Definition pton6_wf (out : list Z) (colonp : option nat) : Prop :=
  (length out <= 16)%nat /\ Forall (fun b => 0 <= b < 256) out /\ forall c, colonp = Some c -> (c <= length out)%nat.

Lemma pton6_wf_app out l cp :
  pton6_wf out cp -> Forall (fun b => 0 <= b < 256) l -> (length out + length l <= 16)%nat -> pton6_wf (out ++ l) cp.
Proof.
  intros (H1 & H2 & H3) Hl Hn. split; [rewrite length_app; lia|split; [by apply Forall_app|]].
  intros c Hc. apply H3 in Hc. rewrite length_app. lia.
Qed.

Lemma pton6_loop_safe src : forall cur out cp saw count v,
  pton6_wf out cp ->
  exists r, pton6_loop src cur out cp saw count v = Ok r /\ forall st, r = Some st -> pton6_wf (p6_out st) (p6_colonp st).
Proof.
  induction src as [|ch src IH]; intros cur out cp saw count v Hwf; cbn [pton6_loop].
  - eexists. split; [done|]. by intros st [= <-].
  - destruct (xdigit ch) as [d|]; [repeat (case_bool_decide; [by eexists|]); by apply IH|].
    case_bool_decide.
    + destruct saw; cbn [negb].
      * case_bool_decide; [by eexists|]. case_bool_decide as Hr; [by eexists|]. apply IH, pton6_wf_app; [done|apply word_bytes_ok|].
        unfold IN6ADDRSZ, INT16SZ in Hr. cbn [word_bytes length]. lia.
      * destruct cp; [by eexists|]. apply IH. destruct Hwf as (? & ? & ?). split_and!; auto. intros c [= <-]. lia.
    + destruct (bool_decide (ch = DOT)); cbn [andb]; [|by eexists]. case_bool_decide as Hr; [|by eexists].
      destruct (inet_pton4_safe cur) as (r & -> & Hb). cbn. destruct r as [b|]; [|by eexists]. eexists. split; [done|].
      intros st [= <-]. destruct (Hb b eq_refl) as [Hl Hf]. cbn. apply pton6_wf_app; auto. unfold INADDRSZ, IN6ADDRSZ in Hr. lia.
Qed.

Lemma shift_loop_bytes k : forall tmp c n i, bytes_of 16 tmp -> bytes_of 16 (shift_loop tmp c n i k).
Proof.
  induction k as [|k IH]; intros tmp c n i [Hl Hf]; cbn [shift_loop]; [done|]. apply IH. split; [by rewrite !length_insert|].
  apply Forall_insert; [|lia]. apply Forall_insert; [done|].
  destruct (nth_in_or_default (c + n - i) tmp 0) as [Hin| ->]; [|lia]. rewrite Forall_forall in Hf. by apply Hf, list_elem_of_In.
Qed.

Lemma pton6_end_safe st b : pton6_wf (p6_out st) (p6_colonp st) -> pton6_end st = Some b -> bytes_of 16 b.
Proof.
  intros Hwf. unfold pton6_end.
  assert (Hpad : forall out cp, pton6_wf out cp -> bytes_of 16 (out ++ replicate (IN6ADDRSZ - length out) 0)).
  { intros out cp (H1 & H2 & _). split; [rewrite length_app, length_replicate; unfold IN6ADDRSZ; lia|].
    apply Forall_app. split; [done|]. apply Forall_replicate. lia. }
  assert (Hfin : forall out, pton6_wf out (p6_colonp st) ->
    match p6_colonp st with
    | Some c => if bool_decide (length out = IN6ADDRSZ) then None
                else Some (shift_loop (out ++ replicate (IN6ADDRSZ - length out) 0) c (length out - c) 1 (length out - c))
    | None => if bool_decide (length out <> IN6ADDRSZ) then None else Some out
    end = Some b -> bytes_of 16 b).
  { intros out Ho. destruct (p6_colonp st); case_bool_decide; try done; intros [= <-].
    - eapply shift_loop_bytes, Hpad, Ho.
    - destruct Ho as (? & ? & _). split; [unfold IN6ADDRSZ in *; lia|done]. }
  destruct (p6_saw st); [case_bool_decide as Hr; [done|]|]; apply Hfin; [|done].
  apply pton6_wf_app; [done|apply word_bytes_ok|]. unfold IN6ADDRSZ, INT16SZ in Hr. cbn [word_bytes length]. lia.
Qed.

Lemma inet_pton6_safe src : exists r, inet_pton6 src = Ok r /\ forall b, r = Some b -> bytes_of 16 b.
Proof.
  assert (Hloop : forall s, exists r, (st ← pton6_loop s s [] None false 0 0; Ok (st ≫= pton6_end)) = Ok r /\ forall b, r = Some b -> bytes_of 16 b).
  { intros s. destruct (pton6_loop_safe s s [] None false 0 0) as (r & -> & Hr).
    { split; [cbn; lia|split; [by apply Forall_nil|done]]. }
    cbn [mbind]. eexists. split; [done|]. intros b Hb. destruct r as [st|]; [|done]. eapply pton6_end_safe, Hb. by apply Hr. }
  unfold inet_pton6. destruct src as [|ch [|ch' src]]; [apply Hloop|..]; repeat case_bool_decide; try apply Hloop; by eexists.
Qed.

Lemma inet_pton_safe af src : exists r, inet_pton af src = Ok r /\ forall b, r = Some b -> bytes_of (addr_size af) b.
Proof. destruct af; [apply inet_pton4_safe|apply inet_pton6_safe]. Qed.

(** Inet_pton reads any text without leaving its local arrays, and what it
    accepts is an address of the family: four bytes or sixteen. *)
Theorem inet_pton_total (af : family) (src : list Z) :
  exists r, inet_pton af src = Ok r /\ forall b, r = Some b -> bytes_of (addr_size af) b.
Proof. apply inet_pton_safe. Qed.

(** The sizes of the buffers the callers use, INET_ADDRSTRLEN and
    INET6_ADDRSTRLEN. *)
Definition text_size (af : family) : Z := match af with AF_INET => 16 | AF_INET6 => 46 end.

(** C22: an address of either family, written by inet_ntop into a buffer of the
    family's size, fits in it with its NUL and reads back through inet_pton as
    the same address: the run of zeros chosen for the double colon, the dotted
    quad at the end and the shift by hand are inverse to each other. *)
Theorem address_text_round_trip (af : family) (src : list Z) (size : Z) :
  bytes_of (addr_size af) src -> text_size af <= size ->
  exists t, inet_ntop af src size = Some t /\ zlen t < text_size af /\ inet_pton af t = Ok (Some src).
Proof.
  intros Hs Hsz. unfold inet_ntop. rewrite bool_decide_eq_false_2 by (destruct af; cbn in Hsz; lia). destruct af; cbn [text_size] in *.
  - destruct (ntop4_run src size Hs) as (t & H1 & H2 & H3 & _); [lia|]. exists t. split; [done|split; [lia|done]].
  - destruct (ntop6_back src size Hs) as (t & H1 & H2 & H3); [lia|]. exists t. split; [done|split; [lia|done]].
Qed.

(** ::ffff:192.0.2.1 *)
Definition mapped_address : list Z := replicate 10 0 ++ [255; 255; 192; 0; 2; 1].

Lemma address_text_round_trip_witness :
  exists t, inet_ntop AF_INET6 mapped_address 46 = Some t /\ zlen t < 46 /\ inet_pton AF_INET6 t = Ok (Some mapped_address).
Proof.
  apply (address_text_round_trip AF_INET6); [|cbn; lia]. split; [done|]. apply (bool_decide_unpack _). by vm_compute.
Defined.

Example mapped_address_text :
  inet_ntop AF_INET6 mapped_address 46 = Some (str "::ffff:192.0.2.1").
Proof. by vm_compute. Qed.
