(* ===== verification/Base64.v ===== *)
(** * Base64 (src/common/base64.c)

    Encoding and decoding into buffers of a given length.  A text is a list of
    byte values; the answer -1 is None.  A store is made after the test of the
    room, so the buffer is what was written.

    What is encoded decodes to the same bytes, into buffers of the lengths the
    code computes for them. *)

From S2P Require Import Prelude.
From stdpp Require Import base option list strings.
#[local] Open Scope Z_scope.

Definition _base64 : list Z := str "ABCDEFGHIJKLMNOPQRSTUVWXYZabcdefghijklmnopqrstuvwxyz0123456789+/".

Definition b64lookup : list Z :=
  replicate 43 (-1) ++ [62; -1; -1; -1; 63; 52; 53; 54; 55; 56; 57; 58; 59; 60; 61] ++ replicate 7 (-1) ++
  [0; 1; 2; 3; 4; 5; 6; 7; 8; 9; 10; 11; 12; 13; 14; 15; 16; 17; 18; 19; 20; 21; 22; 23; 24; 25] ++ replicate 6 (-1) ++
  [26; 27; 28; 29; 30; 31; 32; 33; 34; 35; 36; 37; 38; 39; 40; 41; 42; 43; 44; 45; 46; 47; 48; 49; 50; 51] ++ replicate 5 (-1).

(** _base64[n & 0x3f] *)
Definition sextet (n : Z) : Z := nth (Z.to_nat (Z.land n 63)) _base64 0.

Fixpoint encode_loop (src out : list Z) (pos buf dstlen : Z) : option (list Z * Z * Z) :=
  match src with
  | [] => Some (out, pos, buf)
  | c :: src =>
      let buf := Z.lor buf (Z.shiftl c (Z.shiftl pos 3)) in
      let pos := pos - 1 in
      if bool_decide (pos < 0) then
        if bool_decide (zlen out + 4 > dstlen) then None
        else encode_loop src (out ++ [sextet (Z.shiftr buf 18); sextet (Z.shiftr buf 12); sextet (Z.shiftr buf 6); sextet buf]) 2 0 dstlen
      else encode_loop src out pos buf dstlen
  end.

(** The last group, padded. *)
Definition encode_tail (dstlen : Z) (st : list Z * Z * Z) : option (list Z) :=
  let '(out, pos, buf) := st in
  if bool_decide (pos <> 2) then
    if bool_decide (zlen out + 4 > dstlen) then None
    else Some (out ++ [sextet (Z.shiftr buf 18); sextet (Z.shiftr buf 12); if bool_decide (pos = 0) then sextet (Z.shiftr buf 6) else 61; 61])
  else Some out.

Definition pg_b64_encode (src : list Z) (dstlen : Z) : option (list Z) :=
  st ← encode_loop src [] 2 0 dstlen; encode_tail dstlen st.

(** The value of a symbol, -1 if it is none. *)
Definition symbol (c : Z) : Z := if bool_decide (0 < c < 127) then nth (Z.to_nat c) b64lookup (-1) else -1.

(** The bytes of a group of four; [fin] is the variable end. *)
Definition put_group (out : list Z) (buf fin dstlen : Z) : option (list Z) :=
  let put (b : Z) (out : list Z) := if bool_decide (zlen out + 1 > dstlen) then None else Some (out ++ [b]) in
  out ← put (Z.land (Z.shiftr buf 16) 255) out;
  out ← (if bool_decide (fin = 0) || bool_decide (fin > 1) then put (Z.land (Z.shiftr buf 8) 255) out else Some out);
  if bool_decide (fin = 0) || bool_decide (fin > 2) then put (Z.land buf 255) out else Some out.

Fixpoint decode_loop (src out : list Z) (buf pos fin dstlen : Z) : option (list Z * Z) :=
  match src with
  | [] => Some (out, pos)
  | c :: src =>
      if bool_decide (c = 32) || bool_decide (c = 9) || bool_decide (c = 10) || bool_decide (c = 13) then None
      else
        '(b, fin) ←
          (if bool_decide (c = 61) then
             if bool_decide (fin = 0) then
               if bool_decide (pos = 2) then Some (0, 1) else if bool_decide (pos = 3) then Some (0, 2) else None
             else Some (0, fin)
           else if bool_decide (symbol c < 0) then None else Some (symbol c, fin));
        let buf := u32 (Z.shiftl buf 6 + b) in
        let pos := pos + 1 in
        if bool_decide (pos = 4) then
          out ← put_group out buf fin dstlen;
          decode_loop src out 0 0 fin dstlen
        else decode_loop src out buf pos fin dstlen
  end.

Definition pg_b64_decode (src : list Z) (dstlen : Z) : option (list Z) :=
  '(out, pos) ← decode_loop src [] 0 0 0 dstlen;
  if bool_decide (pos <> 0) then None else Some out.

Definition pg_b64_enc_len (srclen : Z) : Z := (srclen + 2) / 3 * 4.
Definition pg_b64_dec_len (srclen : Z) : Z := Z.shiftr (srclen * 3) 2.

(** ** Groups *)

#[local] Abbreviation is_byte b := (0 <= b < 256).

(** The symbols are none of the characters the decoder treats specially. *)
Definition plain (c : Z) : Prop := c <> 32 /\ c <> 9 /\ c <> 10 /\ c <> 13 /\ c <> 61 /\ c <> 44 /\ c <> 58 /\ 43 <= c <= 122.

#[local] Instance plain_dec c : Decision (plain c).
Proof. unfold plain. apply _. Defined.

Definition symbol_ok (n : Z) : bool := let c := nth (Z.to_nat n) _base64 0 in bool_decide (symbol c = n /\ plain c).

Lemma symbol_sextet n : let c := nth (Z.to_nat (n mod 64)) _base64 0 in symbol c = n mod 64 /\ plain c.
Proof.
  assert (H : symbol_ok (n mod 64) = true) by (apply (range_cases symbol_ok 64); [by vm_compute|apply Z.mod_pos_bound; lia]).
  by apply bool_decide_eq_true in H.
Qed.

Lemma sextet_eq n : sextet n = nth (Z.to_nat (n mod 64)) _base64 0.
Proof. unfold sextet. change 63 with (Z.ones 6). by rewrite Z.land_ones. Qed.

(** The four symbols of the 24 bits [v]. *)
Definition sym (v k : Z) : Z := sextet (Z.shiftr v k).

Lemma sym_symbol v k : 0 <= k -> symbol (sym v k) = v / 2 ^ k mod 64 /\ plain (sym v k).
Proof. intros Hk. unfold sym. rewrite sextet_eq, Z.shiftr_div_pow2 by done. apply symbol_sextet. Qed.

Definition val24 (a b c : Z) : Z := a * 65536 + b * 256 + c.

Lemma buf_of a b c : is_byte a -> is_byte b -> is_byte c ->
  Z.lor (Z.lor (Z.lor 0 (Z.shiftl a 16)) (Z.shiftl b 8)) c = val24 a b c /\
  Z.lor (Z.lor 0 (Z.shiftl a 16)) (Z.shiftl b 8) = val24 a b 0 /\ Z.lor 0 (Z.shiftl a 16) = val24 a 0 0.
Proof.
  intros Ha Hb Hc. rewrite !Z.lor_0_l.
  assert (E2 : Z.lor (Z.shiftl a 16) (Z.shiftl b 8) = val24 a b 0).
  { rewrite (lor_shift a (Z.shiftl b 8) 16 65536); [|lia| |done]; rewrite Z.shiftl_mul_pow2 by lia; unfold val24; change (2 ^ 8) with 256; change (2 ^ 16) with 65536; lia. }
  split_and!; [|done|rewrite Z.shiftl_mul_pow2 by lia; unfold val24; change (2 ^ 16) with 65536; lia].
  rewrite E2. replace (val24 a b 0) with (Z.shiftl (a * 256 + b) 8) by (rewrite Z.shiftl_mul_pow2 by lia; unfold val24; change (2 ^ 8) with 256; lia).
  rewrite (lor_shift _ c 8 256) by (done || lia). unfold val24. lia.
Qed.

Lemma encode_group a b c src out dstlen :
  is_byte a -> is_byte b -> is_byte c -> zlen out + 4 <= dstlen -> let v := val24 a b c in
  encode_loop (a :: b :: c :: src) out 2 0 dstlen = encode_loop src (out ++ [sym v 18; sym v 12; sym v 6; sym v 0]) 2 0 dstlen.
Proof.
  intros Ha Hb Hc Hlen v. cbn [encode_loop]. rewrite (bool_decide_eq_false_2 (2 - 1 < 0)), (bool_decide_eq_false_2 (2 - 1 - 1 < 0)), (bool_decide_eq_true_2 (2 - 1 - 1 - 1 < 0)) by lia.
  rewrite bool_decide_eq_false_2 by lia. change (Z.shiftl 2 3) with 16. change (Z.shiftl (2 - 1) 3) with 8. change (Z.shiftl (2 - 1 - 1) 3) with 0. rewrite (Z.shiftl_0_r c).
  destruct (buf_of a b c Ha Hb Hc) as [-> _]. fold v. unfold sym. by rewrite Z.shiftr_0_r.
Qed.

(** Reading one symbol. *)
Lemma decode_symbol c src out buf pos dstlen :
  plain c -> 0 <= symbol c -> pos <> 3 -> decode_loop (c :: src) out buf pos 0 dstlen = decode_loop src out (u32 (Z.shiftl buf 6 + symbol c)) (pos + 1) 0 dstlen.
Proof.
  intros (H1 & H2 & H3 & H4 & H5 & _) Hs Hp. cbn [decode_loop]. rewrite !(bool_decide_eq_false_2 (c = _)) by done. cbn [orb].
  rewrite (bool_decide_eq_false_2 (symbol c < 0)) by lia. cbn [mbind option_bind]. by rewrite bool_decide_eq_false_2 by lia.
Qed.

Lemma decode_last_symbol c src out buf dstlen :
  plain c -> 0 <= symbol c ->
  decode_loop (c :: src) out buf 3 0 dstlen = out ← put_group out (u32 (Z.shiftl buf 6 + symbol c)) 0 dstlen; decode_loop src out 0 0 0 dstlen.
Proof.
  intros (H1 & H2 & H3 & H4 & H5 & _) Hs. cbn [decode_loop]. rewrite !(bool_decide_eq_false_2 (c = _)) by done. cbn [orb].
  rewrite (bool_decide_eq_false_2 (symbol c < 0)) by lia. cbn [mbind option_bind]. by rewrite bool_decide_eq_true_2 by lia.
Qed.

Lemma next_bits x y m : 0 <= y < 2 ^ 24 -> 0 < m -> x = y / m / 64 -> u32 (Z.shiftl x 6 + (y / m) mod 64) = y / m.
Proof.
  intros Hy Hm ->. change (2 ^ 24) with 16777216 in Hy. rewrite Z.shiftl_mul_pow2 by lia. change (2 ^ 6) with 64.
  assert (0 <= y / m <= y) by (split; [apply Z.div_pos; lia|apply Z.div_le_upper_bound; nia]).
  revert H. generalize (y / m). intros z Hz. rewrite u32_small; unfold UINT_MAX; Z.div_mod_to_equations; lia.
Qed.

(** The first symbols of a group. *)
Lemma decode_three v src out dstlen :
  0 <= v < 2 ^ 24 ->
  decode_loop (sym v 18 :: sym v 12 :: sym v 6 :: src) out 0 0 0 dstlen = decode_loop src out (v / 64) 3 0 dstlen /\
  decode_loop (sym v 18 :: sym v 12 :: src) out 0 0 0 dstlen = decode_loop src out (v / 4096) 2 0 dstlen.
Proof.
  intros Hv. pose proof Hv as Hv'. change (2 ^ 24) with 16777216 in Hv'.
  destruct (sym_symbol v 18) as [S1 P1]; [lia|]. destruct (sym_symbol v 12) as [S2 P2]; [lia|]. destruct (sym_symbol v 6) as [S3 P3]; [lia|].
  change (2 ^ 18) with 262144 in S1. change (2 ^ 12) with 4096 in S2. change (2 ^ 6) with 64 in S3.
  pose proof (Z.mod_pos_bound (v / 262144) 64 ltac:(lia)). pose proof (Z.mod_pos_bound (v / 4096) 64 ltac:(lia)). pose proof (Z.mod_pos_bound (v / 64) 64 ltac:(lia)).
  rewrite !decode_symbol by (done || lia). rewrite S1, S2, S3.
  rewrite (next_bits 0 v 262144) by (done || Z.div_mod_to_equations; lia).
  rewrite (next_bits (v / 262144) v 4096) by (done || Z.div_mod_to_equations; lia).
  rewrite (next_bits (v / 4096) v 64) by (done || Z.div_mod_to_equations; lia). done.
Qed.

Lemma val24_bytes a b c : is_byte a -> is_byte b -> is_byte c -> let v := val24 a b c in
  0 <= v < 2 ^ 24 /\ Z.land (Z.shiftr v 16) 255 = a /\ Z.land (Z.shiftr v 8) 255 = b /\ Z.land v 255 = c.
Proof.
  intros Ha Hb Hc v. unfold v, val24. change (2 ^ 24) with 16777216. change 255 with (Z.ones 8). rewrite !Z.land_ones, !Z.shiftr_div_pow2 by lia.
  change (2 ^ 8) with 256. change (2 ^ 16) with 65536. split_and!; Z.div_mod_to_equations; lia.
Qed.

Lemma put_group_bytes a b c out fin dstlen :
  is_byte a -> is_byte b -> is_byte c -> 0 <= fin <= 2 ->
  let w := if bool_decide (fin = 0) then [a; b; c] else if bool_decide (fin = 1) then [a] else [a; b] in
  zlen out + zlen w <= dstlen -> put_group out (val24 a b c) fin dstlen = Some (out ++ w).
Proof.
  intros Ha Hb Hc Hf w. destruct (val24_bytes a b c Ha Hb Hc) as (_ & E1 & E2 & E3). unfold w, put_group. rewrite E1, E2, E3.
  assert (fin = 0 \/ fin = 1 \/ fin = 2) as [->|[->| ->]] by lia; simpl; intros Hl; autorewrite with zlen in Hl.
  all: repeat (rewrite bool_decide_eq_false_2 by zlia; simpl); by rewrite <- ?app_assoc.
Qed.

Lemma decode_group a b c src out dstlen :
  is_byte a -> is_byte b -> is_byte c -> zlen out + 3 <= dstlen -> let v := val24 a b c in
  decode_loop (sym v 18 :: sym v 12 :: sym v 6 :: sym v 0 :: src) out 0 0 0 dstlen = decode_loop src (out ++ [a; b; c]) 0 0 0 dstlen.
Proof.
  intros Ha Hb Hc Hl v. destruct (val24_bytes a b c Ha Hb Hc) as (Hv & _). fold v in Hv.
  destruct (decode_three v (sym v 0 :: src) out dstlen Hv) as [-> _]. destruct (sym_symbol v 0) as [S P]; [lia|]. change (2 ^ 0) with 1 in S.
  pose proof (Z.mod_pos_bound (v / 1) 64 ltac:(lia)).
  rewrite decode_last_symbol by (done || lia). rewrite S, (next_bits (v / 64) v 1) by (done || by rewrite Z.div_1_r). rewrite Z.div_1_r.
  unfold v. rewrite put_group_bytes by (done || simpl; zlia). done.
Qed.

(** The padding. *)
Lemma decode_pad out buf dstlen :
  decode_loop [61] out buf 3 0 dstlen = (out ← put_group out (u32 (Z.shiftl buf 6)) 2 dstlen; Some (out, 0)) /\
  decode_loop [61; 61] out buf 2 0 dstlen = (out ← put_group out (u32 (Z.shiftl (u32 (Z.shiftl buf 6)) 6)) 1 dstlen; Some (out, 0)).
Proof. simpl. rewrite !Z.add_0_r. done. Qed.

(** The text of some bytes. *)
Fixpoint text (src : list Z) : list Z :=
  match src with
  | a :: b :: c :: src => let v := val24 a b c in sym v 18 :: sym v 12 :: sym v 6 :: sym v 0 :: text src
  | [a; b] => let v := val24 a b 0 in [sym v 18; sym v 12; sym v 6; 61]
  | [a] => let v := val24 a 0 0 in [sym v 18; sym v 12; 61; 61]
  | [] => []
  end.

Lemma three_ind (P : list Z -> Prop) :
  P [] -> (forall a, P [a]) -> (forall a b, P [a; b]) -> (forall a b c l, P l -> P (a :: b :: c :: l)) -> forall l, P l.
Proof.
  intros H0 H1 H2 H3. assert (H : forall n l, (length l <= n)%nat -> P l); [|intros l; by apply (H (length l))].
  induction n as [|n IH]; intros l Hl; [by destruct l; [|simpl in Hl; lia]|].
  destruct l as [|a [|b [|c l]]]; try done. apply H3, IH. simpl in Hl. lia.
Qed.

Lemma text_len src : zlen (text src) = pg_b64_enc_len (zlen src).
Proof.
  unfold pg_b64_enc_len. induction src as [|a|a b|a b c l IH] using three_ind; try done.
  cbn [text]. rewrite !zlen_cons, IH. Z.div_mod_to_equations; lia.
Qed.

Lemma text_chars src : Forall (fun c => c = 61 \/ plain c) (text src).
Proof.
  induction src as [|a|a b|a b c l IH] using three_ind; cbn [text]; repeat (apply Forall_cons; split); try (by left); try (by apply Forall_nil); try done.
  all: right; apply sym_symbol; lia.
Qed.

Lemma encode_text src out dstlen : Forall is_u8 src -> zlen out + zlen (text src) <= dstlen ->
  (st ← encode_loop src out 2 0 dstlen; encode_tail dstlen st) = Some (out ++ text src).
Proof.
  revert out. induction src as [|a|a b|a b c l IH] using three_ind; intros out Hb Hl; rewrite ?Forall_cons in Hb.
  - simpl. by rewrite app_nil_r.
  - destruct Hb as [Ha _]. cbn [text] in *. autorewrite with zlen in Hl. destruct (buf_of a 0 0) as (_ & _ & E); [done..|].
    cbn [encode_loop]. change (Z.shiftl 2 3) with 16. rewrite E. simpl. rewrite bool_decide_eq_false_2 by zlia. done.
  - destruct Hb as (Ha & Hb & _). cbn [text] in *. autorewrite with zlen in Hl. destruct (buf_of a b 0) as (_ & E & _); [done..|].
    cbn [encode_loop]. change (Z.shiftl 2 3) with 16. change (Z.shiftl (2 - 1) 3) with 8. rewrite E. simpl. rewrite bool_decide_eq_false_2 by zlia. done.
  - destruct Hb as (Ha & Hb & Hc & Hs). cbn [text] in *. autorewrite with zlen in Hl. rewrite encode_group by (done || zlia).
    rewrite IH by (done || zlia). by rewrite <- app_assoc.
Qed.

Lemma decode_text src out dstlen : Forall is_u8 src -> zlen out + zlen src <= dstlen -> decode_loop (text src) out 0 0 0 dstlen = Some (out ++ src, 0).
Proof.
  revert out. induction src as [|a|a b|a b c l IH] using three_ind; intros out Hb Hl; rewrite ?Forall_cons in Hb.
  - simpl. by rewrite app_nil_r.
  - destruct Hb as [Ha _]. cbn [text]. autorewrite with zlen in Hl. destruct (val24_bytes a 0 0) as (Hv & _); [done..|].
    rewrite (proj2 (decode_three _ _ _ _ Hv)), (proj2 (decode_pad _ _ _)). rewrite !Z.shiftl_mul_pow2 by lia. unfold val24. change (2 ^ 6) with 64.
    rewrite (u32_small (_ / 4096 * 64)), u32_small by (unfold is_u8, UINT_MAX in *; Z.div_mod_to_equations; lia).
    replace ((a * 65536 + 0 * 256 + 0) / 4096 * 64 * 64) with (val24 a 0 0) by (unfold val24; Z.div_mod_to_equations; lia).
    rewrite put_group_bytes by (done || simpl; zlia). done.
  - destruct Hb as (Ha & Hb & _). cbn [text]. autorewrite with zlen in Hl. destruct (val24_bytes a b 0) as (Hv & _); [done..|].
    rewrite (proj1 (decode_three _ _ _ _ Hv)), (proj1 (decode_pad _ _ _)). rewrite !Z.shiftl_mul_pow2 by lia. unfold val24. change (2 ^ 6) with 64.
    rewrite !u32_small by (unfold is_u8, UINT_MAX in *; Z.div_mod_to_equations; lia).
    replace ((a * 65536 + b * 256 + 0) / 64 * 64) with (val24 a b 0) by (unfold val24; Z.div_mod_to_equations; lia).
    rewrite put_group_bytes by (done || simpl; zlia). done.
  - destruct Hb as (Ha & Hb & Hc & Hs). cbn [text]. autorewrite with zlen in Hl. rewrite decode_group by (done || zlia).
    rewrite IH by (done || zlia). by rewrite <- app_assoc.
Qed.

(** Encoding into a buffer of the length computed for it gives the text. *)
Lemma pg_b64_encode_text src dstlen : Forall is_u8 src -> pg_b64_enc_len (zlen src) <= dstlen -> pg_b64_encode src dstlen = Some (text src).
Proof. intros Hb Hl. rewrite <- text_len in Hl. unfold pg_b64_encode. by rewrite encode_text by (done || zlia). Qed.

Lemma pg_b64_decode_text src dstlen : Forall is_u8 src -> zlen src <= dstlen -> pg_b64_decode (text src) dstlen = Some src.
Proof. intros Hb Hl. unfold pg_b64_decode. by rewrite decode_text by (done || zlia). Qed.

(** The buffer the code takes for the decoded bytes is long enough. *)
Lemma dec_len_enough n : 0 <= n -> n <= pg_b64_dec_len (pg_b64_enc_len n).
Proof. intros Hn. unfold pg_b64_dec_len, pg_b64_enc_len. rewrite Z.shiftr_div_pow2 by lia. change (2 ^ 2) with 4. Z.div_mod_to_equations; lia. Qed.

(** ** Bounds *)

Lemma put_group_within out buf fin dstlen out' : put_group out buf fin dstlen = Some out' -> zlen out' <= dstlen /\ zlen out' <= zlen out + 3.
Proof.
  unfold put_group. cbn zeta. intros H.
  destruct (bool_decide (fin = 0) || bool_decide (fin > 1)), (bool_decide (fin = 0) || bool_decide (fin > 2)); cbn [mbind option_bind] in H; repeat (case_bool_decide; cbn [mbind option_bind] in H; [discriminate|]).
  all: injection H as <-; zlia.
Qed.

(** A text of n characters decodes to at most the number of bytes computed for
    it, whatever the room. *)
Lemma decode_loop_within src out buf pos fin dstlen out' pos' :
  0 <= pos < 4 -> decode_loop src out buf pos fin dstlen = Some (out', pos') -> 0 <= pos' < 4 /\ zlen out' <= zlen out + 3 * ((pos + zlen src) / 4).
Proof.
  revert out buf pos fin. induction src as [|c src IH]; intros out buf pos fin Hp H; cbn [decode_loop] in H.
  { injection H as <- <-. pose proof (Z.div_pos (pos + zlen (@nil Z)) 4). zlia. }
  destruct (_ || _) eqn:E in H; [discriminate|]. clear E.
  destruct (if bool_decide (c = 61) then _ else _) as [[b fin']|] eqn:E in H; [|discriminate]. cbn [mbind option_bind] in H. rewrite zlen_cons. pose proof (zlen_nonneg src).
  case_bool_decide.
  - destruct (put_group _ _ _ _) as [o|] eqn:Ep in H; [|discriminate]. cbn [mbind option_bind] in H. apply put_group_within in Ep. apply IH in H; [|lia].
    split; [lia|]. replace (pos + (1 + zlen src)) with (zlen src + 1 * 4) by lia. rewrite Z.div_add by lia. rewrite Z.add_0_l in H. lia.
  - apply IH in H; [|lia]. by rewrite Z.add_assoc.
Qed.

Lemma pg_b64_decode_within src dstlen out : pg_b64_decode src dstlen = Some out -> zlen out <= pg_b64_dec_len (zlen src).
Proof.
  unfold pg_b64_decode. destruct (decode_loop _ _ _ _ _ _) as [[o p]|] eqn:E; [|done]. simpl. case_bool_decide; [done|]. intros [= ->].
  apply decode_loop_within in E; [|lia]. unfold pg_b64_dec_len. rewrite Z.shiftr_div_pow2 by lia. change (2 ^ 2) with 4. change (zlen (@nil Z)) with 0 in E. rewrite Z.add_0_l in E. Z.div_mod_to_equations; lia.
Qed.

(** What is decoded are bytes. *)
Lemma put_group_u8 out buf fin dstlen out' : put_group out buf fin dstlen = Some out' -> Forall is_u8 out -> Forall is_u8 out'.
Proof.
  unfold put_group. cbn zeta. intros H Ho. assert (Hu : forall z, is_u8 (Z.land z 255)).
  { intros z. change 255 with (Z.ones 8). rewrite Z.land_ones by lia. unfold is_u8. apply Z.mod_pos_bound. lia. }
  destruct (bool_decide (fin = 0) || bool_decide (fin > 1)), (bool_decide (fin = 0) || bool_decide (fin > 2)); cbn [mbind option_bind] in H;
    repeat (case_bool_decide; cbn [mbind option_bind] in H; [discriminate|]).
  all: injection H as <-; rewrite !Forall_app, ?Forall_singleton; auto.
Qed.

Lemma decode_loop_u8 src out buf pos fin dstlen out' pos' : decode_loop src out buf pos fin dstlen = Some (out', pos') -> Forall is_u8 out -> Forall is_u8 out'.
Proof.
  revert out buf pos fin. induction src as [|c src IH]; intros out buf pos fin H Ho; cbn [decode_loop] in H; [by injection H as <- <-|].
  destruct (_ || _) eqn:E in H; [discriminate|]. clear E.
  destruct (if bool_decide (c = 61) then _ else _) as [[b fin']|] eqn:E in H; [|discriminate]. cbn [mbind option_bind] in H. case_bool_decide.
  - destruct (put_group _ _ _ _) as [o|] eqn:Ep in H; [|discriminate]. cbn [mbind option_bind] in H. eapply IH; [done|]. by eapply put_group_u8.
  - by eapply IH.
Qed.

Lemma pg_b64_decode_u8 src dstlen out : pg_b64_decode src dstlen = Some out -> Forall is_u8 out.
Proof.
  unfold pg_b64_decode. destruct (decode_loop _ _ _ _ _ _) as [[o p]|] eqn:E; [|done]. cbn [mbind option_bind]. case_bool_decide; [done|]. intros [= <-].
  apply decode_loop_u8 in E; [done|by apply Forall_nil].
Qed.
