(* ===== verification/Sha2.v ===== *)
(** * SHA-256 (src/common/sha2.c, src/common/cryptohash.c)

    The context with its state words, bit count and block buffer; the transform
    works in place: the buffer holds the sixteen words of the message schedule,
    in the byte order of a little-endian host, also when the block it reads is
    that same buffer.  Accesses outside the buffer or the data are undefined.

    The digest of a message fed in any number of pieces is the one of the
    standard (FIPS 180-4): padding, the schedule of 64 words, 64 rounds per
    block. *)

From S2P Require Import Prelude.
From stdpp Require Import base option list strings.
#[local] Open Scope Z_scope.

Definition PG_SHA256_BLOCK_LENGTH : Z := 64.
Definition PG_SHA256_DIGEST_LENGTH : Z := 32.
Definition PG_SHA256_SHORT_BLOCK_LENGTH : Z := 56.

Record pg_sha256_ctx := { sh_state : list Z; sh_bitcount : Z; sh_buffer : list Z }.

(** ** Logical functions *)

Definition S32 (b x : Z) : Z := Z.lor (Z.shiftr x b) (u32 (Z.shiftl x (32 - b))).
Definition Ch (x y z : Z) : Z := Z.lxor (Z.land x y) (Z.land (u32 (Z.lnot x)) z).
Definition Maj (x y z : Z) : Z := Z.lxor (Z.lxor (Z.land x y) (Z.land x z)) (Z.land y z).
Definition Sigma0_256 (x : Z) : Z := Z.lxor (Z.lxor (S32 2 x) (S32 13 x)) (S32 22 x).
Definition Sigma1_256 (x : Z) : Z := Z.lxor (Z.lxor (S32 6 x) (S32 11 x)) (S32 25 x).
Definition sigma0_256 (x : Z) : Z := Z.lxor (Z.lxor (S32 7 x) (S32 18 x)) (Z.shiftr x 3).
Definition sigma1_256 (x : Z) : Z := Z.lxor (Z.lxor (S32 17 x) (S32 19 x)) (Z.shiftr x 10).

(** The rows of the table, four words each. *)
Definition K256 : list Z :=
  concat
  [ [0x428a2f98; 0x71374491; 0xb5c0fbcf; 0xe9b5dba5];
    [0x3956c25b; 0x59f111f1; 0x923f82a4; 0xab1c5ed5];
    [0xd807aa98; 0x12835b01; 0x243185be; 0x550c7dc3];
    [0x72be5d74; 0x80deb1fe; 0x9bdc06a7; 0xc19bf174];
    [0xe49b69c1; 0xefbe4786; 0x0fc19dc6; 0x240ca1cc];
    [0x2de92c6f; 0x4a7484aa; 0x5cb0a9dc; 0x76f988da];
    [0x983e5152; 0xa831c66d; 0xb00327c8; 0xbf597fc7];
    [0xc6e00bf3; 0xd5a79147; 0x06ca6351; 0x14292967];
    [0x27b70a85; 0x2e1b2138; 0x4d2c6dfc; 0x53380d13];
    [0x650a7354; 0x766a0abb; 0x81c2c92e; 0x92722c85];
    [0xa2bfe8a1; 0xa81a664b; 0xc24b8b70; 0xc76c51a3];
    [0xd192e819; 0xd6990624; 0xf40e3585; 0x106aa070];
    [0x19a4c116; 0x1e376c08; 0x2748774c; 0x34b0bcb5];
    [0x391c0cb3; 0x4ed8aa4a; 0x5b9cca4f; 0x682e6ff3];
    [0x748f82ee; 0x78a5636f; 0x84c87814; 0x8cc70208];
    [0x90befffa; 0xa4506ceb; 0xbef9a3f7; 0xc67178f2] ].

Definition sha256_initial_hash_value : list Z :=
  [0x6a09e667; 0xbb67ae85; 0x3c6ef372; 0xa54ff53a; 0x510e527f; 0x9b05688c; 0x1f83d9ab; 0x5be0cd19].

Definition pg_sha256_init : pg_sha256_ctx :=
  {| sh_state := sha256_initial_hash_value; sh_bitcount := 0; sh_buffer := replicate 64 0 |}.

(** ** The transform *)

Definition regs : Type := Z * Z * Z * Z * Z * Z * Z * Z.

(** The compression function: the registers a..h after one round. *)
Definition round (r : regs) (k w : Z) : regs :=
  let '(a, b, c, d, e, f, g, h) := r in
  let T1 := u32 (h + Sigma1_256 e + Ch e f g + k + w) in
  let T2 := u32 (Sigma0_256 a + Maj a b c) in
  (u32 (T1 + T2), a, b, c, u32 (d + T1), e, f, g).

(** The block a transform reads: the context's own buffer, or the caller's
    data. *)
Inductive block := Own | Data (l : list Z).

(** data[0..3] of word j, most significant byte first. *)
Definition data_word (data : list Z) (j : Z) : res Z :=
  d0 ← mem_get data (4 * j); d1 ← mem_get data (4 * j + 1); d2 ← mem_get data (4 * j + 2); d3 ← mem_get data (4 * j + 3);
  Ok (Z.lor (Z.lor (Z.lor d3 (Z.shiftl d2 8)) (Z.shiftl d1 16)) (Z.shiftl d0 24)).

Definition le_bytes (w : Z) : list Z := [w mod 256; w / 256 mod 256; w / 65536 mod 256; w / 16777216 mod 256].

(** W256[j], a word of the buffer in host order. *)
Definition get_W256 (buffer : list Z) (j : Z) : res Z :=
  b0 ← mem_get buffer (4 * j); b1 ← mem_get buffer (4 * j + 1); b2 ← mem_get buffer (4 * j + 2); b3 ← mem_get buffer (4 * j + 3);
  Ok (b0 + 256 * b1 + 65536 * b2 + 16777216 * b3).
Definition put_W256 (buffer : list Z) (j w : Z) : res (list Z) := mem_store buffer (4 * j) (le_bytes w).

Definition first_round (data : block) (s : list Z * regs) (j : Z) : res (list Z * regs) :=
  let '(buffer, r) := s in
  w ← data_word (match data with Own => buffer | Data l => l end) j;
  buffer ← put_W256 buffer j w;
  w ← get_W256 buffer j;
  k ← mem_get K256 j;
  Ok (buffer, round r k w).

Definition next_round (s : list Z * regs) (j : Z) : res (list Z * regs) :=
  let '(buffer, r) := s in
  w1 ← get_W256 buffer (Z.land (j + 1) 15);
  w14 ← get_W256 buffer (Z.land (j + 14) 15);
  w9 ← get_W256 buffer (Z.land (j + 9) 15);
  w0 ← get_W256 buffer (Z.land j 15);
  let w := u32 (w0 + u32 (sigma1_256 w14 + w9 + sigma0_256 w1)) in
  buffer ← put_W256 buffer (Z.land j 15) w;
  k ← mem_get K256 j;
  Ok (buffer, round r k w).

(** [n] turns of a loop, from [j] on. *)
Fixpoint turns {A} (f : A -> Z -> res A) (n : nat) (j : Z) (s : A) : res A :=
  match n with
  | O => Ok s
  | S n => s ← f s j; turns f n (j + 1) s
  end.

Definition regs_of (l : list Z) : regs :=
  match l with [a; b; c; d; e; f; g; h] => (a, b, c, d, e, f, g, h) | _ => (0, 0, 0, 0, 0, 0, 0, 0) end.

Definition add_regs (st : list Z) (r : regs) : list Z :=
  let '(a, b, c, d, e, f, g, h) := r in zip_with (fun x y => u32 (x + y)) st [a; b; c; d; e; f; g; h].

Definition SHA256_Transform (c : pg_sha256_ctx) (data : block) : res pg_sha256_ctx :=
  s ← turns (first_round data) 16 0 (sh_buffer c, regs_of (sh_state c));
  '(buffer, r) ← turns next_round 48 16 s;
  Ok {| sh_state := add_regs (sh_state c) r; sh_bitcount := sh_bitcount c; sh_buffer := buffer |}.

(** ** Feeding data *)

Definition usedspace (c : pg_sha256_ctx) : Z := Z.shiftr (sh_bitcount c) 3 mod PG_SHA256_BLOCK_LENGTH.

(** memcpy(&context->buffer[ofs], data, ..) with the new bit count. *)
Definition feed (c : pg_sha256_ctx) (ofs : Z) (data : list Z) : res pg_sha256_ctx :=
  buffer ← mem_store (sh_buffer c) ofs data;
  Ok {| sh_state := sh_state c; sh_bitcount := u64 (sh_bitcount c + Z.shiftl (zlen data) 3); sh_buffer := buffer |}.

(** The complete blocks; the rest of the data.  Each turn takes 64 bytes. *)
Fixpoint whole_blocks (fuel : nat) (c : pg_sha256_ctx) (data : list Z) : res (pg_sha256_ctx * list Z) :=
  if bool_decide (zlen data >= PG_SHA256_BLOCK_LENGTH) then
    match fuel with
    | O => NoFuel
    | S fuel =>
        c ← SHA256_Transform c (Data data);
        let c := {| sh_state := sh_state c; sh_bitcount := u64 (sh_bitcount c + Z.shiftl PG_SHA256_BLOCK_LENGTH 3); sh_buffer := sh_buffer c |} in
        whole_blocks fuel c (zdrop PG_SHA256_BLOCK_LENGTH data)
    end
  else Ok (c, data).

Definition update_rest (c : pg_sha256_ctx) (data : list Z) : res pg_sha256_ctx :=
  '(c, data) ← whole_blocks (length data) c data;
  if bool_decide (zlen data > 0) then feed c 0 data else Ok c.

Definition pg_sha256_update (c : pg_sha256_ctx) (data : list Z) : res pg_sha256_ctx :=
  if bool_decide (zlen data = 0) then Ok c
  else
    let used := usedspace c in
    if bool_decide (used > 0) then
      let freespace := PG_SHA256_BLOCK_LENGTH - used in
      if bool_decide (zlen data >= freespace) then
        c ← feed c used (ztake freespace data);
        c ← SHA256_Transform c Own;
        update_rest c (zdrop freespace data)
      else feed c used data
    else update_rest c data.

(** ** The digest *)

Definition REVERSE32 (w : Z) : Z :=
  let tmp := Z.lor (Z.shiftr w 16) (u32 (Z.shiftl w 16)) in
  Z.lor (Z.shiftr (Z.land tmp 0xff00ff00) 8) (u32 (Z.shiftl (Z.land tmp 0x00ff00ff) 8)).

Definition REVERSE64 (w : Z) : Z :=
  let tmp := Z.lor (Z.shiftr w 32) (u64 (Z.shiftl w 32)) in
  let tmp := Z.lor (Z.shiftr (Z.land tmp 0xff00ff00ff00ff00) 8) (u64 (Z.shiftl (Z.land tmp 0x00ff00ff00ff00ff) 8)) in
  Z.lor (Z.shiftr (Z.land tmp 0xffff0000ffff0000) 16) (u64 (Z.shiftl (Z.land tmp 0x0000ffff0000ffff) 16)).

(** memset(&context->buffer[ofs], v, n) *)
Definition fill (c : pg_sha256_ctx) (ofs n v : Z) : res pg_sha256_ctx :=
  buffer ← mem_store (sh_buffer c) ofs (replicate (Z.to_nat n) v);
  Ok {| sh_state := sh_state c; sh_bitcount := sh_bitcount c; sh_buffer := buffer |}.

(** The padding up to the bit count. *)
Definition set_up_last (c : pg_sha256_ctx) (used : Z) : res pg_sha256_ctx :=
  if bool_decide (used > 0) then
    c ← fill c used 1 0x80;
    let used := used + 1 in
    if bool_decide (used <= PG_SHA256_SHORT_BLOCK_LENGTH) then fill c used (PG_SHA256_SHORT_BLOCK_LENGTH - used) 0
    else
      c ← (if bool_decide (used < PG_SHA256_BLOCK_LENGTH) then fill c used (PG_SHA256_BLOCK_LENGTH - used) 0 else Ok c);
      c ← SHA256_Transform c Own;
      fill c 0 PG_SHA256_SHORT_BLOCK_LENGTH 0
  else
    c ← fill c 0 PG_SHA256_SHORT_BLOCK_LENGTH 0;
    fill c 0 1 0x80.

Definition SHA256_Last (c : pg_sha256_ctx) : res pg_sha256_ctx :=
  let used := usedspace c in
  let c := {| sh_state := sh_state c; sh_bitcount := REVERSE64 (sh_bitcount c); sh_buffer := sh_buffer c |} in
  c ← set_up_last c used;
  buffer ← mem_store (sh_buffer c) PG_SHA256_SHORT_BLOCK_LENGTH (le_bytes (sh_bitcount c mod 2 ^ 32) ++ le_bytes (sh_bitcount c / 2 ^ 32));
  SHA256_Transform {| sh_state := sh_state c; sh_bitcount := sh_bitcount c; sh_buffer := buffer |} Own.

Definition zero_ctx : pg_sha256_ctx := {| sh_state := replicate 8 0; sh_bitcount := 0; sh_buffer := replicate 64 0 |}.

(** The digest and the context, cleaned up. *)
Definition pg_sha256_final (c : pg_sha256_ctx) : res (list Z * pg_sha256_ctx) :=
  c ← SHA256_Last c;
  Ok (concat (map (fun w => le_bytes (REVERSE32 w)) (sh_state c)), zero_ctx).

(** ** cryptohash.c, for SHA-256 *)

(** A digest buffer that is too short gives -1. *)
Definition pg_cryptohash_final (c : pg_sha256_ctx) (len : Z) : res (option (list Z) * pg_sha256_ctx) :=
  if bool_decide (len < PG_SHA256_DIGEST_LENGTH) then Ok (None, c)
  else '(d, c) ← pg_sha256_final c; Ok (Some d, c).

Definition hex (l : list Z) : list Z := concat (map hex2 l).

(** The published test value. *)
Example sha256_abc :
  (c ← pg_sha256_update pg_sha256_init (str "abc"); '(d, _) ← pg_sha256_final c; Ok (hex d)) =
  Ok (str "ba7816bf8f01cfea414140de5dae2223b00361a396177a9cb410ff61f20015ad").
Proof. by vm_compute. Qed.

Example sha256_two_blocks :
  (c ← pg_sha256_update pg_sha256_init (str "abcdbcdecdefdefgefghfghighij");
   c ← pg_sha256_update c (str "hijkijkljklmklmnlmnomnopnopq"); '(d, _) ← pg_sha256_final c; Ok (hex d)) =
  Ok (str "248d6a61d20638b8e5c026930c3e6039a33ce45964ff2167f6ecedd419db06c1").
Proof. by vm_compute. Qed.

(** ** The standard *)

Definition byte (l : list Z) (i : Z) : Z := nth (Z.to_nat i) l 0.

(** The word [t] of a block, most significant byte first. *)
Definition be_word (l : list Z) (t : Z) : Z :=
  byte l (4 * t) * 16777216 + byte l (4 * t + 1) * 65536 + byte l (4 * t + 2) * 256 + byte l (4 * t + 3).

(** The message schedule: sixteen words of the block and [n] more. *)
Fixpoint schedule (n : nat) (blk : list Z) : list Z :=
  match n with
  | O => map (fun t => be_word blk (Z.of_nat t)) (seq 0 16)
  | S n =>
      let w := schedule n blk in
      let t := zlen w in
      w ++ [u32 (sigma1_256 (byte w (t - 2)) + byte w (t - 7) + sigma0_256 (byte w (t - 15)) + byte w (t - 16))]
  end.

Definition word (blk : list Z) (t : Z) : Z := byte (schedule 48 blk) t.

Fixpoint rounds (blk : list Z) (n : nat) (r : regs) : regs :=
  match n with
  | O => r
  | S n => round (rounds blk n r) (byte K256 (Z.of_nat n)) (word blk (Z.of_nat n))
  end.

Definition compress (st blk : list Z) : list Z := add_regs st (rounds blk 64 (regs_of st)).

(** The state after [n] blocks of [l]. *)
Fixpoint hash_blocks (n : nat) (st l : list Z) : list Z :=
  match n with
  | O => st
  | S n => hash_blocks n (compress st (ztake 64 l)) (zdrop 64 l)
  end.

Fixpoint be_bytes (n : nat) (w : Z) : list Z :=
  match n with
  | O => []
  | S n => be_bytes n (w / 256) ++ [w mod 256]
  end.

Definition padding (n : Z) : list Z := [0x80] ++ replicate (Z.to_nat ((55 - n) mod 64)) 0 ++ be_bytes 8 (8 * n).

Definition sha256 (msg : list Z) : list Z :=
  let l := msg ++ padding (zlen msg) in
  concat (map (be_bytes 4) (hash_blocks (Z.to_nat (zlen l / 64)) sha256_initial_hash_value l)).

(** ** The transform implements the compression *)

Lemma mem_get_byte l i : 0 <= i < zlen l -> mem_get l i = Ok (byte l i).
Proof.
  unfold mem_get, byte, zlen. intros H. rewrite bool_decide_eq_true_2 by lia.
  destruct (l !! Z.to_nat i) as [v|] eqn:E; [|apply lookup_ge_None in E; lia]. f_equal. symmetry. by apply nth_lookup_Some.
Qed.

Lemma byte_u8 l i : Forall is_u8 l -> is_u8 (byte l i).
Proof.
  intros H. unfold byte. destruct (l !! Z.to_nat i) as [v|] eqn:E.
  - rewrite (nth_lookup_Some _ _ _ _ E). by eapply Forall_lookup in E.
  - rewrite nth_overflow by (by apply lookup_ge_None). done.
Qed.

Lemma byte_app_l l k i : 0 <= i < zlen l -> byte (l ++ k) i = byte l i.
Proof. unfold byte, zlen. intros. apply app_nth1. lia. Qed.

Lemma be_word_app l k t : 0 <= t -> 4 * t + 4 <= zlen l -> be_word (l ++ k) t = be_word l t.
Proof. intros. unfold be_word. rewrite !byte_app_l by lia. done. Qed.

Lemma be_word_u32 l t : Forall is_u8 l -> is_u32 (be_word l t).
Proof.
  intros H. unfold be_word. pose proof (byte_u8 l (4 * t) H). pose proof (byte_u8 l (4 * t + 1) H). pose proof (byte_u8 l (4 * t + 2) H). pose proof (byte_u8 l (4 * t + 3) H). zlia.
Qed.

Lemma data_word_ok l j : Forall is_u8 l -> 0 <= j -> 4 * j + 4 <= zlen l -> data_word l j = Ok (be_word l j).
Proof.
  intros H Hj Hl. unfold data_word. rewrite !mem_get_byte by lia. cbn [mbind res_bind]. f_equal. unfold be_word.
  pose proof (byte_u8 l (4 * j) H). pose proof (byte_u8 l (4 * j + 1) H). pose proof (byte_u8 l (4 * j + 2) H). pose proof (byte_u8 l (4 * j + 3) H).
  unfold is_u8 in *. rewrite (Z.lor_comm (byte l (4 * j + 3))), (lor_shift _ _ 8 256) by (done || lia).
  rewrite (Z.lor_comm (byte l (4 * j + 2) * 256 + _)), (lor_shift _ _ 16 65536) by (done || lia).
  rewrite (Z.lor_comm (byte l (4 * j + 1) * 65536 + _)), (lor_shift _ _ 24 16777216) by (done || lia). lia.
Qed.

Lemma le_bytes_u8 w : Forall is_u8 (le_bytes w).
Proof. unfold le_bytes, is_u8. change (2 ^ 8) with 256. repeat (apply Forall_cons; split; [apply Z.mod_pos_bound; lia|]). by apply Forall_nil. Qed.

(** The buffer as sixteen words. *)
Definition buf_ok (b : list Z) : Prop := zlen b = 64 /\ Forall is_u8 b.

Lemma put_W256_ok b j w : buf_ok b -> 0 <= j < 16 -> is_u32 w ->
  exists b', put_W256 b j w = Ok b' /\ buf_ok b' /\ get_W256 b' j = Ok w /\
    forall i, 0 <= i < 16 -> i <> j -> get_W256 b' i = get_W256 b i /\ data_word b' i = data_word b i.
Proof.
  intros [Hl Hb] Hj Hw. unfold put_W256. destruct (mem_store_ok b (4 * j) (le_bytes w)) as (b' & E & Hl' & _); [lia|unfold le_bytes; zlia|].
  exists b'. split; [done|]. split; [split; [lia|]; eapply mem_store_bytes; eauto; apply le_bytes_u8|].
  assert (Hg := fun i => mem_store_get _ _ _ _ i E). change (zlen (le_bytes w)) with 4 in Hg. split.
  - unfold get_W256. rewrite !Hg, !bool_decide_eq_true_2 by lia.
    replace (4 * j - 4 * j) with 0 by lia. replace (4 * j + 1 - 4 * j) with 1 by lia. replace (4 * j + 2 - 4 * j) with 2 by lia. replace (4 * j + 3 - 4 * j) with 3 by lia.
    transitivity (Ok (w mod 256 + 256 * (w / 256 mod 256) + 65536 * (w / 65536 mod 256) + 16777216 * (w / 16777216 mod 256))); [done|].
    f_equal. unfold is_u32 in Hw. change (2 ^ 32) with 4294967296 in Hw. Z.div_mod_to_equations; lia.
  - intros i Hi Hne. unfold get_W256, data_word. rewrite !Hg, !bool_decide_eq_false_2 by lia. done.
Qed.

(** A loop with an invariant. *)
Lemma turns_inv {A} (f : A -> Z -> res A) (I : Z -> A -> Prop) n j s :
  (forall i s, j <= i < j + Z.of_nat n -> I i s -> exists s', f s i = Ok s' /\ I (i + 1) s') -> I j s ->
  exists s', turns f n j s = Ok s' /\ I (j + Z.of_nat n) s'.
Proof.
  revert j s. induction n as [|n IH]; intros j s Hf Hs; cbn [turns].
  { exists s. by rewrite Z.add_0_r. }
  destruct (Hf j s) as (s1 & E & H1); [lia|done|]. rewrite E. cbn [mbind res_bind].
  destruct (IH (j + 1) s1) as (s2 & E2 & H2); [|done|].
  { intros i s' Hi. apply Hf. lia. }
  exists s2. split; [done|]. by replace (j + Z.of_nat (S n)) with (j + 1 + Z.of_nat n) by lia.
Qed.

Lemma schedule_len n blk : zlen (schedule n blk) = 16 + Z.of_nat n.
Proof. induction n as [|n IH]; [done|]. cbn [schedule]. rewrite zlen_app, IH. zlia. Qed.

Lemma schedule_prefix n m blk i : 0 <= i < 16 + Z.of_nat n -> byte (schedule (n + m) blk) i = byte (schedule n blk) i.
Proof.
  intros Hi. induction m as [|m IH]; [by rewrite Nat.add_0_r|]. rewrite Nat.add_succ_r. cbn [schedule].
  rewrite byte_app_l by (rewrite schedule_len; lia). done.
Qed.

Lemma word_first blk t : 0 <= t < 16 -> word blk t = be_word blk t.
Proof.
  intros Ht. unfold word. rewrite (schedule_prefix 0 48) by lia. cbn [schedule]. unfold byte.
  assert (E : map (fun t => be_word blk (Z.of_nat t)) (seq 0 16) !! Z.to_nat t = Some (be_word blk t)).
  { rewrite list_lookup_fmap, lookup_seq_lt by lia. simpl. by rewrite Z2Nat.id by lia. }
  by apply nth_lookup_Some.
Qed.

Lemma word_next blk t : 16 <= t < 64 -> word blk t = u32 (sigma1_256 (word blk (t - 2)) + word blk (t - 7) + sigma0_256 (word blk (t - 15)) + word blk (t - 16)).
Proof.
  intros Ht. unfold word. assert (exists n, 48%nat = (S n + (47 - n))%nat /\ Z.of_nat n = t - 16) as (n & E & En) by (exists (Z.to_nat (t - 16)); lia).
  rewrite E, !schedule_prefix by lia. cbn [schedule]. unfold byte at 1. rewrite app_nth2; [|pose proof (schedule_len n blk); unfold zlen in *; lia].
  replace (Z.to_nat t - length (schedule n blk))%nat with 0%nat by (pose proof (schedule_len n blk); unfold zlen in *; lia). cbn [nth].
  rewrite !schedule_len. replace (16 + Z.of_nat n) with t by lia. rewrite !byte_app_l by (rewrite schedule_len; lia). done.
Qed.

Lemma word_u32 blk t : Forall is_u8 blk -> 0 <= t < 64 -> is_u32 (word blk t).
Proof.
  intros Hb Ht. destruct (decide (t < 16)); [rewrite word_first by lia; by apply be_word_u32|].
  rewrite word_next by lia. pose proof (u32_bound (sigma1_256 (word blk (t - 2)) + word blk (t - 7) + sigma0_256 (word blk (t - 15)) + word blk (t - 16))). zlia.
Qed.

(** The registers and the buffer while a block is processed: the first words,
    of which those not yet read are still the block's... *)
Definition filling (own : bool) (blk : list Z) (r0 : regs) (j : Z) (s : list Z * regs) : Prop :=
  let '(b, r) := s in
  buf_ok b /\ r = rounds blk (Z.to_nat j) r0 /\ (forall t, 0 <= t < j -> get_W256 b t = Ok (word blk t)) /\
  (own = true -> forall t, j <= t < 16 -> data_word b t = Ok (be_word blk t)).

(** ... and then the window of the last sixteen words of the schedule. *)
Definition window (blk : list Z) (r0 : regs) (j : Z) (s : list Z * regs) : Prop :=
  let '(b, r) := s in
  buf_ok b /\ r = rounds blk (Z.to_nat j) r0 /\ (forall t, j - 16 <= t < j -> get_W256 b (t mod 16) = Ok (word blk t)).

Lemma round_step blk r0 j : 0 <= j < 64 -> mem_get K256 j = Ok (byte K256 j) /\ round (rounds blk (Z.to_nat j) r0) (byte K256 j) (word blk j) = rounds blk (Z.to_nat (j + 1)) r0.
Proof.
  intros Hj. split; [by apply mem_get_byte|]. replace (Z.to_nat (j + 1)) with (S (Z.to_nat j)) by lia. cbn [rounds]. by rewrite Z2Nat.id by lia.
Qed.

Lemma first_round_ok data blk r0 j s :
  Forall is_u8 blk -> 64 <= zlen blk -> (data = Own \/ data = Data blk) -> 0 <= j < 16 ->
  filling (if data is Own then true else false) blk r0 j s ->
  exists s', first_round data s j = Ok s' /\ filling (if data is Own then true else false) blk r0 (j + 1) s'.
Proof.
  intros Hu Hlen Hd Hj. destruct s as [b r]. intros (Hb & -> & Hw & Ho). unfold first_round.
  assert (data_word (match data with Own => b | Data l => l end) j = Ok (be_word blk j)) as ->.
  { destruct Hd as [-> | ->]; [apply Ho; [done|lia]|apply data_word_ok; [done|lia..]]. }
  cbn [mbind res_bind]. destruct (put_W256_ok b j (be_word blk j)) as (b' & -> & Hb' & Hg & Hi); [done|done|by apply be_word_u32|].
  cbn [mbind res_bind]. rewrite Hg. cbn [mbind res_bind]. destruct (round_step blk r0 j) as [-> Hr]; [lia|]. cbn [mbind res_bind].
  eexists. split; [done|]. rewrite <- (word_first blk j), Hr by done. split_and!; [done|done|..].
  - intros t Ht. destruct (decide (t = j)) as [->|]; [by rewrite word_first|]. rewrite (proj1 (Hi t ltac:(lia) ltac:(done))). apply Hw. lia.
  - intros Hown t Ht. rewrite (proj2 (Hi t ltac:(lia) ltac:(lia))). apply Ho; [done|lia].
Qed.

Lemma land15 j : Z.land j 15 = j mod 16.
Proof. change 15 with (Z.ones 4). by rewrite Z.land_ones. Qed.

Lemma next_round_ok blk r0 j s : Forall is_u8 blk -> 16 <= j < 64 -> window blk r0 j s -> exists s', next_round s j = Ok s' /\ window blk r0 (j + 1) s'.
Proof.
  intros Hu Hj. destruct s as [b r]. intros (Hb & -> & Hw). unfold next_round. rewrite !land15.
  assert (E1 : (j + 1) mod 16 = (j - 15) mod 16) by (Z.div_mod_to_equations; lia). assert (E14 : (j + 14) mod 16 = (j - 2) mod 16) by (Z.div_mod_to_equations; lia).
  assert (E9 : (j + 9) mod 16 = (j - 7) mod 16) by (Z.div_mod_to_equations; lia). assert (E0 : j mod 16 = (j - 16) mod 16) by (Z.div_mod_to_equations; lia).
  rewrite E1, E14, E9, E0, !Hw by lia. cbn [mbind res_bind].
  assert (Ew : u32 (word blk (j - 16) + u32 (sigma1_256 (word blk (j - 2)) + word blk (j - 7) + sigma0_256 (word blk (j - 15)))) = word blk j).
  { rewrite (word_next blk j) by lia. unfold u32. rewrite Zplus_mod_idemp_r. f_equal. lia. }
  rewrite Ew. pose proof (Z.mod_pos_bound (j - 16) 16 ltac:(lia)).
  destruct (put_W256_ok b ((j - 16) mod 16) (word blk j)) as (b' & -> & Hb' & Hg & Hi); [done|lia|apply word_u32; [done|lia]|].
  cbn [mbind res_bind]. destruct (round_step blk r0 j) as [-> Hr]; [lia|]. cbn [mbind res_bind].
  eexists. split; [done|]. rewrite Hr. split_and!; [done|done|]. intros t Ht.
  destruct (decide (t = j)) as [->|]; [by rewrite E0|].
  rewrite (proj1 (Hi (t mod 16) (Z.mod_pos_bound t 16 ltac:(lia)) ltac:(Z.div_mod_to_equations; lia))). apply Hw. lia.
Qed.

Lemma SHA256_Transform_ok c data blk :
  buf_ok (sh_buffer c) -> Forall is_u8 blk -> 64 <= zlen blk -> (data = Own /\ blk = sh_buffer c \/ data = Data blk) ->
  exists b, SHA256_Transform c data = Ok {| sh_state := compress (sh_state c) blk; sh_bitcount := sh_bitcount c; sh_buffer := b |} /\ buf_ok b.
Proof.
  intros Hb Hu Hlen Hd. unfold SHA256_Transform.
  destruct (turns_inv (first_round data) (filling (if data is Own then true else false) blk (regs_of (sh_state c))) 16 0 (sh_buffer c, regs_of (sh_state c))) as ([b1 r1] & -> & H1).
  - intros i s Hi. apply first_round_ok; try done. by destruct Hd as [[-> _]| ->]; [left|right].
  - split_and!; [done|done|lia|]. destruct Hd as [[-> ->]| ->]; [|done]. intros _ t Ht. apply data_word_ok; [done|lia..].
  - cbn [mbind res_bind]. change (0 + Z.of_nat 16) with 16 in H1.
    destruct (turns_inv next_round (window blk (regs_of (sh_state c))) 48 16 (b1, r1)) as ([b2 r2] & -> & H2).
    + intros i s Hi. by apply next_round_ok.
    + destruct H1 as (? & ? & Hw & _). split_and!; [done..|]. intros t Ht. rewrite Z.mod_small by lia. apply Hw. lia.
    + cbn [mbind res_bind]. change (16 + Z.of_nat 48) with 64 in H2. destruct H2 as (Hb2 & -> & _). by exists b2.
Qed.

(** ** Messages in pieces *)

#[local] Abbreviation H0 := sha256_initial_hash_value.

Lemma word_app blk k t : 64 <= zlen blk -> word (blk ++ k) t = word blk t.
Proof.
  intros Hl. unfold word. f_equal. generalize 48%nat. induction n as [|n IH]; cbn [schedule]; [|by rewrite IH].
  apply map_ext_in. intros t' Ht%in_seq. apply be_word_app; lia.
Qed.

Lemma rounds_app blk k n r : 64 <= zlen blk -> rounds (blk ++ k) n r = rounds blk n r.
Proof. intros Hl. induction n as [|n IH]; cbn [rounds]; [done|]. by rewrite IH, word_app. Qed.

(** Only 64 bytes of the data are read. *)
Lemma compress_take st l : 64 <= zlen l -> compress st l = compress st (ztake 64 l).
Proof.
  intros Hl. rewrite <- (ztake_zdrop 64 l) at 1. unfold compress. by rewrite rounds_app by zlia.
Qed.

Lemma hash_blocks_snoc n st l : hash_blocks (S n) st l = compress (hash_blocks n st l) (ztake 64 (zdrop (64 * Z.of_nat n) l)).
Proof.
  revert st l. induction n as [|n IH]; intros st l; [by rewrite zdrop_0 by lia|].
  change (hash_blocks (S (S n)) st l) with (hash_blocks (S n) (compress st (ztake 64 l)) (zdrop 64 l)). rewrite IH, zdrop_zdrop by lia.
  cbn [hash_blocks]. do 3 f_equal. lia.
Qed.

Lemma hash_blocks_app n st l k : 64 * Z.of_nat n <= zlen l -> hash_blocks n st (l ++ k) = hash_blocks n st l.
Proof.
  revert st l. induction n as [|n IH]; intros st l Hl; [done|]. cbn [hash_blocks].
  rewrite ztake_app_le, zdrop_app_le by lia. apply IH. zlia.
Qed.

(** One more block. *)
Lemma hash_blocks_add m blk : zlen m mod 64 = 0 -> zlen blk = 64 ->
  hash_blocks (Z.to_nat (zlen (m ++ blk) / 64)) H0 (m ++ blk) = compress (hash_blocks (Z.to_nat (zlen m / 64)) H0 m) blk.
Proof.
  intros Hm Hb. rewrite zlen_app, Hb. assert (Hq : zlen m = 64 * (zlen m / 64)) by (Z.div_mod_to_equations; lia).
  pose proof (zlen_nonneg m). assert (0 <= zlen m / 64) by (apply Z.div_pos; lia).
  replace (Z.to_nat ((zlen m + 64) / 64)) with (S (Z.to_nat (zlen m / 64))) by (replace ((zlen m + 64) / 64) with (zlen m / 64 + 1); [lia|]; Z.div_mod_to_equations; lia).
  rewrite hash_blocks_snoc, hash_blocks_app by lia. rewrite Z2Nat.id, <- Hq, zdrop_app_ge, zdrop_0, ztake_all by lia. done.
Qed.

(** The context at a block boundary of the message [m] ... *)
Definition at_block (c : pg_sha256_ctx) (m : list Z) : Prop :=
  zlen m mod 64 = 0 /\ sh_state c = hash_blocks (Z.to_nat (zlen m / 64)) H0 m /\ buf_ok (sh_buffer c).

(** ... and after the message [m]: the rest of it is in the buffer. *)
Definition absorbed (c : pg_sha256_ctx) (m : list Z) : Prop :=
  exists whole part, m = whole ++ part /\ at_block c whole /\ zlen part < 64 /\ ztake (zlen part) (sh_buffer c) = part /\ sh_bitcount c = u64 (8 * zlen m).

Lemma transform_at c data blk m :
  at_block c m -> Forall is_u8 blk -> 64 <= zlen blk -> (data = Own /\ blk = sh_buffer c \/ data = Data blk) ->
  exists c', SHA256_Transform c data = Ok c' /\ at_block c' (m ++ ztake 64 blk) /\ sh_bitcount c' = sh_bitcount c.
Proof.
  intros (Hm & Hs & Hb) Hu Hl Hd. destruct (SHA256_Transform_ok c data blk) as (b & -> & Hb'); [done..|]. eexists. split; [done|]. split; [|done].
  split_and!; [|cbn [sh_state]|done].
  - rewrite zlen_app, zlen_ztake. replace (Z.min (Z.max 0 64) (zlen blk)) with (1 * 64) by lia. by rewrite Z.mod_add.
  - rewrite Hs, hash_blocks_add, compress_take by (done || zlia). done.
Qed.

Lemma count_add n k : u64 (u64 (8 * n) + Z.shiftl k 3) = u64 (8 * (n + k)).
Proof. rewrite Z.shiftl_mul_pow2 by lia. unfold u64. rewrite Zplus_mod_idemp_l. f_equal. lia. Qed.

Lemma usedspace_eq c n : 0 <= n -> sh_bitcount c = u64 (8 * n) -> usedspace c = n mod 64.
Proof.
  intros Hn E. unfold usedspace. rewrite E, Z.shiftr_div_pow2 by lia. unfold u64, PG_SHA256_BLOCK_LENGTH. change (2 ^ 64) with (8 * 2 ^ 61). change (2 ^ 3) with 8.
  rewrite Zmult_mod_distr_l, Z.mul_comm, Z.div_mul by lia. change (2 ^ 61) with (64 * 2 ^ 55). rewrite Z.rem_mul_r by lia.
  rewrite Z.mul_comm, Z.mod_add, Z.mod_mod by lia. done.
Qed.

Lemma feed_ok c ofs data : buf_ok (sh_buffer c) -> Forall is_u8 data -> 0 <= ofs -> ofs + zlen data <= 64 ->
  exists b, feed c ofs data = Ok {| sh_state := sh_state c; sh_bitcount := u64 (sh_bitcount c + Z.shiftl (zlen data) 3); sh_buffer := b |} /\
    buf_ok b /\ ztake (ofs + zlen data) b = ztake ofs (sh_buffer c) ++ data.
Proof.
  intros [Hl Hb] Hd Ho Hle. unfold feed. destruct (mem_store_ok (sh_buffer c) ofs data) as (b & E & Hl' & Hs & _); [lia..|].
  rewrite E. exists b. split; [done|]. split; [split; [lia|by eapply mem_store_bytes]|]. specialize (Hs 0 ltac:(lia)). by rewrite !slice_0 in Hs.
Qed.

Lemma whole_blocks_ok fuel c m data :
  at_block c m -> sh_bitcount c = u64 (8 * zlen m) -> Forall is_u8 data -> (length data <= fuel)%nat ->
  exists c' w rest, whole_blocks fuel c data = Ok (c', rest) /\ data = w ++ rest /\ zlen rest < 64 /\ at_block c' (m ++ w) /\ sh_bitcount c' = u64 (8 * zlen (m ++ w)).
Proof.
  revert c m data. induction fuel as [|fuel IH]; intros c m data Hc Hn Hd Hf; cbn [whole_blocks]; unfold PG_SHA256_BLOCK_LENGTH; case_bool_decide as Hlen.
  all: try by exists c, [], data; rewrite app_nil_r; split_and!; [| |lia|..].
  { exfalso. unfold zlen in Hlen. lia. }
  destruct (transform_at c (Data data) data m) as (c1 & E & H1 & E1); [done|done|lia|by right|]. rewrite E. cbn [mbind res_bind].
  destruct (IH {| sh_state := sh_state c1; sh_bitcount := u64 (sh_bitcount c1 + Z.shiftl 64 3); sh_buffer := sh_buffer c1 |} (m ++ ztake 64 data) (zdrop 64 data))
    as (c' & w & rest & -> & Ew & Hr & H' & En).
  - done.
  - cbn [sh_bitcount]. rewrite E1, Hn, count_add. do 2 f_equal. zlia.
  - by apply Forall_zdrop.
  - pose proof (zlen_zdrop 64 data). unfold zlen in *. lia.
  - exists c', (ztake 64 data ++ w), rest. rewrite app_assoc. split_and!; try done. by rewrite <- app_assoc, <- Ew, ztake_zdrop.
Qed.

Lemma update_rest_ok c m data : at_block c m -> sh_bitcount c = u64 (8 * zlen m) -> Forall is_u8 data -> exists c', update_rest c data = Ok c' /\ absorbed c' (m ++ data).
Proof.
  intros Hc Hn Hd. unfold update_rest. destruct (whole_blocks_ok (length data) c m data) as (c1 & w & rest & -> & -> & Hr & H1 & E1); [done..|]. cbn [mbind res_bind].
  apply Forall_app in Hd as [_ Hd]. pose proof (zlen_nonneg rest). case_bool_decide as Hz.
  - destruct (feed_ok c1 0 rest) as (b & -> & Hb & Ht); [apply H1|done|lia..|]. eexists. split; [done|]. exists (m ++ w), rest.
    cbn [sh_state sh_bitcount sh_buffer]. split_and!; [by rewrite app_assoc|by destruct H1 as (? & ? & ?)|done|done|].
    rewrite E1, count_add. do 2 f_equal. zlia.
  - assert (rest = []) as -> by (destruct rest; [done|rewrite zlen_cons in Hz; zlia]).
    exists c1. split; [done|]. exists (m ++ w), []. rewrite !app_nil_r. by split_and!.
Qed.

Lemma pg_sha256_update_ok c m data : absorbed c m -> Forall is_u8 data -> exists c', pg_sha256_update c data = Ok c' /\ absorbed c' (m ++ data).
Proof.
  intros (whole & part & -> & Hc & Hp & Ht & Hn) Hd. unfold pg_sha256_update. case_bool_decide as Hz.
  { assert (data = []) as -> by (destruct data; [done|rewrite zlen_cons in Hz; zlia]). exists c. split; [done|]. rewrite app_nil_r. by exists whole, part. }
  rewrite (usedspace_eq c (zlen (whole ++ part))) by (done || zlia). pose proof (zlen_nonneg part).
  assert (zlen (whole ++ part) mod 64 = zlen part) as ->.
  { rewrite zlen_app. destruct Hc as [Hm _]. rewrite Z.add_mod, Hm, Z.add_0_l, Z.mod_mod by lia. apply Z.mod_small. lia. }
  unfold PG_SHA256_BLOCK_LENGTH. case_bool_decide as Hu; cycle 1.
  { assert (part = []) as -> by (destruct part; [done|rewrite zlen_cons in Hu; zlia]). rewrite app_nil_r in *. by apply update_rest_ok. }
  case_bool_decide as Hf.
  - destruct (feed_ok c (zlen part) (ztake (64 - zlen part) data)) as (b & -> & Hb & Hbt); [apply Hc|by apply Forall_ztake|lia|zlia|]. cbn [mbind res_bind].
    assert (Eb : b = part ++ ztake (64 - zlen part) data).
    { rewrite Ht in Hbt. rewrite <- Hbt. symmetry. apply ztake_all. destruct Hb as [Hb _]. zlia. }
    destruct (transform_at {| sh_state := sh_state c; sh_bitcount := u64 (sh_bitcount c + Z.shiftl (zlen (ztake (64 - zlen part) data)) 3); sh_buffer := b |} Own b whole)
      as (c1 & -> & H1 & E1); [by destruct Hc as (? & ? & _)|apply Hb|destruct Hb; lia|by left|]. cbn [mbind res_bind].
    destruct (update_rest_ok c1 (whole ++ ztake 64 b) (zdrop (64 - zlen part) data)) as (c' & -> & Hc'); [done| |by apply Forall_zdrop|].
    + rewrite E1. cbn [sh_bitcount]. rewrite Hn, count_add. do 2 f_equal. destruct Hb. zlia.
    + exists c'. split; [done|]. rewrite (ztake_all 64 b), Eb, <- !app_assoc, ztake_zdrop in Hc' by (destruct Hb; lia). by rewrite <- app_assoc.
  - destruct (feed_ok c (zlen part) data) as (b & -> & Hb & Hbt); [apply Hc|done|lia..|]. eexists. split; [done|]. exists whole, (part ++ data).
    cbn [sh_state sh_bitcount sh_buffer]. split_and!; [by rewrite app_assoc|by destruct Hc as (? & ? & _)|zlia|by rewrite zlen_app, Hbt, Ht|].
    rewrite Hn, count_add. do 2 f_equal. zlia.
Qed.

Lemma absorbed_init : absorbed pg_sha256_init [].
Proof.
  exists [], []. split_and!; try done. split_and!; try done. split; [done|]. apply Forall_replicate. unfold is_u8. lia.
Qed.

(** ** The last blocks *)

Definition of_bytes (l : list Z) : Z := foldl (fun v b => v * 256 + b) 0 l.

Lemma of_bytes_snoc l b : of_bytes (l ++ [b]) = of_bytes l * 256 + b.
Proof. unfold of_bytes. by rewrite foldl_app. Qed.

Lemma of_be_bytes n w : 0 <= w < 256 ^ Z.of_nat n -> of_bytes (be_bytes n w) = w.
Proof.
  revert w. induction n as [|n IH]; intros w Hw; [change (256 ^ Z.of_nat 0) with 1 in Hw; change (of_bytes (be_bytes 0 w)) with 0; lia|].
  cbn [be_bytes]. rewrite of_bytes_snoc, IH; [Z.div_mod_to_equations; lia|].
  rewrite Nat2Z.inj_succ, Z.pow_succ_r in Hw by lia. split; [apply Z.div_pos; lia|apply Z.div_lt_upper_bound; lia].
Qed.

Lemma be_bytes_ok n w : length (be_bytes n w) = n /\ Forall is_u8 (be_bytes n w).
Proof.
  revert w. induction n as [|n IH]; intros w; [by split|]. cbn [be_bytes]. destruct (IH (w / 256)) as [Hl Hb].
  rewrite length_app, Hl, Forall_app, Forall_singleton. split_and!; [simpl; lia|done|]. unfold is_u8. apply Z.mod_pos_bound. lia.
Qed.

Lemma of_bytes_bound l : Forall is_u8 l -> 0 <= of_bytes l < 256 ^ zlen l.
Proof.
  induction l as [|b l IH] using rev_ind; [done|]. rewrite Forall_app, Forall_singleton. intros [Hl Hb].
  rewrite of_bytes_snoc, zlen_app. change (zlen [b]) with 1. rewrite Z.pow_add_r by zlia. specialize (IH Hl). unfold is_u8 in Hb. lia.
Qed.

Lemma of_bytes_app l k : of_bytes (l ++ k) = of_bytes l * 256 ^ zlen k + of_bytes k.
Proof.
  induction k as [|b k IH] using rev_ind; [rewrite app_nil_r; change (256 ^ zlen (@nil Z)) with 1; change (of_bytes []) with 0; lia|].
  rewrite app_assoc, !of_bytes_snoc, IH, zlen_app. change (zlen [b]) with 1. rewrite Z.pow_add_r by zlia. lia.
Qed.

Lemma of_bytes_shr l k n : Forall is_u8 k -> n = 8 * zlen k -> Z.shiftr (of_bytes (l ++ k)) n = of_bytes l.
Proof.
  intros Hk ->. pose proof (zlen_nonneg k). rewrite Z.shiftr_div_pow2, Z.pow_mul_r by lia. change (2 ^ 8) with 256. pose proof (of_bytes_bound k Hk).
  rewrite of_bytes_app, Z.div_add_l, Z.div_small by lia. lia.
Qed.

Lemma of_bytes_mod l k m : Forall is_u8 k -> m = 256 ^ zlen k -> of_bytes (l ++ k) mod m = of_bytes k.
Proof.
  intros Hk ->. pose proof (of_bytes_bound k Hk). rewrite of_bytes_app, Z.add_comm, Z.mod_add by lia. by apply Z.mod_small.
Qed.

Lemma of_bytes_shl l k n : n = 8 * Z.of_nat k -> Z.shiftl (of_bytes l) n = of_bytes (l ++ replicate k 0).
Proof.
  intros ->. rewrite Z.shiftl_mul_pow2, Z.pow_mul_r by lia. change (2 ^ 8) with 256. rewrite of_bytes_app.
  unfold zlen. rewrite length_replicate. assert (of_bytes (replicate k 0) = 0) as ->; [|lia].
  induction k as [|k IH]; [done|]. rewrite replicate_S_end, of_bytes_snoc, IH. lia.
Qed.

(** A bitwise operation works byte by byte. *)
Definition bytewise (op : Z -> Z -> Z) (f : bool -> bool -> bool) : Prop :=
  f false false = false /\ forall x y i, Z.testbit (op x y) i = f (Z.testbit x i) (Z.testbit y i).

Lemma bytewise_lor : bytewise Z.lor orb.
Proof. split; [done|]. intros. apply Z.lor_spec. Qed.
Lemma bytewise_land : bytewise Z.land andb.
Proof. split; [done|]. intros. apply Z.land_spec. Qed.

Lemma bytewise_div op f x y : bytewise op f -> op x y / 256 = op (x / 256) (y / 256).
Proof.
  intros [Hf H]. change 256 with (2 ^ 8). rewrite <- !Z.shiftr_div_pow2 by lia. apply Z.bits_inj'. intros i Hi. by rewrite Z.shiftr_spec, !H, !Z.shiftr_spec.
Qed.

Lemma bytewise_mod op f x y : bytewise op f -> op x y mod 256 = op (x mod 256) (y mod 256).
Proof.
  intros [Hf H]. change 256 with (2 ^ 8). rewrite <- !Z.land_ones by lia. generalize (Z.ones 8). intros o. apply Z.bits_inj'. intros i _.
  rewrite !Z.land_spec, !H, !Z.land_spec. destruct (Z.testbit o i); [by rewrite !andb_true_r|by rewrite !andb_false_r].
Qed.

Lemma bytewise_zero op f : bytewise op f -> op 0 0 = 0.
Proof. intros [Hf H]. apply Z.bits_inj'. intros i _. by rewrite H, Z.bits_0. Qed.

Lemma of_bytes_op op f l k : bytewise op f -> Forall is_u8 l -> Forall is_u8 k -> length l = length k ->
  op (of_bytes l) (of_bytes k) = of_bytes (zip_with op l k).
Proof.
  intros Hop. revert k. induction l as [|b l IH] using rev_ind; intros k; [destruct k; [|done]; intros; by apply (bytewise_zero _ f)|].
  destruct k as [|c k _] using rev_ind; [rewrite length_app; simpl; lia|]. rewrite !length_app, !Forall_app, !Forall_singleton. intros [Hl Hb] [Hk Hc] E. simpl in E.
  rewrite zip_with_app by lia. cbn [zip_with]. rewrite !of_bytes_snoc, <- IH by (done || lia).
  rewrite (Z.div_mod (op (of_bytes l * 256 + b) (of_bytes k * 256 + c)) 256), Z.mul_comm by lia.
  rewrite (bytewise_div _ _ _ _ Hop), (bytewise_mod _ _ _ _ Hop).
  unfold is_u8 in Hb, Hc. change (2 ^ 8) with 256 in *. rewrite !Z.div_add_l, (Z.div_small b), (Z.div_small c), !Z.add_0_r by lia.
  by rewrite !(Z.add_comm (_ * 256)), !Z.mod_add, !Z.mod_small by lia.
Qed.

Lemma byte_masks b : is_u8 b -> Z.land b 255 = b /\ Z.land b 0 = 0 /\ Z.lor b 0 = b /\ Z.lor 0 b = b.
Proof.
  unfold is_u8. intros Hb. split_and!; [|by rewrite Z.land_0_r|by rewrite Z.lor_0_r|done]. change 255 with (Z.ones 8). rewrite Z.land_ones by lia. by apply Z.mod_small.
Qed.

Ltac bytes_ok := repeat first [by apply Forall_nil|apply Forall_cons; split; [by (unfold is_u8; lia) || done|]].

Lemma REVERSE32_bytes a b c d : is_u8 a -> is_u8 b -> is_u8 c -> is_u8 d -> REVERSE32 (of_bytes [a; b; c; d]) = of_bytes [d; c; b; a].
Proof.
  intros Ha Hb Hc Hd. unfold REVERSE32, u32.
  rewrite (of_bytes_shr [a; b] [c; d]), (of_bytes_shl _ 2) by (done || bytes_ok). cbn [app replicate].
  rewrite (of_bytes_mod [a; b] [c; d; 0; 0]) by (done || bytes_ok). change (of_bytes [a; b]) with (of_bytes [0; 0; a; b]).
  rewrite (of_bytes_op _ _ _ _ bytewise_lor) by (done || bytes_ok). cbn [zip_with].
  destruct (byte_masks a Ha) as (A1 & A2 & A3 & A4), (byte_masks b Hb) as (B1 & B2 & B3 & B4), (byte_masks c Hc) as (C1 & C2 & C3 & C4), (byte_masks d Hd) as (D1 & D2 & D3 & D4).
  rewrite A3, B3, C4, D4. change 0xff00ff00 with (of_bytes [255; 0; 255; 0]). change 0x00ff00ff with (of_bytes [0; 255; 0; 255]).
  rewrite !(of_bytes_op _ _ _ _ bytewise_land) by (done || bytes_ok). cbn [zip_with]. rewrite A1, A2, B1, B2, C1, C2, D1, D2.
  rewrite (of_bytes_shr [c; 0; a] [0]), (of_bytes_shl _ 1) by (done || bytes_ok). cbn [app replicate]. rewrite (of_bytes_mod [0] [d; 0; b; 0]) by (done || bytes_ok).
  change (of_bytes [c; 0; a]) with (of_bytes [0; c; 0; a]). rewrite (of_bytes_op _ _ _ _ bytewise_lor) by (done || bytes_ok). cbn [zip_with].
  by rewrite A3, C3, B4, D4.
Qed.

Lemma swap_halves a b c d e f g h : Forall is_u8 [a; b; c; d; e; f; g; h] ->
  let w := of_bytes [a; b; c; d; e; f; g; h] in Z.lor (Z.shiftr w 32) (u64 (Z.shiftl w 32)) = of_bytes [e; f; g; h; a; b; c; d].
Proof.
  rewrite !Forall_cons. intros (Ha & Hb & Hc & Hd & He & Hf & Hg & Hh & _) w. unfold w, u64.
  rewrite (of_bytes_shr [a; b; c; d] [e; f; g; h]), (of_bytes_shl _ 4) by (done || bytes_ok). cbn [app replicate].
  rewrite (of_bytes_mod [a; b; c; d] [e; f; g; h; 0; 0; 0; 0]) by (done || bytes_ok). change (of_bytes [a; b; c; d]) with (of_bytes [0; 0; 0; 0; a; b; c; d]).
  rewrite (of_bytes_op _ _ _ _ bytewise_lor) by (done || bytes_ok). cbn [zip_with]. by rewrite !Z.lor_0_r, !Z.lor_0_l.
Qed.

(** Swapping neighbours under two masks, n bytes apart. *)
Lemma swap_bytes a b c d e f g h : Forall is_u8 [a; b; c; d; e; f; g; h] ->
  let w := of_bytes [a; b; c; d; e; f; g; h] in
  Z.lor (Z.shiftr (Z.land w 0xff00ff00ff00ff00) 8) (u64 (Z.shiftl (Z.land w 0x00ff00ff00ff00ff) 8)) = of_bytes [b; a; d; c; f; e; h; g] /\
  Z.lor (Z.shiftr (Z.land w 0xffff0000ffff0000) 16) (u64 (Z.shiftl (Z.land w 0x0000ffff0000ffff) 16)) = of_bytes [c; d; a; b; g; h; e; f].
Proof.
  rewrite !Forall_cons. intros (Ha & Hb & Hc & Hd & He & Hf & Hg & Hh & _) w. unfold w, u64.
  change 0xff00ff00ff00ff00 with (of_bytes [255; 0; 255; 0; 255; 0; 255; 0]). change 0x00ff00ff00ff00ff with (of_bytes [0; 255; 0; 255; 0; 255; 0; 255]).
  change 0xffff0000ffff0000 with (of_bytes [255; 255; 0; 0; 255; 255; 0; 0]). change 0x0000ffff0000ffff with (of_bytes [0; 0; 255; 255; 0; 0; 255; 255]).
  rewrite !(of_bytes_op _ _ _ _ bytewise_land) by (done || bytes_ok). cbn [zip_with]. rewrite !Z.land_0_r.
  rewrite !(proj1 (byte_masks _ Ha)), !(proj1 (byte_masks _ Hb)), !(proj1 (byte_masks _ Hc)), !(proj1 (byte_masks _ Hd)).
  rewrite !(proj1 (byte_masks _ He)), !(proj1 (byte_masks _ Hf)), !(proj1 (byte_masks _ Hg)), !(proj1 (byte_masks _ Hh)). split.
  - rewrite (of_bytes_shr [a; 0; c; 0; e; 0; g] [0]), (of_bytes_shl _ 1) by (done || bytes_ok). cbn [app replicate].
    rewrite (of_bytes_mod [0] [b; 0; d; 0; f; 0; h; 0]) by (done || bytes_ok). change (of_bytes [a; 0; c; 0; e; 0; g]) with (of_bytes [0; a; 0; c; 0; e; 0; g]).
    rewrite (of_bytes_op _ _ _ _ bytewise_lor) by (done || bytes_ok). cbn [zip_with]. by rewrite !Z.lor_0_r, !Z.lor_0_l.
  - rewrite (of_bytes_shr [a; b; 0; 0; e; f] [0; 0]), (of_bytes_shl _ 2) by (done || bytes_ok). cbn [app replicate].
    rewrite (of_bytes_mod [0; 0] [c; d; 0; 0; g; h; 0; 0]) by (done || bytes_ok). change (of_bytes [a; b; 0; 0; e; f]) with (of_bytes [0; 0; a; b; 0; 0; e; f]).
    rewrite (of_bytes_op _ _ _ _ bytewise_lor) by (done || bytes_ok). cbn [zip_with]. by rewrite !Z.lor_0_r, !Z.lor_0_l.
Qed.

Lemma le_bytes_of a b c d : is_u8 a -> is_u8 b -> is_u8 c -> is_u8 d -> le_bytes (of_bytes [d; c; b; a]) = [a; b; c; d].
Proof.
  unfold is_u8, le_bytes, of_bytes. cbn [foldl]. change (2 ^ 8) with 256. intros. f_equal; [|f_equal; [|f_equal; [|f_equal]]]; Z.div_mod_to_equations; lia.
Qed.

(** Reversing the bytes of a word and storing it on the host is storing its
    bytes in network order. *)
Lemma REVERSE32_stored w : is_u32 w -> le_bytes (REVERSE32 w) = be_bytes 4 w.
Proof.
  intros Hw. rewrite <- (of_be_bytes 4 w) at 1 by (change (256 ^ Z.of_nat 4) with (2 ^ 32); apply Hw).
  destruct (be_bytes_ok 4 w) as [Hl Hb]. destruct (be_bytes 4 w) as [|a [|b [|c [|d [|]]]]]; try done. rewrite !Forall_cons in Hb. destruct Hb as (Ha & Hb & Hc & Hd & _).
  by rewrite REVERSE32_bytes, le_bytes_of.
Qed.

Lemma REVERSE64_stored w : 0 <= w < 2 ^ 64 -> let v := REVERSE64 w in le_bytes (v mod 2 ^ 32) ++ le_bytes (v / 2 ^ 32) = be_bytes 8 w.
Proof.
  intros Hw. cbn zeta. rewrite <- (of_be_bytes 8 w) at 1 2 by (change (256 ^ Z.of_nat 8) with (2 ^ 64); apply Hw).
  destruct (be_bytes_ok 8 w) as [Hl Hb]. destruct (be_bytes 8 w) as [|a [|b [|c [|d [|e [|f [|g [|h [|]]]]]]]]]; try done.
  unfold REVERSE64. cbn zeta. rewrite swap_halves by done. rewrite !Forall_cons in Hb. destruct Hb as (Ha & Hb & Hc & Hd & He & Hf & Hg & Hh & _).
  rewrite (proj1 (swap_bytes e f g h a b c d ltac:(bytes_ok))), (proj2 (swap_bytes f e h g b a d c ltac:(bytes_ok))).
  rewrite (of_bytes_mod [h; g; f; e] [d; c; b; a]) by (done || bytes_ok). rewrite <- Z.shiftr_div_pow2, (of_bytes_shr [h; g; f; e] [d; c; b; a]) by (done || bytes_ok).
  by rewrite !le_bytes_of.
Qed.

Lemma fill_ok c m ofs n v : at_block c m -> is_u8 v -> 0 <= ofs -> 0 <= n -> ofs + n <= 64 ->
  exists c', fill c ofs n v = Ok c' /\ at_block c' m /\ sh_bitcount c' = sh_bitcount c /\
    ztake (ofs + n) (sh_buffer c') = ztake ofs (sh_buffer c) ++ replicate (Z.to_nat n) v /\ zdrop (ofs + n) (sh_buffer c') = zdrop (ofs + n) (sh_buffer c).
Proof.
  intros (Hm & Hs & Hl & Hb) Hv Ho Hn Hle. unfold fill. assert (Er : zlen (replicate (Z.to_nat n) v) = n) by (unfold zlen; rewrite length_replicate; lia).
  destruct (mem_store_ok (sh_buffer c) ofs (replicate (Z.to_nat n) v)) as (b & E & Hl' & Hsl & _ & Hd); [lia..|]. rewrite E. eexists. split; [done|].
  cbn [sh_buffer sh_bitcount]. rewrite Er in *. split_and!; [|done| |done].
  - split_and!; [done|done|]. split; [cbn [sh_buffer]; lia|]. eapply mem_store_bytes; [done..|]. by apply Forall_replicate.
  - specialize (Hsl 0 ltac:(lia)). by rewrite !slice_0 in Hsl.
Qed.

Lemma count_ok c m n : at_block c m -> 0 <= n < 2 ^ 64 -> sh_bitcount c = REVERSE64 n ->
  exists c', (buffer ← mem_store (sh_buffer c) PG_SHA256_SHORT_BLOCK_LENGTH (le_bytes (sh_bitcount c mod 2 ^ 32) ++ le_bytes (sh_bitcount c / 2 ^ 32));
    SHA256_Transform {| sh_state := sh_state c; sh_bitcount := sh_bitcount c; sh_buffer := buffer |} Own) = Ok c' /\
    at_block c' (m ++ ztake 56 (sh_buffer c) ++ be_bytes 8 n).
Proof.
  intros (Hm & Hs & Hl & Hb) Hn ->. rewrite (REVERSE64_stored n Hn). destruct (be_bytes_ok 8 n) as [Hlen Hu]. unfold PG_SHA256_SHORT_BLOCK_LENGTH.
  assert (El : zlen (be_bytes 8 n) = 8) by (unfold zlen; lia).
  destruct (mem_store_ok (sh_buffer c) 56 (be_bytes 8 n)) as (b & E & Hl' & Hsl & _); [lia..|]. rewrite E. cbn [mbind res_bind].
  assert (Hb' : buf_ok b) by (split; [lia|by eapply mem_store_bytes]). specialize (Hsl 0 ltac:(lia)). rewrite !slice_0, El, (ztake_all _ b) in Hsl by lia.
  destruct (transform_at {| sh_state := sh_state c; sh_bitcount := REVERSE64 n; sh_buffer := b |} Own b m) as (c' & -> & Hc & _); [by split_and!|apply Hb'|lia|by left|].
  exists c'. split; [done|]. by rewrite (ztake_all 64 b), Hsl in Hc by lia.
Qed.

Lemma ztake_of_take {A} n k (l : list A) x y : ztake n l = x ++ y -> zlen x = k -> 0 <= k <= n -> ztake k l = x.
Proof. intros E Hx Hk. replace k with (Z.min k n) by lia. rewrite <- ztake_ztake, E, ztake_app_le, ztake_all by lia. done. Qed.

Lemma replicate_plus n m (x : Z) : replicate n x ++ replicate m x = replicate (n + m) x.
Proof. by rewrite replicate_add. Qed.

Lemma set_up_last_ok c whole part : at_block c whole -> zlen part < 64 -> ztake (zlen part) (sh_buffer c) = part ->
  exists c' m, set_up_last c (zlen part) = Ok c' /\ at_block c' m /\ sh_bitcount c' = sh_bitcount c /\
    m ++ ztake 56 (sh_buffer c') = whole ++ part ++ [0x80] ++ replicate (Z.to_nat ((55 - zlen part) mod 64)) 0.
Proof.
  intros Hc Hp Ht. pose proof (zlen_nonneg part). assert (Hb := proj1 (proj2 (proj2 Hc))). unfold set_up_last, PG_SHA256_BLOCK_LENGTH, PG_SHA256_SHORT_BLOCK_LENGTH.
  case_bool_decide as Hu; cycle 1.
  { assert (part = []) as -> by (destruct part; [done|rewrite zlen_cons in Hu; zlia]).
    destruct (fill_ok c whole 0 56 0) as (c1 & -> & H1 & N1 & T1 & _); [done|unfold is_u8; lia..|]. cbn [mbind res_bind].
    destruct (fill_ok c1 whole 0 1 0x80) as (c2 & -> & H2 & N2 & T2 & D2); [done|unfold is_u8; lia..|]. exists c2, whole. split_and!; [done|done|congruence|]. f_equal.
    rewrite <- (ztake_zdrop 1 (ztake 56 (sh_buffer c2))), ztake_ztake. change (Z.min 1 56) with (0 + 1). rewrite T2. cbn [app]. f_equal.
    change (zdrop 1 (ztake 56 (sh_buffer c2))) with (drop 1 (take (1 + 55) (sh_buffer c2))). rewrite <- firstn_skipn_comm.
    change (drop 1 (sh_buffer c2)) with (zdrop (0 + 1) (sh_buffer c2)). rewrite D2. unfold zdrop. rewrite firstn_skipn_comm.
    change (take (Z.to_nat (0 + 1) + 55) (sh_buffer c1)) with (ztake (0 + 56) (sh_buffer c1)). by rewrite T1. }
  destruct (fill_ok c whole (zlen part) 1 0x80) as (c1 & -> & H1 & N1 & T1 & _); [done|unfold is_u8; lia..|]. cbn [mbind res_bind]. rewrite Ht in T1.
  case_bool_decide as Hs.
  { destruct (fill_ok c1 whole (zlen part + 1) (56 - (zlen part + 1)) 0) as (c2 & -> & H2 & N2 & T2 & _); [done|unfold is_u8; lia..|].
    exists c2, whole. split_and!; [done|done|congruence|]. f_equal. replace 56 with (zlen part + 1 + (56 - (zlen part + 1))) at 1 by lia.
    rewrite T2, T1, <- app_assoc. rewrite Z.mod_small by lia. by replace (56 - (zlen part + 1)) with (55 - zlen part) by lia. }
  assert (exists c2, (if bool_decide (zlen part + 1 < 64) then fill c1 (zlen part + 1) (64 - (zlen part + 1)) 0 else Ok c1) = Ok c2 /\ at_block c2 whole /\
    sh_bitcount c2 = sh_bitcount c /\ sh_buffer c2 = part ++ [0x80] ++ replicate (Z.to_nat (63 - zlen part)) 0) as (c2 & -> & H2 & N2 & E2).
  { case_bool_decide.
    - destruct (fill_ok c1 whole (zlen part + 1) (64 - (zlen part + 1)) 0) as (c2 & -> & H2 & N2 & T2 & _); [done|unfold is_u8; lia..|].
      exists c2. split_and!; [done|done|congruence|]. rewrite ztake_all, T1, <- app_assoc in T2 by (destruct H2 as (_ & _ & -> & _); lia).
      rewrite T2. by replace (64 - (zlen part + 1)) with (63 - zlen part) by lia.
    - exists c1. split_and!; [done..|]. rewrite ztake_all in T1 by (destruct H1 as (_ & _ & -> & _); lia). rewrite T1. by replace (63 - zlen part) with 0 by lia. }
  cbn [mbind res_bind]. destruct (transform_at c2 Own (sh_buffer c2) whole) as (c3 & -> & H3 & N3); [done|apply H2|destruct H2 as (_ & _ & -> & _); lia|by left|].
  cbn [mbind res_bind]. destruct (fill_ok c3 _ 0 56 0 H3) as (c4 & -> & H4 & N4 & T4 & _); [unfold is_u8; lia..|].
  eexists c4, _. split_and!; [done|exact H4|congruence|]. change (0 + 56) with 56 in T4. rewrite T4, ztake_all, E2 by (destruct H2 as (_ & _ & -> & _); lia).
  rewrite <- !app_assoc. do 3 f_equal. rewrite (ztake_nonpos 0) by done. cbn [app]. rewrite replicate_plus. f_equal.
  assert ((55 - zlen part) mod 64 = 119 - zlen part) as -> by (Z.div_mod_to_equations; lia). lia.
Qed.

Lemma SHA256_Last_ok c m : absorbed c m -> 8 * zlen m < 2 ^ 64 -> exists c', SHA256_Last c = Ok c' /\ at_block c' (m ++ padding (zlen m)).
Proof.
  intros (whole & part & -> & Hc & Hp & Ht & Hn) Hlt. pose proof (zlen_nonneg whole). pose proof (zlen_nonneg part).
  assert (Hmod : zlen (whole ++ part) mod 64 = zlen part).
  { rewrite zlen_app. destruct Hc as [Hm _]. rewrite Z.add_mod, Hm, Z.add_0_l, Z.mod_mod by lia. apply Z.mod_small. lia. }
  unfold SHA256_Last. rewrite (usedspace_eq c (zlen (whole ++ part))), Hmod, Hn by (done || zlia). unfold u64. rewrite Z.mod_small by zlia.
  destruct (set_up_last_ok {| sh_state := sh_state c; sh_bitcount := REVERSE64 (8 * zlen (whole ++ part)); sh_buffer := sh_buffer c |} whole part)
    as (c1 & m1 & E & H1 & N1 & T1); [by destruct Hc as (? & ? & ?)|done|done|].
  rewrite E. cbn [mbind res_bind]. destruct (count_ok c1 m1 (8 * zlen (whole ++ part))) as (c2 & -> & H2); [done|zlia|done|].
  exists c2. split; [done|]. unfold padding. rewrite app_assoc, T1 in H2.
  assert (Ez : (55 - zlen (whole ++ part)) mod 64 = (55 - zlen part) mod 64) by (rewrite <- Zminus_mod_idemp_r, Hmod; done). rewrite Ez. by rewrite <- !app_assoc in *.
Qed.

(** ** The digest *)

Lemma compress_words st blk : length st = 8%nat -> length (compress st blk) = 8%nat /\ Forall is_u32 (compress st blk).
Proof.
  intros Hl. unfold compress, add_regs. destruct (rounds _ _ _) as [[[[[[[a b] c] d] e] f] g] h].
  do 8 (destruct st as [|? st]; [done|]). destruct st; [|done]. split; [done|]. cbn [zip_with].
  repeat (apply Forall_cons; split; [unfold is_u32, u32; apply Z.mod_pos_bound; lia|]). by apply Forall_nil.
Qed.

Lemma hash_blocks_words n st l : length st = 8%nat -> Forall is_u32 st -> length (hash_blocks n st l) = 8%nat /\ Forall is_u32 (hash_blocks n st l).
Proof.
  revert st l. induction n as [|n IH]; intros st l Hl Hs; [done|]. cbn [hash_blocks]. destruct (compress_words st (ztake 64 l) Hl). by apply IH.
Qed.

Lemma hash_words n l : length (hash_blocks n H0 l) = 8%nat /\ Forall is_u32 (hash_blocks n H0 l).
Proof.
  apply hash_blocks_words; [done|]. unfold H0, is_u32. repeat (apply Forall_cons; split; [lia|]). by apply Forall_nil.
Qed.

Lemma concat_words ws : length (concat (map (be_bytes 4) ws)) = (4 * length ws)%nat /\ Forall is_u8 (concat (map (be_bytes 4) ws)).
Proof.
  induction ws as [|w ws [IHl IHb]]; [done|]. cbn [map concat]. destruct (be_bytes_ok 4 w) as [Hl Hb]. rewrite length_app, Hl, IHl, Forall_app.
  split; [simpl; lia|done].
Qed.

Lemma sha256_len m : zlen (sha256 m) = 32.
Proof. unfold sha256, zlen. rewrite (proj1 (concat_words _)), (proj1 (hash_words _ _)). done. Qed.

Lemma sha256_bytes m : Forall is_u8 (sha256 m).
Proof. apply concat_words. Qed.

Lemma pg_sha256_final_ok c m : absorbed c m -> 8 * zlen m < 2 ^ 64 -> pg_sha256_final c = Ok (sha256 m, zero_ctx).
Proof.
  intros Hc Hlt. unfold pg_sha256_final. destruct (SHA256_Last_ok c m Hc Hlt) as (c' & -> & _ & Hs & _). cbn [mbind res_bind]. do 2 f_equal.
  unfold sha256. rewrite <- Hs. f_equal. apply map_ext_in. intros w Hw. apply REVERSE32_stored.
  destruct (hash_words (Z.to_nat (zlen (m ++ padding (zlen m)) / 64)) (m ++ padding (zlen m))) as [_ Hu]. rewrite <- Hs in Hu.
  rewrite Forall_forall in Hu. apply Hu. by apply list_elem_of_In.
Qed.

(** A message in pieces. *)
Fixpoint updates (c : pg_sha256_ctx) (pieces : list (list Z)) : res pg_sha256_ctx :=
  match pieces with
  | [] => Ok c
  | p :: pieces => c ← pg_sha256_update c p; updates c pieces
  end.

Lemma updates_ok c m pieces : absorbed c m -> Forall (Forall is_u8) pieces -> exists c', updates c pieces = Ok c' /\ absorbed c' (m ++ concat pieces).
Proof.
  revert c m. induction pieces as [|p ps IH]; intros c m Hc Hp; cbn [updates concat]; [exists c; by rewrite app_nil_r|].
  apply Forall_cons in Hp as [Hp Hps]. destruct (pg_sha256_update_ok c m p) as (c1 & -> & H1); [done..|]. cbn [mbind res_bind].
  destruct (IH c1 (m ++ p)) as (c2 & -> & H2); [done..|]. exists c2. split; [done|]. by rewrite app_assoc.
Qed.

(** C16: SHA-256 as implemented, with its in-place schedule window, partial
    blocks and byte reversals, computes the standard's digest: whatever the
    pieces a message (of less than 2^61 bytes) is fed in, no access leaves the
    buffers and the digest is [sha256] of their concatenation. *)
Theorem sha256_of_pieces pieces :
  Forall (Forall is_u8) pieces -> 8 * zlen (concat pieces) < 2 ^ 64 ->
  (c ← updates pg_sha256_init pieces; pg_sha256_final c) = Ok (sha256 (concat pieces), zero_ctx).
Proof.
  intros Hp Hl. destruct (updates_ok pg_sha256_init [] pieces absorbed_init Hp) as (c & -> & Hc). cbn [mbind res_bind]. by apply pg_sha256_final_ok.
Qed.

Lemma sha256_of_pieces_witness :
  (c ← updates pg_sha256_init [str "hello "; str "world"]; pg_sha256_final c) = Ok (sha256 (str "hello world"), zero_ctx) /\
  hex (sha256 (str "hello world")) = str "b94d27b9934d3e08a52e52d7da7dabfac484efe37a5380ee9088f7ace2efcde9".
Proof.
  split; [|by vm_compute]. apply (sha256_of_pieces [str "hello "; str "world"]); [|by vm_compute].
  apply (bool_decide_unpack (Forall (Forall (fun z => 0 <= z < 2 ^ 8)) [str "hello "; str "world"])). by vm_compute.
Defined.
