(* ===== verification/Hmac.v ===== *)
(** * HMAC-SHA-256 (src/common/hmac.c)

    The keyed hash context: the hash context and the two pads, arrays of the
    largest block size of which the first 64 bytes are used.  The calls return
    None for -1; allocations succeed.

    What is computed is the HMAC of RFC 2104 over [Sha2.sha256], also when the
    context is used again. *)

From S2P Require Import Prelude Sha2.
From stdpp Require Import base option list strings.
#[local] Open Scope Z_scope.

Definition HMAC_IPAD : Z := 0x36.
Definition HMAC_OPAD : Z := 0x5C.
Definition PG_SHA512_BLOCK_LENGTH : Z := 128.

Record pg_hmac_ctx := { hm_hash : pg_sha256_ctx; hm_ipad : list Z; hm_opad : list Z }.

Definition pg_hmac_create : pg_hmac_ctx :=
  let zeros := replicate (Z.to_nat PG_SHA512_BLOCK_LENGTH) 0 in {| hm_hash := zero_ctx; hm_ipad := zeros; hm_opad := zeros |}.

(** for (i = 0; i < len; i++) pad[i] ^= key[i] *)
Fixpoint xor_key (key : list Z) (i : Z) (pad : list Z) : res (list Z) :=
  match key with
  | [] => Ok pad
  | k :: key => b ← mem_get pad i; pad ← mem_store pad i [Z.lxor b k]; xor_key key (i + 1) pad
  end.

(** A key longer than a block is hashed. *)
Definition shrink_key (key : list Z) : res (option (list Z)) :=
  if bool_decide (zlen key > PG_SHA256_BLOCK_LENGTH) then
    h ← pg_sha256_update pg_sha256_init key;
    '(d, _) ← pg_cryptohash_final h PG_SHA256_DIGEST_LENGTH;
    Ok d
  else Ok (Some key).

Definition pg_hmac_init (c : pg_hmac_ctx) (key : list Z) : res (option pg_hmac_ctx) :=
  opad ← mem_store (hm_opad c) 0 (replicate (Z.to_nat PG_SHA256_BLOCK_LENGTH) HMAC_OPAD);
  ipad ← mem_store (hm_ipad c) 0 (replicate (Z.to_nat PG_SHA256_BLOCK_LENGTH) HMAC_IPAD);
  k ← shrink_key key;
  match k with
  | None => Ok None
  | Some key =>
      ipad ← xor_key key 0 ipad;
      opad ← xor_key key 0 opad;
      block ← mem_load ipad 0 PG_SHA256_BLOCK_LENGTH;
      h ← pg_sha256_update pg_sha256_init block;
      Ok (Some {| hm_hash := h; hm_ipad := ipad; hm_opad := opad |})
  end.

Definition pg_hmac_update (c : pg_hmac_ctx) (data : list Z) : res pg_hmac_ctx :=
  h ← pg_sha256_update (hm_hash c) data;
  Ok {| hm_hash := h; hm_ipad := hm_ipad c; hm_opad := hm_opad c |}.

Definition pg_hmac_final (c : pg_hmac_ctx) (len : Z) : res (option (list Z) * pg_hmac_ctx) :=
  let set h := {| hm_hash := h; hm_ipad := hm_ipad c; hm_opad := hm_opad c |} in
  '(d, h) ← pg_cryptohash_final (hm_hash c) PG_SHA256_DIGEST_LENGTH;
  match d with
  | None => Ok (None, set h)
  | Some d =>
      block ← mem_load (hm_opad c) 0 PG_SHA256_BLOCK_LENGTH;
      h ← pg_sha256_update pg_sha256_init block;
      h ← pg_sha256_update h d;
      '(d, h) ← pg_cryptohash_final h len;
      Ok (d, set h)
  end.

(** ** RFC 2104 *)

Definition block_key (key : list Z) : list Z :=
  let k := if bool_decide (zlen key > 64) then sha256 key else key in k ++ replicate (64 - length k) 0.

Definition xor_byte (v : Z) (key : list Z) : list Z := map (Z.lxor v) key.

Definition hmac (key msg : list Z) : list Z :=
  sha256 (xor_byte HMAC_OPAD (block_key key) ++ sha256 (xor_byte HMAC_IPAD (block_key key) ++ msg)).

(** ** What the code computes *)

Lemma lxor_u8 a b : is_u8 a -> is_u8 b -> is_u8 (Z.lxor a b).
Proof.
  unfold is_u8. intros Ha Hb. assert (Z.lxor a b = Z.lxor a b mod 2 ^ 8) as ->; [|apply Z.mod_pos_bound; lia].
  rewrite <- Z.land_ones by lia. apply Z.bits_inj'. intros i Hi. rewrite Z.land_spec, !Z.lxor_spec.
  destruct (decide (i < 8)); [by rewrite Z.ones_spec_low, andb_true_r by lia|].
  rewrite Z.ones_spec_high, andb_false_r by lia. rewrite <- (Z.mod_small a (2 ^ 8)), <- (Z.mod_small b (2 ^ 8)) by lia.
  by rewrite !Z.mod_pow2_bits_high by lia.
Qed.

Lemma xor_key_ok key pre post v : xor_key key (zlen pre) (pre ++ replicate (length key) v ++ post) = Ok (pre ++ map (Z.lxor v) key ++ post).
Proof.
  revert pre. induction key as [|k key IH]; intros pre; [done|]. cbn [xor_key length replicate map app].
  rewrite mem_get_byte by zlia. unfold byte, zlen. rewrite Nat2Z.id, app_nth2, Nat.sub_diag by lia. cbn [nth mbind res_bind]. fold (zlen pre).
  pose proof (mem_store_middle pre [v] (replicate (length key) v ++ post) [Z.lxor v k] eq_refl) as E. cbn [app] in E. rewrite E. cbn [mbind res_bind].
  replace (zlen pre + 1) with (zlen (pre ++ [Z.lxor v k])) by zlia. specialize (IH (pre ++ [Z.lxor v k])). rewrite <- !app_assoc in IH. cbn [app] in IH. exact IH.
Qed.

Definition pad_ok (p : list Z) : Prop := zlen p = 128 /\ Forall is_u8 p.
Definition pads_ok (c : pg_hmac_ctx) : Prop := pad_ok (hm_ipad c) /\ pad_ok (hm_opad c).

(** The context after some message under a key. *)
Definition keyed (c : pg_hmac_ctx) (key msg : list Z) : Prop :=
  pads_ok c /\ ztake 64 (hm_opad c) = xor_byte HMAC_OPAD (block_key key) /\ absorbed (hm_hash c) (xor_byte HMAC_IPAD (block_key key) ++ msg).

(** A pad with the key in. *)
Lemma pad_with_key p v key : pad_ok p -> is_u8 v -> Forall is_u8 key -> zlen key <= 64 ->
  exists p1 p2, mem_store p 0 (replicate 64 v) = Ok p1 /\ xor_key key 0 p1 = Ok p2 /\ pad_ok p2 /\ ztake 64 p2 = xor_byte v (key ++ replicate (64 - length key) 0).
Proof.
  intros [Hl Hp] Hv Hk Hlen. assert (E : mem_store p 0 (replicate 64 v) = Ok (replicate 64 v ++ zdrop 64 p)) by (unfold mem_store; by rewrite bool_decide_eq_true_2 by (split; [lia|unfold zlen at 1; rewrite length_replicate; lia])).
  set (tail := replicate (64 - length key) v ++ zdrop 64 p). assert (length key <= 64)%nat by (unfold zlen in Hlen; lia).
  assert (Es : replicate 64 v ++ zdrop 64 p = replicate (length key) v ++ tail) by (unfold tail; rewrite app_assoc, <- replicate_add; by replace (length key + (64 - length key))%nat with 64%nat by lia).
  exists (replicate 64 v ++ zdrop 64 p), (map (Z.lxor v) key ++ tail). split_and!; [done| | |].
  - rewrite Es. apply (xor_key_ok key [] tail v).
  - split; [unfold tail, zlen; rewrite !length_app, length_map, length_replicate; unfold zdrop, zlen in *; rewrite length_drop; lia|].
    apply Forall_app. split; [apply Forall_fmap; eapply Forall_impl; [exact Hk|]; intros k ?; by apply lxor_u8|].
    apply Forall_app. split; [by apply Forall_replicate|by apply Forall_zdrop].
  - unfold tail, xor_byte. rewrite map_app, app_assoc. assert (map (Z.lxor v) (replicate (64 - length key) 0) = replicate (64 - length key) v) as ->.
    { generalize (64 - length key)%nat. induction n as [|n IH]; [done|]. cbn [replicate map]. by rewrite IH, Z.lxor_0_r. }
    rewrite ztake_app_le, ztake_all; [done|..]; unfold zlen; rewrite length_app, length_map, length_replicate; lia.
Qed.

Lemma cryptohash_final_ok c m len : absorbed c m -> 8 * zlen m < 2 ^ 64 -> 32 <= len -> pg_cryptohash_final c len = Ok (Some (sha256 m), zero_ctx).
Proof.
  intros Hc Hm Hl. unfold pg_cryptohash_final. rewrite bool_decide_eq_false_2 by (unfold PG_SHA256_DIGEST_LENGTH; lia). by rewrite (pg_sha256_final_ok _ m).
Qed.

Lemma shrink_key_ok key : Forall is_u8 key -> 8 * zlen key < 2 ^ 64 ->
  let k := if bool_decide (zlen key > 64) then sha256 key else key in shrink_key key = Ok (Some k) /\ Forall is_u8 k /\ zlen k <= 64.
Proof.
  intros Hk Hl. unfold shrink_key, PG_SHA256_BLOCK_LENGTH. case_bool_decide; [|split_and!; [done|done|lia]].
  destruct (pg_sha256_update_ok pg_sha256_init [] key absorbed_init Hk) as (c & -> & Hc). cbn [mbind res_bind app] in *.
  rewrite (cryptohash_final_ok _ key) by done. cbn [mbind res_bind].
  split_and!; [done|apply sha256_bytes|rewrite sha256_len; lia].
Qed.

Lemma pg_hmac_init_ok c key : pads_ok c -> Forall is_u8 key -> 8 * zlen key < 2 ^ 64 -> exists c', pg_hmac_init c key = Ok (Some c') /\ keyed c' key [].
Proof.
  intros [Hi Ho] Hk Hl. destruct (shrink_key_ok key Hk Hl) as (Es & Hu & Hle). set (k := if bool_decide _ then _ else _) in *. unfold pg_hmac_init.
  destruct (pad_with_key (hm_opad c) HMAC_OPAD k) as (o1 & o2 & EO1 & EO2 & HO & TO); [done|unfold is_u8, HMAC_OPAD; lia|done|done|].
  destruct (pad_with_key (hm_ipad c) HMAC_IPAD k) as (i1 & i2 & EI1 & EI2 & HI & TI); [done|unfold is_u8, HMAC_IPAD; lia|done|done|].
  unfold PG_SHA256_BLOCK_LENGTH. change (Z.to_nat 64) with 64%nat. rewrite EO1. cbn [mbind res_bind]. rewrite EI1. cbn [mbind res_bind]. rewrite Es. cbn [mbind res_bind].
  rewrite EI2. cbn [mbind res_bind]. rewrite EO2. cbn [mbind res_bind]. rewrite mem_load_ok by (destruct HI; lia). cbn [mbind res_bind]. rewrite slice_0. change (0 + 64) with 64.
  destruct (pg_sha256_update_ok pg_sha256_init [] (ztake 64 i2) absorbed_init) as (h & -> & Hh); [by apply Forall_ztake, HI|]. cbn [mbind res_bind].
  eexists. split; [done|]. split; [done|]. split; [exact TO|]. rewrite app_nil_r. cbn [hm_hash]. rewrite TI in Hh. exact Hh.
Qed.

Lemma pg_hmac_update_ok c key msg data : keyed c key msg -> Forall is_u8 data -> exists c', pg_hmac_update c data = Ok c' /\ keyed c' key (msg ++ data).
Proof.
  intros (Hp & Ho & Hh) Hd. unfold pg_hmac_update. destruct (pg_sha256_update_ok _ _ data Hh Hd) as (h & -> & H'). cbn [mbind res_bind].
  eexists. split; [done|]. split_and!; [done|done|]. by rewrite app_assoc.
Qed.

Lemma block_key_len key : zlen (block_key key) = 64.
Proof.
  unfold block_key. set (k := if bool_decide _ then _ else _). assert (length k <= 64)%nat.
  { unfold k. case_bool_decide as H; [pose proof (sha256_len key); unfold zlen in *; lia|unfold zlen in H; lia]. }
  unfold zlen. rewrite length_app, length_replicate. lia.
Qed.

Lemma xor_byte_len v k : zlen (xor_byte v k) = zlen k.
Proof. unfold xor_byte, zlen. by rewrite length_map. Qed.

Lemma pg_hmac_final_ok c key msg len : keyed c key msg -> 8 * (64 + zlen msg) < 2 ^ 64 -> 32 <= len ->
  exists c', pg_hmac_final c len = Ok (Some (hmac key msg), c') /\ pads_ok c'.
Proof.
  intros (Hp & Ho & Hh) Hl Hlen. unfold pg_hmac_final.
  rewrite (cryptohash_final_ok _ _ _ Hh) by (done || rewrite zlen_app, xor_byte_len, block_key_len; lia). cbn [mbind res_bind].
  unfold PG_SHA256_BLOCK_LENGTH. rewrite mem_load_ok by (destruct Hp as [_ [? _]]; lia). rewrite slice_0. change (0 + 64) with 64. cbn [mbind res_bind]. rewrite Ho.
  set (x := xor_byte HMAC_OPAD (block_key key)) in *. set (d := sha256 (xor_byte HMAC_IPAD (block_key key) ++ msg)) in *.
  destruct (pg_sha256_update_ok pg_sha256_init [] x absorbed_init) as (h1 & -> & H1); [rewrite <- Ho; apply Forall_ztake, Hp|]. cbn [mbind res_bind].
  destruct (pg_sha256_update_ok h1 _ d H1) as (h2 & -> & H2); [apply sha256_bytes|]. cbn [mbind res_bind].
  rewrite (cryptohash_final_ok _ _ _ H2) by (done || cbn [app]; rewrite zlen_app; unfold x, d; rewrite sha256_len, xor_byte_len, block_key_len; lia).
  cbn [mbind res_bind]. eexists. split; [done|]. exact Hp.
Qed.

Lemma pads_ok_create : pads_ok pg_hmac_create.
Proof. split; (split; [done|]; apply Forall_replicate; unfold is_u8; lia). Qed.

Lemma hmac_len key msg : zlen (hmac key msg) = 32.
Proof. apply sha256_len. Qed.

Lemma hmac_bytes key msg : Forall is_u8 (hmac key msg).
Proof. apply sha256_bytes. Qed.

(** Test case 2 of RFC 4231. *)
Example hmac_rfc4231 : hex (hmac (str "Jefe") (str "what do ya want for nothing?")) = str "5bdcc146bf60754e6a042426089575c75a003f089d2739839dec58b964ec3843".
Proof. by vm_compute. Qed.

#[export] Hint Resolve hmac_bytes sha256_bytes pads_ok_create : pgb.
#[export] Hint Rewrite hmac_len sha256_len : zlen.
