(* ===== verification/ScramCommon.v ===== *)
(** * SCRAM keys (src/common/scram-common.c)

    Salted passwords, the keys made of them and the text of a stored secret,
    for SHA-256 and keys of 32 bytes.  A call that returns -1 is None.

    The keys are those of RFC 5802 over [Hmac.hmac] and [Sha2.sha256]. *)

From S2P Require Import Prelude Base64 Sha2 Hmac.
From stdpp Require Import base option list strings.
#[local] Open Scope Z_scope.

Definition SCRAM_SHA_256_KEY_LEN : Z := PG_SHA256_DIGEST_LENGTH.

(** A chain of pg_hmac_init, pg_hmac_update.. and pg_hmac_final on a context. *)
Fixpoint hmac_updates (c : pg_hmac_ctx) (pieces : list (list Z)) : res pg_hmac_ctx :=
  match pieces with
  | [] => Ok c
  | p :: pieces => c ← pg_hmac_update c p; hmac_updates c pieces
  end.

Definition hmac_chain (c : pg_hmac_ctx) (key : list Z) (pieces : list (list Z)) (len : Z) : res (option (list Z) * pg_hmac_ctx) :=
  i ← pg_hmac_init c key;
  match i with
  | None => Ok (None, c)
  | Some c => c ← hmac_updates c pieces; pg_hmac_final c len
  end.

(** for (j = 0; j < key_length; j++) result[j] ^= Ui[j] *)
Definition xor_bytes (a b : list Z) : list Z := zip_with Z.lxor a b.

Fixpoint salted_loop (n : nat) (c : pg_hmac_ctx) (password Ui_prev result : list Z) : res (option (list Z)) :=
  match n with
  | O => Ok (Some result)
  | S n =>
      '(u, c) ← hmac_chain c password [Ui_prev] SCRAM_SHA_256_KEY_LEN;
      match u with
      | None => Ok None
      | Some Ui => salted_loop n c password Ui (xor_bytes result Ui)
      end
  end.

Definition scram_SaltedPassword (password salt : list Z) (iterations : Z) : res (option (list Z)) :=
  '(u, c) ← hmac_chain pg_hmac_create password [salt; [0; 0; 0; 1]] SCRAM_SHA_256_KEY_LEN;
  match u with
  | None => Ok None
  | Some Ui => salted_loop (Z.to_nat (iterations - 1)) c password Ui Ui
  end.

Definition scram_H (input : list Z) : res (option (list Z)) :=
  c ← pg_sha256_update pg_sha256_init input;
  '(d, _) ← pg_cryptohash_final c SCRAM_SHA_256_KEY_LEN;
  Ok d.

Definition scram_ClientKey (salted_password : list Z) : res (option (list Z)) :=
  '(d, _) ← hmac_chain pg_hmac_create salted_password [str "Client Key"] SCRAM_SHA_256_KEY_LEN;
  Ok d.

Definition scram_ServerKey (salted_password : list Z) : res (option (list Z)) :=
  '(d, _) ← hmac_chain pg_hmac_create salted_password [str "Server Key"] SCRAM_SHA_256_KEY_LEN;
  Ok d.

(** Steps that may fail, one after the other. *)
Definition and_then {A B} (m : res (option A)) (f : A -> res (option B)) : res (option B) :=
  r ← m; match r with None => Ok None | Some a => f a end.

(** The text is written to a buffer of [maxlen] bytes. *)
Definition scram_build_secret (salt : list Z) (iterations : Z) (password : list Z) : res (option (list Z)) :=
  and_then (scram_SaltedPassword password salt iterations) (fun salted_password =>
  and_then (scram_ClientKey salted_password) (fun client_key =>
  and_then (scram_H client_key) (fun stored_key =>
  and_then (scram_ServerKey salted_password) (fun server_key =>
  let encoded_salt_len := pg_b64_enc_len (zlen salt) in
  let encoded_key_len := pg_b64_enc_len SCRAM_SHA_256_KEY_LEN in
  let maxlen := 13 + 1 + 10 + 1 + encoded_salt_len + 1 + encoded_key_len + 1 + encoded_key_len + 1 in
  and_then (Ok (pg_b64_encode salt encoded_salt_len)) (fun s =>
  and_then (Ok (pg_b64_encode stored_key encoded_key_len)) (fun k =>
  and_then (Ok (pg_b64_encode server_key encoded_key_len)) (fun v =>
  let result := str "SCRAM-SHA-256$" ++ dec_int iterations ++ [58] ++ s ++ [36] ++ k ++ [58] ++ v in
  if bool_decide (zlen result + 1 <= maxlen) then Ok (Some result) else Undef))))))).

(** ** RFC 5802 *)

Fixpoint hi_loop (n : nat) (password u acc : list Z) : list Z :=
  match n with
  | O => acc
  | S n => let u := hmac password u in hi_loop n password u (xor_bytes acc u)
  end.

Definition hi (password salt : list Z) (iterations : Z) : list Z :=
  let u := hmac password (salt ++ [0; 0; 0; 1]) in hi_loop (Z.to_nat (iterations - 1)) password u u.

Definition client_key (salted : list Z) : list Z := hmac salted (str "Client Key").
Definition server_key (salted : list Z) : list Z := hmac salted (str "Server Key").
Definition stored_key (salted : list Z) : list Z := sha256 (client_key salted).

(** ** What the code computes *)

(** A text or key: bytes, and short enough for the bit counts to be exact. *)
Definition short (l : list Z) : Prop := Forall is_u8 l /\ zlen l < 2 ^ 32.

Lemma hmac_updates_ok c key msg pieces : keyed c key msg -> Forall (Forall is_u8) pieces -> exists c', hmac_updates c pieces = Ok c' /\ keyed c' key (msg ++ concat pieces).
Proof.
  revert c msg. induction pieces as [|p ps IH]; intros c msg Hc Hp; cbn [hmac_updates concat]; [exists c; by rewrite app_nil_r|].
  apply Forall_cons in Hp as [Hp Hps]. destruct (pg_hmac_update_ok c key msg p) as (c1 & -> & H1); [done..|]. cbn [mbind res_bind].
  destruct (IH c1 (msg ++ p)) as (c2 & -> & H2); [done..|]. exists c2. split; [done|]. by rewrite app_assoc.
Qed.

Lemma hmac_chain_ok c key pieces : pads_ok c -> short key -> Forall (Forall is_u8) pieces -> zlen (concat pieces) < 2 ^ 40 ->
  exists c', hmac_chain c key pieces 32 = Ok (Some (hmac key (concat pieces)), c') /\ pads_ok c'.
Proof.
  intros Hc [Hk Hl] Hp Hn. unfold hmac_chain. destruct (pg_hmac_init_ok c key) as (c1 & -> & H1); [done|done|lia|]. cbn [mbind res_bind].
  destruct (hmac_updates_ok c1 key [] pieces) as (c2 & -> & H2); [done..|]. cbn [mbind res_bind]. by apply pg_hmac_final_ok; [|lia..].
Qed.

Lemma xor_bytes_len a b : zlen a = zlen b -> zlen (xor_bytes a b) = zlen a.
Proof. unfold xor_bytes, zlen. rewrite length_zip_with. lia. Qed.

Lemma xor_bytes_u8 a b : Forall is_u8 a -> Forall is_u8 b -> Forall is_u8 (xor_bytes a b).
Proof.
  revert b. induction a as [|x a IH]; intros [|y b] Ha Hb; try by apply Forall_nil. unfold xor_bytes. cbn [zip_with].
  apply Forall_cons in Ha as [? ?]. apply Forall_cons in Hb as [? ?]. apply Forall_cons. split; [by apply lxor_u8|by apply IH].
Qed.

(** Applying the mask twice gives the bytes back. *)
Lemma xor_bytes_involutive a b : zlen a = zlen b -> xor_bytes (xor_bytes a b) b = a.
Proof.
  unfold xor_bytes, zlen. revert b. induction a as [|x a IH]; intros [|y b] H; try done. cbn [zip_with]. f_equal; [|apply IH; cbn in H; lia].
  by rewrite Z.lxor_assoc, Z.lxor_nilpotent, Z.lxor_0_r.
Qed.

(** A key: 32 bytes. *)
Definition key32 (k : list Z) : Prop := Forall is_u8 k /\ zlen k = 32.

Lemma key32_short k : key32 k -> short k.
Proof. intros [? H]. split; [done|]. rewrite H. lia. Qed.

Lemma hmac_key32 k m : key32 (hmac k m).
Proof. split; [apply hmac_bytes|apply hmac_len]. Qed.

Lemma sha256_key32 m : key32 (sha256 m).
Proof. split; [apply sha256_bytes|apply sha256_len]. Qed.

Lemma xor_key32 a b : key32 a -> key32 b -> key32 (xor_bytes a b).
Proof. intros [? ?] [? ?]. split; [by apply xor_bytes_u8|]. rewrite xor_bytes_len; congruence. Qed.

#[export] Hint Resolve key32_short hmac_key32 sha256_key32 xor_key32 : pgb.

Lemma hi_loop_key32 n password u acc : key32 acc -> key32 (hi_loop n password u acc).
Proof. revert u acc. induction n as [|n IH]; intros u acc H; [done|]. cbn [hi_loop]. apply IH. auto with pgb. Qed.

Lemma hi_key32 password salt n : key32 (hi password salt n).
Proof. apply hi_loop_key32, hmac_key32. Qed.

#[export] Hint Resolve hi_key32 : pgb.

Lemma salted_loop_ok n c password u acc : pads_ok c -> short password -> key32 u -> salted_loop n c password u acc = Ok (Some (hi_loop n password u acc)).
Proof.
  intros Hc Hp. revert c u acc Hc. induction n as [|n IH]; intros c u acc Hc Hu; [done|]. cbn [salted_loop hi_loop].
  destruct (hmac_chain_ok c password [u]) as (c1 & E & H1); [done|done|apply Forall_singleton, Hu|cbn [concat]; rewrite app_nil_r, (proj2 Hu); lia|].
  change SCRAM_SHA_256_KEY_LEN with 32. rewrite E. cbn [mbind res_bind concat]. rewrite app_nil_r. apply IH; auto with pgb.
Qed.

Lemma scram_SaltedPassword_ok password salt n : short password -> short salt -> scram_SaltedPassword password salt n = Ok (Some (hi password salt n)).
Proof.
  intros Hp [Hs Hl]. unfold scram_SaltedPassword. change SCRAM_SHA_256_KEY_LEN with 32.
  destruct (hmac_chain_ok pg_hmac_create password [salt; [0; 0; 0; 1]]) as (c & -> & Hc); [auto with pgb|done| | |].
  - repeat (apply Forall_cons; split); [done|unfold is_u8; lia..|by apply Forall_nil|by apply Forall_nil].
  - cbn [concat]. zlia.
  - cbn [mbind res_bind concat]. rewrite app_nil_r. rewrite salted_loop_ok by auto with pgb. done.
Qed.

Lemma scram_H_ok k : short k -> scram_H k = Ok (Some (sha256 k)).
Proof.
  intros [Hk Hl]. unfold scram_H. destruct (pg_sha256_update_ok pg_sha256_init [] k absorbed_init Hk) as (c & -> & Hc). cbn [mbind res_bind app] in *.
  rewrite (cryptohash_final_ok _ _ _ Hc); [done|lia|done].
Qed.

Lemma scram_ClientKey_ok k : short k -> scram_ClientKey k = Ok (Some (client_key k)).
Proof.
  intros Hk. unfold scram_ClientKey. change SCRAM_SHA_256_KEY_LEN with 32.
  destruct (hmac_chain_ok pg_hmac_create k [str "Client Key"]) as (c & -> & _); [auto with pgb|done|apply Forall_singleton, str_bytes|done|]. done.
Qed.

Lemma scram_ServerKey_ok k : short k -> scram_ServerKey k = Ok (Some (server_key k)).
Proof.
  intros Hk. unfold scram_ServerKey. change SCRAM_SHA_256_KEY_LEN with 32.
  destruct (hmac_chain_ok pg_hmac_create k [str "Server Key"]) as (c & -> & _); [auto with pgb|done|apply Forall_singleton, str_bytes|done|]. done.
Qed.

(** The stored secret of a password. *)
Definition secret_text (salt : list Z) (iterations : Z) (stored server : list Z) : list Z :=
  str "SCRAM-SHA-256$" ++ dec_int iterations ++ [58] ++ text salt ++ [36] ++ text stored ++ [58] ++ text server.

Definition secret_of (password salt : list Z) (iterations : Z) : list Z :=
  let s := hi password salt iterations in secret_text salt iterations (stored_key s) (server_key s).

Lemma dec_digits_short fuel n k acc : 0 <= n < 10 ^ Z.of_nat k -> (0 < k)%nat -> zlen (dec_digits fuel n acc) <= zlen acc + Z.of_nat k.
Proof.
  revert fuel n acc. induction k as [|k IH]; intros fuel n acc Hn Hk; [lia|]. destruct fuel as [|fuel]; cbn [dec_digits]; [zlia|].
  case_bool_decide as E; [zlia|]. rewrite Nat2Z.inj_succ, Z.pow_succ_r in Hn by lia.
  assert (0 <= n / 10 < 10 ^ Z.of_nat k) by (split; [apply Z.div_pos; lia|apply Z.div_lt_upper_bound; lia]).
  destruct k as [|k]; [change (10 ^ Z.of_nat 0) with 1 in *; lia|]. etrans; [apply IH; [done|lia]|]. zlia.
Qed.

Lemma scram_build_secret_ok salt iterations password : short password -> short salt -> 0 < iterations <= INT_MAX ->
  scram_build_secret salt iterations password = Ok (Some (secret_of password salt iterations)).
Proof.
  intros Hp Hs Hi. unfold scram_build_secret, and_then. rewrite scram_SaltedPassword_ok by done. cbn [mbind res_bind]. set (s := hi password salt iterations).
  assert (Hk : key32 s) by apply hi_key32. rewrite scram_ClientKey_ok by auto with pgb. cbn [mbind res_bind]. rewrite scram_H_ok by (unfold client_key; auto with pgb). cbn [mbind res_bind].
  rewrite scram_ServerKey_ok by auto with pgb. cbn [mbind res_bind]. fold (stored_key s). change SCRAM_SHA_256_KEY_LEN with 32.
  destruct (sha256_key32 (client_key s)) as [B1 L1]. fold (stored_key s) in B1, L1. destruct (hmac_key32 s (str "Server Key")) as [B2 L2]. fold (server_key s) in B2, L2.
  rewrite (pg_b64_encode_text salt) by (lia || apply Hs). cbn [mbind res_bind]. rewrite (pg_b64_encode_text (stored_key s)) by (done || rewrite L1; lia). cbn [mbind res_bind].
  rewrite (pg_b64_encode_text (server_key s)) by (done || rewrite L2; lia). cbn [mbind res_bind]. rewrite bool_decide_eq_true_2; [done|].
  assert (zlen (dec_int iterations) <= 10).
  { unfold dec_int. rewrite bool_decide_eq_false_2 by lia. unfold dec. etrans; [apply (dec_digits_short 20 iterations 10 []); [unfold INT_MAX in Hi; change (10 ^ Z.of_nat 10) with 10000000000; lia|lia]|done]. }
  rewrite !zlen_app, !text_len, L1, L2. change (zlen (str "SCRAM-SHA-256$")) with 14. change (zlen [58]) with 1. change (zlen [36]) with 1. lia.
Qed.
