(* ===== verification/Tokens.v ===== *)
(** * Tokens of configuration lines and file names (src/hba.c)

    The parser the HBA and ident map files are read with.  A line is a C
    string, the bytes before its NUL.  The buffer of the parser holds the bytes
    written to it so far; it is allocated again when a token does not fit, and
    [tk_gen] counts the allocations, so that a pointer into an earlier one is
    known to dangle.  Allocations succeed.

    [lexes] is the lexical grammar.  The parser reads from a line exactly the
    tokens the grammar gives, and stays within its buffer on any line. *)

From S2P Require Import Prelude.
From stdpp Require Import base option list strings.
#[local] Open Scope Z_scope.

Inductive TokType := TOK_STRING | TOK_IDENT | TOK_COMMA | TOK_FAIL | TOK_EOL.

#[export] Instance TokType_eq_dec : EqDecision TokType.
Proof. solve_decision. Defined.

(** cur_tok_str is buf when cur_tok is TOK_STRING or TOK_IDENT, else NULL. *)
Record TokParser := mkTok {
  tk_pos : option (list Z);
  cur_tok : TokType;
  tk_buf : list Z;
  tk_buflen : Z;
  tk_gen : nat
}.

Definition QUOTE : Z := 34.
Definition HASH : Z := 35.
Definition COMMA : Z := 44.
Definition SLASH : Z := 47.

(** isspace() in the C locale *)
Definition isspace (c : Z) : bool := bool_decide (9 <= c <= 13) || bool_decide (c = 32).

(** The C string at the start of some bytes; None if there is no NUL. *)
Fixpoint c_str (l : list Z) : option (list Z) :=
  match l with
  | [] => None
  | c :: l => if bool_decide (c = 0) then Some [] else (c ::.) <$> c_str l
  end.

Definition tok_buf_check (p : TokParser) (len : Z) : TokParser :=
  if bool_decide (tk_buflen p >= len) then p
  else mkTok (tk_pos p) (cur_tok p) (tk_buf p) (len * 2) (S (tk_gen p)).

(** Stores to the start of buf. *)
Definition buf_store (p : TokParser) (bs : list Z) : res TokParser :=
  if bool_decide (zlen bs <= tk_buflen p) then Ok (mkTok (tk_pos p) (cur_tok p) (bs ++ zdrop (zlen bs) (tk_buf p)) (tk_buflen p) (tk_gen p))
  else Undef.

Definition set_tok (p : TokParser) (pos : option (list Z)) (tok : TokType) : TokParser :=
  mkTok pos tok (tk_buf p) (tk_buflen p) (tk_gen p).

Fixpoint skip_space (s : list Z) : list Z :=
  match s with
  | c :: s' => if isspace c then skip_space s' else s
  | [] => []
  end.

(** The text up to the closing quote, which starts the rest. *)
Fixpoint scan_quoted (s : list Z) : option (list Z * list Z) :=
  match s with
  | [] => None
  | c :: s' =>
      if bool_decide (c = QUOTE) then
        match s' with
        | c' :: s'' =>
            if bool_decide (c' = QUOTE) then '(raw, rest) ← scan_quoted s''; Some (c :: c' :: raw, rest) else Some ([], s)
        | [] => Some ([], s)
        end
      else '(raw, rest) ← scan_quoted s'; Some (c :: raw, rest)
  end.

(** The copy loop: after a quote one more byte is skipped. *)
Fixpoint unquote (raw : list Z) : list Z :=
  match raw with
  | [] => []
  | c :: raw => c :: (if bool_decide (c = QUOTE) then match raw with _ :: raw => unquote raw | [] => [] end else unquote raw)
  end.

Definition ends_word (c : Z) : bool :=
  bool_decide (c = COMMA) || bool_decide (c = HASH) || bool_decide (c = QUOTE) || isspace c.

Fixpoint scan_word (s : list Z) : list Z * list Z :=
  match s with
  | c :: s' => if ends_word c then ([], s) else let '(w, rest) := scan_word s' in (c :: w, rest)
  | [] => ([], [])
  end.

(** The new cur_tok is the value the function returns. *)
Definition next_token (p : TokParser) : res TokParser :=
  if bool_decide (cur_tok p = TOK_EOL) then Ok p
  else
    match tk_pos p with
    | None => Undef
    | Some s =>
        match skip_space s with
        | [] => Ok (set_tok p None TOK_EOL)
        | (c :: s') as s =>
            if bool_decide (c = HASH) then Ok (set_tok p None TOK_EOL)
            else if bool_decide (c = COMMA) then Ok (set_tok p (Some s') TOK_COMMA)
            else if bool_decide (c = QUOTE) then
              match scan_quoted s' with
              | None => Ok (set_tok p (Some s) TOK_FAIL)
              | Some (raw, rest) =>
                  p ← buf_store (tok_buf_check p (zlen raw + 1)) (unquote raw ++ [0]);
                  Ok (set_tok p (Some (drop 1 rest)) TOK_STRING)
              end
            else
              let '(w, rest) := scan_word s' in
              p ← buf_store (tok_buf_check p (zlen w + 1 + 1)) (c :: w ++ [0]);
              Ok (set_tok p (Some rest) TOK_IDENT)
        end
    end.

Definition eat_all (p : TokParser) : TokParser := set_tok p (tk_pos p) TOK_EOL.

Definition eat (p : TokParser) (ttype : TokType) : res (bool * TokParser) :=
  if bool_decide (cur_tok p = ttype) then p ← next_token p; Ok (true, p) else Ok (false, p).

(** The string at cur_tok_str. *)
Definition tok_str (p : TokParser) : res (list Z) :=
  match c_str (tk_buf p) with Some s => Ok s | None => Undef end.

Definition check_kw (p : TokParser) (kw : list Z) : res bool :=
  if bool_decide (cur_tok p = TOK_IDENT) then s ← tok_str p; Ok (bool_decide (kw = s)) else Ok false.

Definition eat_kw (p : TokParser) (kw : list Z) : res (bool * TokParser) :=
  b ← check_kw p kw;
  if b : bool then p ← next_token p; Ok (true, p) else Ok (false, p).

(** *str_p, or None when the answer is false. *)
Definition expect (p : TokParser) (ttype : TokType) : res (option (list Z)) :=
  if bool_decide (cur_tok p = ttype) then s ← tok_str p; Ok (Some s) else Ok None.

Definition init_parser : TokParser := mkTok None TOK_STRING [] 0 0.

Definition parse_from_string (p : TokParser) (s : list Z) : res TokParser := next_token (set_tok p (Some s) TOK_COMMA).

(** ** File names *)

Definition path_join (p1 p2 : list Z) : list Z :=
  if bool_decide (head p2 = Some SLASH) || bool_decide (p1 = []) || bool_decide (p1 = str ".") then p2
  else p1 ++ (if bool_decide (last p1 = Some SLASH) then [] else [SLASH]) ++ p2.

(** Without the slashes at the end. *)
Fixpoint strip_slashes (l : list Z) : list Z :=
  match l with
  | [] => []
  | c :: l => match strip_slashes l with [] => if bool_decide (c = SLASH) then [] else [c] | l' => c :: l' end
  end.

(** The part before the last slash, if there is one (memrchr). *)
Fixpoint before_slash (l : list Z) : option (list Z) :=
  match l with
  | [] => None
  | c :: l => match before_slash l with Some l' => Some (c :: l') | None => if bool_decide (c = SLASH) then Some [] else None end
  end.

(** lib/usual/string.c; its answer for a directory of 1024 bytes or more is
    NULL. *)
Definition dirname (path : list Z) : option (list Z) :=
  match path with
  | [] => Some (str ".")
  | _ =>
      match strip_slashes path with
      | [] => Some (str "/")
      | l =>
          match before_slash l with
          | None => Some (str ".")
          | Some l =>
              match strip_slashes l with
              | [] => Some (str "/")
              | l => if bool_decide (zlen l > 1023) then None else Some l
              end
          end
      end
  end.

(** path_join reads through the result of dirname. *)
Definition path_join_dirname (parent fn : list Z) : res (list Z) :=
  if bool_decide (head fn = Some SLASH) then Ok fn
  else match dirname parent with Some basedir => Ok (path_join basedir fn) | None => Undef end.

(** ** The lexical grammar *)

Inductive token := TIdent (s : list Z) | TString (s : list Z) | TComma.

Definition quote (s : list Z) : list Z := flat_map (fun c => if bool_decide (c = QUOTE) then [c; c] else [c]) s.

Definition word (s : list Z) : Prop := s <> [] /\ Forall (fun c => ends_word c = false) s.

Inductive lexes : list Z -> list token -> Prop :=
| lex_end : lexes [] []
| lex_comment l : lexes (HASH :: l) []
| lex_space c l ts : isspace c = true -> lexes l ts -> lexes (c :: l) ts
| lex_comma l ts : lexes l ts -> lexes (COMMA :: l) (TComma :: ts)
| lex_quoted s l ts : head l <> Some QUOTE -> lexes l ts -> lexes (QUOTE :: quote s ++ QUOTE :: l) (TString s :: ts)
| lex_word s l ts : word s -> (forall c, head l = Some c -> ends_word c = true) -> lexes l ts -> lexes (s ++ l) (TIdent s :: ts).

(** ** Scanning *)

#[local] Abbreviation no_nul := (Forall (fun c => c <> 0)).

Lemma c_str_app s l : no_nul s -> c_str (s ++ 0 :: l) = Some s.
Proof. induction 1 as [|c s Hc _ IH]; cbn; [done|]. rewrite bool_decide_eq_false_2 by done. by rewrite IH. Qed.

Lemma scan_quote s l : head l <> Some QUOTE -> scan_quoted (quote s ++ QUOTE :: l) = Some (quote s, QUOTE :: l).
Proof.
  intros Hl. induction s as [|c s IH].
  - cbn [quote flat_map app scan_quoted]. rewrite bool_decide_eq_true_2 by done. destruct l as [|c l]; [done|].
    rewrite bool_decide_eq_false_2; [done|]. by intros ->.
  - cbn [quote flat_map]. change (flat_map _ s) with (quote s). case_bool_decide as Hc; cbn [app scan_quoted].
    + subst c. rewrite !bool_decide_eq_true_2 by done. by rewrite IH.
    + rewrite bool_decide_eq_false_2 by done. by rewrite IH.
Qed.

Lemma unquote_quote s : unquote (quote s) = s.
Proof.
  induction s as [|c s IH]; [done|]. cbn [quote flat_map]. change (flat_map _ s) with (quote s).
  case_bool_decide as Hc; cbn [app unquote]; [rewrite bool_decide_eq_true_2 by done|rewrite bool_decide_eq_false_2 by done]; by rewrite IH.
Qed.

Lemma scan_word_app w l :
  Forall (fun c => ends_word c = false) w -> (forall c, head l = Some c -> ends_word c = true) -> scan_word (w ++ l) = (w, l).
Proof.
  intros Hw Hl. induction Hw as [|c w Hc _ IH]; cbn.
  - destruct l as [|c l]; [done|]. cbn. by rewrite (Hl c).
  - by rewrite Hc, IH.
Qed.

Lemma unquote_forall (C : Z -> Prop) raw : forall n, (length raw <= n)%nat -> Forall C raw -> Forall C (unquote raw) /\ (length (unquote raw) <= length raw)%nat.
Proof.
  intros n. revert raw. induction n as [|n IH]; intros [|c raw] Hn Hr; cbn in *; try lia; [done..|].
  apply Forall_cons in Hr as [Hc Hr]. case_bool_decide.
  - destruct raw as [|c' raw]; [split; [by apply Forall_singleton|cbn; lia]|]. apply Forall_cons in Hr as [_ Hr]. cbn in Hn.
    destruct (IH raw) as [H1 H2]; [lia|done|]. split; [by constructor|cbn; lia].
  - destruct (IH raw) as [H1 H2]; [lia|done|]. split; [by constructor|cbn; lia].
Qed.

Lemma scan_quoted_split s : forall n raw rest, (length s <= n)%nat ->
  scan_quoted s = Some (raw, rest) -> s = raw ++ rest /\ exists l, rest = QUOTE :: l.
Proof.
  intros n. revert s. induction n as [|n IH]; intros [|c s] raw rest Hn; cbn in *; try done; try lia.
  assert (Hs : forall s' raw rest, (length s' <= n)%nat -> scan_quoted s' = Some (raw, rest) -> s' = raw ++ rest /\ exists l, rest = QUOTE :: l)
    by (intros s'; exact (IH s')). clear IH. case_bool_decide as Hc.
  - subst c. destruct s as [|c' s]; [intros [= <- <-]; by eauto|]. case_bool_decide.
    + destruct (scan_quoted s) as [[raw' rest']|] eqn:E; [|done]. cbn. intros [= <- <-]. cbn in Hn.
      destruct (Hs s raw' rest') as [-> Hr]; [lia|done|done].
    + intros [= <- <-]; by eauto.
  - destruct (scan_quoted s) as [[raw' rest']|] eqn:E; [|done]. cbn. intros [= <- <-].
    destruct (Hs s raw' rest') as [-> Hr]; [lia|done|done].
Qed.

Lemma scan_word_split s : (scan_word s).1 ++ (scan_word s).2 = s.
Proof. induction s as [|c s IH]; cbn; [done|]. destruct (ends_word c); [done|]. destruct (scan_word s). cbn in *. by rewrite IH. Qed.

Lemma skip_space_suffix s : exists l, s = l ++ skip_space s.
Proof. induction s as [|c s [l IH]]; cbn; [by exists []|]. destruct (isspace c); [exists (c :: l); cbn; by rewrite <- IH|by exists []]. Qed.

(** ** The buffer *)

Definition buf_ok (p : TokParser) : Prop := zlen (tk_buf p) <= tk_buflen p.

Lemma store_token p bs n pos tok :
  buf_ok p -> no_nul bs -> zlen bs + 1 <= n ->
  exists p', (p ← buf_store (tok_buf_check p n) (bs ++ [0]); Ok (set_tok p pos tok)) = Ok p' /\
    tk_pos p' = pos /\ cur_tok p' = tok /\ c_str (tk_buf p') = Some bs /\ buf_ok p'.
Proof.
  intros Hp Hbs Hn. pose proof (zlen_nonneg bs). unfold buf_ok in *.
  assert (Hlen : zlen (bs ++ [0]) = zlen bs + 1) by zlia.
  assert (Hc : n <= tk_buflen (tok_buf_check p n) /\ tk_buf (tok_buf_check p n) = tk_buf p /\ tk_buflen p <= tk_buflen (tok_buf_check p n)).
  { unfold tok_buf_check. case_bool_decide; cbn; split_and!; auto; lia. }
  destruct Hc as (H1 & H2 & H3). unfold buf_store. rewrite Hlen, bool_decide_eq_true_2 by lia. cbn [mbind res_bind].
  eexists. split; [done|]. cbn. split_and!; [done|done| |].
  - rewrite <- app_assoc. cbn. by apply c_str_app.
  - rewrite zlen_app, Hlen, zlen_zdrop, H2. pose proof (zlen_nonneg (tk_buf p)). lia.
Qed.

(** What the functions of the parser rely on: a buffer, and something to read
    unless the line has ended.  [C] holds of the bytes of the line. *)
Definition tok_ok (C : Z -> Prop) (p : TokParser) : Prop := buf_ok p /\ (cur_tok p = TOK_EOL \/ exists s, tk_pos p = Some s /\ Forall C s).

Definition tok_wf (C : Z -> Prop) (p : TokParser) : Prop :=
  tok_ok C p /\ (cur_tok p = TOK_IDENT \/ cur_tok p = TOK_STRING -> exists s, c_str (tk_buf p) = Some s /\ Forall C s).

(** The bytes that are still to be read. *)
Definition left (p : TokParser) : nat := match tk_pos p with Some s => length s | None => 0 end.

(** Any line is read within the buffer; a token takes something from it. *)
Lemma next_token_safe C p :
  (forall c, C c -> c <> 0) -> tok_ok C p -> exists p', next_token p = Ok p' /\ tok_wf C p' /\
    (left p' <= left p)%nat /\ (cur_tok p' = TOK_EOL \/ cur_tok p' = TOK_FAIL \/ (left p' < left p)%nat).
Proof.
  intros HC [Hb Hpos]. unfold next_token. case_bool_decide as He.
  { exists p. split; [done|]. split; [|split; [unfold left; cbn; lia|by left]]. split; [split; [done|by left]|]. intros [E|E]; by rewrite E in He. }
  destruct Hpos as [?|(s & Es & Hs)]; [done|]. rewrite Es.
  destruct (skip_space_suffix s) as [l Hl]. assert (Hk : Forall C (skip_space s)) by (rewrite Hl in Hs; by apply Forall_app in Hs as [_ ?]).
  assert (Hle : (length (skip_space s) <= length s)%nat) by (rewrite Hl at 2; rewrite length_app; lia).
  destruct (skip_space s) as [|c s'] eqn:Ek.
  { eexists. split; [done|]. split; [|split; [unfold left; cbn; lia|by left]]. split; [split; [done|by left]|]. by intros [?|?]. }
  apply Forall_cons in Hk as [Hc0 Hk]. case_bool_decide.
  { eexists. split; [done|]. split; [|split; [unfold left; cbn; lia|by left]]. split; [split; [done|by left]|]. by intros [?|?]. }
  case_bool_decide.
  { eexists. split; [done|]. split; [|enough (left (set_tok p (Some s') TOK_COMMA) < left p)%nat by (split; [lia|auto]); unfold left; rewrite Es; cbn in *; lia]. split; [split; [done|right; by eexists]|]. by intros [?|?]. }
  case_bool_decide.
  - destruct (scan_quoted s') as [[raw rest]|] eqn:Eq.
    + destruct (scan_quoted_split s' _ _ _ (le_n _) Eq) as (Hs' & rest' & ->). rewrite Hs' in Hk. apply Forall_app in Hk as [Hr Hrest].
      apply Forall_cons in Hrest as [_ Hrest]. destruct (unquote_forall C raw _ (le_n _) Hr) as [Hu Hul].
      destruct (store_token p (unquote raw) (zlen raw + 1) (Some (drop 1 (QUOTE :: rest'))) TOK_STRING) as (p' & -> & E1 & E2 & E3 & E4);
        [done|by eapply Forall_impl|unfold zlen; lia|].
      exists p'. split; [done|]. split.
      * split; [split; [done|right; eexists; split; [done|]; done]|]. intros _. by exists (unquote raw).
      * enough (left p' < left p)%nat by (split; [lia|auto]). unfold left. rewrite E1, Es. cbn. rewrite drop_0. rewrite Hs' in Hle. cbn in Hle. rewrite length_app in Hle. cbn in Hle. lia.
    + eexists. split; [done|]. split; [|split; [unfold left; rewrite Es; cbn in *; lia|right; by left]]. split; [split; [done|right; eexists; split; [done|]; by constructor]|]. by intros [?|?].
  - pose proof (scan_word_split s') as Hw. destruct (scan_word s') as [w rest]. cbn in Hw. rewrite <- Hw in Hk. apply Forall_app in Hk as [Hwn Hrest].
    destruct (store_token p (c :: w) (zlen w + 1 + 1) (Some rest) TOK_IDENT) as (p' & Ep & E1 & E2 & E3 & E4);
      [done|constructor; [auto|by eapply Forall_impl]|zlia|]. change (c :: w ++ [0]) with ((c :: w) ++ [0]). rewrite Ep.
    exists p'. split; [done|]. split.
    + split; [split; [done|right; by eexists]|]. intros _. exists (c :: w). split; [done|by constructor].
    + enough (left p' < left p)%nat by (split; [lia|auto]). unfold left. rewrite E1, Es. cbn in Hle. rewrite <- Hw, length_app in Hle. lia.
Qed.

(** ** Reading a line *)

Definition tok_is (p : TokParser) (t : token) : Prop :=
  match t with
  | TIdent s => cur_tok p = TOK_IDENT /\ c_str (tk_buf p) = Some s
  | TString s => cur_tok p = TOK_STRING /\ c_str (tk_buf p) = Some s
  | TComma => cur_tok p = TOK_COMMA
  end.

(** The parser stands at the first of these tokens and has the others before
    it. *)
Definition reads (p : TokParser) (ts : list token) : Prop :=
  tok_ok (fun c => c <> 0) p /\
  match ts with
  | [] => cur_tok p = TOK_EOL
  | t :: ts => tok_is p t /\ exists l, tk_pos p = Some l /\ lexes l ts
  end.

Lemma next_space p c l :
  cur_tok p <> TOK_EOL -> isspace c = true -> tk_pos p = Some (c :: l) ->
  next_token p = next_token (set_tok p (Some l) (cur_tok p)).
Proof.
  intros He Hc Hp. unfold next_token. rewrite Hp. cbn [set_tok cur_tok tk_pos skip_space]. rewrite Hc.
  rewrite !(bool_decide_eq_false_2 (cur_tok p = TOK_EOL)) by done. destruct (skip_space l) as [|c' l']; [done|].
  do 2 (case_bool_decide; [done|]).
  assert (Hst : forall n bs pos tok, (p ← buf_store (tok_buf_check p n) bs; Ok (set_tok p pos tok)) =
    (p ← buf_store (tok_buf_check (set_tok p (Some l) (cur_tok p)) n) bs; Ok (set_tok p pos tok))).
  { intros. unfold buf_store, tok_buf_check. cbn. repeat case_bool_decide; cbn in *; done. }
  case_bool_decide; [destruct (scan_quoted l') as [[raw rest]|]; [apply Hst|done]|]. destruct (scan_word l'). apply Hst.
Qed.

Lemma quote_no_nul s : no_nul (quote s) -> no_nul s.
Proof. intros H. rewrite <- (unquote_quote s). by eapply unquote_forall. Qed.

Lemma not_special c : ends_word c = false -> isspace c = false /\ c <> HASH /\ c <> COMMA /\ c <> QUOTE.
Proof. unfold ends_word. rewrite !orb_false_iff, !bool_decide_eq_false. tauto. Qed.

Lemma lexes_reads l ts : lexes l ts -> forall p, no_nul l -> buf_ok p -> cur_tok p <> TOK_EOL -> tk_pos p = Some l ->
  exists p', next_token p = Ok p' /\ reads p' ts.
Proof.
  assert (Hstart : forall p l, cur_tok p <> TOK_EOL -> tk_pos p = Some l -> next_token p =
    match skip_space l with
    | [] => Ok (set_tok p None TOK_EOL)
    | (c :: s') as s =>
        if bool_decide (c = HASH) then Ok (set_tok p None TOK_EOL)
        else if bool_decide (c = COMMA) then Ok (set_tok p (Some s') TOK_COMMA)
        else if bool_decide (c = QUOTE) then
          match scan_quoted s' with
          | None => Ok (set_tok p (Some s) TOK_FAIL)
          | Some (raw, rest) =>
              p ← buf_store (tok_buf_check p (zlen raw + 1)) (unquote raw ++ [0]);
              Ok (set_tok p (Some (drop 1 rest)) TOK_STRING)
          end
        else
          let '(w, rest) := scan_word s' in
          p ← buf_store (tok_buf_check p (zlen w + 1 + 1)) (c :: w ++ [0]);
          Ok (set_tok p (Some rest) TOK_IDENT)
    end).
  { intros p l0 He Hp. unfold next_token. by rewrite bool_decide_eq_false_2, Hp by done. }
  induction 1 as [|l|c l ts Hc _ IH|l ts Hlex _|s l ts Hq Hlex _|s l ts [Hne Hw] Hd Hlex _]; intros p Hn Hb He Hp.
  - rewrite (Hstart p [] He Hp). eexists. split; [done|]. split; [split; [done|by left]|done].
  - rewrite (Hstart p _ He Hp). cbn. eexists. split; [done|]. split; [split; [done|by left]|done].
  - rewrite (next_space p c l) by done. apply Forall_cons in Hn as [_ Hn]. by apply IH.
  - rewrite (Hstart p _ He Hp). cbn. apply Forall_cons in Hn as [_ Hn]. eexists. split; [done|].
    split; [split; [done|right; by exists l]|]. split; [done|]. by exists l.
  - rewrite (Hstart p _ He Hp). cbn [skip_space]. change (isspace QUOTE) with false. cbn iota.
    rewrite !bool_decide_eq_false_2, bool_decide_eq_true_2 by done. rewrite scan_quote, unquote_quote by done.
    apply Forall_cons in Hn as [_ Hn]. apply Forall_app in Hn as [Hs Hl]. apply Forall_cons in Hl as [_ Hl]. pose proof (quote_no_nul s Hs) as Hs'.
    destruct (unquote_forall _ (quote s) _ (le_n _) Hs) as [_ Hlen]. rewrite unquote_quote in Hlen.
    destruct (store_token p s (zlen (quote s) + 1) (Some (drop 1 (QUOTE :: l))) TOK_STRING) as (p' & -> & E1 & E2 & E3 & E4); [done|done|unfold zlen; lia|].
    exists p'. split; [done|]. split; [split; [done|right; by exists l]|]. split; [done|]. by exists l.
  - destruct s as [|c w]; [done|]. apply Forall_cons in Hw as [Hc Hw]. destruct (not_special c Hc) as (H1 & H2 & H3 & H4).
    rewrite (Hstart p _ He Hp). cbn [skip_space app]. rewrite H1. rewrite !bool_decide_eq_false_2 by done. rewrite scan_word_app by done.
    apply Forall_app in Hn as [Hs Hl].
    destruct (store_token p (c :: w) (zlen w + 1 + 1) (Some l) TOK_IDENT) as (p' & Ep & E1 & E2 & E3 & E4); [done|done|zlia|].
    change (c :: w ++ [0]) with ((c :: w) ++ [0]). rewrite Ep.
    exists p'. split; [done|]. split; [split; [done|right; by exists l]|]. split; [done|]. by exists l.
Qed.

Lemma lexes_length l ts : lexes l ts -> (length ts <= length l)%nat.
Proof.
  induction 1 as [| | | | |s l ts [Hne _] _ _ IH]; cbn in *; try lia; [rewrite length_app; cbn; lia|].
  destruct s; [done|]. cbn. rewrite length_app. lia.
Qed.

(** A newline at the end changes nothing. *)
Lemma lexes_newline l ts : lexes l ts -> lexes (l ++ [10]) ts.
Proof.
  induction 1 as [|l|c l ts Hc _ IH|l ts _ IH|s l ts Hq _ IH|s l ts Hw Hd _ IH]; cbn.
  - by apply lex_space, lex_end.
  - apply lex_comment.
  - by apply lex_space.
  - by apply lex_comma.
  - rewrite <- app_assoc. apply lex_quoted; [|done]. by destruct l.
  - rewrite <- app_assoc. apply lex_word; [done| |done]. intros c Hc. destruct l as [|c' l]; cbn in Hc; [by injection Hc as <-|by apply Hd].
Qed.

(** ** The operations of the parser on the tokens before it *)

Section Steps.
Implicit Types (p : TokParser) (ts : list token) (kw : list Z).

(** The bytes in the buffer play no part in finding the next token. *)
Lemma reads_next p p' t ts :
  reads p (t :: ts) -> tk_pos p' = tk_pos p -> cur_tok p' = cur_tok p -> buf_ok p' -> exists q, next_token p' = Ok q /\ reads q ts.
Proof.
  intros [[Hb Hpos] [Ht (l & Hl & Hlex)]] E1 E2 Hb'.
  assert (He : cur_tok p <> TOK_EOL) by (destruct t; [destruct Ht as [-> _]|destruct Ht as [-> _]|rewrite Ht]; done).
  destruct Hpos as [?|(s & Hs & Hn)]; [done|]. rewrite Hs in Hl. injection Hl as ->.
  apply (lexes_reads l ts Hlex p'); [done|done|by rewrite E2|by rewrite E1].
Qed.

Lemma reads_step p t ts : reads p (t :: ts) -> exists q, next_token p = Ok q /\ reads q ts.
Proof. intros Hr. apply (reads_next p p t ts); [done..|]. apply Hr. Qed.

Lemma tok_str_of p s : c_str (tk_buf p) = Some s -> tok_str p = Ok s.
Proof. intros E. unfold tok_str. by rewrite E. Qed.

Lemma reads_kw p kw ts : reads p (TIdent kw :: ts) -> exists q, eat_kw p kw = Ok (true, q) /\ reads q ts.
Proof.
  intros Hr. destruct (reads_step _ _ _ Hr) as (q & E & Hq). destruct Hr as [_ [[Hc Hs] _]]. exists q. split; [|done].
  unfold eat_kw, check_kw. rewrite bool_decide_eq_true_2 by done. rewrite (tok_str_of _ _ Hs). cbn. rewrite bool_decide_eq_true_2 by done. by rewrite E.
Qed.

Lemma reads_no_kw p kw ts : reads p ts -> head ts <> Some (TIdent kw) -> eat_kw p kw = Ok (false, p) /\ check_kw p kw = Ok false.
Proof.
  intros [_ Hr] Hh. unfold eat_kw, check_kw.
  destruct ts as [|[s|s|] ts]; [rewrite Hr|destruct Hr as [[-> Hs] _]|destruct Hr as [[-> Hs] _]|destruct Hr as [-> _]]; try done.
  rewrite bool_decide_eq_true_2 by done. rewrite (tok_str_of _ _ Hs). cbn. rewrite bool_decide_eq_false_2; [done|]. intros ->. by apply Hh.
Qed.

Lemma reads_comma p ts : reads p (TComma :: ts) -> exists q, eat p TOK_COMMA = Ok (true, q) /\ reads q ts.
Proof.
  intros Hr. destruct (reads_step _ _ _ Hr) as (q & E & Hq). destruct Hr as [_ [Hc _]]. exists q. split; [|done].
  unfold eat. rewrite bool_decide_eq_true_2 by done. by rewrite E.
Qed.

Lemma reads_no_comma p ts : reads p ts -> head ts <> Some TComma -> eat p TOK_COMMA = Ok (false, p).
Proof.
  intros [_ Hr] Hh. unfold eat. destruct ts as [|[s|s|] ts]; [rewrite Hr|destruct Hr as [[-> Hs] _]|destruct Hr as [[-> Hs] _]|]; done.
Qed.

Lemma reads_eol p : reads p [] -> eat p TOK_EOL = Ok (true, p).
Proof. intros [_ Hr]. unfold eat, next_token. by rewrite !bool_decide_eq_true_2 by done. Qed.

Lemma reads_no_eol p t ts : reads p (t :: ts) -> eat p TOK_EOL = Ok (false, p).
Proof. intros [_ [Hr _]]. unfold eat. destruct t; [destruct Hr as [-> _]|destruct Hr as [-> _]|rewrite Hr]; done. Qed.

Lemma reads_ident p s ts : reads p (TIdent s :: ts) -> expect p TOK_IDENT = Ok (Some s).
Proof. intros [_ [[Hc Hs] _]]. unfold expect. rewrite bool_decide_eq_true_2 by done. by rewrite (tok_str_of _ _ Hs). Qed.

Lemma reads_no_ident p ts : reads p ts -> (forall s, head ts <> Some (TIdent s)) -> expect p TOK_IDENT = Ok None.
Proof.
  intros [_ Hr] Hh. unfold expect. destruct ts as [|[s|s|] ts]; [rewrite Hr| |destruct Hr as [[-> Hs] _]|destruct Hr as [-> _]]; try done.
  by destruct (Hh s).
Qed.

Lemma reads_string p s ts : reads p (TString s :: ts) -> expect p TOK_STRING = Ok (Some s).
Proof. intros [_ [[Hc Hs] _]]. unfold expect. rewrite bool_decide_eq_true_2 by done. by rewrite (tok_str_of _ _ Hs). Qed.

Lemma reads_left p ts : reads p ts -> (length ts <= 1 + left p)%nat.
Proof.
  intros [_ Hr]. unfold left. destruct ts as [|t ts]; [cbn; lia|]. destruct Hr as [_ (l & -> & Hl)]. apply lexes_length in Hl. cbn. lia.
Qed.
End Steps.
