(* ===== verification/Scram.v ===== *)
(** * SCRAM (src/scram.c and its callers in src/client.c and src/proto.c)

    Both roles of an exchange: PgBouncer as the server of a client and as the
    client of a PostgreSQL server.  The state is [ScramState]; a pointer that is
    NULL is None, and using it is undefined.  Key length and hash type are those
    of SHA-256, as both first messages set them before any use.  Allocations
    succeed; random bytes are arguments, in the order they are drawn; an answer
    is the message that is sent.  Texts are C strings without their NUL. *)

From S2P Require Import Prelude Inet Base64 Sha2 Hmac ScramCommon Tokens.
From stdpp Require Import base option list strings.
#[local] Open Scope Z_scope.

(** ** Data *)

Record ScramState := mkScramState {
  client_nonce : option (list Z);
  client_first_message_bare : option (list Z);
  client_final_message_without_proof : option (list Z);
  server_nonce : option (list Z);
  server_first_message : option (list Z);
  sc_iterations : Z;
  sc_salt : option (list Z);
  SaltedPassword : option (list Z);
  cbind_flag : Z;
  adhoc : bool;
  encoded_salt : option (list Z);
  ClientKey : list Z;
  StoredKey : list Z;
  ServerKey : list Z
}.

Definition zero_key : list Z := replicate 32 0.

(** free_scram_state, and a new socket. *)
Definition free_scram_state : ScramState := mkScramState None None None None None 0 None None 0 false None zero_key zero_key zero_key.

Ltac scram_setter proj :=
  field_setter (fun r => mkScramState (client_nonce r) (client_first_message_bare r) (client_final_message_without_proof r) (server_nonce r)
    (server_first_message r) (sc_iterations r) (sc_salt r) (SaltedPassword r) (cbind_flag r) (adhoc r) (encoded_salt r) (ClientKey r) (StoredKey r) (ServerKey r)) proj.

Definition set_client_nonce : option (list Z) -> ScramState -> ScramState := ltac:(scram_setter client_nonce).
Definition set_bare : option (list Z) -> ScramState -> ScramState := ltac:(scram_setter client_first_message_bare).
Definition set_without_proof : option (list Z) -> ScramState -> ScramState := ltac:(scram_setter client_final_message_without_proof).
Definition set_server_nonce : option (list Z) -> ScramState -> ScramState := ltac:(scram_setter server_nonce).
Definition set_server_first : option (list Z) -> ScramState -> ScramState := ltac:(scram_setter server_first_message).
Definition set_iterations : Z -> ScramState -> ScramState := ltac:(scram_setter sc_iterations).
Definition set_salt : option (list Z) -> ScramState -> ScramState := ltac:(scram_setter sc_salt).
Definition set_SaltedPassword : option (list Z) -> ScramState -> ScramState := ltac:(scram_setter SaltedPassword).
Definition set_cbind_flag : Z -> ScramState -> ScramState := ltac:(scram_setter cbind_flag).
Definition set_adhoc : bool -> ScramState -> ScramState := ltac:(scram_setter adhoc).
Definition set_encoded_salt : option (list Z) -> ScramState -> ScramState := ltac:(scram_setter encoded_salt).
Definition set_ClientKey : list Z -> ScramState -> ScramState := ltac:(scram_setter ClientKey).
Definition set_StoredKey : list Z -> ScramState -> ScramState := ltac:(scram_setter StoredKey).
Definition set_ServerKey : list Z -> ScramState -> ScramState := ltac:(scram_setter ServerKey).

(** The fields of PgCredentials the exchange uses. *)
Record Credentials := mkCredentials {
  cr_name : list Z;
  cr_passwd : list Z;
  mock_auth : bool;
  dynamic_passwd : bool;
  scram_verifier_cached : bool;
  scram_adhoc : bool;
  scram_Iiterations : Z;
  scram_SaltKey : option (list Z);
  scram_StoredKey : list Z;
  cr_ServerKey : list Z;
  cr_ClientKey : list Z;
  scram_passthrough_valid : bool
}.

(** pg_saslprep: the normalized password, or why there is none. *)
Inductive pg_saslprep_rc :=
| SASLPREP_SUCCESS (output : list Z)
| SASLPREP_OOM
| SASLPREP_INVALID_UTF8
| SASLPREP_PROHIBITED.

(** Its result is a string in memory. *)
Class Saslprep := {
  pg_saslprep : list Z -> pg_saslprep_rc;
  pg_saslprep_text : forall p out, short p -> pg_saslprep p = SASLPREP_SUCCESS out -> short out
}.

(** *p of a pointer that may be NULL *)
Definition deref {S A} (p : option A) : SM S A := match p with Some a => mret a | None => lift Undef end.

(** memcpy(ibuf, data, datalen); ibuf[datalen] = 0: the text in ibuf. *)
Fixpoint until_nul (l : list Z) : list Z :=
  match l with
  | c :: l => if bool_decide (c = 0) then [] else c :: until_nul l
  | [] => []
  end.

(** ** Attributes *)

Definition is_scram_printable (p : list Z) : bool := forallb (fun c => negb (bool_decide (c < 0x21) || bool_decide (c > 0x7E) || bool_decide (c = 0x2C))) p.

(** The text up to a comma, and what follows it. *)
Fixpoint split_value (s : list Z) : list Z * list Z :=
  match s with
  | [] => ([], [])
  | c :: s => if bool_decide (c = 44) then ([], s) else let '(v, rest) := split_value s in (c :: v, rest)
  end.

(** The value and the new input; NULL leaves the input as it is. *)
Definition read_attr_value (input : list Z) (attr : Z) : option (list Z * list Z) :=
  match input with
  | a :: e :: begin => if bool_decide (a <> attr) then None else if bool_decide (e <> 61) then None else Some (split_value begin)
  | _ => None
  end.

Definition is_attr (c : Z) : bool := bool_decide (65 <= c <= 90) || bool_decide (97 <= c <= 122).

Definition read_any_attr (input : list Z) : option (Z * list Z * list Z) :=
  match input with
  | a :: e :: begin =>
      if negb (is_attr a) then None else if bool_decide (e <> 61) then None
      else let '(v, rest) := split_value begin in Some (a, v, rest)
  | _ => None
  end.

(** ** Stored secrets *)

(** strtok with a set of separators: the token and the text left. *)
Fixpoint skip_delims (delims s : list Z) : list Z :=
  match s with
  | c :: s' => if bool_decide (c ∈ delims) then skip_delims delims s' else s
  | [] => []
  end.
Fixpoint take_token (delims s : list Z) : list Z * list Z :=
  match s with
  | [] => ([], [])
  | c :: s => if bool_decide (c ∈ delims) then ([], s) else let '(t, rest) := take_token delims s in (c :: t, rest)
  end.
Definition strtok (delims s : list Z) : option (list Z * list Z) :=
  match skip_delims delims s with [] => None | s => Some (take_token delims s) end.

(** strtol in base 10: the value, the rest of the text, and whether errno was
    set. *)
Definition strtol (s : list Z) : Z * list Z * bool :=
  let s1 := skip_space s in
  let '(neg, s2) :=
    match s1 with
    | c :: s2 => if bool_decide (c = 45) then (true, s2) else if bool_decide (c = 43) then (false, s2) else (false, s1)
    | [] => (false, [])
    end in
  match s2 with
  | c :: _ =>
      match digit c with
      | Some _ =>
          let '(v, rest) := read_digits s2 0 in
          if neg then if bool_decide (v > 2 ^ 63) then (- 2 ^ 63, rest, true) else (- v, rest, false)
          else if bool_decide (v > 2 ^ 63 - 1) then (2 ^ 63 - 1, rest, true) else (v, rest, false)
      | None => (0, s, false)
      end
  | [] => (0, s, false)
  end.

Record Secret := mkSecret { se_iterations : Z; se_salt : list Z; se_stored_key : list Z; se_server_key : list Z }.

(** A key of the secret. *)
Definition decode_key (s : list Z) : option (list Z) :=
  k ← pg_b64_decode s (pg_b64_dec_len (zlen s));
  if bool_decide (zlen k <> SCRAM_SHA_256_KEY_LEN) then None else Some k.

Definition parse_scram_secret (secret : list Z) : option Secret :=
  '(scheme, s) ← strtok [36] secret;
  '(iterations, s) ← strtok [58] s;
  '(salt, s) ← strtok [36] s;
  '(storedkey, s) ← strtok [58] s;
  '(serverkey, _) ← strtok [] s;
  if bool_decide (scheme <> str "SCRAM-SHA-256") then None
  else
    let '(n, p, errno) := strtol iterations in
    if bool_decide (p <> []) || errno then None
    else
      _ ← pg_b64_decode salt (pg_b64_dec_len (zlen salt));
      stored_key ← decode_key storedkey;
      server_key ← decode_key serverkey;
      Some (mkSecret (s32 n) salt stored_key server_key).

Inductive PasswordType := PASSWORD_TYPE_PLAINTEXT | PASSWORD_TYPE_MD5 | PASSWORD_TYPE_SCRAM_SHA_256.

Definition MD5_PASSWD_LEN : Z := 35.

Definition get_password_type (shadow_pass : list Z) : PasswordType :=
  if bool_decide (ztake 3 shadow_pass = str "md5") && bool_decide (zlen shadow_pass = MD5_PASSWD_LEN) &&
     forallb (fun c => bool_decide (c ∈ str "0123456789abcdef")) (zdrop 3 shadow_pass) then PASSWORD_TYPE_MD5
  else match parse_scram_secret shadow_pass with Some _ => PASSWORD_TYPE_SCRAM_SHA_256 | None => PASSWORD_TYPE_PLAINTEXT end.

(** ** PgBouncer as a client *)

Definition SCRAM_RAW_NONCE_LEN : Z := 18.
Definition SCRAM_MAX_ITERATIONS : Z := 1000000.

(** The pointers freed on the way out are left in the state by the code; the
    branch is not taken for a nonce of bytes. *)
Definition build_client_first_message (raw_nonce : list Z) : SM ScramState (option (list Z)) :=
  match pg_b64_encode raw_nonce (pg_b64_enc_len SCRAM_RAW_NONCE_LEN) with
  | None => modS (set_client_nonce None);; mret None
  | Some nonce =>
      modS (set_client_nonce (Some nonce));;
      let result := str "n,,n=,r=" ++ nonce in
      modS (set_bare (Some (zdrop 3 result)));;
      mret (Some result)
  end.

(** The pieces of the AuthMessage. *)
Definition auth_pieces (without_proof : list Z) (s : ScramState) : res (list (list Z)) :=
  match client_first_message_bare s, server_first_message s with
  | Some bare, Some first => Ok [bare; [44]; first; [44]; without_proof]
  | _, _ => Undef
  end.

(** HMAC of the AuthMessage. *)
Definition signature (key without_proof : list Z) : SM ScramState (option (list Z)) :=
  s ← getS;
  pieces ← lift (auth_pieces without_proof s);
  '(d, _) ← lift (hmac_chain pg_hmac_create key pieces SCRAM_SHA_256_KEY_LEN);
  mret d.

Section client_role.
Context `{!Saslprep}.

(** The password to use for a plain text password; None when out of memory. *)
Definition prepared (password : list Z) : option (list Z) :=
  match pg_saslprep password with
  | SASLPREP_OOM => None
  | SASLPREP_SUCCESS p => Some p
  | _ => Some password
  end.

(** The ClientKey of the credentials. *)
Definition derive_client_key (credentials : Credentials) : SM ScramState (option (list Z)) :=
  if scram_passthrough_valid credentials then mret (Some (cr_ClientKey credentials))
  else
    match prepared (cr_passwd credentials) with
    | None => mret None
    | Some password =>
        s ← getS;
        salt ← deref (sc_salt s);
        sp ← lift (scram_SaltedPassword password salt (sc_iterations s));
        match sp with
        | None => mret None
        | Some sp => modS (set_SaltedPassword (Some sp));; lift (scram_ClientKey sp)
        end
    end.

Definition calculate_client_proof (credentials : Credentials) (without_proof : list Z) : SM ScramState (option (list Z)) :=
  k ← derive_client_key credentials;
  match k with
  | None => mret None
  | Some client_key =>
      h ← lift (scram_H client_key);
      match h with
      | None => mret None
      | Some stored_key =>
          d ← signature stored_key without_proof;
          mret (option_map (xor_bytes client_key) d)
      end
  end.

(** char buf[512]: a store behind it is undefined. *)
Definition build_client_final_message (credentials : Credentials) : SM ScramState (option (list Z)) :=
  s ← getS;
  nonce ← deref (server_nonce s);
  let buf := ztake 511 (str "c=biws,r=" ++ nonce) in
  modS (set_without_proof (Some buf));;
  p ← calculate_client_proof credentials buf;
  match p with
  | None => mret None
  | Some client_proof =>
      let len := zlen buf + 3 in
      let buf := ztake 511 (buf ++ str ",p=") in
      if bool_decide (len >= 512) then mret None
      else
        match pg_b64_encode client_proof (pg_b64_enc_len SCRAM_SHA_256_KEY_LEN) with
        | None => mret None
        | Some e => if bool_decide (len + zlen e + 1 <= 512) then mret (Some (buf ++ e)) else lift Undef
        end
  end.
End client_role.

Definition read_server_first_message (input : list Z) : SM ScramState bool :=
  modS (set_server_first (Some input));;
  match read_attr_value input 114 with
  | None => mret false
  | Some (nonce, input) =>
      s ← getS;
      cn ← deref (client_nonce s);
      if bool_decide (zlen nonce < zlen cn) || bool_decide (ztake (zlen cn) nonce <> cn) then mret false
      else
        modS (set_server_nonce (Some nonce));;
        match read_attr_value input 115 with
        | None => mret false
        | Some (es, input) =>
            match pg_b64_decode es (pg_b64_dec_len (zlen es)) with
            | None => mret false
            | Some salt =>
                modS (set_salt (Some salt));;
                match read_attr_value input 105 with
                | None => mret false
                | Some (it, input) =>
                    let '(n, endptr, _) := strtol it in
                    let iterations := s32 n in
                    if bool_decide (endptr <> []) || bool_decide (iterations < 1) || bool_decide (iterations > SCRAM_MAX_ITERATIONS) then mret false
                    else
                      modS (set_iterations iterations);;
                      mret (bool_decide (input = []))
                end
            end
        end
  end.

(** The signature; text after it is only reported. *)
Definition read_server_final_message (input : list Z) : option (list Z) :=
  if bool_decide (head input = Some 101) then None
  else
    '(es, _) ← read_attr_value input 118;
    decode_key es.

(** The answer is *match; None if the signature cannot be computed. *)
Definition verify_server_signature (credentials : Credentials) (ServerSignature : list Z) : SM ScramState (option bool) :=
  s ← getS;
  k ← (if scram_passthrough_valid credentials then mret (Some (cr_ServerKey credentials))
       else sp ← deref (SaltedPassword s); lift (scram_ServerKey sp));
  match k with
  | None => mret None
  | Some server_key =>
      wp ← deref (client_final_message_without_proof s);
      d ← signature server_key wp;
      mret (option_map (fun expected => bool_decide (expected = ServerSignature)) d)
  end.

(** ** PgBouncer as a server *)

(** Reading and ignoring extensions.  Each turn reads two characters. *)
Fixpoint skip_attrs (fuel : nat) (input : list Z) : res bool :=
  match input with
  | [] => Ok true
  | _ =>
      match fuel with
      | O => NoFuel
      | S fuel => match read_any_attr input with Some (_, _, rest) => skip_attrs fuel rest | None => Ok false end
      end
  end.

(** The message after "n,," or "y,,", whose flag is kept. *)
Definition gs2_header (input : list Z) : option (list Z) :=
  match input with
  | f :: c1 :: c2 :: input =>
      if (bool_decide (f = 110) || bool_decide (f = 121)) && bool_decide (c1 = 44) && bool_decide (c2 = 44) then Some input else None
  | _ => None
  end.

Definition read_client_first_message (input : list Z) : SM ScramState bool :=
  modS (set_cbind_flag (hd 0 input));;
  match gs2_header input with
  | None => mret false
  | Some input =>
      let bare := input in
      if bool_decide (head input = Some 109) then mret false
      else
        let input := match read_attr_value input 110 with Some (_, input) => input | None => input end in
        match read_attr_value input 114 with
        | None => mret false
        | Some (nonce, input) =>
            if negb (is_scram_printable nonce) then mret false
            else
              ok ← lift (skip_attrs (length input) input);
              if ok : bool then modS (set_bare (Some bare));; modS (set_client_nonce (Some nonce));; mret true
              else mret false
        end
  end.

(** Skipping extensions up to the proof: the offset of the comma before it, its
    value and the rest.  Each turn reads two characters. *)
Fixpoint find_proof (fuel : nat) (total : Z) (input : list Z) : res (option (Z * list Z * list Z)) :=
  match fuel with
  | O => NoFuel
  | S fuel =>
      let proof_start := total - zlen input - 1 in
      match read_any_attr input with
      | None => Ok None
      | Some (attr, value, rest) => if bool_decide (attr = 112) then Ok (Some (proof_start, value, rest)) else find_proof fuel total rest
      end
  end.

Definition cbind_ok (channel_binding : list Z) (flag : Z) : bool :=
  bool_decide (channel_binding = str "biws") && bool_decide (flag = 110) || bool_decide (channel_binding = str "eSws") && bool_decide (flag = 121).

(** The nonce and the proof. *)
Definition read_client_final_message (raw_input input : list Z) : SM ScramState (option (list Z * list Z)) :=
  s ← getS;
  let total := zlen input in
  match read_attr_value input 99 with
  | None => mret None
  | Some (channel_binding, input) =>
      if negb (cbind_ok channel_binding (cbind_flag s)) then mret None
      else
        match read_attr_value input 114 with
        | None => mret None
        | Some (nonce, input) =>
            p ← lift (find_proof (S (length input)) total input);
            match p with
            | None => mret None
            | Some (proof_start, encoded_proof, input) =>
                match decode_key encoded_proof with
                | None => mret None
                | Some proof =>
                    if bool_decide (input <> []) then mret None
                    else
                      wp ← lift (mem_load raw_input 0 proof_start);
                      modS (set_without_proof (Some wp));;
                      mret (Some (nonce, proof))
                end
            end
        end
  end.

(** The salt of a secret that is made up. *)
Definition SCRAM_DEFAULT_SALT_LEN : Z := 16.
Definition put_salt (saltbuf : list Z) : SM ScramState bool :=
  match pg_b64_encode saltbuf (pg_b64_enc_len SCRAM_DEFAULT_SALT_LEN) with
  | None => mret false
  | Some e => modS (set_encoded_salt (Some e));; mret true
  end.

(** The key a hash function fills in; its result is not checked. *)
Definition filled {S} (m : res (option (list Z))) : SM S (list Z) := k ← lift m; deref k.

(** The parameter cf_scram_iterations, and the random salt. *)
Definition build_adhoc_scram_secret `{!Saslprep} (cf_scram_iterations : Z) (saltbuf plain_password : list Z) : SM ScramState bool :=
  match prepared plain_password with
  | None => mret false
  | Some password =>
      modS (set_adhoc true);;
      modS (set_iterations cf_scram_iterations);;
      ok ← put_salt saltbuf;
      if negb ok then mret false
      else
        salted ← filled (scram_SaltedPassword password saltbuf cf_scram_iterations);
        ck ← filled (scram_ClientKey salted);
        sk ← filled (scram_H ck);
        modS (set_StoredKey sk);;
        vk ← filled (scram_ServerKey salted);
        modS (set_ServerKey vk);;
        mret true
  end.

(** The salt for a user there is no secret of, from the key drawn at the first
    such login. *)
Definition scram_mock_salt (mock_auth_nonce username : list Z) : res (option (list Z)) :=
  c ← pg_sha256_update pg_sha256_init username;
  c ← pg_sha256_update c mock_auth_nonce;
  '(d, _) ← pg_cryptohash_final c PG_SHA256_DIGEST_LENGTH;
  Ok (option_map (ztake SCRAM_DEFAULT_SALT_LEN) d).

Definition build_mock_scram_secret (cf_scram_iterations : Z) (mock_auth_nonce username : list Z) : SM ScramState bool :=
  modS (set_iterations cf_scram_iterations);;
  m ← lift (scram_mock_salt mock_auth_nonce username);
  match m with
  | None => mret false
  | Some saltbuf => put_salt saltbuf
  end.

(** What the caches of a user's credentials are given. *)
Definition cache_verifier (u : Credentials) (s : ScramState) : Credentials :=
  mkCredentials (cr_name u) (cr_passwd u) (mock_auth u) (dynamic_passwd u) true (adhoc s) (sc_iterations s) (encoded_salt s) (StoredKey s) (ServerKey s)
    (cr_ClientKey u) (scram_passthrough_valid u).

(** Draws of random bytes and settings of one login. *)
Record Draws := { dr_iterations : Z; dr_salt : list Z; dr_mock_nonce : list Z; dr_nonce : list Z }.

(** The verifier of a user with a secret, and the credentials after. *)
Definition load_verifier `{!Saslprep} (d : Draws) (user : Credentials) (stored_secret : list Z) : SM ScramState (option Credentials) :=
  if scram_verifier_cached user then
    modS (set_adhoc (scram_adhoc user));;
    modS (set_iterations (scram_Iiterations user));;
    salt ← deref (scram_SaltKey user);
    modS (set_encoded_salt (Some salt));;
    modS (set_StoredKey (scram_StoredKey user));;
    modS (set_ServerKey (cr_ServerKey user));;
    mret (Some user)
  else
    ok ← match get_password_type stored_secret with
         | PASSWORD_TYPE_SCRAM_SHA_256 =>
             match parse_scram_secret stored_secret with
             | None => mret false
             | Some e =>
                 modS (set_iterations (se_iterations e));;
                 modS (set_encoded_salt (Some (se_salt e)));;
                 modS (set_StoredKey (se_stored_key e));;
                 modS (set_ServerKey (se_server_key e));;
                 mret true
             end
         | PASSWORD_TYPE_PLAINTEXT => build_adhoc_scram_secret (dr_iterations d) (dr_salt d) stored_secret
         | PASSWORD_TYPE_MD5 => mret false
         end;
    if negb ok then mret None
    else s ← getS; mret (Some (if dynamic_passwd user then user else cache_verifier user s)).

(** The nonce and the message with the verifier of the state. *)
Definition put_server_first (raw_nonce : list Z) : SM ScramState (option (list Z)) :=
  match pg_b64_encode raw_nonce (pg_b64_enc_len SCRAM_RAW_NONCE_LEN) with
  | None => mret None
  | Some nonce =>
      modS (set_server_nonce (Some nonce));;
      s ← getS;
      cn ← deref (client_nonce s);
      es ← deref (encoded_salt s);
      let len := 2 + zlen cn + zlen nonce + 3 + zlen es + 3 + 10 + 1 in
      let result := ztake (len - 1) (str "r=" ++ cn ++ nonce ++ str ",s=" ++ es ++ str ",i=" ++ dec (u32 (sc_iterations s))) in
      modS (set_server_first (Some result));;
      mret (Some result)
  end.

(** The message, and the user's credentials after. *)
Definition build_server_first_message `{!Saslprep} (d : Draws) (user : Credentials) (stored_secret : option (list Z)) : SM ScramState (option (list Z) * Credentials) :=
  u ← match stored_secret with
      | None => ok ← build_mock_scram_secret (dr_iterations d) (dr_mock_nonce d) (cr_name user); mret (if ok : bool then Some user else None)
      | Some secret => load_verifier d user secret
      end;
  match u with
  | None => mret (None, user)
  | Some user => m ← put_server_first (dr_nonce d); mret (m, user)
  end.

(** base64 of the signature. *)
Definition compute_server_signature : SM ScramState (option (list Z)) :=
  s ← getS;
  wp ← deref (client_final_message_without_proof s);
  d ← signature (ServerKey s) wp;
  match d with
  | None => mret None
  | Some sig => mret (pg_b64_encode sig (pg_b64_enc_len SCRAM_SHA_256_KEY_LEN))
  end.

Definition build_server_final_message : SM ScramState (option (list Z)) :=
  e ← compute_server_signature;
  match e with
  | None => mret None
  | Some sig => if bool_decide (2 + zlen sig + 1 >= INT_MAX) then mret None else mret (Some (str "v=" ++ sig))
  end.

Definition verify_final_nonce (s : ScramState) (client_final_nonce : list Z) : res bool :=
  match client_nonce s, server_nonce s with
  | Some cn, Some sn =>
      Ok (bool_decide (zlen client_final_nonce = zlen cn + zlen sn) && bool_decide (ztake (zlen cn) client_final_nonce = cn) && bool_decide (zdrop (zlen cn) client_final_nonce = sn))
  | _, _ => Undef
  end.

Definition verify_client_proof (ClientProof : list Z) : SM ScramState bool :=
  s ← getS;
  wp ← deref (client_final_message_without_proof s);
  d ← signature (StoredKey s) wp;
  match d with
  | None => mret false
  | Some sig =>
      let ck := xor_bytes ClientProof sig in
      modS (set_ClientKey ck);;
      h ← lift (scram_H ck);
      match h with
      | None => mret false
      | Some k => mret (bool_decide (k = StoredKey s))
      end
  end.

Definition scram_verify_plain_password `{!Saslprep} (password secret : list Z) : res bool :=
  match parse_scram_secret secret with
  | None => Ok false
  | Some e =>
      match pg_b64_decode (se_salt e) (pg_b64_dec_len (zlen (se_salt e))) with
      | None => Ok false
      | Some salt =>
          let password := match pg_saslprep password with SASLPREP_SUCCESS p => p | _ => password end in
          sp ← scram_SaltedPassword password salt (se_iterations e);
          match sp with
          | None => Undef
          | Some sp =>
              k ← scram_ServerKey sp;
              match k with None => Undef | Some k => Ok (bool_decide (k = se_server_key e)) end
          end
      end
  end.

(** ** The callers *)

(** client.c: the answer to SASLInitialResponse. *)
Definition scram_client_first `{!Saslprep} (d : Draws) (user : Credentials) (data : list Z) : SM ScramState (option (list Z) * Credentials) :=
  ok ← read_client_first_message (until_nul data);
  if negb ok then mret (None, user)
  else if negb (mock_auth user) && match get_password_type (cr_passwd user) with PASSWORD_TYPE_MD5 => true | _ => false end then mret (None, user)
  else build_server_first_message d user (if mock_auth user then None else Some (cr_passwd user)).

(** client.c: the answer to SASLResponse; [known] is whether
    login_user_credentials is set. *)
Definition scram_client_final (known : bool) (data : list Z) : SM ScramState (option (list Z)) :=
  r ← read_client_final_message data (until_nul data);
  match r with
  | None => mret None
  | Some (client_final_nonce, proof) =>
      s ← getS;
      ok ← lift (verify_final_nonce s client_final_nonce);
      if negb ok then mret None
      else
        ok ← verify_client_proof proof;
        if negb ok || negb known then mret None else build_server_final_message
  end.

(** proto.c: AuthenticationSASL, with the random nonce. *)
Definition usable_password (credentials : Credentials) : bool :=
  match get_password_type (cr_passwd credentials) with
  | PASSWORD_TYPE_PLAINTEXT => true
  | PASSWORD_TYPE_SCRAM_SHA_256 => scram_passthrough_valid credentials
  | PASSWORD_TYPE_MD5 => false
  end.

Definition login_scram_sha_256 (raw_nonce : list Z) (credentials : Credentials) : SM ScramState (option (list Z)) :=
  if usable_password credentials then
    s ← getS;
    match client_nonce s with
    | Some _ => mret None
    | None => build_client_first_message raw_nonce
    end
  else mret None.

(** AuthenticationSASLContinue *)
Definition login_scram_sha_256_cont `{!Saslprep} (credentials : Credentials) (data : list Z) : SM ScramState (option (list Z)) :=
  s ← getS;
  match client_nonce s, server_first_message s with
  | Some _, None =>
      ok ← read_server_first_message (until_nul data);
      if negb ok then mret None else build_client_final_message credentials
  | _, _ => mret None
  end.

(** AuthenticationSASLFinal *)
Definition login_scram_sha_256_final (credentials : Credentials) (data : list Z) : SM ScramState bool :=
  s ← getS;
  match server_first_message s with
  | None => mret false
  | Some _ =>
      match read_server_final_message (until_nul data) with
      | None => mret false
      | Some sig =>
          m ← verify_server_signature credentials sig;
          mret (match m with Some b => b | None => false end)
      end
  end.

(** A saslprep for texts that need no preparation: ASCII. *)
#[export] Program Instance ascii_saslprep : Saslprep :=
  {| pg_saslprep := fun p => if forallb (fun c => bool_decide (c < 128)) p then SASLPREP_SUCCESS p else SASLPREP_INVALID_UTF8 |}.
Next Obligation. intros p out Hp. cbn. destruct (forallb _ _); [|done]. by intros [= <-]. Qed.
