(* ===== verification/ScramText.v ===== *)
(** * Texts of SCRAM

    Reading back what the messages and the stored secrets are made of: numbers,
    attributes, tokens; a secret that was built is parsed to its parts, and the
    two ways to check a password against it agree on the right one. *)

From S2P Require Import Prelude Inet Base64 Sha2 Hmac ScramCommon Tokens Scram.
From stdpp Require Import base option list strings.
#[local] Open Scope Z_scope.

(** ** Numbers *)

Definition is_digit (c : Z) : Prop := 48 <= c <= 57.

Lemma dec_digits_are_digits fuel n acc : Forall is_digit acc -> Forall is_digit (dec_digits fuel n acc).
Proof.
  revert n acc. induction fuel as [|fuel IH]; intros n acc H; cbn [dec_digits]; [done|]. pose proof (Z.mod_pos_bound n 10 ltac:(lia)).
  assert (Forall is_digit ((48 + n mod 10) :: acc)) by (apply Forall_cons; split; [unfold is_digit; lia|done]). case_bool_decide; [done|by apply IH].
Qed.

Lemma dec_is_digits n : Forall is_digit (dec n).
Proof. by apply dec_digits_are_digits, Forall_nil. Qed.

Lemma dec_digits_acc fuel n acc : acc <> [] -> dec_digits fuel n acc <> [].
Proof. intros H E. pose proof (dec_digits_len fuel n acc) as Hl. rewrite E in Hl. destruct acc; [done|]. zlia. Qed.

Lemma dec_cons n : exists d l, dec n = d :: l /\ is_digit d /\ Forall is_digit l.
Proof.
  pose proof (dec_is_digits n) as H. destruct (dec n) as [|d l] eqn:E; [|exists d, l; by apply Forall_cons in H as [? ?]].
  exfalso. unfold dec in E. revert E. change 20%nat with (S 19). generalize 19%nat. intros fuel E. cbn [dec_digits] in E. case_bool_decide; [done|].
  by apply dec_digits_acc in E.
Qed.

Lemma read_digits_all l v : Forall is_digit l -> read_digits l v = (foldl (fun v d => 10 * v + (d - 48)) v l, []).
Proof.
  revert v. induction l as [|c l IH]; intros v H; [done|]. apply Forall_cons in H as [Hc Hl]. cbn [read_digits foldl]. unfold digit.
  rewrite bool_decide_eq_true_2 by done. rewrite IH by done. do 2 f_equal. lia.
Qed.

(** A printed number is read back. *)
Lemma strtol_dec n : 0 <= n < 2 ^ 63 -> strtol (dec n) = (n, [], false).
Proof.
  intros Hn. destruct (dec_cons n) as (d & l & E & Hd & Hl). pose proof (dec_is_digits n) as Ha. unfold strtol.
  assert (skip_space (dec n) = dec n) as ->.
  { rewrite E. cbn [skip_space]. unfold isspace, is_digit in *. by rewrite !bool_decide_eq_false_2 by lia. }
  rewrite E at 1. unfold is_digit in Hd. rewrite !bool_decide_eq_false_2 by lia. rewrite E at 1. unfold digit. rewrite bool_decide_eq_true_2 by lia.
  rewrite read_digits_all by done. assert (foldl (fun v d => 10 * v + (d - 48)) 0 (dec n) = n) as ->.
  { apply (undec_digits 20 n). split; [lia|]. eapply Z.lt_le_trans; [apply Hn|]. by vm_compute. }
  by rewrite bool_decide_eq_false_2 by lia.
Qed.

Lemma digit_not c n : c < 48 \/ 57 < c -> c ∉ dec n.
Proof. intros Hc Hin. pose proof (dec_is_digits n) as H. rewrite Forall_forall in H. specialize (H c Hin). unfold is_digit in H. lia. Qed.

(** ** Attributes and tokens *)

Lemma split_value_at v rest : 44 ∉ v -> split_value (v ++ 44 :: rest) = (v, rest).
Proof.
  induction v as [|c v IH]; intros H; cbn; [done|]. apply not_elem_of_cons in H as [? ?]. rewrite bool_decide_eq_false_2 by done. by rewrite IH.
Qed.

Lemma split_value_end v : 44 ∉ v -> split_value v = (v, []).
Proof. induction v as [|c v IH]; intros H; cbn; [done|]. apply not_elem_of_cons in H as [? ?]. rewrite bool_decide_eq_false_2 by done. by rewrite IH. Qed.

Lemma until_nul_all l : 0 ∉ l -> until_nul l = l.
Proof. induction l as [|c l IH]; intros H; cbn; [done|]. apply not_elem_of_cons in H as [? ?]. rewrite bool_decide_eq_false_2 by done. by rewrite IH. Qed.

Lemma take_token_at delims t c rest : c ∈ delims -> Forall (fun x => x ∉ delims) t -> take_token delims (t ++ c :: rest) = (t, rest).
Proof.
  intros Hc. induction t as [|x t IH]; intros H; cbn; [by rewrite bool_decide_eq_true_2|]. apply Forall_cons in H as [? ?].
  rewrite bool_decide_eq_false_2 by done. by rewrite IH.
Qed.

Lemma take_token_end delims t : Forall (fun x => x ∉ delims) t -> take_token delims t = (t, []).
Proof. induction t as [|x t IH]; intros H; cbn; [done|]. apply Forall_cons in H as [? ?]. rewrite bool_decide_eq_false_2 by done. by rewrite IH. Qed.

Lemma strtok_at delims t c rest : t <> [] -> c ∈ delims -> Forall (fun x => x ∉ delims) t -> strtok delims (t ++ c :: rest) = Some (t, rest).
Proof.
  intros Ht Hc H. unfold strtok. assert (skip_delims delims (t ++ c :: rest) = t ++ c :: rest) as ->.
  { destruct t as [|x t]; [done|]. apply Forall_cons in H as [? ?]. cbn. by rewrite bool_decide_eq_false_2. }
  rewrite <- (take_token_at delims t c rest) by done. by destruct t.
Qed.

Lemma strtok_end delims t : t <> [] -> Forall (fun x => x ∉ delims) t -> strtok delims t = Some (t, []).
Proof.
  intros Ht H. unfold strtok. assert (skip_delims delims t = t) as ->.
  { destruct t as [|x t]; [done|]. apply Forall_cons in H as [? ?]. cbn. by rewrite bool_decide_eq_false_2. }
  rewrite <- (take_token_end delims t) by done. by destruct t.
Qed.

(** ** base64 *)

(** Base64 texts have none of the separators. *)
Lemma text_free c src : c = 0 \/ c = 36 \/ c = 44 \/ c = 58 -> c ∉ text src.
Proof.
  intros Hc Hin. pose proof (text_chars src) as H. rewrite Forall_forall in H. specialize (H c Hin). unfold plain in H. lia.
Qed.

Lemma text_not_in src c : c = 0 \/ c = 36 \/ c = 44 \/ c = 58 -> Forall (fun x => x ∉ [c]) (text src).
Proof. intros Hc. apply Forall_forall. intros x Hx. rewrite list_elem_of_singleton. intros ->. by apply (text_free c src). Qed.

Lemma text_nonempty src : src <> [] -> text src <> [].
Proof. destruct src as [|a [|b [|c l]]]; done. Qed.

Lemma decode_of_text src : Forall is_u8 src -> pg_b64_decode (text src) (pg_b64_dec_len (zlen (text src))) = Some src.
Proof. intros H. apply pg_b64_decode_text; [done|]. rewrite text_len. apply dec_len_enough, zlen_nonneg. Qed.

Lemma decode_key_text k : key32 k -> decode_key (text k) = Some k.
Proof. intros [Hb Hl]. unfold decode_key. rewrite decode_of_text by done. cbn. by rewrite bool_decide_eq_false_2 by (rewrite Hl; intros H; by apply H). Qed.

Lemma encode_bytes src n : Forall is_u8 src -> zlen src = n -> pg_b64_encode src (pg_b64_enc_len n) = Some (text src).
Proof. intros H <-. by apply pg_b64_encode_text. Qed.

Lemma decode_key_32 e k : decode_key e = Some k -> zlen k = 32.
Proof. unfold decode_key. destruct (pg_b64_decode _ _) as [k'|]; [|done]. cbn. case_bool_decide as E; [done|]. intros [= <-]. change SCRAM_SHA_256_KEY_LEN with 32 in E. lia. Qed.

Lemma text_bytes src : Forall is_u8 (text src).
Proof. eapply Forall_impl; [apply text_chars|]. intros c H. unfold plain in H. unfold is_u8. lia. Qed.

Lemma text_printable src : is_scram_printable (text src) = true.
Proof.
  unfold is_scram_printable. apply forallb_forall. intros c Hc%list_elem_of_In. pose proof (text_chars src) as H. rewrite Forall_forall in H. specialize (H c Hc).
  unfold plain in H. by rewrite !bool_decide_eq_false_2 by lia.
Qed.

(** ** Secrets *)

Lemma s32_small n : 0 <= n <= INT_MAX -> s32 n = n.
Proof. unfold INT_MAX, s32. intros H. rewrite Z.mod_small by lia. by rewrite bool_decide_eq_true_2 by lia. Qed.

Lemma parse_secret_text salt it stored server :
  salt <> [] -> Forall is_u8 salt -> 0 <= it <= INT_MAX -> key32 stored -> key32 server ->
  parse_scram_secret (secret_text salt it stored server) = Some (mkSecret it (text salt) stored server).
Proof.
  intros Hne Hs Hi Hst Hsv. unfold parse_scram_secret, secret_text, dec_int. rewrite bool_decide_eq_false_2 by lia.
  assert (Hk : forall k, key32 k -> k <> []) by (intros k [_ Hl] ->; done).
  change (str "SCRAM-SHA-256$") with (str "SCRAM-SHA-256" ++ [36]). rewrite <- app_assoc. change ([36] ++ dec it ++ ?r) with (36 :: (dec it ++ r)).
  rewrite strtok_at; [|done|by apply list_elem_of_singleton|apply (bool_decide_unpack _); by vm_compute]. cbn [mbind option_bind].
  change ([58] ++ text salt ++ ?r) with (58 :: (text salt ++ r)).
  rewrite strtok_at; [|by destruct (dec_cons it) as (d & l & -> & _)|by apply list_elem_of_singleton| ].
  2: { apply Forall_forall. intros x Hx. rewrite list_elem_of_singleton. intros ->. apply (digit_not 58 it); [lia|done]. }
  cbn [mbind option_bind]. change ([36] ++ text stored ++ ?r) with (36 :: (text stored ++ r)).
  rewrite strtok_at; [|by apply text_nonempty|by apply list_elem_of_singleton|apply text_not_in; auto]. cbn [mbind option_bind].
  change ([58] ++ text server) with (58 :: text server).
  rewrite strtok_at; [|by apply text_nonempty, Hk|by apply list_elem_of_singleton|apply text_not_in; auto]. cbn [mbind option_bind].
  rewrite strtok_end; [|by apply text_nonempty, Hk|apply Forall_true; intros x; apply not_elem_of_nil]. cbn [mbind option_bind].
  rewrite bool_decide_eq_false_2 by (intros Hx; by apply Hx). rewrite strtol_dec by (unfold INT_MAX in Hi; lia). rewrite bool_decide_eq_false_2 by (intros Hx; by apply Hx). cbn [orb].
  rewrite decode_of_text by done. cbn [mbind option_bind]. rewrite (decode_key_text stored) by done. cbn [mbind option_bind]. rewrite (decode_key_text server) by done.
  cbn [mbind option_bind]. by rewrite s32_small.
Qed.

Lemma stored_key_eq s : stored_key s = sha256 (client_key s).
Proof. done. Qed.

Lemma stored_key32 s : key32 (stored_key s).
Proof. exact (sha256_key32 (client_key s)). Qed.
Lemma server_key32 s : key32 (server_key s).
Proof. unfold server_key. apply hmac_key32. Qed.
Lemma client_key32 s : key32 (client_key s).
Proof. unfold client_key. apply hmac_key32. Qed.
#[export] Hint Resolve stored_key32 server_key32 client_key32 : pgb.

Lemma parse_secret_of password salt it : salt <> [] -> Forall is_u8 salt -> 0 <= it <= INT_MAX ->
  parse_scram_secret (secret_of password salt it) = Some (mkSecret it (text salt) (stored_key (hi password salt it)) (server_key (hi password salt it))).
Proof. intros. apply parse_secret_text; auto with pgb. Qed.

Lemma password_type_of_secret password salt it : salt <> [] -> Forall is_u8 salt -> 0 <= it <= INT_MAX -> get_password_type (secret_of password salt it) = PASSWORD_TYPE_SCRAM_SHA_256.
Proof.
  intros. unfold get_password_type. rewrite parse_secret_of by done.
  assert (ztake 3 (secret_of password salt it) = str "SCR") as -> by (unfold secret_of, secret_text; by rewrite ztake_app_le).
  by rewrite bool_decide_eq_false_2.
Qed.

(** C17: A secret written by [scram_build_secret] is recognized as a SCRAM
    secret and parses back to its iteration count, its salt, and the two keys
    RFC 5802 defines from the salted password Hi: StoredKey, the hash of HMAC
    over the client's label, and ServerKey, HMAC over the server's.  The check
    of a plain text password against it accepts the password it was made
    from. *)
Theorem built_secret_verifies `{!Saslprep} password salt it :
  short password -> pg_saslprep password = SASLPREP_SUCCESS password -> short salt -> salt <> [] -> 0 < it <= INT_MAX ->
  exists secret, scram_build_secret salt it password = Ok (Some secret) /\ get_password_type secret = PASSWORD_TYPE_SCRAM_SHA_256 /\
    (exists e, parse_scram_secret secret = Some e /\ se_iterations e = it /\
       pg_b64_decode (se_salt e) (pg_b64_dec_len (zlen (se_salt e))) = Some salt /\
       se_stored_key e = sha256 (hmac (hi password salt it) (str "Client Key")) /\
       se_server_key e = hmac (hi password salt it) (str "Server Key")) /\
    scram_verify_plain_password password secret = Ok true.
Proof.
  intros Hp Hprep Hs Hne Hi. exists (secret_of password salt it). split; [by apply scram_build_secret_ok|]. destruct Hs as [Hb Hl].
  split; [apply password_type_of_secret; [done|done|lia]|]. split.
  { eexists. split; [apply parse_secret_of; [done|done|lia]|]. cbn [se_iterations se_salt se_stored_key se_server_key].
    split; [reflexivity|]. split; [by apply decode_of_text|]. split; reflexivity. }
  unfold scram_verify_plain_password. rewrite parse_secret_of by (done || lia).
  cbn [mbind option_bind se_salt]. rewrite decode_of_text by done. rewrite Hprep. cbn [se_iterations se_server_key].
  rewrite scram_SaltedPassword_ok by done. cbn [mbind res_bind]. rewrite scram_ServerKey_ok by auto with pgb. cbn [mbind res_bind]. by rewrite bool_decide_eq_true_2.
Qed.

Lemma built_secret_verifies_witness : exists secret, scram_build_secret (str "salt-salt") 3 (str "s3cret") = Ok (Some secret) /\
  get_password_type secret = PASSWORD_TYPE_SCRAM_SHA_256 /\ scram_verify_plain_password (str "s3cret") secret = Ok true.
Proof.
  destruct (built_secret_verifies (str "s3cret") (str "salt-salt") 3) as (s & H1 & H2 & _ & H3).
  - split; [apply str_bytes|done].
  - by vm_compute.
  - split; [apply str_bytes|done].
  - done.
  - unfold INT_MAX. lia.
  - exists s. exact (conj H1 (conj H2 H3)).
Defined.
