(* ===== verification/ScramExchange.v ===== *)
(** * The SCRAM exchange

    The messages of the two roles passed to each other: a client that knows the
    password and a server that holds its verifier accept each other; the keys
    PgBouncer recovers from a client log it in to a server that holds the same
    secret. *)

From S2P Require Import Prelude Inet Base64 Sha2 Hmac ScramCommon Tokens Scram ScramText.
From stdpp Require Import base option list strings.
#[local] Open Scope Z_scope.

#[local] Opaque sha256 hmac hi client_key server_key stored_key text.

(** ** The exchange *)

(** What the server side has when it is done. *)
Record Accepted := { ac_state : ScramState; ac_user : Credentials; ac_client_ok : bool }.

(** A step whose message is missing ends the exchange. *)
Definition sent {A B} (m : option A) (k : A -> res (option B)) : res (option B) := match m with None => Ok None | Some a => k a end.

(** [credentials] log in to the holder of [user]'s verifier.  [ac_client_ok] is
    the verdict of the client on the server. *)
Definition exchange `{!Saslprep} (raw_nonce : list Z) (credentials : Credentials) (d : Draws) (user : Credentials) : res (option Accepted) :=
  '(m1, c) ← login_scram_sha_256 raw_nonce credentials free_scram_state;
  sent m1 (fun m1 =>
  '(m2, user, s) ← scram_client_first d user m1 free_scram_state;
  sent m2 (fun m2 =>
  '(m3, c) ← login_scram_sha_256_cont credentials m2 c;
  sent m3 (fun m3 =>
  '(m4, s) ← scram_client_final true m3 s;
  sent m4 (fun m4 =>
  '(ok, c) ← login_scram_sha_256_final credentials m4 c;
  Ok (Some {| ac_state := s; ac_user := user; ac_client_ok := ok |}))))).

(** The credentials with the keys of a finished exchange. *)
Definition kept_keys (u : Credentials) (s : ScramState) : Credentials :=
  mkCredentials (cr_name u) (cr_passwd u) (mock_auth u) (dynamic_passwd u) (scram_verifier_cached u) (scram_adhoc u) (scram_Iiterations u) (scram_SaltKey u)
    (scram_StoredKey u) (ServerKey s) (ClientKey s) true.

(** client.c: the keys kept for the login to the server.  [fake]: the database
    is not a real one; [same]: the credentials the client logged in with are
    those of its pool. *)
Definition save_keys (fake same : bool) (u : Credentials) (s : ScramState) : Credentials :=
  if negb (adhoc s) && negb fake && same then kept_keys u s else u.

(** ** Signatures *)

Definition auth (bare first wp : list Z) : list Z := bare ++ [44] ++ first ++ [44] ++ wp.

Lemma signature_ok key wp bare first s :
  short key -> short wp -> short bare -> short first -> client_first_message_bare s = Some bare -> server_first_message s = Some first ->
  signature key wp s = Ok (Some (hmac key (auth bare first wp)), s).
Proof.
  intros Hk [Hw Lw] [Hb Lb] [Hf Lf] Eb Ef. unfold signature, auth_pieces. autorewrite with sm. rewrite Eb, Ef. autorewrite with sm.
  assert (Hc : Forall (Forall is_u8) [bare; [44]; first; [44]; wp]) by (repeat (apply Forall_cons; split; [first [done|by apply Forall_singleton]|]); by apply Forall_nil).
  destruct (hmac_chain_ok pg_hmac_create key [bare; [44]; first; [44]; wp]) as (c & E & _); [auto with pgb|done|done|cbn [concat]; zlia|].
  change SCRAM_SHA_256_KEY_LEN with 32. rewrite E. autorewrite with sm. cbn [concat]. by rewrite app_nil_r.
Qed.

Lemma short_app a b : Forall is_u8 a -> Forall is_u8 b -> zlen a + zlen b < 2 ^ 32 -> short (a ++ b).
Proof. intros. split; [by apply Forall_app|]. zlia. Qed.

Lemma text18 rn : Forall is_u8 rn -> zlen rn = 18 -> zlen (text rn) = 24.
Proof. intros _ H. rewrite text_len, H. done. Qed.

(** A character that is in none of the parts of a text. *)
Ltac no_char :=
  repeat first
    [ assumption
    | apply not_elem_of_app; split
    | apply text_free; by auto
    | apply digit_not; lia
    | apply (bool_decide_unpack (_ ∉ str _)); by vm_compute ].

(** ** First messages *)

Definition bare_of (cn : list Z) : list Z := str "n=,r=" ++ cn.
Definition client_started (cn : list Z) : ScramState := set_bare (Some (bare_of cn)) (set_client_nonce (Some cn) free_scram_state).
Definition server_started (cn : list Z) (s : ScramState) : ScramState := set_client_nonce (Some cn) (set_bare (Some (bare_of cn)) (set_cbind_flag 110 s)).

Lemma login_start rn cred : Forall is_u8 rn -> zlen rn = 18 -> usable_password cred = true ->
  login_scram_sha_256 rn cred free_scram_state = Ok (Some (str "n,,n=,r=" ++ text rn), client_started (text rn)).
Proof.
  intros Hb Hl Hu. unfold login_scram_sha_256. rewrite Hu. autorewrite with sm. cbn [client_nonce free_scram_state]. unfold build_client_first_message.
  rewrite (encode_bytes rn) by done. by autorewrite with sm.
Qed.

Lemma read_attr a l : read_attr_value (a :: 61 :: l) a = Some (split_value l).
Proof. cbn. by rewrite !bool_decide_eq_false_2 by (intros H; by apply H). Qed.

Lemma read_client_first cn s : 44 ∉ cn -> is_scram_printable cn = true -> read_client_first_message (str "n,,n=,r=" ++ cn) s = Ok (true, server_started cn s).
Proof.
  intros Hc Hp. unfold read_client_first_message. autorewrite with sm.
  change (gs2_header (str "n,,n=,r=" ++ cn)) with (Some (110 :: 61 :: 44 :: 114 :: 61 :: cn)). cbn iota.
  change (bool_decide (head (110 :: 61 :: 44 :: 114 :: 61 :: cn) = Some 109)) with false. cbn iota. rewrite read_attr. cbn [split_value].
  rewrite bool_decide_eq_true_2 by done. cbn zeta iota. rewrite read_attr, split_value_end, Hp by done. cbn [negb length skip_attrs]. by autorewrite with sm.
Qed.

(** ** Verifiers *)

Section verifiers.
Context {SP : Saslprep}.

(** The verifier the server uses for [u] was made from the password [p], with
    this salt and iteration count; the flag is the state's adhoc. *)
Inductive verifier_for (d : Draws) (u : Credentials) (p salt : list Z) (it : Z) : bool -> Prop :=
| plain_verifier :
    scram_verifier_cached u = false -> get_password_type (cr_passwd u) = PASSWORD_TYPE_PLAINTEXT -> prepared (cr_passwd u) = Some p ->
    dr_salt d = salt -> zlen salt = SCRAM_DEFAULT_SALT_LEN -> dr_iterations d = it -> verifier_for d u p salt it true
| secret_verifier : scram_verifier_cached u = false -> cr_passwd u = secret_of p salt it -> verifier_for d u p salt it false
| cached_verifier ah :
    scram_verifier_cached u = true -> get_password_type (cr_passwd u) <> PASSWORD_TYPE_MD5 -> scram_SaltKey u = Some (text salt) -> scram_Iiterations u = it ->
    scram_StoredKey u = stored_key (hi p salt it) -> cr_ServerKey u = server_key (hi p salt it) -> scram_adhoc u = ah -> verifier_for d u p salt it ah.

(** Salts and counts a client accepts. *)
Definition usual (salt : list Z) (it : Z) : Prop := Forall is_u8 salt /\ salt <> [] /\ zlen salt < 2 ^ 20 /\ 1 <= it <= SCRAM_MAX_ITERATIONS.

Definition with_verifier (ah : bool) (it : Z) (es st sv : list Z) (s : ScramState) : ScramState :=
  set_ServerKey sv (set_StoredKey st (set_encoded_salt (Some es) (set_iterations it (set_adhoc ah s)))).

Lemma with_verifier_adhoc it es st sv s : adhoc s = false ->
  set_ServerKey sv (set_StoredKey st (set_encoded_salt (Some es) (set_iterations it s))) = with_verifier false it es st sv s.
Proof. destruct s. cbn. by intros ->. Qed.

Lemma build_adhoc_ok it salt password p s :
  prepared password = Some p -> short p -> Forall is_u8 salt -> zlen salt = SCRAM_DEFAULT_SALT_LEN ->
  build_adhoc_scram_secret it salt password s = Ok (true, with_verifier true it (text salt) (stored_key (hi p salt it)) (server_key (hi p salt it)) s).
Proof.
  intros Hp Hs Hb Hl. unfold build_adhoc_scram_secret. rewrite Hp. autorewrite with sm. unfold put_salt. rewrite encode_bytes by done. autorewrite with sm. cbn [negb].
  unfold filled. autorewrite with sm. rewrite scram_SaltedPassword_ok by (done || (split; [done|rewrite Hl; done])). autorewrite with sm. cbn [deref]. autorewrite with sm.
  rewrite scram_ClientKey_ok by auto with pgb. autorewrite with sm. cbn [deref]. autorewrite with sm. rewrite scram_H_ok by auto with pgb. autorewrite with sm. cbn [deref]. autorewrite with sm.
  rewrite scram_ServerKey_ok by auto with pgb. autorewrite with sm. cbn [deref]. autorewrite with sm. done.
Qed.

(** The verifier is loaded, and the credentials verify the same password after. *)
Lemma load_verifier_ok d u p salt it ah s :
  verifier_for d u p salt it ah -> short p -> usual salt it -> adhoc s = false ->
  exists u', load_verifier d u (cr_passwd u) s = Ok (Some u', with_verifier ah it (text salt) (stored_key (hi p salt it)) (server_key (hi p salt it)) s) /\
    cr_passwd u' = cr_passwd u /\ (dynamic_passwd u = false -> forall d', verifier_for d' u' p salt it ah).
Proof.
  intros Hv Hp (Hb & Hne & Hls & Hit) Ha. assert (Hi : 0 <= it <= INT_MAX) by (unfold SCRAM_MAX_ITERATIONS, INT_MAX in *; lia). unfold load_verifier.
  destruct Hv as [Hc Ht Hprep Hs Hl Hn|Hc Hpw|ah' Hc Ht Hk Hn Hst Hsv Had].
  - rewrite Hc, Ht, Hs, Hn. erewrite SM_bind_eq by (by apply build_adhoc_ok). cbn [negb]. autorewrite with sm. eexists. split; [done|].
    destruct (dynamic_passwd u) eqn:Ed; [done|]. split; [done|]. intros _ d'. apply cached_verifier; try done. cbn. by rewrite Ht.
  - rewrite Hc, Hpw, password_type_of_secret, parse_secret_of by done. autorewrite with sm. cbn [negb se_iterations se_salt se_stored_key se_server_key]. autorewrite with sm.
    rewrite with_verifier_adhoc by done. eexists. split; [done|]. destruct (dynamic_passwd u) eqn:Ed; [done|]. split; [done|]. intros _ d'. apply cached_verifier; try done.
    cbn. by rewrite Hpw, password_type_of_secret.
  - rewrite Hc. autorewrite with sm. rewrite Hk. cbn [deref]. autorewrite with sm. exists u. rewrite Hn, Hst, Hsv, Had. split; [done|]. split; [done|]. intros _ d'.
    by apply cached_verifier.
Qed.

(** ** The server's first message *)

Definition first_of (cn sn salt : list Z) (it : Z) : list Z := str "r=" ++ cn ++ sn ++ str ",s=" ++ text salt ++ str ",i=" ++ dec it.

Definition challenged (cn sn salt : list Z) (it : Z) (s : ScramState) : ScramState :=
  set_server_first (Some (first_of cn sn salt it)) (set_server_nonce (Some sn) s).

Lemma dec_short n : 0 <= n < 10 ^ 10 -> zlen (dec n) <= 10.
Proof. intros H. apply (dec_digits_short 20 n 10 []); [done|lia]. Qed.

Lemma verifier_not_md5 d u p salt it ah : usual salt it -> verifier_for d u p salt it ah -> get_password_type (cr_passwd u) <> PASSWORD_TYPE_MD5.
Proof.
  intros (Hb & Hne & _ & Hit) [Hc Ht Hprep|Hc Hpw|ah' Hc Ht]; [by rewrite Ht| |done].
  rewrite Hpw, password_type_of_secret by (done || (unfold SCRAM_MAX_ITERATIONS, INT_MAX in *; lia)). done.
Qed.

Lemma put_server_first_ok rn cn salt it s :
  Forall is_u8 rn -> zlen rn = 18 -> usual salt it -> client_nonce s = Some cn -> encoded_salt s = Some (text salt) -> sc_iterations s = it ->
  put_server_first rn s = Ok (Some (first_of cn (text rn) salt it), challenged cn (text rn) salt it s).
Proof.
  intros Hb Hl (_ & _ & _ & Hit) Ec Es Ei. unfold SCRAM_MAX_ITERATIONS in Hit. unfold put_server_first. rewrite encode_bytes by done. autorewrite with sm.
  change (client_nonce (set_server_nonce ?n s)) with (client_nonce s). change (encoded_salt (set_server_nonce ?n s)) with (encoded_salt s).
  change (sc_iterations (set_server_nonce ?n s)) with (sc_iterations s). rewrite Ec, Es, Ei. cbn [deref]. autorewrite with sm.
  rewrite u32_small by (unfold UINT_MAX; lia). pose proof (dec_short it ltac:(lia)). rewrite ztake_all; [done|].
  rewrite !zlen_app. change (zlen (str "r=")) with 2. change (zlen (str ",s=")) with 3. change (zlen (str ",i=")) with 3. lia.
Qed.

Definition server_waiting (cn sn salt : list Z) (it : Z) (st sv : list Z) (ah : bool) : ScramState :=
  challenged cn sn salt it (with_verifier ah it (text salt) st sv (server_started cn free_scram_state)).

Lemma server_answers rn d u p salt it ah :
  Forall is_u8 rn -> zlen rn = 18 -> Forall is_u8 (dr_nonce d) -> zlen (dr_nonce d) = 18 -> mock_auth u = false ->
  verifier_for d u p salt it ah -> short p -> usual salt it ->
  exists u', scram_client_first d u (str "n,,n=,r=" ++ text rn) free_scram_state =
      Ok (Some (first_of (text rn) (text (dr_nonce d)) salt it), u', server_waiting (text rn) (text (dr_nonce d)) salt it (stored_key (hi p salt it)) (server_key (hi p salt it)) ah) /\
    cr_passwd u' = cr_passwd u /\ (dynamic_passwd u = false -> forall d', verifier_for d' u' p salt it ah).
Proof.
  intros Hrb Hrl Hdb Hdl Hm Hv Hp Hus. pose proof (verifier_not_md5 _ _ _ _ _ _ Hus Hv) as Hmd. unfold scram_client_first.
  rewrite until_nul_all by no_char.
  erewrite SM_bind_eq by (apply read_client_first; [apply text_free; auto|apply text_printable]). cbn [negb]. rewrite Hm. cbn [negb andb].
  assert (match get_password_type (cr_passwd u) with PASSWORD_TYPE_MD5 => true | _ => false end = false) as -> by (by destruct (get_password_type (cr_passwd u))).
  unfold build_server_first_message. destruct (load_verifier_ok d u p salt it ah (server_started (text rn) free_scram_state) Hv Hp Hus eq_refl) as (u' & E & Hu').
  erewrite SM_bind_eq by exact E. exists u'. split; [|done]. 
  erewrite SM_bind_eq by (apply (put_server_first_ok (dr_nonce d) (text rn) salt it); [exact Hdb|exact Hdl|exact Hus|reflexivity..]). reflexivity.
Qed.

(** ** The client's final message *)

Lemma read_server_first cn sn salt it c :
  client_nonce c = Some cn -> 44 ∉ cn -> 44 ∉ sn -> usual salt it ->
  read_server_first_message (first_of cn sn salt it) c =
    Ok (true, set_iterations it (set_salt (Some salt) (set_server_nonce (Some (cn ++ sn)) (set_server_first (Some (first_of cn sn salt it)) c)))).
Proof.
  intros Ec Hcn Hsn (Hb & Hne & Hl & Hit). unfold read_server_first_message. autorewrite with sm. unfold first_of at 1.
  change (str "r=" ++ cn ++ sn ++ str ",s=" ++ text salt ++ str ",i=" ++ dec it) with (114 :: 61 :: cn ++ sn ++ 44 :: 115 :: 61 :: text salt ++ 44 :: 105 :: 61 :: dec it).
  rewrite read_attr, app_assoc, split_value_at by no_char. autorewrite with sm. change (client_nonce (set_server_first ?x c)) with (client_nonce c). rewrite Ec. cbn [deref]. autorewrite with sm.
  rewrite bool_decide_eq_false_2 by zlia. rewrite ztake_app_le, ztake_all by lia. rewrite bool_decide_eq_false_2 by (intros Hx; by apply Hx). cbn [orb]. autorewrite with sm.
  rewrite read_attr, split_value_at by no_char. rewrite decode_of_text by done. autorewrite with sm. rewrite read_attr, split_value_end by no_char.
  unfold SCRAM_MAX_ITERATIONS in *. rewrite strtol_dec by lia. rewrite s32_small by (unfold INT_MAX; lia). rewrite (bool_decide_eq_false_2 ([] <> [])) by (intros Hx; by apply Hx). rewrite !bool_decide_eq_false_2 by lia. cbn [orb].
  autorewrite with sm. by rewrite bool_decide_eq_true_2.
Qed.

(** The credentials give these keys for a salt and a count. *)
Inductive client_keys (cr : Credentials) (salt : list Z) (it : Z) : list Z -> list Z -> Prop :=
| keys_kept : scram_passthrough_valid cr = true -> key32 (cr_ClientKey cr) -> key32 (cr_ServerKey cr) -> client_keys cr salt it (cr_ClientKey cr) (cr_ServerKey cr)
| keys_of_password p : scram_passthrough_valid cr = false -> prepared (cr_passwd cr) = Some p -> short p -> client_keys cr salt it (client_key (hi p salt it)) (server_key (hi p salt it)).

(** The server key the credentials have once the salted password is known. *)
Definition server_key_known (cr : Credentials) (sv : list Z) (c : ScramState) : Prop :=
  if scram_passthrough_valid cr then cr_ServerKey cr = sv else exists x, SaltedPassword c = Some x /\ key32 x /\ server_key x = sv.

Lemma client_keys32 cr salt it ck sv : client_keys cr salt it ck sv -> key32 ck /\ key32 sv.
Proof. intros [Hv ? ?|p Hv Hp Hs]; auto with pgb. Qed.

Lemma derive_ok cr salt it ck sv c : client_keys cr salt it ck sv -> usual salt it -> sc_salt c = Some salt -> sc_iterations c = it ->
  exists sp, derive_client_key cr c = Ok (Some ck, set_SaltedPassword sp c) /\ server_key_known cr sv (set_SaltedPassword sp c).
Proof.
  intros Hk (Hb & _ & Hl & _) Es Ei. unfold derive_client_key, server_key_known. destruct Hk as [Hv _ _|p Hv Hp Hs]; rewrite Hv.
  - exists (SaltedPassword c). split; [by destruct c|done].
  - rewrite Hp. autorewrite with sm. rewrite Es, Ei. cbn [deref]. autorewrite with sm. rewrite scram_SaltedPassword_ok by (done || (split; [done|lia])). autorewrite with sm.
    exists (Some (hi p salt it)). rewrite scram_ClientKey_ok by auto with pgb. split; [done|]. eexists. split; [done|]. auto with pgb.
Qed.

Definition without_proof_of (nonce : list Z) : list Z := str "c=biws,r=" ++ nonce.
Definition proof_of (ck bare first wp : list Z) : list Z := xor_bytes ck (hmac (sha256 ck) (auth bare first wp)).

Lemma proof_of_key32 ck bare first wp : key32 ck -> key32 (proof_of ck bare first wp).
Proof. unfold proof_of. auto with pgb. Qed.

Lemma calculate_ok cr salt it ck sv c bare first wp :
  client_keys cr salt it ck sv -> usual salt it -> sc_salt c = Some salt -> sc_iterations c = it ->
  client_first_message_bare c = Some bare -> server_first_message c = Some first -> short bare -> short first -> short wp ->
  exists sp, calculate_client_proof cr wp c = Ok (Some (proof_of ck bare first wp), set_SaltedPassword sp c) /\ server_key_known cr sv (set_SaltedPassword sp c).
Proof.
  intros Hk Hus Es Ei Eb Ef Hb Hf Hw. destruct (client_keys32 _ _ _ _ _ Hk) as [Hck _]. destruct (derive_ok cr salt it ck sv c Hk Hus Es Ei) as (sp & E & Hsv).
  exists sp. split; [|done]. unfold calculate_client_proof. erewrite SM_bind_eq by exact E. cbn beta iota. rewrite scram_H_ok by auto with pgb. autorewrite with sm.
  erewrite SM_bind_eq by (apply signature_ok; [auto with pgb|exact Hw|exact Hb|exact Hf|exact Eb|exact Ef]). reflexivity.
Qed.

(** With a nonce of less than 456 bytes the message fits. *)
Lemma client_final_ok cr salt it ck sv c bare first nonce :
  client_keys cr salt it ck sv -> usual salt it -> sc_salt c = Some salt -> sc_iterations c = it ->
  client_first_message_bare c = Some bare -> server_first_message c = Some first -> short bare -> short first ->
  server_nonce c = Some nonce -> Forall is_u8 nonce -> zlen nonce < 456 ->
  let wp := without_proof_of nonce in
  exists sp, build_client_final_message cr c = Ok (Some (wp ++ str ",p=" ++ text (proof_of ck bare first wp)), set_SaltedPassword sp (set_without_proof (Some wp) c)) /\
    server_key_known cr sv (set_SaltedPassword sp (set_without_proof (Some wp) c)).
Proof.
  intros Hk Hus Es Ei Eb Ef Hb Hf En Hnb Hnl wp. assert (Hwl : zlen wp = 9 + zlen nonce) by (unfold wp, without_proof_of; rewrite zlen_app; done).
  assert (Hw : short wp) by (apply short_app; [auto with pgb|done|change (zlen (str "c=biws,r=")) with 9; lia]).
  destruct (calculate_ok cr salt it ck sv (set_without_proof (Some wp) c) bare first wp) as (sp & E & Hsv); [done..|]. exists sp. split; [|done].
  unfold build_client_final_message. autorewrite with sm. rewrite En. cbn [deref]. autorewrite with sm. fold (without_proof_of nonce). fold wp. rewrite ztake_all by lia.
  erewrite SM_bind_eq by exact E. cbn beta iota. rewrite bool_decide_eq_false_2 by lia.
  destruct (proof_of_key32 ck bare first wp (proj1 (client_keys32 _ _ _ _ _ Hk))) as [Hpb Hpl]. rewrite encode_bytes by done.
  rewrite text_len, Hpl. change (pg_b64_enc_len 32) with 44. rewrite bool_decide_eq_true_2 by lia.
  rewrite ztake_all by (rewrite zlen_app; change (zlen (str ",p=")) with 3; lia). by rewrite <- app_assoc.
Qed.

(** ** The server's verdict *)

Definition final_of (nonce proof : list Z) : list Z := without_proof_of nonce ++ str ",p=" ++ text proof.

Lemma read_client_final nonce proof s :
  44 ∉ nonce -> cbind_flag s = 110 -> key32 proof -> read_client_final_message (final_of nonce proof) (final_of nonce proof) s =
    Ok (Some (nonce, proof), set_without_proof (Some (without_proof_of nonce)) s).
Proof.
  intros Hn Hf Hp. unfold read_client_final_message. autorewrite with sm. set (raw := final_of nonce proof) at 2 3.
  change (final_of nonce proof) with (99 :: 61 :: (str "biws" ++ 44 :: 114 :: 61 :: nonce ++ 44 :: 112 :: 61 :: text proof)).
  rewrite read_attr, split_value_at by (by apply (bool_decide_unpack (44 ∉ str "biws")); vm_compute). rewrite Hf. change (cbind_ok (str "biws") 110) with true. cbn [negb].
  rewrite read_attr, split_value_at by no_char. cbn [find_proof read_any_attr]. change (is_attr 112) with true. cbn [negb].
  rewrite bool_decide_eq_false_2 by (intros Hx; by apply Hx). rewrite split_value_end by no_char. rewrite bool_decide_eq_true_2 by done. autorewrite with sm.
  rewrite decode_key_text by done. rewrite bool_decide_eq_false_2 by (intros Hx; by apply Hx).
  assert (Er : raw = without_proof_of nonce ++ (44 :: 112 :: 61 :: text proof)) by reflexivity.
  replace (zlen raw - zlen (112 :: 61 :: text proof) - 1) with (zlen (without_proof_of nonce)) by (rewrite Er; zlia).
  rewrite mem_load_ok by (rewrite ?Er; zlia). autorewrite with sm. rewrite Z.add_0_l, slice_0, Er, ztake_app_le, ztake_all by lia. reflexivity.
Qed.

Lemma verify_proof_ok proof wp bare first s :
  key32 proof -> key32 (StoredKey s) -> short wp -> short bare -> short first -> client_final_message_without_proof s = Some wp ->
  client_first_message_bare s = Some bare -> server_first_message s = Some first ->
  let ck := xor_bytes proof (hmac (StoredKey s) (auth bare first wp)) in verify_client_proof proof s = Ok (bool_decide (sha256 ck = StoredKey s), set_ClientKey ck s).
Proof.
  intros Hp Hst Hw Hb Hf Ew Eb Ef ck. unfold verify_client_proof. autorewrite with sm. rewrite Ew. cbn [deref]. autorewrite with sm.
  erewrite SM_bind_eq by (apply (signature_ok _ _ bare first); [auto with pgb|assumption..]). cbn beta iota. autorewrite with sm. fold ck.
  rewrite scram_H_ok by (apply key32_short, xor_key32; [done|apply hmac_key32]). by autorewrite with sm.
Qed.

Lemma server_final_ok wp bare first s :
  short wp -> short bare -> short first -> key32 (ServerKey s) -> client_final_message_without_proof s = Some wp ->
  client_first_message_bare s = Some bare -> server_first_message s = Some first ->
  build_server_final_message s = Ok (Some (str "v=" ++ text (hmac (ServerKey s) (auth bare first wp))), s).
Proof.
  intros Hw Hb Hf Hk Ew Eb Ef. unfold build_server_final_message, compute_server_signature. autorewrite with sm. rewrite Ew. cbn [deref]. autorewrite with sm.
  erewrite SM_bind_eq by (apply (signature_ok _ _ bare first); [auto with pgb|assumption..]). cbn beta iota. autorewrite with sm.
  destruct (hmac_key32 (ServerKey s) (auth bare first wp)) as [Hhb Hhl]. rewrite (encode_bytes (hmac (ServerKey s) (auth bare first wp))) by done.
  rewrite bool_decide_eq_false_2 by (rewrite text_len, Hhl; unfold INT_MAX; change (pg_b64_enc_len 32) with 44; lia). reflexivity.
Qed.

Lemma proof_opens ck bare first wp : key32 ck -> xor_bytes (proof_of ck bare first wp) (hmac (sha256 ck) (auth bare first wp)) = ck.
Proof. intros [_ Hl]. unfold proof_of. apply xor_bytes_involutive. by rewrite Hl, hmac_len. Qed.

Lemma server_accepts cn sn bare first ck sv s :
  44 ∉ cn -> 44 ∉ sn -> 0 ∉ cn -> 0 ∉ sn -> short (without_proof_of (cn ++ sn)) -> short bare -> short first -> key32 ck -> key32 sv ->
  cbind_flag s = 110 -> client_nonce s = Some cn -> server_nonce s = Some sn -> client_first_message_bare s = Some bare -> server_first_message s = Some first ->
  StoredKey s = sha256 ck -> ServerKey s = sv ->
  let wp := without_proof_of (cn ++ sn) in
  scram_client_final true (final_of (cn ++ sn) (proof_of ck bare first wp)) s =
    Ok (Some (str "v=" ++ text (hmac sv (auth bare first wp))), set_ClientKey ck (set_without_proof (Some wp) s)).
Proof.
  intros Hc Hs Hc0 Hs0 Hwp Hb Hf Hck Hsv Ef Ec Es Eb E1 Est Esv wp. unfold scram_client_final.
  rewrite until_nul_all by (unfold final_of, without_proof_of; no_char).
  erewrite SM_bind_eq by (apply read_client_final; [no_char|exact Ef|by apply proof_of_key32]). cbn beta iota. autorewrite with sm. fold wp.
  set (s1 := set_without_proof (Some wp) s). unfold verify_final_nonce. change (client_nonce s1) with (client_nonce s). change (server_nonce s1) with (server_nonce s). rewrite Ec, Es.
  rewrite bool_decide_eq_true_2 by zlia. rewrite ztake_app_le, ztake_all, zdrop_app_ge, zdrop_0 by lia. rewrite !bool_decide_eq_true_2 by done. cbn [andb]. autorewrite with sm. cbn [negb].
  erewrite SM_bind_eq by (apply (verify_proof_ok _ wp bare first); first [assumption|reflexivity|by apply proof_of_key32|change (StoredKey s1) with (StoredKey s); rewrite Est; apply sha256_key32]).
  change (StoredKey s1) with (StoredKey s). rewrite Est, proof_opens, bool_decide_eq_true_2 by done. cbn [negb].
  rewrite (server_final_ok wp bare first) by first [assumption|reflexivity|change (key32 (ServerKey s)); by rewrite Esv].
  change (ServerKey (set_ClientKey ck s1)) with (ServerKey s). by rewrite Esv.
Qed.

(** ** The client's verdict *)

Lemma client_accepts cr sv bare first wp c :
  short bare -> short first -> short wp -> key32 sv -> client_first_message_bare c = Some bare -> server_first_message c = Some first ->
  client_final_message_without_proof c = Some wp -> server_key_known cr sv c ->
  login_scram_sha_256_final cr (str "v=" ++ text (hmac sv (auth bare first wp))) c = Ok (true, c).
Proof.
  intros Hb Hf Hw Hsv Eb Ef Ew Hk. unfold login_scram_sha_256_final. autorewrite with sm. rewrite Ef. rewrite until_nul_all by no_char.
  assert (read_server_final_message (str "v=" ++ text (hmac sv (auth bare first wp))) = Some (hmac sv (auth bare first wp))) as ->.
  { change (str "v=" ++ text (hmac sv (auth bare first wp))) with (118 :: 61 :: text (hmac sv (auth bare first wp))). unfold read_server_final_message. cbn [head].
    rewrite bool_decide_eq_false_2 by done. rewrite read_attr, split_value_end by no_char. apply decode_key_text. auto with pgb. }
  unfold verify_server_signature. autorewrite with sm. unfold server_key_known in Hk.
  assert (E : (if scram_passthrough_valid cr then mret (Some (cr_ServerKey cr)) else sp ← deref (SaltedPassword c); lift (scram_ServerKey sp)) c = Ok (Some sv, c)).
  { destruct (scram_passthrough_valid cr); [by rewrite Hk|]. destruct Hk as (x & -> & Hx & <-). cbn [deref]. autorewrite with sm. rewrite scram_ServerKey_ok by auto with pgb. reflexivity. }
  erewrite SM_bind_eq by exact E. cbn beta iota. rewrite Ew. cbn [deref]. autorewrite with sm.
  erewrite SM_bind_eq by (apply (signature_ok _ _ bare first); [auto with pgb|done..]). autorewrite with sm. cbn [option_map]. rewrite bool_decide_eq_true_2 by reflexivity. reflexivity.
Qed.

(** ** Both sides *)

Lemma first_of_short cn sn salt it : Forall is_u8 cn -> Forall is_u8 sn -> zlen cn = 24 -> zlen sn = 24 -> usual salt it -> short (first_of cn sn salt it).
Proof.
  intros Hc Hs Lc Ls (Hb & _ & Hl & Hit). unfold SCRAM_MAX_ITERATIONS in Hit. unfold first_of. split.
  - rewrite !Forall_app. split_and!; auto with pgb; [apply text_bytes|by apply dec_bytes; lia].
  - rewrite !zlen_app, text_len, Lc, Ls. pose proof (dec_short it ltac:(lia)). change (zlen (str "r=")) with 2. change (zlen (str ",s=")) with 3. change (zlen (str ",i=")) with 3.
    unfold pg_b64_enc_len. change (2 ^ 20) with 1048576 in Hl. change (2 ^ 32) with 4294967296. Z.div_mod_to_equations; lia.
Qed.

(** The draws of an exchange. *)
Definition good_nonce (rn : list Z) : Prop := Forall is_u8 rn /\ zlen rn = SCRAM_RAW_NONCE_LEN.

(** What both sides know of the nonces and the messages. *)
Record agreed (cn sn salt : list Z) (it : Z) : Prop := {
  ag_cn : Forall is_u8 cn /\ (44 ∉ cn) /\ 0 ∉ cn;
  ag_sn : Forall is_u8 sn /\ (44 ∉ sn) /\ 0 ∉ sn;
  ag_len : zlen cn = 24 /\ zlen sn = 24;
  ag_usual : usual salt it;
  ag_first : short (first_of cn sn salt it);
  ag_bare : short (bare_of cn);
  ag_wp : short (without_proof_of (cn ++ sn))
}.

Lemma agreed_nonces rn rn' salt it : good_nonce rn -> good_nonce rn' -> usual salt it -> agreed (text rn) (text rn') salt it.
Proof.
  intros [Hb Hl] [Hb' Hl'] Hu. assert (L1 := text18 rn Hb Hl). assert (L2 := text18 rn' Hb' Hl'). pose proof (text_bytes rn). pose proof (text_bytes rn').
  split; try done; try (split_and!; [done|apply text_free; by auto..]).
  - by apply first_of_short.
  - apply short_app; [auto with pgb|done|change (zlen (str "n=,r=")) with 5; lia].
  - apply short_app; [auto with pgb|by apply Forall_app|change (zlen (str "c=biws,r=")) with 9; zlia].
Qed.

Definition client_asked (cn sn salt : list Z) (it : Z) : ScramState :=
  set_iterations it (set_salt (Some salt) (set_server_nonce (Some (cn ++ sn)) (set_server_first (Some (first_of cn sn salt it)) (client_started cn)))).

Lemma client_finishes cr cn sn salt it ck sv : agreed cn sn salt it -> client_keys cr salt it ck sv ->
  let wp := without_proof_of (cn ++ sn) in
  exists sp, login_scram_sha_256_cont cr (first_of cn sn salt it) (client_started cn) =
      Ok (Some (final_of (cn ++ sn) (proof_of ck (bare_of cn) (first_of cn sn salt it) wp)), set_SaltedPassword sp (set_without_proof (Some wp) (client_asked cn sn salt it))) /\
    server_key_known cr sv (set_SaltedPassword sp (set_without_proof (Some wp) (client_asked cn sn salt it))).
Proof.
  intros [(Hcb & Hc44 & Hc0) (Hsb & Hs44 & Hs0) [Lc Ls] Hus Hf Hb Hw] Hk wp.
  destruct (client_final_ok cr salt it ck sv (client_asked cn sn salt it) (bare_of cn) (first_of cn sn salt it) (cn ++ sn)) as (sp & E & Hs);
    [assumption|assumption|reflexivity..|assumption|assumption|reflexivity|by apply Forall_app|zlia|].
  exists sp. split; [|exact Hs]. unfold login_scram_sha_256_cont. autorewrite with sm. change (client_nonce (client_started cn)) with (Some cn).
  change (server_first_message (client_started cn)) with (@None (list Z)). cbn iota. rewrite until_nul_all by (unfold first_of; no_char).
  erewrite SM_bind_eq by (apply read_server_first; [reflexivity|assumption..]). cbn [negb]. exact E.
Qed.

Lemma server_concludes cn sn salt it ck sv ah : agreed cn sn salt it -> key32 ck -> key32 sv ->
  let wp := without_proof_of (cn ++ sn) in let first := first_of cn sn salt it in
  exists s, scram_client_final true (final_of (cn ++ sn) (proof_of ck (bare_of cn) first wp)) (server_waiting cn sn salt it (sha256 ck) sv ah) =
      Ok (Some (str "v=" ++ text (hmac sv (auth (bare_of cn) first wp))), s) /\ ClientKey s = ck /\ ServerKey s = sv /\ adhoc s = ah.
Proof.
  intros [(Hcb & Hc44 & Hc0) (Hsb & Hs44 & Hs0) [Lc Ls] Hus Hf Hb Hw] Hck Hsv wp first. eexists. split; [|split_and!].
  - apply (server_accepts cn sn (bare_of cn) first ck sv); first [assumption|reflexivity].
  - reflexivity.
  - reflexivity.
  - reflexivity.
Qed.

Lemma exchange_steps rn cr d u m1 c1 m2 u' s1 m3 c2 m4 s2 ok c3 :
  login_scram_sha_256 rn cr free_scram_state = Ok (Some m1, c1) -> scram_client_first d u m1 free_scram_state = Ok (Some m2, u', s1) ->
  login_scram_sha_256_cont cr m2 c1 = Ok (Some m3, c2) -> scram_client_final true m3 s1 = Ok (Some m4, s2) -> login_scram_sha_256_final cr m4 c2 = Ok (ok, c3) ->
  exchange rn cr d u = Ok (Some {| ac_state := s2; ac_user := u'; ac_client_ok := ok |}).
Proof.
  intros E1 E2 E3 E4 E5. unfold exchange. rewrite E1. cbn [mbind res_bind sent]. rewrite E2. cbn [mbind res_bind sent]. rewrite E3. cbn [mbind res_bind sent].
  rewrite E4. cbn [mbind res_bind sent]. by rewrite E5.
Qed.

Lemma exchange_ok rn cr d u p salt it ah ck sv :
  good_nonce rn -> good_nonce (dr_nonce d) -> usable_password cr = true -> mock_auth u = false -> verifier_for d u p salt it ah -> short p -> usual salt it ->
  client_keys cr salt it ck sv -> stored_key (hi p salt it) = sha256 ck -> server_key (hi p salt it) = sv ->
  exists a, exchange rn cr d u = Ok (Some a) /\ ac_client_ok a = true /\ ClientKey (ac_state a) = ck /\ ServerKey (ac_state a) = sv /\ adhoc (ac_state a) = ah /\
    cr_passwd (ac_user a) = cr_passwd u /\ (dynamic_passwd u = false -> forall d', verifier_for d' (ac_user a) p salt it ah).
Proof.
  intros Hr Hd Hu Hm Hv Hp Hus Hk Est Esv. pose proof (agreed_nonces rn (dr_nonce d) salt it Hr Hd Hus) as Hag. destruct (client_keys32 _ _ _ _ _ Hk) as [Hck Hsv].
  destruct (server_answers rn d u p salt it ah (proj1 Hr) (proj2 Hr) (proj1 Hd) (proj2 Hd) Hm Hv Hp Hus) as (u' & E2 & Hu'). rewrite Est, Esv in E2.
  destruct (client_finishes cr _ _ salt it ck sv Hag Hk) as (sp & E3 & Hsk). destruct (server_concludes _ _ salt it ck sv ah Hag Hck Hsv) as (s & E4 & Hs).
  set (c := set_SaltedPassword sp _) in Hsk. assert (E5 := client_accepts cr sv _ _ _ c (ag_bare _ _ _ _ Hag) (ag_first _ _ _ _ Hag) (ag_wp _ _ _ _ Hag) Hsv eq_refl eq_refl eq_refl Hsk). unfold c in E5.
  exists {| ac_state := s; ac_user := u'; ac_client_ok := true |}. split; [|cbn [ac_state ac_user ac_client_ok]; tauto].
  exact (exchange_steps _ _ _ _ _ _ _ _ _ _ _ _ _ _ _ (login_start rn cr (proj1 Hr) (proj2 Hr) Hu) E2 E3 E4 E5).
Qed.
End verifiers.

(** C13: A login completes on both sides: PgBouncer logging in to a server with a
    password, and PgBouncer as the server of a user whose verifier was made
    from that password (a plain text password, a stored SCRAM secret, or what
    is cached of either), exchange four messages, after which the server has
    accepted the client, the client has verified the server, and the server
    has recovered the client's key.  What is left in the user's cache verifies
    the same password again. *)
Theorem scram_login_completes {SP : Saslprep} rn cr d u p salt it ah :
  good_nonce rn -> good_nonce (dr_nonce d) -> get_password_type (cr_passwd cr) = PASSWORD_TYPE_PLAINTEXT -> scram_passthrough_valid cr = false ->
  prepared (cr_passwd cr) = Some p -> short p -> mock_auth u = false -> verifier_for d u p salt it ah -> usual salt it ->
  exists a, exchange rn cr d u = Ok (Some a) /\ ac_client_ok a = true /\ ClientKey (ac_state a) = client_key (hi p salt it) /\ adhoc (ac_state a) = ah /\
    (dynamic_passwd u = false -> forall d', verifier_for d' (ac_user a) p salt it ah).
Proof.
  intros Hr Hd Ht Hpass Hprep Hp Hm Hv Hus.
  destruct (exchange_ok rn cr d u p salt it ah (client_key (hi p salt it)) (server_key (hi p salt it))) as (a & E & Hok & Hck & _ & Ha & _ & Hc); try done.
  - unfold usable_password. by rewrite Ht.
  - by apply keys_of_password.
  - by exists a.
Qed.

(** C15: Keys are passed through: when a client has logged in with SCRAM against
    a stored secret, with the credentials of its pool and on a real database,
    the keys PgBouncer keeps of that exchange log it in to a server that holds
    the same secret, without knowing the password. *)
Theorem scram_passthrough_completes {SP : Saslprep} rn cr d u p salt it rn' d' backend :
  good_nonce rn -> good_nonce (dr_nonce d) -> get_password_type (cr_passwd cr) = PASSWORD_TYPE_PLAINTEXT -> scram_passthrough_valid cr = false ->
  prepared (cr_passwd cr) = Some p -> short p -> mock_auth u = false -> cr_passwd u = secret_of p salt it -> verifier_for d u p salt it false -> usual salt it ->
  good_nonce rn' -> good_nonce (dr_nonce d') -> mock_auth backend = false -> verifier_for d' backend p salt it false ->
  exists a b, exchange rn cr d u = Ok (Some a) /\ adhoc (ac_state a) = false /\
    exchange rn' (save_keys false true (ac_user a) (ac_state a)) d' backend = Ok (Some b) /\ ac_client_ok b = true.
Proof.
  intros Hr Hd Ht Hpass Hprep Hp Hm Hpw Hv Hus Hr' Hd' Hm' Hv'.
  destruct (exchange_ok rn cr d u p salt it false (client_key (hi p salt it)) (server_key (hi p salt it))) as (a & E & Hok & Hck & Hsk & Ha & Hcp & _); try done.
  { unfold usable_password. by rewrite Ht. }
  { by apply keys_of_password. }
  assert (Ek : save_keys false true (ac_user a) (ac_state a) = kept_keys (ac_user a) (ac_state a)) by (unfold save_keys; by rewrite Ha).
  set (cr' := kept_keys (ac_user a) (ac_state a)).
  destruct (exchange_ok rn' cr' d' backend p salt it false (cr_ClientKey cr') (cr_ServerKey cr')) as (b & E' & Hok' & _); try done.
  - unfold usable_password. change (cr_passwd cr') with (cr_passwd (ac_user a)). destruct Hus as (Hb & Hne & _ & Hit).
    rewrite Hcp, Hpw, password_type_of_secret by (done || (unfold SCRAM_MAX_ITERATIONS, INT_MAX in *; lia)). done.
  - apply keys_kept; [done|change (key32 (ClientKey (ac_state a))); rewrite Hck; auto with pgb|change (key32 (ServerKey (ac_state a))); rewrite Hsk; auto with pgb].
  - change (cr_ClientKey cr') with (ClientKey (ac_state a)). rewrite Hck. apply stored_key_eq.
  - exists a, b. split; [done|]. split; [done|]. by rewrite Ek.
Qed.

(** ** Examples *)

Module Example.

Definition plain_user (name passwd : string) : Credentials :=
  mkCredentials (str name) (str passwd) false false false false 0 None zero_key zero_key zero_key false.
Definition secret_user (p salt : list Z) (it : Z) : Credentials :=
  mkCredentials (str "joe") (secret_of p salt it) false false false false 0 None zero_key zero_key zero_key false.

Definition draws : Draws := {| dr_iterations := 2; dr_salt := str "0123456789abcdef"; dr_mock_nonce := replicate 32 7; dr_nonce := str "server-nonce-18-by" |}.
Definition joe : Credentials := plain_user "joe" "s3cret".
Definition salt : list Z := str "0123456789abcdef".
Definition nonce : list Z := str "client-nonce-18-by".

Lemma usual_salt : usual salt 2.
Proof. split_and!; [apply str_bytes|done|done|done|unfold SCRAM_MAX_ITERATIONS; lia]. Qed.

Lemma short_pw : short (str "s3cret").
Proof. split; [apply str_bytes|done]. Qed.

Lemma joe_verifier : verifier_for draws joe (str "s3cret") salt 2 true.
Proof. apply plain_verifier; by vm_compute. Qed.

Lemma good_client_nonce : good_nonce nonce.
Proof. split; [apply str_bytes|done]. Qed.

Lemma good_server_nonce : good_nonce (dr_nonce draws).
Proof. split; [apply str_bytes|done]. Qed.

Lemma plain_type : get_password_type (cr_passwd joe) = PASSWORD_TYPE_PLAINTEXT.
Proof. by vm_compute. Qed.

Lemma prepared_pw : prepared (cr_passwd joe) = Some (str "s3cret").
Proof. by vm_compute. Qed.

Lemma secret_of_joe : verifier_for draws (secret_user (str "s3cret") salt 2) (str "s3cret") salt 2 false.
Proof. apply secret_verifier; reflexivity. Qed.

Lemma scram_login_completes_witness : exists a, exchange nonce joe draws joe = Ok (Some a) /\ ac_client_ok a = true.
Proof.
  destruct (scram_login_completes nonce joe draws joe (str "s3cret") salt 2 true good_client_nonce good_server_nonce plain_type eq_refl prepared_pw short_pw eq_refl joe_verifier usual_salt)
    as (a & H1 & H2 & _).
  exists a. exact (conj H1 H2).
Defined.

Lemma scram_passthrough_completes_witness : exists a b,
  exchange nonce joe draws (secret_user (str "s3cret") salt 2) = Ok (Some a) /\
  exchange nonce (save_keys false true (ac_user a) (ac_state a)) draws (secret_user (str "s3cret") salt 2) = Ok (Some b) /\ ac_client_ok b = true.
Proof.
  destruct (scram_passthrough_completes nonce joe draws (secret_user (str "s3cret") salt 2) (str "s3cret") salt 2 nonce draws (secret_user (str "s3cret") salt 2)
    good_client_nonce good_server_nonce plain_type eq_refl prepared_pw short_pw eq_refl eq_refl secret_of_joe usual_salt good_client_nonce good_server_nonce eq_refl secret_of_joe)
    as (a & b & H1 & _ & H2 & H3).
  exists a, b. exact (conj H1 (conj H2 H3)).
Defined.
End Example.
