(* ===== verification/ScramSafety.v ===== *)
(** * What the SCRAM server accepts, and where the client fails

    Any message a client sends is read to a verdict.  A login is accepted only
    with the nonces of this exchange and a proof made of a preimage of the
    stored key; for a user without a secret that is a preimage of 32 zero
    bytes.  A server that answers with a nonce of 456 to 499 bytes makes the
    final client message leave its buffer. *)

From S2P Require Import Prelude Inet Base64 Sha2 Hmac ScramCommon Tokens Scram ScramText ScramExchange.
From stdpp Require Import base option list strings.
#[local] Open Scope Z_scope.

#[local] Opaque sha256 hmac hi client_key server_key stored_key text.

(** ** Reading messages *)

(** A value ends at a comma or with the text. *)
Lemma split_value_inv l v rest : split_value l = (v, rest) -> l = v ++ 44 :: rest \/ (l = v /\ rest = []).
Proof.
  revert v rest. induction l as [|c l IH]; intros v rest H; cbn in H; [injection H as <- <-; by right|].
  case_bool_decide as Ec; [injection H as <- <-; left; by rewrite Ec|]. destruct (split_value l) as [v' r] eqn:E. injection H as <- <-.
  destruct (IH v' r eq_refl) as [->|[-> ->]]; [by left|by right].
Qed.

Lemma read_attr_inv input a v rest : read_attr_value input a = Some (v, rest) -> exists l, input = a :: 61 :: l /\ split_value l = (v, rest).
Proof.
  destruct input as [|x [|e l]]; try done. cbn. case_bool_decide as Ha; [done|]. case_bool_decide as He; [done|]. intros [= H]. exists l. split; [|done].
  assert (x = a) as -> by lia. by assert (e = 61) as -> by lia.
Qed.

Lemma read_any_inv input a v rest : read_any_attr input = Some (a, v, rest) -> exists l, input = a :: 61 :: l /\ split_value l = (v, rest).
Proof.
  destruct input as [|x [|e l]]; try done. cbn. destruct (is_attr x); [|done]. cbn [negb]. case_bool_decide as He; [done|]. destruct (split_value l) as [v' r] eqn:E.
  intros [= <- <- <-]. exists l. split; [|done]. by assert (e = 61) as -> by lia.
Qed.

Lemma split_value_shorter l v rest : split_value l = (v, rest) -> (length rest <= length l)%nat.
Proof. intros H. destruct (split_value_inv l v rest H) as [->|[_ ->]]; [rewrite length_app; cbn; lia|cbn; lia]. Qed.

Lemma skip_attrs_total fuel input : (length input <= fuel)%nat -> exists b, skip_attrs fuel input = Ok b.
Proof.
  revert input. induction fuel as [|fuel IH]; intros [|c input] Hl; cbn [skip_attrs]; try (by exists true); [cbn in Hl; lia|].
  destruct (read_any_attr (c :: input)) as [[[a v] rest]|] eqn:E; [|by exists false]. apply read_any_inv in E as (l & E & Hs).
  apply IH. apply split_value_shorter in Hs. rewrite E in Hl. cbn in Hl. lia.
Qed.

Lemma find_proof_total fuel total input : (length input < fuel)%nat -> exists r, find_proof fuel total input = Ok r.
Proof.
  revert input. induction fuel as [|fuel IH]; intros input Hl; cbn [find_proof]; [lia|].
  destruct (read_any_attr input) as [[[a v] rest]|] eqn:E; [|by eexists]. case_bool_decide; [by eexists|]. apply read_any_inv in E as (l & -> & Hs).
  apply IH. apply split_value_shorter in Hs. cbn in Hl. lia.
Qed.

(** The text before the proof, with its comma; [tail] is what ends the message. *)
Lemma find_proof_inv fuel total input ps v rest : find_proof fuel total input = Ok (Some (ps, v, rest)) ->
  exists pre tail, input = pre ++ 112 :: 61 :: v ++ tail /\ (tail = 44 :: rest \/ tail = [] /\ rest = []) /\ (pre = [] \/ exists pre', pre = pre' ++ [44]) /\
    ps = total - zlen (112 :: 61 :: v ++ tail) - 1.
Proof.
  revert input. induction fuel as [|fuel IH]; intros input H; cbn [find_proof] in H; [done|].
  destruct (read_any_attr input) as [[[a w] r]|] eqn:E; [|done]. apply read_any_inv in E as (l & -> & Hs). case_bool_decide as Ha.
  - injection H as <- <- <-. subst a. destruct (split_value_inv _ _ _ Hs) as [->|[-> ->]].
    + exists [], (44 :: r). by split_and!; [|left|left|].
    + exists [], []. rewrite app_nil_r. by split_and!; [|right|left|].
  - destruct (IH r H) as (pre & tail & -> & Ht & Hpre & ->). destruct (split_value_inv _ _ _ Hs) as [->|[_ E]]; [|by destruct pre].
    exists (a :: 61 :: w ++ 44 :: pre), tail. cbn [app]. rewrite <- app_assoc. split_and!; [done|done| |done]. right. destruct Hpre as [->|[pre' ->]].
    + exists (a :: 61 :: w). done.
    + exists (a :: 61 :: w ++ 44 :: pre'). cbn [app]. by rewrite <- app_assoc.
Qed.

Lemma until_nul_prefix l : exists t, l = until_nul l ++ t.
Proof. induction l as [|c l [t IH]]; cbn; [by exists []|]. case_bool_decide; [by exists (c :: l)|]. exists t. cbn. by rewrite <- IH. Qed.

(** What a final message that is read was. *)
Definition final_shape (data wp nonce e : list Z) : Prop :=
  (exists tail, until_nul data = wp ++ str ",p=" ++ e ++ tail /\ (tail = [] \/ tail = [44])) /\
  exists cb ext, wp = str "c=" ++ cb ++ str ",r=" ++ nonce ++ ext /\ (ext = [] \/ exists x, ext = 44 :: x).

Lemma client_final_inv data s nonce proof s' :
  read_client_final_message data (until_nul data) s = Ok (Some (nonce, proof), s') ->
  exists wp e, final_shape data wp nonce e /\ decode_key e = Some proof /\ s' = set_without_proof (Some wp) s.
Proof.
  unfold read_client_final_message. autorewrite with sm. intros H.
  destruct (read_attr_value (until_nul data) 99) as [[cb i1]|] eqn:E1; [|done]. destruct (cbind_ok cb (cbind_flag s)); [|done]. cbn [negb] in H.
  destruct (read_attr_value i1 114) as [[n i2]|] eqn:E2; [|done]. destruct (find_proof_total (S (length i2)) (zlen (until_nul data)) i2) as [r Er]; [lia|]. rewrite Er in H.
  autorewrite with sm in H. destruct r as [[[ps e] i3]|]; [|done]. destruct (decode_key e) as [k|] eqn:Ek; [|done]. case_bool_decide as E3; [done|].
  destruct (mem_load data 0 ps) as [wp| | |] eqn:Ew; try done. autorewrite with sm in H. injection H as -> -> <-.
  exists wp, e. split; [|done]. apply read_attr_inv in E1 as (l1 & E1 & S1). apply read_attr_inv in E2 as (l2 & -> & S2).
  destruct (find_proof_inv _ _ _ _ _ _ Er) as (pre & tail & -> & Ht & Hpre & ->).
  destruct (split_value_inv _ _ _ S1) as [->|[_ ?]]; [|done]. destruct (split_value_inv _ _ _ S2) as [->|[_ Hx]]; [|by destruct pre].
  subst i3.
  assert (exists ext, 44 :: pre = ext ++ [44] /\ (ext = [] \/ exists x, ext = 44 :: x)) as (ext & Ee & Hext).
  { destruct Hpre as [->|[pre' ->]]; [exists []; by split; [|left]|]. exists (44 :: pre'). split; [done|]. right. by eexists. }
  set (w := str "c=" ++ cb ++ str ",r=" ++ nonce ++ ext).
  assert (EU : until_nul data = w ++ 44 :: 112 :: 61 :: e ++ tail).
  { rewrite E1. unfold w. change (str "c=") with [99; 61]. change (str ",r=") with [44; 114; 61]. rewrite <- !app_assoc. cbn [app]. do 6 f_equal.
    f_equal. rewrite app_comm_cons, Ee. by rewrite <- app_assoc. }
  assert (Hw : w = str "c=" ++ cb ++ str ",r=" ++ nonce ++ ext) by done. clearbody w. assert (wp = w) as ->.
  { destruct (until_nul_prefix data) as [t Et]. rewrite Et in Ew at 1. rewrite EU in Ew. unfold mem_load in Ew. case_bool_decide; [|done]. injection Ew as <-.
    rewrite Z.add_0_l, slice_0. replace (zlen (w ++ 44 :: 112 :: 61 :: e ++ tail) - zlen (112 :: 61 :: e ++ tail) - 1) with (zlen w) by zlia.
    rewrite <- app_assoc. by rewrite ztake_app_le, ztake_all by lia. }
  split; [exists tail; split; [exact EU|by destruct Ht as [->|[-> _]]; [right|left]]|]. by exists cb, ext.
Qed.

(** Reading a final message ends. *)
Lemma read_client_final_total data s : exists r s', read_client_final_message data (until_nul data) s = Ok (r, s').
Proof.
  unfold read_client_final_message. autorewrite with sm. destruct (read_attr_value (until_nul data) 99) as [[cb i1]|] eqn:E1; [|by eexists _, _].
  destruct (cbind_ok cb (cbind_flag s)); [|by eexists _, _]. cbn [negb]. destruct (read_attr_value i1 114) as [[n i2]|] eqn:E2; [|by eexists _, _].
  destruct (find_proof_total (S (length i2)) (zlen (until_nul data)) i2) as [r Er]; [lia|]. rewrite Er. autorewrite with sm. destruct r as [[[ps e] i3]|]; [|by eexists _, _].
  destruct (decode_key e) as [k|]; [|by eexists _, _]. case_bool_decide; [by eexists _, _|]. rewrite mem_load_ok; [autorewrite with sm; by eexists _, _|lia|..].
  all: apply read_attr_inv in E1 as (l1 & E1 & S1%split_value_shorter); apply read_attr_inv in E2 as (l2 & -> & S2%split_value_shorter).
  all: destruct (find_proof_inv _ _ _ _ _ _ Er) as (pre & tail & -> & _ & _ & ->); assert (HU := f_equal zlen E1); destruct (until_nul_prefix data) as [t Et]; assert (HD := f_equal zlen Et).
  all: rewrite zlen_app in HD; rewrite !zlen_cons in HU; cbn [length] in S1; rewrite length_app in S2; unfold zlen in *; cbn [length] in *; lia.
Qed.

(** ** Acceptance *)

Lemma decode_key_key32 e k : decode_key e = Some k -> key32 k.
Proof.
  intros H. split; [|by apply (decode_key_32 e)]. unfold decode_key in H. destruct (pg_b64_decode _ _) as [k'|] eqn:E; [|done]. cbn [mbind option_bind] in H.
  case_bool_decide; [done|]. injection H as <-. by eapply pg_b64_decode_u8.
Qed.

Lemma final_shape_short data wp nonce e : final_shape data wp nonce e -> short data -> short wp.
Proof.
  intros [(tail & E & _) _] [Hb Hl]. destruct (until_nul_prefix data) as [t Et]. rewrite Et, E in Hb, Hl. rewrite !Forall_app in Hb. split; [tauto|].
  rewrite !zlen_app in Hl. pose proof (zlen_nonneg t). pose proof (zlen_nonneg e). pose proof (zlen_nonneg tail). pose proof (zlen_nonneg (str ",p=")). lia.
Qed.

(** A server that has sent its challenge. *)
Record waiting (s : ScramState) (cn sn bare first : list Z) : Prop := {
  wt_cn : client_nonce s = Some cn;
  wt_sn : server_nonce s = Some sn;
  wt_bare : client_first_message_bare s = Some bare /\ short bare;
  wt_first : server_first_message s = Some first /\ short first;
  wt_keys : key32 (StoredKey s) /\ key32 (ServerKey s)
}.

Lemma accepts_proof known s cn sn bare first data :
  waiting s cn sn bare first -> short data ->
  exists r s', scram_client_final known data s = Ok (r, s') /\
    forall m, r = Some m -> exists wp e ck, final_shape data wp (cn ++ sn) e /\ sha256 ck = StoredKey s /\ ClientKey s' = ck /\
      decode_key e = Some (xor_bytes ck (hmac (StoredKey s) (auth bare first wp))) /\ m = str "v=" ++ text (hmac (ServerKey s) (auth bare first wp)).
Proof.
  intros [Ec Es [Eb Hb] [Ef Hf] [Hst Hsv]] Hd. unfold scram_client_final.
  destruct (read_client_final_total data s) as (r & s1 & E). erewrite SM_bind_eq by exact E. destruct r as [[nonce proof]|]; [|eexists None, _; by split].
  apply client_final_inv in E as (wp & e & Hsh & Hk & ->). pose proof (final_shape_short _ _ _ _ Hsh Hd) as Hw. pose proof (decode_key_key32 _ _ Hk) as Hp.
  cbn beta iota. autorewrite with sm. set (s1 := set_without_proof (Some wp) s). unfold verify_final_nonce. change (client_nonce s1) with (client_nonce s).
  change (server_nonce s1) with (server_nonce s). rewrite Ec, Es. autorewrite with sm.
  destruct (_ && _ && _) eqn:En; [|eexists None, _; by split]. cbn [negb]. apply andb_true_iff in En as [[_ En1%bool_decide_eq_true]%andb_true_iff En2%bool_decide_eq_true].
  assert (nonce = cn ++ sn) as -> by (rewrite <- (ztake_zdrop (zlen cn) nonce); congruence).
  erewrite SM_bind_eq by (apply (verify_proof_ok proof wp bare first); first [assumption|reflexivity]). change (StoredKey s1) with (StoredKey s).
  set (ck := xor_bytes proof (hmac (StoredKey s) (auth bare first wp))). case_bool_decide as Hck; cbn [negb orb]; [|eexists None, _; by split].
  destruct known; cbn [negb]; [|eexists None, _; by split].
  rewrite (server_final_ok wp bare first) by first [assumption|reflexivity]. eexists _, _. split; [reflexivity|]. intros m [= <-]. exists wp, e, ck. split_and!; try done.
  rewrite Hk. unfold ck. rewrite xor_bytes_involutive; [done|]. rewrite (proj2 Hp), hmac_len. done.
Qed.

(** C14: Whatever the client's final message is, the server reaches a verdict
    without touching memory it should not; it accepts only a message that
    repeats both nonces of this exchange and whose proof is the exclusive or of
    a preimage of the stored key with the signature of the messages as they
    were sent; it answers with its own signature of them. *)
Theorem only_proofs_accepted known s cn sn bare first data :
  waiting s cn sn bare first -> short data ->
  exists r s', scram_client_final known data s = Ok (r, s') /\
    forall m, r = Some m -> exists wp e ck, final_shape data wp (cn ++ sn) e /\ sha256 ck = StoredKey s /\ ClientKey s' = ck /\
      decode_key e = Some (xor_bytes ck (hmac (StoredKey s) (auth bare first wp))) /\ m = str "v=" ++ text (hmac (ServerKey s) (auth bare first wp)).
Proof. apply accepts_proof. Qed.

(** ** The first message *)

(** Texts of a size packets and configuration lines have. *)
Definition small (l : list Z) : Prop := Forall is_u8 l /\ zlen l < 2 ^ 20.

Lemma small_short l : small l -> short l.
Proof. intros [H ?]. split; [done|]. lia. Qed.

Lemma small_sub l k t : small l -> l = k ++ t -> small k /\ small t.
Proof.
  intros [Hb Hl] ->. apply Forall_app in Hb as [? ?]. rewrite zlen_app in Hl. pose proof (zlen_nonneg k). pose proof (zlen_nonneg t). by split; split; [|lia| |lia].
Qed.

Lemma small_cons c l : small (c :: l) -> small l.
Proof. intros H. by apply (small_sub _ [c] l) in H as [_ H]. Qed.

Lemma small_nil : small [].
Proof. by split; [apply Forall_nil|]. Qed.

Lemma split_value_small l v rest : small l -> split_value l = (v, rest) -> small v /\ small rest.
Proof.
  intros H Hs. destruct (split_value_inv _ _ _ Hs) as [->|[-> ->]]; [|by split; [|apply small_nil]].
  destruct (small_sub _ v (44 :: rest) H eq_refl) as [? ?%small_cons]. done.
Qed.

Lemma read_attr_small input a v rest : small input -> read_attr_value input a = Some (v, rest) -> small v /\ small rest.
Proof. intros H (l & -> & Hs)%read_attr_inv. by apply (split_value_small l); [apply (small_cons 61), (small_cons a)|]. Qed.

Lemma until_nul_small l : small l -> small (until_nul l).
Proof. intros H. destruct (until_nul_prefix l) as [t Et]. by apply (small_sub _ _ t H) in Et as [? _]. Qed.

Lemma gs2_header_small input i : small input -> gs2_header input = Some i -> small i.
Proof. destruct input as [|f [|c1 [|c2 l]]]; try done. cbn. intros H. destruct (_ && _); [|done]. intros [= <-]. by do 3 eapply small_cons. Qed.

Lemma read_client_first_total input s : small input ->
  exists ok s', read_client_first_message input s = Ok (ok, s') /\ (ok = false \/ exists bare cn, small bare /\ small cn /\ s' = set_client_nonce (Some cn) (set_bare (Some bare) (set_cbind_flag (hd 0 input) s))).
Proof.
  intros Hi. unfold read_client_first_message. autorewrite with sm. destruct (gs2_header input) as [i|] eqn:E; [|eexists false, _; by split; [|left]].
  pose proof (gs2_header_small _ _ Hi E) as H1. case_bool_decide; [eexists false, _; by split; [|left]|]. cbn zeta.
  set (j := match read_attr_value i 110 with Some (_, input) => input | None => i end).
  assert (Hj : small j) by (unfold j; destruct (read_attr_value i 110) as [[v r]|] eqn:E2; [by apply read_attr_small in E2 as [_ ?]|done]).
  destruct (read_attr_value j 114) as [[cn r]|] eqn:E3; [|eexists false, _; by split; [|left]]. apply read_attr_small in E3 as [Hcn Hr]; [|done].
  destruct (is_scram_printable cn); cbn [negb]; [|eexists false, _; by split; [|left]].
  destruct (skip_attrs_total (length r) r) as [b ->]; [done|]. autorewrite with sm. destruct b; autorewrite with sm; eexists _, _; (split; [reflexivity|]); [right; by exists i, cn|by left].
Qed.

(** ** Verifiers of any user *)

Lemma take_token_sub d s t r : take_token d s = (t, r) -> small s -> small t /\ small r.
Proof.
  intros H Hs. assert (exists sep, s = t ++ sep ++ r) as [sep ->].
  { revert t r H. clear Hs. induction s as [|c s IH]; intros t r H; cbn in H; [injection H as <- <-; by exists []|].
    case_bool_decide; [injection H as <- <-; by exists [c]|]. destruct (take_token d s) as [t' r'] eqn:E. injection H as <- <-. destruct (IH _ _ eq_refl) as [sep ->]. by exists sep. }
  destruct (small_sub _ _ _ Hs eq_refl) as [? Hr]. by destruct (small_sub _ _ _ Hr eq_refl) as [_ ?].
Qed.

Lemma strtok_small d s t r : strtok d s = Some (t, r) -> small s -> small t /\ small r.
Proof.
  unfold strtok. intros H Hs. assert (exists x, s = x ++ skip_delims d s) as [x Ex].
  { clear H Hs. induction s as [|c s [x IH]]; cbn; [by exists []|]. case_bool_decide; [exists (c :: x); cbn; by rewrite <- IH|by exists []]. }
  destruct (small_sub _ _ _ Hs Ex) as [_ Hk]. destruct (skip_delims d s) as [|c k]; [done|]. injection H as H. by apply (take_token_sub d (c :: k)).
Qed.

Lemma parse_secret_parts secret e : small secret -> parse_scram_secret secret = Some e -> small (se_salt e) /\ key32 (se_stored_key e) /\ key32 (se_server_key e).
Proof.
  intros Hs. unfold parse_scram_secret. destruct (strtok _ secret) as [[t1 r1]|] eqn:E1; [|done]. cbn [mbind option_bind]. apply strtok_small in E1 as [_ H1]; [|done].
  destruct (strtok _ r1) as [[t2 r2]|] eqn:E2; [|done]. cbn [mbind option_bind]. apply strtok_small in E2 as [_ H2]; [|done].
  destruct (strtok _ r2) as [[t3 r3]|] eqn:E3; [|done]. cbn [mbind option_bind]. apply strtok_small in E3 as [Ht3 H3]; [|done].
  destruct (strtok _ r3) as [[t4 r4]|]; [|done]. cbn [mbind option_bind]. destruct (strtok _ r4) as [[t5 r5]|]; [|done]. cbn [mbind option_bind].
  case_bool_decide; [done|]. destruct (strtol t2) as [[n p] errno]. destruct (_ || errno); [done|]. destruct (pg_b64_decode t3 _); [|done]. cbn [mbind option_bind].
  destruct (decode_key t4) as [k1|] eqn:K1; [|done]. cbn [mbind option_bind]. destruct (decode_key t5) as [k2|] eqn:K2; [|done]. intros [= <-]. cbn.
  split_and!; [done|by eapply decode_key_key32..].
Qed.

Definition good_user (u : Credentials) : Prop :=
  small (cr_name u) /\ small (cr_passwd u) /\
  (scram_verifier_cached u = true -> key32 (scram_StoredKey u) /\ key32 (cr_ServerKey u) /\ exists es, scram_SaltKey u = Some es /\ small es).

Definition good_draws (d : Draws) : Prop :=
  good_nonce (dr_nonce d) /\ Forall is_u8 (dr_salt d) /\ zlen (dr_salt d) = SCRAM_DEFAULT_SALT_LEN /\ Forall is_u8 (dr_mock_nonce d) /\ zlen (dr_mock_nonce d) = 32.

(** The state once the verifier is in: what the challenge is made of. *)
Definition verifier_in (s s' : ScramState) : Prop :=
  (exists es, encoded_salt s' = Some es /\ small es) /\ key32 (StoredKey s') /\ key32 (ServerKey s') /\
  client_nonce s' = client_nonce s /\ client_first_message_bare s' = client_first_message_bare s.

Lemma text16_small salt : Forall is_u8 salt -> zlen salt = 16 -> small (text salt).
Proof. intros Hb Hl. split; [apply text_bytes|]. rewrite text_len, Hl. done. Qed.

Lemma load_verifier_total {SP : Saslprep} d u s : good_user u -> good_draws d ->
  exists r s', load_verifier d u (cr_passwd u) s = Ok (r, s') /\ (forall u', r = Some u' -> verifier_in s s' /\ good_user u').
Proof.
  intros (Hn & Hpw & Hc) (_ & Hsb & Hsl & _). unfold load_verifier. destruct (scram_verifier_cached u) eqn:Ec.
  { destruct (Hc eq_refl) as (Hk1 & Hk2 & es & Ees & Hes). autorewrite with sm. rewrite Ees. cbn [deref]. autorewrite with sm. eexists _, _. split; [reflexivity|]. intros u' [= <-].
    split; [split_and!; try done; by exists es|]. split_and!; [done|done|]. intros _. split_and!; try done. by exists es. }
  assert (Hcache : forall s', verifier_in s s' -> good_user (if dynamic_passwd u then u else cache_verifier u s')).
  { intros s' ((es & Ees & Hes) & Hk1 & Hk2 & _). destruct (dynamic_passwd u); [split_and!; [done|done|by rewrite Ec]|]. split_and!; [done|done|]. intros _. split_and!; [done|done|]. by exists es. }
  destruct (get_password_type (cr_passwd u)).
  - destruct (prepared (cr_passwd u)) as [p|] eqn:Ep.
    + assert (Hp : short p).
      { unfold prepared in Ep. destruct (pg_saslprep (cr_passwd u)) eqn:Esp; try done; injection Ep as <-; try (by apply small_short). by eapply pg_saslprep_text; [apply small_short|]. }
      erewrite SM_bind_eq by (by apply build_adhoc_ok). cbn [negb]. autorewrite with sm. eexists _, _. split; [reflexivity|]. intros u' [= <-].
      match goal with |- verifier_in s ?x /\ _ => assert (verifier_in s x) end; [|by split; [|apply Hcache]].
      split_and!; [exists (text (dr_salt d)); split; [reflexivity|by apply text16_small]|apply stored_key32|apply server_key32|reflexivity|reflexivity].
    + unfold build_adhoc_scram_secret. rewrite Ep. autorewrite with sm. by eexists None, _.
  - autorewrite with sm. by eexists None, _.
  - destruct (parse_scram_secret (cr_passwd u)) as [e|] eqn:Ee; [|autorewrite with sm; by eexists None, _]. destruct (parse_secret_parts _ _ Hpw Ee) as (Hs & Hk1 & Hk2).
    autorewrite with sm. cbn [negb]. autorewrite with sm. eexists _, _. split; [reflexivity|]. intros u' [= <-].
    match goal with |- verifier_in s ?x /\ _ => assert (verifier_in s x) end; [|by split; [|apply Hcache]].
    split_and!; [exists (se_salt e); split; [reflexivity|done]|done|done|reflexivity|reflexivity].
Qed.

Lemma mock_salt_ok nonce name : Forall is_u8 nonce -> zlen nonce = 32 -> small name -> scram_mock_salt nonce name = Ok (Some (ztake 16 (sha256 (name ++ nonce)))).
Proof.
  intros Hb Hl [Hn Hnl]. unfold scram_mock_salt. destruct (pg_sha256_update_ok pg_sha256_init [] name absorbed_init Hn) as (c1 & -> & H1). cbn [mbind res_bind app] in *.
  destruct (pg_sha256_update_ok c1 name nonce H1 Hb) as (c2 & -> & H2). cbn [mbind res_bind]. rewrite (cryptohash_final_ok _ _ _ H2); [done|zlia|done].
Qed.

Lemma build_mock_ok it nonce name s : Forall is_u8 nonce -> zlen nonce = 32 -> small name ->
  build_mock_scram_secret it nonce name s = Ok (true, set_encoded_salt (Some (text (ztake 16 (sha256 (name ++ nonce))))) (set_iterations it s)).
Proof.
  intros Hb Hl Hn. unfold build_mock_scram_secret. autorewrite with sm. rewrite mock_salt_ok by done. autorewrite with sm. unfold put_salt.
  rewrite encode_bytes; [by autorewrite with sm|apply Forall_ztake, sha256_bytes|rewrite zlen_ztake, sha256_len; done].
Qed.

Lemma put_server_first_total rn s cn es : good_nonce rn -> client_nonce s = Some cn -> small cn -> encoded_salt s = Some es -> small es ->
  exists first, put_server_first rn s = Ok (Some first, set_server_first (Some first) (set_server_nonce (Some (text rn)) s)) /\ short first.
Proof.
  intros [Hb Hl] Ec Hc Ee He. unfold put_server_first. rewrite encode_bytes by done. autorewrite with sm.
  change (client_nonce (set_server_nonce ?n s)) with (client_nonce s). change (encoded_salt (set_server_nonce ?n s)) with (encoded_salt s).
  change (sc_iterations (set_server_nonce ?n s)) with (sc_iterations s). rewrite Ec, Ee. cbn [deref]. autorewrite with sm. eexists. split; [reflexivity|].
  destruct Hc as [Hcb Hcl], He as [Heb Hel]. split.
  - apply Forall_ztake. rewrite !Forall_app. split_and!; auto with pgb; [apply text_bytes|]. apply dec_bytes. apply u32_bound.
  - rewrite zlen_ztake, (text18 rn Hb Hl). zlia.
Qed.

(** Any first message is answered or rejected; the state after an answer. *)
Lemma client_first_total {SP : Saslprep} d u data : good_user u -> good_draws d -> small data ->
  exists r u' s, scram_client_first d u data free_scram_state = Ok (r, u', s) /\ good_user u' /\
    (forall m, r = Some m -> (exists cn sn bare first, waiting s cn sn bare first) /\ (mock_auth u = true -> StoredKey s = zero_key)).
Proof.
  intros Hu Hd Hdata. unfold scram_client_first.
  destruct (read_client_first_total (until_nul data) free_scram_state (until_nul_small _ Hdata)) as (ok & s1 & E & Hok). erewrite SM_bind_eq by exact E.
  destruct ok; cbn [negb]; [|by eexists None, u, _]. destruct Hok as [|(bare & cn & Hbare & Hcn & ->)]; [done|].
  destruct (negb (mock_auth u) && _); [by eexists None, u, _|]. unfold build_server_first_message. set (s1 := set_client_nonce _ _) in *.
  assert (Hput : forall s2, (exists es, encoded_salt s2 = Some es /\ small es) -> key32 (StoredKey s2) -> key32 (ServerKey s2) -> client_nonce s2 = client_nonce s1 ->
    client_first_message_bare s2 = client_first_message_bare s1 ->
    exists first s3, put_server_first (dr_nonce d) s2 = Ok (Some first, s3) /\ StoredKey s3 = StoredKey s2 /\ waiting s3 cn (text (dr_nonce d)) bare first).
  { intros s2 (es & Ees & Hes) Hk1 Hk2 Ecn Eb. destruct (put_server_first_total (dr_nonce d) s2 cn es) as (first & E2 & Hf); [apply Hd|by rewrite Ecn|done..|].
    exists first. eexists. split; [exact E2|]. split; [reflexivity|]. split; [exact Ecn|reflexivity| |by split|by split]. split; [exact Eb|by apply small_short]. }
  destruct Hu as (Hn & Hpw & Hc). destruct (mock_auth u) eqn:Em.
  - destruct Hd as (_ & _ & _ & Hmb & Hml). erewrite SM_bind_eq.
    2: { erewrite SM_bind_eq by (by apply build_mock_ok). reflexivity. }
    destruct (Hput (set_encoded_salt (Some (text (ztake 16 (sha256 (cr_name u ++ dr_mock_nonce d))))) (set_iterations (dr_iterations d) s1))) as (first & s3 & E3 & Est & Hwt).
    + eexists. split; [reflexivity|]. apply text16_small; [apply Forall_ztake, sha256_bytes|by rewrite zlen_ztake, sha256_len].
    + split; [by apply Forall_replicate|done].
    + split; [by apply Forall_replicate|done].
    + reflexivity.
    + reflexivity.
    + erewrite SM_bind_eq by exact E3. eexists _, u, s3. split; [reflexivity|]. split; [by split_and!|]. intros m [= <-]. split; [by eexists _, _, _, _|]. intros _. by rewrite Est.
  - destruct (load_verifier_total d u s1) as (r & s2 & E2 & Hr); [by split_and!|done|]. erewrite SM_bind_eq by exact E2. destruct r as [u'|]; [|by eexists None, u, _].
    destruct (Hr u' eq_refl) as ((Hes & Hk1 & Hk2 & Ecn & Eb) & Hu'). destruct (Hput s2 Hes Hk1 Hk2 Ecn Eb) as (first & s3 & E3 & _ & Hwt).
    erewrite SM_bind_eq by exact E3. eexists _, u', s3. split; [reflexivity|]. split; [done|]. intros m [= <-]. split; [by eexists _, _, _, _|done].
Qed.

(** C18: A user there is no secret of goes through the same exchange, with a salt
    made from the name: whatever two messages the client sends, the server
    answers or rejects, and it accepts only a client that has found a preimage
    of 32 zero bytes. *)
Theorem unknown_user_rejected {SP : Saslprep} known d u data1 data2 :
  mock_auth u = true -> good_user u -> good_draws d -> small data1 -> small data2 ->
  exists r u' s, scram_client_first d u data1 free_scram_state = Ok (r, u', s) /\
    (r <> None -> exists v s', scram_client_final known data2 s = Ok (v, s') /\ (v <> None -> sha256 (ClientKey s') = zero_key)).
Proof.
  intros Hm Hu Hd H1 H2. destruct (client_first_total d u data1 Hu Hd H1) as (r & u' & s & E & _ & Hr). exists r, u', s. split; [done|]. intros Hne.
  destruct r as [m|]; [|done]. destruct (Hr m eq_refl) as ((cn & sn & bare & first & Hw) & Hz).
  destruct (accepts_proof known s cn sn bare first data2 Hw (small_short _ H2)) as (v & s' & E2 & Hv). exists v, s'. split; [done|]. intros Hvn. destruct v as [m2|]; [|done].
  destruct (Hv m2 eq_refl) as (wp & e & ck & _ & Hck & <- & _). by rewrite Hck, Hz.
Qed.

(** ** The buffer of the final client message *)

Module Findings.

(** A server's first message with a nonce of its choice. *)
Definition chosen (cn ext : list Z) : list Z := first_of cn ext (str "salt") 1.

(** C40: The final message is written to 512 bytes on the stack, and only its part
    before the proof is checked against that size: when the server extends the
    client's nonce by 432 to 475 characters, the 44 characters of the proof are
    written past the end of the buffer. *)
Theorem long_nonce_overflows {SP : Saslprep} rn cr ext :
  good_nonce rn -> usable_password cr = true -> scram_passthrough_valid cr = true -> key32 (cr_ClientKey cr) -> key32 (cr_ServerKey cr) ->
  Forall is_u8 ext -> (44 ∉ ext) -> (0 ∉ ext) -> 432 <= zlen ext <= 475 ->
  exists m c, login_scram_sha_256 rn cr free_scram_state = Ok (Some m, c) /\ login_scram_sha_256_cont cr (chosen (text rn) ext) c = Undef.
Proof.
  intros [Hrb Hrl] Hu Hp Hk Hk2 Hb H44 H0 Hl. eexists _, _. split; [by apply login_start|]. set (cn := text rn).
  assert (Hus : usual (str "salt") 1) by (split_and!; [apply str_bytes|done|done|done|unfold SCRAM_MAX_ITERATIONS; lia]).
  assert (Hc44 : 44 ∉ cn) by (apply text_free; auto). assert (Hc0 : 0 ∉ cn) by (apply text_free; auto). assert (Lc : zlen cn = 24) by (by apply text18).
  assert (Hcb : Forall is_u8 cn) by apply text_bytes.
  unfold login_scram_sha_256_cont. autorewrite with sm. change (client_nonce (client_started cn)) with (Some cn). change (server_first_message (client_started cn)) with (@None (list Z)). cbn iota.
  rewrite until_nul_all by (unfold chosen, first_of; no_char). erewrite SM_bind_eq by (apply read_server_first; [reflexivity|assumption..]). cbn [negb].
  set (c := set_iterations 1 _). set (wp := without_proof_of (cn ++ ext)). assert (Lw : zlen wp = 33 + zlen ext) by (unfold wp, without_proof_of; rewrite !zlen_app, Lc; change (zlen (str "c=biws,r=")) with 9; lia).
  unfold build_client_final_message. autorewrite with sm. change (server_nonce c) with (Some (cn ++ ext)). cbn [deref]. autorewrite with sm.
  fold (without_proof_of (cn ++ ext)). fold wp. rewrite ztake_all by lia.
  destruct (calculate_ok cr (str "salt") 1 (cr_ClientKey cr) (cr_ServerKey cr) (set_without_proof (Some wp) c) (bare_of cn) (chosen cn ext) wp) as (sp & E & _);
    [by apply keys_kept|exact Hus|reflexivity..| | | |].
  { apply short_app; [auto with pgb|done|change (zlen (str "n=,r=")) with 5; lia]. }
  { unfold chosen, first_of. split; [rewrite !Forall_app; split_and!; auto with pgb; [apply text_bytes|by apply dec_bytes]|].
    rewrite !zlen_app, text_len, Lc. pose proof (dec_short 1 ltac:(lia)). change (pg_b64_enc_len (zlen (str "salt"))) with 8. change (zlen (str "r=")) with 2.
    change (zlen (str ",s=")) with 3. change (zlen (str ",i=")) with 3. lia. }
  { apply short_app; [auto with pgb|by apply Forall_app|change (zlen (str "c=biws,r=")) with 9; zlia]. }
  erewrite SM_bind_eq by exact E. cbn beta iota. rewrite bool_decide_eq_false_2 by lia.
  destruct (proof_of_key32 (cr_ClientKey cr) (bare_of cn) (chosen cn ext) wp Hk) as [Hpb Hpl]. rewrite encode_bytes by done. rewrite text_len, Hpl. change (pg_b64_enc_len 32) with 44.
  by rewrite bool_decide_eq_false_2 by lia.
Qed.

Definition cr : Credentials := mkCredentials (str "joe") (str "s3cret") false false false false 0 None zero_key zero_key zero_key true.

Lemma long_nonce_overflows_witness : exists m c, login_scram_sha_256 (str "client-nonce-18-by") cr free_scram_state = Ok (Some m, c) /\
  login_scram_sha_256_cont cr (chosen (text (str "client-nonce-18-by")) (replicate 450 65)) c = Undef.
Proof.
  apply long_nonce_overflows.
  - split; [apply str_bytes|done].
  - by vm_compute.
  - done.
  - split; [by apply Forall_replicate|done].
  - split; [by apply Forall_replicate|done].
  - by apply Forall_replicate.
  - apply (bool_decide_unpack (44 ∉ replicate 450 65)). by vm_compute.
  - apply (bool_decide_unpack (0 ∉ replicate 450 65)). by vm_compute.
  - by vm_compute.
Defined.
End Findings.

(** ** Examples *)

Module Example.

Definition challenged_state : ScramState :=
  mkScramState (Some (str "client")) (Some (str "n=,r=client")) None (Some (str "server")) (Some (str "r=clientserver,s=c2FsdA==,i=1")) 1 None None 110 false (Some (str "c2FsdA=="))
    zero_key zero_key zero_key.

Lemma zero_key32 : key32 zero_key.
Proof. split; [by apply Forall_replicate|done]. Qed.

Lemma short_str s : zlen (str s) < 2 ^ 20 -> short (str s) /\ small (str s).
Proof. intros H. split; split; auto with pgb. lia. Qed.

Lemma challenged_waiting : waiting challenged_state (str "client") (str "server") (str "n=,r=client") (str "r=clientserver,s=c2FsdA==,i=1").
Proof.
  split; [reflexivity|reflexivity|split; [reflexivity|by apply short_str]|split; [reflexivity|by apply short_str]|split; apply zero_key32].
Qed.

Lemma only_proofs_accepted_witness : exists r s', scram_client_final true (str "c=biws,r=clientserver,p=AAAA") challenged_state = Ok (r, s').
Proof.
  destruct (only_proofs_accepted true challenged_state _ _ _ _ (str "c=biws,r=clientserver,p=AAAA") challenged_waiting (proj1 (short_str "c=biws,r=clientserver,p=AAAA" eq_refl))) as (r & s' & H & _).
  exists r, s'. exact H.
Defined.

Definition nobody : Credentials := mkCredentials (str "nobody") [] true false false false 0 None zero_key zero_key zero_key false.
Definition draws : Draws := {| dr_iterations := 4096; dr_salt := str "0123456789abcdef"; dr_mock_nonce := replicate 32 7; dr_nonce := str "server-nonce-18-by" |}.

Lemma good_nobody : good_user nobody.
Proof. split_and!; [by apply short_str|apply small_nil|done]. Qed.

Lemma draws_good : good_draws draws.
Proof. split_and!; [split; [apply str_bytes|done]|apply str_bytes|done|by apply Forall_replicate|done]. Qed.

Lemma unknown_user_rejected_witness : exists r u' s, scram_client_first draws nobody (str "n,,n=,r=abc") free_scram_state = Ok (r, u', s) /\
  (r <> None -> exists v s', scram_client_final true (str "c=biws,r=abc,p=") s = Ok (v, s') /\ (v <> None -> sha256 (ClientKey s') = zero_key)).
Proof.
  exact (unknown_user_rejected true draws nobody (str "n,,n=,r=abc") (str "c=biws,r=abc,p=") eq_refl good_nobody draws_good
    (proj2 (short_str "n,,n=,r=abc" eq_refl)) (proj2 (short_str "c=biws,r=abc,p=" eq_refl))).
Defined.
End Example.
