(* ===== verification/HBA.v ===== *)
(** * Host-based access control (src/hba.c, include/hba.h)

    Loading of the HBA and ident map files and the choice of the rule for a
    client.  [fs] is the file system: the bytes of the file a name opens, if it
    opens.  A name list may be in a file that names further files; each stays
    open while the next is read, and [fds] is the number of descriptors left
    when reading starts, so that a file that names itself ends with a failed
    fopen.  Allocations succeed, messages are left out.

    A pointer into the buffer of the token parser is a generation and an
    offset; the pointer to the name of an ident map is read after the next
    token was read, and is [Undef] if the buffer was allocated again.  Rules
    point to ident maps by their position. *)

From S2P Require Import Prelude Inet CBTree StrSet Tokens World.
From stdpp Require Import base option list strings.
#[local] Open Scope Z_scope.

(** ** Data *)

Definition ADDRESS_ALL : Z := 1.
Definition NAME_ALL : Z := 1.
Definition NAME_SAMEUSER : Z := 2.
Definition NAME_REPLICATION : Z := 4.

Inductive RuleType := RULE_LOCAL | RULE_HOST | RULE_HOSTSSL | RULE_HOSTNOSSL.

Inductive auth_type :=
| AUTH_TYPE_ANY | AUTH_TYPE_TRUST | AUTH_TYPE_PLAIN | AUTH_TYPE_MD5 | AUTH_TYPE_CERT | AUTH_TYPE_HBA
| AUTH_TYPE_LDAP | AUTH_TYPE_PAM | AUTH_TYPE_SCRAM_SHA_256 | AUTH_TYPE_PEER | AUTH_TYPE_REJECT.

#[export] Instance RuleType_eq_dec : EqDecision RuleType.
Proof. solve_decision. Defined.
#[export] Instance auth_type_eq_dec : EqDecision auth_type.
Proof. solve_decision. Defined.
#[export] Instance family_eq_dec : EqDecision family.
Proof. solve_decision. Defined.

(** sa_family: zero, AF_UNIX, or one of the Internet families. *)
Inductive address_family := AF_UNSPEC | AF_UNIX | AF_IP (f : family).

Record HBAAddress := mkAddress { ha_flags : Z; ha_family : address_family; ha_addr : list Z; ha_mask : list Z }.
Record HBAName := mkName { hn_flags : Z; hn_set : option StrSet }.

Record HBARule := mkRule {
  hr_type : RuleType;
  hr_method : auth_type;
  hr_address : HBAAddress;
  hr_db : HBAName;
  hr_user : HBAName;
  hr_identmap : option nat;
  hr_linenr : Z;
  hr_auth_options : option (list Z)
}.

Record Mapping := mkMapping { mp_system : list Z; mp_postgres : option (list Z); mp_flags : Z }.
Record IdentMap := mkIdentMap { im_name : list Z; im_mappings : list Mapping }.

Definition HBARules := list HBARule.
Definition Ident := list IdentMap.

(** Peer addresses; the port and the credentials play no part here. *)
Inductive PgAddr := PgaUnix | PgaInet (f : family) (addr : list Z).

(** ** Lines of a file *)

(** getline: a line with its newline; what is after the last one too. *)
Fixpoint getlines (content : list Z) : list (list Z) :=
  match content with
  | [] => []
  | c :: content =>
      if bool_decide (c = 10) then [c] :: getlines content
      else match getlines content with [] => [[c]] | l :: ls => (c :: l) :: ls end
  end.

(** A line as a C string. *)
Definition line_str (l : list Z) : list Z := default l (c_str l).

(** ** Names *)

Definition add_flag (h : HBAName) (flag : Z) : HBAName := mkName (Z.lor (hn_flags h) flag) (hn_set h).

Definition add_plain (h : HBAName) (name : list Z) : bool * HBAName :=
  let set := default strset_new (hn_set h) in
  let '(ok, set) := strset_add (fun _ => true) set name in (ok, mkName (hn_flags h) (Some set)).

Section Files.
Context (fs : list Z -> option (list Z)).

(** One turn of the loop of parse_names, up to the label eat_comma. *)
Definition name_item (file : HBAName -> list Z -> res (bool * HBAName)) (h : HBAName) (tp : TokParser) (is_db : bool) (parent : list Z)
  : res (bool * HBAName * TokParser) :=
  '(b, tp) ← eat_kw tp (str "all");
  if b : bool then Ok (true, add_flag h NAME_ALL, tp) else
  '(b, tp) ← (if is_db then eat_kw tp (str "sameuser") else Ok (false, tp));
  if b : bool then Ok (true, add_flag h NAME_SAMEUSER, tp) else
  '(b, tp) ← (if is_db then eat_kw tp (str "samerole") else Ok (false, tp));
  if b : bool then Ok (false, h, tp) else
  '(b, tp) ← (if is_db then eat_kw tp (str "samegroup") else Ok (false, tp));
  if b : bool then Ok (false, h, tp) else
  '(b, tp) ← (if is_db then eat_kw tp (str "replication") else Ok (false, tp));
  if b : bool then Ok (true, add_flag h NAME_REPLICATION, tp) else
  let plain tok :=
    let '(ok, h) := add_plain h tok in
    if ok then tp ← next_token tp; Ok (true, h, tp) else Ok (false, h, tp) in
  id ← expect tp TOK_IDENT;
  match id with
  | Some tok =>
      if bool_decide (head tok = Some 43) then Ok (false, h, tp)
      else if bool_decide (head tok = Some 64) then
        fn ← path_join_dirname parent (drop 1 tok);
        '(ok, h) ← file h fn;
        if ok : bool then tp ← next_token tp; Ok (true, h, tp) else Ok (false, h, tp)
      else plain tok
  | None =>
      st ← expect tp TOK_STRING;
      match st with Some tok => plain tok | None => Ok (false, h, tp) end
  end.

Fixpoint names_loop (fuel : nat) (file : HBAName -> list Z -> res (bool * HBAName)) (h : HBAName) (tp : TokParser) (is_db : bool)
  (parent : list Z) : res (bool * HBAName * TokParser) :=
  match fuel with
  | O => NoFuel
  | S fuel =>
      '(ok, h, tp) ← name_item file h tp is_db parent;
      if negb ok then Ok (false, h, tp)
      else
        '(b, tp) ← eat tp TOK_COMMA;
        if b : bool then names_loop fuel file h tp is_db parent else Ok (true, h, tp)
  end.

(** A turn takes a token from the line. *)
Definition parse_names_with (file : HBAName -> list Z -> res (bool * HBAName)) (h : HBAName) (tp : TokParser) (is_db : bool) (parent : list Z) :=
  names_loop (2 + left tp) file h tp is_db parent.

(** The loop over the lines of a name file. *)
Fixpoint namefile_loop (names : HBAName -> TokParser -> res (bool * HBAName * TokParser)) (lines : list (list Z)) (h : HBAName) (tp : TokParser)
  : res (bool * HBAName) :=
  match lines with
  | [] => Ok (true, h)
  | ln :: lines =>
      tp ← parse_from_string tp (line_str ln);
      '(ok, h, tp) ← names h tp;
      if ok : bool then namefile_loop names lines h tp else Ok (false, h)
  end.

Fixpoint parse_namefile (fds : nat) (is_db : bool) (h : HBAName) (fn : list Z) : res (bool * HBAName) :=
  match fds with
  | O => Ok (false, h)
  | S fds =>
      match fs fn with
      | None => Ok (false, h)
      | Some content =>
          namefile_loop (fun h tp => parse_names_with (parse_namefile fds is_db) h tp is_db fn) (getlines content) h init_parser
      end
  end.

Definition parse_names (fds : nat) (h : HBAName) (tp : TokParser) (is_db : bool) (parent : list Z) : res (bool * HBAName * TokParser) :=
  parse_names_with (parse_namefile fds is_db) h tp is_db parent.

(** ** Addresses *)

Definition overwrite (l bs : list Z) : list Z := bs ++ drop (length bs) l.

Definition set_addr (h : HBAAddress) (f : family) (bs : list Z) : HBAAddress :=
  mkAddress (ha_flags h) (AF_IP f) (overwrite (ha_addr h) bs) (ha_mask h).
Definition set_mask (h : HBAAddress) (mask : list Z) : HBAAddress := mkAddress (ha_flags h) (ha_family h) (ha_addr h) mask.

Definition parse_addr (h : HBAAddress) (addr : list Z) : res (option HBAAddress) :=
  r6 ← inet_pton AF_INET6 addr;
  match r6 with
  | Some bs => Ok (Some (set_addr h AF_INET6 bs))
  | None =>
      r4 ← inet_pton AF_INET addr;
      Ok (option_map (set_addr h AF_INET) r4)
  end.

(** strtoul in base 10: the value, the rest of the text, and whether errno was
    set. *)
Definition ULONG_MAX : Z := 2 ^ 64 - 1.
Definition strtoul (s : list Z) : Z * list Z * bool :=
  let s1 := skip_space s in
  let '(neg, s2) :=
    match s1 with
    | c :: s2 => if bool_decide (c = 45) then (true, s2) else if bool_decide (c = 43) then (false, s2) else (false, s1)
    | [] => (false, [])
    end in
  match s2 with
  | c :: _ =>
      match digit c with
      | Some _ =>
          let '(v, rest) := read_digits s2 0 in
          if bool_decide (v > ULONG_MAX) then (ULONG_MAX, rest, true)
          else (if neg then (- v) mod 2 ^ 64 else v, rest, false)
      | None => (0, s, false)
      end
  | [] => (0, s, false)
  end.

Definition parse_nmask (h : HBAAddress) (nmask : list Z) : option HBAAddress :=
  let '(bits, rest, errno) := strtoul nmask in
  if errno || bool_decide (rest <> []) then None
  else if match ha_family h with AF_IP AF_INET => bool_decide (bits > 32) | AF_IP AF_INET6 => bool_decide (bits > 128) | _ => false end then None
  else
    let i := Z.to_nat (bits / 8) in
    let mask := overwrite (ha_mask h) (replicate i 255) in
    Some (set_mask h (if bool_decide (bits mod 8 <> 0) then <[i := u8 (Z.shiftl 255 (8 - bits mod 8))]> mask else mask)).

Definition bad_mask (h : HBAAddress) : bool :=
  let bytes := match ha_family h with AF_IP AF_INET => 4%nat | _ => 16%nat end in
  bool_decide (foldl Z.lor 0 (take bytes (zip_with (fun a m => Z.land a (Z.lxor 255 m)) (ha_addr h) (ha_mask h))) <> 0).

(** ** Ident maps *)

Fixpoint find_map (ident : Ident) (mapname : list Z) (i : nat) : option nat :=
  match ident with
  | [] => None
  | map :: ident => if bool_decide (im_name map = mapname) then Some i else find_map ident mapname (S i)
  end.

(** The map the rule is to point to; NULL when there is no ident file. *)
Definition match_map (ident : option Ident) (mapname : list Z) : option nat :=
  match ident with None => None | Some ident => find_map ident mapname 0 end.

(** A pointer into the buffer: its generation and an offset. *)
Definition read_ptr (tp : TokParser) (gen : nat) (ofs : nat) : res (list Z) :=
  if bool_decide (gen = tk_gen tp) then match c_str (drop ofs (tk_buf tp)) with Some s => Ok s | None => Undef end else Undef.

Fixpoint strchr (s : list Z) (c : Z) : option nat :=
  match s with [] => None | c' :: s => if bool_decide (c' = c) then Some 0%nat else S <$> strchr s c end.

Definition parse_map_definition (ident : option Ident) (tp : TokParser) : res (bool * option nat * TokParser) :=
  id ← expect tp TOK_IDENT;
  match id with
  | None => Ok (true, None, tp)
  | Some s =>
      match strchr s 61 with
      | None => Ok (false, None, tp)
      | Some eq =>
          if bool_decide (take 4 s <> str "map=") then Ok (false, None, tp)
          else
            let gen := tk_gen tp in
            tp ← next_token tp;
            val ← read_ptr tp gen (S eq);
            Ok (match match_map ident val with Some m => (true, Some m, tp) | None => (false, None, tp) end)
      end
  end.

(** The name, or None for the keyword all. *)
Definition parse_ident_name (tp : TokParser) : res (option (option (list Z)) * TokParser) :=
  '(b, tp) ← eat_kw tp (str "all");
  if b : bool then Ok (Some None, tp) else
  id ← expect tp TOK_IDENT;
  match id with
  | Some s => Ok (Some (Some s), tp)
  | None => st ← expect tp TOK_STRING; Ok (option_map Some st, tp)
  end.

Definition append_mapping (ident : Ident) (map_name : list Z) (mapping : Mapping) : Ident :=
  match find_map ident map_name 0 with
  | Some i => alter (fun m => mkIdentMap (im_name m) (im_mappings m ++ [mapping])) i ident
  | None => ident ++ [mkIdentMap map_name [mapping]]
  end.

Definition parse_ident_line (ident : Ident) (tp : TokParser) : res (bool * Ident * TokParser) :=
  '(b, tp) ← eat tp TOK_EOL;
  if b : bool then Ok (true, ident, tp) else
  id ← expect tp TOK_IDENT;
  match id with
  | None => Ok (false, ident, tp)
  | Some map_name =>
      tp ← next_token tp;
      id ← expect tp TOK_IDENT;
      sys ← match id with Some s => Ok (Some s) | None => expect tp TOK_STRING end;
      match sys with
      | None => Ok (false, ident, tp)
      | Some system =>
          tp ← next_token tp;
          '(name, tp) ← parse_ident_name tp;
          match name with
          | None => Ok (false, ident, tp)
          | Some postgres =>
              let mapping := mkMapping system postgres (match postgres with None => NAME_ALL | Some _ => 0 end) in
              tp ← next_token tp;
              '(b, tp) ← eat tp TOK_EOL;
              if negb b then Ok (false, ident, tp) else Ok (true, append_mapping ident map_name mapping, tp)
          end
      end
  end.

(** ** Rules *)

(** The first of some keywords the parser stands at, eaten. *)
Fixpoint eat_kws {A} (kws : list (list Z * A)) (tp : TokParser) : res (option A * TokParser) :=
  match kws with
  | [] => Ok (None, tp)
  | (kw, a) :: kws =>
      '(b, tp) ← eat_kw tp kw;
      if b : bool then Ok (Some a, tp) else eat_kws kws tp
  end.

Definition rule_types : list (list Z * RuleType) :=
  [(str "local", RULE_LOCAL); (str "host", RULE_HOST); (str "hostssl", RULE_HOSTSSL); (str "hostnossl", RULE_HOSTNOSSL)].

Definition methods : list (list Z * auth_type) :=
  [(str "trust", AUTH_TYPE_TRUST); (str "reject", AUTH_TYPE_REJECT); (str "md5", AUTH_TYPE_MD5); (str "password", AUTH_TYPE_PLAIN);
   (str "peer", AUTH_TYPE_PEER); (str "cert", AUTH_TYPE_CERT); (str "scram-sha-256", AUTH_TYPE_SCRAM_SHA_256)].

Definition no_address : HBAAddress := mkAddress 0 AF_UNSPEC (replicate 16 0) (replicate 16 0).

(** The address and the mask of a host rule.  The slash is overwritten with a
    NUL in the buffer. *)
Definition parse_address (tp : TokParser) : res (option HBAAddress * TokParser) :=
  id ← expect tp TOK_IDENT;
  match id with
  | None => Ok (None, tp)
  | Some s =>
      match strchr s SLASH with
      | Some i =>
          let tp := mkTok (tk_pos tp) (cur_tok tp) (<[i := 0]> (tk_buf tp)) (tk_buflen tp) (tk_gen tp) in
          a ← parse_addr no_address (take i s);
          match a ≫= fun a => parse_nmask a (drop (S i) s) with
          | Some a => tp ← next_token tp; Ok (Some a, tp)
          | None => Ok (None, tp)
          end
      | None =>
          a ← parse_addr no_address s;
          match a with
          | None => Ok (None, tp)
          | Some a =>
              tp ← next_token tp;
              id ← expect tp TOK_IDENT;
              match id, ha_family a with
              | Some mask, AF_IP f =>
                  m ← inet_pton f mask;
                  match m with
                  | Some bs => tp ← next_token tp; Ok (Some (set_mask a (overwrite (ha_mask a) bs)), tp)
                  | None => Ok (None, tp)
                  end
              | _, _ => Ok (None, tp)
              end
          end
      end
  end.

(** The method; for ldap the rest of the line is kept as its options. *)
Definition parse_method (tp : TokParser) : res (option (auth_type * option (list Z)) * TokParser) :=
  '(m, tp) ← eat_kws methods tp;
  match m with
  | Some m => Ok (Some (m, None), tp)
  | None =>
      b ← check_kw tp (str "ldap");
      if b : bool then
        match tk_pos tp with
        | Some options => Ok (Some (AUTH_TYPE_LDAP, Some options), eat_all tp)
        | None => Undef
        end
      else Ok (None, tp)
  end.

Definition no_names : HBAName := mkName 0 None.

Definition parse_line (fds : nat) (hba : HBARules) (ident : option Ident) (tp : TokParser) (linenr : Z) (parent : list Z)
  : res (bool * HBARules * TokParser) :=
  '(ty, tp) ← eat_kws rule_types tp;
  match ty with
  | None => '(b, tp) ← eat tp TOK_EOL; Ok (b, hba, tp)
  | Some rtype =>
      '(ok, db, tp) ← parse_names fds no_names tp true parent;
      if negb ok then Ok (false, hba, tp) else
      '(ok, user, tp) ← parse_names fds no_names tp true parent;
      if negb ok then Ok (false, hba, tp) else
      '(addr, tp) ←
        (if bool_decide (rtype = RULE_LOCAL) then Ok (Some (mkAddress 0 AF_UNIX (replicate 16 0) (replicate 16 0)), tp)
         else
           '(b, tp) ← eat_kw tp (str "all");
           if b : bool then Ok (Some (mkAddress ADDRESS_ALL AF_UNSPEC (replicate 16 0) (replicate 16 0)), tp)
           else parse_address tp);
      match addr with
      | None => Ok (false, hba, tp)
      | Some addr =>
          '(m, tp) ← parse_method tp;
          match m with
          | None => Ok (false, hba, tp)
          | Some (method, options) =>
              '(ok, map, tp) ← parse_map_definition ident tp;
              if negb ok then Ok (false, hba, tp) else
              '(b, tp) ← eat tp TOK_EOL;
              if negb b then Ok (false, hba, tp)
              else Ok (true, hba ++ [mkRule rtype method addr db user map linenr options], tp)
          end
      end
  end.

(** ** Loading *)

Fixpoint rules_loop (fds : nat) (ident : option Ident) (fn : list Z) (lines : list (list Z)) (linenr : Z) (hba : HBARules) (tp : TokParser) : res HBARules :=
  match lines with
  | [] => Ok hba
  | ln :: lines =>
      tp ← parse_from_string tp (line_str ln);
      '(_, hba, tp) ← parse_line fds hba ident tp linenr fn;
      rules_loop fds ident fn lines (linenr + 1) hba tp
  end.

Definition hba_load_rules (fds : nat) (fn : list Z) (ident : option Ident) : res HBARules :=
  match fds with
  | O => Ok []
  | S fds => match fs fn with None => Ok [] | Some content => rules_loop fds ident fn (getlines content) 1 [] init_parser end
  end.

Fixpoint maps_loop (lines : list (list Z)) (ident : Ident) (tp : TokParser) : res Ident :=
  match lines with
  | [] => Ok ident
  | ln :: lines =>
      tp ← parse_from_string tp (line_str ln);
      '(_, ident, tp) ← parse_ident_line ident tp;
      maps_loop lines ident tp
  end.

Definition ident_load_map (fds : nat) (fn : option (list Z)) : res (option Ident) :=
  match fn with
  | None => Ok None
  | Some fn =>
      match fds, fs fn with
      | S _, Some content => ident ← maps_loop (getlines content) [] init_parser; Ok (Some ident)
      | _, _ => Ok (Some [])
      end
  end.
End Files.

(** ** Choosing a rule *)

Definition name_match (h : HBAName) (name pair : list Z) : bool :=
  if bool_decide (Z.land (hn_flags h) NAME_ALL <> 0) then true
  else if bool_decide (Z.land (hn_flags h) NAME_SAMEUSER <> 0) && bool_decide (name = pair) then true
  else match hn_set h with Some set => strset_contains set name | None => false end.

(** A uint32_t at the address of byte [4 * i], on a little-endian machine. *)
Definition load32 (l : list Z) (i : nat) : Z :=
  let b k := nth (4 * i + k) l 0 in b 0%nat + 256 * (b 1%nat + 256 * (b 2%nat + 256 * b 3%nat)).

Definition match_word (h : HBAAddress) (src : list Z) (i : nat) : bool :=
  bool_decide (Z.land (load32 src i) (load32 (ha_mask h) i) = load32 (ha_addr h) i).

Definition pga_family (a : PgAddr) : address_family := match a with PgaUnix => AF_UNIX | PgaInet f _ => AF_IP f end.
Definition pga_is_unix (a : PgAddr) : bool := match a with PgaUnix => true | _ => false end.

Definition match_inet4 (h : HBAAddress) (addr : PgAddr) : bool :=
  match addr with PgaInet AF_INET src => match_word h src 0 | _ => false end.
Definition match_inet6 (h : HBAAddress) (addr : PgAddr) : bool :=
  match addr with
  | PgaInet AF_INET6 src => match_word h src 0 && match_word h src 1 && match_word h src 2 && match_word h src 3
  | _ => false
  end.

Definition address_match (h : HBAAddress) (addr : PgAddr) : bool :=
  if bool_decide (Z.land (ha_flags h) ADDRESS_ALL <> 0) then true
  else
    match ha_family h with
    | AF_IP AF_INET => match_inet4 h addr
    | AF_IP AF_INET6 => match_inet6 h addr
    | _ => false
    end.

(** The conditions of the loop: does it stop at this rule? *)
Definition rule_match (rule : HBARule) (addr : PgAddr) (is_tls : bool) (replication : ReplicationType) (dbname username : list Z) : bool :=
  (if pga_is_unix addr then bool_decide (hr_type rule = RULE_LOCAL)
   else if bool_decide (hr_type rule = RULE_LOCAL) then false
   else if bool_decide (hr_type rule = RULE_HOSTSSL) && negb is_tls then false
   else if bool_decide (hr_type rule = RULE_HOSTNOSSL) && is_tls then false
   else address_match (hr_address rule) addr) &&
  (if bool_decide (replication = REPLICATION_PHYSICAL) then bool_decide (Z.land (hn_flags (hr_db rule)) NAME_REPLICATION <> 0)
   else name_match (hr_db rule) dbname username) &&
  name_match (hr_user rule) username dbname.

Fixpoint hba_eval (hba : HBARules) (addr : PgAddr) (is_tls : bool) (replication : ReplicationType) (dbname username : list Z) : option HBARule :=
  match hba with
  | [] => None
  | rule :: hba => if rule_match rule addr is_tls replication dbname username then Some rule else hba_eval hba addr is_tls replication dbname username
  end.
