(* ===== verification/HBANet.v ===== *)
(** * Networks of HBA rules

    What the masks and the comparison of words in src/hba.c mean: an address
    matches a rule with a prefix length when it starts with the bits of the
    rule's address, bit 0 being the highest bit of the first byte. *)

From S2P Require Import Prelude Inet CBTree StrSet Tokens World HBA.
From stdpp Require Import base option list strings.
#[local] Open Scope Z_scope.

(** ** Words and bytes *)

Lemma byte_bit_high b n : 0 <= b < 256 -> 8 <= n -> Z.testbit b n = false.
Proof.
  intros Hb Hn. destruct (decide (b = 0)) as [->|]; [apply Z.bits_0|]. apply Z.bits_above_log2; [lia|].
  pose proof (Z.log2_le_mono b 255). change (Z.log2 255) with 7 in *. lia.
Qed.

Lemma cat_bit b B n : 0 <= b < 256 -> 0 <= n ->
  Z.testbit (b + 256 * B) n = if bool_decide (n < 8) then Z.testbit b n else Z.testbit B (n - 8).
Proof.
  intros Hb Hn. assert (E : b + 256 * B = Z.lor (Z.shiftl B 8) b).
  { rewrite <- Z.lxor_lor, <- Z.add_nocarry_lxor; [rewrite Z.shiftl_mul_pow2 by lia; lia|..].
    all: apply Z.bits_inj'; intros i Hi; rewrite Z.land_spec, Z.bits_0; destruct (decide (i < 8)).
    all: try by rewrite Z.shiftl_spec_low.
    all: by rewrite (byte_bit_high b), andb_false_r by lia. }
  rewrite E, Z.lor_spec. case_bool_decide.
  - by rewrite Z.shiftl_spec_low by lia.
  - by rewrite Z.shiftl_spec, (byte_bit_high b), orb_false_r by lia.
Qed.

Lemma land_byte a b : 0 <= a < 256 -> 0 <= Z.land a b < 256.
Proof.
  intros Ha. replace a with (a mod 2 ^ 8) by (apply Z.mod_small; lia). rewrite <- Z.land_ones by lia. rewrite <- Z.land_assoc, (Z.land_comm (Z.ones 8)), Z.land_assoc.
  rewrite Z.land_ones by lia. apply Z.mod_pos_bound. lia.
Qed.

Lemma land_cat a A b B : 0 <= a < 256 -> 0 <= b < 256 -> Z.land (a + 256 * A) (b + 256 * B) = Z.land a b + 256 * Z.land A B.
Proof.
  intros Ha Hb. apply Z.bits_inj'. intros n Hn. rewrite Z.land_spec, !cat_bit by (auto using land_byte).
  case_bool_decide; by rewrite Z.land_spec.
Qed.

Lemma cat_inj a A b B : 0 <= a < 256 -> 0 <= b < 256 -> a + 256 * A = b + 256 * B <-> a = b /\ A = B.
Proof. lia. Qed.

Definition in_byte (b : Z) : Prop := 0 <= b < 256.

Lemma nth_byte (l : list Z) k : Forall in_byte l -> in_byte (nth k l 0).
Proof.
  intros Hl. destruct (nth_in_or_default k l 0) as [Hin| ->]; [|unfold in_byte; lia]. rewrite Forall_forall in Hl. by apply Hl, list_elem_of_In.
Qed.

(** Comparing words under a mask compares their bytes. *)
Lemma match_word_bytes h src i :
  Forall in_byte src -> Forall in_byte (ha_mask h) -> Forall in_byte (ha_addr h) ->
  match_word h src i = true <->
  forall k, (k < 4)%nat -> Z.land (nth (4 * i + k) src 0) (nth (4 * i + k) (ha_mask h) 0) = nth (4 * i + k) (ha_addr h) 0.
Proof.
  intros Hs Hm Ha. unfold match_word, load32. rewrite bool_decide_eq_true.
  assert (Hb : forall l k, Forall in_byte l -> 0 <= nth k l 0 < 256) by (intros; by apply nth_byte).
  rewrite !land_cat by auto. rewrite !cat_inj by (auto using land_byte). split.
  - intros (H0 & H1 & H2 & H3) k Hk. destruct k as [|[|[|[|k]]]]; [done..|lia].
  - intros H. split_and!; apply H; lia.
Qed.

(** ** Masks *)

(** The bits of the address under the mask are those of the rule. *)
Definition masked (n : nat) (base mask src : list Z) : Prop :=
  forall k, (k < n)%nat -> Z.land (nth k src 0) (nth k mask 0) = nth k base 0.

Lemma address_match_masked h f src :
  Z.land (ha_flags h) ADDRESS_ALL = 0 -> ha_family h = AF_IP f ->
  Forall in_byte src -> Forall in_byte (ha_mask h) -> Forall in_byte (ha_addr h) ->
  address_match h (PgaInet f src) = true <-> masked (addr_size f) (ha_addr h) (ha_mask h) src.
Proof.
  intros Hf Hfam Hs Hm Ha. unfold address_match. rewrite (bool_decide_eq_false_2 _ (fun H => H Hf)), Hfam.
  assert (Hw : forall i, match_word h src i = true <-> _) by (intros i; apply (match_word_bytes h src i Hs Hm Ha)).
  destruct f; cbn [match_inet4 match_inet6 addr_size]; unfold masked.
  - rewrite Hw. split; intros H k Hk; by apply (H k).
  - rewrite !andb_true_iff, !Hw. split.
    + intros (((H0 & H1) & H2) & H3) k Hk. pose proof (Nat.div_mod k 4 ltac:(lia)) as Hd. pose proof (Nat.mod_upper_bound k 4 ltac:(lia)) as Hr.
      assert (Hq : (k / 4 < 4)%nat) by (apply Nat.Div0.div_lt_upper_bound; unfold IN6ADDRSZ in Hk; lia).
      assert (Hj : (k = 4 * 0 + k mod 4 \/ k = 4 * 1 + k mod 4 \/ k = 4 * 2 + k mod 4 \/ k = 4 * 3 + k mod 4)%nat) by lia.
      destruct Hj as [-> |[-> |[-> | ->]]]; [apply H0|apply H1|apply H2|apply H3]; done.
    + intros H. split_and!; intros k Hk; apply H; unfold IN6ADDRSZ; lia.
Qed.

Lemma address_match_family h f f' src : Z.land (ha_flags h) ADDRESS_ALL = 0 -> ha_family h = AF_IP f -> f <> f' -> address_match h (PgaInet f' src) = false.
Proof.
  intros Hf Hfam Hne. unfold address_match. rewrite (bool_decide_eq_false_2 _ (fun H => H Hf)), Hfam. by destruct f, f'.
Qed.

(** ** Prefix lengths *)

(** The mask parse_nmask builds over zeros. *)
Definition prefix_mask (bits : Z) : list Z :=
  let i := Z.to_nat (bits / 8) in
  let mask := overwrite (replicate 16 0) (replicate i 255) in
  if bool_decide (bits mod 8 <> 0) then <[i := u8 (Z.shiftl 255 (8 - bits mod 8))]> mask else mask.

(** [forall_range P n]: a check of all numbers below [n]. *)
Definition prefix_mask_ok (bits : Z) : bool :=
  bool_decide (length (prefix_mask bits) = 16%nat) &&
  forallb (fun b => bool_decide (0 <= b < 256)) (prefix_mask bits) &&
  forallb (fun i => bool_decide (get_bit i (prefix_mask bits) = bool_decide (i < bits))) (map Z.of_nat (seq 0 128)).

Lemma prefix_mask_bits bits : 0 <= bits <= 128 ->
  length (prefix_mask bits) = 16%nat /\ Forall in_byte (prefix_mask bits) /\
  forall i, 0 <= i < 128 -> get_bit i (prefix_mask bits) = bool_decide (i < bits).
Proof.
  intros Hb. assert (H : prefix_mask_ok bits = true) by (apply (range_cases prefix_mask_ok 129); [by vm_compute|lia]).
  unfold prefix_mask_ok in H. apply andb_true_iff in H as [[H1%bool_decide_eq_true H2]%andb_true_iff H3]. split; [done|]. split.
  - apply Forall_forall. intros b Hin%list_elem_of_In. rewrite forallb_forall in H2. by apply H2, bool_decide_eq_true in Hin.
  - intros i Hi. apply (range_cases (fun i => bool_decide (get_bit i (prefix_mask bits) = bool_decide (i < bits))) 128) in Hi; [|done].
    by apply bool_decide_eq_true in Hi.
Qed.

(** Bytes are told apart by their bits. *)
Lemma byte_bits a b : in_byte a -> in_byte b -> (forall j, 0 <= j < 8 -> Z.testbit a (7 - j) = Z.testbit b (7 - j)) -> a = b.
Proof.
  intros Ha Hb H. apply Z.bits_inj'. intros n Hn. destruct (decide (n < 8)).
  - replace n with (7 - (7 - n)) by lia. apply H. lia.
  - by rewrite !byte_bit_high by (done || lia).
Qed.

Lemma get_bit_nth l k j : 0 <= j < 8 -> get_bit (Z.of_nat k * 8 + j) l = Z.testbit (nth k l 0) (7 - j).
Proof. intros Hj. rewrite get_bit_at by done. unfold byte. by rewrite <- nth_lookup, (nth_lookup l k 0). Qed.

(** The first [bits] bits agree. *)
Definition in_network (base : list Z) (bits : Z) (src : list Z) : Prop := forall i, 0 <= i < bits -> get_bit i src = get_bit i base.

Definition host_bits_zero (n : nat) (base : list Z) (bits : Z) : Prop := forall i, bits <= i < 8 * Z.of_nat n -> get_bit i base = false.

(** The words match when the address is in the network, and the rule's address
    has nothing outside its mask. *)
Lemma masked_prefix n base src bits :
  (n <= 16)%nat -> 0 <= bits <= 8 * Z.of_nat n -> Forall in_byte src -> Forall in_byte base ->
  masked n base (prefix_mask bits) src <-> in_network base bits src /\ host_bits_zero n base bits.
Proof.
  intros Hn Hb Hs Ha. destruct (prefix_mask_bits bits) as (Hl & Hm & Hbit); [lia|].
  assert (Hall : masked n base (prefix_mask bits) src <-> forall i, 0 <= i < 8 * Z.of_nat n -> get_bit i src && bool_decide (i < bits) = get_bit i base).
  { split.
    - intros H i Hi. destruct (get_bit_split i) as (k & j & -> & Hj); [lia|]. rewrite <- (Hbit (Z.of_nat k * 8 + j) ltac:(lia)), !get_bit_nth by done.
      rewrite <- Z.land_spec. f_equal. apply H. lia.
    - intros H k Hk. apply byte_bits; [apply land_byte, nth_byte, Hs|by apply nth_byte|]. intros j Hj.
      specialize (H (Z.of_nat k * 8 + j) ltac:(lia)). rewrite <- (Hbit (Z.of_nat k * 8 + j) ltac:(lia)), !get_bit_nth in H by done. by rewrite Z.land_spec. }
  rewrite Hall. unfold in_network, host_bits_zero. split.
  - intros H. split; intros i Hi; specialize (H i ltac:(lia)).
    + by rewrite bool_decide_eq_true_2, andb_true_r in H by lia.
    + by rewrite bool_decide_eq_false_2, andb_false_r in H by lia.
  - intros [H1 H2] i Hi. destruct (decide (i < bits)).
    + rewrite bool_decide_eq_true_2, andb_true_r by done. apply H1. lia.
    + rewrite bool_decide_eq_false_2, andb_false_r by done. symmetry. apply H2. lia.
Qed.
