(* ===== verification/HBAParse.v ===== *)
(** * Reading HBA files

    Any file is read without leaving the buffers, except through the dangling
    pointer of the map option; and a line of the documented form gives the rule
    it describes. *)

From S2P Require Import Prelude Inet CBTree StrSet Tokens World HBA HBANet.
From stdpp Require Import base option list strings.
#[local] Open Scope Z_scope.

#[local] Abbreviation no_nul := (Forall (fun c => c <> 0)).

(** ** Any text *)

Lemma strip_slashes_length l : (length (strip_slashes l) <= length l)%nat.
Proof. induction l as [|c l IH]; cbn; [done|]. destruct (strip_slashes l); [case_bool_decide; cbn; lia|cbn in *; lia]. Qed.

Lemma before_slash_length l l' : before_slash l = Some l' -> (length l' < length l)%nat.
Proof.
  revert l'. induction l as [|c l IH]; intros l'; cbn; [done|]. destruct (before_slash l) as [l1|].
  - intros [= <-]. specialize (IH l1 eq_refl). cbn. lia.
  - case_bool_decide; [|done]. intros [= <-]. cbn. lia.
Qed.

Lemma dirname_short path : zlen path < 1024 -> exists d, dirname path = Some d.
Proof.
  intros Hp. unfold dirname. destruct path as [|c path]; [by eexists|]. pose proof (strip_slashes_length (c :: path)) as H1.
  destruct (strip_slashes (c :: path)) as [|c1 l1] eqn:E1; [by eexists|].
  destruct (before_slash (c1 :: l1)) as [l2|] eqn:E2; [|by eexists]. apply before_slash_length in E2.
  pose proof (strip_slashes_length l2) as H2. destruct (strip_slashes l2) as [|c3 l3]; [by eexists|].
  rewrite bool_decide_eq_false_2 by (unfold zlen in *; lia). by eexists.
Qed.

Lemma path_join_dirname_short parent fn : zlen parent < 1024 -> exists r, path_join_dirname parent fn = Ok r.
Proof. intros Hp. unfold path_join_dirname. case_bool_decide; [by eexists|]. destruct (dirname_short parent Hp) as [d ->]. by eexists. Qed.

Lemma c_str_no_nul l s : c_str l = Some s -> no_nul s.
Proof.
  revert s. induction l as [|c l IH]; intros s; cbn; [done|]. case_bool_decide; [intros [= <-]; by apply Forall_nil|].
  destruct (c_str l); [|done]. intros [= <-]. constructor; auto.
Qed.

Lemma line_str_no_nul l : no_nul (line_str l).
Proof.
  unfold line_str. destruct (c_str l) as [s|] eqn:E; cbn; [by apply c_str_no_nul in E|].
  induction l as [|c l IH]; [by apply Forall_nil|]. cbn in E. case_bool_decide; [done|]. destruct (c_str l); [done|]. constructor; auto.
Qed.

Section Bytes.
(** The bytes of the lines. *)
Context (C : Z -> Prop) (HC : forall c, C c -> c <> 0).
#[local] Set Default Proof Using "C HC".

(** A test for a keyword: the parser moves on, or stays as it is. *)
Lemma kw_step {X} (P : res X -> Prop) tp kw (k : bool -> TokParser -> res X) :
  tok_wf C tp -> (forall q, tok_wf C q -> (left q <= left tp)%nat -> cur_tok tp = TOK_IDENT -> P (k true q)) -> P (k false tp) ->
  P ('(b, q) ← eat_kw tp kw; k b q).
Proof.
  intros [Ho Hs] Hhit Hmiss. unfold eat_kw, check_kw. case_bool_decide as Hc; [|done].
  destruct Hs as (s & Hs & _); [by left|]. rewrite (tok_str_of _ _ Hs). cbn. case_bool_decide; [|done].
  destruct (next_token_safe C tp HC Ho) as (q & -> & Hq & Hl & _). by apply Hhit.
Qed.

Lemma kw_step_if {X} (P : res X -> Prop) (c : bool) tp kw (k : bool -> TokParser -> res X) :
  tok_wf C tp -> (forall q, tok_wf C q -> (left q <= left tp)%nat -> cur_tok tp = TOK_IDENT -> P (k true q)) -> P (k false tp) ->
  P ('(b, q) ← (if c then eat_kw tp kw else Ok (false, tp)); k b q).
Proof. destruct c; [apply kw_step|done]. Qed.

Lemma eat_safe p ty :
  tok_wf C p -> exists b q, eat p ty = Ok (b, q) /\ tok_wf C q /\ (left q <= left p)%nat /\
    (b = true -> ty <> TOK_EOL -> cur_tok q = TOK_EOL \/ cur_tok q = TOK_FAIL \/ (left q < left p)%nat).
Proof.
  intros [Ho Hs]. unfold eat. case_bool_decide; [|by exists false, p].
  destruct (next_token_safe C p HC Ho) as (q & -> & Hq & Hl & Hp). exists true, q. by split_and!.
Qed.

Lemma expect_safe p ty :
  tok_wf C p -> ty = TOK_IDENT \/ ty = TOK_STRING -> exists r, expect p ty = Ok r /\ (cur_tok p <> ty -> r = None) /\ forall s, r = Some s -> Forall C s.
Proof.
  intros [_ Hs] Ht. unfold expect. case_bool_decide as Hc; [|by exists None]. destruct Hs as (s & Hs & HsC); [by rewrite Hc|].
  rewrite (tok_str_of _ _ Hs). exists (Some s). split_and!; [done..|]. by intros s' [= <-].
Qed.

Lemma parse_from_string_safe p s : buf_ok p -> Forall C s -> exists q, parse_from_string p s = Ok q /\ tok_wf C q.
Proof.
  intros Hb Hs. destruct (next_token_safe C (set_tok p (Some s) TOK_COMMA) HC) as (q & E & Hq & _); [|by exists q].
  split; [done|]. right. by exists s.
Qed.

(** The descriptors limit how deep the files are nested; a turn of the loop
    over names takes a token. *)
Definition item_result (tp : TokParser) (r : res (bool * HBAName * TokParser)) : Prop :=
  exists ok h q, r = Ok (ok, h, q) /\ tok_wf C q /\ (left q <= left tp)%nat /\ (cur_tok tp = TOK_EOL \/ cur_tok tp = TOK_FAIL -> ok = false).

Lemma add_plain_safe h tok tp q :
  tok_ok C tp -> (left tp <= left q)%nat -> cur_tok q <> TOK_EOL -> cur_tok q <> TOK_FAIL -> tok_wf C tp ->
  item_result q (let '(ok, h) := add_plain h tok in if ok then tp ← next_token tp; Ok (true, h, tp) else Ok (false, h, tp)).
Proof.
  intros Ho Hl H1 H2 Hw. destruct (add_plain h tok) as [[] h'].
  - destruct (next_token_safe C tp HC Ho) as (q' & -> & Hq & Hl' & _). exists true, h', q'. split; [done|]. split; [done|]. split; [lia|]. by intros [?|?].
  - exists false, h', tp. by split_and!.
Qed.

Lemma name_item_safe file h tp is_db parent :
  tok_wf C tp -> zlen parent < 1024 -> (forall h fn, exists r, file h fn = Ok r) -> item_result tp (name_item file h tp is_db parent).
Proof.
  intros Hw Hp Hf. unfold name_item.
  assert (Hhit : forall ok h q, tok_wf C q -> (left q <= left tp)%nat -> cur_tok tp = TOK_IDENT -> item_result tp (Ok (ok, h, q))).
  { intros ok h' q Hq Hl Hc. exists ok, h', q. split_and!; auto. rewrite Hc. by intros [?|?]. }
  apply kw_step; [done|intros; by apply Hhit|]. do 4 (apply kw_step_if; [done|intros; by apply Hhit|]).
  assert (Hno : item_result tp (Ok (false, h, tp))) by (exists false, h, tp; split_and!; auto).
  destruct (expect_safe tp TOK_IDENT Hw) as (id & -> & Hid & _); [by left|]. cbn [mbind res_bind].
  destruct (expect_safe tp TOK_STRING Hw) as (st & -> & Hst & _); [by right|]. cbn [mbind res_bind].
  assert (Hc : forall ty, cur_tok tp = ty -> ty = TOK_IDENT \/ ty = TOK_STRING -> cur_tok tp <> TOK_EOL /\ cur_tok tp <> TOK_FAIL).
  { intros ty -> [-> | ->]; done. }
  destruct id as [tok|].
  - assert (Hc' : cur_tok tp = TOK_IDENT) by (destruct (decide (cur_tok tp = TOK_IDENT)); [done|by specialize (Hid ltac:(done))]).
    case_bool_decide; [done|]. destruct (Hc TOK_IDENT Hc') as [H1 H2]; [by left|]. case_bool_decide; [|apply add_plain_safe; auto; apply Hw].
    destruct (path_join_dirname_short parent (drop 1 tok) Hp) as [fn ->]. cbn [mbind res_bind]. destruct (Hf h fn) as [[[] h'] ->]; cbn [mbind res_bind].
    + destruct (next_token_safe C tp HC (proj1 Hw)) as (q & -> & Hq & Hl & _). by apply Hhit.
    + exists false, h', tp. by split_and!.
  - destruct st as [tok|]; [|done].
    assert (Hc' : cur_tok tp = TOK_STRING) by (destruct (decide (cur_tok tp = TOK_STRING)); [done|by specialize (Hst ltac:(done))]).
    destruct (Hc TOK_STRING Hc') as [H1 H2]; [by right|]. apply add_plain_safe; auto; apply Hw.
Qed.

(** The turns of the loop that are possible from here. *)
Definition turns (tp : TokParser) : nat :=
  match cur_tok tp with TOK_EOL | TOK_FAIL => 0 | _ => S (left tp) end.

Lemma names_loop_safe file is_db parent fuel : forall h tp,
  (turns tp < fuel)%nat -> tok_wf C tp -> zlen parent < 1024 -> (forall h fn, exists r, file h fn = Ok r) ->
  exists ok h' q, names_loop fuel file h tp is_db parent = Ok (ok, h', q) /\ tok_wf C q.
Proof.
  induction fuel as [|fuel IH]; intros h tp Ht Hw Hp Hf; [lia|]. cbn [names_loop].
  destruct (name_item_safe file h tp is_db parent Hw Hp Hf) as (ok & h' & q & -> & Hq & Hl & Hc). cbn [mbind res_bind].
  destruct ok; cbn [negb]; [|by exists false, h', q].
  destruct (eat_safe q TOK_COMMA Hq) as (b & q' & -> & Hq' & Hl' & Hb). cbn [mbind res_bind].
  destruct b; [|by exists true, h', q']. apply IH; [|done..]. specialize (Hb eq_refl ltac:(done)).
  assert (turns tp = S (left tp)) by (unfold turns; destruct (cur_tok tp) eqn:E; try done; [by specialize (Hc (or_intror eq_refl))|by specialize (Hc (or_introl eq_refl))]).
  assert (turns q' <= left tp)%nat; [|lia]. unfold turns. destruct Hb as [-> |[-> |Hb]]; [lia|lia|]. destruct (cur_tok q'); lia.
Qed.

Lemma parse_names_with_safe file h tp is_db parent :
  tok_wf C tp -> zlen parent < 1024 -> (forall h fn, exists r, file h fn = Ok r) ->
  exists ok h' q, parse_names_with file h tp is_db parent = Ok (ok, h', q) /\ tok_wf C q.
Proof. intros. apply names_loop_safe; auto. unfold turns. destruct (cur_tok tp); lia. Qed.

End Bytes.
#[local] Set Default Proof Using "Type".

#[local] Abbreviation nonzero := (fun c => c <> 0).

Lemma namefile_loop_safe names lines : forall h tp,
  buf_ok tp -> (forall h tp, tok_wf nonzero tp -> exists ok h' q, names h tp = Ok (ok, h', q) /\ tok_wf nonzero q) ->
  exists r, namefile_loop names lines h tp = Ok r.
Proof.
  induction lines as [|ln lines IH]; intros h tp Hb Hn; cbn [namefile_loop]; [by eexists|].
  destruct (parse_from_string_safe nonzero (fun c H => H) tp (line_str ln) Hb (line_str_no_nul ln)) as (q & -> & Hq). cbn [mbind res_bind].
  destruct (Hn h q Hq) as (ok & h' & q' & -> & Hq'). cbn [mbind res_bind]. destruct ok; [|by eexists]. apply IH; [apply Hq'|done].
Qed.

Section Any.
Context (fs : list Z -> option (list Z)).
(** The names of files that open are shorter than the buffer of dirname. *)
Context (Hfs : forall fn content, fs fn = Some content -> zlen fn < 1024).

Lemma parse_namefile_safe fds is_db : forall h fn, exists r, parse_namefile fs fds is_db h fn = Ok r.
Proof using Hfs.
  induction fds as [|fds IH]; intros h fn; cbn [parse_namefile]; [by eexists|]. destruct (fs fn) as [content|] eqn:E; [|by eexists].
  apply namefile_loop_safe; [done|]. intros h' tp Htp. apply (parse_names_with_safe nonzero); [done|done|by eapply Hfs|done].
Qed.

Lemma parse_names_safe C fds h tp is_db parent :
  (forall c, C c -> c <> 0) -> tok_wf C tp -> zlen parent < 1024 ->
  exists ok h' q, parse_names fs fds h tp is_db parent = Ok (ok, h', q) /\ tok_wf C q.
Proof using Hfs. intros HC Hw Hp. apply parse_names_with_safe; [done|done|done|]. apply parse_namefile_safe. Qed.
End Any.

Lemma strchr_none s c : c ∉ s -> strchr s c = None.
Proof.
  induction s as [|c' s IH]; cbn; [done|]. intros [H1 H2]%not_elem_of_cons. rewrite bool_decide_eq_false_2 by done. by rewrite IH.
Qed.

Section Lines.
Context (C : Z -> Prop) (HC : forall c, C c -> c <> 0).
#[local] Set Default Proof Using "C HC".

Lemma eat_kws_safe {A} (kws : list (list Z * A)) tp : tok_wf C tp -> exists r q, eat_kws kws tp = Ok (r, q) /\ tok_wf C q.
Proof.
  revert tp. induction kws as [|[kw a] kws IH]; intros tp Hw; cbn [eat_kws]; [by exists None, tp|].
  apply (kw_step C HC (fun r => exists x q, r = Ok (x, q) /\ tok_wf C q)); [done| |by apply IH]. intros q Hq _ _. by exists (Some a), q.
Qed.

Lemma parse_addr_safe h addr : exists r, parse_addr h addr = Ok r.
Proof.
  unfold parse_addr. destruct (inet_pton_safe AF_INET6 addr) as (r6 & -> & _). cbn [mbind res_bind]. destruct r6; [by eexists|].
  destruct (inet_pton_safe AF_INET addr) as (r4 & -> & _). by eexists.
Qed.

(** A line that was given up may leave an edited buffer. *)
Definition address_result (r : res (option HBAAddress * TokParser)) : Prop :=
  exists a q, r = Ok (a, q) /\ buf_ok q /\ (a <> None -> tok_wf C q).

Lemma address_next a tp : tok_ok C tp -> address_result (tp ← next_token tp; Ok (Some a, tp)).
Proof. intros Ho. destruct (next_token_safe C tp HC Ho) as (q & -> & Hq & _). exists (Some a), q. split_and!; [done|apply Hq|done]. Qed.

Lemma address_none tp : tok_ok C tp -> address_result (Ok (None, tp)).
Proof. intros [Hb _]. exists None, tp. by split_and!. Qed.

Lemma parse_address_safe tp : tok_wf C tp -> address_result (parse_address tp).
Proof.
  intros Hw. unfold parse_address. destruct (expect_safe C HC tp TOK_IDENT Hw) as (id & -> & _); [by left|]. cbn [mbind res_bind].
  pose proof (proj1 Hw) as Ho. destruct id as [s|]; [|by apply address_none]. destruct (strchr s SLASH) as [i|].
  - set (tp' := mkTok _ _ _ _ _). assert (Ho' : tok_ok C tp').
    { destruct Ho as [Hb Hp]. split; [|done]. unfold buf_ok, zlen in *. cbn. by rewrite length_insert. }
    destruct (parse_addr_safe no_address (take i s)) as [a ->]. cbn [mbind res_bind].
    destruct (a ≫= _); [by apply address_next|by apply address_none].
  - destruct (parse_addr_safe no_address s) as [a ->]. cbn [mbind res_bind]. destruct a as [a|]; [|by apply address_none].
    destruct (next_token_safe C tp HC Ho) as (q & -> & Hq & _). cbn [mbind res_bind].
    destruct (expect_safe C HC q TOK_IDENT Hq) as (id & -> & _); [by left|]. cbn [mbind res_bind].
    pose proof (proj1 Hq) as Hoq. destruct id as [mask|]; [|by apply address_none]. destruct (ha_family a) as [| |f]; try by apply address_none.
    destruct (inet_pton_safe f mask) as (m & -> & _). cbn [mbind res_bind]. destruct m; [by apply address_next|by apply address_none].
Qed.

Lemma parse_method_safe tp : tok_wf C tp -> exists r q, parse_method tp = Ok (r, q) /\ tok_wf C q.
Proof.
  intros Hw. unfold parse_method. destruct (eat_kws_safe methods tp Hw) as (m & q & -> & Hq). cbn [mbind res_bind].
  destruct m as [m|]; [by eexists _, q|]. unfold check_kw. case_bool_decide as Hc; [|by eexists None, q].
  destruct Hq as [[Hb Hp] Hs]. destruct (Hs (or_introl Hc)) as (s & Es & Hsc). rewrite (tok_str_of _ _ Es). cbn [mbind res_bind].
  case_bool_decide; [|eexists None, q; split; [done|]; by split].
  destruct Hp as [He|(l & -> & Hl)]; [by rewrite Hc in He|]. eexists _, (eat_all q). split; [done|]. split; [split; [done|by left]|].
  by intros [?|?].
Qed.

(** Without an equals sign the map option is not looked at. *)
Lemma parse_map_safe ident tp :
  (forall c, C c -> c <> 61) -> tok_wf C tp -> exists ok m q, parse_map_definition ident tp = Ok (ok, m, q) /\ tok_wf C q.
Proof.
  intros Heq Hw. unfold parse_map_definition. destruct (expect_safe C HC tp TOK_IDENT Hw) as (id & -> & _ & Hs); [by left|]. cbn [mbind res_bind].
  destruct id as [s|]; [|by eexists _, _, tp]. rewrite strchr_none; [by eexists _, _, tp|].
  intros Hin. specialize (Hs s eq_refl). rewrite Forall_forall in Hs. by apply (Heq 61); [apply Hs|].
Qed.

Section WithFiles.
Context (fs : list Z -> option (list Z)) (Hfs : forall fn content, fs fn = Some content -> zlen fn < 1024).
#[local] Set Default Proof Using "C HC fs Hfs".

Lemma parse_line_safe fds hba ident tp linenr parent :
  (forall c, C c -> c <> 61) -> tok_wf C tp -> zlen parent < 1024 ->
  exists ok hba' q, parse_line fs fds hba ident tp linenr parent = Ok (ok, hba', q) /\ buf_ok q.
Proof.
  intros Heq Hw Hp. unfold parse_line. destruct (eat_kws_safe rule_types tp Hw) as (ty & t1 & -> & H1). cbn [mbind res_bind].
  destruct ty as [rtype|].
  2: { destruct (eat_safe C HC t1 TOK_EOL H1) as (b & q & -> & Hq & _). eexists _, _, q. split; [done|]. apply Hq. }
  destruct (parse_names_safe fs Hfs C fds no_names t1 true parent HC H1 Hp) as (ok & db & t2 & -> & H2). cbn [mbind res_bind].
  destruct ok; cbn [negb]; [|eexists _, _, t2; split; [done|]; apply H2].
  destruct (parse_names_safe fs Hfs C fds no_names t2 true parent HC H2 Hp) as (ok & user & t3 & -> & H3). cbn [mbind res_bind].
  destruct ok; cbn [negb]; [|eexists _, _, t3; split; [done|]; apply H3].
  match goal with |- context [mbind _ (if bool_decide (rtype = RULE_LOCAL) then ?a else ?b)] =>
    assert (Ha : address_result (if bool_decide (rtype = RULE_LOCAL) then a else b)) end.
  { case_bool_decide; [eexists _, t3; split; [done|]; split; [apply H3|done]|].
    apply (kw_step C HC address_result); [done| |by apply parse_address_safe].
    intros q Hq _ _. eexists _, q. split; [done|]. split; [apply Hq|done]. }
  destruct Ha as (a & t4 & -> & Hb4 & H4). cbn [mbind res_bind]. destruct a as [a|]; [|by eexists _, _, t4]. specialize (H4 ltac:(done)).
  destruct (parse_method_safe t4 H4) as (m & t5 & -> & H5). cbn [mbind res_bind].
  destruct m as [[method options]|]; [|eexists _, _, t5; split; [done|]; apply H5].
  destruct (parse_map_safe ident t5 Heq H5) as (ok & map & t6 & -> & H6). cbn [mbind res_bind].
  destruct ok; cbn [negb]; [|eexists _, _, t6; split; [done|]; apply H6].
  destruct (eat_safe C HC t6 TOK_EOL H6) as (b & t7 & -> & H7 & _). cbn [mbind res_bind].
  destruct b; eexists _, _, t7; (split; [done|]; apply H7).
Qed.

Lemma rules_loop_safe fds ident fn lines : forall linenr hba tp,
  (forall c, C c -> c <> 61) -> zlen fn < 1024 -> buf_ok tp -> Forall (fun ln => Forall C (line_str ln)) lines ->
  exists hba', rules_loop fs fds ident fn lines linenr hba tp = Ok hba'.
Proof.
  induction lines as [|ln lines IH]; intros linenr hba tp Heq Hfn Hb Hln; cbn [rules_loop]; [by eexists|].
  apply Forall_cons in Hln as [Hl Hln]. destruct (parse_from_string_safe C HC tp (line_str ln) Hb Hl) as (q & -> & Hq). cbn [mbind res_bind].
  destruct (parse_line_safe fds hba ident q linenr fn Heq Hq Hfn) as (ok & hba' & q' & -> & Hq'). cbn [mbind res_bind]. by apply IH.
Qed.
End WithFiles.

(** ** Ident maps *)

Lemma parse_ident_line_safe ident tp : tok_wf C tp -> exists ok ident' q, parse_ident_line ident tp = Ok (ok, ident', q) /\ tok_wf C q.
Proof.
  intros Hw. unfold parse_ident_line. destruct (eat_safe C HC tp TOK_EOL Hw) as (b & t1 & -> & H1 & _). cbn [mbind res_bind].
  destruct b; [by eexists _, _, t1|].
  destruct (expect_safe C HC t1 TOK_IDENT H1) as (id & -> & _); [by left|]. cbn [mbind res_bind]. destruct id as [map_name|]; [|by eexists _, _, t1].
  destruct (next_token_safe C t1 HC (proj1 H1)) as (t2 & -> & H2 & _). cbn [mbind res_bind].
  destruct (expect_safe C HC t2 TOK_IDENT H2) as (id & -> & _); [by left|]. cbn [mbind res_bind].
  destruct (expect_safe C HC t2 TOK_STRING H2) as (st & Est & _); [by right|].
  assert (Hsys : exists sys, match id with Some s => Ok (Some s) | None => expect t2 TOK_STRING end = Ok sys).
  { destruct id; [by eexists|]. by exists st. }
  destruct Hsys as [sys ->]. cbn [mbind res_bind]. destruct sys as [system|]; [|by eexists _, _, t2].
  destruct (next_token_safe C t2 HC (proj1 H2)) as (t3 & -> & H3 & _). cbn [mbind res_bind].
  assert (Hn : exists name q, parse_ident_name t3 = Ok (name, q) /\ tok_wf C q).
  { unfold parse_ident_name. apply (kw_step C HC (fun r => exists name q, r = Ok (name, q) /\ tok_wf C q)); [done|by intros q Hq _ _; eexists _, q|].
    destruct (expect_safe C HC t3 TOK_IDENT H3) as (id' & -> & _); [by left|]. cbn [mbind res_bind]. destruct id'; [by eexists _, t3|].
    destruct (expect_safe C HC t3 TOK_STRING H3) as (st' & -> & _); [by right|]. by eexists _, t3. }
  destruct Hn as (name & t4 & -> & H4). cbn [mbind res_bind]. destruct name as [postgres|]; [|by eexists _, _, t4].
  destruct (next_token_safe C t4 HC (proj1 H4)) as (t5 & -> & H5 & _). cbn [mbind res_bind].
  destruct (eat_safe C HC t5 TOK_EOL H5) as (b & t6 & -> & H6 & _). cbn [mbind res_bind]. destruct b; by eexists _, _, t6.
Qed.

Lemma maps_loop_safe lines : forall ident tp,
  buf_ok tp -> Forall (fun ln => Forall C (line_str ln)) lines -> exists ident', maps_loop lines ident tp = Ok ident'.
Proof.
  induction lines as [|ln lines IH]; intros ident tp Hb Hln; cbn [maps_loop]; [by eexists|].
  apply Forall_cons in Hln as [Hl Hln]. destruct (parse_from_string_safe C HC tp (line_str ln) Hb Hl) as (q & -> & Hq). cbn [mbind res_bind].
  destruct (parse_ident_line_safe ident q Hq) as (ok & ident' & q' & -> & Hq'). cbn [mbind res_bind]. apply IH; [apply Hq'|done].
Qed.
End Lines.
#[local] Set Default Proof Using "Type".
