(* ===== verification/Access.v ===== *)
(** * What an HBA file means

    The rules of doc/config.md, section HBA file format, as a specification:
    the words of a rule, and the clients it is for.  A file whose lines have
    this form, in any layout the lexical grammar allows, is loaded to rules
    that decide as the specification does: the first rule that is for the
    client, or none. *)

From S2P Require Import Prelude Inet CBTree StrSet Tokens World HBA HBANet HBAParse.
From stdpp Require Import base option list strings.
#[local] Open Scope Z_scope.

#[local] Abbreviation no_nul := (Forall (fun c => c <> 0)).

(** ** Rules as words *)

Inductive name_spec := NAll | NSameuser | NReplication | NName (quoted : bool) (s : list Z).

(** A name, or a file of names, written with an at sign, and the names in it. *)
Inductive name_word := W (it : name_spec) | WFile (path : list Z) (items : list name_spec).

(** Everything, a network with a prefix length, or one with a mask; with the
    texts they are written as. *)
Inductive addr_spec :=
| AAll
| ANet (f : family) (text base : list Z) (bits : Z)
| AMask (f : family) (text base mtext mask : list Z).

Record rule_spec := mkSpec {
  rs_type : RuleType;
  rs_db : list name_word;
  rs_user : list name_word;
  rs_addr : addr_spec;
  rs_method : auth_type;
  rs_map : option (list Z);
  rs_options : list token
}.







Definition method_kw (m : auth_type) : option (list Z) :=
  match m with
  | AUTH_TYPE_TRUST => Some (str "trust")
  | AUTH_TYPE_REJECT => Some (str "reject")
  | AUTH_TYPE_MD5 => Some (str "md5")
  | AUTH_TYPE_PLAIN => Some (str "password")
  | AUTH_TYPE_PEER => Some (str "peer")
  | AUTH_TYPE_CERT => Some (str "cert")
  | AUTH_TYPE_SCRAM_SHA_256 => Some (str "scram-sha-256")
  | AUTH_TYPE_LDAP => Some (str "ldap")
  | _ => None
  end.






(** The lines of a file of names. *)
Definition names_file (rows : list (list Z * list name_word)) : list Z := flat_map (fun '(text, _) => text ++ [10]) rows.







(** ** Clients *)






(** ** Names *)















(** ** Lines *)





(** ** Files of names *)




(** ** Matching of names *)





(** ** Texts of addresses *)









(** ** Addresses of rules *)



Definition rule_address (a : addr_spec) : HBAAddress :=
  match a with
  | AAll => mkAddress ADDRESS_ALL AF_UNSPEC (replicate 16 0) (replicate 16 0)
  | ANet f _ base bits => mkAddress 0 (AF_IP f) (overwrite (replicate 16 0) base) (prefix_mask bits)
  | AMask f _ base _ mask => mkAddress 0 (AF_IP f) (overwrite (replicate 16 0) base) (overwrite (replicate 16 0) mask)
  end.



Lemma overwrite_bytes n base : (n <= 16)%nat -> bytes_of n base -> Forall in_byte (overwrite (replicate 16 0) base).
Proof.
  intros Hn [Hl Hb]. unfold overwrite. apply Forall_app. split; [done|]. apply Forall_drop, Forall_replicate. unfold in_byte. lia.
Qed.

Lemma masked_overwrite n base mask src :
  length base = n -> masked n (overwrite (replicate 16 0) base) mask src <-> masked n base mask src.
Proof. intros Hl. unfold masked, overwrite. split; intros H k Hk; specialize (H k Hk); by rewrite app_nth1 in * by lia. Qed.


Lemma addr_size_16 f : (addr_size f <= 16)%nat.
Proof. destruct f; cbn [addr_size]; unfold INADDRSZ, IN6ADDRSZ; lia. Qed.


(** ** Lines *)














Lemma method_head m ts : head (TIdent (default [] (method_kw m)) :: ts) <> Some TComma.
Proof. done. Qed.

Section Loading.
Context (fs : list Z -> option (list Z)) (fds : nat) (ident : option Ident) (fn : list Z).


(** ** Files *)

(** A rule, nothing, or something that does not start as a rule does. *)
Inductive line_spec := LRule (sp : rule_spec) | LEmpty | LOther (ts : list token).



Definition file_of (lines : list (list Z * line_spec)) : list Z := flat_map (fun '(text, _) => text ++ [10]) lines.



End Loading.

(** ** Choosing *)






(** ** Any file *)

Lemma Forall_getlines (C : Z -> Prop) content : Forall C content -> Forall (Forall C) (getlines content).
Proof.
  induction 1 as [|c content Hc _ IH]; cbn [getlines]; [by apply Forall_nil|]. case_bool_decide.
  - constructor; [by apply Forall_singleton|done].
  - destruct (getlines content) as [|l ls]; [by repeat constructor|]. apply Forall_cons in IH as [Hl Hls]. by repeat constructor.
Qed.

Lemma Forall_line_str (C : Z -> Prop) l : Forall C l -> Forall C (line_str l).
Proof.
  intros H. unfold line_str. destruct (c_str l) as [s|] eqn:E; cbn; [|done]. revert s E.
  induction H as [|c l Hc _ IH]; intros s; cbn; [done|]. case_bool_decide; [intros [= <-]; by apply Forall_nil|].
  destruct (c_str l); [|done]. intros [= <-]. constructor; auto.
Qed.

Lemma file_lines (C : Z -> Prop) content :
  Forall C content -> Forall (fun ln => Forall (fun c => c <> 0 /\ C c) (line_str ln)) (getlines content).
Proof.
  intros H%Forall_getlines. eapply Forall_impl; [exact H|]. intros l Hl. apply Forall_and. split; [apply line_str_no_nul|by apply Forall_line_str].
Qed.

(** C12: any HBA file without an equals sign is read to its end within the
    buffers of the parser, whatever is in it and in the name files it refers
    to, name files that include themselves among them; file names are shorter
    than the buffer of dirname. *)
Theorem hba_load_total (fs : list Z -> option (list Z)) (fds : nat) (fn : list Z) (ident : option Ident) :
  (forall n content, fs n = Some content -> zlen n < 1024) ->
  (forall content, fs fn = Some content -> 61 ∉ content) ->
  exists hba, hba_load_rules fs fds fn ident = Ok hba.
Proof.
  intros Hfs Heq. unfold hba_load_rules. destruct fds as [|fds]; [by eexists|]. destruct (fs fn) as [content|] eqn:E; [|by eexists].
  apply (rules_loop_safe (fun c => c <> 0 /\ c <> 61)); [by intros c [? _]|done|by intros c [_ ?]|by eapply Hfs|done|].
  apply (file_lines (fun c => c <> 61)). apply Forall_forall. intros c Hc ->. by apply (Heq content).
Qed.

(** An ident map file is always read to its end, whatever is in it. *)
Theorem ident_load_total (fs : list Z -> option (list Z)) (fds : nat) (fn : option (list Z)) : exists ident, ident_load_map fs fds fn = Ok ident.
Proof.
  unfold ident_load_map. destruct fn as [fn|]; [|by eexists]. destruct fds as [|fds]; [by eexists|]. destruct (fs fn) as [content|]; [|by eexists].
  destruct (maps_loop_safe (fun c => c <> 0 /\ True) ltac:(by intros c [? _]) (getlines content) [] init_parser) as [ident ->]; [done| |by eexists].
  apply (file_lines (fun _ => True)). by apply Forall_forall.
Qed.

(** A rule whose address has bits outside its prefix is for nobody; the code
    only warns about it. *)
Lemma host_bits_match_nothing f text base bits src :
  inet_pton f text = Ok (Some base) -> 0 <= bits <= 8 * Z.of_nat (addr_size f) -> ~ host_bits_zero (addr_size f) base bits ->
  bytes_of (addr_size f) src -> address_match (rule_address (ANet f text base bits)) (PgaInet f src) = false.
Proof.
  intros Ht Hb Hz [_ Hs]. apply not_true_iff_false. destruct (inet_pton_safe f text) as (r & E & Hbase). rewrite Ht in E. injection E as <-.
  destruct (Hbase base eq_refl) as [Hbl Hbb]. destruct (prefix_mask_bits bits) as (_ & Hm & _); [pose proof (addr_size_16 f); lia|]. cbn [rule_address].
  rewrite address_match_masked; [|done|done|done|done|]. 2: by apply (overwrite_bytes (addr_size f)); [apply addr_size_16|].
  cbn [ha_addr ha_mask]. rewrite masked_overwrite, masked_prefix by (done || apply addr_size_16). by intros [_ ?].
Qed.

(** ** A lexer *)





(** ** Examples *)

Module Example.
Definition nm (s : string) : name_word := W (NName false (str s)).

(** A file of seven lines; the users of the fifth are in a file. *)
Definition lines : list (list Z * line_spec) :=
  [ (str "# clients", LEmpty);
    (str "local all all  peer", LRule (mkSpec RULE_LOCAL [W NAll] [W NAll] AAll AUTH_TYPE_PEER None []));
    (34 :: str "x" ++ [34] ++ str " x", LOther [TString (str "x"); TIdent (str "x")]);
    (str "hostssl app," ++ [34] ++ str "my db" ++ [34] ++ str " bob 10.0.0.0/8 cert map=m # office",
     LRule (mkSpec RULE_HOSTSSL [nm "app"; W (NName true (str "my db"))] [nm "bob"] (ANet AF_INET (str "10.0.0.0") [10; 0; 0; 0] 8)
       AUTH_TYPE_CERT (Some (str "m")) []));
    (str "host app @staff 10.0.0.1/8 ldap ldapserver=x",
     LRule (mkSpec RULE_HOST [nm "app"] [WFile (str "staff") [NName false (str "ann"); NName false (str "joe")]]
       (ANet AF_INET (str "10.0.0.1") [10; 0; 0; 1] 8) AUTH_TYPE_LDAP None [TIdent (str "ldapserver=x")]));
    (str "host app @staff all ldap ldapserver=x",
     LRule (mkSpec RULE_HOST [nm "app"] [WFile (str "staff") [NName false (str "ann"); NName false (str "joe")]]
       AAll AUTH_TYPE_LDAP None [TIdent (str "ldapserver=x")]));
    (str "host all all ::/0 reject", LRule (mkSpec RULE_HOST [W NAll] [W NAll] (ANet AF_INET6 (str "::") (replicate 16 0) 0) AUTH_TYPE_REJECT None [])) ].

Definition staff : list (list Z * list name_word) := [(str "ann", [nm "ann"]); (str "joe # temporary", [nm "joe"])].

Definition maps : option Ident := Some [mkIdentMap (str "other") []; mkIdentMap (str "m") []].
Definition files (fn : list Z) : option (list Z) :=
  if bool_decide (fn = str "hba") then Some (file_of lines)
  else if bool_decide (fn = str "staff") then Some (names_file staff) else None.




End Example.


(** ** What the code does with other files *)

Module Findings.
Definition file (text : list Z) : list Z -> option (list Z) := fun _ => Some text.

Definition outcome (hba : res HBARules) (addr : PgAddr) (dbname username : list Z) : res (option (Z * auth_type * option nat)) :=
  hba ← hba;
  Ok (option_map (fun r => (hr_linenr r, hr_method r, hr_identmap r)) (hba_eval hba addr true REPLICATION_NONE dbname username)).

Example office_client :
  outcome (hba_load_rules Example.files 2 (str "hba") Example.maps) (PgaInet AF_INET [10; 1; 2; 3]) (str "my db") (str "bob")
  = Ok (Some (4, AUTH_TYPE_CERT, Some 1%nat)).
Proof. by vm_compute. Qed.

(** The fifth line is for nobody, the sixth for the users in the file. *)
Example staff_client :
  outcome (hba_load_rules Example.files 2 (str "hba") Example.maps) (PgaInet AF_INET [10; 1; 2; 3]) (str "app") (str "joe")
  = Ok (Some (6, AUTH_TYPE_LDAP, None)).
Proof. by vm_compute. Qed.









(** The user column takes the keywords of the database column: a rule for a
    user named replication is for nobody. *)
Example user_column_keywords :
  outcome (hba_load_rules (file (str "local all replication trust")) 1 (str "hba") None) PgaUnix (str "db") (str "replication") = Ok None.
Proof. by vm_compute. Qed.

(** Names on a line of a name file after the first are not read unless there
    are commas between them. *)
Definition name_files (names : list Z) (fn : list Z) : option (list Z) :=
  if bool_decide (fn = str "hba") then Some (str "local all @names trust") else Some names.

Example names_after_space_lost :
  outcome (hba_load_rules (name_files (str "alice bob")) 2 (str "hba") None) PgaUnix (str "db") (str "bob") = Ok None /\
  outcome (hba_load_rules (name_files (str "alice,bob")) 2 (str "hba") None) PgaUnix (str "db") (str "bob") = Ok (Some (1, AUTH_TYPE_TRUST, None)).
Proof. split; by vm_compute. Qed.

(** An empty line in a name file loses the rule. *)
Example empty_line_loses_rule :
  outcome (hba_load_rules (name_files (str "alice" ++ [10; 10] ++ str "bob")) 2 (str "hba") None) PgaUnix (str "db") (str "alice") = Ok None.
Proof. by vm_compute. Qed.

(** A word behind all in an ident map is not noticed. *)
Example ident_word_after_all :
  ident_load_map (file (str "m joe all bob")) 1 (Some (str "ident")) = ident_load_map (file (str "m joe all")) 1 (Some (str "ident")) /\
  ident_load_map (file (str "m joe jim bob")) 1 (Some (str "ident")) = Ok (Some []).
Proof. split; by vm_compute. Qed.

(** A slash without a length is a prefix of no bits. *)
Example empty_prefix_length :
  outcome (hba_load_rules (file (str "host all all 0.0.0.0/ trust")) 1 (str "hba") None) (PgaInet AF_INET [8; 8; 8; 8]) (str "db") (str "bob")
  = Ok (Some (1, AUTH_TYPE_TRUST, None)).
Proof. by vm_compute. Qed.
End Findings.

(** A name file that includes itself. *)
Definition self_include (fn : list Z) : option (list Z) := if bool_decide (fn = str "hba") then Some (str "local @hba all trust") else None.

Lemma hba_load_total_witness : exists hba, hba_load_rules self_include 7 (str "hba") None = Ok hba.
Proof.
  apply (hba_load_total self_include 7 (str "hba") None).
  - intros n content. unfold self_include. case_bool_decide as E; [|done]. intros _. by subst n.
  - intros content [= <-]. apply (bool_decide_unpack _). by vm_compute.
Defined.
