(* ===== verification/Quote.v ===== *)
(** * Quoting of SQL literals (lib/usual/pgutil.c)

    [pg_quote_literal] writes a value as an SQL string literal into a buffer of
    the caller: in single quotes, or as an escape string when the value has a
    backslash.  A write outside the buffer is [Undef].

    What it writes is read back by the lexical rules of PostgreSQL to the
    value, whatever standard_conforming_strings says, and the literal ends where
    the output ends: a parameter value cannot leave its literal. *)

From S2P Require Import Prelude.
From stdpp Require Import base option list strings.
#[local] Open Scope Z_scope.

Definition QUOTE : Z := 39.
Definition BACKSLASH : Z := 92.

(** Storing a byte through dst: [out] is what was written so far. *)
Definition push (dstlen : Z) (out : list Z) (c : Z) : res (list Z) :=
  if bool_decide (zlen out < dstlen) then Ok (out ++ [c]) else Undef.

(** The while loop: None is the jump to retry_ext, otherwise what is left of
    the source and what was written. *)
Fixpoint quote_loop (dstlen : Z) (stdquote : bool) (src out : list Z) : res (option (list Z * list Z)) :=
  match src with
  | [] => Ok (Some ([], out))
  | c :: src' =>
      if bool_decide (zlen out < dstlen - 2) then
        if bool_decide (c = QUOTE) then
          out ← push dstlen out QUOTE; out ← push dstlen out c; quote_loop dstlen stdquote src' out
        else if bool_decide (c = BACKSLASH) then
          if stdquote then Ok None
          else out ← push dstlen out BACKSLASH; out ← push dstlen out c; quote_loop dstlen stdquote src' out
        else out ← push dstlen out c; quote_loop dstlen stdquote src' out
      else Ok (Some (src, out))
  end.

(** The code after the loop; the string the buffer holds, without its NUL. *)
Definition quote_end (dstlen : Z) (src out : list Z) : res (option (list Z)) :=
  if negb (bool_decide (src = [])) || bool_decide (zlen out > dstlen - 2) then Ok None
  else
    out ← push dstlen out QUOTE;
    _ ← push dstlen out 0;
    Ok (Some out).

Definition pg_quote_literal (src : option (list Z)) (dstlen : Z) : res (option (list Z)) :=
  if bool_decide (dstlen < 3) then Ok None
  else
    match src with
    | None => if bool_decide (dstlen < 5) then Ok None else Ok (Some (str "NULL"))
    | Some src =>
        out ← push dstlen [] QUOTE;
        r ← quote_loop dstlen true src out;
        match r with
        | Some (rest, out) => quote_end dstlen rest out
        | None =>
            out ← push dstlen [] 69;
            out ← push dstlen out QUOTE;
            r ← quote_loop dstlen false src out;
            match r with
            | Some (rest, out) => quote_end dstlen rest out
            | None => Undef
            end
        end
    end.

(** ** Literals as PostgreSQL reads them *)

(** The body of a literal after its opening quote: the value and what follows
    the closing quote.  [escapes]: is a backslash special?  Of the escapes only
    those for a backslash and a quote are described here. *)
Fixpoint read_body (escapes : bool) (s : list Z) : option (list Z * list Z) :=
  match s with
  | [] => None
  | c :: s =>
      if bool_decide (c = QUOTE) then
        match s with
        | c' :: s' =>
            if bool_decide (c' = QUOTE) then '(v, rest) ← read_body escapes s'; Some (QUOTE :: v, rest)
            else Some ([], s)
        | [] => Some ([], [])
        end
      else if bool_decide (c = BACKSLASH) && escapes then
        match s with
        | c' :: s' =>
            if bool_decide (c' = BACKSLASH) || bool_decide (c' = QUOTE) then
              '(v, rest) ← read_body escapes s'; Some (c' :: v, rest)
            else None
        | [] => None
        end
      else '(v, rest) ← read_body escapes s; Some (c :: v, rest)
  end.

Definition read_literal (standard_conforming_strings : bool) (s : list Z) : option (list Z * list Z) :=
  match s with
  | c :: s =>
      if bool_decide (c = QUOTE) then read_body (negb standard_conforming_strings) s
      else if bool_decide (c = 69) || bool_decide (c = 101) then
        match s with
        | c' :: s => if bool_decide (c' = QUOTE) then read_body true s else None
        | [] => None
        end
      else None
  | [] => None
  end.

(** ** What is written *)

Definition esc (stdquote : bool) (c : Z) : list Z :=
  if bool_decide (c = QUOTE) then [QUOTE; QUOTE]
  else if bool_decide (c = BACKSLASH) && negb stdquote then [BACKSLASH; BACKSLASH]
  else [c].

Definition escaped (stdquote : bool) (s : list Z) : list Z := s ≫= esc stdquote.

Lemma push_ok n out c : zlen out < n -> push n out c = Ok (out ++ [c]).
Proof. intros. unfold push. by rewrite bool_decide_eq_true_2. Qed.

Lemma escaped_cons q c s : escaped q (c :: s) = esc q c ++ escaped q s.
Proof. done. Qed.

Lemma escaped_app q s t : escaped q (s ++ t) = escaped q s ++ escaped q t.
Proof. apply bind_app. Qed.

Lemma esc_len q c : 1 <= zlen (esc q c) <= 2.
Proof. unfold esc. repeat (destruct (_ : bool)); done. Qed.

(** One round of the loop. *)
Lemma quote_loop_cons n q c s out :
  zlen out < n - 2 -> (q = true -> c <> BACKSLASH) ->
  quote_loop n q (c :: s) out = quote_loop n q s (out ++ esc q c).
Proof.
  intros Hn Hb. cbn [quote_loop]. rewrite bool_decide_eq_true_2 by done. unfold esc.
  assert (Hp : forall c1 c2, (out ← push n out c1; out ← push n out c2; quote_loop n q s out)
                           = quote_loop n q s (out ++ [c1; c2])).
  { intros c1 c2. rewrite push_ok by lia. unfold mbind at 1. cbn. rewrite push_ok by (rewrite zlen_app; unfold zlen at 2; cbn; lia).
    cbn. by rewrite <- app_assoc. }
  case_bool_decide as H1; [subst; apply Hp|]. case_bool_decide as H2.
  - destruct q; [by destruct Hb|]. subst. apply Hp.
  - cbn [andb]. by rewrite push_ok by lia.
Qed.

(** The loop stops at the end of the value or when the buffer is nearly full;
    with plain quotes a backslash in reach stops it too. *)
Lemma quote_loop_run n q s : forall out,
  zlen out <= n - 1 ->
  (exists s1 rest, quote_loop n q s out = Ok (Some (rest, out ++ escaped q s1)) /\ s = s1 ++ rest /\
     zlen (out ++ escaped q s1) <= n - 1 /\ (q = true -> BACKSLASH ∉ s1) /\
     (rest <> [] -> n - 2 <= zlen (out ++ escaped q s1))) \/
  (quote_loop n q s out = Ok None /\ q = true /\ BACKSLASH ∈ s).
Proof.
  induction s as [|c s IH]; intros out Hn.
  { left. exists [], []. cbn. rewrite app_nil_r. split_and!; try done. intros _. apply not_elem_of_nil. }
  destruct (decide (zlen out < n - 2)) as [Hr|Hr].
  - destruct (decide (q = true /\ c = BACKSLASH)) as [[-> ->]|Hc].
    + right. cbn [quote_loop]. rewrite bool_decide_eq_true_2 by done. split_and!; [done..|by left].
    + assert (Hq : q = true -> c <> BACKSLASH) by (intros -> ->; by destruct Hc).
      rewrite quote_loop_cons by done. pose proof (esc_len q c).
      destruct (IH (out ++ esc q c)) as [(s1 & rest & E & -> & Hl & Hb & Hf)|(E & -> & Hb)].
      * rewrite zlen_app. lia.
      * left. exists (c :: s1), rest. rewrite escaped_cons, app_assoc. split_and!; auto.
        intros Hq'. apply not_elem_of_cons. auto.
      * right. split_and!; [done..|by right].
  - left. exists [], (c :: s). cbn [quote_loop]. rewrite bool_decide_eq_false_2 by done. cbn. rewrite app_nil_r.
    split_and!; try done; [|lia]. intros _. apply not_elem_of_nil.
Qed.

Definition literal (s : list Z) : list Z :=
  if bool_decide (BACKSLASH ∈ s) then 69 :: QUOTE :: escaped false s ++ [QUOTE]
  else QUOTE :: escaped true s ++ [QUOTE].

Lemma quote_end_run n s out :
  quote_end n s out = Ok (if bool_decide (s = [] /\ zlen out <= n - 2) then Some (out ++ [QUOTE]) else None).
Proof.
  unfold quote_end. destruct s as [|c s].
  - rewrite (bool_decide_eq_true_2 ([] = [])) by done. cbn [negb orb].
    case_bool_decide as H1; [by rewrite bool_decide_eq_false_2 by lia|]. rewrite bool_decide_eq_true_2 by (split; [done|lia]).
    rewrite push_ok by lia. cbn [mbind res_bind]. rewrite push_ok; [done|]. rewrite zlen_app. unfold zlen at 2. cbn. lia.
  - rewrite (bool_decide_eq_false_2 (c :: s = [])) by done. cbn [negb orb].
    by rewrite bool_decide_eq_false_2 by (by intros [? _]).
Qed.

(** A complete run of the loop, ended or given up. *)
Lemma quote_pass n q s1 rest pre :
  (rest <> [] -> n - 2 <= zlen (pre ++ escaped q s1)) ->
  quote_end n rest (pre ++ escaped q s1) =
    Ok (if bool_decide (zlen (pre ++ escaped q (s1 ++ rest)) <= n - 2) then Some (pre ++ escaped q (s1 ++ rest) ++ [QUOTE]) else None).
Proof.
  intros Hf. rewrite quote_end_run. destruct rest as [|c rest].
  - rewrite app_nil_r, app_assoc. do 2 case_bool_decide; tauto.
  - specialize (Hf ltac:(done)). rewrite bool_decide_eq_false_2 by (by intros [? _]). rewrite bool_decide_eq_false_2; [done|].
    rewrite escaped_app, escaped_cons, !zlen_app in *. pose proof (esc_len q c). pose proof (zlen_nonneg (escaped q rest)). lia.
Qed.

Lemma escaped_longer s : zlen (escaped true s) <= zlen (escaped false s).
Proof.
  induction s as [|c s IH]; [done|]. rewrite !escaped_cons, !zlen_app. assert (zlen (esc true c) <= zlen (esc false c)); [|lia].
  unfold esc. case_bool_decide; [done|]. by case_bool_decide.
Qed.

(** The literal if it fits with its NUL, otherwise failure; never a write
    outside the buffer. *)
Lemma escaped_nonempty q s : s <> [] -> 1 <= zlen (escaped q s).
Proof.
  destruct s as [|c s]; [done|]. intros _. rewrite escaped_cons, zlen_app. pose proof (esc_len q c).
  pose proof (zlen_nonneg (escaped q s)). lia.
Qed.

Lemma ok_bind {A B} (a : A) (f : A -> res B) : (Ok a ≫= f) = f a.
Proof. done. Qed.

Lemma zlen_one (c : Z) : zlen [c] = 1.
Proof. done. Qed.

Lemma pg_quote_literal_run s n :
  pg_quote_literal (Some s) n = Ok (if bool_decide (zlen (literal s) + 1 <= n) then Some (literal s) else None).
Proof.
  assert (Hlen : zlen (literal s) = if bool_decide (BACKSLASH ∈ s) then zlen (escaped false s) + 3 else zlen (escaped true s) + 2).
  { unfold literal. case_bool_decide; rewrite !zlen_cons, zlen_app, zlen_one; lia. }
  pose proof (zlen_nonneg (escaped false s)). pose proof (zlen_nonneg (escaped true s)). pose proof (escaped_longer s).
  rewrite Hlen. unfold pg_quote_literal. destruct (decide (n < 3)) as [H3|H3].
  { rewrite (bool_decide_eq_true_2 _ H3). rewrite (bool_decide_eq_false_2 (_ <= n)); [done|]. destruct (bool_decide (BACKSLASH ∈ s)); lia. }
  rewrite (bool_decide_eq_false_2 _ H3). unfold literal. clear Hlen. rewrite (push_ok n [] QUOTE) by (unfold zlen; cbn; lia). rewrite ok_bind; cbn [app].
  destruct (quote_loop_run n true s [QUOTE]) as [(s1 & rest & -> & Es & _ & Hb & Hf)|(-> & _ & Hb)]; [rewrite zlen_one; lia|..];
    rewrite ok_bind.
  - rewrite quote_pass by done. rewrite <- Es. rewrite !zlen_app, !zlen_one in *. f_equal.
    destruct (decide (BACKSLASH ∈ s)) as [Hin|Hin]; [rewrite !(bool_decide_eq_true_2 _ Hin)|rewrite !(bool_decide_eq_false_2 _ Hin)].
    + assert (Hr : rest <> []) by (intros ->; rewrite app_nil_r in Es; subst; by destruct (Hb eq_refl)).
      specialize (Hf Hr). pose proof (escaped_nonempty true rest Hr).
      assert (zlen (escaped true s) = zlen (escaped true s1) + zlen (escaped true rest)) by (by rewrite Es, escaped_app, zlen_app).
      by rewrite !bool_decide_eq_false_2 by lia.
    + cbn [app]. do 2 case_bool_decide; (done || lia).
  - rewrite (bool_decide_eq_true_2 (_ ∈ _)) by done. rewrite push_ok by (unfold zlen; cbn; lia). rewrite ok_bind; cbn [app].
    rewrite push_ok by (rewrite zlen_one; lia). rewrite ok_bind; cbn [app].
    destruct (quote_loop_run n false s [69; QUOTE]) as [(s1 & rest & -> & Es & _ & _ & Hf)|(_ & ? & _)]; [|..|done].
    { unfold zlen. cbn. lia. }
    rewrite ok_bind. rewrite quote_pass by done. rewrite <- Es. f_equal. cbn [app]. rewrite !zlen_cons.
    do 2 case_bool_decide; (done || lia).
Qed.

(** ** Reading back *)

Lemma read_body_esc e q c s v rest :
  (q = true -> c <> BACKSLASH) -> (q = false -> e = true) ->
  read_body e s = Some (v, rest) -> read_body e (esc q c ++ s) = Some (c :: v, rest).
Proof.
  intros Hq He Hs. unfold esc. case_bool_decide as H1.
  - subst. cbn. by rewrite Hs.
  - case_bool_decide as H2; cbn [andb].
    + destruct q; [by destruct Hq|]. rewrite (He eq_refl) in *. subst. cbn. by rewrite Hs.
    + cbn. rewrite !bool_decide_eq_false_2 by done. cbn. by rewrite Hs.
Qed.

Lemma read_body_escaped e q s rest :
  (q = true -> BACKSLASH ∉ s) -> (q = false -> e = true) -> head rest <> Some QUOTE ->
  read_body e (escaped q s ++ QUOTE :: rest) = Some (s, rest).
Proof.
  intros Hq He Hr. induction s as [|c s IH].
  - cbn. rewrite (bool_decide_eq_true_2 (QUOTE = QUOTE)) by done. destruct rest as [|c rest]; [done|].
    rewrite bool_decide_eq_false_2; [done|]. intros ->. by apply Hr.
  - rewrite escaped_cons, <- app_assoc. apply read_body_esc; [|done|].
    + intros Hq' ->. by apply (Hq Hq'), list_elem_of_here.
    + apply IH. intros Hq' Hin. by apply (Hq Hq'), list_elem_of_further.
Qed.

Lemma read_literal_back scs s rest : head rest <> Some QUOTE -> read_literal scs (literal s ++ rest) = Some (s, rest).
Proof.
  intros Hr. unfold literal. case_bool_decide as Hb; cbn; rewrite <- app_assoc; cbn.
  - by apply read_body_escaped.
  - apply read_body_escaped; [done| |done]. done.
Qed.

(** Quoting a parameter value fits it into the buffer or fails, without a
    write outside it; what it writes is read by PostgreSQL as exactly the
    value, under either setting of standard_conforming_strings, and the literal
    ends where the output ends. *)
Theorem quoted_literal_reads_back s n :
  exists lit, pg_quote_literal (Some s) n = Ok (if bool_decide (zlen lit + 1 <= n) then Some lit else None) /\
    zlen lit <= 2 * zlen s + 3 /\
    forall scs rest, head rest <> Some QUOTE -> read_literal scs (lit ++ rest) = Some (s, rest).
Proof.
  exists (literal s). split; [apply pg_quote_literal_run|]. split.
  - assert (Hz : forall q, zlen (escaped q s) <= 2 * zlen s).
    { intros q. clear. induction s as [|c s IH]; [done|]. rewrite escaped_cons, zlen_app, zlen_cons. pose proof (esc_len q c). lia. }
    unfold literal. case_bool_decide; rewrite !zlen_cons, zlen_app, zlen_one; [specialize (Hz false)|specialize (Hz true)]; lia.
  - intros scs rest. apply read_literal_back.
Qed.

Lemma quoted_literal_reads_back_witness :
  exists lit, pg_quote_literal (Some (str "it's")) 128 = Ok (Some lit) /\ read_literal true (lit ++ [59]) = Some (str "it's", [59]).
Proof.
  destruct (quoted_literal_reads_back (str "it's") 128) as (lit & E & Hl & Hr). exists lit. split; [|apply Hr; done].
  rewrite E. rewrite bool_decide_eq_true_2; [done|].
  assert (zlen (str "it's") = 4) by reflexivity. lia.
Defined.
