(* ===== verification/Varcache.v ===== *)
(** * Server parameters (src/varcache.c, lib/usual/strpool.c)

    Clients and servers each have a cache of the parameters that are tracked,
    with values shared in a pool of reference counted strings.  Before a client
    gets a server, [varcache_apply] sends it the SET and RESET commands that
    bring its parameters to the client's; when they are done
    [varcache_set_canonical] brings the two caches together.

    The store holds the strings of the pool, the tree they are found in (a map
    from text to address here), and the caches: of clients, of servers, and the
    original parameters of a pool.  Following a pointer to a freed string and an
    index outside a cache are [Undef].  Allocation asks [mem]. *)

From S2P Require Import Prelude Protocol MBuf PktBuf Proto Quote.
From stdpp Require Import base option countable gmap list strings.
#[local] Open Scope Z_scope.

(** ** Data *)

Record PStr := mkPStr { pt_str : list Z; pt_refcnt : Z }.

Record var_lookup := mkLookup { vl_name : list Z; vl_idx : nat }.

Record VStore := mkVStore {
  vs_strings : gmap positive PStr;
  vs_tree : gmap (list Z) positive;
  vs_count : Z;
  vs_vpool : bool;
  vs_caches : gmap positive (list (option positive));
  vs_allocs : nat
}.

Definition set_strings m t n σ := mkVStore m t n (vs_vpool σ) (vs_caches σ) (vs_allocs σ).
Definition set_caches c σ := mkVStore (vs_strings σ) (vs_tree σ) (vs_count σ) (vs_vpool σ) c (vs_allocs σ).
Definition set_vpool b σ := mkVStore (vs_strings σ) (vs_tree σ) (vs_count σ) b (vs_caches σ) (vs_allocs σ).

(** Text, compared the way the names of parameters are. *)
Definition tolower (c : Z) : Z := if bool_decide (65 <= c <= 90) then c + 32 else c.
Definition lower (s : list Z) : list Z := tolower <$> s.

Definition find_var (key : list Z) (lookup_map : list var_lookup) : option var_lookup :=
  snd <$> list_find (fun lk => lower (vl_name lk) = lower key) lookup_map.

(** Outcomes of load_parameter: the last two disconnect the server. *)
Inductive load_result := Loaded | LoadWait | LoadBroken | LoadFailed.

(** ** The names that are tracked *)

Definition isspace (c : Z) : bool := bool_decide (c = 32 \/ 9 <= c <= 13).

Fixpoint skip_ws (s : list Z) : list Z :=
  match s with c :: s' => if isspace c then skip_ws s' else s | [] => [] end.

(** The text up to a comma, and what follows the comma. *)
Fixpoint until_comma (s : list Z) : list Z * list Z :=
  match s with
  | [] => ([], [])
  | c :: s => if bool_decide (c = 44) then ([], s) else let '(w, rest) := until_comma s in (c :: w, rest)
  end.

Definition rstrip (s : list Z) : list Z := rev (skip_ws (rev s)).

(** lib/usual/string.c; the length of the text is fuel enough. *)
Fixpoint word_list (fuel : nat) (s : list Z) : list (list Z) :=
  match fuel, s with
  | S fuel, _ :: _ => let '(w, rest) := until_comma (skip_ws s) in rstrip w :: word_list fuel rest
  | _, _ => []
  end.
Definition parse_word_list (s : list Z) : list (list Z) := word_list (length s) s.

Definition static_names : list (list Z) :=
  [str "DateStyle"; str "client_encoding"; str "TimeZone"; str "standard_conforming_strings"; str "application_name";
   str "default_transaction_read_only"; str "IntervalStyle"; str "search_path"; str "scram_iterations";
   str "session_authorization"].

Definition add_name (lookup_map : list var_lookup) (name : list Z) : list var_lookup :=
  match find_var name lookup_map with
  | Some _ => lookup_map
  | None => lookup_map ++ [mkLookup name (length lookup_map)]
  end.

Definition init_var_lookup (cf_track_extra_parameters : list Z) : list var_lookup :=
  foldl add_name (imap (fun i n => mkLookup n i) static_names) (parse_word_list cf_track_extra_parameters).

Section Operations.
Context `{Realloc} (mem : nat -> bool) (lookup_map : list var_lookup).
#[local] Abbreviation M := (SM VStore).

Definition num_var_cached : nat := length lookup_map.

Definition allocate : M bool := fun σ =>
  Ok (mem (vs_allocs σ),
      mkVStore (vs_strings σ) (vs_tree σ) (vs_count σ) (vs_vpool σ) (vs_caches σ) (S (vs_allocs σ))).

(** ** The pool of strings *)

Definition the_string (a : positive) : M PStr := fun σ =>
  match vs_strings σ !! a with Some p => Ok (p, σ) | None => Undef end.

Definition put_refcnt (a : positive) (n : Z) : M unit := fun σ =>
  match vs_strings σ !! a with
  | Some p => Ok (tt, set_strings (<[a := mkPStr (pt_str p) n]> (vs_strings σ)) (vs_tree σ) (vs_count σ) σ)
  | None => Undef
  end.

(** refcnt++, of an int *)
Definition incr_refcnt (a : positive) : M unit :=
  p ← the_string a;
  _ ← lift (if bool_decide (pt_refcnt p < INT_MAX) then Ok tt else Undef);
  put_refcnt a (pt_refcnt p + 1).

(** A new string; the first one of the tree needs no node. *)
Definition add_string (s : list Z) : M (option positive) := fun σ =>
  let a := fresh (dom (vs_strings σ)) in
  Ok (Some a, set_strings (<[a := mkPStr s 1]> (vs_strings σ)) (<[s := a]> (vs_tree σ)) (vs_count σ + 1) σ).

Definition strpool_get (s : list Z) : M (option positive) :=
  σ ← getS;
  match vs_tree σ !! s with
  | Some a => incr_refcnt a ≫= fun _ => mret (Some a)
  | None =>
      ok ← allocate;
      if negb ok then mret None
      else
        ok ← (if bool_decide (vs_tree σ = ∅) then mret true else allocate);
        if negb ok then mret None else add_string s
  end.

Definition strpool_incref (s : option positive) : M unit :=
  match s with
  | None => mret tt
  | Some a => incr_refcnt a
  end.

(** The last reference is gone. *)
Definition drop_string (a : positive) (s : list Z) : M unit := fun σ =>
  Ok (tt, set_strings (delete a (vs_strings σ)) (delete s (vs_tree σ)) (vs_count σ - 1) σ).

Definition strpool_decref (s : option positive) : M unit :=
  match s with
  | None => mret tt
  | Some a =>
      p ← the_string a;
      AssertS (bool_decide (pt_refcnt p > 0)) ≫= fun _ =>
      put_refcnt a (pt_refcnt p - 1) ≫= fun _ =>
      if bool_decide (pt_refcnt p - 1 > 0) then mret tt
      else drop_string a (pt_str p)
  end.

(** ** Caches *)

Definition the_cache (c : positive) : M (list (option positive)) := fun σ =>
  match vs_caches σ !! c with Some l => Ok (l, σ) | None => Undef end.

Definition value_at (l : list (option positive)) (i : nat) : res (option positive) :=
  match l !! i with Some v => Ok v | None => Undef end.

Definition get_value (c : positive) (lk : var_lookup) : M (option positive) :=
  l ← the_cache c; lift (value_at l (vl_idx lk)).

Definition put_value (c : positive) (lk : var_lookup) (v : option positive) : M unit :=
  l ← the_cache c;
  _ ← lift (value_at l (vl_idx lk));
  modS (fun σ => set_caches (<[c := <[vl_idx lk := v]> l]> (vs_caches σ)) σ).

Definition strpool_create : M bool :=
  ok ← allocate;
  if negb ok then mret false
  else
    ok ← allocate;
    if negb ok then mret false else modS (set_vpool true) ≫= fun _ => mret true.

Definition varcache_set (c : positive) (key : list Z) (value : option (list Z)) : M bool :=
  σ ← getS;
  ready ← (if vs_vpool σ then mret true else strpool_create);
  if negb ready then mret false
  else
    match find_var key lookup_map with
    | None => mret false
    | Some lk =>
        old ← get_value c lk;
        strpool_decref old ≫= fun _ =>
        put_value c lk None ≫= fun _ =>
        match value with
        | None => mret false
        | Some value =>
            pstr ← strpool_get value;
            match pstr with
            | None => mret false
            | Some a => put_value c lk (Some a) ≫= fun _ => mret true
            end
        end
    end.

(** The text a pointer of a cache refers to. *)
Definition text_of (v : option positive) : M (option (list Z)) :=
  match v with
  | None => mret None
  | Some a => p ← the_string a; mret (Some (pt_str p))
  end.

Definition variable_is_guc_list_quote (key : list Z) : bool := bool_decide (lower key = str "search_path").

(** The right hand side of SET. *)
Definition set_operand (key cv : list Z) : res (option (list Z)) :=
  if variable_is_guc_list_quote key then Ok (Some (if bool_decide (cv = [34; 34]) then str "''" else cv))
  else pg_quote_literal (Some cv) 128.

Definition set_command (key tmp : list Z) : list Z := str "SET " ++ key ++ str "=" ++ tmp ++ str ";".
Definition reset_command (key : list Z) : list Z := str "RESET " ++ key ++ str ";".

(** The command for one parameter, from the texts of the two values. *)
Definition var_command (key : list Z) (cval sval : option (list Z)) : res (option (list Z)) :=
  match cval with
  | None => Ok (match sval with None => None | Some _ => Some (reset_command key) end)
  | Some cv =>
      if bool_decide (sval = Some cv) then Ok None
      else res_bind _ _ (fun tmp : option (list Z) => Ok (set_command key <$> tmp)) (set_operand key cv)
  end.

(** A command of 300 bytes or more is formatted into allocated memory. *)
Definition command_buffer (cmd : list Z) : M unit :=
  if bool_decide (zlen cmd < 300) then mret tt
  else ok ← allocate; lift (if ok : bool then Ok tt else Fatal).

Definition put_command (pkt : PktBuf) (cmd : list Z) : M PktBuf :=
  command_buffer cmd ≫= fun _ =>
  lift (pktbuf_put_bytes pkt cmd (zlen cmd)).

Definition apply_var (pkt : PktBuf) (key : list Z) (cval sval : option positive) : M (PktBuf * Z) :=
  ctext ← text_of cval;
  stext ← text_of sval;
  cmd ← lift (var_command key ctext stext);
  match cmd with
  | None => mret (pkt, 0)
  | Some cmd => pkt ← put_command pkt cmd; mret (pkt, 1)
  end.

Fixpoint apply_vars (server client : positive) (l : list var_lookup) (pkt : PktBuf) (changes : Z) : M (PktBuf * Z) :=
  match l with
  | [] => mret (pkt, changes)
  | lk :: l =>
      sval ← get_value server lk;
      cval ← get_value client lk;
      '(pkt, n) ← apply_var pkt (vl_name lk) cval sval;
      apply_vars server client l pkt (changes + n)
  end.

(** [pkt] is the buffer pktbuf_temp gives; the answer is what the function
    returns, what it stores in *changes_p, and the packet. *)
Definition varcache_apply (op_send : list Z -> iores) (pkt : PktBuf) (server client : positive) : M (bool * bool * PktBuf) :=
  pkt ← lift (pktbuf_start_packet pkt PqMsg_Query);
  '(pkt, changes) ← apply_vars server client lookup_map pkt 0;
  if bool_decide (changes = 0) then mret (true, false, pkt)
  else
    pkt ← lift (pktbuf_put_char pkt 0);
    pkt ← lift (pktbuf_finish_packet pkt);
    sent ← lift (pktbuf_send_immediate op_send pkt);
    mret (sent, bool_decide (changes > 0), pkt).

Definition canonical_var (server client orig : positive) (lk : var_lookup) : M unit :=
  server_val ← get_value server lk;
  client_val ← get_value client lk;
  orig_val ← get_value orig lk;
  match orig_val with
  | None =>
      if negb (bool_decide (client_val = server_val)) then
        strpool_incref client_val ≫= fun _ =>
        strpool_decref server_val ≫= fun _ =>
        put_value server lk client_val
      else mret tt
  | Some _ =>
      match client_val, server_val with
      | Some _, Some _ =>
          if negb (bool_decide (client_val = server_val)) then
            strpool_incref server_val ≫= fun _ =>
            strpool_decref client_val ≫= fun _ =>
            put_value client lk server_val
          else mret tt
      | Some _, None =>
          strpool_incref client_val ≫= fun _ =>
          put_value server lk client_val
      | None, Some _ =>
          strpool_decref server_val ≫= fun _ =>
          put_value server lk None
      | None, None => mret tt
      end
  end.

Fixpoint each_var (f : var_lookup -> M unit) (l : list var_lookup) : M unit :=
  match l with [] => mret tt | lk :: l => f lk ≫= fun _ => each_var f l end.

Definition varcache_set_canonical (server client orig : positive) : M unit :=
  each_var (canonical_var server client orig) lookup_map.

Definition fill_var (src dst : positive) (lk : var_lookup) : M unit :=
  srcval ← get_value src lk;
  dstval ← get_value dst lk;
  match dstval with
  | None => strpool_incref srcval ≫= fun _ => put_value dst lk srcval
  | Some _ => mret tt
  end.

Definition varcache_fill_unset (src dst : positive) : M unit := each_var (fill_var src dst) lookup_map.

Definition clean_var (c : positive) (i : nat) : M unit :=
  let lk := mkLookup [] i in
  v ← get_value c lk;
  strpool_decref v ≫= fun _ =>
  put_value c lk None.

Fixpoint clean_loop (c : positive) (n i : nat) : M unit :=
  match n with O => mret tt | S n => clean_var c i ≫= fun _ => clean_loop c n (S i) end.

Definition varcache_clean (c : positive) : M unit := clean_loop c num_var_cached 0.

(** The parameters of a client in a startup packet, and as ParameterStatus. *)
Fixpoint put_params (put : PktBuf -> list Z -> list Z -> res PktBuf) (c : positive) (l : list var_lookup) (pkt : PktBuf) : M PktBuf :=
  match l with
  | [] => mret pkt
  | lk :: l =>
      v ← get_value c lk;
      t ← text_of v;
      pkt ← lift (match t with None => Ok pkt | Some t => put pkt (vl_name lk) t end);
      put_params put c l pkt
  end.

Definition varcache_apply_startup (pkt : PktBuf) (client : positive) : M PktBuf :=
  put_params (fun pkt key val => pkt ← pktbuf_put_string pkt key; pktbuf_put_string pkt val) client lookup_map pkt.

Definition varcache_add_params (pkt : PktBuf) (c : positive) : M PktBuf :=
  put_params pktbuf_write_ParameterStatus c lookup_map pkt.

(** [ready]: welcome_msg_ready of the pool; [msg]: its welcome_msg. *)
Definition add_welcome_parameter (ready : bool) (msg : PktBuf) (orig : positive) (key val : list Z) : M (bool * PktBuf) :=
  if ready then mret (true, msg)
  else
    stored ← varcache_set orig key (Some val);
    msg ← lift (if stored : bool then Ok msg else pktbuf_write_ParameterStatus msg key val);
    mret (negb (pb_failed msg), msg).

Definition load_values (server : positive) (link : option positive) (key val : list Z) : M unit :=
  varcache_set server key (Some val) ≫= fun _ =>
  match link with
  | Some client => varcache_set client key (Some val) ≫= fun _ => mret tt
  | None => mret tt
  end.

Definition load_parameter (pkt : PktHdr) (server : positive) (link : option positive) (orig : positive) (ready : bool)
    (msg : PktBuf) (startup : bool) : M (load_result * PktBuf) :=
  if incomplete_pkt pkt then mret (LoadWait, msg)
  else
    '(key, data) ← lift (mbuf_get_string (pkt_data pkt));
    match key with
    | None => mret (LoadBroken, msg)
    | Some key =>
        '(val, _) ← lift (mbuf_get_string data);
        match val with
        | None => mret (LoadBroken, msg)
        | Some val =>
            load_values server link key val ≫= fun _ =>
            if startup then
              '(ok, msg) ← add_welcome_parameter ready msg orig key val;
              mret (if ok : bool then Loaded else LoadFailed, msg)
            else mret (Loaded, msg)
        end
    end.

(** A new socket or pool gets an empty cache; a freed one cleans its cache. *)
Definition new_cache (c : positive) : M unit :=
  modS (fun σ => set_caches (<[c := replicate num_var_cached None]> (vs_caches σ)) σ).
Definition free_cache (c : positive) : M unit :=
  varcache_clean c ≫= fun _ => modS (fun σ => set_caches (delete c (vs_caches σ)) σ).
End Operations.
