(* ===== verification/Params.v ===== *)
(** * What the parameter caches promise

    Strings are freed exactly when nobody refers to them, every operation of
    Varcache.v returns, and on the texts of the values the operations are what
    they are meant to be: updates of one parameter, and bringing the caches of
    a client and a server together.  The commands sent to the server set its
    parameters to the client's. *)

From S2P Require Import Prelude Refs Protocol MBuf PktBuf Quote Varcache.
From stdpp Require Import base option countable gmap list strings.
#[local] Open Scope Z_scope.

(** ** References and texts *)

Definition cache_refs (l : list (option positive)) : list positive := omap id l.
Definition refs (σ : VStore) : list positive := map_to_list (vs_caches σ) ≫= fun p => cache_refs p.2.

Definition text (σ : VStore) (a : positive) : option (list Z) := pt_str <$> vs_strings σ !! a.

(** The values of one parameter in all the caches. *)
Definition column (σ : VStore) (i : nat) : gmap positive (option (list Z)) :=
  omap (fun l => (fun v => v ≫= text σ) <$> l !! i) (vs_caches σ).

(** Reference counts are exact; [held] are references outside the caches. *)
Record VInv (n : nat) (held : list positive) (σ : VStore) : Prop := {
  vi_count a p : vs_strings σ !! a = Some p -> pt_refcnt p = uses a (refs σ ++ held);
  vi_live a : is_Some (vs_strings σ !! a) <-> a ∈ refs σ ++ held;
  vi_tree s a : vs_tree σ !! s = Some a <-> text σ a = Some s;
  vi_total : vs_count σ = Z.of_nat (size (vs_tree σ));
  vi_len c l : vs_caches σ !! c = Some l -> length l = n
}.

Definition opt_list (v : option positive) : list positive := match v with Some a => [a] | None => [] end.

Lemma cache_refs_put l i v w :
  l !! i = Some v -> opt_list v ++ cache_refs (<[i := w]> l) ≡ₚ opt_list w ++ cache_refs l.
Proof.
  intros E. unfold cache_refs. rewrite (insert_take_drop l i w) by (by eapply lookup_lt_Some).
  rewrite <- (take_drop_middle l i v E) at 3. rewrite !omap_app. cbn. destruct v as [a|], w as [b|]; cbn; solve_Permutation.
Qed.

Lemma cache_elem l i a : l !! i = Some (Some a) -> a ∈ cache_refs l.
Proof. intros E. apply list_elem_of_omap. exists (Some a). split; [by eapply list_elem_of_lookup_2|done]. Qed.

Lemma refs_elem σ c l a : vs_caches σ !! c = Some l -> a ∈ cache_refs l -> a ∈ refs σ.
Proof. intros Hc Ha. apply list_elem_of_bind. exists (c, l). split; [done|]. by apply elem_of_map_to_list. Qed.

Lemma column_ext σ σ' i :
  vs_caches σ' = vs_caches σ -> (forall a, a ∈ refs σ -> text σ' a = text σ a) -> column σ' i = column σ i.
Proof.
  intros Hc Ht. unfold column. rewrite Hc. apply map_eq. intros c. rewrite !lookup_omap.
  destruct (vs_caches σ !! c) as [l|] eqn:E; [|done]. cbn. destruct (l !! i) as [[a|]|] eqn:Ei; try done. cbn. f_equal.
  apply Ht. eapply refs_elem; [done|]. by eapply cache_elem.
Qed.

(** Two strings of the pool differ. *)
Lemma text_inj n held σ a b s : VInv n held σ -> text σ a = Some s -> text σ b = Some s -> a = b.
Proof. intros HI Ha Hb. apply (vi_tree _ _ _ HI) in Ha, Hb. congruence. Qed.

Lemma vinv_held n held held' σ : held ≡ₚ held' -> VInv n held σ -> VInv n held' σ.
Proof.
  intros E [H1 H2 H3 H4 H5]. split; auto.
  - intros a p Ha. rewrite (H1 a p Ha). by rewrite E.
  - intros a. rewrite H2. by rewrite E.
Qed.

(** ** The pool of strings *)

Definition recounted (a : positive) (p : PStr) (k : Z) (σ : VStore) : VStore :=
  set_strings (<[a := mkPStr (pt_str p) k]> (vs_strings σ)) (vs_tree σ) (vs_count σ) σ.

Lemma text_recounted a p k σ b : vs_strings σ !! a = Some p -> text (recounted a p k σ) b = text σ b.
Proof.
  intros E. unfold text, recounted. cbn. rewrite lookup_insert. case_decide; [|done]. subst. by rewrite E.
Qed.

Lemma vinv_recount n held held' a p k σ :
  VInv n held σ -> vs_strings σ !! a = Some p -> k = uses a (refs σ ++ held') -> 0 < k ->
  (forall b, b <> a -> uses b held' = uses b held) -> VInv n held' (recounted a p k σ).
Proof.
  intros HI Ha Hk Hpos Ho. assert (Hu : forall b, b <> a -> uses b (refs σ ++ held') = uses b (refs σ ++ held))
    by (intros b Hb; by rewrite !uses_app, Ho).
  split.
  - intros b q Hb. change (refs (recounted a p k σ)) with (refs σ). cbn in Hb. rewrite lookup_insert in Hb.
    case_decide; [injection Hb as <-; by subst|]. rewrite Hu by done. by apply (vi_count _ _ _ HI).
  - intros b. change (refs (recounted a p k σ)) with (refs σ). cbn. rewrite lookup_insert. case_decide.
    + subst b. split; [intros _; apply uses_pos; lia|eauto].
    + rewrite (vi_live _ _ _ HI), !uses_pos. by rewrite Hu.
  - intros s b. rewrite text_recounted by done. apply (vi_tree _ _ _ HI).
  - apply (vi_total _ _ _ HI).
  - apply (vi_len _ _ _ HI).
Qed.

Lemma put_refcnt_run a p k σ :
  vs_strings σ !! a = Some p -> put_refcnt a k σ = Ok (tt, recounted a p k σ).
Proof. intros E. unfold put_refcnt. by rewrite E. Qed.

Lemma the_string_run a p σ : vs_strings σ !! a = Some p -> the_string a σ = Ok (p, σ).
Proof. intros E. unfold the_string. by rewrite E. Qed.

Lemma incr_refcnt_good n held σ a :
  VInv n held σ -> is_Some (vs_strings σ !! a) -> zlen (refs σ ++ held) < INT_MAX ->
  good (incr_refcnt a) (fun _ σ' => vs_caches σ' = vs_caches σ /\ VInv n (a :: held) σ' /\ forall b, text σ' b = text σ b) σ.
Proof.
  intros HI [p Hp] Hz. pose proof (vi_count _ _ _ HI a p Hp) as Hc. pose proof (uses_le a (refs σ ++ held)).
  pose proof (uses_nonneg a (refs σ ++ held)). exists tt, (recounted a p (pt_refcnt p + 1) σ). unfold incr_refcnt.
  rewrite (SM_bind_eq _ _ _ _ _ (the_string_run a p σ Hp)). rewrite bool_decide_eq_true_2 by lia. rewrite bind_lift_ok.
  split; [by apply put_refcnt_run|]. split; [done|]. split; [|intros; by apply text_recounted].
  apply (vinv_recount n held); auto.
  - rewrite Hc, !uses_app, uses_cons, decide_True by done. lia.
  - lia.
  - intros b Hb. by rewrite uses_cons, decide_False.
Qed.

Lemma incref_good n held σ v :
  VInv n held σ -> (forall a, v = Some a -> is_Some (vs_strings σ !! a)) -> zlen (refs σ ++ held) < INT_MAX ->
  good (strpool_incref v) (fun _ σ' => vs_caches σ' = vs_caches σ /\ VInv n (opt_list v ++ held) σ' /\
    forall a, text σ' a = text σ a) σ.
Proof. intros HI Hv Hz. destruct v as [a|]; [|by apply good_ret]. apply incr_refcnt_good; auto. Qed.

Lemma drop_string_inv n held σ a p :
  VInv n (a :: held) σ -> vs_strings σ !! a = Some p -> pt_refcnt p = 1 ->
  let σ' := set_strings (delete a (vs_strings σ)) (delete (pt_str p) (vs_tree σ)) (vs_count σ - 1) σ in
  VInv n held σ' /\ forall b, b ∈ refs σ ++ held -> text σ' b = text σ b.
Proof.
  intros HI Hp H1 σ'. pose proof (vi_count _ _ _ HI a p Hp) as Hc.
  assert (Hz : uses a (refs σ ++ held) = 0).
  { rewrite !uses_app in *. rewrite uses_cons, decide_True in Hc by done. lia. }
  assert (Hu : forall b, b <> a -> uses b (refs σ ++ a :: held) = uses b (refs σ ++ held)).
  { intros b Hb. by rewrite !uses_app, uses_cons, decide_False. }
  assert (Ht : forall b, b <> a -> text σ' b = text σ b).
  { intros b Hb. unfold text. cbn. by rewrite lookup_delete_ne. }
  assert (Ha : text σ a = Some (pt_str p)) by (unfold text; by rewrite Hp). split; [split|].
  - intros b q Hb. change (refs σ') with (refs σ). cbn in Hb. apply lookup_delete_Some in Hb as [Hne Hb].
    rewrite <- Hu by done. by apply (vi_count _ _ _ HI).
  - intros b. change (refs σ') with (refs σ). cbn. destruct (decide (b = a)) as [->|Hne].
    + rewrite lookup_delete_eq. split; [by intros []|]. rewrite uses_pos. lia.
    + rewrite lookup_delete_ne by done. rewrite (vi_live _ _ _ HI), !uses_pos. by rewrite Hu.
  - intros s b. change (vs_tree σ') with (delete (pt_str p) (vs_tree σ)). rewrite lookup_delete_Some, (vi_tree _ _ _ HI).
    destruct (decide (b = a)) as [->|Hne].
    + split; [intros [Hs ?]; congruence|]. unfold text. cbn. by rewrite lookup_delete_eq.
    + rewrite Ht by done. split; [by intros [_ ?]|]. intros Hb. split; [|done]. intros <-. apply Hne.
      by eapply text_inj.
  - cbn. rewrite (vi_total _ _ _ HI). apply (vi_tree _ _ _ HI) in Ha. rewrite map_size_delete, Ha. cbn.
    assert (0 < size (vs_tree σ))%nat; [|lia]. apply map_size_ne_0_lookup in Ha as Hsz || apply Nat.neq_0_lt_0; intros Hs.
    apply map_size_empty_iff in Hs. rewrite Hs in Ha. by rewrite lookup_empty in Ha.
  - apply (vi_len _ _ _ HI).
  - intros b Hb. apply Ht. intros ->. rewrite uses_pos in Hb. lia.
Qed.

Lemma decref_good n held σ v :
  VInv n (opt_list v ++ held) σ ->
  good (strpool_decref v) (fun _ σ' => vs_caches σ' = vs_caches σ /\ VInv n held σ' /\
    forall a, a ∈ refs σ ++ held -> text σ' a = text σ a) σ.
Proof.
  intros HI. destruct v as [a|]; [|by apply good_ret]. cbn in HI.
  assert (Hin : a ∈ refs σ ++ a :: held) by (apply elem_of_app; right; by left).
  apply (vi_live _ _ _ HI) in Hin as [p Hp]. pose proof (vi_count _ _ _ HI a p Hp) as Hc.
  assert (Hc' : pt_refcnt p = 1 + uses a (refs σ ++ held)).
  { rewrite Hc, !uses_app, uses_cons, decide_True by done. lia. }
  pose proof (uses_nonneg a (refs σ ++ held)). unfold good, strpool_decref.
  rewrite (SM_bind_eq _ _ _ _ _ (the_string_run a p σ Hp)). rewrite (bool_decide_eq_true_2 (pt_refcnt p > 0)) by lia. rewrite bind_assert.
  rewrite (SM_bind_eq _ _ _ _ _ (put_refcnt_run a p _ σ Hp)). case_bool_decide as Hk.
  - exists tt, (recounted a p (pt_refcnt p - 1) σ). split; [done|]. split; [done|]. split; [|intros; by apply text_recounted].
    apply (vinv_recount n (a :: held)); auto; try lia. intros b Hb. by rewrite uses_cons, decide_False.
  - destruct (drop_string_inv n held σ a p HI Hp ltac:(lia)) as [HI' Ht'].
    assert (E : drop_string a (pt_str p) (recounted a p (pt_refcnt p - 1) σ)
      = Ok (tt, set_strings (delete a (vs_strings σ)) (delete (pt_str p) (vs_tree σ)) (vs_count σ - 1) σ)).
    { unfold drop_string, recounted. cbn. by rewrite delete_insert_eq. }
    exact (ex_intro _ tt (ex_intro _ _ (conj E (conj eq_refl (conj HI' Ht'))))).
Qed.

Lemma add_string_good n held σ s :
  VInv n held σ -> vs_tree σ !! s = None ->
  good (add_string s) (fun r σ' => vs_caches σ' = vs_caches σ /\ (forall b, b ∈ refs σ ++ held -> text σ' b = text σ b) /\
    exists a, r = Some a /\ VInv n (a :: held) σ' /\ text σ' a = Some s) σ.
Proof.
  intros HI Hs. 
  assert (Ha : vs_strings σ !! fresh (dom (vs_strings σ)) = None) by (apply not_elem_of_dom, is_fresh).
  eexists _, _. split; [done|]. revert Ha. generalize (fresh (dom (vs_strings σ))). intros a Ha.
  set (σ' := set_strings _ _ _ _).
  assert (Hna : a ∉ refs σ ++ held) by (rewrite <- (vi_live _ _ _ HI); by rewrite Ha; intros []).
  assert (Hz : uses a (refs σ ++ held) = 0) by (rewrite uses_pos in Hna; pose proof (uses_nonneg a (refs σ ++ held)); lia).
  assert (Ht : forall b, b <> a -> text σ' b = text σ b) by (intros b Hb; unfold text; cbn; by rewrite lookup_insert_ne).
  assert (Hta : text σ' a = Some s) by (unfold text; cbn; by rewrite lookup_insert_eq).
  assert (Hu : forall b, b <> a -> uses b (refs σ ++ a :: held) = uses b (refs σ ++ held)).
  { intros b Hb. by rewrite !uses_app, uses_cons, decide_False. }
  split; [done|]. split; [intros b Hb; apply Ht; by intros ->|]. exists a. split; [done|]. split; [|done]. split.
  - intros b q Hb. change (refs σ') with (refs σ). cbn in Hb. rewrite lookup_insert in Hb. case_decide.
    + subst b. injection Hb as <-. cbn. rewrite !uses_app, uses_cons, decide_True by done. rewrite uses_app in Hz. lia.
    + rewrite Hu by done. by apply (vi_count _ _ _ HI).
  - intros b. change (refs σ') with (refs σ). cbn. rewrite lookup_insert. case_decide.
    + subst b. split; [|eauto]. intros _. apply elem_of_app. right. by left.
    + rewrite (vi_live _ _ _ HI), !uses_pos. by rewrite Hu.
  - intros t b. change (vs_tree σ') with (<[s := a]> (vs_tree σ)). rewrite lookup_insert.
    destruct (decide (b = a)) as [->|Hne].
    + rewrite Hta. case_decide; [by subst|]. rewrite (vi_tree _ _ _ HI). unfold text. rewrite Ha. split; [done|congruence].
    + rewrite Ht by done. case_decide; [|apply (vi_tree _ _ _ HI)]. subst t. rewrite <- (vi_tree _ _ _ HI), Hs.
      split; [congruence|done].
  - cbn. rewrite (vi_total _ _ _ HI), map_size_insert, Hs. cbn. lia.
  - apply (vi_len _ _ _ HI).
Qed.

Section Pool.
Context (mem : nat -> bool).

Lemma allocate_vinv n held σ :
  VInv n held σ -> good (allocate mem) (fun ok σ' => vs_caches σ' = vs_caches σ /\ vs_tree σ' = vs_tree σ /\ VInv n held σ' /\
    (forall b, text σ' b = text σ b) /\ (ok = false -> exists k, mem k = false)) σ.
Proof.
  intros []. eexists _, _. split; [done|]. split; [done|]. split; [done|]. split; [by split|]. split; [done|].
  intros E. by eexists.
Qed.

Lemma strpool_get_good n held σ s :
  VInv n held σ -> zlen (refs σ ++ held) < INT_MAX ->
  good (strpool_get mem s) (fun r σ' => vs_caches σ' = vs_caches σ /\ VInv n (opt_list r ++ held) σ' /\
    (forall b, b ∈ refs σ ++ held -> text σ' b = text σ b) /\ (r ≫= text σ' = Some s \/ r = None /\ exists k, mem k = false)) σ.
Proof.
  intros HI Hz. unfold strpool_get, good. rewrite bind_getS. change (good ?m ?Q σ) with (good m Q σ).
  destruct (vs_tree σ !! s) as [a|] eqn:Es.
  - pose proof Es as Ht. apply (vi_tree _ _ _ HI) in Ht. eapply good_bind.
    { apply (incr_refcnt_good n held); [done| |done]. unfold text in Ht. by destruct (vs_strings σ !! a). }
    intros _ σ' (Hc & HI' & Hk). apply good_ret. split_and!; auto. left. cbn. by rewrite Hk.
  - eapply good_bind; [by apply (allocate_vinv n held)|]. intros ok σ1 (Hc1 & Ht1 & HI1 & Hk1 & Hm1).
    assert (Hr : refs σ1 = refs σ) by (unfold refs; by rewrite Hc1).
    destruct ok; cbn [negb]; [|apply good_ret; split_and!; auto].
    eapply (good_bind _ _ (fun ok σ' => vs_caches σ' = vs_caches σ /\ vs_tree σ' = vs_tree σ /\ VInv n held σ' /\
      (forall b, text σ' b = text σ b) /\ (ok = false -> exists k, mem k = false))).
    { case_bool_decide; [by apply good_ret|]. eapply good_conseq; [by apply (allocate_vinv n held)|].
      intros ok σ2 (Hc2 & Ht2 & HI2 & Hk2 & Hm2). split_and!; auto; try congruence. }
    intros ok2 σ2 (Hc2 & Ht2 & HI2 & Hk2 & Hm2). destruct ok2; cbn [negb]; [|apply good_ret; split_and!; auto].
    assert (Hr2 : refs σ2 = refs σ) by (unfold refs; by rewrite Hc2).
    eapply good_conseq; [apply (add_string_good n held); [done|congruence]|].
    intros r σ3 (Hc3 & Hk3 & a & -> & HI3 & Ha). split_and!; auto; [congruence|]. intros b Hb. rewrite Hk3 by (by rewrite Hr2). auto.
Qed.
End Pool.

(** ** Slots *)

Definition slot (σ : VStore) (c : positive) (i : nat) (v : option positive) : Prop :=
  exists l, vs_caches σ !! c = Some l /\ l !! i = Some v.

Definition put_slot (c : positive) (i : nat) (w : option positive) (σ : VStore) : VStore :=
  set_caches (alter (fun l => <[i := w]> l) c (vs_caches σ)) σ.

Lemma get_value_run σ c lk v : slot σ c (vl_idx lk) v -> get_value c lk σ = Ok (v, σ).
Proof.
  intros (l & Hc & Hi). unfold get_value, the_cache, mbind, SM_bind. rewrite Hc. unfold lift, value_at. by rewrite Hi.
Qed.

Lemma put_value_run σ c lk v w : slot σ c (vl_idx lk) v -> put_value c lk w σ = Ok (tt, put_slot c (vl_idx lk) w σ).
Proof.
  intros (l & Hc & Hi). unfold put_value, the_cache, mbind, SM_bind. rewrite Hc. unfold lift, value_at. rewrite Hi.
  unfold modS, put_slot. do 3 f_equal. symmetry. apply map_eq. intros c'. rewrite lookup_insert.
  case_decide; [subst; by rewrite lookup_alter_eq, Hc|by rewrite lookup_alter_ne].
Qed.

Lemma refs_put_slot σ c i v w :
  slot σ c i v -> opt_list v ++ refs (put_slot c i w σ) ≡ₚ opt_list w ++ refs σ.
Proof.
  intros (l & Hc & Hi). unfold refs, put_slot. cbn.
  assert (E : alter (fun l => <[i := w]> l) c (vs_caches σ) = <[c := <[i := w]> l]> (vs_caches σ)).
  { apply map_eq. intros c'. rewrite lookup_insert. case_decide; [subst; by rewrite lookup_alter_eq, Hc|by rewrite lookup_alter_ne]. }
  rewrite E, refs_put, (refs_take cache_refs (vs_caches σ) c l Hc), !app_assoc. f_equiv. by apply cache_refs_put.
Qed.

Lemma put_slot_inv n held σ c i v w :
  VInv n (opt_list w ++ held) σ -> slot σ c i v -> VInv n (opt_list v ++ held) (put_slot c i w σ).
Proof.
  intros HI Hs. assert (Hp : refs (put_slot c i w σ) ++ opt_list v ++ held ≡ₚ refs σ ++ opt_list w ++ held).
  { rewrite !app_assoc. f_equiv. rewrite (Permutation_app_comm _ (opt_list v)), (Permutation_app_comm _ (opt_list w)).
    by apply refs_put_slot. }
  destruct HI as [H1 H2 H3 H4 H5]. split; auto.
  - intros a p Ha. rewrite Hp. by apply H1.
  - intros a. rewrite Hp. apply H2.
  - intros c' l'. unfold put_slot. cbn. destruct (decide (c' = c)) as [->|]; [|rewrite lookup_alter_ne by done; apply H5].
    rewrite lookup_alter_eq. intros (l & Hl & ->)%fmap_Some. rewrite length_insert. by eapply H5.
Qed.

Lemma column_put_slot σ c i j v w :
  slot σ c i v ->
  column (put_slot c i w σ) j = if decide (j = i) then <[c := w ≫= text σ]> (column σ j) else column σ j.
Proof.
  intros (l & Hc & Hi). apply map_eq. intros c'. unfold column, put_slot. cbn. rewrite lookup_omap.
  pose proof (lookup_lt_Some _ _ _ Hi) as Hlt. destruct (decide (c' = c)) as [->|Hne].
  - rewrite lookup_alter_eq, Hc. cbn. case_decide; subst.
    + by rewrite lookup_insert_eq, list_lookup_insert_eq.
    + by rewrite lookup_omap, Hc, list_lookup_insert_ne.
  - rewrite lookup_alter_ne by done. case_decide; [|by rewrite lookup_omap]. by rewrite lookup_insert_ne, lookup_omap.
Qed.

(** The code drops the old reference before it overwrites the slot. *)
Lemma decref_put σ c lk v u w :
  slot σ c (vl_idx lk) u ->
  (strpool_decref v ≫= fun _ => put_value c lk w) σ = (put_value c lk w ≫= fun _ => strpool_decref v) σ.
Proof.
  intros Hs. rewrite (SM_bind_eq _ _ _ _ _ (put_value_run σ c lk u w Hs)).
  destruct v as [a|]; [|cbn [strpool_decref]; by rewrite bind_ret, (put_value_run σ c lk u w Hs)].
  unfold strpool_decref. destruct (vs_strings σ !! a) as [p|] eqn:Ha.
  2: { unfold mbind, SM_bind, the_string, put_slot. cbn. by rewrite Ha. }
  set (σ1 := put_slot c (vl_idx lk) w σ). assert (Ha1 : vs_strings σ1 !! a = Some p) by done.
  rewrite (SM_bind_eq _ _ _ _ _ (the_string_run a p σ1 Ha1)). rewrite !SM_assoc.
  rewrite (SM_bind_eq _ _ _ _ _ (the_string_run a p σ Ha)). destruct (bool_decide (pt_refcnt p > 0)); [|done].
  rewrite !SM_assoc, !bind_assert.
  rewrite (SM_bind_eq _ _ _ _ _ (put_refcnt_run a p _ σ1 Ha1)). rewrite !SM_assoc.
  rewrite (SM_bind_eq _ _ _ _ _ (put_refcnt_run a p _ σ Ha)). case_bool_decide.
  - rewrite bind_ret. by rewrite (put_value_run _ c lk u w).
  - unfold drop_string, mbind at 1, SM_bind at 1. by rewrite (put_value_run _ c lk u w).
Qed.

(** ** Operations on one parameter *)

(** The values of parameter [i] changed by [f], the others not at all. *)
Definition changes (i : nat) (f : gmap positive (option (list Z)) -> gmap positive (option (list Z))) (σ σ' : VStore) : Prop :=
  forall j, column σ' j = if decide (j = i) then f (column σ j) else column σ j.

Section Columns.
Context (n : nat) (D : gset positive) (room : Z.of_nat (size D) * Z.of_nat n < INT_MAX).

Definition Inv (σ : VStore) : Prop := VInv n [] σ /\ dom (vs_caches σ) = D.

Lemma refs_bound σ held : VInv n held σ -> dom (vs_caches σ) = D -> zlen (refs σ) <= Z.of_nat (size D) * Z.of_nat n.
Proof.
  intros HI HD. rewrite <- HD, size_dom, <- length_map_to_list. unfold refs. clear room HD. pose proof (vi_len _ _ _ HI) as Hl.
  assert (Hall : Forall (fun p : positive * list (option positive) => length p.2 = n) (map_to_list (vs_caches σ))).
  { apply Forall_forall. intros [c l] Hc%elem_of_map_to_list. by eapply Hl. }
  induction Hall as [|[c l] L Hx _ IH]; [unfold zlen; cbn; lia|]. cbn [length]. rewrite bind_cons, zlen_app.
  cbn [snd] in *.
  assert (zlen (cache_refs l) <= Z.of_nat n); [|lia]. rewrite <- Hx. clear.
  induction l as [|[a|] l IH]; unfold cache_refs, zlen in *; cbn in *; lia.
Qed.

Lemma dom_put_slot c i w σ : dom (vs_caches (put_slot c i w σ)) = dom (vs_caches σ).
Proof. unfold put_slot. cbn. apply dom_alter_L. Qed.

Lemma slot_exists σ c i : Inv σ -> c ∈ D -> (i < n)%nat -> exists v, slot σ c i v.
Proof.
  intros [HI HD] Hc Hi. rewrite <- HD in Hc. apply elem_of_dom in Hc as [l Hl].
  destruct (lookup_lt_is_Some_2 l i) as [v Hv]; [by rewrite (vi_len _ _ _ HI c l Hl)|]. by exists v, l.
Qed.

Lemma slot_live held σ c i a : VInv n held σ -> slot σ c i (Some a) -> is_Some (vs_strings σ !! a).
Proof.
  intros HI (l & Hc & Hi). apply (vi_live _ _ _ HI), elem_of_app. left. eapply refs_elem; [done|]. by eapply cache_elem.
Qed.

Lemma slot_column σ c i v : slot σ c i v -> column σ i !! c = Some (v ≫= text σ).
Proof. intros (l & Hc & Hi). unfold column. by rewrite lookup_omap, Hc; cbn; rewrite Hi. Qed.

Lemma slot_text held σ c i a : VInv n held σ -> slot σ c i (Some a) -> exists t, Some a ≫= text σ = Some t.
Proof. intros HI Hs. destruct (slot_live _ _ _ _ _ HI Hs) as [p Hp]. exists (pt_str p). cbn. unfold text. by rewrite Hp. Qed.

(** Give up [v], the value of a slot, and store [w] there, a reference that
    is held. *)
Lemma swap_good σ c lk v w :
  VInv n (opt_list w) σ -> dom (vs_caches σ) = D -> slot σ c (vl_idx lk) v ->
  good (strpool_decref v ≫= fun _ => put_value c lk w)
    (fun _ σ' => Inv σ' /\ changes (vl_idx lk) (fun col => <[c := w ≫= text σ]> col) σ σ') σ.
Proof.
  intros HI HD Hs. unfold good. rewrite (decref_put σ c lk v v w Hs).
  rewrite (SM_bind_eq _ _ _ _ _ (put_value_run σ c lk v w Hs)). set (σ1 := put_slot c (vl_idx lk) w σ).
  assert (HI1 : VInv n (opt_list v ++ []) σ1) by (apply (put_slot_inv n [] σ c (vl_idx lk) v w); by rewrite ?app_nil_r).
  change (good (strpool_decref v) (fun _ σ' => Inv σ' /\ changes (vl_idx lk) (fun col => <[c := w ≫= text σ]> col) σ σ') σ1).
  eapply good_conseq; [by apply (decref_good n [])|]. intros _ σ' (Hc & HI' & Ht). split.
  - split; [done|]. rewrite Hc. by unfold σ1; rewrite dom_put_slot.
  - intros j. rewrite (column_ext σ1 σ' j Hc); [by apply (column_put_slot σ c (vl_idx lk) j v w)|].
    intros a Ha. apply Ht. by rewrite app_nil_r.
Qed.

Lemma changes_id f σ i : f (column σ i) = column σ i -> changes i f σ σ.
Proof. intros E j. case_decide; [by subst|done]. Qed.

Lemma changes_ext i f g σ σ' : f (column σ i) = g (column σ i) -> changes i f σ σ' -> changes i g σ σ'.
Proof. intros E H j. rewrite H. case_decide; [by subst|done]. Qed.

Lemma changes_trans i f g σ σ1 σ2 : changes i f σ σ1 -> changes i g σ1 σ2 -> changes i (fun col => g (f col)) σ σ2.
Proof. intros H1 H2 j. rewrite H2, H1. by case_decide. Qed.

(** Store in a slot another reference to a value of a cache. *)
Lemma share_good σ c lk v c' i' w :
  Inv σ -> slot σ c (vl_idx lk) v -> slot σ c' i' w ->
  good (strpool_incref w ≫= fun _ => strpool_decref v ≫= fun _ => put_value c lk w)
    (fun _ σ' => Inv σ' /\ changes (vl_idx lk) (fun col => <[c := w ≫= text σ]> col) σ σ') σ.
Proof using room.
  intros [HI HD] Hv Hw. pose proof (refs_bound σ [] HI HD). eapply good_bind.
  { apply (incref_good n []); [done| |by rewrite app_nil_r; lia]. intros a ->. by eapply slot_live. }
  intros _ σ1 (Hc & HI1 & Ht). rewrite app_nil_r in HI1. eapply good_conseq.
  { apply (swap_good σ1 c lk v w); [done|by rewrite Hc|]. destruct Hv as (l & ?). exists l. by rewrite Hc. }
  intros _ σ' [HI' Hch]. split; [done|]. intros j. rewrite Hch.
  assert (E : column σ1 j = column σ j) by (apply column_ext; auto). rewrite E.
  destruct w as [a|]; cbn; by rewrite ?Ht.
Qed.

(** ** The two caches brought together *)

Definition canon (server client orig : positive) (col : gmap positive (option (list Z))) : gmap positive (option (list Z)) :=
  match col !! server, col !! client, col !! orig with
  | Some sv, Some cv, Some ov =>
      match ov, cv, sv with
      | Some _, Some _, Some _ => <[client := sv]> col
      | _, _, _ => <[server := cv]> col
      end
  | _, _, _ => col
  end.

Lemma canonical_var_good σ s c o lk :
  Inv σ -> s ∈ D -> c ∈ D -> o ∈ D -> (vl_idx lk < n)%nat ->
  good (canonical_var s c o lk) (fun _ σ' => Inv σ' /\ changes (vl_idx lk) (canon s c o) σ σ') σ.
Proof using room.
  intros HI Hs Hc Ho Hi. destruct (slot_exists σ s (vl_idx lk)) as [sv Hsv], (slot_exists σ c (vl_idx lk)) as [cv Hcv],
    (slot_exists σ o (vl_idx lk)) as [ov Hov]; auto.
  pose proof (slot_column _ _ _ _ Hsv) as Es. pose proof (slot_column _ _ _ _ Hcv) as Ec. pose proof (slot_column _ _ _ _ Hov) as Eo.
  assert (Hcan : canon s c o (column σ (vl_idx lk)) = match ov, cv, sv with
    | Some _, Some _, Some _ => <[c := sv ≫= text σ]> (column σ (vl_idx lk))
    | _, _, _ => <[s := cv ≫= text σ]> (column σ (vl_idx lk)) end).
  { unfold canon. rewrite Es, Ec, Eo. destruct HI as [HI _]. destruct ov as [oa|]; [|done].
    destruct (slot_text _ _ _ _ _ HI Hov) as [? ->]. destruct cv as [ca|]; [|done].
    destruct (slot_text _ _ _ _ _ HI Hcv) as [? ->]. destruct sv as [sa|]; [|done].
    by destruct (slot_text _ _ _ _ _ HI Hsv) as [? ->]. }
  unfold canonical_var, good.
  rewrite (SM_bind_eq _ _ _ _ _ (get_value_run _ _ _ _ Hsv)), (SM_bind_eq _ _ _ _ _ (get_value_run _ _ _ _ Hcv)),
    (SM_bind_eq _ _ _ _ _ (get_value_run _ _ _ _ Hov)).
  match goal with |- exists a s', ?m σ = _ /\ _ => change (good m (fun _ σ' => Inv σ' /\ changes (vl_idx lk) (canon s c o) σ σ') σ) end.
  assert (Hsame : good (mret tt) (fun _ σ' => Inv σ' /\ changes (vl_idx lk) (canon s c o) σ σ') σ \/ cv <> sv).
  { destruct (decide (cv = sv)) as [->|]; [left|by right]. apply good_ret. split; [done|]. apply changes_id. rewrite Hcan.
    by destruct ov, sv; rewrite insert_id. }
  destruct ov as [oa|]; [destruct cv as [ca|], sv as [sa|]|]; cbn [strpool_incref].
  - case_bool_decide as E; [destruct Hsame; [done|congruence]|]. cbn [negb].
    eapply good_conseq; [by apply (share_good σ c lk (Some ca) s (vl_idx lk) (Some sa))|]. intros _ σ' [? Hch]. split; [done|].
    by eapply changes_ext.
  - eapply good_conseq; [by apply (share_good σ s lk None c (vl_idx lk) (Some ca))|]. intros _ σ' [? Hch]. split; [done|].
    by eapply changes_ext.
  - eapply good_conseq; [apply (swap_good σ s lk (Some sa) None); [by destruct HI..|done]|].
    intros _ σ' [? Hch]. split; [done|]. by eapply changes_ext.
  - destruct Hsame; [done|congruence].
  - case_bool_decide as E; [destruct Hsame; [done|congruence]|]. cbn [negb].
    eapply good_conseq; [by apply (share_good σ s lk sv c (vl_idx lk) cv)|]. intros _ σ' [? Hch]. split; [done|].
    by eapply changes_ext.
Qed.

Definition filled (src dst : positive) (col : gmap positive (option (list Z))) : gmap positive (option (list Z)) :=
  match col !! dst, col !! src with
  | Some None, Some v => <[dst := v]> col
  | _, _ => col
  end.

Lemma fill_var_good σ src dst lk :
  Inv σ -> src ∈ D -> dst ∈ D -> (vl_idx lk < n)%nat ->
  good (fill_var src dst lk) (fun _ σ' => Inv σ' /\ changes (vl_idx lk) (filled src dst) σ σ') σ.
Proof using room.
  intros HI Hs Hd Hi. destruct (slot_exists σ src (vl_idx lk)) as [sv Hsv], (slot_exists σ dst (vl_idx lk)) as [dv Hdv]; auto.
  pose proof (slot_column _ _ _ _ Hsv) as Es. pose proof (slot_column _ _ _ _ Hdv) as Ed. unfold fill_var, good.
  rewrite (SM_bind_eq _ _ _ _ _ (get_value_run _ _ _ _ Hsv)), (SM_bind_eq _ _ _ _ _ (get_value_run _ _ _ _ Hdv)).
  destruct dv as [a|].
  - eexists _, _. split; [done|]. split; [done|]. apply changes_id. unfold filled. rewrite Ed.
    by destruct (slot_text _ _ _ _ _ (proj1 HI) Hdv) as [? ->].
  - destruct (share_good σ dst lk None src (vl_idx lk) sv) as (x & σ' & E & HI' & Hch); auto. exists x, σ'. split; [done|].
    split; [done|]. eapply changes_ext; [|done]. cbn. unfold filled. by rewrite Ed, Es.
Qed.

Lemma clear_slot_good σ c lk v :
  Inv σ -> slot σ c (vl_idx lk) v ->
  good (strpool_decref v ≫= fun _ => put_value c lk None)
    (fun _ σ' => Inv σ' /\ changes (vl_idx lk) (fun col => <[c := None]> col) σ σ') σ.
Proof. intros [HI HD] Hs. by apply (swap_good σ c lk v None). Qed.

Lemma clean_var_good σ c i :
  Inv σ -> c ∈ D -> (i < n)%nat -> good (clean_var c i) (fun _ σ' => Inv σ' /\ changes i (fun col => <[c := None]> col) σ σ') σ.
Proof.
  intros HI Hc Hi. destruct (slot_exists σ c i) as [v Hv]; auto. unfold clean_var, good.
  rewrite (SM_bind_eq _ _ _ _ _ (get_value_run σ c (mkLookup [] i) v Hv)). by apply (clear_slot_good σ c (mkLookup [] i) v).
Qed.

(** ** All parameters *)

Definition all_changed (idx : list nat) f (σ σ' : VStore) : Prop :=
  forall j, column σ' j = if decide (j ∈ idx) then f (column σ j) else column σ j.

Lemma each_var_good f g l :
  (forall σ lk, Inv σ -> lk ∈ l -> good (f lk) (fun _ σ' => Inv σ' /\ changes (vl_idx lk) g σ σ') σ) ->
  NoDup (vl_idx <$> l) -> forall σ, Inv σ -> good (each_var f l) (fun _ σ' => Inv σ' /\ all_changed (vl_idx <$> l) g σ σ') σ.
Proof.
  induction l as [|lk l IH]; intros Hf Hd σ HI.
  { apply good_ret. split; [done|]. intros j. by rewrite decide_False by apply not_elem_of_nil. }
  cbn in Hd. apply NoDup_cons in Hd as [Hn Hd]. cbn [each_var].
  eapply good_bind; [apply Hf; [done|by left]|]. intros _ σ1 [HI1 H1].
  eapply good_conseq; [apply IH; [intros; apply Hf; [done|by right]|done|done]|]. intros _ σ2 [HI2 H2]. split; [done|].
  intros j. rewrite H2, H1. rewrite fmap_cons. destruct (decide (j = vl_idx lk)) as [->|Hne].
  - rewrite (decide_False (P := _ ∈ _)) by done. by rewrite decide_True by (by left).
  - destruct (decide (j ∈ vl_idx <$> l)) as [Hin|Hin]; [by rewrite decide_True by (by right)|].
    rewrite decide_False; [done|]. by intros [?|?]%elem_of_cons.
Qed.

Lemma clean_loop_each c : forall k i, clean_loop c k i = each_var (fun lk => clean_var c (vl_idx lk)) (mkLookup [] <$> seq i k).
Proof. induction k as [|k IH]; intros i; [done|]. cbn. by rewrite IH. Qed.
End Columns.

(** ** Setting a parameter *)

(** What [varcache_set] does to the caches when the answer is [b]. *)
Definition set_outcome (mem : nat -> bool) lookup_map (c : positive) (key : list Z) (value : option (list Z)) (b : bool)
  (σ σ' : VStore) : Prop :=
  let kept := forall j, column σ' j = column σ j in
  let put v lk := changes (vl_idx lk) (fun col => <[c := v]> col) σ σ' in
  let oom := exists k, mem k = false in
  match find_var key lookup_map with
  | None => b = false /\ kept
  | Some lk =>
      (b = true /\ value <> None /\ put value lk) \/
      (b = false /\ put None lk /\ (value = None \/ oom)) \/
      (b = false /\ kept /\ oom)
  end.

Section Tracked.
Context `{Realloc} (mem : nat -> bool) (lookup_map : list var_lookup)
  (wf : vl_idx <$> lookup_map = seq 0 (length lookup_map)).
#[local] Abbreviation n := (num_var_cached lookup_map).

Lemma tracked_lt lk : lk ∈ lookup_map -> (vl_idx lk < n)%nat.
Proof using wf.
  intros Hin. assert (Hi : vl_idx lk ∈ vl_idx <$> lookup_map) by (apply list_elem_of_fmap; eauto).
  rewrite wf in Hi. apply elem_of_seq in Hi. unfold num_var_cached. lia.
Qed.

Lemma find_var_elem key lk : find_var key lookup_map = Some lk -> lk ∈ lookup_map /\ lower (vl_name lk) = lower key.
Proof.
  unfold find_var. intros ([i lk'] & E & ->)%fmap_Some. apply list_find_Some in E as (E & Hp & _).
  split; [by eapply list_elem_of_lookup_2|done].
Qed.

Section Live.
Context (D : gset positive) (room : Z.of_nat (size D) * Z.of_nat n < INT_MAX).
#[local] Abbreviation Inv := (Inv n D).

Lemma strpool_create_good σ :
  Inv σ -> good (strpool_create mem) (fun ok σ' => Inv σ' /\ (forall j, column σ' j = column σ j) /\
    (ok = false -> exists k, mem k = false)) σ.
Proof.
  intros [HI HD]. unfold strpool_create. eapply good_bind; [by apply (allocate_vinv mem n [])|].
  intros ok σ1 (Hc1 & Ht1 & HI1 & Hk1 & Hm1).
  assert (H1 : forall j, column σ1 j = column σ j) by (intros; apply column_ext; auto).
  destruct ok; cbn [negb]; [|apply good_ret; split; [by split; [|rewrite Hc1]|auto]].
  eapply good_bind; [by apply (allocate_vinv mem n [])|]. intros ok σ2 (Hc2 & Ht2 & HI2 & Hk2 & Hm2).
  assert (H2 : forall j, column σ2 j = column σ j) by (intros; rewrite <- H1; apply column_ext; auto).
  destruct ok; cbn [negb]; [|apply good_ret; split; [by split; [|rewrite Hc2, Hc1]|auto]].
  eexists _, _. split; [done|]. split; [|split; [|done]].
  - split; [by destruct HI2|]. cbn. by rewrite Hc2, Hc1.
  - intros j. rewrite <- H2. by apply column_ext.
Qed.

Lemma varcache_set_good σ c key value :
  Inv σ -> c ∈ D ->
  good (varcache_set mem lookup_map c key value) (fun b σ' => Inv σ' /\ set_outcome mem lookup_map c key value b σ σ') σ.
Proof using room wf.
  intros HI Hc. unfold varcache_set, set_outcome, good. rewrite bind_getS.
  match goal with |- exists a s', ?m σ = _ /\ @?Q a s' => change (good m Q σ) end.
  eapply (good_bind _ _ (fun ok σ' => Inv σ' /\ (forall j, column σ' j = column σ j) /\ (ok = false -> exists k, mem k = false))).
  { destruct (vs_vpool σ); [by apply good_ret|by apply strpool_create_good]. }
  intros ok σ1 (HI1 & Hk1 & Hm1). destruct ok; cbn [negb].
  2: { apply good_ret. split; [done|]. destruct (find_var key lookup_map); [right; right|]; auto. }
  destruct (find_var key lookup_map) as [lk|] eqn:Ek; [|by apply good_ret].
  apply find_var_elem in Ek as [Hin _]. destruct (slot_exists n D σ1 c (vl_idx lk)) as [v Hv]; auto using tracked_lt.
  eapply good_step; [by apply get_value_run|]. apply (good_assoc _ (fun _ => put_value c lk None)).
  eapply good_bind; [by apply (clear_slot_good n D)|]. intros _ σ2 [HI2 Hch2].
  assert (Hnone : changes (vl_idx lk) (fun col => <[c := None]> col) σ σ2) by (intros j; by rewrite Hch2, Hk1).
  destruct value as [value|]; [|apply good_ret; split; [done|right; left; auto]].
  pose proof (refs_bound n D σ2 [] (proj1 HI2) (proj2 HI2)).
  eapply good_bind; [apply (strpool_get_good mem n []); [by destruct HI2|by rewrite app_nil_r; lia]|].
  intros r σ3 (Hc3 & HI3 & Ht3 & Hr). rewrite app_nil_r in HI3, Ht3.
  assert (Hk3 : forall j, column σ3 j = column σ2 j) by (intros; by apply column_ext).
  assert (HD3 : dom (vs_caches σ3) = D) by (rewrite Hc3; by destruct HI2). destruct r as [a|].
  2: { destruct Hr as [?|[_ Hm]]; [done|]. apply good_ret. split; [by split|]. right; left.
       split_and!; auto. intros j. by rewrite Hk3, Hnone. }
  destruct Hr as [Hr|[? _]]; [|done].
  assert (Hs3 : slot σ3 c (vl_idx lk) None).
  { destruct (slot_exists n D σ2 c (vl_idx lk)) as [u Hu]; auto using tracked_lt.
    pose proof (slot_column _ _ _ _ Hu) as E. rewrite Hch2, decide_True, lookup_insert_eq in E by done.
    destruct u as [b|]; [destruct (slot_text n [] σ2 c (vl_idx lk) b (proj1 HI2) Hu) as [t Et]; congruence|].
    destruct Hu as (l & ?). exists l. by rewrite Hc3. }
  eapply (good_bind _ _ (fun _ σ' => Inv σ' /\ changes (vl_idx lk) (fun col => <[c := Some value]> col) σ3 σ')).
  { eapply good_conseq; [by apply (swap_good n D σ3 c lk None (Some a))|]. cbn in *. by rewrite Hr. }
  intros _ σ4 [HI4 Hch4]. apply good_ret. split; [done|]. left. split_and!; auto. intros j. rewrite Hch4, Hk3, Hnone.
  case_decide; [|done]. apply insert_insert_eq.
Qed.

Lemma canonical_good σ s c o :
  Inv σ -> s ∈ D -> c ∈ D -> o ∈ D ->
  good (varcache_set_canonical lookup_map s c o) (fun _ σ' => Inv σ' /\ all_changed (seq 0 n) (canon s c o) σ σ') σ.
Proof using room wf.
  intros HI Hs Hc Ho. unfold num_var_cached. rewrite <- wf. apply (each_var_good n D); [|by rewrite wf; apply NoDup_seq|done].
  intros σ1 lk HI1 Hin. apply (canonical_var_good n D); auto using tracked_lt.
Qed.

Lemma fill_unset_good σ src dst :
  Inv σ -> src ∈ D -> dst ∈ D ->
  good (varcache_fill_unset lookup_map src dst) (fun _ σ' => Inv σ' /\ all_changed (seq 0 n) (filled src dst) σ σ') σ.
Proof using room wf.
  intros HI Hs Hc. unfold num_var_cached. rewrite <- wf. apply (each_var_good n D); [|by rewrite wf; apply NoDup_seq|done].
  intros σ1 lk HI1 Hin. apply (fill_var_good n D); auto using tracked_lt.
Qed.

Lemma clean_good σ c :
  Inv σ -> c ∈ D ->
  good (varcache_clean lookup_map c) (fun _ σ' => Inv σ' /\ all_changed (seq 0 n) (fun col => <[c := None]> col) σ σ') σ.
Proof.
  intros HI Hc. unfold varcache_clean. rewrite clean_loop_each.
  assert (E : vl_idx <$> (mkLookup [] <$> seq 0 n) = seq 0 n) by (rewrite <- list_fmap_compose; apply list_fmap_id).
  pose proof (each_var_good n D (fun lk => clean_var c (vl_idx lk)) (fun col => <[c := None]> col) (mkLookup [] <$> seq 0 n)) as G.
  rewrite E in G. apply G; [|apply NoDup_seq|done].
  intros σ1 lk HI1 (i & -> & Hi%elem_of_seq)%list_elem_of_fmap. apply (clean_var_good n D); auto. cbn. lia.
Qed.
End Live.

Lemma free_cache_good D σ c :
  Inv n D σ -> c ∈ D -> good (free_cache lookup_map c) (fun _ σ' => Inv n (D ∖ {[c]}) σ') σ.
Proof.
  intros HI Hc. unfold free_cache. eapply good_bind; [by apply (clean_good D)|]. intros _ σ1 [[HI1 HD1] Hall].
  eexists _, _. split; [done|]. split; [|cbn; by rewrite dom_delete_L, HD1].
  assert (Hl : exists l, vs_caches σ1 !! c = Some l) by (rewrite <- HD1 in Hc; by apply elem_of_dom in Hc).
  destruct Hl as [l Hl]. assert (Hr : cache_refs l = []).
  { apply elem_of_nil_inv. intros a (v & Hv & Ev)%list_elem_of_omap. cbn in Ev. subst v.
    apply list_elem_of_lookup in Hv as [i Hi]. assert (Hs : slot σ1 c i (Some a)) by (by exists l).
    pose proof (slot_column _ _ _ _ Hs) as E. rewrite Hall, decide_True, lookup_insert_eq in E.
    - destruct (slot_text n [] σ1 c i a HI1 Hs). congruence.
    - apply elem_of_seq. apply lookup_lt_Some in Hi. rewrite (vi_len _ _ _ HI1 c l Hl) in Hi. lia. }
  assert (Hp : refs σ1 ≡ₚ refs (set_caches (delete c (vs_caches σ1)) σ1)).
  { unfold refs. rewrite (refs_take cache_refs (vs_caches σ1) c l Hl). by rewrite Hr. }
  destruct HI1 as [H1 H2 H3 H4 H5]. split; auto.
  - intros a p Ha. rewrite <- Hp. by apply H1.
  - intros a. rewrite <- Hp. apply H2.
  - intros c' l' Hc'. cbn in Hc'. apply lookup_delete_Some in Hc' as [_ ?]. by eapply H5.
Qed.

Lemma new_cache_good D σ c :
  Inv n D σ -> c ∉ D -> good (new_cache lookup_map c) (fun _ σ' => Inv n ({[c]} ∪ D) σ') σ.
Proof.
  intros [[H1 H2 H3 H4 H5] HD] Hc. eexists _, _. split; [done|]. split; [|cbn; by rewrite dom_insert_L, HD].
  assert (Hn : vs_caches σ !! c = None) by (apply not_elem_of_dom; by rewrite HD).
  assert (Hp : refs σ ≡ₚ refs (set_caches (<[c := replicate n None]> (vs_caches σ)) σ)).
  { unfold refs. cbn. rewrite (refs_new cache_refs _ _ _ Hn).
    assert (E : forall k, cache_refs (replicate k None) = []) by (induction k; auto). by rewrite E. }
  split; auto.
  - intros a p Ha. rewrite <- Hp. by apply H1.
  - intros a. rewrite <- Hp. apply H2.
  - intros c' l'. cbn. rewrite lookup_insert. case_decide; [|apply H5]. intros [= <-]. apply length_replicate.
Qed.

(** ** Runs *)

(** What the rest of the program does with the caches. *)
Inductive vop :=
| VNew (c : positive)
| VFree (c : positive)
| VSet (c : positive) (key : list Z) (value : option (list Z))
| VCanonical (server client orig : positive)
| VFill (src dst : positive)
| VClean (c : positive).

Definition vstep (op : vop) : SM VStore unit :=
  match op with
  | VNew c => new_cache lookup_map c
  | VFree c => free_cache lookup_map c
  | VSet c key value => varcache_set mem lookup_map c key value ≫= fun _ => mret tt
  | VCanonical s c o => varcache_set_canonical lookup_map s c o
  | VFill src dst => varcache_fill_unset lookup_map src dst
  | VClean c => varcache_clean lookup_map c
  end.

Fixpoint vsteps (ops : list vop) : SM VStore unit :=
  match ops with [] => mret tt | op :: ops => vstep op ≫= fun _ => vsteps ops end.

(** The caches there are after an operation, if it only uses caches that
    exist; at most [max] caches. *)
Definition live_step (max : Z) (D : gset positive) (op : vop) : option (gset positive) :=
  match op with
  | VNew c => if bool_decide ((c ∉ D) /\ Z.of_nat (size D) + 1 <= max) then Some ({[c]} ∪ D) else None
  | VFree c => if bool_decide (c ∈ D) then Some (D ∖ {[c]}) else None
  | VSet c _ _ | VClean c => if bool_decide (c ∈ D) then Some D else None
  | VCanonical s c o => if bool_decide (s ∈ D /\ c ∈ D /\ o ∈ D) then Some D else None
  | VFill src dst => if bool_decide (src ∈ D /\ dst ∈ D) then Some D else None
  end.

Definition live_steps (max : Z) (ops : list vop) (D : gset positive) : option (gset positive) :=
  foldl (fun D op => D ≫= fun D => live_step max D op) (Some D) ops.

Lemma vstep_good max D D' σ op :
  max * Z.of_nat n < INT_MAX -> Z.of_nat (size D) <= max ->
  Inv n D σ -> live_step max D op = Some D' ->
  good (vstep op) (fun _ σ' => Inv n D' σ' /\ Z.of_nat (size D') <= max) σ.
Proof using wf.
  intros Hmax HD HI Hl. assert (Hroom : Z.of_nat (size D) * Z.of_nat n < INT_MAX) by nia.
  destruct op; cbn in Hl; (case_bool_decide as Hin; [injection Hl as <-|done]); cbn [vstep].
  - destruct Hin. eapply good_conseq; [by apply (new_cache_good D)|]. cbn. intros _ σ' ?. split; [done|].
    rewrite size_union by set_solver. rewrite size_singleton. lia.
  - eapply good_conseq; [by apply (free_cache_good D)|]. cbn. intros _ σ' ?. split; [done|].
    assert (size (D ∖ {[c]}) <= size D)%nat by (apply subseteq_size; set_solver). lia.
  - eapply good_bind; [by apply (varcache_set_good D)|]. intros b σ' [? _]. by apply good_ret.
  - destruct_and!. eapply good_conseq; [by apply (canonical_good D)|]. by intros _ σ' [? _].
  - destruct_and!. eapply good_conseq; [by apply (fill_unset_good D)|]. by intros _ σ' [? _].
  - eapply good_conseq; [by apply (clean_good D)|]. by intros _ σ' [? _].
Qed.

Lemma vsteps_good max ops : forall D D' σ,
  max * Z.of_nat n < INT_MAX -> Z.of_nat (size D) <= max ->
  Inv n D σ -> live_steps max ops D = Some D' -> good (vsteps ops) (fun _ σ' => Inv n D' σ') σ.
Proof using wf.
  induction ops as [|op ops IH]; intros D D' σ Hmax HD HI Hl; cbn in Hl; [simplify_eq; by apply good_ret|].
  destruct (live_step max D op) as [D1|] eqn:E.
  2: { exfalso. clear -Hl. induction ops as [|o ops IHo]; [done|by apply IHo]. }
  eapply good_bind; [by eapply vstep_good|]. intros _ σ1 [HI1 HD1]. by eapply IH.
Qed.
End Tracked.

(** ** The tracked names *)

(** Every name once, whatever the case, and with the index of its place. *)
Definition lookup_wf (m : list var_lookup) : Prop :=
  vl_idx <$> m = seq 0 (length m) /\ NoDup ((fun lk => lower (vl_name lk)) <$> m).

Lemma find_var_none key m lk : find_var key m = None -> lk ∈ m -> lower (vl_name lk) <> lower key.
Proof. unfold find_var. intros E%fmap_None Hin. by eapply list_find_None, Forall_forall in E. Qed.

Lemma find_var_some key m : (exists lk, lk ∈ m /\ lower (vl_name lk) = lower key) -> is_Some (find_var key m).
Proof.
  intros (lk & Hin & Hlow). destruct (find_var key m) eqn:E; [eauto|]. by destruct (find_var_none key m lk E Hin).
Qed.

Lemma find_var_wf m lk key :
  lookup_wf m -> lk ∈ m -> lower (vl_name lk) = lower key -> find_var key m = Some lk.
Proof.
  intros [_ Hd] Hin Hlow. destruct (find_var_some key m) as [lk' E]; [eauto|]. rewrite E. f_equal.
  apply find_var_elem in E as [Hin' Hlow']. apply list_elem_of_lookup in Hin as [i Hi], Hin' as [j Hj].
  assert (i = j); [|congruence].
  eapply (NoDup_lookup _ i j (lower key) Hd); rewrite list_lookup_fmap; [rewrite Hi|rewrite Hj]; cbn; congruence.
Qed.

Lemma add_name_wf m name : lookup_wf m -> lookup_wf (add_name m name).
Proof.
  intros [Hi Hd]. unfold add_name. destruct (find_var name m) eqn:E; [done|]. split.
  - rewrite fmap_app, length_app, Hi, seq_app. done.
  - rewrite fmap_app. apply NoDup_app. split; [done|]. split; [|apply NoDup_singleton].
    intros x (lk & -> & Hin)%list_elem_of_fmap Hs%list_elem_of_singleton. by apply (find_var_none name m lk).
Qed.

Lemma add_name_found m name w : w = name \/ is_Some (find_var w m) -> is_Some (find_var w (add_name m name)).
Proof.
  unfold add_name. intros Hw. destruct (find_var name m) as [lk|] eqn:E.
  - destruct Hw as [->|?]; [by rewrite E|done].
  - apply find_var_some. destruct Hw as [->|[lk Hlk]].
    + exists (mkLookup name (length m)). split; [|done]. apply elem_of_app. right. by apply list_elem_of_singleton.
    + apply find_var_elem in Hlk as [Hin ?]. exists lk. split; [|done]. apply elem_of_app. by left.
Qed.

Lemma add_names_found ws : forall m w, w ∈ ws \/ is_Some (find_var w m) -> is_Some (find_var w (foldl add_name m ws)).
Proof.
  induction ws as [|x ws IH]; intros m w Hw; cbn.
  - destruct Hw as [Hw|?]; [by apply not_elem_of_nil in Hw|done].
  - apply IH. destruct Hw as [[->|?]%elem_of_cons|?]; [right; apply add_name_found; auto|by left|right; apply add_name_found; auto].
Qed.

Lemma init_var_lookup_ok cf : lookup_wf (init_var_lookup cf).
Proof.
  unfold init_var_lookup. generalize (parse_word_list cf). intros ws.
  assert (H0 : lookup_wf (imap (fun i n => mkLookup n i) static_names)).
  { split; [done|]. apply (bool_decide_unpack _). by vm_compute. }
  revert H0. generalize (imap (fun i n => mkLookup n i) static_names). induction ws as [|w ws IH]; intros m Hm; [done|].
  apply IH. by apply add_name_wf.
Qed.

(** The table of tracked parameters is well formed whatever the
    configuration says: indices are positions, so that caches of
    [num_var_cached] values are indexed within bounds, no name is there twice,
    and both the names the code tracks always and every name of
    track_extra_parameters are found, in any case. *)
Theorem init_var_lookup_wf cf :
  lookup_wf (init_var_lookup cf) /\
  (forall w, w ∈ static_names ++ parse_word_list cf ->
     exists lk, find_var w (init_var_lookup cf) = Some lk /\ (vl_idx lk < num_var_cached (init_var_lookup cf))%nat).
Proof.
  pose proof (init_var_lookup_ok cf) as Hwf.
  split; [done|]. intros w Hw. assert (Hf : is_Some (find_var w (init_var_lookup cf))).
  { unfold init_var_lookup. apply add_names_found. apply elem_of_app in Hw as [Hw|Hw]; [right|by left]. apply find_var_some.
    apply list_elem_of_lookup in Hw as [i Hi]. exists (mkLookup w i). split; [|done].
    apply (list_elem_of_lookup_2 _ i). by rewrite list_lookup_imap, Hi. }
  destruct Hf as [lk E]. exists lk. split; [done|]. apply find_var_elem in E as [Hin _]. eapply tracked_lt; [apply Hwf|done].
Qed.

(** ** Properties *)

Definition empty_store : VStore := mkVStore ∅ ∅ 0 false ∅ 0.

Lemma empty_inv n : Inv n ∅ empty_store.
Proof.
  split; [|apply dom_empty_L]. split.
  - intros a p E. cbn in E. by rewrite lookup_empty in E.
  - intros a. cbn. rewrite lookup_empty. split; [by intros []|]. by intros ?%not_elem_of_nil.
  - intros s a. unfold text. cbn. by rewrite !lookup_empty.
  - done.
  - intros c l E. cbn in E. by rewrite lookup_empty in E.
Qed.

(** C21: however the caches of clients, servers and pools are created, set,
    filled, brought together, cleaned and freed, every step is defined (no
    freed string is read, no index is outside a cache, no reference count
    overflows) and returns; afterwards the reference count of each string is
    the number of places that refer to it, each string is in the tree once,
    under its text, and with the last cache the last string is freed. *)
Theorem strings_counted mem cf max ops D :
  max * Z.of_nat (num_var_cached (init_var_lookup cf)) < INT_MAX -> 0 <= max ->
  live_steps max ops ∅ = Some D ->
  exists σ, vsteps mem (init_var_lookup cf) ops empty_store = Ok (tt, σ) /\ dom (vs_caches σ) = D /\
    (forall a p, vs_strings σ !! a = Some p -> pt_refcnt p = uses a (refs σ) /\ pt_refcnt p > 0) /\
    (forall a, a ∈ refs σ -> is_Some (vs_strings σ !! a)) /\
    (forall s a, vs_tree σ !! s = Some a <-> pt_str <$> vs_strings σ !! a = Some s) /\
    (D = ∅ -> vs_strings σ = ∅).
Proof.
  intros Hmax H0 Hl. set (n := num_var_cached (init_var_lookup cf)).
  assert (Hwf : lookup_wf (init_var_lookup cf)) by apply init_var_lookup_ok.
  destruct (vsteps_good mem (init_var_lookup cf) (proj1 Hwf) max ops ∅ D empty_store) as ([] & σ & E & HI & HD);
    [done|by rewrite size_empty|apply empty_inv|done|].
  assert (Hlive : forall a, is_Some (vs_strings σ !! a) <-> a ∈ refs σ).
  { intros a. rewrite (vi_live _ _ _ HI a). by rewrite app_nil_r. }
  exists σ. split; [done|]. split; [done|]. split; [|split; [|split]].
  - intros a p Ha. rewrite (vi_count _ _ _ HI a p Ha), app_nil_r. split; [done|].
    assert (a ∈ refs σ) by (apply Hlive; eauto). apply Z.lt_gt. by apply uses_pos.
  - intros a. apply Hlive.
  - apply (vi_tree _ _ _ HI).
  - intros ->. apply map_eq. intros a. rewrite lookup_empty. apply eq_None_not_Some. rewrite Hlive. unfold refs.
    apply dom_empty_inv_L in HD. rewrite HD, map_to_list_empty. cbn. apply not_elem_of_nil.
Qed.

Lemma init_var_lookup_wf_witness :
  let m := init_var_lookup (str "enable_seqscan, SEARCH_PATH,my.var") in
  length m = 12%nat /\ lookup_wf m /\ is_Some (find_var (str "my.var") m).
Proof.
  destruct (init_var_lookup_wf (str "enable_seqscan, SEARCH_PATH,my.var")) as [Hwf Hf].
  split; [by vm_compute|]. split; [exact Hwf|]. destruct (Hf (str "my.var")) as (lk & E & _); [|by rewrite E].
  apply (list_elem_of_lookup_2 _ 12). by vm_compute.
Defined.

Module Example.
Definition ops : list vop :=
  [VNew 1; VNew 2; VNew 3; VSet 1 (str "timezone") (Some (str "UTC")); VFill 1 2;
   VSet 2 (str "TimeZone") (Some (str "GMT")); VCanonical 1 2 3; VFree 3; VClean 1; VFree 1; VFree 2]%positive.

Lemma strings_counted_witness :
  exists σ, vsteps (fun _ => true) (init_var_lookup []) ops empty_store = Ok (tt, σ) /\ vs_strings σ = ∅.
Proof.
  destruct (strings_counted (fun _ => true) [] 1000 ops ∅) as (σ & E & _ & _ & _ & _ & H0).
  - by vm_compute.
  - done.
  - by vm_compute.
  - exists σ. split; [exact E|]. by apply H0.
Defined.
End Example.
