(* ===== verification/Session.v ===== *)
(** * Parameters of the server session

    The packet [varcache_apply] sends, read as PostgreSQL reads it, sets those
    tracked parameters that differ to the values of the client, but for values
    too long for its buffer.  The session of the server is then the one the
    client asked for in the others, and after [varcache_set_canonical] the
    caches of both say so. *)

From stdpp Require Import base option countable gmap list strings.
From S2P Require Import Prelude Refs Protocol MBuf PktBuf Proto Quote Varcache Params.
#[local] Open Scope Z_scope.

(** ** SET and RESET as PostgreSQL reads them

    A reader for a part of its syntax: a parameter name without quotes or
    spaces, then a literal, or for search_path a list of names.  What is
    outside that part (comments, numbers, other forms of literals, names that
    are cut off) is not read at all. *)

Definition letter (c : Z) : bool := bool_decide (65 <= c <= 90) || bool_decide (97 <= c <= 122) || bool_decide (c = 95).
Definition word_char (c : Z) : bool := letter c || bool_decide (48 <= c <= 57) || bool_decide (c = 36).
Definition name_char (c : Z) : bool := word_char c || bool_decide (c = 46).
Definition space (c : Z) : bool := bool_decide (c = 32) || bool_decide (9 <= c <= 10) || bool_decide (12 <= c <= 13).

(** The longest beginning of such characters, and what follows. *)
Fixpoint span (p : Z -> bool) (s : list Z) : list Z * list Z :=
  match s with
  | [] => ([], [])
  | c :: s' => if p c then let '(w, r) := span p s' in (c :: w, r) else ([], s)
  end.

(** Up to the closing quote [q]; two in a row stand for one.  A backslash in
    single quotes depends on settings and is not read. *)
Fixpoint quoted (q : Z) (s : list Z) : option (list Z * list Z) :=
  match s with
  | [] => None
  | c :: s =>
      if bool_decide (c = q) then
        match s with
        | c' :: s' => if bool_decide (c' = q) then '(w, r) ← quoted q s'; Some (q :: w, r) else Some ([], s)
        | [] => Some ([], s)
        end
      else if bool_decide (c = BACKSLASH) && bool_decide (q = QUOTE) then None
      else '(w, r) ← quoted q s; Some (c :: w, r)
  end.

Definition strip_prefix (p s : list Z) : option (list Z) :=
  if bool_decide (take (length p) s = p) then Some (drop (length p) s) else None.

Inductive setting :=
| To_default
| To_text (v : list Z)
| To_names (l : list (list Z)).

(** [reserved]: the key words of PostgreSQL that are no names. *)
Section Reader.
Context (reserved : list Z -> bool).

(** One name of a list: a word, which is read in lower case, or one in quotes;
    a name longer than 63 bytes would be cut. *)
Definition read_name (s : list Z) : option (list Z * list Z) :=
  '(w, r) ← match s with
            | [] => None
            | c :: s' =>
                if bool_decide (c = 34) then '(w, r) ← quoted 34 s'; if bool_decide (w = []) then None else Some (w, r)
                else if bool_decide (c = QUOTE) then quoted QUOTE s'
                else if letter c then
                  let '(w, r) := span word_char s in if reserved (lower w) then None else Some (lower w, r)
                else None
            end;
  if bool_decide (zlen w <= 63) then Some (w, r) else None.

(** Names with commas between them, and the semicolon. *)
Fixpoint read_names (fuel : nat) (s : list Z) : option (list (list Z) * list Z) :=
  match fuel with
  | O => None
  | S fuel =>
      '(w, r) ← read_name (span space s).2;
      match (span space r).2 with
      | c :: r =>
          if bool_decide (c = 44) then '(l, r) ← read_names fuel r; Some (w :: l, r)
          else if bool_decide (c = 59) then Some ([w], r)
          else None
      | [] => None
      end
  end.

Definition read_command (scs : bool) (s : list Z) : option ((list Z * setting) * list Z) :=
  match strip_prefix (str "SET ") s with
  | Some s =>
      match span name_char s with
      | ((_ :: _) as name, 61 :: s) =>
          if variable_is_guc_list_quote name then
            '(l, s) ← read_names (length s) s;
            Some ((name, To_names l), s)
          else
            '(v, s) ← read_literal scs s;
            match s with
            | c :: s => if bool_decide (c = 59) then Some ((name, To_text v), s) else None
            | [] => None
            end
      | _ => None
      end
  | None =>
      s ← strip_prefix (str "RESET ") s;
      match span name_char s with
      | ((_ :: _) as name, 59 :: s) => Some ((name, To_default), s)
      | _ => None
      end
  end.

Fixpoint read_commands (fuel : nat) (scs : bool) (s : list Z) : option (list (list Z * setting)) :=
  match s, fuel with
  | [], _ => Some []
  | _, O => None
  | _, S fuel => '(c, s) ← read_command scs s; l ← read_commands fuel scs s; Some (c :: l)
  end.

(** The names a value of search_path stands for.  The value with nothing but
    two double quotes, which is how PostgreSQL shows it, is the list of one
    empty name. *)
Definition value_names (v : list Z) : option (list (list Z)) :=
  if bool_decide (v = [34; 34]) then Some [[]]
  else match read_names (length v + 1) (v ++ [59]) with Some (l, []) => Some l | _ => None end.

(** What setting parameter [name] to a value or back means. *)
Definition stands_for (name : list Z) (w : option (list Z)) : option setting :=
  match w with
  | None => Some To_default
  | Some v => if variable_is_guc_list_quote name then To_names <$> value_names v else Some (To_text v)
  end.
End Reader.

(** ** What is asked of the server *)

Definition operand (key cv : list Z) : list Z :=
  if variable_is_guc_list_quote key then (if bool_decide (cv = [34; 34]) then str "''" else cv) else literal cv.

(** The value can be sent: the buffer of the literal has 128 bytes. *)
Definition sendable (key cv : list Z) : bool :=
  variable_is_guc_list_quote key || bool_decide (zlen (literal cv) + 1 <= 128).

Definition wanted (key : list Z) (cval sval : option (list Z)) : option (option (list Z)) :=
  match cval with
  | None => match sval with None => None | Some _ => Some None end
  | Some cv => if bool_decide (sval = Some cv) then None else if sendable key cv then Some (Some cv) else None
  end.

Definition command (a : list Z * option (list Z)) : list Z :=
  match a.2 with
  | None => reset_command a.1
  | Some cv => set_command a.1 (operand a.1 cv)
  end.

(** The value of a parameter in a cache. *)
Definition val (σ : VStore) (c : positive) (lk : var_lookup) : option (list Z) := column σ (vl_idx lk) !! c ≫= id.

Definition assigned (σ : VStore) (server client : positive) (lk : var_lookup) : option (list Z * option (list Z)) :=
  (fun w => (vl_name lk, w)) <$> wanted (vl_name lk) (val σ client lk) (val σ server lk).

Definition assignments (σ : VStore) (server client : positive) (l : list var_lookup) : list (list Z * option (list Z)) :=
  omap (assigned σ server client) l.

Definition opt_cmd {A} (o : option A) : list A := match o with Some a => [a] | None => [] end.

Lemma assignments_cons σ s c lk l : assignments σ s c (lk :: l) = opt_cmd (assigned σ s c lk) ++ assignments σ s c l.
Proof. unfold assignments. cbn. by destruct (assigned σ s c lk). Qed.

Lemma var_command_run key c s : var_command key c s = Ok ((fun w => command (key, w)) <$> wanted key c s).
Proof.
  unfold var_command, wanted. destruct c as [cv|]; [|by destruct s]. case_bool_decide; [done|].
  unfold set_operand, sendable, command, operand. cbn. destruct (variable_is_guc_list_quote key); [done|].
  rewrite pg_quote_literal_run. cbn. by case_bool_decide.
Qed.

(** ** Reading back *)

Lemma strip_prefix_app p s : strip_prefix p (p ++ s) = Some s.
Proof. unfold strip_prefix. by rewrite take_app_length, drop_app_length, bool_decide_eq_true_2. Qed.

Lemma span_app p w c rest : Forall (fun x => p x = true) w -> p c = false -> span p (w ++ c :: rest) = (w, c :: rest).
Proof. induction 1 as [|x w Hx _ IH]; intros Hc; cbn; [by rewrite Hc|]. by rewrite Hx, IH. Qed.

(** *** Reading goes on where it stopped: more text behind it changes nothing *)

Lemma span_more p s w r rest : span p s = (w, r) -> r <> [] -> span p (s ++ rest) = (w, r ++ rest).
Proof.
  revert w r. induction s as [|c s IH]; intros w r E Hr; cbn in *; [by injection E as <- <-|].
  destruct (p c); [|by injection E as <- <-]. destruct (span p s) as [w' r']. injection E as <- <-. by rewrite (IH w' r').
Qed.

Lemma quoted_more q s rest : forall w r, quoted q s = Some (w, r) -> r <> [] -> quoted q (s ++ rest) = Some (w, r ++ rest).
Proof.
  induction s as [s IH] using (induction_ltof1 _ (@length Z)); unfold ltof in IH. intros w r E Hr.
  destruct s as [|c s]; [done|]. cbn in E |- *. case_bool_decide.
  - destruct s as [|c' s]; [by injection E as <- <-|]. cbn. case_bool_decide; [|by injection E as <- <-].
    destruct (quoted q s) as [[w' r']|] eqn:E'; [|done]. injection E as <- <-.
    rewrite (IH s ltac:(cbn; lia) w' r' E' Hr). done.
  - destruct (_ && _); [done|]. destruct (quoted q s) as [[w' r']|] eqn:E'; [|done]. injection E as <- <-.
    rewrite (IH s ltac:(cbn; lia) w' r' E' Hr). done.
Qed.

Section Back.
Context (reserved : list Z -> bool).

Lemma read_name_more s w r rest :
  read_name reserved s = Some (w, r) -> r <> [] -> read_name reserved (s ++ rest) = Some (w, r ++ rest).
Proof.
  intros E Hr. unfold read_name in *. apply bind_Some in E as ([w1 r1] & E1 & E). case_bool_decide as Hl; [|done].
  injection E as -> ->. destruct s as [|c s]; [done|]. cbn [app].
  assert (E2 : (if bool_decide (c = 34) then '(w, r) ← quoted 34 (s ++ rest); if bool_decide (w = []) then None else Some (w, r)
    else if bool_decide (c = QUOTE) then quoted QUOTE (s ++ rest)
    else if letter c then let '(w, r) := span word_char (c :: s ++ rest) in if reserved (lower w) then None else Some (lower w, r)
    else None) = Some (w, r ++ rest)); [|rewrite E2; cbn; by rewrite bool_decide_eq_true_2].
  case_bool_decide.
  { destruct (quoted 34 s) as [[w' r']|] eqn:E'; [|done]. cbn in E1. case_bool_decide as Hw; [done|]. injection E1 as -> ->.
    rewrite (quoted_more _ _ _ _ _ E' Hr). cbn. by rewrite bool_decide_eq_false_2. }
  case_bool_decide; [by apply quoted_more|]. destruct (letter c); [|done].
  destruct (span word_char (c :: s)) as [w' r'] eqn:E'. destruct (reserved (lower w')) eqn:Er; [done|]. injection E1 as <- ->.
  change (c :: s ++ rest) with ((c :: s) ++ rest). by rewrite (span_more _ _ _ _ _ E' Hr), Er.
Qed.

Lemma read_names_more s rest : forall fuel fuel' l r, (fuel <= fuel')%nat ->
  read_names reserved fuel s = Some (l, r) -> read_names reserved fuel' (s ++ rest) = Some (l, r ++ rest).
Proof.
  intros fuel. revert s. induction fuel as [|fuel IH]; intros s fuel' l r Hf E; [done|]. destruct fuel' as [|fuel']; [lia|].
  cbn [read_names] in *. destruct (span space s) as [w0 s1] eqn:E0. cbn [snd] in E.
  apply bind_Some in E as ([w r1] & E1 & E). destruct (span space r1) as [w1 r2] eqn:E2. cbn [snd] in E.
  destruct r2 as [|c r2]; [done|].
  assert (Hs1 : s1 <> []) by (by intros ->). assert (Hr1 : r1 <> []) by (by intros ->; injection E2).
  rewrite (span_more _ _ _ _ rest E0 Hs1). cbn [snd]. rewrite (read_name_more _ _ _ rest E1 Hr1). cbn [mbind option_bind].
  rewrite (span_more _ _ _ _ rest E2 ltac:(done)). cbn [snd app].
  case_bool_decide.
  - apply bind_Some in E as ([l' r3] & E3 & E). injection E as <- <-. by rewrite (IH r2 fuel' l' r3 ltac:(lia) E3).
  - case_bool_decide; [|done]. by injection E as <- <-.
Qed.

Definition name_ok (name : list Z) : Prop := name <> [] /\ Forall (fun c => name_char c = true) name.

Lemma set_command_eq key t rest : set_command key t ++ rest = str "SET " ++ key ++ 61 :: t ++ 59 :: rest.
Proof. unfold set_command. by rewrite <- !app_assoc. Qed.

Lemma reset_command_eq key rest : reset_command key ++ rest = str "RESET " ++ key ++ 59 :: rest.
Proof. unfold reset_command. by rewrite <- !app_assoc. Qed.

Lemma read_command_back scs name w x rest :
  name_ok name -> stands_for reserved name w = Some x ->
  read_command reserved scs (command (name, w) ++ rest) = Some ((name, x), rest).
Proof.
  intros [Hn1 Hn2] Hx. unfold read_command, command. destruct name as [|n0 name]; [done|].
  destruct w as [v|]; cbn [fst snd] in *.
  - rewrite set_command_eq, strip_prefix_app, span_app by done. unfold stands_for in Hx. unfold operand.
    destruct (variable_is_guc_list_quote _).
    + apply fmap_Some in Hx as (l & Hl & ->). unfold value_names in Hl.
      destruct (decide (v = [34; 34])) as [->|E]; [by injection Hl as <-|]. rewrite (bool_decide_eq_false_2 _ E) in Hl |- *.
      destruct (read_names reserved (length v + 1) (v ++ [59])) as [[l' [|]]|] eqn:El; try done. injection Hl as ->.
      assert (Er : read_names reserved (length (v ++ 59 :: rest)) ((v ++ [59]) ++ rest) = Some (l, [] ++ rest)).
      { apply (read_names_more _ _ (length v + 1)); [rewrite length_app; cbn; lia|done]. }
      rewrite <- (assoc_L (++)) in Er. cbn [app] in Er. by rewrite Er.
    + injection Hx as <-. by rewrite read_literal_back.
  - injection Hx as <-. rewrite reset_command_eq.
    assert (E : strip_prefix (str "SET ") (str "RESET " ++ (n0 :: name) ++ 59 :: rest) = None) by done.
    rewrite E, strip_prefix_app. cbn [mbind option_bind]. by rewrite span_app.
Qed.

Lemma command_nonempty a : exists c s, command a = c :: s.
Proof. unfold command. destruct (a.2); unfold set_command, reset_command; cbn; eauto. Qed.

(** The commands say what the assignments stand for. *)
Definition says (l : list (list Z * option (list Z))) (cs : list (list Z * setting)) : Prop :=
  Forall2 (fun a c => c.1 = a.1 /\ stands_for reserved a.1 a.2 = Some c.2) l cs.

Lemma read_commands_back scs l : forall fuel,
  (length (concat (map command l)) <= fuel)%nat ->
  Forall (fun a => name_ok a.1 /\ is_Some (stands_for reserved a.1 a.2)) l ->
  exists cs, read_commands reserved fuel scs (concat (map command l)) = Some cs /\ says l cs.
Proof.
  induction l as [|[name w] l IH]; intros fuel Hf Hall; [exists []; split; [by destruct fuel|constructor]|].
  apply Forall_cons in Hall as [[Hn [x Hx]] Hall]. cbn [map concat fst snd] in *. rewrite length_app in Hf.
  destruct (command_nonempty (name, w)) as (c & s & E).
  pose proof (read_command_back scs name w x (concat (map command l)) Hn Hx) as Hb.
  destruct fuel as [|fuel]; [rewrite E in Hf; cbn in Hf; lia|].
  rewrite E in *. destruct (IH fuel) as (cs & Ec & Hs); [cbn in Hf; lia|done|].
  exists ((name, x) :: cs). cbn [read_commands app] in *. rewrite Hb. cbn. rewrite Ec. split; [done|]. by constructor.
Qed.
End Back.

(** ** The packet *)

(** Only the count of allocations differs. *)
Definition same_store (σ σ' : VStore) : Prop := exists k,
  σ' = mkVStore (vs_strings σ) (vs_tree σ) (vs_count σ) (vs_vpool σ) (vs_caches σ) k.

Lemma same_refl σ : same_store σ σ.
Proof. exists (vs_allocs σ). by destruct σ. Qed.

Lemma same_trans σ σ1 σ2 : same_store σ σ1 -> same_store σ1 σ2 -> same_store σ σ2.
Proof. intros [k ->] [k' ->]. by exists k'. Qed.

Lemma same_inv n D σ σ' : same_store σ σ' -> Inv n D σ -> Inv n D σ'.
Proof. intros [k ->] [[] HD]. by split. Qed.

Lemma puts_then b b1 b2 bs1 bs2 :
  puts b bs1 (zlen bs1) (Ok b1) -> puts b1 bs2 (zlen bs2) (Ok b2) -> puts b (bs1 ++ bs2) (zlen bs1 + zlen bs2) (Ok b2).
Proof.
  intros (?&[= <-]&Hw1&Hx1&Hs1&Ht1&Hf1&Hr1) (?&[= <-]&Hw2&Hx2&Hs2&Ht2&Hf2&Hr2). exists b2. split_and!; auto; try congruence.
  - intros Hf. rewrite <- (Ht1 Hf) at 1. apply Ht2. by rewrite (Ht1 Hf).
  - intros Hf. destruct (Hf2 Hf) as (Hfb1&Hp2&Hb2&Hwr2). destruct (Hf1 Hfb1) as (Hfb&Hp1&Hb1&Hwr1).
    split_and!; auto; try congruence; [|zlia]. by rewrite Hb2, Hb1, app_assoc.
  - intros Hf Hroom. pose proof (zlen_nonneg bs2). destruct (Hr1 Hf) as [Hf1' Hl1]; [lia|].
    destruct (Hf1 Hf1') as (_&_&_&Hwr1). destruct (Hr2 Hf1') as [? ?]; [lia|]. split; congruence.
Qed.

Section Apply.
Context `{Realloc} (mem : nat -> bool) (lookup_map : list var_lookup).
Context (wf : vl_idx <$> lookup_map = seq 0 (length lookup_map)) (enough : forall k, mem k = true).
Context (D : gset positive) (server client : positive) (HS : server ∈ D) (HC : client ∈ D).
#[local] Abbreviation n := (num_var_cached lookup_map).

Lemma value_run σ c lk :
  Inv n D σ -> c ∈ D -> lk ∈ lookup_map ->
  exists v, get_value c lk σ = Ok (v, σ) /\ text_of v σ = Ok (val σ c lk, σ).
Proof using wf.
  intros HI Hc Hlk. destruct (slot_exists n D σ c (vl_idx lk)) as [v Hv]; auto; [by apply (tracked_lt lookup_map wf)|].
  exists v. split; [by apply get_value_run|]. unfold val. rewrite (slot_column _ _ _ _ Hv). cbn. destruct v as [a|]; [|done].
  destruct (slot_live n _ _ _ _ _ (proj1 HI) Hv) as [p Hp]. cbn. unfold text.
  rewrite (SM_bind_eq _ _ _ _ _ (the_string_run a p σ Hp)). by rewrite Hp.
Qed.

Lemma put_command_run b cmd σ :
  pb_wf b -> Forall is_u8 cmd ->
  exists b' σ', put_command mem b cmd σ = Ok (b', σ') /\ same_store σ σ' /\ puts b cmd (zlen cmd) (Ok b').
Proof using enough.
  intros Hw Hb. unfold put_command.
  assert (Hp : exists b', pktbuf_put_bytes b cmd (zlen cmd) = Ok b' /\ puts b cmd (zlen cmd) (Ok b')).
  { pose proof (puts_bytes b cmd (zlen cmd) Hw Hb) as Hp. rewrite ztake_all in Hp by done.
    destruct Hp as (b' & E & Hr); [pose proof (zlen_nonneg cmd); lia|]. rewrite E. exists b'. split; [done|]. by exists b'. }
  assert (Hc : exists σ', command_buffer mem cmd σ = Ok (tt, σ') /\ same_store σ σ').
  { unfold command_buffer. case_bool_decide; [exists σ; split; [done|apply same_refl]|].
    unfold allocate, mbind, SM_bind. rewrite enough. eexists. split; [done|]. by eexists. }
  destruct Hp as (b' & E & Hp), Hc as (σ' & Ec & Hs). exists b', σ'. rewrite (SM_bind_eq _ _ _ _ _ Ec). unfold lift. by rewrite E.
Qed.

Definition bytes_ok (σ : VStore) : Prop := forall lk v,
  lk ∈ lookup_map -> Forall is_u8 (vl_name lk) /\ (val σ client lk = Some v -> Forall is_u8 v).

Lemma literal_bytes v : Forall is_u8 v -> Forall is_u8 (literal v).
Proof.
  intros Hv. assert (Hc : forall c, 0 <= c < 256 -> is_u8 c) by done.
  assert (He : forall q, Forall is_u8 (escaped q v)).
  { intros q. induction Hv as [|c v Hc' _ IH]; [constructor|]. rewrite escaped_cons. apply Forall_app. split; [|done].
    unfold esc. repeat case_match; repeat constructor; auto; by apply Hc. }
  unfold literal. case_match; repeat (constructor; [by apply Hc|]); (apply Forall_app; split; [done|]); repeat constructor; by apply Hc.
Qed.

Lemma command_bytes name w :
  Forall is_u8 name -> (forall v, w = Some v -> Forall is_u8 v) -> Forall is_u8 (command (name, w)).
Proof.
  intros Hn Hv. unfold command. destruct w as [v|]; cbn [fst snd].
  - specialize (Hv v eq_refl). assert (Forall is_u8 (operand name v)).
    { unfold operand. repeat case_match; [by apply str_bytes|done|by apply literal_bytes]. }
    unfold set_command. rewrite !Forall_app. split_and!; auto; by apply str_bytes.
  - unfold reset_command. rewrite !Forall_app. split_and!; auto; by apply str_bytes.
Qed.

Lemma apply_var_run σ lk b :
  Inv n D σ -> lk ∈ lookup_map -> pb_wf b -> bytes_ok σ ->
  exists sv cv b' σ', get_value server lk σ = Ok (sv, σ) /\ get_value client lk σ = Ok (cv, σ) /\
    apply_var mem b (vl_name lk) cv sv σ = Ok ((b', zlen (opt_cmd (assigned σ server client lk))), σ') /\ same_store σ σ' /\
    puts b (concat (map command (opt_cmd (assigned σ server client lk)))) (zlen (concat (map command (opt_cmd (assigned σ server client lk))))) (Ok b').
Proof using wf enough HS HC.
  intros HI Hlk Hw Hbytes. destruct (value_run σ server lk) as (sv & Es & Ets); auto.
  destruct (value_run σ client lk) as (cv & Ec & Etc); auto.
  exists sv, cv. unfold apply_var.
  rewrite (SM_bind_eq _ _ _ _ _ Etc), (SM_bind_eq _ _ _ _ _ Ets), var_command_run, bind_lift_ok. unfold assigned.
  destruct (wanted (vl_name lk) (val σ client lk) (val σ server lk)) as [w|] eqn:Ew; cbn [fmap option_fmap option_map opt_cmd].
  - cbn [map concat]. rewrite app_nil_r. destruct (put_command_run b (command (vl_name lk, w)) σ) as (b' & σ' & E & Hs & Hp); auto.
    { apply command_bytes; [by apply (Hbytes lk [])|]. intros v ->. apply (Hbytes lk v); [done|]. unfold wanted in Ew.
      by repeat case_match; simplify_eq. }
    exists b', σ'. do 2 (split; [done|]). by rewrite (SM_bind_eq _ _ _ _ _ E).
  - exists b, σ. do 3 (split; [done|]). split; [apply same_refl|]. by apply (puts_ret b).
Qed.

Lemma apply_vars_run l : forall σ b k,
  Inv n D σ -> l ⊆ lookup_map -> pb_wf b -> bytes_ok σ ->
  exists b' σ', apply_vars mem server client l b k σ = Ok ((b', k + zlen (assignments σ server client l)), σ') /\ same_store σ σ' /\
    puts b (concat (map command (assignments σ server client l))) (zlen (concat (map command (assignments σ server client l)))) (Ok b').
Proof using wf enough HS HC.
  induction l as [|lk l IH]; intros σ b k HI Hl Hw Hbytes.
  { exists b, σ. cbn. split; [by rewrite Z.add_0_r|]. split; [apply same_refl|]. by apply (puts_ret b). }
  destruct (apply_var_run σ lk b) as (sv & cv & b1 & σ1 & Es & Ec & E1 & Hs1 & Hp1); auto; [apply Hl; by left|].
  cbn [apply_vars]. rewrite (SM_bind_eq _ _ _ _ _ Es), (SM_bind_eq _ _ _ _ _ Ec), (SM_bind_eq _ _ _ _ _ E1).
  assert (Hw1 : pb_wf b1) by (by destruct Hp1 as (? & [= <-] & ? & _)).
  assert (Hval : forall c lk, val σ1 c lk = val σ c lk) by (destruct Hs1 as [? ->]; done).
  assert (Hasg : assignments σ1 server client l = assignments σ server client l) by (destruct Hs1 as [? ->]; done).
  destruct (IH σ1 b1 (k + zlen (opt_cmd (assigned σ server client lk)))) as (b2 & σ2 & E2 & Hs2 & Hp2);
    [by eapply same_inv|intros x Hx; apply Hl; by right|done|intros lk' v Hin; rewrite Hval; by apply Hbytes|].
  exists b2, σ2. rewrite Hasg in *. rewrite assignments_cons, E2, zlen_app, Z.add_assoc.
  split; [done|]. split; [by eapply same_trans|]. rewrite map_app, concat_app, zlen_app. eapply puts_then; eauto.
Qed.

(** The SQL text of the packet. *)
Definition sql (σ : VStore) : list Z := concat (map command (assignments σ server client lookup_map)).

Lemma apply_packet σ b :
  Inv n D σ -> pb_wf b -> bytes_ok σ ->
  exists b1 b2 b3 b4 σ', pktbuf_start_packet b PqMsg_Query = Ok b1 /\
    apply_vars mem server client lookup_map b1 0 σ = Ok ((b2, zlen (assignments σ server client lookup_map)), σ') /\
    same_store σ σ' /\ pktbuf_put_char b2 0 = Ok b3 /\ pktbuf_finish_packet b3 = Ok b4 /\
    exists room, writes b (enc_packet PqMsg_Query (sql σ ++ [0])) room (Ok b4).
Proof using wf enough HS HC.
  intros HI Hw Hbytes.
  set (k := fun b1 => match apply_vars mem server client lookup_map b1 0 σ with Ok ((b2, _), _) => pktbuf_put_char b2 0 | _ => Undef end).
  assert (Hk : forall b1, pb_wf b1 -> puts b1 (sql σ ++ [0]) (Z.max (zlen (sql σ)) (zlen (sql σ) + 1)) (k b1)).
  { intros b1 Hw1. unfold k. destruct (apply_vars_run lookup_map σ b1 0) as (b2 & σ' & E & _ & Hp); auto. rewrite E.
    apply (puts_bind b1 (sql σ) (zlen (sql σ)) (Ok b2) [0] 1 (fun b => pktbuf_put_char b 0)); [done|]. intros b3 Hw3. by apply (puts_char b3 0). }
  pose proof (packet_ok b PqMsg_Query (sql σ ++ [0]) _ k Hw Hk) as Hwr.
  destruct (start_packet_ok b PqMsg_Query Hw) as (b1 & E1 & Hw1 & _). rewrite E1 in Hwr.
  destruct (apply_vars_run lookup_map σ b1 0) as (b2 & σ' & E2 & Hs & Hp2); auto.
  destruct (Hk b1 Hw1) as (b3 & E3 & _). unfold mbind, res_bind in Hwr. rewrite E3 in Hwr. unfold k in E3. rewrite E2 in E3.
  destruct (pktbuf_finish_packet b3) as [b4| | |] eqn:E4; try by destruct Hwr as (? & ? & _).
  exists b1, b2, b3, b4, σ'. split_and!; auto. by eexists.
Qed.

Lemma varcache_apply_run σ b op_send :
  Inv n D σ -> pb_wf b -> bytes_ok σ -> pb_failed b = false -> pb_write_pos b = 0 -> pb_send_pos b = 0 ->
  let asg := assignments σ server client lookup_map in
  let packet := enc_packet PqMsg_Query (sql σ ++ [0]) in
  exists sent b' σ', varcache_apply mem lookup_map op_send b server client σ = Ok ((sent, bool_decide (asg <> []), b'), σ') /\
    same_store σ σ' /\ (asg = [] -> sent = true) /\
    (asg <> [] -> sent = true -> pb_bytes b' = packet /\ op_send packet = IoOk (zlen packet)) /\
    (asg <> [] -> pb_failed b' = false -> op_send packet = IoOk (zlen packet) -> sent = true).
Proof using wf enough HS HC.
  intros HI Hw Hbytes Hf H0 H1 asg packet.
  destruct (apply_packet σ b) as (b1 & b2 & b3 & b4 & σ' & E1 & E2 & Hs & E3 & E4 & room & Hwr); auto.
  unfold varcache_apply. rewrite E1, bind_lift_ok, (SM_bind_eq _ _ _ _ _ E2). fold asg. destruct asg as [|a l] eqn:Ea.
  - rewrite bool_decide_eq_true_2 by done. rewrite bool_decide_eq_false_2 by auto. exists true, b2, σ'. by split_and!.
  - pose proof (zlen_cons a l) as Hz. pose proof (zlen_nonneg l).
    rewrite bool_decide_eq_false_2 by lia. rewrite E3, bind_lift_ok, E4, bind_lift_ok.
    rewrite (bool_decide_eq_true_2 (zlen (a :: l) > 0)) by lia. rewrite (bool_decide_eq_true_2 (a :: l <> [])) by done.
    destruct Hwr as (? & [= <-] & Hw4 & _ & Hs4 & _ & Hb4 & _). unfold pktbuf_send_immediate.
    destruct (pb_failed b4) eqn:Ef.
    { rewrite bind_lift_ok. exists false, b4, σ'. split; [done|]. split; [done|]. split; [done|]. split; intros; congruence. }
    destruct (Hb4 eq_refl) as [_ Hbytes4]. assert (Hb0 : pb_bytes b = []) by (unfold pb_bytes; by rewrite H0). rewrite Hb0 in Hbytes4. cbn in Hbytes4.
    assert (Hl : zlen packet = pb_write_pos b4).
    { unfold packet. rewrite <- Hbytes4. destruct Hw4 as (?&?&?&?&?&?). unfold pb_bytes. zlia. }
    assert (Hload : mem_load (pb_buf b4) 0 (zlen packet) = Ok packet).
    { destruct Hw4 as (?&?&?&?&?&?). rewrite mem_load_ok by lia. rewrite slice_0, Hl. f_equal. exact Hbytes4. }
    rewrite Hs4, H1, Z.sub_0_r, <- Hl, Hload. cbn [mbind res_bind]. rewrite bind_lift_ok.
    eexists _, b4, σ'. split; [done|]. split; [done|]. split; [done|]. split.
    + intros _ Hsent. split; [done|]. destruct (op_send packet); try done. by apply bool_decide_eq_true in Hsent as ->.
    + intros _ _ ->. by rewrite bool_decide_eq_true_2.
Qed.
End Apply.

(** ** ParameterStatus *)


Section Loading.
Context `{Realloc} (mem : nat -> bool) (lookup_map : list var_lookup) (wf : lookup_wf lookup_map) (enough : forall k, mem k = true).
Context (D : gset positive) (room : Z.of_nat (size D) * Z.of_nat (num_var_cached lookup_map) < INT_MAX).
Context (server client : positive) (HS : server ∈ D) (HC : client ∈ D).
#[local] Abbreviation n := (num_var_cached lookup_map).








End Loading.

(** ** The session *)

(** [norm]: the spelling a parameter's value gets in the server; [dflt]: the
    value a parameter has after RESET. *)
Section Server.
Context (norm : list Z -> list Z -> list Z) (dflt : list Z -> list Z).
Implicit Types (sess : list Z -> list Z).













End Server.



(** The state of a socket pair about to be linked, with memory available, and
    an empty packet buffer. *)
Record handing (mem : nat -> bool) (m : list var_lookup) (D : gset positive) (server client : positive) (σ : VStore) (b : PktBuf) : Prop := {
  hd_mem k : mem k = true;
  hd_room : Z.of_nat (size D) * Z.of_nat (num_var_cached m) < INT_MAX;
  hd_server : server ∈ D;
  hd_client : client ∈ D;
  hd_inv : Inv (num_var_cached m) D σ;
  hd_bytes : bytes_ok m client σ;
  hd_buf : pb_wf b;
  hd_failed : pb_failed b = false;
  hd_pos : pb_write_pos b = 0 /\ pb_send_pos b = 0
}.


(** ** Properties *)

Section Properties.
Context `{Realloc} (mem : nat -> bool) (m : list var_lookup) (D : gset positive) (server client : positive).

Lemma assignments_spec σ a :
  a ∈ assignments σ server client m <->
  exists lk, lk ∈ m /\ a = (vl_name lk, val σ client lk) /\ val σ client lk <> val σ server lk /\
    forall v, val σ client lk = Some v -> sendable (vl_name lk) v = true.
Proof.
  unfold assignments. rewrite list_elem_of_omap. split; intros (lk & Hlk & H1); exists lk; (split; [done|]).
  - apply fmap_Some in H1 as (w & Ew & ->). unfold wanted in Ew. destruct (val σ client lk) as [cv|].
    + case_bool_decide as E; [done|]. destruct (sendable (vl_name lk) cv) eqn:Es; [|done]. injection Ew as <-.
      split; [done|]. split; [congruence|]. by intros v [= <-].
    + destruct (val σ server lk); [|done]. by injection Ew as <-.
  - destruct H1 as (-> & Hne & Hs). unfold assigned, wanted. destruct (val σ client lk) as [cv|].
    + rewrite bool_decide_eq_false_2 by congruence. by rewrite (Hs cv eq_refl).
    + by destruct (val σ server lk).
Qed.

(** C10: the packet that [varcache_apply] sends before a client gets a server
    is a well formed Query packet whose text, read as PostgreSQL reads it under
    either setting of standard_conforming_strings, sets exactly the following
    parameters, each once and to the value of the client, or back to the
    default where the client has none: the tracked ones in which the two caches
    differ, but for those whose value as a literal takes more than 127 bytes,
    which are left out.  Nothing is sent when there are none, and the caches
    are not touched.  The names of the parameters are plain, and a value of
    search_path is a list of words and quoted names, without comments or
    backslashes, that PostgreSQL accepts; its names are read as they are in the
    value. *)
Theorem apply_reads_back reserved σ b op_send :
  lookup_wf m -> handing mem m D server client σ b ->
  Forall (fun lk => name_ok (vl_name lk) /\ is_Some (stands_for reserved (vl_name lk) (val σ client lk))) m ->
  let asg := assignments σ server client m in
  NoDup asg.*1 /\
  (forall a, a ∈ asg <-> exists lk, lk ∈ m /\ a = (vl_name lk, val σ client lk) /\ val σ client lk <> val σ server lk /\
     forall v, val σ client lk = Some v -> sendable (vl_name lk) v = true) /\
  exists sent b' σ', varcache_apply mem m op_send b server client σ = Ok ((sent, bool_decide (asg <> []), b'), σ') /\
    same_store σ σ' /\ (asg = [] -> sent = true) /\
    (asg <> [] -> sent = true -> exists text, pb_bytes b' = enc_packet PqMsg_Query (text ++ [0]) /\
       op_send (pb_bytes b') = IoOk (zlen (pb_bytes b')) /\
       forall scs, exists cs, read_commands reserved (length text) scs text = Some cs /\ says reserved asg cs).
Proof.
  intros Hwf [] Hok asg. destruct hd_pos0 as [H0 H1]. split.
  { unfold asg, assignments. destruct Hwf as [_ Hnd]. clear - Hnd. induction m as [|lk l IH]; [constructor|].
    cbn [fmap list_fmap] in Hnd. apply NoDup_cons in Hnd as [Hn Hnd]. cbn [omap list_omap].
    destruct (assigned σ server client lk) as [a|] eqn:Ea; [|by apply IH]. cbn. constructor; [|by apply IH].
    intros (a' & E & (lk' & Hlk' & E')%list_elem_of_omap)%list_elem_of_fmap. apply Hn. apply list_elem_of_fmap.
    exists lk'. split; [|done]. unfold assigned in Ea, E'. apply fmap_Some in Ea as (? & _ & ->), E' as (? & _ & ->). cbn in E. by rewrite E. }
  split; [apply assignments_spec|].
  destruct (varcache_apply_run mem m (proj1 Hwf) hd_mem0 D server client hd_server0 hd_client0 σ b op_send) as (sent & b' & σ' & E & Hs & He & Hp & _); auto.
  exists sent, b', σ'. split; [done|]. split; [done|]. split; [done|]. intros Hne Hsent. destruct (Hp Hne Hsent) as [Hb Ho].
  exists (sql m server client σ). rewrite Hb. split_and!; auto. intros scs. apply read_commands_back; [done|].
  apply Forall_forall. intros a (lk & Hlk & -> & _)%assignments_spec. rewrite Forall_forall in Hok. exact (Hok lk Hlk).
Qed.

End Properties.

(** ** An example *)

(** A client that wants GMT gets a server that runs with UTC. *)
Module Example.
Definition m : list var_lookup := Eval vm_compute in init_var_lookup [].
Definition D : gset positive := {[1%positive; 2%positive; 3%positive]}.

Definition setup : list vop :=
  [VNew 1; VNew 2; VNew 3; VSet 1 (str "TimeZone") (Some (str "UTC")); VSet 3 (str "timezone") (Some (str "UTC"));
   VSet 2 (str "timezone") (Some (str "GMT")); VSet 2 (str "search_path") (Some (str "a, b"))]%positive.

Definition mem : nat -> bool := fun _ => true.
Definition start : VStore :=
  Eval vm_compute in match vsteps mem m setup empty_store with Ok (_, σ) => σ | _ => empty_store end.
Definition buf : PktBuf := mkPktBuf (replicate 512 0) 512 0 0 0 false false false.
Definition sent (bs : list Z) : iores := IoOk (zlen bs).



Definition quoted_user : list Z := [34] ++ str "$user" ++ [34].

Lemma m_wf : lookup_wf m.
Proof. exact (init_var_lookup_ok []). Qed.

Lemma start_inv : Inv (num_var_cached m) D start.
Proof.
  destruct (vsteps_good mem m (proj1 m_wf) 10 setup ∅ D empty_store) as ([] & σ & E & HI).
  - by vm_compute.
  - by vm_compute.
  - apply empty_inv.
  - by vm_compute.
  - assert (start = σ) as ->; [|done]. vm_compute in E. by injection E as <-.
Qed.

Lemma start_bytes : bytes_ok m 2 start.
Proof.
  intros lk v Hlk.
  assert (Hb : forallb (fun lk => forallb (fun c => (0 <=? c) && (c <? 256)) (vl_name lk ++ default [] (val start 2 lk))) m = true) by (by vm_compute).
  rewrite forallb_forall in Hb. specialize (Hb lk). rewrite <- list_elem_of_In in Hb. specialize (Hb Hlk).
  rewrite forallb_app in Hb. apply andb_true_iff in Hb as [H1 H2]. clear Hlk.
  assert (Hu : forall l, forallb (fun c => (0 <=? c) && (c <? 256)) l = true -> Forall is_u8 l).
  { intros l Hl. apply Forall_forall. intros c Hc. rewrite forallb_forall in Hl. specialize (Hl c). rewrite <- list_elem_of_In in Hl.
    specialize (Hl Hc). apply andb_true_iff in Hl as [?%Z.leb_le ?%Z.ltb_lt]. by split. }
  split; [by apply Hu|]. intros E. rewrite E in H2. by apply Hu.
Qed.

Lemma start_handing : handing mem m D 1 2 start buf.
Proof.
  split; [done|by vm_compute|apply (bool_decide_unpack _); by vm_compute|apply (bool_decide_unpack _); by vm_compute|..]; try done.
  - exact start_inv.
  - exact start_bytes.
  - unfold pb_wf, zlen, is_u8, INT_MAX; simpl. split_and!; try lia. repeat constructor; lia.
Qed.

Definition key_word (w : list Z) : bool := bool_decide (w ∈ [str "user"; str "all"; str "default"]).

Lemma start_values :
  Forall (fun lk => name_ok (vl_name lk) /\ is_Some (stands_for key_word (vl_name lk) (val start 2 lk))) m.
Proof.
  repeat (apply Forall_cons; split; [split; [split; [done|apply (bool_decide_unpack _); by vm_compute]|by vm_compute; eexists]|]).
  by apply Forall_nil.
Qed.

Lemma apply_reads_back_witness :
  exists b' σ', varcache_apply mem m sent buf 1 2 start = Ok ((true, true, b'), σ') /\
    exists text cs, pb_bytes b' = enc_packet PqMsg_Query (text ++ [0]) /\ read_commands key_word (length text) true text = Some cs /\
      says key_word [(str "TimeZone", Some (str "GMT")); (str "search_path", Some (str "a, b"))] cs.
Proof.
  destruct (apply_reads_back mem m D 1 2 key_word start buf sent) as (_ & _ & snt & b' & σ' & E & _ & _ & Hr).
  - exact m_wf.
  - exact start_handing.
  - exact start_values.
  - assert (Ha : assignments start 1 2 m = [(str "TimeZone", Some (str "GMT")); (str "search_path", Some (str "a, b"))]) by (by vm_compute).
    rewrite Ha in *. assert (snt = true) as ->.
    { vm_compute in E. by injection E. }
    exists b', σ'. split; [exact E|]. destruct Hr as (text & Hb & _ & Hrd); [done..|]. destruct (Hrd true) as (cs & Hc & Hsay).
    exists text, cs. split; [exact Hb|]. split; [exact Hc|exact Hsay].
Defined.

(** The names in the value of search_path. *)
Lemma names_read :
  value_names key_word (str "a, b") = Some [str "a"; str "b"] /\
  value_names key_word (quoted_user ++ str ", Public") = Some [str "$user"; str "public"] /\
  value_names key_word (str "public--") = None /\ value_names key_word [39] = None.
Proof. by vm_compute. Qed.




(** A value whose literal does not fit 128 bytes is not sent, and yet the
    server's cache has it once another parameter was set. *)
Definition m2 : list var_lookup := Eval vm_compute in init_var_lookup (str "app.ctx").
Definition long : list Z := replicate 130 97.
Definition start2 : VStore :=
    match vsteps mem m2 [VNew 1; VNew 2; VNew 3; VSet 2 (str "timezone") (Some (str "GMT"));
                         VSet 2 (str "app.ctx") (Some long)]%positive empty_store with
    | Ok (_, σ) => σ
    | _ => empty_store
    end.

Definition after2 : res VStore :=
  '(_, σ1) ← varcache_apply mem m2 sent buf 1 2 start2;
  '(_, σ2) ← varcache_set_canonical m2 1 2 3 σ1;
  Ok σ2.

Lemma long_value_recorded_not_sent :
  assignments start2 1 2 m2 = [(str "TimeZone", Some (str "GMT"))] /\
  match after2, find_var (str "app.ctx") m2 with
  | Ok σ2, Some lk => val start2 1 lk = None /\ val σ2 1 lk = Some long
  | _, _ => False
  end.
Proof. split; vm_compute; [reflexivity|]. split; reflexivity. Qed.
End Example.
